(* ===== verification/_CoqProject ===== *)
-Q . S2P
Prelude.v
Numeric.v
Vendor.v
Boundaries.v
Instruments.v
Contracts.v
Orders.v
Fifo.v
ContractPnl.v
Inputs.v
Costs.v
Roundtrip.v
Account.v
Callbacks.v
Sparse.v
Stages.v
Risk.v
ControlPlane.v
Strategy.v
StageRuns.v
Engine.v
Simulators.v
Rules.v
Schedule.v
Runs.v
Guards.v
SimulatorFacts.v
RuleFacts.v
Ipc.v
IpcFacts.v
Universe.v
Portfolio.v
Calendar.v
CalendarFacts.v
Segment.v
SegmentFacts.v
FactorIdentity.v
FactorIdentityFacts.v
Fs.v
CacheFiles.v
CacheWitness.v
Metrics.v
MetricsFacts.v
FactorStore.v
FactorStoreFacts.v
StoreCleanup.v
StoreCleanupFacts.v
EvictionFacts.v
Admission.v
FactorDag.v
FactorDagFacts.v
Markets.v
MarketsFacts.v
Optimizer.v
OptimizerFacts.v
Configuration.v
ConfigurationFacts.v
Calculation.v
CalculationFacts.v
Description.v
DescriptionFacts.v
Builder.v
MarketData.v
Bundle.v
BundleFacts.v
BundleRoundtrip.v
