(* ===== verification/Prelude.v ===== *)
(** * Gambit: a verification development for the event-driven backtester

    ** What is modelled

    The package under src/src/gambit simulates trading strategies: rules turn
    signals into orders, market simulators turn orders into trades, and an account
    keeps positions and P&L.  The development translates that core, the
    validation around it, the factor store beside it with its file operations,
    and the optimizer and configuration that drive runs.  A Python function is a
    Rocq function; a method that mutates objects is a computation in [ST S A],
    which gives back the state it reached together with its value or exception,
    so that what an exception leaves behind can be stated.  Every definition is
    executable, witnesses are evaluated.  Module names below are under
    src/src/gambit.

    - This file: Python exceptions ([exn]), [result], the state computations
      [ST], insertion-ordered dictionaries ([dict_get], [dict_set], [dict_pop]),
      the tactics ([inv_ok], [bools]) and the list lemmas everything shares.
    - Numeric.v: floats as the class [PyFloat], with two instances: [binary64]
      (IEEE, used for what the code computes) and [exact] (rationals with one
      error value, used to state what it means to compute); C-long arithmetic.
    - Vendor.v: the NumPy, Polars and sortedcontainers calls of the core, as
      classes with the laws their documentation states, and reference instances.
    - Boundaries.v: boundaries.py.  Instruments.v: instruments.py.
    - Contracts.v: [Contract] and [ContractGroup] of pq_types.py with their two
      class-level registries.  Orders.v: prices, orders, order life cycle and
      trades of pq_types.py.
    - Fifo.v: compute_pnl.pyx and pnl_calculation.py, with the reference [fifo].
      ContractPnl.v: contract_pnl.py.  Roundtrip.v: trade_reconciliation.py.
      Account.v: account.py with execution_snapshots.py.
    - Inputs.v: strategy_inputs.py and the price adapters.  Costs.v:
      execution_costs.py.
    - Callbacks.v: callback_contracts.py, order_callback_state.py: what a user
      callback may return and what it may have done to shared orders.
    - Sparse.v: sparse_iterations.py.  Stages.v: stages.py,
      strategy_validation.py.  Risk.v: risk.py.  ControlPlane.v: control_plane.py.
    - Strategy.v, StageRuns.v: registration and the indicator and signal stages of
      strategy.py.  Engine.v: its rule schedule, order queue, callbacks and
      execution loop.  Simulators.v and Rules.v: strategy_components.py.
    - Portfolio.v: portfolio.py, several strategies over one clock.
    - Ipc.v: ipc_validation.py and bundle_limits.py, the preflight of Arrow IPC
      files as a parser over bytes.  Universe.v: universe.py.
    - Calendar.v: holiday_calendars.py.
    - Segment.v: factor_cache.py, segments on disk.  FactorIdentity.v:
      factor_identity.py, keys of factor-DAG nodes.
    - Fs.v: a file system as a finite map with the calls the store makes, each of
      which may fail, and a trace of the states a crash can leave.  CacheFiles.v:
      what the store keeps in files and how it reads them back; CacheWitness.v: a
      concrete instance.  FactorStore.v: publication and loading of generations of
      factor_store.py; StoreCleanup.v: its garbage collection and eviction;
      Metrics.v: its lifetime counters; Admission.v: factor_admission.py.
    - FactorDag.v: factor_dag.py, planning and cached execution of a factor DAG.
    - Markets.v: markets.py, E-mini symbols and expiries.
    - Optimizer.v: optimize.py, one process or a pool of workers.
    - Configuration.v: configuration.py.  Calculation.v: calculation.py and
      currency.py.  Description.v: execution_identity.py.  Builder.v:
      strategy_builder.py.  MarketData.v: market_data.py.
    - Bundle.v: backtest_result.py, the result of a run and the bundle it is saved
      to; BundleRoundtrip.v: what is saved is read back.
    - Schedule.v, Runs.v, Guards.v, EvictionFacts.v and the files called
      <component>Facts.v: theorems about the components, kept apart from the
      definitions where these are long.

    ** How the parts interact

    [Engine.run_rules] drives a run.  Its state [engine] holds the world of the
    user's callbacks (any type), a heap of order objects shared by reference
    between the engine and the callbacks, the account and the pending orders.  A
    bar runs: the expiry pass, the market simulators on the eligible orders
    ([Callbacks.validate_market_trades] decides what is let in, the account books
    it through [ContractPnl] and [Fifo]), then the rules scheduled by [Sparse]
    buckets, each order they return being checked ([Callbacks]) and decided by the
    risk policy ([Risk]).  [Portfolio] interleaves several engines over the merged
    clock, sharing heap, registry and world.

    [FactorDag.execute] plans nodes by their keys ([FactorIdentity]), opens those
    the store has ([FactorStore.open_generation_by_node_key]) and publishes those
    it computes; [StoreCleanup] deletes generations under the locks and leases the
    readers take.  All of them run in one monad over [Fs], in which every call may
    fail and any prefix of the calls may be all that happened.  [Builder] registers
    what [Strategy] runs, and [Optimizer] runs user functions over suggestions.

    ** What the theorems show

    - Runs: every trade executes a pending order that was itself accepted, at least
      trade_lag bars earlier; every order is decided once; a failing callback
      changes no pending order, and a failing simulator neither orders nor account.
    - Money: the native FIFO kernel refines its specification and terminates; P&L
      is what its definition says in exact arithmetic whatever the batching; the
      account is atomic and its positions add up.
    - Orders and risk: the life cycle of an order; position limits hold over all
      fills; bracket orders stay within their risk; simulators return batches the
      engine accepts.
    - Schedules: buckets list exactly the rules that are due; stages run in an
      order that respects dependencies; the merged clock takes each strategy
      through its own bars.
    - Data: price adapters never look ahead; calendars count and displace exactly;
      the IPC preflight never reads outside its buffers and terminates; a segment
      write is crash-atomic and damage is noticed; node keys identify exactly, and
      read back.
    - The factor store: publication is atomic for every reader at every moment;
      garbage collection and eviction take nothing in use; counters are added once
      or not at all; cached execution of a DAG gives what uncached evaluation gives.
    - The optimizer: a pool run ends, evaluates every suggestion once, and never
      exceeds its bound on pending tasks.
    - Result bundles: a save is there whole or not at all at every moment; loading
      gives back only what the files say, and refuses the rest.
    - Records and inputs: contexts, configurations and the descriptions of
      components are exactly the valid ones; a run's fingerprint identifies what it
      should; a market-data report is valid exactly for well-formed bars; the
      current E-mini contract is the front one from 2020 on.
    - Registries and universes: consistency under every operation; all-or-nothing
      creation.

    ** Bounds and fuel

    Recursion that is not structural runs on fuel: the netting loop of [Fifo]
    (fuel from the sizes of the queues), the verifier of [Ipc] (from the length of
    the file and the depth limit of the code), topological sorting in [Stages]
    (from the number of nodes), the optimizer's pool ([OptimizerFacts] gives a
    number of steps, linear in the suggestions, that is enough).  [Description]
    recurses on the nine levels the code allows.  Running out is the value [NativeFault] or
    [OutOfFuel], and the theorems show that it does not happen.  Times are int64
    nanoseconds as [Z]; C longs wrap where the code computes with them.

    ** What is not modelled

    Plotting and reports (interactive_plot.py, evaluator.py, return_reporting.py,
    risk_reporting.py, and the frames and plots of optimize.py); bulk I/O
    (pq_io.py); numerical risk models and sizing
    (var_risk.py, covariance_risk.py, risk_measures.py, position_sizing.py); of the
    factor store, migration between format versions, the command line and the
    device probes; the frame helpers of pq_utils.py; the construction of vendor
    calendars; finalizers; native C++ code other than the Cython kernel; and the
    vendor libraries.  What the code relies on of a library is a class with laws:
    [Numpy], [NumpyCast], [NumpySignals], [DatetimeText], [SortedDict], [Polars],
    [PolarsTypes], [NumpyBusdays] and [BusdayNat], [FloatOfInt], [DoubleBytes],
    [JsonText], [JsonLoadsPlain], [Sha256], [World] and [WorldLaws] (which calls
    fail, random names), [UuidLaws], [Host] (clock and processes), [CacheFiles] and
    [CacheFilesLaws], [DataFrames] and [DataFramesLaws], [Timer], [Bars] and
    [BarsLaws], and of bundles [ResultFrames], [ManifestText], [Datetimes],
    [BundleErrors] and [BundleLaws].  The backtester has no threads.  In the factor
    store other processes are seen as the states a reader may meet between two
    calls, and the workers of the optimizer as the order in which their results
    arrive. *)

From stdpp Require Export prelude gmap strings list fin_maps sorting.
From Stdlib Require Export ZArith Lia.


(** ** Python exceptions and fallible computations *)

(** The exception classes the package raises or catches.  The string is the
    constant part of the message; it distinguishes the branches of one class. *)
Inductive exn :=
  | TypeError (msg : string)
  | ValueError (msg : string)
  | IndexError (msg : string)
  | KeyError (msg : string)
  | AttributeError (msg : string)
  | OverflowError (msg : string)
  | ZeroDivisionError (msg : string)
  | RuntimeError (msg : string)
  | PQException (msg : string)
  | GenericException (msg : string)   (* raise Exception(...) *)
  | BacktestBundleError (msg : string)
  | FileExistsError
  | FileNotFoundError
  | OSError (msg : string)
  | FactorStoreError (msg : string)
  | FactorNodeCacheMiss
  | FactorMetricsError (msg : string)
  | StructError            (* struct.error *)
  | UnicodeDecodeError
  | RecursionError
  | StopIteration
  | OptimizerWorkerError (msg : string)
  | PolarsError (msg : string)
  | OutOfFuel              (* the bound of a modelled loop; proved never reached *)
  | BacktestCallbackError (msg : string) (cause : exn)
  | UserException (tag : Z)
  | NativeFault            (* undefined behaviour in native code; proved unreachable *)
  | KeyboardInterrupt.

#[export] Instance exn_eq_dec : EqDecision exn.
Proof. solve_decision. Defined.

(** [except Exception] does not catch [KeyboardInterrupt]; [except
    BaseException] catches everything. *)
Definition is_Exception (e : exn) : bool :=
  match e with KeyboardInterrupt => false | _ => true end.

Inductive result (A : Type) :=
  | Ok (a : A)
  | Err (e : exn).
Arguments Ok {A} a.
Arguments Err {A} e.

#[export] Instance result_eq_dec `{EqDecision A} : EqDecision (result A).
Proof. solve_decision. Defined.

#[export] Instance result_ret : MRet result := fun A a => Ok a.
#[export] Instance result_bind : MBind result := fun A B f r =>
  match r with Ok a => f a | Err e => Err e end.
#[export] Instance result_fmap : FMap result := fun A B f r =>
  match r with Ok a => Ok (f a) | Err e => Err e end.

Definition is_ok {A} (r : result A) : bool :=
  match r with Ok _ => true | Err _ => false end.

(** [raise e unless b]: the guard [if not b: raise e]. *)
Definition guard_ok (b : bool) (e : exn) : result unit :=
  if b then Ok tt else Err e.

Declare Scope py_scope.
Delimit Scope py_scope with py.
Notation "'unless' b 'raise' e ;; k" := (@mbind result result_bind unit _ (fun _ => k) (guard_ok b e))
  (at level 100, b at level 99, e at level 99, k at level 200, right associativity) : py_scope.
Notation "'whenever' b 'raise' e ;; k" := (@mbind result result_bind unit _ (fun _ => k) (guard_ok (negb b) e))
  (at level 100, b at level 99, e at level 99, k at level 200, right associativity) : py_scope.
#[global] Open Scope py_scope.

Lemma bind_Ok_inv {A B} (r : result A) (f : A -> result B) b :
  (r ≫= f) = Ok b -> exists a, r = Ok a /\ f a = Ok b.
Proof. destruct r; simpl; [eauto|discriminate]. Qed.

Lemma guard_Ok_inv b e u : guard_ok b e = Ok u -> b = true.
Proof. by destruct b. Qed.

Lemma guard_bind_Ok {B} b e (k : unit -> result B) r :
  (guard_ok b e ≫= k) = Ok r <-> b = true /\ k tt = Ok r.
Proof. destruct b; simpl; naive_solver. Qed.

Lemma guard_bind_Err {B} b e (k : unit -> result B) x :
  (guard_ok b e ≫= k) = Err x <-> (b = false /\ e = x) \/ (b = true /\ k tt = Err x).
Proof. destruct b; simpl; naive_solver. Qed.

(** ** State that survives an exception

    Python code mutates objects before it raises: a computation returns the
    state it reached together with its value or its exception. *)
Definition ST (S A : Type) : Type := S -> S * result A.

#[export] Instance ST_ret S : MRet (ST S) := fun A a s => (s, Ok a).
#[export] Instance ST_bind S : MBind (ST S) := fun A B f m s =>
  match m s with
  | (s', Ok a) => f a s'
  | (s', Err e) => (s', Err e)
  end.

#[export] Instance ST_fmap S : FMap (ST S) := fun A B f m s =>
  match m s with
  | (s', Ok a) => (s', Ok (f a))
  | (s', Err e) => (s', Err e)
  end.

Lemma ST_bind_Ok {S A B} (m : ST S A) (f : A -> ST S B) s s' b :
  (m ≫= f) s = (s', Ok b) -> exists s1 a, m s = (s1, Ok a) /\ f a s1 = (s', Ok b).
Proof. unfold mbind, ST_bind. destruct (m s) as [s1 [a|]]; [eauto|done]. Qed.

Lemma ST_fmap_Ok {S A B} (f : A -> B) (m : ST S A) s s' b :
  (f <$> m) s = (s', Ok b) -> exists a, m s = (s', Ok a) /\ b = f a.
Proof. unfold fmap, ST_fmap. destruct (m s) as [s1 [a|]]; [|done]. intros [= <- <-]. eauto. Qed.

Definition st_get {S} : ST S S := fun s => (s, Ok s).
Definition st_put {S} (s : S) : ST S unit := fun _ => (s, Ok tt).
Definition st_modify {S} (f : S -> S) : ST S unit := fun s => (f s, Ok tt).
Definition st_raise {S A} (e : exn) : ST S A := fun s => (s, Err e).
Definition st_lift {S A} (r : result A) : ST S A := fun s => (s, r).

(** A computation on a pair of states, split into its parts. *)
Lemma run_eta {S1 S2 A} (x : (S1 * S2) * A) r : x.2 = r -> x = ((x.1.1, x.1.2), r).
Proof. destruct x as [[] ?]. by intros <-. Qed.

(** Run [body] on each element in order, stopping at the first exception. *)
Fixpoint st_iter {S A} (body : A -> ST S unit) (l : list A) : ST S unit :=
  match l with
  | [] => mret tt
  | x :: l => body x ≫= fun _ => st_iter body l
  end.

(** A preorder on states that every step respects relates the ends of the loop,
    whatever its outcome. *)
Lemma st_iter_rel {S A} (R : S -> S -> Prop) `{!PreOrder R} (body : A -> ST S unit) l s s' r :
  (forall x s s' r, x ∈ l -> body x s = (s', r) -> R s s') -> st_iter body l s = (s', r) -> R s s'.
Proof.
  revert s. induction l as [|x l IH]; intros s Hbody; simpl.
  - unfold mret, ST_ret. intros. by simplify_eq.
  - unfold mbind, ST_bind. destruct (body x s) as [s1 [[]|e]] eqn:Hx; intros Heq.
    + etrans; [by eapply Hbody; [left|]|]. eapply IH; [|done]. intros y ? ? ? Hy. apply Hbody. by right.
    + simplify_eq. by eapply Hbody; [left|].
Qed.

(** The same loop in the error monad, threading an accumulator. *)
Fixpoint foldE {A B} (body : B -> A -> result B) (acc : B) (l : list A) : result B :=
  match l with
  | [] => Ok acc
  | x :: l => body acc x ≫= fun acc' => foldE body acc' l
  end.

Fixpoint iterE {A} (body : A -> result unit) (l : list A) : result unit :=
  match l with
  | [] => Ok tt
  | x :: l => body x ≫= fun _ => iterE body l
  end.

(** [mapM] over results *)
Lemma mapM_Ok {A B} (f : A -> result B) l k : mapM f l = Ok k <-> Forall2 (fun x y => f x = Ok y) l k.
Proof.
  split.
  - revert k. induction l as [|x l IH]; intros k; simpl; [by intros [= <-]|].
    destruct (f x) eqn:Hx; [|done]. simpl. destruct (mapM f l) eqn:Hl; [|done]. intros [= <-]. constructor; auto.
  - induction 1 as [|x y l k Hx _ IH]; simpl; [done|]. rewrite Hx. simpl. by rewrite IH.
Qed.

Lemma iterE_Ok {A} (body : A -> result unit) l :
  iterE body l = Ok tt <-> Forall (fun x => body x = Ok tt) l.
Proof.
  induction l as [|x l IH]; simpl; [naive_solver|].
  rewrite Forall_cons, <- IH. destruct (body x) as [[]|]; simpl; naive_solver.
Qed.

Lemma foldE_app {A B} (body : B -> A -> result B) acc l1 l2 :
  foldE body acc (l1 ++ l2) = foldE body acc l1 ≫= fun a => foldE body a l2.
Proof.
  revert acc. induction l1 as [|x l1 IH]; intros acc; simpl; [done|].
  destruct (body acc x); simpl; [apply IH|done].
Qed.

Lemma foldE_ext {A B} (f g : B -> A -> result B) acc l :
  (forall b x, f b x = g b x) -> foldE f acc l = foldE g acc l.
Proof.
  intros Hfg. revert acc. induction l as [|x l IH]; intros acc; cbn [foldE]; [done|].
  rewrite Hfg. destruct (g acc x); [apply IH|done].
Qed.

(** A loop that collects the elements that pass a test. *)
Lemma foldE_filter {A} (p : A -> bool) l acc :
  foldE (fun acc x => Ok (if p x then acc ++ [x] else acc)) acc l = Ok (acc ++ filter (fun x => p x = true) l).
Proof.
  revert acc. induction l as [|x l IH]; intros acc; cbn [foldE]; [by rewrite app_nil_r|].
  cbn [mbind result_bind]. rewrite IH, filter_cons. destruct (p x); [rewrite decide_True by done|rewrite decide_False by done].
  - by rewrite <- app_assoc.
  - done.
Qed.

(** An invariant kept by every step is kept by the loop. *)
Lemma foldE_inv {A B} (P : B -> Prop) (body : B -> A -> result B) l acc r :
  (forall b x b', x ∈ l -> P b -> body b x = Ok b' -> P b') ->
  P acc -> foldE body acc l = Ok r -> P r.
Proof.
  revert acc. induction l as [|x l IH]; intros acc Hstep Hacc; simpl; [naive_solver|].
  intros (b & Hb & Hr)%bind_Ok_inv.
  eapply IH; [|eapply (Hstep acc x); [left|done|done]|done].
  intros b0 y b1 Hy. apply Hstep. by right.
Qed.

(** ** Python dictionaries: insertion-ordered, unique keys *)

Section PyDict.
Context {K V : Type} `{EqDecision K}.
Implicit Types d : list (K * V).

Fixpoint dict_get (d : list (K * V)) (k : K) : option V :=
  match d with
  | [] => None
  | (k', v) :: d => if decide (k = k') then Some v else dict_get d k
  end.

Definition dict_mem d k : bool := bool_decide (is_Some (dict_get d k)).

(** [d[k] = v]: replaces in place, or appends a new key at the end. *)
Fixpoint dict_set (d : list (K * V)) (k : K) (v : V) : list (K * V) :=
  match d with
  | [] => [(k, v)]
  | (k', v') :: d => if decide (k = k') then (k', v) :: d else (k', v') :: dict_set d k v
  end.

Fixpoint dict_pop (d : list (K * V)) (k : K) : list (K * V) :=
  match d with
  | [] => []
  | (k', v') :: d => if decide (k = k') then d else (k', v') :: dict_pop d k
  end.

Definition dict_keys d : list K := d.*1.
Definition dict_values d : list V := d.*2.
Definition dict_wf d : Prop := NoDup (dict_keys d).

Lemma dict_get_set_eq d k v : dict_get (dict_set d k v) k = Some v.
Proof.
  induction d as [|[k' v'] d IH]; simpl; [by rewrite decide_True|].
  destruct (decide (k = k')) as [Heq|Hne]; simpl.
  - by rewrite decide_True.
  - by rewrite decide_False.
Qed.

Lemma dict_get_set_ne d k k' v : k' <> k -> dict_get (dict_set d k v) k' = dict_get d k'.
Proof.
  intros. induction d as [|[k0 v0] d IH]; simpl.
  - by rewrite decide_False.
  - case_decide; simplify_eq; simpl; case_decide; simplify_eq; done.
Qed.

Lemma dict_get_set d k k' v :
  dict_get (dict_set d k v) k' = if decide (k' = k) then Some v else dict_get d k'.
Proof. case_decide; subst; [apply dict_get_set_eq|by apply dict_get_set_ne]. Qed.

Lemma dict_keys_set d k v :
  dict_keys (dict_set d k v) = if decide (k ∈ dict_keys d) then dict_keys d else dict_keys d ++ [k].
Proof.
  unfold dict_keys. induction d as [|[k0 v0] d IH]; csimpl; [done|].
  destruct (decide (k = k0)) as [->|Hne]; csimpl.
  - rewrite decide_True; [done|left].
  - rewrite IH. repeat case_decide; try done; set_solver.
Qed.

Lemma dict_get_None d k : dict_get d k = None <-> k ∉ dict_keys d.
Proof.
  unfold dict_keys. induction d as [|[k0 v0] d IH]; csimpl; [split; [set_solver|done]|].
  case_decide; subst; [split; [done|set_solver]|]. rewrite IH. set_solver.
Qed.

Lemma dict_get_Some_keys d k v : dict_get d k = Some v -> k ∈ dict_keys d.
Proof. intros H. destruct (decide (k ∈ dict_keys d)) as [|Hn]; [done|].
  apply dict_get_None in Hn. congruence. Qed.

Lemma dict_set_wf d k v : dict_wf d -> dict_wf (dict_set d k v).
Proof.
  unfold dict_wf. rewrite dict_keys_set. case_decide; [done|].
  intros. apply NoDup_app. split_and!; [done| |apply NoDup_singleton]. set_solver.
Qed.

Lemma dict_get_pop d k k' :
  dict_wf d -> dict_get (dict_pop d k) k' = if decide (k' = k) then None else dict_get d k'.
Proof.
  unfold dict_wf. induction d as [|[k0 v0] d IH]; csimpl; [by case_decide|]. rewrite NoDup_cons. intros [Hn Hd].
  destruct (decide (k = k0)) as [->|Hne].
  - destruct (decide (k' = k0)) as [->|]; [|done]. by apply dict_get_None.
  - csimpl. rewrite IH by done. repeat case_decide; congruence.
Qed.

Lemma dict_pop_wf d k : dict_wf d -> dict_wf (dict_pop d k).
Proof.
  unfold dict_wf, dict_keys. induction d as [|[k0 v0] d IH]; csimpl; [done|]. rewrite NoDup_cons. intros [Hn Hd].
  case_decide; [done|]. csimpl. apply NoDup_cons. split; [|by apply IH].
  intros Hin. apply Hn. clear -Hin. induction d as [|[k1 v1] d IH]; csimpl in *; [done|].
  case_decide; [by right|]. csimpl in *. apply elem_of_cons in Hin as [->|Hin]; [left|right; by apply IH].
Qed.

Lemma dict_set_fresh d k v : dict_get d k = None -> dict_set d k v = d ++ [(k, v)].
Proof.
  induction d as [|[k0 v0] d IH]; simpl; [done|]. case_decide; [done|]. intros. by rewrite IH.
Qed.

Lemma dict_get_app d1 d2 k :
  dict_get (d1 ++ d2) k = match dict_get d1 k with Some v => Some v | None => dict_get d2 k end.
Proof. induction d1 as [|[k0 v0] d1 IH]; simpl; [done|]. by case_decide. Qed.

Lemma dict_get_Some_In d k v : dict_get d k = Some v -> (k, v) ∈ d.
Proof.
  induction d as [|[k0 v0] d IH]; simpl; [done|]. case_decide; intros; simplify_eq; set_solver.
Qed.

Lemma dict_In_get d k v : dict_wf d -> (k, v) ∈ d -> dict_get d k = Some v.
Proof.
  unfold dict_wf, dict_keys. induction d as [|[k0 v0] d IH]; simpl; [set_solver|].
  rewrite NoDup_cons. intros [Hn Hd] [Heq|Hin]%elem_of_cons.
  - simplify_eq. by rewrite decide_True.
  - rewrite decide_False; [by apply IH|]. intros ->. apply Hn.
    apply list_elem_of_fmap. by exists (k0, v).
Qed.
End PyDict.

(** [d[k] = f(d[k])], when [k] is there. *)
Definition dict_update {K V} `{EqDecision K} (d : list (K * V)) (k : K) (f : V -> V) : list (K * V) :=
  (fun '(k', v) => (k', if decide (k = k') then f v else v)) <$> d.

(** [d[k].append(x)] on a [defaultdict(list)]. *)
Definition dict_append {K V} `{EqDecision K} (d : list (K * list V)) (k : K) (x : V) : list (K * list V) :=
  dict_set d k (default [] (dict_get d k) ++ [x]).

Section DictUpdate.
Context {K V : Type} `{EqDecision K}.
Implicit Types d : list (K * V).

Lemma dict_keys_update d k f : dict_keys (dict_update d k f) = dict_keys d.
Proof.
  unfold dict_keys, dict_update. rewrite <- list_fmap_compose. apply list_fmap_ext. by intros i [k' v] _.
Qed.

Lemma dict_get_update d k f k' :
  dict_get (dict_update d k f) k' = if decide (k' = k) then f <$> dict_get d k' else dict_get d k'.
Proof.
  induction d as [|[k0 v0] d IH]; csimpl; [by case_decide|].
  destruct (decide (k' = k0)) as [->|]; [|done].
  destruct (decide (k = k0)) as [->|]; [by rewrite decide_True|]. by rewrite decide_False.
Qed.

(** Collecting the values of a dictionary's keys gives it back. *)
Lemma dict_rebuild d (f : K -> option V) :
  dict_wf d -> (forall k v, dict_get d k = Some v -> f k = Some v) ->
  omap (fun k => (fun v => (k, v)) <$> f k) (dict_keys d) = d.
Proof.
  unfold dict_wf, dict_keys. induction d as [|[k v] d IH]; intros Hwf Hf; csimpl in *; [done|].
  apply NoDup_cons in Hwf as [Hn Hwf]. rewrite (Hf k v) by (by rewrite decide_True). simpl. f_equal.
  apply IH; [done|]. intros k' v' Hk'. apply Hf. rewrite decide_False; [done|].
  intros ->. apply Hn. by apply dict_get_Some_keys in Hk'.
Qed.

Lemma dict_update_wf d k f : dict_wf d -> dict_wf (dict_update d k f).
Proof. unfold dict_wf. by rewrite dict_keys_update. Qed.

(** Two dictionaries with the same keys and the same values are equal. *)
Lemma dict_ext d1 d2 :
  dict_wf d1 -> dict_keys d1 = dict_keys d2 -> (forall k, dict_get d1 k = dict_get d2 k) -> d1 = d2.
Proof.
  unfold dict_wf, dict_keys. revert d2.
  induction d1 as [|[k v] d1 IH]; intros [|[k' v'] d2] Hwf Hks Hg; csimpl in *; try done.
  apply NoDup_cons in Hwf as [Hn Hwf]. injection Hks as -> Hks.
  pose proof (Hg k') as Hv. rewrite !decide_True in Hv by done. injection Hv as ->. f_equal.
  apply IH; [done..|]. intros k. pose proof (Hg k) as Hgk. case_decide; [subst|done].
  transitivity (@None V); [|symmetry]; apply dict_get_None; unfold dict_keys; by rewrite <- ?Hks.
Qed.
End DictUpdate.

(** ** Grouping a list by key, in order of first appearance *)

Section Grouping.
Context {K A : Type} `{EqDecision K} (key : A -> K).

Definition group_by (l : list A) : list (K * list A) := foldl (fun d x => dict_append d (key x) x) [] l.

Lemma dict_append_get (d : list (K * list A)) k x k' :
  default [] (dict_get (dict_append d k x) k') =
    if decide (k' = k) then default [] (dict_get d k) ++ [x] else default [] (dict_get d k').
Proof. unfold dict_append. rewrite dict_get_set. by case_decide. Qed.

Lemma group_by_inv l :
  dict_wf (group_by l) /\
  (forall k, default [] (dict_get (group_by l) k) = filter (fun x => key x = k) l) /\
  (forall k b, dict_get (group_by l) k = Some b -> b <> []).
Proof.
  unfold group_by. induction l as [|x l (IH1 & IH2 & IH3)] using rev_ind; [split_and!; [constructor|done|done]|].
  rewrite foldl_app. simpl. split_and!.
  - by apply dict_set_wf.
  - intros k. rewrite dict_append_get, filter_app, filter_cons, <- !IH2.
    case_decide as Hk; [subst; by rewrite decide_True|]. rewrite decide_False by congruence. by rewrite app_nil_r.
  - intros k b. unfold dict_append. rewrite dict_get_set. case_decide; [|apply IH3].
    intros [= <-] Hnil. by apply app_eq_nil in Hnil as [_ ?].
Qed.

Lemma group_by_get l k b :
  dict_get (group_by l) k = Some b <-> b = filter (fun x => key x = k) l /\ b <> [].
Proof.
  destruct (group_by_inv l) as (_ & H2 & H3). specialize (H2 k). specialize (H3 k).
  destruct (dict_get (group_by l) k) as [b'|]; simpl in *.
  - specialize (H3 b' eq_refl). split; [intros [= <-]; done|]. intros [-> _]. by rewrite <- H2.
  - split; [done|]. intros [-> Hb]. by rewrite <- H2 in Hb.
Qed.

Lemma group_by_wf l : dict_wf (group_by l).
Proof. apply group_by_inv. Qed.
End Grouping.

(** ** [sorted(l, key=...)]: stable *)

Section Sorted.
Context {A : Type} (key : A -> Z).

Fixpoint insert_by (x : A) (l : list A) : list A :=
  match l with
  | [] => [x]
  | y :: l => if (key x <=? key y)%Z then x :: y :: l else y :: insert_by x l
  end.

Definition sorted_by (l : list A) : list A := foldr insert_by [] l.

Lemma insert_by_perm x l : insert_by x l ≡ₚ x :: l.
Proof.
  induction l as [|y l IH]; simpl; [done|]. destruct (key x <=? key y)%Z; [done|].
  rewrite IH. apply Permutation_swap.
Qed.

Lemma sorted_by_perm l : sorted_by l ≡ₚ l.
Proof. induction l as [|x l IH]; simpl; [done|]. by rewrite insert_by_perm, IH. Qed.

Lemma insert_by_sorted x l :
  StronglySorted (fun a b => key a <= key b)%Z l -> StronglySorted (fun a b => key a <= key b)%Z (insert_by x l).
Proof.
  induction 1 as [|y l Hs IH Hy]; simpl; [by repeat constructor|].
  destruct (Z.leb_spec (key x) (key y)); constructor; try constructor; try done.
  - eapply Forall_impl; [exact Hy|]. simpl. lia.
  - rewrite insert_by_perm. constructor; [lia|done].
Qed.

Lemma sorted_by_sorted l : StronglySorted (fun a b => key a <= key b)%Z (sorted_by l).
Proof. induction l as [|x l IH]; simpl; [constructor|]. by apply insert_by_sorted. Qed.
End Sorted.

(** ** Shared automation *)

Create HintDb gambit.
Create Rewrite HintDb gambit.
#[export] Hint Resolve dict_set_wf : gambit.
#[export] Hint Rewrite @dict_get_set_eq : gambit.

(** Take one [Ok] computation apart: guards become hypotheses [b = true],
    binds become the intermediate value. *)
Ltac inv_ok H :=
  repeat first
    [ apply guard_bind_Ok in H; let Hg := fresh "Hguard" in destruct H as [Hg H]
    | let a := fresh "a" in let Ha := fresh "Hbind" in
      apply bind_Ok_inv in H; destruct H as (a & Ha & H) ];
  simplify_eq/=.

(** Run the first computation of a sequence whose head is closed. *)
Ltac bind_step :=
  match goal with |- (?m ≫= ?k) = _ =>
    let r := eval hnf in m in match r with Ok ?v => change (m ≫= k) with (k v); cbv beta end
  end.

Ltac case_matches_in H :=
  repeat match type of H with
  | context [match ?x with _ => _ end] => let E := fresh "E" in destruct x eqn:E
  end; simplify_eq/=.

Ltac case_matches :=
  repeat match goal with
  | |- context [match ?x with _ => _ end] =>
      let E := fresh "E" in destruct x eqn:E; simplify_eq/=
  end.

Ltac bools :=
  repeat match goal with
  | H : _ && _ = true |- _ => apply andb_true_iff in H; destruct H
  | H : _ || _ = false |- _ => apply orb_false_iff in H; destruct H
  | H : negb _ = true |- _ => apply negb_true_iff in H
  | H : negb _ = false |- _ => apply negb_false_iff in H
  | H : (_ <? _)%Z = true |- _ => apply Z.ltb_lt in H
  | H : (_ <? _)%Z = false |- _ => apply Z.ltb_ge in H
  | H : (_ <=? _)%Z = true |- _ => apply Z.leb_le in H
  | H : (_ <=? _)%Z = false |- _ => apply Z.leb_gt in H
  | H : (_ =? _)%Z = true |- _ => apply Z.eqb_eq in H
  | H : (_ =? _)%Z = false |- _ => apply Z.eqb_neq in H
  | H : bool_decide _ = true |- _ => apply bool_decide_eq_true in H
  | H : bool_decide _ = false |- _ => apply bool_decide_eq_false in H
  end.

(** ** Filters *)

Lemma filter_all {A} (P : A -> Prop) `{!forall x, Decision (P x)} l : Forall P l -> filter P l = l.
Proof. induction 1 as [|x l Hx Hl IH]; [done|]. by rewrite filter_cons_True, IH. Qed.

Lemma filter_none {A} (P : A -> Prop) `{!forall x, Decision (P x)} l :
  Forall (fun x => ~ P x) l -> filter P l = [].
Proof. induction 1 as [|x l Hx Hl IH]; [done|]. by rewrite filter_cons_False. Qed.

Lemma filter_ext_in {A} (P Q : A -> Prop) `{!forall x, Decision (P x)} `{!forall x, Decision (Q x)} (l : list A) :
  (forall x, x ∈ l -> P x <-> Q x) -> filter P l = filter Q l.
Proof.
  induction l as [|x l IH]; intros Hpq; [done|]. rewrite !filter_cons, IH by set_solver.
  repeat case_decide; try done; specialize (Hpq x ltac:(set_solver)); tauto.
Qed.

Lemma filter_cons_bool {A} (p : A -> bool) x l :
  filter (fun x => p x = true) (x :: l) = (if p x then [x] else []) ++ filter (fun x => p x = true) l.
Proof. rewrite filter_cons. by destruct (p x). Qed.

Lemma list_filter_fmap {A B} (f : A -> B) (P : B -> Prop) `{!forall x, Decision (P x)} (l : list A) :
  filter P (f <$> l) = f <$> filter (fun x => P (f x)) l.
Proof. induction l as [|x l IH]; [done|]. rewrite fmap_cons, !filter_cons, IH. by case_decide. Qed.

(** ** Sums of integers *)

Definition sumZ (l : list Z) : Z := foldr Z.add 0%Z l.

Lemma sumZ_app l1 l2 : sumZ (l1 ++ l2) = (sumZ l1 + sumZ l2)%Z.
Proof. induction l1; simpl; lia. Qed.

Lemma sumZ_perm l1 l2 : l1 ≡ₚ l2 -> sumZ l1 = sumZ l2.
Proof. induction 1; simpl; lia. Qed.

Lemma sumZ_cons x l : sumZ (x :: l) = (x + sumZ l)%Z.
Proof. done. Qed.

Lemma sumZ_nil : sumZ [] = 0%Z.
Proof. done. Qed.

#[export] Hint Rewrite sumZ_app sumZ_cons sumZ_nil : gambit.
Arguments sumZ : simpl never.

Lemma sumZ_fold_left l acc : foldl Z.add acc l = (acc + sumZ l)%Z.
Proof.
  revert acc. induction l as [|x l IH]; intros; simpl; [rewrite sumZ_nil; lia|].
  rewrite IH, sumZ_cons. lia.
Qed.

#[export] Instance sumZ_Proper : Proper ((≡ₚ) ==> eq) sumZ.
Proof. intros l1 l2. apply sumZ_perm. Qed.
