(* ===== verification/Numeric.v ===== *)
(** * Python numbers

    A Python [float] is an IEEE binary64.  The definitions of the development
    are generic in the type of floats (class [PyFloat]); two instances are
    given: [binary64] (the Standard Library's [spec_float] at precision 53,
    bit-exact and executable) and [exact] (rational numbers with a NaN), in
    which accounting identities hold without rounding.  [pyval] is a dynamically
    typed scalar, as the validators of [pq_types.py] receive it. *)

From S2P Require Import Prelude.
From Stdlib Require Import SpecFloat QArith Qcanon Qround.
From Stdlib Require Import Field Lqa.

Class PyFloat (F : Type) := {
  f_nan : F;
  f_of_Z : Z -> F;                 (* float(int), correctly rounded *)
  f_dec : Z -> nat -> F;           (* the literal m * 10^-n *)
  f_ratio : Z -> positive -> F;    (* n / d of two ints, correctly rounded *)
  f_add : F -> F -> F;
  f_sub : F -> F -> F;
  f_mul : F -> F -> F;
  f_div : F -> F -> F;
  f_opp : F -> F;
  f_abs : F -> F;
  f_eqb : F -> F -> bool;
  f_ltb : F -> F -> bool;
  f_leb : F -> F -> bool;
  f_isnan : F -> bool;
  f_isinf : F -> bool;
  f_trunc : F -> Z;                (* int(x) of a finite x *)
  f_floor : F -> Z;
  f_ceil : F -> Z;
  f_is_integer : F -> bool;
  f_signbit : F -> bool;
  f_round : F -> nat -> F;         (* round(x, n), n >= 0 *)
}.

Section Derived.
Context `{PyFloat F}.

Definition f_zero : F := f_of_Z 0.
Definition f_one : F := f_of_Z 1.
Definition f_isfinite (x : F) : bool := negb (f_isnan x) && negb (f_isinf x).
Definition f_gtb (x y : F) : bool := f_ltb y x.
Definition f_geb (x y : F) : bool := f_leb y x.
(* Python's min and max keep the first argument unless the second is strictly
 smaller (larger). *)
Definition f_min (x y : F) : F := if f_ltb y x then y else x.
Definition f_max (x y : F) : F := if f_ltb x y then y else x.
Definition f_copysign (x : F) (neg : bool) : F :=
if neg then f_opp (f_abs x) else f_abs x.

(** [math.isclose(a, b)] with the default tolerances. *)
Definition f_isclose (a b : F) : bool :=
f_eqb a b ||
(negb (f_isinf a || f_isinf b) &&
 (let diff := f_abs (f_sub b a) in
  let rel := f_dec 1 9 in
  f_leb diff (f_abs (f_mul rel b)) || f_leb diff (f_abs (f_mul rel a)) ||
  f_leb diff f_zero)).

(** Comparisons between an integer and a float are exact. *)
Definition z_leb_f (z : Z) (x : F) : bool :=
if f_isnan x then false else if f_isinf x then negb (f_signbit x) else (z <=? f_floor x)%Z.
Definition f_leb_z (x : F) (z : Z) : bool :=
if f_isnan x then false else if f_isinf x then f_signbit x else (f_ceil x <=? z)%Z.
Definition f_ltb_z (x : F) (z : Z) : bool := negb (f_isnan x) && negb (z_leb_f z x).

(** The integer a float equals, if it equals one. *)
Definition whole_float (x : F) : option Z :=
if f_isfinite x && f_is_integer x then Some (f_trunc x) else None.

(** [sum(xs)] of floats, from the integer 0. *)
Definition f_sum (l : list F) : F := foldl f_add f_zero l.
End Derived.

(** ** binary64 *)

Module Binary64.
Definition float := spec_float.
Definition prec : Z := 53.
Definition emax : Z := 1024.

Definition of_Z (z : Z) : float := binary_normalize prec emax z 0 false.

(** The correctly rounded value of [n / d], [d > 0]. *)
Definition of_ratio (n : Z) (d : positive) : float :=
match n with
| Z0 => S754_zero false
| Zpos p => let '(mz, ez, lz) := SFdiv_core_binary prec emax (Zpos p) 0 (Zpos d) 0 in
            binary_round_aux prec emax false mz ez lz
| Zneg p => let '(mz, ez, lz) := SFdiv_core_binary prec emax (Zpos p) 0 (Zpos d) 0 in
            binary_round_aux prec emax true mz ez lz
end.


Definition pow10_Z (n : nat) : Z := Z.pow 10 (Z.of_nat n).
Definition dec (m : Z) (n : nat) : float := of_ratio m (Z.to_pos (pow10_Z n)).

Definition isnan (x : float) : bool := match x with S754_nan => true | _ => false end.
Definition isinf (x : float) : bool := match x with S754_infinity _ => true | _ => false end.
Definition signbit (x : float) : bool :=
match x with
| S754_zero s | S754_infinity s | S754_finite s _ _ => s
| S754_nan => false
end.

(** The exact rational value [n / d] of a finite float. *)
Definition ratio (x : float) : Z * positive :=
match x with
| S754_finite s m e =>
    let n := if s then Zneg m else Zpos m in
    match e with
    | Zneg k => (n, Pos.pow 2 k)
    | _ => (n * Z.pow 2 e, 1%positive)%Z
    end
| _ => (0%Z, 1%positive)
end.

Definition floor (x : float) : Z := let '(n, d) := ratio x in (n / Zpos d)%Z.
Definition ceil (x : float) : Z := let '(n, d) := ratio x in (- ((- n) / Zpos d))%Z.
Definition trunc (x : float) : Z := let '(n, d) := ratio x in Z.quot n (Zpos d).
Definition is_integer (x : float) : bool :=
match x with
| S754_nan | S754_infinity _ => false
| _ => let '(n, d) := ratio x in (n mod Zpos d =? 0)%Z
end.

(** The integer nearest to [n / d], ties to even. *)
Definition nearest_even (n : Z) (d : positive) : Z :=
let q := (n / Zpos d)%Z in
let r := (n mod Zpos d)%Z in
match (2 * r ?= Zpos d)%Z with
| Lt => q
| Gt => q + 1
| Eq => if Z.even q then q else q + 1
end%Z.

Definition round (x : float) (n : nat) : float :=
match x with
| S754_finite s _ _ =>
    let '(p, d) := ratio x in
    let k := nearest_even (p * pow10_Z n) d in
    if (k =? 0)%Z then S754_zero s else of_ratio k (Z.to_pos (pow10_Z n))
| _ => x
end.
End Binary64.

#[export] Instance binary64 : PyFloat spec_float := {|
  f_nan := S754_nan;
  f_of_Z := Binary64.of_Z;
  f_dec := Binary64.dec;
  f_ratio := Binary64.of_ratio;
  f_add := SFadd Binary64.prec Binary64.emax;
  f_sub := SFsub Binary64.prec Binary64.emax;
  f_mul := SFmul Binary64.prec Binary64.emax;
  f_div := SFdiv Binary64.prec Binary64.emax;
  f_opp := SFopp;
  f_abs := SFabs;
  f_eqb := SFeqb;
  f_ltb := SFltb;
  f_leb := SFleb;
  f_isnan := Binary64.isnan;
  f_isinf := Binary64.isinf;
  f_trunc := Binary64.trunc;
  f_floor := Binary64.floor;
  f_ceil := Binary64.ceil;
  f_is_integer := Binary64.is_integer;
  f_signbit := Binary64.signbit;
  f_round := Binary64.round;
|}.

(** ** Exact arithmetic *)

(** The rational with the integer value [z]. *)
Definition zq (z : Z) : Qc := Q2Qc (inject_Z z).
Arguments zq : simpl never.

Module Exact.
(** [None] is NaN; there are no infinities and no rounding. *)
Definition num := option Qc.

Definition of_Z (z : Z) : num := Some (zq z).
Definition lift2 (f : Qc -> Qc -> Qc) (x y : num) : num :=
match x, y with Some a, Some b => Some (f a b) | _, _ => None end.
Definition cmp (f : Qc -> Qc -> bool) (x y : num) : bool :=
match x, y with Some a, Some b => f a b | _, _ => false end.
Definition qleb (a b : Qc) : bool := Qle_bool a b.
Definition qltb (a b : Qc) : bool := negb (Qle_bool b a).
Definition qeqb (a b : Qc) : bool := Qeq_bool a b.
Definition div (x y : num) : num :=
match x, y with
| Some a, Some b => if qeqb b 0 then None else Some (a / b)%Qc
| _, _ => None
end.
Definition ratio (x : num) : Z * positive :=
match x with Some a => (Qnum a, Qden a) | None => (0%Z, 1%positive) end.
Definition dec (m : Z) (n : nat) : num :=
Some (Q2Qc (m # Z.to_pos (Binary64.pow10_Z n))).
Definition round (x : num) (n : nat) : num :=
match x with
| Some a => dec (Binary64.nearest_even (Qnum a * Binary64.pow10_Z n) (Qden a)) n
| None => None
end.
End Exact.

#[export] Instance exact : PyFloat (option Qc) := {|
  f_nan := None;
  f_of_Z := Exact.of_Z;
  f_dec := Exact.dec;
  f_ratio n d := Some (Q2Qc (n # d));
  f_add := Exact.lift2 Qcplus;
  f_sub := Exact.lift2 Qcminus;
  f_mul := Exact.lift2 Qcmult;
  f_div := Exact.div;
  f_opp := fmap Qcopp;
  f_abs := fmap (fun a => if Exact.qltb a 0 then (- a)%Qc else a);
  f_eqb := Exact.cmp Exact.qeqb;
  f_ltb := Exact.cmp Exact.qltb;
  f_leb := Exact.cmp Exact.qleb;
  f_isnan x := match x with None => true | Some _ => false end;
  f_isinf _ := false;
  f_trunc x := let '(n, d) := Exact.ratio x in Z.quot n (Zpos d);
  f_floor x := let '(n, d) := Exact.ratio x in (n / Zpos d)%Z;
  f_ceil x := let '(n, d) := Exact.ratio x in (- ((- n) / Zpos d))%Z;
  f_is_integer x := match x with None => false | Some a => (Qden a =? 1)%positive end;
  f_signbit x := match x with Some a => Exact.qltb a 0 | None => false end;
  f_round := Exact.round;
|}.

Abbreviation XQ := (option Qc).


Lemma zq_add a b : zq (a + b) = (zq a + zq b)%Qc.
Proof. apply Qc_is_canon. unfold zq. simpl. rewrite !Qred_correct. by rewrite inject_Z_plus. Qed.

Lemma zq_opp a : zq (- a) = (- zq a)%Qc.
Proof. apply Qc_is_canon. unfold zq. simpl. rewrite !Qred_correct. by rewrite inject_Z_opp. Qed.

Lemma zq_sub a b : zq (a - b) = (zq a - zq b)%Qc.
Proof. unfold Qcminus. rewrite <- zq_opp, <- zq_add. f_equal; lia. Qed.

Lemma zq_mul a b : zq (a * b) = (zq a * zq b)%Qc.
Proof. apply Qc_is_canon. unfold zq. simpl. rewrite !Qred_correct. by rewrite inject_Z_mult. Qed.

Lemma zq_0 : zq 0 = 0%Qc.
Proof. by apply Qc_is_canon. Qed.

Lemma zq_1 : zq 1 = 1%Qc.
Proof. by apply Qc_is_canon. Qed.

Lemma zq_inj a b : zq a = zq b -> a = b.
Proof.
  intros H. apply (f_equal this) in H. unfold zq in H. simpl in H.
  assert (Qeq (inject_Z a) (inject_Z b)) as Hq.
  { rewrite <- (Qred_correct (inject_Z a)), <- (Qred_correct (inject_Z b)). by rewrite H. }
  unfold Qeq in Hq. simpl in Hq. lia.
Qed.

Lemma zq_nonzero z : z <> 0%Z -> zq z <> 0%Qc.
Proof. rewrite <- zq_0. intros Hz H. by apply Hz, zq_inj. Qed.

Create Rewrite HintDb zq.
#[export] Hint Rewrite zq_add zq_sub zq_opp zq_mul zq_0 zq_1 : zq.

Lemma exact_of_Z z : (f_of_Z z : XQ) = Some (zq z).
Proof. done. Qed.

(** Exact identities: push [zq] inwards, then [ring] in the field [Qc]. *)
Ltac qc_ring := autorewrite with zq; ring.

(** The sum of a list of rationals. *)
Definition sumQ (l : list Qc) : Qc := foldr Qcplus 0%Qc l.

Lemma sumQ_app l1 l2 : sumQ (l1 ++ l2) = (sumQ l1 + sumQ l2)%Qc.
Proof. induction l1 as [|x l1 IH]; simpl; [ring|]. rewrite IH. ring. Qed.

Lemma sumQ_perm l1 l2 : l1 ≡ₚ l2 -> sumQ l1 = sumQ l2.
Proof. induction 1; simpl; try congruence; ring. Qed.

#[export] Instance sumQ_Proper : Proper ((≡ₚ) ==> eq) sumQ.
Proof. intros l1 l2. apply sumQ_perm. Qed.

Lemma sumQ_zq (l : list Z) : sumQ (zq <$> l) = zq (sumZ l).
Proof. induction l as [|z l IH]; csimpl; [by rewrite sumZ_nil, zq_0|]. rewrite IH, sumZ_cons. qc_ring. Qed.

Lemma exact_foldl_add (l : list Qc) acc :
  foldl (f_add : XQ -> XQ -> XQ) (Some acc) (Some <$> l) = Some (acc + sumQ l)%Qc.
Proof.
  revert acc. induction l as [|x l IH]; intros acc; csimpl; [f_equal; ring|].
  rewrite IH. f_equal. ring.
Qed.

Lemma exact_f_sum (l : list Qc) : f_sum (Some <$> l : list XQ) = Some (sumQ l).
Proof.
  unfold f_sum, f_zero. change (f_of_Z 0 : XQ) with (Some (zq 0)).
  rewrite exact_foldl_add. f_equal. qc_ring.
Qed.

(** Comparisons of the exact instance, and reduction of a goal on [Qc] to [Q]. *)
Ltac to_Q :=
  unfold Qcle, Qclt, Qcminus, Qcplus, Qcmult, Qcopp, Q2Qc in *; cbn [this] in *;
  rewrite ?Qred_correct in *.

Lemma qltb_lt a b : Exact.qltb a b = true <-> (a < b)%Qc.
Proof.
  unfold Exact.qltb. rewrite negb_true_iff. split.
  - intros Hf. apply Qcnot_le_lt. intros Hle. apply Qle_bool_iff in Hle. congruence.
  - intros Hlt. apply not_true_is_false. rewrite Qle_bool_iff. by apply Qclt_not_le.
Qed.

Lemma qleb_le a b : Exact.qleb a b = true <-> (a <= b)%Qc.
Proof. apply Qle_bool_iff. Qed.

Lemma qeqb_eq a b : Exact.qeqb a b = true <-> a = b.
Proof. unfold Exact.qeqb. rewrite Qeq_bool_iff. split; [apply Qc_is_canon|by intros ->]. Qed.

Definition qabs (q : Qc) : Qc := if Exact.qltb q 0 then (- q)%Qc else q.

Lemma qabs_cases q : ((qabs q = q /\ 0 <= q) \/ (qabs q = - q /\ q < 0))%Qc.
Proof.
  unfold qabs. destruct (Exact.qltb q 0) eqn:E.
  - right. by apply qltb_lt in E.
  - left. split; [done|]. apply Qcnot_lt_le. intros Hlt. apply qltb_lt in Hlt. congruence.
Qed.

(** The relative tolerance never makes a nonzero number close to zero. *)
Lemma f_isclose_exact (x : Qc) : f_isclose (Some x) (f_zero : XQ) = Exact.qeqb x 0.
Proof.
  unfold f_isclose, f_zero. cbn -[Pos.mul]. unfold Exact.cmp. rewrite zq_0.
  destruct (Exact.qeqb x 0) eqn:E; simpl; [done|].
  set (eps := Q2Qc (1 # _)).
  fold (qabs (0 - x)) (qabs (eps * 0)) (qabs (eps * x)).
  assert (0 < eps /\ eps < 1)%Qc as [He0 He1] by (split; vm_compute; reflexivity).
  assert (x <> 0%Qc) as Hx by (intros ->; by rewrite (proj2 (qeqb_eq 0 0)) in E).
  assert (x < 0 \/ 0 < x)%Qc as Hs.
  { destruct (Qclt_le_dec x 0) as [|Hle]; [by left|right].
    apply Qcle_lt_or_eq in Hle as [|]; [done|by subst]. }
  clearbody eps. clear E.
  rewrite !orb_false_iff. split_and!; apply not_true_is_false; rewrite qleb_le; intros Hle;
    destruct (qabs_cases (0 - x)) as [[Hq ?]|[Hq ?]], (qabs_cases (eps * 0)) as [[Hq2 ?]|[Hq2 ?]],
      (qabs_cases (eps * x)) as [[Hq3 ?]|[Hq3 ?]];
    rewrite ?Hq, ?Hq2, ?Hq3 in Hle; clear Hx Hq Hq2 Hq3; to_Q; nra.
Qed.

(** ** Equality of floats decides the integer they are *)

Class PyFloatEq F `{PyFloat F} : Prop :=
  f_eqb_whole : forall x y, f_eqb x y = true -> whole_float x = whole_float y.

#[export] Instance exact_eq : PyFloatEq XQ.
Proof.
  intros [x|] [y|] H; try done. apply qeqb_eq in H. by subst.
Qed.

#[export] Instance binary64_eq : PyFloatEq spec_float.
Proof.
  intros x y H. unfold f_eqb, binary64, SFeqb in H. unfold whole_float, f_isfinite. simpl.
  destruct x as [[]|[]| |[] m e], y as [[]|[]| |[] m' e']; simpl in *; try done;
    destruct (Z.compare_spec e e'); try done.
  all: change (PosDef.Pos.compare_cont Eq m m') with (Pos.compare m m') in H;
    destruct (Pos.compare_spec m m'); simplify_eq/=; done.
Qed.

(** ** NaN, and square roots *)

Class PyFloatNan F `{PyFloat F} : Prop := f_isnan_nan : f_isnan (f_nan : F) = true.

#[export] Instance exact_nan : PyFloatNan XQ.
Proof. done. Qed.
#[export] Instance binary64_nan : PyFloatNan spec_float.
Proof. done. Qed.

(** [math.sqrt] of a nonnegative float, correctly rounded. *)
Class PySqrt F := f_sqrt : F -> F.
#[export] Instance binary64_sqrt : PySqrt spec_float := SFsqrt Binary64.prec Binary64.emax.

(** ** Machine integers: a C [long] and a NumPy [int64] wrap around *)

Definition wrap64 (z : Z) : Z := ((z + 2 ^ 63) mod 2 ^ 64 - 2 ^ 63)%Z.

Lemma wrap64_id z : (- 2 ^ 63 <= z < 2 ^ 63)%Z -> wrap64 z = z.
Proof. intros. unfold wrap64. rewrite Z.mod_small; lia. Qed.

(** ** Dynamically typed scalars *)

(** A Python object as a validator sees it: [isinstance] tells the constructors
    apart.  [PObj] is any other object, by identity. *)
Inductive pyval (F : Type) :=
  | PNone
  | PBool (b : bool)
  | PNpBool (b : bool)
  | PInt (z : Z)
  | PFloat (x : F)
  | PNpInt (z : Z)
  | PNpFloat (x : F)
  | PStr (s : string)
  | PObj (oid : positive).
Arguments PNone {F}.
Arguments PBool {F} b.
Arguments PNpBool {F} b.
Arguments PInt {F} z.
Arguments PFloat {F} x.
Arguments PNpInt {F} z.
Arguments PNpFloat {F} x.
Arguments PStr {F} s.
Arguments PObj {F} oid.

(** An argument whose class is checked: an instance, or any other object. *)
Inductive arg (A : Type) :=
  | Inst (a : A)
  | NotInst.
Arguments Inst {A} a.
Arguments NotInst {A}.

#[export] Instance arg_eq_dec `{EqDecision A} : EqDecision (arg A).
Proof. solve_decision. Defined.

#[export] Instance Inst_inj {A} : Inj (=) (=) (@Inst A).
Proof. by intros x y [= ->]. Qed.

Section Scalars.
Context `{PyFloat F}.

(** [isinstance(value, (int, float, np.integer, np.floating)) and not
    isinstance(value, (bool, np.bool_))] *)
Definition is_real (v : pyval F) : bool :=
  match v with PInt _ | PFloat _ | PNpInt _ | PNpFloat _ => true | _ => false end.

(** [isinstance(value, (float, np.floating))] *)
Definition is_float (v : pyval F) : bool :=
  match v with PFloat _ | PNpFloat _ => true | _ => false end.

(** [np.isfinite(value)] of a real number: a Python int outside the 64-bit
    ranges becomes an object array, which the ufunc refuses. *)
Definition np_isfinite (v : pyval F) : result bool :=
  match v with
  | PFloat x | PNpFloat x => Ok (f_isfinite x)
  | PNpInt _ => Ok true
  | PInt z => if (- 2 ^ 63 <=? z)%Z && (z <? 2 ^ 64)%Z then Ok true
              else Err (TypeError "ufunc 'isfinite' not supported for the input types")
  | _ => Err (TypeError "ufunc 'isfinite' not supported for the input types")
  end.

(** [float(value)] of a real number. *)
Definition py_float (v : pyval F) : result F :=
  match v with
  | PFloat x | PNpFloat x => Ok x
  | PInt z | PNpInt z =>
      let x := f_of_Z z in
      if f_isinf x then Err (OverflowError "int too large to convert to float") else Ok x
  | _ => Err (TypeError "float() argument must be a string or a real number")
  end.

(** [math.isclose(z, 0)] of an integer: a nonzero integer has magnitude at
    least 1, and the relative tolerance is 1e-9. *)
Definition int_isclose0 (z : Z) : bool := (z =? 0)%Z.

(** [==] between an integer and a float is exact. *)
Definition int_float_eqb (z : Z) (x : F) : bool :=
  f_isfinite x && f_is_integer x && (f_trunc x =? z)%Z.

(** [a == b] of two scalars. *)
Definition py_eqb (a b : pyval F) : bool :=
  let num v := match v with
    | PBool b | PNpBool b => Some (inl (if b then 1 else 0)%Z)
    | PInt z | PNpInt z => Some (inl z)
    | PFloat x | PNpFloat x => Some (inr x)
    | _ => None
    end in
  match num a, num b with
  | Some (inl x), Some (inl y) => (x =? y)%Z
  | Some (inl x), Some (inr y) | Some (inr y), Some (inl x) => int_float_eqb x y
  | Some (inr x), Some (inr y) => f_eqb x y
  | None, None =>
      match a, b with
      | PNone, PNone => true
      | PStr s, PStr t => bool_decide (s = t)
      | PObj i, PObj j => bool_decide (i = j)
      | _, _ => false
      end
  | _, _ => false
  end.
End Scalars.
