(* ===== verification/Vendor.v ===== *)
(** * Third-party code: NumPy routines and [sortedcontainers.SortedDict]

    These packages are not part of the repository: what the program calls is a
    field of a class, what it relies on is a law of the class, taken from the
    documentation.  The instances at the end show that the laws can hold and
    let witnesses evaluate. *)

From S2P Require Import Prelude Numeric.
From Stdlib Require Import Qcanon Ascii.

Open Scope Z_scope.

(** ** NumPy *)

Class Numpy (F : Type) := {
  np_sum : list F -> F;                               (* np.sum of a float array *)
  np_unique : list Z -> list Z;                       (* np.unique *)
  np_searchsorted_left : list Z -> Z -> nat;
  np_searchsorted_right : list Z -> Z -> nat;
  np_datetime64 : string -> result (option Z);        (* np.datetime64(str); None is NaT *)
}.

Definition count_lt (l : list Z) (x : Z) : nat := length (filter (fun y => y < x) l).
Definition count_le (l : list Z) (x : Z) : nat := length (filter (fun y => y <= x) l).

Class NumpyLaws (F : Type) `{Numpy F} := {
  np_unique_sorted l : StronglySorted Z.lt (np_unique l);
  np_unique_elem l x : x ∈ np_unique l <-> x ∈ l;
  np_searchsorted_left_count l x :
    StronglySorted Z.lt l -> np_searchsorted_left l x = count_lt l x;
  np_searchsorted_right_count l x :
    StronglySorted Z.lt l -> np_searchsorted_right l x = count_le l x;
}.

(** In exact arithmetic the order of summation does not matter. *)
Class NumpyExact `{Numpy XQ} := {
  np_sum_exact l : np_sum (Some <$> l) = Some (sumQ l);
}.

(** [str] of a [datetime64] in nanoseconds parses back. *)
Class DatetimeText (F : Type) `{Numpy F} := {
  np_str : option Z -> string;
  np_datetime64_str t : np_datetime64 (np_str t) = Ok t;
}.

(** Signal arrays: filling a slice with one value, and [np.isin].  A fill may
    be refused (NaN into an integer array); membership is equality with some
    test element. *)
Class NumpySignals (F : Type) `{PyFloat F} := {
  np_is_bool : list (pyval F) -> bool;                (* dtype == bool *)
  np_fill : list (pyval F) -> nat -> nat -> pyval F -> result (list (pyval F));   (* a[i:j] = v *)
  np_isin : list (pyval F) -> list (pyval F) -> list bool;
}.

Class NumpySignalsLaws (F : Type) `{NumpySignals F} := {
  np_fill_spec l i j v l' : np_fill l i j v = Ok l' ->
    length l' = length l /\
    forall k x, l' !! k = Some x -> if decide (i <= k < j)%nat then x = v else l !! k = Some x;
  np_isin_spec l tests : np_isin l tests = (fun x => existsb (py_eqb x) tests) <$> l;
}.

(** ** Polars *)

Class Polars (F : Type) := {
  pl_sum : list F -> F;                               (* Series.sum of floats without nulls *)
}.

Class PolarsExact `{Polars XQ} := {
  pl_sum_exact l : pl_sum (Some <$> l) = Some (sumQ l);
}.

(** ** sortedcontainers *)

Class SortedDict (D : Type -> Type) := {
  sd_empty {V} : D V;
  sd_items {V} : D V -> list (Z * V);
  sd_set {V} : D V -> Z -> V -> D V;                  (* d[k] = v *)
  sd_del {V} : D V -> Z -> D V;                       (* del d[k] *)
  sd_bisect_left {V} : D V -> Z -> nat;
  sd_peekitem {V} : D V -> Z -> result (Z * V);       (* a negative index counts from the end *)
}.

(** Insertion into a list of items sorted by key. *)
Fixpoint items_set {V} (l : list (Z * V)) (k : Z) (v : V) : list (Z * V) :=
  match l with
  | [] => [(k, v)]
  | (k', v') :: l =>
      if k <? k' then (k, v) :: (k', v') :: l
      else if k =? k' then (k, v) :: l
      else (k', v') :: items_set l k v
  end.

Class SortedDictLaws (D : Type -> Type) `{SortedDict D} := {
  sd_items_sorted {V} (d : D V) : StronglySorted Z.lt (sd_items d).*1;
  sd_items_empty {V} : sd_items (sd_empty (V:=V)) = [];
  sd_items_set {V} (d : D V) k v : sd_items (sd_set d k v) = items_set (sd_items d) k v;
  sd_items_del {V} (d : D V) k :
    k ∈ (sd_items d).*1 -> sd_items (sd_del d k) = filter (fun kv => kv.1 <> k) (sd_items d);
  sd_bisect_left_count {V} (d : D V) k : sd_bisect_left d k = count_lt (sd_items d).*1 k;
  sd_peekitem_nonneg {V} (d : D V) (i : nat) kv :
    sd_items d !! i = Some kv -> sd_peekitem d (Z.of_nat i) = Ok kv;
  sd_peekitem_last {V} (d : D V) kv :
    last (sd_items d) = Some kv -> sd_peekitem d (-1) = Ok kv;
}.

Section SortedDictOps.
Context `{SortedDict D} {V : Type}.

Definition sd_len (d : D V) : nat := length (sd_items d).
Definition sd_keys (d : D V) : list Z := (sd_items d).*1.
Definition sd_values (d : D V) : list V := (sd_items d).*2.
Definition sd_get (d : D V) (k : Z) : option V := dict_get (sd_items d) k.
Definition sd_mem (d : D V) (k : Z) : bool := dict_mem (sd_items d) k.
End SortedDictOps.

(** ** Sorted item lists *)

Section Items.
Context {V : Type}.
Implicit Types l : list (Z * V).

(** The latest item at or before [k]. *)
Definition last_le l (k : Z) : option (Z * V) := last (filter (fun kv => kv.1 <= k) l).

Lemma items_set_keys l k v x : x ∈ (items_set l k v).*1 <-> x = k \/ x ∈ l.*1.
Proof.
  induction l as [|[k' v'] l IH]; csimpl; [set_solver|].
  destruct (Z.ltb_spec k k'); csimpl; [set_solver|].
  destruct (Z.eqb_spec k k'); csimpl; set_solver.
Qed.

Lemma sorted_cons_inv k v l :
  StronglySorted Z.lt ((k, v) :: l).*1 ->
  StronglySorted Z.lt l.*1 /\ Forall (fun kv => k < kv.1) l.
Proof. csimpl. intros [H1 H2]%StronglySorted_inv. split; [done|]. rewrite Forall_fmap in H2. exact H2. Qed.

Lemma items_set_sorted l k v : StronglySorted Z.lt l.*1 -> StronglySorted Z.lt (items_set l k v).*1.
Proof.
  induction l as [|[k' v'] l IH]; intros Hs; [by repeat constructor|].
  pose proof (sorted_cons_inv _ _ _ Hs) as [Hs' Hlt]. csimpl in *.
  destruct (Z.ltb_spec k k'); csimpl.
  - constructor; [done|]. constructor; [done|]. apply Forall_fmap.
    eapply Forall_impl; [done|]. intros ? ?; simpl in *; lia.
  - destruct (Z.eqb_spec k k') as [->|]; csimpl.
    + constructor; [done|]. by apply Forall_fmap.
    + constructor; [by apply IH|]. apply Forall_forall. intros x Hx%items_set_keys.
      destruct Hx as [->|Hx]; [lia|]. rewrite Forall_forall in Hlt.
      apply list_elem_of_fmap in Hx as ([? ?] & -> & Hx). by apply Hlt in Hx.
Qed.

Lemma items_get_set l k v k' :
  StronglySorted Z.lt l.*1 ->
  dict_get (items_set l k v) k' = if decide (k' = k) then Some v else dict_get l k'.
Proof.
  induction l as [|[k0 v0] l IH]; intros Hs; simpl; [done|].
  pose proof (sorted_cons_inv _ _ _ Hs) as [Hs' Hlt].
  destruct (Z.ltb_spec k k0); simpl; [repeat case_decide; by simplify_eq|].
  destruct (Z.eqb_spec k k0); simpl; [repeat case_decide; by simplify_eq|].
  rewrite IH by done. repeat case_decide; by simplify_eq.
Qed.

Lemma items_set_last l k v :
  Forall (fun kv => kv.1 < k) l -> items_set l k v = l ++ [(k, v)].
Proof.
  induction l as [|[k' v'] l IH]; intros Hl; simpl; [done|].
  apply Forall_cons in Hl as [H1 H2]. simpl in H1.
  destruct (Z.ltb_spec k k'); [lia|]. destruct (Z.eqb_spec k k'); [lia|]. by rewrite IH.
Qed.

Lemma items_set_replace l k v v0 :
  Forall (fun kv => kv.1 < k) l -> items_set (l ++ [(k, v0)]) k v = l ++ [(k, v)].
Proof.
  induction l as [|[k' v'] l IH]; intros Hl; simpl.
  { destruct (Z.ltb_spec k k); [lia|]. by rewrite Z.eqb_refl. }
  apply Forall_cons in Hl as [H1 H2]. simpl in H1.
  destruct (Z.ltb_spec k k'); [lia|]. destruct (Z.eqb_spec k k'); [lia|]. by rewrite IH.
Qed.

Lemma sorted_NoDup (l : list Z) : StronglySorted Z.lt l -> NoDup l.
Proof.
  induction 1 as [|x l Hl IH Hx]; constructor; [|done].
  intros Hin. rewrite Forall_forall in Hx. apply Hx in Hin. lia.
Qed.

Lemma filter_le_split l k :
  StronglySorted Z.lt l.*1 ->
  l = filter (fun kv => kv.1 <= k) l ++ filter (fun kv => k < kv.1) l.
Proof.
  induction l as [|[k' v'] l IH]; [done|]. intros Hs.
  pose proof (sorted_cons_inv _ _ _ Hs) as [Hs' Hlt].
  destruct (Z.le_gt_cases k' k).
  - rewrite filter_cons_True, filter_cons_False by (simpl; lia).
    simpl. f_equal. by apply IH.
  - rewrite filter_cons_False, filter_cons_True by (simpl; lia).
    rewrite filter_none, filter_all; [done| |]; eapply Forall_impl; eauto; simpl; lia.
Qed.
End Items.

Section LastLe.
Context {V : Type}.
Implicit Types l : list (Z * V).

Lemma last_le_split l1 l2 k :
  Forall (fun kv => kv.1 <= k) l1 -> Forall (fun kv => k < kv.1) l2 ->
  last_le (l1 ++ l2) k = last l1.
Proof.
  intros H1 H2. unfold last_le. rewrite filter_app, filter_all, filter_none; [by rewrite app_nil_r| |done].
  eapply Forall_impl; [done|]. simpl. lia.
Qed.

Lemma last_le_None l k : last_le l k = None <-> Forall (fun kv => k < kv.1) l.
Proof.
  unfold last_le. rewrite last_None. split.
  - intros H. apply Forall_forall. intros kv Hkv. destruct (Z.lt_ge_cases k kv.1); [done|].
    exfalso. eapply (filter_nil_not_elem_of (fun kv => kv.1 <= k)); [exact H| |exact Hkv]. done.
  - intros H. apply filter_none. eapply Forall_impl; [exact H|]. simpl. lia.
Qed.

Lemma last_le_Some l k kv :
  last_le l k = Some kv -> kv ∈ l /\ kv.1 <= k.
Proof.
  unfold last_le. intros H. apply last_Some_elem_of, list_elem_of_filter in H. tauto.
Qed.

(** An entry at or before [k] is not later than the entry found. *)
Lemma last_le_max l k kv kv' :
  StronglySorted Z.lt l.*1 -> last_le l k = Some kv -> kv' ∈ l -> kv'.1 <= k -> kv'.1 <= kv.1.
Proof.
  intros Hs Hl Hin Hle. rewrite (filter_le_split l k Hs) in Hin, Hl.
  rewrite last_le_split in Hl; cycle 1.
  { apply Forall_forall. intros x [? _]%list_elem_of_filter. done. }
  { apply Forall_forall. intros x [? _]%list_elem_of_filter. done. }
  apply elem_of_app in Hin as [Hin|[? _]%list_elem_of_filter]; [|lia].
  apply last_Some in Hl as [l' Hl'].
  rewrite (filter_le_split l k Hs), Hl' in Hs. rewrite Hl' in Hin.
  apply elem_of_app in Hin as [Hin|Hin]; [|apply list_elem_of_singleton in Hin; subst; lia].
  rewrite !fmap_app in Hs. simpl in Hs. clear - Hs Hin.
  induction l' as [|x l' IH]; [by apply elem_of_nil in Hin|].
  csimpl in *. apply StronglySorted_inv in Hs as [Hs Hall].
  apply elem_of_cons in Hin as [->|Hin]; [|by apply IH].
  rewrite Forall_forall in Hall. apply Z.lt_le_incl, Hall. set_solver.
Qed.

(** Writing [k] makes it the entry found at [k] and leaves earlier instants alone. *)
Lemma last_le_set l k v t :
  StronglySorted Z.lt l.*1 -> Forall (fun kv => kv.1 <= k) l ->
  last_le (items_set l k v) t = if decide (k <= t) then Some (k, v) else last_le l t.
Proof.
  intros Hs Hle. unfold last_le.
  assert (exists l0, items_set l k v = l0 ++ [(k, v)] /\ (t < k -> filter (fun kv => kv.1 <= t) l0 =
    filter (fun kv => kv.1 <= t) l)) as (l0 & -> & Hl0).
  { destruct (last l) as [[k1 v1]|] eqn:Hlast.
    - apply last_Some in Hlast as [l0 ->].
      assert (Forall (fun kv => kv.1 < k1) l0) as Hlt.
      { clear Hle. induction l0 as [|[k2 v2] l0 IH]; constructor.
        - csimpl in Hs. apply StronglySorted_inv in Hs as [_ Hs]. rewrite Forall_forall in Hs. apply Hs.
          rewrite fmap_app. set_solver.
        - apply IH. csimpl in Hs. by apply StronglySorted_inv in Hs as [? _]. }
      apply Forall_app in Hle as [Hle [Hk1 _]%Forall_cons]. simpl in Hk1.
      destruct (decide (k1 = k)) as [->|Hne].
      + exists l0. split; [by apply items_set_replace|]. intros. rewrite filter_app, filter_cons_False by (simpl; lia).
        by rewrite app_nil_r.
      + exists (l0 ++ [(k1, v1)]). split; [|done]. apply items_set_last. apply Forall_app. split.
        * eapply Forall_impl; [exact Hlt|]. simpl. lia.
        * rewrite Forall_singleton. simpl. lia.
    - apply last_None in Hlast. subst. exists []. done. }
  rewrite filter_app. case_decide.
  - rewrite filter_cons_True by done. rewrite filter_nil. by rewrite last_snoc.
  - rewrite filter_cons_False by (simpl; lia). rewrite app_nil_r, Hl0; [done|lia].
Qed.
End LastLe.

Section LastLeFacts.
Context {V : Type}.
Implicit Types l : list (Z * V).

(** The entry stored at [k] is the one found at [k]. *)
Lemma last_le_at l k v : StronglySorted Z.lt l.*1 -> (k, v) ∈ l -> last_le l k = Some (k, v).
Proof.
  intros Hs Hin. destruct (last_le l k) as [[k' v']|] eqn:Hl.
  - pose proof (last_le_Some _ _ _ Hl) as [Hin' Hle]. simpl in Hle.
    pose proof (last_le_max _ _ _ (k, v) Hs Hl Hin) as Hmax. simpl in Hmax.
    assert (k' = k) as -> by lia. do 2 f_equal.
    assert (NoDup l.*1) as Hnd by by apply sorted_NoDup.
    apply (dict_In_get l) in Hin, Hin'; [congruence|done|done].
  - apply last_le_None in Hl. rewrite Forall_forall in Hl. apply Hl in Hin. simpl in Hin. lia.
Qed.

Lemma items_set_In l k v : (k, v) ∈ items_set l k v.
Proof.
  induction l as [|[k' v'] l IH]; simpl; [set_solver|].
  destruct (Z.ltb_spec k k'); [set_solver|]. destruct (Z.eqb_spec k k'); set_solver.
Qed.

Lemma last_le_set_at l k v : StronglySorted Z.lt l.*1 -> last_le (items_set l k v) k = Some (k, v).
Proof. intros Hs. apply last_le_at; [by apply items_set_sorted|apply items_set_In]. Qed.

Lemma items_set_elem l k v kv : kv ∈ items_set l k v -> kv = (k, v) \/ kv ∈ l.
Proof.
  induction l as [|[k' v'] l IH]; simpl; [set_solver|].
  destruct (Z.ltb_spec k k'); [set_solver|]. destruct (Z.eqb_spec k k'); set_solver.
Qed.

Lemma items_set_elem_ne l k v kv :
  StronglySorted Z.lt l.*1 -> kv ∈ items_set l k v -> kv = (k, v) \/ (kv ∈ l /\ kv.1 <> k).
Proof.
  intros Hs Hin. destruct (decide (kv.1 = k)) as [Hk|Hk].
  - left. destruct kv as [k' v']. simpl in Hk. subst k'.
    pose proof (items_set_sorted l k v Hs) as Hs'.
    apply (dict_In_get (items_set l k v)) in Hin; [|by apply sorted_NoDup].
    rewrite items_get_set, decide_True in Hin by done. congruence.
  - apply items_set_elem in Hin as [->|Hin]; [done|]. by right.
Qed.
End LastLeFacts.

(** ** Reference instances *)

Definition ref_unique (l : list Z) : list Z :=
  (foldr (fun k acc => items_set acc k tt) [] l).*1.

(** A textual form of instants: a sign and binary digits. *)
Fixpoint pos_text (p : positive) : string :=
  match p with
  | xH => ""
  | xO p => String "0"%char (pos_text p)
  | xI p => String "1"%char (pos_text p)
  end.

Fixpoint pos_parse (s : string) : result positive :=
  match s with
  | EmptyString => Ok xH
  | String c s =>
      p ← pos_parse s;
      if Ascii.eqb c "0"%char then Ok (xO p) else if Ascii.eqb c "1"%char then Ok (xI p)
      else Err (ValueError "Error parsing datetime string")
  end.

Definition instant_text (t : option Z) : string :=
  match t with
  | None => "NaT"
  | Some Z0 => "0"
  | Some (Zpos p) => String "+"%char (pos_text p)
  | Some (Zneg p) => String "-"%char (pos_text p)
  end.

Definition instant_parse (s : string) : result (option Z) :=
  match s with
  | String "+"%char s => p ← pos_parse s; Ok (Some (Zpos p))
  | String "-"%char s => p ← pos_parse s; Ok (Some (Zneg p))
  | String "0"%char EmptyString => Ok (Some 0)
  | String "N"%char (String "a"%char (String "T"%char EmptyString)) => Ok None
  | _ => Err (ValueError "Error parsing datetime string")
  end.

Lemma pos_parse_text p : pos_parse (pos_text p) = Ok p.
Proof. induction p as [p IH|p IH|]; simpl; rewrite ?IH; done. Qed.

Lemma instant_parse_text t : instant_parse (instant_text t) = Ok t.
Proof. destruct t as [[|p|p]|]; simpl; rewrite ?pos_parse_text; done. Qed.

#[export] Instance ref_numpy `{PyFloat F} : Numpy F := {|
  np_sum := f_sum;
  np_unique := ref_unique;
  np_searchsorted_left := count_lt;
  np_searchsorted_right := count_le;
  np_datetime64 := instant_parse;
|}.

#[export] Instance ref_datetime_text `{PyFloat F} : DatetimeText F := {|
  np_str := instant_text;
  np_datetime64_str := instant_parse_text;
|}.

#[export] Instance ref_polars `{PyFloat F} : Polars F := {| pl_sum := f_sum |}.

#[export] Instance ref_polars_exact : PolarsExact.
Proof. split. apply exact_f_sum. Qed.

#[export] Instance ref_numpy_laws `{PyFloat F} : NumpyLaws F.
Proof.
  split; simpl; [| |done|done].
  - intros l. induction l as [|x l IH]; [constructor|]. by apply items_set_sorted.
  - intros l x. unfold ref_unique. induction l as [|y l IH]; [set_solver|].
    simpl. rewrite items_set_keys, IH. set_solver.
Qed.

#[export] Instance ref_numpy_exact : NumpyExact.
Proof. split. apply exact_f_sum. Qed.

Record sorted_items (V : Type) := SortedItems {
  si_items : list (Z * V);
  si_sorted : StronglySorted Z.lt si_items.*1;
}.
Arguments SortedItems {V}.
Arguments si_items {V}.
Arguments si_sorted {V}.

Lemma filter_sorted {V} (P : Z * V -> Prop) `{!forall x, Decision (P x)} l :
  StronglySorted Z.lt l.*1 -> StronglySorted Z.lt (filter P l).*1.
Proof.
  induction l as [|[k v] l IH]; [done|]. intros Hs.
  apply sorted_cons_inv in Hs as [Hs Hlt]. rewrite filter_cons. case_decide; [|by apply IH].
  csimpl. constructor; [by apply IH|]. rewrite Forall_fmap. apply Forall_forall.
  intros x [_ Hx]%list_elem_of_filter. rewrite Forall_forall in Hlt. by apply Hlt.
Qed.

#[export] Instance ref_sorted_dict : SortedDict sorted_items := {|
  sd_empty V := SortedItems [] (SSorted_nil _);
  sd_items V d := si_items d;
  sd_set V d k v := SortedItems (items_set (si_items d) k v) (items_set_sorted _ k v (si_sorted d));
  sd_del V d k := SortedItems (filter (fun kv => kv.1 <> k) (si_items d)) (filter_sorted _ _ (si_sorted d));
  sd_bisect_left V d k := count_lt (si_items d).*1 k;
  sd_peekitem V d i :=
    match si_items d !! Z.to_nat (if i <? 0 then i + Z.of_nat (length (si_items d)) else i) with
    | Some kv => Ok kv
    | None => Err (IndexError "list index out of range")
    end;
|}.

#[export] Instance ref_sorted_dict_laws : SortedDictLaws sorted_items.
Proof.
  split; simpl; try done.
  - intros. apply si_sorted.
  - intros V d i kv Hi. destruct (Z.ltb_spec (Z.of_nat i) 0); [lia|]. by rewrite Nat2Z.id, Hi.
  - intros V d kv Hl. rewrite last_lookup in Hl.
    replace (Z.to_nat (-1 + Z.of_nat (length (si_items d)))) with (Init.Nat.pred (length (si_items d))) by lia.
    by rewrite Hl.
Qed.

(** ** Signal arrays *)

Definition ref_fill {F} (l : list (pyval F)) (i j : nat) (v : pyval F) : list (pyval F) :=
  imap (fun k x => if decide (i <= k < j)%nat then v else x) l.

#[export] Instance ref_numpy_signals `{PyFloat F} : NumpySignals F := {|
  np_is_bool := forallb (fun x => match x with PNpBool _ => true | _ => false end);
  np_fill l i j v :=
    match v with
    | PNpFloat x =>
        if f_isnan x && existsb (fun y => match y with PNpInt _ => true | _ => false end) l
        then Err (ValueError "cannot convert float NaN to integer") else Ok (ref_fill l i j v)
    | _ => Ok (ref_fill l i j v)
    end;
  np_isin l tests := (fun x => existsb (py_eqb x) tests) <$> l |}.

#[export] Instance ref_numpy_signals_laws `{PyFloat F} : NumpySignalsLaws F.
Proof.
  split; [|done]. intros l i j v l' Hf.
  assert (l' = ref_fill l i j v) as ->.
  { unfold np_fill, ref_numpy_signals in Hf. destruct v; try (by simplify_eq). destruct (_ && _); by simplify_eq. }
  unfold ref_fill. rewrite length_imap. split; [done|]. intros k x. rewrite list_lookup_imap.
  destruct (l !! k) as [y|] eqn:E; simpl; [|done]. intros [= <-]. case_decide; congruence.
Qed.
