(* ===== verification/Boundaries.v ===== *)
(** * Validation at callback and execution boundaries: [boundaries.py]

    Timestamps are nanosecond counts ([Z]); [None] is NaT.  A timestamp grid is
    a list of instants; [validate_timestamp_grid] receives the array before
    anything is known about it ([ndarray]). *)

From S2P Require Import Prelude Numeric Vendor.

Open Scope Z_scope.

(** The argument [timestamps] before it is validated. *)
Inductive ndarray :=
  | NotArray
  | NdArray (ndim : nat) (is_datetime : bool) (values : list (option Z)).

(** A date bound: absent, text, or a [datetime64]. *)
Inductive date_arg :=
  | DNone
  | DStr (s : string)
  | DTime (t : option Z).

Definition is_TypeError_or_ValueError (e : exn) : bool :=
  match e with TypeError _ | ValueError _ => true | _ => false end.

Section Boundaries.
Context `{PyFloat F} `{!Numpy F}.

Definition parse_bound (d : date_arg) : result (option Z) :=
  match d with
  | DNone => Ok None
  | DStr s => np_datetime64 s
  | DTime t => Ok t
  end.

Definition validate_date_range (start end_ : date_arg) : result (option Z * option Z) :=
  let parsed :=
    start_timestamp ← parse_bound start;
    end_timestamp ← parse_bound end_;
    Ok (start_timestamp, end_timestamp) in
  match parsed with
  | Err e => if is_TypeError_or_ValueError e
             then Err (ValueError "date range contains an invalid timestamp") else Err e
  | Ok (start_timestamp, end_timestamp) =>
      match start_timestamp, end_timestamp with
      | Some s, Some e =>
          whenever e <? s raise ValueError "start date cannot be after end date" ;;
          Ok (start_timestamp, end_timestamp)
      | _, _ => Ok (start_timestamp, end_timestamp)
      end
  end.

Definition final_timestamp_at_or_before (timestamps : list Z) (end_ : option Z) : result (option Z) :=
  match end_ with
  | None =>
      match last timestamps with
      | Some t => Ok (Some t)
      | None => Err (IndexError "index -1 is out of bounds")
      end
  | Some e =>
      let index := Z.of_nat (np_searchsorted_right timestamps e) - 1 in
      if index <? 0 then Ok None
      else match timestamps !! Z.to_nat index with
           | Some t => Ok (Some t)
           | None => Err (IndexError "index is out of bounds")
           end
  end.

(** [np.diff] of an [int64] array wraps. *)
Fixpoint np_diff (l : list Z) : list Z :=
  match l with
  | x :: (y :: _) as l => wrap64 (y - x) :: np_diff l
  | _ => []
  end.

(** On success the value is the grid: the instants of the array. *)
Definition validate_timestamp_grid (timestamps : ndarray) : result (list Z) :=
  match timestamps with
  | NotArray => Err (TypeError "timestamps must be a NumPy array")
  | NdArray ndim is_datetime values =>
      unless bool_decide (ndim = 1%nat) raise ValueError "timestamps must be one-dimensional" ;;
      unless is_datetime raise TypeError "timestamps must have a datetime64 dtype" ;;
      whenever bool_decide (values = []) raise ValueError "timestamps cannot be empty" ;;
      match mapM id values with
      | None => Err (ValueError "timestamps cannot contain NaT")
      | Some normalized =>
          unless forallb (fun d => 0 <? d) (np_diff normalized)
            raise ValueError "timestamps must be strictly increasing and unique" ;;
          Ok normalized
      end
  end.

Definition validate_strategy_timestamps (timestamps : ndarray) : result (list Z) :=
  validate_timestamp_grid timestamps.

Definition timestamp_index (timestamps : list Z) (timestamp : Z) : result nat :=
  let index := np_searchsorted_left timestamps timestamp in
  if bool_decide (length timestamps <= index)%nat
  then Err (ValueError "timestamp is not present in the timestamp grid")
  else match timestamps !! index with
       | Some t => if t =? timestamp then Ok index
                   else Err (ValueError "timestamp is not present in the timestamp grid")
       | None => Err (IndexError "index is out of bounds")
       end.

Definition validate_price_value (value : pyval F) (allow_missing : bool) : result F :=
  unless is_real value raise TypeError "returned a non-real scalar price" ;;
  price ← py_float value;
  if f_isnan price then
    if allow_missing then Ok price else Err (ValueError "returned a missing price")
  else
    unless f_isfinite price raise ValueError "returned a non-finite price" ;;
    Ok price.
End Boundaries.

(** ** Lemmas on grids *)

Definition grid (l : list Z) : Prop := StronglySorted Z.lt l.

Lemma grid_lookup_lt l i j x y :
  grid l -> (i < j)%nat -> l !! i = Some x -> l !! j = Some y -> x < y.
Proof.
  intros Hs. revert i j. induction Hs as [|z l Hs IH Hz]; intros [|i] [|j] Hij Hx Hy; simplify_eq/=; try lia.
  - rewrite Forall_forall in Hz. apply Hz. by eapply list_elem_of_lookup_2.
  - eapply IH; [|done..]. lia.
Qed.

Lemma filter_grid (P : Z -> Prop) `{!forall t, Decision (P t)} l : grid l -> grid (filter P l).
Proof.
  unfold grid. induction 1 as [|t l Hl IH Ht]; [constructor|]. rewrite filter_cons. case_decide; [|done].
  constructor; [done|]. rewrite Forall_forall in *. intros t' Ht'%list_elem_of_filter. apply Ht. tauto.
Qed.

(** A grid is determined by its elements. *)
Lemma grid_NoDup l : grid l -> NoDup l.
Proof.
  unfold grid. induction 1 as [|t l Hl IH Ht]; constructor; [|done]. intros Hin. rewrite Forall_forall in Ht.
  specialize (Ht t Hin). lia.
Qed.

Lemma grid_ext l l' : grid l -> grid l' -> (forall t, t ∈ l <-> t ∈ l') -> l = l'.
Proof.
  intros Hl Hl' Heq. apply (StronglySorted_unique_strong Z.lt); [lia|done..|]. apply NoDup_Permutation; auto using grid_NoDup.
Qed.

Lemma seqZ_grid a n : grid (seqZ a n).
Proof.
  destruct (Z.le_ge_cases n 0); [rewrite seqZ_nil by lia; constructor|]. revert a. pattern n. apply natlike_ind; [..|done].
  - intros a. constructor.
  - intros k Hk IH a. rewrite seqZ_cons by lia. constructor; [rewrite Z.pred_succ; apply IH|].
    apply Forall_forall. intros x. rewrite elem_of_seqZ. lia.
Qed.

Lemma grid_lookup_inj l i j x : grid l -> l !! i = Some x -> l !! j = Some x -> i = j.
Proof.
  intros Hs Hi Hj. destruct (Nat.lt_total i j) as [Hlt|[?|Hlt]]; [|done|];
    [pose proof (grid_lookup_lt _ _ _ _ _ Hs Hlt Hi Hj)|pose proof (grid_lookup_lt _ _ _ _ _ Hs Hlt Hj Hi)]; lia.
Qed.

Lemma count_lt_lookup l i x : grid l -> l !! i = Some x -> count_lt l x = i.
Proof.
  intros Hs. revert i. unfold count_lt. induction Hs as [|z l Hs IH Hz]; intros [|i] Hi; simplify_eq/=.
  - rewrite filter_cons_False, filter_none; [done| |lia].
    eapply Forall_impl; [exact Hz|]. simpl. lia.
  - assert (z < x) by (rewrite Forall_forall in Hz; apply Hz; by eapply list_elem_of_lookup_2).
    rewrite filter_cons_True by done. simpl. by rewrite (IH i).
Qed.

Lemma count_lt_lookup_inv l x y :
  grid l -> l !! count_lt l x = Some y -> x <= y.
Proof.
  intros Hs. unfold count_lt. induction Hs as [|z l Hs IH Hz]; simpl; [done|].
  destruct (decide (z < x)).
  - rewrite filter_cons_True by done. simpl. auto.
  - rewrite filter_cons_False by done. rewrite filter_none; simpl; [intros; simplify_eq; lia|].
    eapply Forall_impl; [exact Hz|]. simpl. lia.
Qed.

Lemma np_diff_sorted l :
  Forall (fun t => - 2 ^ 62 <= t < 2 ^ 62) l ->
  forallb (fun d => 0 <? d) (np_diff l) = true <-> grid l.
Proof.
  intros Hb. induction Hb as [|x l Hx Hl IH]; [split; [constructor|done]|].
  destruct l as [|y l]; [split; [repeat constructor|done]|].
  change (np_diff (x :: y :: l)) with (wrap64 (y - x) :: np_diff (y :: l)).
  cbn [forallb]. apply Forall_cons_1 in Hl as Hy. destruct Hy as [Hy _].
  rewrite andb_true_iff, IH, Z.ltb_lt, wrap64_id by lia. split.
  - intros [Hlt Hs]. constructor; [done|]. constructor; [lia|].
    apply StronglySorted_inv in Hs as [_ Hs]. eapply Forall_impl; [exact Hs|]. simpl. lia.
  - intros Hs. apply StronglySorted_inv in Hs as [Hs Hall].
    apply Forall_cons_1 in Hall as [Hlt _]. split; [lia|done].
Qed.

Section Facts.
Context `{PyFloat F} `{!Numpy F} `{!NumpyLaws F}.

Lemma timestamp_index_Ok l t i : grid l -> timestamp_index (F:=F) l t = Ok i <-> l !! i = Some t.
Proof.
  intros Hs. unfold timestamp_index. rewrite np_searchsorted_left_count by done. split.
  - case_bool_decide; [done|]. destruct (l !! count_lt l t) as [t'|] eqn:Hl; [|done].
    destruct (Z.eqb_spec t' t); intros; simplify_eq. done.
  - intros Hi. rewrite (count_lt_lookup _ _ _ Hs Hi). pose proof (lookup_lt_Some _ _ _ Hi).
    rewrite bool_decide_false by lia. by rewrite Hi, Z.eqb_refl.
Qed.

Lemma timestamp_index_Err l t e :
  grid l -> timestamp_index (F:=F) l t = Err e ->
  (t ∉ l) /\ e = ValueError "timestamp is not present in the timestamp grid".
Proof.
  intros Hs He. split.
  - intros [i Hi]%list_elem_of_lookup. apply (timestamp_index_Ok l t i Hs) in Hi. congruence.
  - unfold timestamp_index in He. rewrite np_searchsorted_left_count in He by done.
    revert He. case_bool_decide as Hlen; [congruence|].
    destruct (l !! count_lt l t) as [t'|] eqn:Hl.
    + destruct (Z.eqb_spec t' t); congruence.
    + apply lookup_ge_None in Hl. lia.
Qed.

(** Every instant of the grid resolves to its index; any other is refused. *)
Lemma timestamp_index_total l t :
  grid l -> (t ∈ l /\ exists i, timestamp_index (F:=F) l t = Ok i) \/
            ((t ∉ l) /\ exists e, timestamp_index (F:=F) l t = Err e).
Proof.
  intros Hs. destruct (timestamp_index l t) as [i|e] eqn:Hi.
  - left. split; [|eauto]. apply timestamp_index_Ok in Hi; [|done]. by eapply list_elem_of_lookup_2.
  - right. apply timestamp_index_Err in Hi as [? _]; eauto.
Qed.

Lemma validate_price_value_finite v b p :
  validate_price_value (F:=F) v b = Ok p -> f_isnan p = false -> f_isfinite p = true.
Proof.
  unfold validate_price_value. intros Hv Hn. inv_ok Hv.
  destruct (f_isnan a) eqn:Ha; [destruct b; congruence|]. by inv_ok Hv.
Qed.
End Facts.
