(* ===== verification/Instruments.v ===== *)
(** * Instrument metadata: [instruments.py]

    Strings are ASCII.  [mk_InstrumentSpec] is the dataclass constructor with its
    [__post_init__]. *)

From S2P Require Import Prelude Numeric.

Open Scope Z_scope.

Inductive AssetClass :=
  | AC_UNKNOWN | AC_EQUITY | AC_FUTURE | AC_OPTION | AC_FX | AC_CRYPTO | AC_FIXED_INCOME | AC_BASKET.

Inductive Tradability :=
  | TR_ACTIVE | TR_IGNORED | TR_UNTRADEABLE | TR_DUPLICATE | TR_BAD.

#[export] Instance AssetClass_eq_dec : EqDecision AssetClass.
Proof. solve_decision. Defined.
#[export] Instance Tradability_eq_dec : EqDecision Tradability.
Proof. solve_decision. Defined.

(** ** Strings: [str.upper] and [str.isalpha] *)

Definition ascii_upper (c : Ascii.ascii) : Ascii.ascii :=
  let n := Ascii.N_of_ascii c in
  if ((97 <=? n) && (n <=? 122))%N then Ascii.ascii_of_N (n - 32) else c.

Definition ascii_isalpha (c : Ascii.ascii) : bool :=
  let n := Ascii.N_of_ascii c in
  ((65 <=? n) && (n <=? 90) || (97 <=? n) && (n <=? 122))%N.

Fixpoint str_upper (s : string) : string :=
  match s with
  | EmptyString => EmptyString
  | String c s => String (ascii_upper c) (str_upper s)
  end.

Fixpoint str_all (p : Ascii.ascii -> bool) (s : string) : bool :=
  match s with
  | EmptyString => true
  | String c s => p c && str_all p s
  end.

(** [s.isalpha()] is false of the empty string. *)
Definition str_isalpha (s : string) : bool :=
  negb (String.eqb s "") && str_all ascii_isalpha s.

(** The guard [len(code) != 3 or not code.isalpha()] of [instruments.py] and
    [currency.py], negated. *)
Definition currency_ok (code : string) : bool :=
  bool_decide (String.length code = 3%nat) && str_isalpha code.

(** [currency.py] [_currency_code] *)
Definition currency_code (value : string) : result string :=
  let code := str_upper value in
  unless currency_ok code raise ValueError "must be a three-letter alphabetic code" ;;
  Ok code.

Section InstrumentSpec.
Context `{PyFloat F}.

Record InstrumentSpec := {
  asset_class : AssetClass;
  currency : string;
  tick_size : option F;
  exchange_calendar : option string;
  trading_timezone : option string;
  liquidity_group : option string;
  tradability : Tradability;
  duplicate_of : option string;
}.

Definition default_InstrumentSpec : InstrumentSpec := {|
  asset_class := AC_UNKNOWN; currency := "USD"; tick_size := None; exchange_calendar := None;
  trading_timezone := None; liquidity_group := None; tradability := TR_ACTIVE; duplicate_of := None |}.

(** [not self.duplicate_of]: [None] or the empty string. *)
Definition missing_name (o : option string) : bool :=
  match o with None => true | Some s => String.eqb s "" end.

(** [__post_init__] *)
Definition mk_InstrumentSpec (s : InstrumentSpec) : result InstrumentSpec :=
  let code := str_upper (currency s) in
  unless currency_ok code raise ValueError "currency must be a three-letter alphabetic code" ;;
  whenever (match tick_size s with
            | Some t => negb (f_isfinite t) || f_leb t f_zero
            | None => false
            end) raise ValueError "tick_size must be finite and positive" ;;
  whenever bool_decide (tradability s = TR_DUPLICATE) && missing_name (duplicate_of s)
    raise ValueError "duplicate instruments must identify duplicate_of" ;;
  whenever negb (bool_decide (tradability s = TR_DUPLICATE)) && bool_decide (is_Some (duplicate_of s))
    raise ValueError "duplicate_of is only valid for duplicate instruments" ;;
  Ok {| asset_class := asset_class s; currency := code; tick_size := tick_size s;
        exchange_calendar := exchange_calendar s; trading_timezone := trading_timezone s;
        liquidity_group := liquidity_group s; tradability := tradability s;
        duplicate_of := duplicate_of s |}.

Definition opt_eqb {A} (eqb : A -> A -> bool) (a b : option A) : bool :=
  match a, b with
  | None, None => true
  | Some a, Some b => eqb a b
  | _, _ => false
  end.

(** The dataclass [==]. *)
Definition spec_eqb (a b : InstrumentSpec) : bool :=
  bool_decide (asset_class a = asset_class b) && String.eqb (currency a) (currency b) &&
  opt_eqb f_eqb (tick_size a) (tick_size b) &&
  bool_decide (exchange_calendar a = exchange_calendar b) &&
  bool_decide (trading_timezone a = trading_timezone b) &&
  bool_decide (liquidity_group a = liquidity_group b) &&
  bool_decide (tradability a = tradability b) && bool_decide (duplicate_of a = duplicate_of b).

(** What the constructor guarantees. *)
Definition spec_wf (s : InstrumentSpec) : Prop :=
  currency_ok (currency s) = true /\ str_upper (currency s) = currency s /\
  (forall t, tick_size s = Some t -> f_isfinite t = true /\ f_leb t f_zero = false) /\
  (tradability s = TR_DUPLICATE <-> exists n, duplicate_of s = Some n) /\
  duplicate_of s <> Some "".
End InstrumentSpec.

Arguments InstrumentSpec F : clear implicits.

Lemma ascii_upper_idem c : ascii_upper (ascii_upper c) = ascii_upper c.
Proof. destruct c as [[] [] [] [] [] [] [] []]; reflexivity. Qed.

Lemma str_upper_idem s : str_upper (str_upper s) = str_upper s.
Proof. induction s as [|c s IH]; simpl; [done|]. by rewrite ascii_upper_idem, IH. Qed.

Lemma currency_code_idem s c : currency_code s = Ok c -> currency_code c = Ok c.
Proof.
  unfold currency_code. intros Hc. inv_ok Hc. rewrite str_upper_idem. by rewrite Hguard.
Qed.

Lemma mk_InstrumentSpec_wf `{PyFloat F} (s s' : InstrumentSpec F) :
  mk_InstrumentSpec s = Ok s' -> spec_wf s'.
Proof.
  unfold mk_InstrumentSpec. intros Hs. inv_ok Hs. bools. unfold spec_wf. simpl.
  split_and!; [done|by rewrite str_upper_idem| | |].
  - intros t Ht. rewrite Ht in *. bools. by split.
  - split; intros Hd.
    + rewrite bool_decide_true in * by done. simpl in *.
      destruct (duplicate_of s); [eauto|done].
    + destruct Hd as [n Hn]. rewrite Hn in *. rewrite (bool_decide_true (is_Some _)) in * by eauto.
      rewrite andb_true_r in *. bools. done.
  - intros Hd. rewrite Hd in *. simpl in *. rewrite andb_true_r in *. by rewrite Hguard1 in Hguard2.
Qed.
