(* ===== verification/Contracts.v ===== *)
(** * Contracts and contract groups: [pq_types.py], [ContractGroup] and [Contract]

    Object identity ([is]) is equality of object ids.  A group's mutable
    dictionary of contracts and the two class-level registries are one state,
    [registry]; every class or static method is a computation on it. *)

From S2P Require Import Prelude Numeric Instruments.
From Stdlib Require Import QArith Qcanon Lqa SpecFloat.

Open Scope Z_scope.

Section Scalars.
Context `{PyFloat F}.

(** [_whole_quantity] *)
Definition whole_quantity (value : pyval F) : result Z :=
  let msg := ValueError "must be finite and nonzero, in whole shares or contracts" in
  unless is_real value raise msg ;;
  finite ← np_isfinite value;
  unless finite raise msg ;;
  match value with
  | PInt z | PNpInt z => whenever int_isclose0 z raise msg ;; Ok z
  | PFloat x | PNpFloat x =>
      whenever f_isclose x f_zero raise msg ;;
      unless f_is_integer x raise msg ;;
      Ok (f_trunc x)
  | _ => Err msg
  end.

(** [_finite_real] *)
Definition finite_real (value : pyval F) : result F :=
  let msg := ValueError "must be a finite real number" in
  unless is_real value raise msg ;;
  finite ← np_isfinite value;
  unless finite raise msg ;;
  py_float value.
End Scalars.

(** ** Namespaces *)

(** A [SimpleNamespace]: attribute names and values. *)
Abbreviation ns F := (list (string * pyval F)).

(** [==] of two namespaces compares their dictionaries. *)
Definition ns_eqb `{PyFloat F} (a b : ns F) : bool :=
  bool_decide (length a = length b) &&
  forallb (fun '(k, v) => match dict_get b k with Some w => py_eqb v w | None => false end) a.

(** ** Objects *)

Record group := Group { cg_oid : positive; cg_name : string }.

#[export] Instance group_eq_dec : EqDecision group.
Proof. solve_decision. Defined.

Definition is_group (a b : group) : bool := bool_decide (cg_oid a = cg_oid b).

#[local] Set Warnings "-register-all".

Section Registry.
Context `{PyFloat F}.

Inductive contract := Contract {
  c_oid : positive;
  c_symbol : string;
  c_contract_group : group;
  c_expiry : option Z;
  c_multiplier : F;
  c_components : list (contract * F);
  c_properties : ns F;
  c_instrument_spec : InstrumentSpec F;
}.

Definition is_contract (a b : contract) : bool := bool_decide (c_oid a = c_oid b).

Definition is_basket (c : contract) : bool := negb (bool_decide (c_components c = [])).

Record registry := Registry {
  rg_groups : list (string * group);              (* ContractGroup.__registry *)
  rg_contracts : list (string * contract);        (* Contract.__registry *)
  rg_members : gmap positive (list (string * contract));  (* each group's _contracts *)
  rg_next : positive;                             (* the next object id *)
}.

Definition DEFAULT_CG : group := Group 1 "DEFAULT".

(** The state when the module has been imported. *)
Definition initial_registry : registry :=
  {| rg_groups := [("DEFAULT", DEFAULT_CG)]; rg_contracts := [];
     rg_members := {[ 1%positive := [] ]}; rg_next := 2 |}.

Definition members (r : registry) (g : group) : list (string * contract) :=
  default [] (rg_members r !! cg_oid g).

Definition set_members (r : registry) (oid : positive) (d : list (string * contract)) : registry :=
  {| rg_groups := rg_groups r; rg_contracts := rg_contracts r;
     rg_members := <[oid := d]> (rg_members r); rg_next := rg_next r |}.

Definition set_contracts (r : registry) (d : list (string * contract)) : registry :=
  {| rg_groups := rg_groups r; rg_contracts := d; rg_members := rg_members r; rg_next := rg_next r |}.

Definition set_groups (r : registry) (d : list (string * group)) : registry :=
  {| rg_groups := d; rg_contracts := rg_contracts r; rg_members := rg_members r; rg_next := rg_next r |}.

Definition alloc_oid (r : registry) : registry :=
  {| rg_groups := rg_groups r; rg_contracts := rg_contracts r; rg_members := rg_members r;
     rg_next := Pos.succ (rg_next r) |}.

(** ** ContractGroup *)

(** [isinstance(name, str) and name] *)
Definition valid_name (v : pyval F) : option string :=
  match v with PStr s => if String.eqb s "" then None else Some s | _ => None end.

Definition ContractGroup_new (name : pyval F) : ST registry group := fun r =>
  match valid_name name with
  | None => (r, Err (ValueError "contract group name must be a non-empty string"))
  | Some s => (set_members (alloc_oid r) (rg_next r) [], Ok (Group (rg_next r) s))
  end.

Definition ContractGroup_get (name : pyval F) : ST registry group := fun r =>
  match valid_name name with
  | None => (r, Err (ValueError "contract group name must be a non-empty string"))
  | Some s =>
      match dict_get (rg_groups r) s with
      | Some cg => (r, Ok cg)
      | None =>
          (cg ← ContractGroup_new name;
           r ← st_get;
           _ ← st_put (set_groups r (dict_set (rg_groups r) s cg));
           mret cg) r
      end
  end.

Definition ContractGroup_get_default : ST registry group := mret DEFAULT_CG.

Definition ContractGroup_exists (name : string) (r : registry) : bool :=
  dict_mem (rg_groups r) name.

Definition add_contract (self : group) (c : arg contract) : ST registry unit := fun r =>
  match c with
  | NotInst => (r, Err (TypeError "contract group members must be Contract objects"))
  | Inst c =>
      if negb (is_group (c_contract_group c) self)
      then (r, Err (ValueError "contract belongs to another group"))
      else match dict_get (members r self) (c_symbol c) with
           | Some existing =>
               if is_contract existing c
               then (set_members r (cg_oid self) (dict_set (members r self) (c_symbol c) c), Ok tt)
               else (r, Err (ValueError "contract group already contains a different contract with symbol"))
           | None => (set_members r (cg_oid self) (dict_set (members r self) (c_symbol c) c), Ok tt)
           end
  end.

Definition get_contract (self : group) (symbol : string) (r : registry) : option contract :=
  dict_get (members r self) symbol.

Definition get_contracts (self : group) (r : registry) : list contract := dict_values (members r self).

Definition group_clear (self : group) (r : registry) : registry := set_members r (cg_oid self) [].

Definition ContractGroup_clear_cache (r : registry) : registry :=
  let r := foldl (fun r cg => group_clear cg r) r (dict_values (rg_groups r)) in
  let r := group_clear DEFAULT_CG r in
  set_groups r [(cg_name DEFAULT_CG, DEFAULT_CG)].

(** ** Contract *)

(** [_validated_contract_components]: [NotInst] outside is not a pair,
    [NotInst] inside is a pair whose first element is no [Contract]. *)
Definition validated_contract_components (components : list (arg (arg contract * pyval F)))
  : result (list (contract * F)) :=
  foldE (fun validated component =>
    match component with
    | NotInst => Err (TypeError "contract components must be (Contract, ratio) tuples")
    | Inst (NotInst, _) => Err (TypeError "contract component instruments must be Contract objects")
    | Inst (Inst component_contract, ratio) =>
        ratio ← finite_real ratio;
        whenever f_isclose ratio f_zero raise ValueError "contract component ratios must be nonzero" ;;
        Ok (validated ++ [(component_contract, ratio)])
    end) [] components.

Record create_args := CreateArgs {
  a_symbol : pyval F;
  a_contract_group : option (arg group);
  a_expiry : option (arg (option Z));
  a_multiplier : option (pyval F);                 (* None: not given *)
  a_components : option (list (arg (arg contract * pyval F)));
  a_properties : option (arg (ns F));
  a_instrument_spec : option (arg (InstrumentSpec F));
}.

(** An optional argument whose class is checked: [None] gives the default. *)
Definition instance_or {A} (dflt : A) (a : option (arg A)) (e : exn) : result A :=
  match a with None => Ok dflt | Some (Inst x) => Ok x | Some NotInst => Err e end.

Definition checked_expiry (a : option (arg (option Z))) : result (option Z) :=
  match a with
  | None => Ok None
  | Some NotInst => Err (TypeError "contract expiry must be a numpy datetime64 value or None")
  | Some (Inst None) => Err (ValueError "contract expiry cannot be NaT")
  | Some (Inst (Some t)) => Ok (Some t)
  end.

(** The checks of [Contract.create], up to the construction. *)
Definition create_checks (a : create_args) (r : registry)
  : result (string * group * F * option Z * list (contract * F) * ns F * InstrumentSpec F) :=
  match valid_name (a_symbol a) with
  | None => Err (ValueError "contract symbol must be a non-empty string")
  | Some symbol =>
      contract_group ← instance_or DEFAULT_CG (a_contract_group a)
                         (TypeError "contract_group must be a ContractGroup");
      whenever dict_mem (rg_contracts r) symbol raise ValueError "Contract with symbol already exists" ;;
      multiplier ← match a_multiplier a with None => Ok f_one | Some m => finite_real m end;
      whenever f_leb multiplier f_zero raise ValueError "contract multiplier must be positive" ;;
      expiry ← checked_expiry (a_expiry a);
      components ← validated_contract_components (default [] (a_components a));
      properties ← instance_or [] (a_properties a)
                     (TypeError "contract properties must be a SimpleNamespace or None");
      spec ← instance_or default_InstrumentSpec (a_instrument_spec a)
               (TypeError "instrument_spec must be an InstrumentSpec or None");
      Ok (symbol, contract_group, multiplier, expiry, components, properties, spec)
  end.

Definition Contract_create (a : create_args) : ST registry contract := fun r =>
  match create_checks a r with
  | Err e => (r, Err e)
  | Ok (symbol, contract_group, multiplier, expiry, components, properties, spec) =>
      let c := Contract (rg_next r) symbol contract_group expiry multiplier components properties spec in
      (_ ← add_contract contract_group (Inst c);
       r ← st_get;
       _ ← st_put (set_contracts r (dict_set (rg_contracts r) symbol c));
       mret c) (alloc_oid r)
  end.

Definition Contract_exists (name : string) (r : registry) : bool := dict_mem (rg_contracts r) name.

Definition Contract_get (name : string) (r : registry) : option contract :=
  dict_get (rg_contracts r) name.

(** [components_match]: the same contracts, with equal ratios, in order. *)
Fixpoint components_match (actual requested : list (contract * F)) : bool :=
  match actual, requested with
  | [], [] => true
  | (ac, ar) :: actual, (rc, rr) :: requested =>
      is_contract ac rc && f_eqb ar rr && components_match actual requested
  | _, _ => false
  end.

(** The names of the arguments that conflict with the existing contract. *)
Definition get_or_create_conflicts (existing : contract) (a : create_args) : result (list string) :=
  c1 ← match a_contract_group a with
       | None => Ok []
       | Some NotInst => Err (TypeError "contract_group must be a ContractGroup")
       | Some (Inst g) => Ok (if is_group (c_contract_group existing) g then [] else ["contract_group"%string])
       end;
  expiry ← checked_expiry (a_expiry a);
  let c2 := match expiry with
            | None => []
            | Some t => if bool_decide (c_expiry existing = Some t) then [] else ["expiry"%string]
            end in
  c3 ← match a_multiplier a with
       | None => Ok []
       | Some m => requested ← finite_real m;
                   Ok (if f_eqb (c_multiplier existing) requested then [] else ["multiplier"%string])
       end;
  c4 ← match a_components a with
       | None => Ok []
       | Some l => requested ← validated_contract_components l;
                   Ok (if components_match (c_components existing) requested then [] else ["components"%string])
       end;
  c5 ← match a_properties a with
       | None => Ok []
       | Some NotInst => Err (TypeError "contract properties must be a SimpleNamespace or None")
       | Some (Inst p) => Ok (if ns_eqb (c_properties existing) p then [] else ["properties"%string])
       end;
  c6 ← match a_instrument_spec a with
       | None => Ok []
       | Some NotInst => Err (TypeError "instrument_spec must be an InstrumentSpec or None")
       | Some (Inst s) => Ok (if spec_eqb (c_instrument_spec existing) s then [] else ["instrument_spec"%string])
       end;
  Ok (c1 ++ c2 ++ c3 ++ c4 ++ c5 ++ c6).

(** [Contract.__registry.get(symbol)]: a symbol that is no string is in no key. *)
Definition registered (a : create_args) (r : registry) : option contract :=
  match a_symbol a with PStr s => dict_get (rg_contracts r) s | _ => None end.

Definition Contract_get_or_create (a : create_args) : ST registry contract := fun r =>
  match registered a r with
  | Some existing =>
      match get_or_create_conflicts existing a with
      | Err e => (r, Err e)
      | Ok [] => (r, Ok existing)
      | Ok _ => (r, Err (ValueError "existing contract conflicts with requested"))
      end
  | None => Contract_create a r
  end.

Definition Contract_clear_cache (r : registry) : registry :=
  set_contracts (foldl (fun r cg => group_clear cg r) r (dict_values (rg_groups r))) [].
End Registry.

Arguments contract F : clear implicits.
Arguments registry F : clear implicits.
Arguments create_args F : clear implicits.

(** ** Validators *)

Section Validators.
Context `{PyFloat F}.

(** The value a number denotes when it is a whole one. *)
Definition whole_value (v : pyval F) : option Z :=
  match v with
  | PInt z => if bool_decide (- 2 ^ 63 <= z < 2 ^ 64) then Some z else None
  | PNpInt z => Some z
  | PFloat x | PNpFloat x =>
      if f_isfinite x && f_is_integer x && negb (f_isclose x f_zero) then Some (f_trunc x) else None
  | _ => None
  end.

Lemma whole_quantity_Ok (v : pyval F) q :
  whole_quantity v = Ok q <->
  whole_value v = Some q /\ (match v with PInt _ | PNpInt _ => q <> 0 | _ => True end).
Proof.
  unfold whole_quantity, whole_value, int_isclose0.
  destruct v as [|b|b|z|x|z|x|s|o]; simpl; try (split; [congruence|naive_solver]).
  - case_bool_decide as Hz.
    + rewrite (proj2 (Z.leb_le (- 2 ^ 63) z)), (proj2 (Z.ltb_lt z (2 ^ 64))) by lia. simpl.
      destruct (Z.eqb_spec z 0); simpl; naive_solver.
    + destruct (Z.leb_spec (- 2 ^ 63) z), (Z.ltb_spec z (2 ^ 64)); simpl; try lia; naive_solver.
  - destruct (f_isfinite x), (f_isclose x f_zero), (f_is_integer x); simpl; naive_solver.
  - destruct (Z.eqb_spec z 0); simpl; naive_solver.
  - destruct (f_isfinite x), (f_isclose x f_zero), (f_is_integer x); simpl; naive_solver.
Qed.

(** A whole quantity is a fixed point of its own validation. *)
Lemma whole_quantity_int z : whole_quantity (PInt z : pyval F) = Ok z <-> z <> 0 /\ - 2 ^ 63 <= z < 2 ^ 64.
Proof. rewrite whole_quantity_Ok. simpl. case_bool_decide; naive_solver. Qed.

Lemma finite_real_Ok (v : pyval F) x :
  finite_real v = Ok x -> is_real v = true /\ py_float v = Ok x.
Proof. unfold finite_real. intros Hv. inv_ok Hv. done. Qed.

Lemma finite_real_float (x : F) : finite_real (PFloat x) = Ok x <-> f_isfinite x = true.
Proof. unfold finite_real. simpl. destruct (f_isfinite x); simpl; naive_solver. Qed.
End Validators.

(** ** Registry invariant *)

Section Invariant.
Context `{PyFloat F}.
Implicit Types r : registry F.

(** Registered contracts have a positive multiplier, a symbol, and no component
    with a zero ratio. *)
Definition contract_ok (c : contract F) : Prop :=
  c_symbol c <> "" /\ f_leb (c_multiplier c) f_zero = false /\
  Forall (fun '(_, ratio) => f_isclose ratio f_zero = false) (c_components c).

Record registry_wf r : Prop := RegistryWf {
  wf_contracts : dict_wf (rg_contracts r);
  wf_groups : dict_wf (rg_groups r);
  wf_contract s c : dict_get (rg_contracts r) s = Some c -> c_symbol c = s /\ contract_ok c;
  wf_group s g : dict_get (rg_groups r) s = Some g -> cg_name g = s /\ s <> "";
  wf_member o d : rg_members r !! o = Some d ->
    dict_wf d /\ forall s c, dict_get d s = Some c ->
      c_symbol c = s /\ cg_oid (c_contract_group c) = o /\ (c_oid c < rg_next r)%positive;
  wf_default : dict_get (rg_groups r) "DEFAULT" = Some DEFAULT_CG;
}.

Lemma initial_registry_wf : registry_wf initial_registry.
Proof.
  split; simpl.
  - constructor.
  - apply NoDup_singleton.
  - done.
  - intros s g. case_decide; [|done]. intros ?. simplify_eq. done.
  - intros o d Ho. apply lookup_singleton_Some in Ho as [<- <-]. split; [constructor|done].
  - done.
Qed.

(** Rewriting one group's dictionary. *)
Lemma set_members_wf r o d :
  registry_wf r -> dict_wf d ->
  (forall s c, dict_get d s = Some c ->
     c_symbol c = s /\ cg_oid (c_contract_group c) = o /\ (c_oid c < rg_next r)%positive) ->
  registry_wf (set_members r o d).
Proof.
  intros [] Hd Hm. split; simpl; try done.
  intros o' d' Ho. apply lookup_insert_Some in Ho as [[<- <-]|[_ Ho]]; eauto.
Qed.

Lemma alloc_oid_wf r : registry_wf r -> registry_wf (alloc_oid r).
Proof.
  intros []. split; simpl; try done. intros o d Hd.
  destruct (wf_member0 o d Hd) as [Hwf Hm]. split; [done|]. intros s c Hc.
  destruct (Hm s c Hc) as (? & ? & ?). split_and!; [done|done|lia].
Qed.

Lemma members_wf r g :
  registry_wf r -> dict_wf (members r g) /\
  forall s c, dict_get (members r g) s = Some c ->
    c_symbol c = s /\ cg_oid (c_contract_group c) = cg_oid g /\ (c_oid c < rg_next r)%positive.
Proof.
  intros Hwf. unfold members. destruct (rg_members r !! cg_oid g) as [d|] eqn:Hd; simpl.
  - by eapply wf_member.
  - split; [constructor|done].
Qed.

#[local] Hint Resolve initial_registry_wf alloc_oid_wf : gambit.

Lemma group_clear_wf r g : registry_wf r -> registry_wf (group_clear g r).
Proof. intros Hwf. apply set_members_wf; [done|constructor|done]. Qed.

Lemma groups_clear_wf r l : registry_wf r -> registry_wf (foldl (fun r cg => group_clear cg r) r l).
Proof. revert r. induction l as [|g l IH]; intros r Hwf; simpl; [done|]. by apply IH, group_clear_wf. Qed.

Lemma groups_clear_rest r l :
  rg_groups (foldl (fun r cg => group_clear cg r) r l) = rg_groups r /\
  rg_contracts (foldl (fun r cg => group_clear cg r) r l) = rg_contracts r.
Proof. revert r. induction l as [|g l IH]; intros r; simpl; [done|].
  by destruct (IH (group_clear g r)) as [-> ->]. Qed.

Lemma add_contract_wf r r' g c :
  registry_wf r -> (c_oid c < rg_next r)%positive -> add_contract g (Inst c) r = (r', Ok tt) ->
  registry_wf r' /\ rg_contracts r' = rg_contracts r /\ rg_groups r' = rg_groups r /\
  members r' g = dict_set (members r g) (c_symbol c) c /\
  (forall o, o <> cg_oid g -> rg_members r' !! o = rg_members r !! o).
Proof.
  intros Hwf Hlt Hadd. unfold add_contract in Hadd.
  destruct (is_group (c_contract_group c) g) eqn:Hg; simpl in Hadd; [|done].
  assert (r' = set_members r (cg_oid g) (dict_set (members r g) (c_symbol c) c)) as ->
    by (case_matches_in Hadd; done).
  destruct (members_wf r g Hwf) as [Hd Hm]. unfold is_group in Hg. bools.
  split_and!; [|done|done| |].
  - apply set_members_wf; [done|by apply dict_set_wf|].
    intros s c'. rewrite dict_get_set. case_decide; [|apply Hm]. intros ?. by simplify_eq.
  - unfold members, set_members. simpl. by rewrite lookup_insert_eq.
  - intros o Ho. simpl. by rewrite lookup_insert_ne.
Qed.

Lemma valid_name_Some (v : pyval F) s : valid_name v = Some s -> s <> "" /\ v = PStr s.
Proof.
  unfold valid_name. destruct v as [| | | | | | |t|]; try done.
  destruct (String.eqb_spec t ""); [done|]. intros; by simplify_eq.
Qed.

Lemma ContractGroup_new_wf r v r' res :
  registry_wf r -> ContractGroup_new v r = (r', res) ->
  registry_wf r' /\ rg_groups r' = rg_groups r /\
  (forall g, res = Ok g -> valid_name v = Some (cg_name g)).
Proof.
  unfold ContractGroup_new. intros Hwf Heq. destruct (valid_name v) as [s|]; simplify_eq.
  - split_and!; [|done|intros; by simplify_eq].
    apply set_members_wf; [by apply alloc_oid_wf|constructor|done].
  - done.
Qed.

Lemma ContractGroup_get_wf r v r' res :
  registry_wf r -> ContractGroup_get v r = (r', res) -> registry_wf r'.
Proof.
  unfold ContractGroup_get. intros Hwf Heq. destruct (valid_name v) as [s|] eqn:Hv; simplify_eq; [|done].
  destruct (dict_get (rg_groups r) s) as [g|] eqn:Hs; simplify_eq; [done|].
  revert Heq. unfold mbind, ST_bind. destruct (ContractGroup_new v r) as [r1 [g|e]] eqn:Hnew; intros Heq;
    destruct (ContractGroup_new_wf _ _ _ _ Hwf Hnew) as (Hwf1 & Hg1 & Hname); simplify_eq/=; [|done].
  specialize (Hname g eq_refl). rewrite Hv in Hname. unfold mret, ST_ret in Heq. simplify_eq.
  destruct (valid_name_Some _ _ Hv) as [Hne _].
  destruct Hwf1 as [W1 W2 W3 W4 W5 W6]. split; simpl; try done.
  - by apply dict_set_wf.
  - intros s' g'. rewrite dict_get_set. case_decide; [|apply W4]. intros; by simplify_eq.
  - rewrite dict_get_set_ne; [done|]. intros Hd. rewrite Hg1, Hd in W6. congruence.
Qed.

Lemma validated_components_ok l cs :
  validated_contract_components l = Ok cs ->
  Forall (fun '(_, ratio) => f_isclose (F:=F) ratio f_zero = false) cs.
Proof.
  unfold validated_contract_components. intros Hl.
  eapply (foldE_inv (Forall (fun '(_, ratio) => f_isclose ratio f_zero = false))); [|constructor|exact Hl].
  intros b x b' _ Hb Hx. destruct x as [[[c|] ratio]|]; [|done|done].
  inv_ok Hx. bools. apply Forall_app. by rewrite Forall_singleton.
Qed.

Lemma create_checks_ok (a : create_args F) r symbol g m expiry cs p s :
  create_checks a r = Ok (symbol, g, m, expiry, cs, p, s) ->
  a_symbol a = PStr symbol /\ symbol <> "" /\ dict_get (rg_contracts r) symbol = None /\
  f_leb m f_zero = false /\ Forall (fun '(_, ratio) => f_isclose (F:=F) ratio f_zero = false) cs.
Proof.
  unfold create_checks. intros Hc. destruct (valid_name (a_symbol a)) as [s'|] eqn:Hs; [|done].
  apply valid_name_Some in Hs as [Hne Hs]. inv_ok Hc. bools.
  split_and!; [done|done| |done|by eapply validated_components_ok].
  unfold dict_mem in *. bools. by apply eq_None_not_Some.
Qed.


(** [Contract.create] fails without touching the registries, or registers one
    new contract, under its symbol, in the registry and in its group. *)
Definition create_result (a : create_args F) r r' (res : result (contract F)) : Prop :=
  rg_groups r' = rg_groups r /\
  match res with
  | Err _ => rg_contracts r' = rg_contracts r /\ rg_members r' = rg_members r
  | Ok c =>
      a_symbol a = PStr (c_symbol c) /\ contract_ok c /\
      dict_get (rg_contracts r) (c_symbol c) = None /\
      dict_get (members r (c_contract_group c)) (c_symbol c) = None /\
      rg_contracts r' = rg_contracts r ++ [(c_symbol c, c)] /\
      members r' (c_contract_group c) = members r (c_contract_group c) ++ [(c_symbol c, c)] /\
      (forall o, o <> cg_oid (c_contract_group c) -> rg_members r' !! o = rg_members r !! o)
  end.

Lemma set_contracts_wf r s c :
  registry_wf r -> c_symbol c = s -> contract_ok c ->
  registry_wf (set_contracts r (dict_set (rg_contracts r) s c)).
Proof.
  intros [] Hs Hc. split; simpl; try done; [by apply dict_set_wf|].
  intros s' c'. rewrite dict_get_set. case_decide; [intros; by simplify_eq|eauto].
Qed.

Lemma Contract_create_spec (a : create_args F) r r' res :
  registry_wf r -> Contract_create a r = (r', res) -> registry_wf r' /\ create_result a r r' res.
Proof.
  intros Hwf Hc. unfold Contract_create in Hc.
  destruct (create_checks a r) as [[[[[[[s g] m] expiry] cs] p] sp]|e] eqn:Hck; [|by simplify_eq].
  apply create_checks_ok in Hck as (Hs & Hne & Hfresh & Hm & Hcs).
  set (c := Contract (rg_next r) s g expiry m cs p sp) in *.
  revert Hc. unfold mbind, ST_bind, mret, ST_ret, st_get, st_put. destruct (add_contract g (Inst c) (alloc_oid r)) as [r1 [[]|e]] eqn:Hadd.
  - pose proof (add_contract_wf (alloc_oid r) r1 g c) as Hwf1.
    destruct Hwf1 as (Hwf1 & H1 & H2 & H3 & H4); [by apply alloc_oid_wf|simpl; lia|done|].
    simpl. intros ?; simplify_eq. split.
    { by apply set_contracts_wf. }
    assert (dict_get (members r g) s = None) as Hnone.
    { destruct (dict_get (members r g) s) as [c'|] eqn:Hm'; [|done]. exfalso.
      apply (members_wf r g Hwf) in Hm' as Hlt. unfold add_contract in Hadd. simpl in Hadd.
      unfold is_group in Hadd. simpl in Hadd. rewrite bool_decide_true in Hadd by done. simpl in Hadd.
      change (members (alloc_oid r) g) with (members r g) in Hadd. rewrite Hm' in Hadd.
      unfold is_contract in Hadd. rewrite bool_decide_false in Hadd; [done|]. simpl. lia. }
    split; [done|]. split_and!; try done; simpl.
    + rewrite H1. by apply dict_set_fresh.
    + unfold members in *. simpl. rewrite H3. by apply dict_set_fresh.
  - intros ?; simplify_eq.
    assert (r' = alloc_oid r) as ->.
    { unfold add_contract in Hadd. revert Hadd. case_matches; intros; by simplify_eq. }
    split; [by apply alloc_oid_wf|done].
Qed.

Lemma Contract_get_or_create_spec (a : create_args F) r r' res :
  registry_wf r -> Contract_get_or_create a r = (r', res) ->
  registry_wf r' /\
  match registered a r with
  | Some c => r' = r /\ (forall c', res = Ok c' -> c' = c /\ get_or_create_conflicts c a = Ok [])
  | None => create_result a r r' res
  end.
Proof.
  unfold Contract_get_or_create. intros Hwf Heq. destruct (registered a r) as [c|] eqn:Hr.
  - destruct (get_or_create_conflicts c a) as [[|x l]|e] eqn:Hc; simplify_eq; naive_solver.
  - by apply Contract_create_spec.
Qed.

Lemma Contract_clear_cache_wf r : registry_wf r -> registry_wf (Contract_clear_cache r).
Proof.
  intros Hwf. unfold Contract_clear_cache.
  destruct (groups_clear_wf r (dict_values (rg_groups r)) Hwf).
  split; simpl; try done. constructor.
Qed.

Lemma ContractGroup_clear_cache_wf r : registry_wf r -> registry_wf (ContractGroup_clear_cache r).
Proof.
  intros Hwf. unfold ContractGroup_clear_cache.
  destruct (group_clear_wf _ DEFAULT_CG (groups_clear_wf r (dict_values (rg_groups r)) Hwf)).
  split; simpl; try done.
  - apply NoDup_singleton.
  - intros s g. case_decide; [|done]. intros ?. by simplify_eq.
Qed.

(** ** Every sequence of operations *)

(** A group that exists, and a request for an existing group *)
Definition existing r (g : group) : Prop := (cg_oid g < rg_next r)%positive.
Definition requests_existing r (a : create_args F) : Prop := forall g, a_contract_group a = Some (Inst g) -> existing r g.

(** One call of a public operation on existing objects, with any arguments, to its end
    or to its exception: those that add, and those that clear. *)
Inductive adding_step : registry F -> registry F -> Prop :=
  | step_group_new v r r' res : ContractGroup_new v r = (r', res) -> adding_step r r'
  | step_group_get v r r' res : ContractGroup_get v r = (r', res) -> adding_step r r'
  | step_add_contract g c r r' res :
      existing r g -> (forall c', c = Inst c' -> (c_oid c' < rg_next r)%positive) ->
      add_contract g c r = (r', res) -> adding_step r r'
  | step_create a r r' res : requests_existing r a -> Contract_create a r = (r', res) -> adding_step r r'
  | step_get_or_create a r r' res : requests_existing r a -> Contract_get_or_create a r = (r', res) -> adding_step r r'.

Inductive registry_step : registry F -> registry F -> Prop :=
  | step_adding r r' : adding_step r r' -> registry_step r r'
  | step_clear_cache r : registry_step r (Contract_clear_cache r)
  | step_group_clear g r : registry_step r (group_clear g r)
  | step_group_clear_cache r : registry_step r (ContractGroup_clear_cache r).

Lemma add_contract_fail r r' g c e : add_contract g c r = (r', Err e) -> r' = r.
Proof. unfold add_contract. case_matches; intros; by simplify_eq. Qed.

(** [d] has the object [c] under [s]. *)
Definition holds (d : list (string * contract F)) s (c : contract F) : Prop :=
  exists c', dict_get d s = Some c' /\ c_oid c' = c_oid c.

(** Nothing registered or listed by an existing group is replaced or lost. *)
Record keeps r r' : Prop := Keeps {
  keeps_contracts s c : dict_get (rg_contracts r) s = Some c -> dict_get (rg_contracts r') s = Some c;
  keeps_groups s g : dict_get (rg_groups r) s = Some g -> dict_get (rg_groups r') s = Some g;
  keeps_members g s c : existing r g -> holds (members r g) s c -> holds (members r' g) s c;
  keeps_existing g : existing r g -> existing r' g;
}.

#[export] Instance keeps_refl : Reflexive keeps.
Proof. by split. Qed.

(** The registry agrees with the groups: the contract's group lists the object that the
    registry has under a symbol, under that symbol. *)
Definition agrees r : Prop := forall s c, dict_get (rg_contracts r) s = Some c ->
  existing r (c_contract_group c) /\ holds (members r (c_contract_group c)) s c.

Lemma add_contract_next r r' g c res : add_contract g c r = (r', res) -> rg_next r' = rg_next r.
Proof. unfold add_contract. case_matches; intros; by simplify_eq. Qed.

Lemma add_contract_keeps r r' g c res : registry_wf r -> (forall c', c = Inst c' -> (c_oid c' < rg_next r)%positive) ->
  add_contract g c r = (r', res) -> keeps r r' /\ rg_contracts r' = rg_contracts r.
Proof.
  intros Hwf Hc Ha. pose proof (add_contract_next _ _ _ _ _ Ha) as Hn. destruct res as [[]|e]; [|by apply add_contract_fail in Ha as ->].
  destruct c as [c|]; [|done]. pose proof Ha as Ha'.
  apply add_contract_wf in Ha' as (_ & H1 & H2 & H3 & H4); [|done|by apply Hc].
  split; [split; [by rewrite H1|by rewrite H2| |unfold existing; by rewrite Hn]|done].
  intros g' s c0 _ (c' & Hs & Ho). destruct (decide (cg_oid g' = cg_oid g)) as [Heq|Hne]; [|exists c'; unfold members in *; by rewrite H4].
  assert (members r' g' = members r' g /\ members r g' = members r g) as [Hg' Hg] by (unfold members; by rewrite Heq).
  unfold holds. rewrite Hg', H3, dict_get_set. rewrite Hg in Hs. case_decide as Hd; [|by exists c']. subst s. exists c. split; [done|].
  unfold add_contract in Ha. destruct (negb _); [done|]. rewrite Hs in Ha. unfold is_contract in Ha. by case_bool_decide; [congruence|].
Qed.

Lemma group_new_keeps v r r' res : ContractGroup_new v r = (r', res) -> keeps r r' /\ rg_contracts r' = rg_contracts r.
Proof.
  unfold ContractGroup_new. destruct (valid_name v) as [s|]; intros; simplify_eq; [|done]. split; [|done]. split; try done.
  - intros g s' c Hg. unfold members, existing in *. simpl. rewrite lookup_insert_ne by lia. done.
  - unfold existing. simpl. lia.
Qed.

Lemma group_get_keeps v r r' res : ContractGroup_get v r = (r', res) -> keeps r r' /\ rg_contracts r' = rg_contracts r.
Proof.
  unfold ContractGroup_get. destruct (valid_name v) as [s|]; [|intros; by simplify_eq].
  destruct (dict_get (rg_groups r) s) as [g|] eqn:Hs; [intros; by simplify_eq|]. unfold mbind, ST_bind.
  destruct (ContractGroup_new v r) as [r1 [g|e]] eqn:Hnew; pose proof (group_new_keeps _ _ _ _ Hnew) as [Hk Hc];
    unfold mret, ST_ret, st_get, st_put; simpl; intros Heq; simplify_eq; [|done].
  assert (rg_groups r1 = rg_groups r) as Hg1 by (unfold ContractGroup_new in Hnew; case_matches_in Hnew; by simplify_eq).
  destruct Hk as [K1 K2 K3 K4].
  split; [|done]. split; [done| |done|done]. intros s' g' Hg'. simpl. rewrite Hg1, dict_get_set_ne; [done|]. intros ->. congruence.
Qed.

Lemma create_next (a : create_args F) r r' res : Contract_create a r = (r', res) ->
  (rg_next r <= rg_next r')%positive /\
  forall c, res = Ok c -> c_contract_group c = match a_contract_group a with Some (Inst g) => g | _ => DEFAULT_CG end.
Proof.
  unfold Contract_create. destruct (create_checks a r) as [[[[[[[s g] m] expiry] cs] p] sp]|e] eqn:Hck; [|intros; by simplify_eq].
  assert (g = match a_contract_group a with Some (Inst g) => g | _ => DEFAULT_CG end) as Hg.
  { unfold create_checks in Hck. destruct (valid_name _); [|done]. apply bind_Ok_inv in Hck as (g' & Hg & Hck). inv_ok Hck.
    unfold instance_or in Hg. destruct (a_contract_group a) as [[]|]; by simplify_eq. }
  unfold mbind, ST_bind, mret, ST_ret, st_get, st_put. destruct (add_contract _ _ _) as [r1 [[]|e]] eqn:Ha;
    apply add_contract_next in Ha; simpl in *; intros; simplify_eq/=; (split; [lia|naive_solver]).
Qed.

Lemma create_keeps (a : create_args F) r r' res : registry_wf r -> existing r DEFAULT_CG -> requests_existing r a ->
  Contract_create a r = (r', res) -> keeps r r' /\ (agrees r -> agrees r').
Proof.
  intros Hwf Hdef Hreq Hc. destruct (create_next a r r' res Hc) as [Hnext Hgroup].
  pose proof (Contract_create_spec a r r' res Hwf Hc) as [_ [Hg Hres]].
  assert (forall g, existing r g -> existing r' g) as Hex by (unfold existing; intros g; lia).
  destruct res as [c|e]; cycle 1.
  { destruct Hres as [Hcs Hm]. assert (forall g, members r' g = members r g) as Hmem by (intros g; unfold members; by rewrite Hm).
    split; [split; [by rewrite Hcs|by rewrite Hg|intros g; by rewrite Hmem|done]|]. intros Hag s c Hs. rewrite Hcs in Hs. rewrite Hmem.
    destruct (Hag s c Hs). by split; [apply Hex|]. }
  destruct Hres as (_ & _ & Hnew & Hnewm & Hcs & Hm & Hother). rewrite <- dict_set_fresh in Hcs, Hm by done.
  assert (forall g s c', holds (members r g) s c' -> holds (members r' g) s c') as Hmem.
  { intros g s c' (c0 & Hs & Ho). exists c0. split; [|done]. destruct (decide (cg_oid g = cg_oid (c_contract_group c))) as [Heq|Hne].
    - assert (members r' g = members r' (c_contract_group c) /\ members r g = members r (c_contract_group c)) as [-> Hr]
        by (unfold members; by rewrite Heq). rewrite Hr in Hs. rewrite Hm, dict_get_set. case_decide; [congruence|done].
    - unfold members in *. by rewrite Hother. }
  split; [split; [|by rewrite Hg|by intros g s c' _; apply Hmem|done]|].
  - intros s c' Hs. rewrite Hcs, dict_get_set. case_decide; [congruence|done].
  - intros Hag s c'. rewrite Hcs, dict_get_set. case_decide as Hs.
    + intros [= <-]. subst s. split.
      * apply Hex. rewrite (Hgroup c eq_refl). destruct (a_contract_group a) as [[g|]|] eqn:Ha; [by apply Hreq|done..].
      * exists c. by rewrite Hm, dict_get_set, decide_True.
    + intros Hc'. destruct (Hag s c' Hc') as [? ?]. by split; [apply Hex|apply Hmem].
Qed.

Lemma keeps_agrees r r' : keeps r r' -> rg_contracts r' = rg_contracts r -> agrees r -> agrees r'.
Proof. intros [_ _ K3 K4] Hc Hag s c. rewrite Hc. intros Hs. destruct (Hag s c Hs). split; [by apply K4|by apply K3]. Qed.

Lemma adding_step_keeps r r' : adding_step r r' -> registry_wf r -> existing r DEFAULT_CG -> keeps r r' /\ (agrees r -> agrees r').
Proof.
  intros Hstep Hwf Hdef. assert (keeps r r' /\ rg_contracts r' = rg_contracts r -> keeps r r' /\ (agrees r -> agrees r')) as Hsame
    by (intros [Hk Hc]; split; [done|by apply keeps_agrees]).
  destruct Hstep as [v r r' res Hn|v r r' res Hn|g c r r' res _ Hlt Ha|a r r' res Hreq Hc|a r r' res Hreq Hc].
  - by eapply Hsame, group_new_keeps.
  - by eapply Hsame, group_get_keeps.
  - by eapply Hsame, add_contract_keeps.
  - by eapply create_keeps.
  - unfold Contract_get_or_create in Hc. destruct (registered a r); [|by eapply create_keeps].
    destruct (get_or_create_conflicts _ _) as [[]|]; by simplify_eq.
Qed.

Lemma adding_step_wf r r' : adding_step r r' -> registry_wf r -> registry_wf r'.
Proof.
  intros Hstep Hwf. destruct Hstep as [v r r' res Hn|v r r' res Hn|g c r r' res _ Hlt Ha|a r r' res _ Hc|a r r' res _ Hc].
  - by eapply ContractGroup_new_wf.
  - by eapply ContractGroup_get_wf.
  - destruct res as [[]|e]; [|apply add_contract_fail in Ha; by subst].
    destruct c as [c|]; [|done]. by eapply add_contract_wf; eauto.
  - by eapply Contract_create_spec.
  - by eapply Contract_get_or_create_spec.
Qed.

Lemma groups_clear_next r l : rg_next (foldl (fun r cg => group_clear cg r) r l) = rg_next r.
Proof. revert r. induction l as [|g l IH]; intros r; simpl; [done|]. by rewrite IH. Qed.

Lemma registry_step_wf r r' : registry_step r r' -> registry_wf r /\ existing r DEFAULT_CG -> registry_wf r' /\ existing r' DEFAULT_CG.
Proof.
  intros Hstep [Hwf Hdef]. destruct Hstep as [r r' Hs|r|g r|r].
  - split; [by eapply adding_step_wf|]. by apply (keeps_existing r r'); [apply adding_step_keeps|].
  - split; [by apply Contract_clear_cache_wf|]. unfold existing, Contract_clear_cache. simpl. by rewrite groups_clear_next.
  - split; [by apply group_clear_wf|done].
  - split; [by apply ContractGroup_clear_cache_wf|]. unfold existing, ContractGroup_clear_cache. simpl. by rewrite groups_clear_next.
Qed.

Lemma registry_steps_wf r r' : rtc registry_step r r' -> registry_wf r /\ existing r DEFAULT_CG -> registry_wf r' /\ existing r' DEFAULT_CG.
Proof. induction 1 as [|r0 r1 r2 Hs Hr IH]; [done|]. intros Hwf. by eapply IH, registry_step_wf. Qed.

Lemma reachable_wf r : rtc registry_step initial_registry r -> registry_wf r /\ existing r DEFAULT_CG.
Proof. intros Hr. eapply registry_steps_wf; [exact Hr|]. split; [apply initial_registry_wf|]. unfold existing. simpl. lia. Qed.

(** A history in which no group was cleared, short of the whole contract cache *)
Inductive uncleared_step : registry F -> registry F -> Prop :=
  | uncleared_adding r r' : adding_step r r' -> uncleared_step r r'
  | uncleared_clear_cache r : uncleared_step r (Contract_clear_cache r).

Lemma uncleared_steps_agree r : rtc uncleared_step initial_registry r -> registry_wf r /\ existing r DEFAULT_CG /\ agrees r.
Proof.
  intros Hr. pattern r. revert r Hr. apply rtc_ind_r.
  - split_and!; [apply initial_registry_wf|unfold existing; simpl; lia|done].
  - clear. intros r r' _ Hs (Hwf & Hdef & Hag). assert (registry_step r r') as Hstep by (destruct Hs; by constructor).
    destruct (registry_step_wf r r' Hstep) as [? ?]; [done|]. split_and!; [done..|].
    destruct Hs as [r r' Hs|r]; [by eapply adding_step_keeps|]. intros s c. unfold Contract_clear_cache. simpl. done.
Qed.
End Invariant.

(** ** Properties *)

(** The number a scalar denotes, in exact arithmetic. *)
Definition denotes (v : pyval XQ) : option Qc :=
  match v with
  | PInt z | PNpInt z => Some (zq z)
  | PFloat x | PNpFloat x => x
  | _ => None
  end.

Lemma is_integer_zq (a : Qc) : (Qden a =? 1)%positive = true -> a = zq (Qnum a) /\ Z.quot (Qnum a) (Zpos (Qden a)) = Qnum a.
Proof.
  intros Hd%Pos.eqb_eq. rewrite Hd, Z.quot_1_r. split; [|done].
  apply Qc_is_canon. unfold zq. to_Q. destruct a as [[n d] Hc]. simpl in *. by subst.
Qed.

Lemma zq_is_integer z : (Qden (zq z) =? 1)%positive = true /\ Z.quot (Qnum (zq z)) (Zpos (Qden (zq z))) = z.
Proof.
  assert (this (zq z) = inject_Z z) as ->; [|by rewrite Z.quot_1_r].
  unfold zq, Q2Qc. cbn [this]. unfold Qred, inject_Z.
  pose proof (Z.ggcd_gcd z 1) as H1. pose proof (Z.ggcd_correct_divisors z 1) as H2.
  destruct (Z.ggcd z 1) as [g [aa bb]]. simpl in *. rewrite Z.gcd_1_r in H1. subst.
  destruct H2 as [H2 H3]. rewrite Z.mul_1_l in *. by subst.
Qed.

(** [_whole_quantity] accepts exactly the scalars that denote a nonzero
    integer (a Python [int] only within 64 bits) and returns that integer;
    booleans, text, fractions, zero and NaN are refused. *)
Theorem whole_quantity_exact (v : pyval XQ) q :
  whole_quantity v = Ok q <->
  denotes v = Some (zq q) /\ q <> 0 /\
  (match v with PInt z => - 2 ^ 63 <= z < 2 ^ 64 | _ => True end).
Proof.
  assert (forall x : XQ, whole_quantity (PFloat x) = Ok q <-> x = Some (zq q) /\ q <> 0) as Hf.
  { intros x. rewrite whole_quantity_Ok. destruct x as [a|]; [|simpl; naive_solver].
    unfold whole_value. rewrite f_isclose_exact. cbn -[Pos.eqb Z.quot Exact.qeqb].
    destruct (Qden a =? 1)%positive eqn:Hd; cbn -[Exact.qeqb Z.quot].
    - destruct (is_integer_zq a Hd) as [Ha Hq]. rewrite Hq.
      destruct (Exact.qeqb a 0) eqn:Hz; cbn.
      + apply qeqb_eq in Hz. split; [naive_solver|]. intros [Heq Hne]. exfalso. apply Hne.
        simplify_eq. apply zq_inj. by rewrite zq_0.
      + split.
        * intros [[= <-] _]. split; [by f_equal|]. intros H0. rewrite H0, zq_0 in Ha. subst a.
          by rewrite (proj2 (qeqb_eq 0 0)) in Hz.
        * intros [[= ->] _]. split; [|done]. f_equal. by apply zq_inj.
    - split; [naive_solver|]. intros [[= ->] _]. by rewrite (proj1 (zq_is_integer q)) in Hd. }
  assert (forall x : XQ, whole_quantity (PNpFloat x) = whole_quantity (PFloat x)) as Hnp by done.
  destruct v as [|b|b|z|x|z|x|s|o]; try (split; [discriminate|intros [? _]; discriminate]).
  - rewrite whole_quantity_Ok. simpl. case_bool_decide; [|naive_solver].
    split; [naive_solver|]. intros (Hz%(inj Some)%zq_inj & ? & ?). by subst.
  - rewrite Hf. naive_solver.
  - rewrite whole_quantity_Ok. simpl. split; [naive_solver|]. intros (Hz%(inj Some)%zq_inj & ? & ?). by subst.
  - rewrite Hnp, Hf. naive_solver.
Qed.

(** C33: The two registries and the groups' dictionaries stay consistent under
    every sequence of public operations, whatever their arguments and whether
    or not they raise.  Keys are unique and are the symbols of the contracts
    they map to, a group lists only its own contracts, registered contracts
    have a positive multiplier and no zero component ratio, and the default
    group stays registered.  An operation that adds never replaces or loses an
    object that is registered or that a group lists: a symbol keeps its one
    contract, and a name its one group, until a cache is cleared.  And unless a
    group is cleared on its own, the registries agree: the object registered under a
    symbol is the one its group lists under it. *)
Theorem registry_reachable_wf `{PyFloat F} (r : registry F) :
  rtc registry_step initial_registry r ->
  registry_wf r /\ (forall r', adding_step r r' -> keeps r r') /\ (rtc uncleared_step initial_registry r -> agrees r).
Proof.
  intros Hr. destruct (reachable_wf r Hr) as [Hwf Hdef]. split_and!; [done| |].
  - intros r' Hs. by apply adding_step_keeps.
  - intros Hu. by apply uncleared_steps_agree.
Qed.

(** "ES" is registered; asking to create it again leaves it. *)
Lemma registry_reachable_wf_witness :
  let a := CreateArgs (F:=spec_float) (PStr "ES") None None (Some (PInt 50)) None None None in
  let r := (Contract_create a initial_registry).1 in
  is_Some (dict_get (rg_contracts r) "ES"%string) /\ registry_wf r /\ agrees r /\ keeps r (Contract_create a r).1.
Proof.
  intros a r. assert (forall r, adding_step r (Contract_create a r).1) as Hstep
    by (intros r0; apply (step_create a r0 _ (Contract_create a r0).2); [intros g Hg; discriminate Hg|apply (surjective_pairing (Contract_create a r0))]).
  destruct (registry_reachable_wf r) as (Hwf & Hk & Ha); [apply rtc_once, step_adding, Hstep|].
  split_and!; [by eexists|exact Hwf|apply Ha, rtc_once, uncleared_adding, Hstep|apply Hk, Hstep].
Defined.

(** [Contract.get_or_create] on a registry any history has produced: when
    the symbol is registered it returns that very object or raises, and changes
    nothing; otherwise it either raises without touching the registries or
    registers one new contract under its symbol, in the registry and in its
    group, and nowhere else. *)
Theorem Contract_get_or_create_correct `{PyFloat F} (a : create_args F) r r' res :
  rtc registry_step initial_registry r -> Contract_get_or_create a r = (r', res) ->
  match registered a r with
  | Some c => r' = r /\ (forall c', res = Ok c' -> c' = c /\ get_or_create_conflicts c a = Ok [])
  | None => create_result a r r' res
  end.
Proof.
  intros Hr Heq. by apply (Contract_get_or_create_spec a r r' res (proj1 (reachable_wf r Hr))).
Qed.

Lemma Contract_get_or_create_correct_witness :
  let a := CreateArgs (F:=spec_float) (PStr "ES") None None (Some (PInt 50)) None None None in
  let r1 := (Contract_get_or_create a initial_registry).1 in
  registered a r1 <> None /\ (Contract_get_or_create a r1).1 = r1.
Proof.
  intros a r1. split; [done|].
  refine (proj1 (Contract_get_or_create_correct a r1 _ (Contract_get_or_create a r1).2 _ _)).
  - eapply rtc_once, step_adding, (step_get_or_create a); [intros g Hg; discriminate Hg|].
    apply (surjective_pairing (Contract_get_or_create a initial_registry)).
  - apply (surjective_pairing (Contract_get_or_create a r1)).
Defined.
