(* ===== verification/Orders.v ===== *)
(** * Orders, prices and trades: [pq_types.py]

    Order and trade objects come from user code, which may put anything in
    their fields: [raw_order] and [raw_trade] are such objects, [order] and
    [trade] what is left once the validators have accepted them.  [mk_order] is
    the dataclass constructor with the [__post_init__] of the class. *)

From S2P Require Import Prelude Numeric Instruments Contracts.
From Stdlib Require Import SpecFloat.

Open Scope Z_scope.

Inductive OrderStatus := OPEN | PARTIALLY_FILLED | FILLED | CANCEL_REQUESTED | CANCELLED.
Inductive TimeInForce := FOK | GTC | DAY.

#[export] Instance OrderStatus_eq_dec : EqDecision OrderStatus.
Proof. solve_decision. Defined.
#[export] Instance TimeInForce_eq_dec : EqDecision TimeInForce.
Proof. solve_decision. Defined.

Section Orders.
Context `{PyFloat F}.

(** ** Prices *)

Record Price := mkPrice {
  p_timestamp : Z;
  p_bid : F;
  p_ask : F;
  p_bid_size : Z;
  p_ask_size : Z;
  p_valid : bool;
}.

Definition mid (p : Price) : F := f_mul (f_dec 5 1) (f_add (p_bid p) (p_ask p)).

Definition vw_mid (p : Price) : F :=
  if p_bid_size p + p_ask_size p =? 0 then f_nan
  else f_div (f_add (f_mul (p_bid p) (f_of_Z (p_ask_size p))) (f_mul (p_ask p) (f_of_Z (p_bid_size p))))
             (f_of_Z (p_bid_size p + p_ask_size p)).

Definition spread (p : Price) : F :=
  if f_ltb (p_ask p) (p_bid p) then f_nan else f_sub (p_ask p) (p_bid p).

(** ** Orders *)

(** The subclass of an order object, with the fields it adds. *)
Inductive raw_kind :=
  | RBase
  | RMarket
  | RLimit (limit_price : pyval F)
  | RRoll (reopen_contract : arg (contract F)) (close_qty reopen_qty : pyval F)
  | RStopLimit (trigger_price limit_price : pyval F)
  | RVWAP (vwap_stop : pyval F) (vwap_end_time : arg (option Z)).

Record raw_order := RawOrder {
  r_contract : arg (contract F);
  r_timestamp : arg (option Z);
  r_qty : pyval F;
  r_reason_code : string;
  r_time_in_force : arg TimeInForce;
  r_properties : ns F;
  r_status : arg OrderStatus;
  r_kind : raw_kind;
}.

Record order := Order {
  o_contract : contract F;
  o_timestamp : option Z;
  o_qty : Z;
  o_reason_code : string;
  o_time_in_force : TimeInForce;
  o_properties : ns F;
  o_status : OrderStatus;
  o_kind : raw_kind;
}.

Definition set_qty_status (o : order) (qty : Z) (status : OrderStatus) : order :=
  {| o_contract := o_contract o; o_timestamp := o_timestamp o; o_qty := qty;
     o_reason_code := o_reason_code o; o_time_in_force := o_time_in_force o;
     o_properties := o_properties o; o_status := status; o_kind := o_kind o |}.

Definition set_properties (o : order) (p : ns F) : order :=
  {| o_contract := o_contract o; o_timestamp := o_timestamp o; o_qty := o_qty o;
     o_reason_code := o_reason_code o; o_time_in_force := o_time_in_force o;
     o_properties := p; o_status := o_status o; o_kind := o_kind o |}.

Definition set_kind (o : order) (k : raw_kind) : order :=
  {| o_contract := o_contract o; o_timestamp := o_timestamp o; o_qty := o_qty o;
     o_reason_code := o_reason_code o; o_time_in_force := o_time_in_force o;
     o_properties := o_properties o; o_status := o_status o; o_kind := k |}.

(** [_validate_order_references]: the checked fields. *)
Definition validate_order_references (o : raw_order)
  : result (contract F * option Z * TimeInForce * OrderStatus) :=
  match r_contract o with
  | NotInst => Err (TypeError "order contract must be a Contract")
  | Inst c =>
  match r_timestamp o with
  | NotInst => Err (TypeError "order timestamp must be a numpy datetime64 value")
  | Inst t =>
  match r_time_in_force o with
  | NotInst => Err (TypeError "order time_in_force must be a TimeInForce")
  | Inst tif =>
  match r_status o with
  | NotInst => Err (TypeError "order status must be an OrderStatus")
  | Inst s => Ok (c, t, tif, s)
  end end end end.

(** [Order.__post_init__] of an object whose class adds [kind]. *)
Definition order_post_init (o : raw_order) (kind : raw_kind) : result order :=
  '(c, t, tif, s) ← validate_order_references o;
  qty ← whole_quantity (r_qty o);
  Ok (Order c t qty (r_reason_code o) tif (r_properties o) s kind).

Definition is_nan_float (v : pyval F) : bool :=
  match v with PFloat x | PNpFloat x => f_isnan x | _ => false end.

(** [VWAPOrder._validate_stop] *)
Definition validate_stop (vwap_stop : pyval F) : result unit :=
  if is_nan_float vwap_stop then Ok tt
  else _ ← finite_real vwap_stop; Ok tt.

(** [VWAPOrder._validate_window]: the end time. *)
Definition validate_window (timestamp vwap_end_time : arg (option Z)) : result Z :=
  match timestamp, vwap_end_time with
  | Inst t, Inst e =>
      match t, e with
      | Some t, Some e =>
          whenever e <? t raise ValueError "VWAP end time cannot precede the order timestamp" ;;
          Ok e
      | _, _ => Err (ValueError "VWAP order timestamps cannot be NaT")
      end
  | _, _ => Err (TypeError "VWAP order timestamps must be numpy datetime64 values")
  end.

(** [RollOrder._validated_terms] *)
Definition validated_terms (o : raw_order) (reopen : arg (contract F)) (close_q reopen_q : pyval F)
  : result (contract F * Z * Z) :=
  match r_contract o with
  | NotInst => Err (TypeError "order contract must be a Contract")
  | Inst c =>
  match reopen with
  | NotInst => Err (TypeError "roll reopen contract must be a Contract")
  | Inst rc =>
      close_qty ← whole_quantity close_q;
      reopen_qty ← whole_quantity reopen_q;
      whenever is_contract rc c raise ValueError "roll contracts must be distinct" ;;
      unless is_group (c_contract_group rc) (c_contract_group c)
        raise ValueError "roll contracts must belong to the same contract group" ;;
      whenever Bool.eqb (0 <? close_qty) (0 <? reopen_qty)
        raise ValueError "roll close and reopen quantities must have opposite signs" ;;
      Ok (rc, close_qty, reopen_qty)
  end end.

Definition with_qty (o : raw_order) (q : pyval F) : raw_order :=
  RawOrder (r_contract o) (r_timestamp o) q (r_reason_code o) (r_time_in_force o) (r_properties o)
           (r_status o) (r_kind o).

(** Construction of an order of any class. *)
Definition mk_order (o : raw_order) : result order :=
  match r_kind o with
  | RBase => order_post_init o RBase
  | RMarket => order_post_init o RMarket
  | RLimit limit_price =>
      o' ← order_post_init o (r_kind o);
      p ← finite_real limit_price;
      Ok (set_kind o' (RLimit (PFloat p)))
  | RRoll reopen close_qty reopen_qty =>
      '(rc, cq, rq) ← validated_terms o reopen close_qty reopen_qty;
      order_post_init (with_qty o (PInt cq)) (RRoll (Inst rc) (PInt cq) (PInt rq))
  | RStopLimit trigger limit_price =>
      o' ← order_post_init o (r_kind o);
      t ← finite_real trigger;
      p ← (if is_nan_float limit_price then Ok limit_price else PFloat <$> finite_real limit_price);
      Ok (set_kind o' (RStopLimit (PFloat t) p))
  | RVWAP stop end_time =>
      o' ← order_post_init o (r_kind o);
      _ ← validate_window (r_timestamp o) end_time;
      _ ← validate_stop stop;
      Ok o'
  end.

Definition is_open (o : order) : bool :=
  match o_status o with OPEN | CANCEL_REQUESTED | PARTIALLY_FILLED => true | _ => false end.

Definition request_cancel (o : order) : order :=
  match o_status o with
  | FILLED | CANCELLED | CANCEL_REQUESTED => o
  | _ => set_qty_status o (o_qty o) CANCEL_REQUESTED
  end.

Definition cancel (o : order) : order :=
  match o_status o with
  | FILLED | CANCELLED => o
  | _ => set_qty_status o (o_qty o) CANCELLED
  end.

(** [fill(fill_qty)]: a NaN quantity fills the whole order. *)
Definition fill (o : order) (fill_qty : pyval F) : result order :=
  unless (match o_status o with OPEN | PARTIALLY_FILLED => true | _ => false end)
    raise ValueError "cannot fill an order in this status" ;;
  let requested := if is_nan_float fill_qty then PInt (o_qty o) else fill_qty in
  q ← whole_quantity requested;
  whenever o_qty o * q <? 0 raise ValueError "order qty cannot be opposite sign of fill qty" ;;
  whenever Z.abs (o_qty o) <? Z.abs q raise ValueError "cannot fill qty larger than order qty" ;;
  let qty := o_qty o - q in
  Ok (set_qty_status o qty (if int_isclose0 qty then FILLED else PARTIALLY_FILLED)).

(** ** Live order objects

    The engine shares order objects with callbacks, which may rebind any field:
    the objects are a heap of [raw_order]s.  [settle] reads the fields that the
    engine relies on; a quantity that equals an integer is that integer. *)
Definition py_int (v : pyval F) : option Z :=
  match v with
  | PInt z | PNpInt z => Some z
  | PBool b | PNpBool b => Some (if b then 1 else 0)
  | PFloat x | PNpFloat x => whole_float x
  | _ => None
  end.

(** The quantity of an order whose quantity is a whole number. *)
Definition qty_of (r : raw_order) : Z := default 0 (py_int (r_qty r)).

Definition settle (r : raw_order) : option order :=
  match r_contract r, r_timestamp r, r_time_in_force r, r_status r, py_int (r_qty r) with
  | Inst c, Inst t, Inst tif, Inst s, Some q =>
      Some (Order c t q (r_reason_code r) tif (r_properties r) s (r_kind r))
  | _, _, _, _, _ => None
  end.

Definition unsettle (o : order) : raw_order :=
  RawOrder (Inst (o_contract o)) (Inst (o_timestamp o)) (PInt (o_qty o)) (o_reason_code o)
    (Inst (o_time_in_force o)) (o_properties o) (Inst (o_status o)) (o_kind o).

Definition with_status (r : raw_order) (s : OrderStatus) : raw_order :=
  RawOrder (r_contract r) (r_timestamp r) (r_qty r) (r_reason_code r) (r_time_in_force r) (r_properties r)
           (Inst s) (r_kind r).

Definition with_properties (r : raw_order) (p : ns F) : raw_order :=
  RawOrder (r_contract r) (r_timestamp r) (r_qty r) (r_reason_code r) (r_time_in_force r) p
           (r_status r) (r_kind r).

(** [is_open], [cancel] and [fill] of a live object. *)
Definition raw_is_open (r : raw_order) : bool :=
  match r_status r with
  | Inst (OPEN | CANCEL_REQUESTED | PARTIALLY_FILLED) => true
  | _ => false
  end.

Definition raw_cancel (r : raw_order) : raw_order :=
  match r_status r with
  | Inst (FILLED | CANCELLED) => r
  | _ => with_status r CANCELLED
  end.

Definition raw_fill (r : raw_order) (fill_qty : pyval F) : result raw_order :=
  match settle r with
  | None => Err (TypeError "unsupported operand")
  | Some o => o' ← fill o fill_qty; Ok (with_status (with_qty r (PInt (o_qty o'))) (o_status o'))
  end.

(** A namespace with the attributes of [p], [_gambit_roll_id] and
    [_gambit_roll_leg]; an attribute given twice is refused. *)
Definition leg_properties (p : ns F) (roll_id leg : string) : result (ns F) :=
  whenever dict_mem p "_gambit_roll_id"%string || dict_mem p "_gambit_roll_leg"%string
    raise TypeError "got multiple values for keyword argument" ;;
  Ok (p ++ [("_gambit_roll_id"%string, PStr roll_id); ("_gambit_roll_leg"%string, PStr leg)]).

(** [RollOrder.legs]; [roll_id] is the printed identity of the roll object. *)
Definition legs (o : raw_order) (roll_id : string) : result (order * order) :=
  match r_kind o with
  | RRoll reopen close_q reopen_q =>
      '(rc, close_qty, reopen_qty) ← validated_terms o reopen close_q reopen_q;
      unless bool_decide (r_status o = Inst OPEN) raise ValueError "only an open roll command can be expanded" ;;
      close_properties ← leg_properties (r_properties o) roll_id "close";
      close ← mk_order (RawOrder (r_contract o) (r_timestamp o) (PInt close_qty) (r_reason_code o)
                          (r_time_in_force o) close_properties (Inst OPEN) RMarket);
      reopen_properties ← leg_properties (r_properties o) roll_id "reopen";
      reopen ← mk_order (RawOrder (Inst rc) (r_timestamp o) (PInt reopen_qty) (r_reason_code o)
                           (r_time_in_force o) reopen_properties (Inst OPEN) RMarket);
      Ok (close, reopen)
  | _ => Err (AttributeError "legs")
  end.

(** ** Trades *)

(** A trade object refers to a live order by its identity. *)
Record raw_trade := RawTrade {
  rt_contract : arg (contract F);
  rt_order : arg positive;
  rt_timestamp : arg (option Z);
  rt_qty : pyval F;
  rt_price : pyval F;
  rt_fee : pyval F;
  rt_commission : pyval F;
  rt_properties : ns F;
}.

(** A detached trade: [t_order] is the snapshot of its order. *)
Record trade := Trade {
  t_contract : contract F;
  t_order : raw_order;
  t_timestamp : Z;
  t_qty : Z;
  t_price : F;
  t_fee : F;
  t_commission : F;
  t_properties : ns F;
}.

(** [_validated_trade_numbers] *)
Definition validated_trade_numbers (qty price fee commission : pyval F) : result (Z * F * F * F) :=
  q ← whole_quantity qty;
  p ← finite_real price;
  f ← finite_real fee;
  c ← finite_real commission;
  Ok (q, p, f, c).

(** [_validate_trade_references] *)
Definition validate_trade_references (c : arg (contract F)) (o : arg raw_order) (timestamp : arg (option Z))
  : result (contract F * raw_order * Z) :=
  match c with
  | NotInst => Err (TypeError "trade contract must be a Contract")
  | Inst c =>
  match o with
  | NotInst => Err (TypeError "trade order must be an Order")
  | Inst o =>
      unless (match r_contract o with Inst c' => is_contract c c' | NotInst => false end)
        raise ValueError "trade contract must match its originating order" ;;
      match timestamp with
      | NotInst => Err (TypeError "trade timestamp must be a numpy datetime64 value")
      | Inst None => Err (ValueError "trade timestamp cannot be NaT")
      | Inst (Some t) =>
          match r_timestamp o with
          | NotInst | Inst None =>
              Err (ValueError "trade order timestamp must be a valid numpy datetime64 value")
          | Inst (Some ot) =>
              whenever t <? ot raise ValueError "trade timestamp cannot precede its originating order" ;;
              Ok (c, o, t)
          end
      end
  end end.

(** The object a reference denotes. *)
Definition find_order (st : gmap positive raw_order) (o : arg positive) : arg raw_order :=
  match o with
  | NotInst => NotInst
  | Inst oid => match st !! oid with Some o => Inst o | None => NotInst end
  end.

(** [Trade.__init__], and the same checks at every later boundary. *)
Definition check_trade (st : gmap positive raw_order) (t : raw_trade) : result trade :=
  '(c, o, timestamp) ← validate_trade_references (rt_contract t) (find_order st (rt_order t)) (rt_timestamp t);
  '(q, p, f, k) ← validated_trade_numbers (rt_qty t) (rt_price t) (rt_fee t) (rt_commission t);
  Ok (Trade c o timestamp q p f k (rt_properties t)).
End Orders.

Arguments raw_kind F : clear implicits.
Arguments raw_order F : clear implicits.
Arguments order F : clear implicits.
Arguments raw_trade F : clear implicits.
Arguments trade F : clear implicits.
Arguments Price F : clear implicits.

(** The live order objects, by identity. *)
Abbreviation heap F := (gmap positive (raw_order F)).

(** ** Well-formed orders *)

Section OrderFacts.
Context `{PyFloat F}.
Implicit Types o : order F.

Lemma finite_real_py_float (v : pyval F) x :
  finite_real v = Ok x -> (forall z, f_isfinite (f_of_Z z) = negb (f_isinf (f_of_Z z))) -> f_isfinite x = true.
Proof.
  unfold finite_real. intros Hv Hz. inv_ok Hv.
  destruct v as [|b|b|z|y|z|y|s|i]; simplify_eq/=; try done.
  - destruct (f_isinf (f_of_Z z)) eqn:Hi; simplify_eq. by rewrite Hz, Hi.
  - destruct (f_isinf (f_of_Z z)) eqn:Hi; simplify_eq. by rewrite Hz, Hi.
Qed.

Lemma order_post_init_Ok (r : raw_order F) k o :
  order_post_init r k = Ok o ->
  r_contract r = Inst (o_contract o) /\ r_timestamp r = Inst (o_timestamp o) /\
  r_time_in_force r = Inst (o_time_in_force o) /\ r_status r = Inst (o_status o) /\
  whole_quantity (r_qty r) = Ok (o_qty o) /\ o_properties o = r_properties r /\
  o_reason_code o = r_reason_code r /\ o_kind o = k.
Proof.
  unfold order_post_init, validate_order_references. intros Ho.
  destruct (r_contract r), (r_timestamp r), (r_time_in_force r), (r_status r); try done.
  simpl in Ho. inv_ok Ho. done.
Qed.

Lemma validated_terms_Ok (r : raw_order F) reopen cq rq rc q1 q2 :
  validated_terms r reopen cq rq = Ok (rc, q1, q2) ->
  exists c, r_contract r = Inst c /\ reopen = Inst rc /\ whole_quantity cq = Ok q1 /\
    whole_quantity rq = Ok q2 /\ c_oid rc <> c_oid c /\
    cg_oid (c_contract_group rc) = cg_oid (c_contract_group c) /\ (0 < q1 <-> q2 <= 0).
Proof.
  unfold validated_terms. intros Ht. destruct (r_contract r) as [c|], reopen as [rc'|]; try done.
  inv_ok Ht. unfold is_contract, is_group in *. bools. exists c. split_and!; try done; try congruence.
  destruct (Z.ltb_spec 0 q1), (Z.ltb_spec 0 q2); simpl in *; try done; lia.
Qed.

Lemma whole_quantity_nonzero_int z q : whole_quantity (PInt z : pyval F) = Ok q -> q = z /\ z <> 0.
Proof. rewrite whole_quantity_Ok. simpl. case_bool_decide; naive_solver. Qed.

Lemma legs_Ok (r : raw_order F) id o1 o2 :
  legs r id = Ok (o1, o2) ->
  exists reopen cq rq rc q1 q2,
    r_kind r = RRoll reopen cq rq /\ validated_terms r reopen cq rq = Ok (rc, q1, q2) /\
    r_status r = Inst OPEN /\
    r_contract r = Inst (o_contract o1) /\ o_contract o2 = rc /\ o_qty o1 = q1 /\ o_qty o2 = q2 /\
    o_kind o1 = RMarket /\ o_kind o2 = RMarket /\ o_status o1 = OPEN /\ o_status o2 = OPEN /\
    r_timestamp r = Inst (o_timestamp o1) /\ o_timestamp o2 = o_timestamp o1 /\
    r_time_in_force r = Inst (o_time_in_force o1) /\ o_time_in_force o2 = o_time_in_force o1 /\
    dict_get (o_properties o1) "_gambit_roll_id" = Some (PStr id) /\
    dict_get (o_properties o2) "_gambit_roll_id" = Some (PStr id).
Proof.
  unfold legs. intros Hl. destruct (r_kind r) as [| | |reopen cq rq| |] eqn:Hk; try done.
  inv_ok Hl. destruct a as [[rc q1] q2]. inv_ok Hl. bools.
  assert (forall p leg q, leg_properties (F:=F) p id leg = Ok q -> dict_get q "_gambit_roll_id" = Some (PStr id)) as Hprops.
  { intros p leg q Hq. unfold leg_properties in Hq. inv_ok Hq. unfold dict_mem in *. bools.
    destruct (dict_get p "_gambit_roll_id") eqn:Hp; [by exfalso; eauto|].
    clear -Hp. induction p as [|[k v] p IH]; [done|]. simpl in *. case_decide; [done|auto]. }
  apply Hprops in Hbind0, Hbind2.
  apply order_post_init_Ok in Hbind1 as (? & ? & ? & ? & Hq1 & Hp1 & _ & ?).
  apply order_post_init_Ok in Hbind3 as (? & ? & ? & ? & Hq2 & Hp2 & _ & ?). simpl in *.
  apply whole_quantity_nonzero_int in Hq1 as [? _], Hq2 as [? _].
  exists reopen, cq, rq, rc, q1, q2. rewrite Hp1, Hp2. split_and!; try done; congruence.
Qed.

Lemma legs_qty (r : raw_order F) id o1 o2 :
  legs r id = Ok (o1, o2) ->
  whole_quantity (PInt (o_qty o1) : pyval F) = Ok (o_qty o1) /\ whole_quantity (PInt (o_qty o2) : pyval F) = Ok (o_qty o2).
Proof.
  unfold legs. intros Hl. destruct (r_kind r); try done. inv_ok Hl. destruct a as [[rc q1] q2]. inv_ok Hl.
  apply order_post_init_Ok in Hbind1 as (_ & _ & _ & _ & H1 & _).
  apply order_post_init_Ok in Hbind3 as (_ & _ & _ & _ & H2 & _). simpl in *.
  by pose proof (proj1 (whole_quantity_nonzero_int _ _ H1)); pose proof (proj1 (whole_quantity_nonzero_int _ _ H2)); simplify_eq.
Qed.

(** ** The life cycle of an order *)

Lemma whole_quantity_py_int (v : pyval F) q : whole_quantity v = Ok q -> py_int v = Some q.
Proof.
  intros [Hv _]%whole_quantity_Ok. unfold whole_value in Hv. unfold py_int, whole_float.
  destruct v; try done; try (case_bool_decide; by simplify_eq);
    destruct (f_isfinite _), (f_is_integer _); simpl in *; try done; by case_match; simplify_eq.
Qed.

(** The quantity a call of [fill] asks for: all that remains for NaN. *)
Definition requested o (v : pyval F) : option Z := if is_nan_float v then Some (o_qty o) else py_int v.

(** One call of [fill], [cancel] or [request_cancel] that returned, with the
    quantities it was asked to fill; a call that raises changes nothing. *)
Inductive order_step : order F -> list Z -> order F -> Prop :=
  | step_fill o v r o' : requested o v = Some r -> fill o v = Ok o' -> order_step o [r] o'
  | step_cancel o : order_step o [] (cancel o)
  | step_request_cancel o : order_step o [] (request_cancel o).

(** A history of calls, with the fills that were asked for, in order. *)
Inductive order_run : order F -> list Z -> order F -> Prop :=
  | run_nil o : order_run o [] o
  | run_cons o fills o1 fills' o2 : order_step o fills o1 -> order_run o1 fills' o2 -> order_run o (fills ++ fills') o2.

Lemma fill_Ok o v o' :
  fill o v = Ok o' ->
  (o_status o = OPEN \/ o_status o = PARTIALLY_FILLED) /\
  exists q, whole_quantity (if is_nan_float v then PInt (o_qty o) else v) = Ok q /\
    0 <= o_qty o * q /\ Z.abs q <= Z.abs (o_qty o) /\
    o' = set_qty_status o (o_qty o - q) (if int_isclose0 (o_qty o - q) then FILLED else PARTIALLY_FILLED).
Proof.
  unfold fill. intros Hf. inv_ok Hf. bools. split.
  - destruct (o_status o); naive_solver.
  - eauto 10.
Qed.

(** The state of an order that was submitted open with quantity [q0]. *)
Definition order_inv (q0 : Z) o : Prop :=
  Z.abs (o_qty o) <= Z.abs q0 /\ 0 <= q0 * o_qty o /\
  match o_status o with
  | OPEN => o_qty o = q0
  | PARTIALLY_FILLED => o_qty o <> 0
  | FILLED => o_qty o = 0
  | _ => o_qty o <> 0
  end.

(** A fill that returns takes off what was asked for, on the side of the order and
    no more than remained. *)
Lemma fill_requested o v r o' : requested o v = Some r -> fill o v = Ok o' ->
  0 <= o_qty o * r /\ Z.abs r <= Z.abs (o_qty o) /\
  o' = set_qty_status o (o_qty o - r) (if int_isclose0 (o_qty o - r) then FILLED else PARTIALLY_FILLED).
Proof.
  unfold requested. intros Hr Hf. apply fill_Ok in Hf as (_ & q & Hq & Hsgn & Habs & ->).
  apply whole_quantity_py_int in Hq. destruct (is_nan_float v); simpl in Hq; simplify_eq; done.
Qed.

Lemma fill_returns o r :
  o_status o = OPEN \/ o_status o = PARTIALLY_FILLED -> 0 < o_qty o * r -> Z.abs r <= Z.abs (o_qty o) -> Z.abs r < 2 ^ 63 ->
  exists o', fill o (PInt r) = Ok o'.
Proof.
  intros Hst Hsgn Habs Hw. unfold fill. cbn [is_nan_float].
  assert (r <> 0) as Hr by nia. rewrite (proj2 (whole_quantity_int r)) by (split; [done|lia]).
  assert ((o_qty o * r <? 0) = false) as H1 by lia. assert ((Z.abs (o_qty o) <? Z.abs r) = false) as H2 by lia.
  destruct Hst as [-> | ->]; cbn -[Z.mul Z.abs Z.ltb Z.sub]; rewrite H1; cbn -[Z.mul Z.abs Z.ltb Z.sub]; rewrite H2; eexists; reflexivity.
Qed.

Lemma order_step_inv q0 o fills o' :
  q0 <> 0 -> order_step o fills o' -> order_inv q0 o -> order_inv q0 o' /\ Forall (fun r => 0 <= q0 * r) fills.
Proof.
  intros Hq0 Hs (H1 & H2 & H3). unfold order_inv in *.
  destruct Hs as [o v r o' Hr Hf|o|o]; [|unfold cancel|unfold request_cancel].
  - pose proof (fill_Ok _ _ _ Hf) as [Hst _]. apply (fill_requested _ _ r) in Hf as (Hsgn & Habs & ->); [|done]. simpl.
    unfold int_isclose0.
    destruct (Z.eqb_spec (o_qty o - r) 0); split_and!; rewrite ?Forall_singleton; try lia; destruct Hst as [Hst|Hst]; rewrite Hst in H3; nia.
  - destruct (o_status o) eqn:Hst; simpl; rewrite ?Hst; split_and!; try done; simpl; lia.
  - destruct (o_status o) eqn:Hst; simpl; rewrite ?Hst; split_and!; try done; simpl; lia.
Qed.

Lemma order_step_qty o fills o' : order_step o fills o' -> o_qty o' + sumZ fills = o_qty o.
Proof.
  destruct 1 as [o v r o' Hr Hf|o|o]; rewrite ?sumZ_cons, sumZ_nil.
  - apply (fill_requested _ _ r) in Hf as (_ & _ & ->); [|done]. simpl. lia.
  - unfold cancel. destruct (o_status o); simpl; lia.
  - unfold request_cancel. destruct (o_status o); simpl; lia.
Qed.

Lemma order_run_inv q0 o fills o' :
  q0 <> 0 -> order_run o fills o' -> order_inv q0 o ->
  order_inv q0 o' /\ o_qty o' + sumZ fills = o_qty o /\ Forall (fun r => 0 <= q0 * r) fills.
Proof.
  intros Hq0 Hr. induction Hr as [o|o fills o1 fills' o2 Hs Hr IH]; intros Hi; [rewrite sumZ_nil; split_and!; [done|lia|done]|].
  destruct (order_step_inv q0 o fills o1 Hq0 Hs Hi) as [Hi1 Hpos]. apply order_step_qty in Hs.
  destruct (IH Hi1) as (? & ? & ?). rewrite sumZ_app. split_and!; [done|lia|by apply Forall_app].
Qed.

Lemma order_step_terminal o fills o' :
  o_status o = FILLED \/ o_status o = CANCELLED -> order_step o fills o' -> fills = [] /\ o' = o.
Proof.
  intros Ht Hs. destruct Hs as [o v r o' Hr Hf|o|o].
  - apply fill_Ok in Hf as ([Hst|Hst] & _); destruct Ht as [Ht|Ht]; congruence.
  - unfold cancel. by destruct Ht as [-> | ->].
  - unfold request_cancel. by destruct Ht as [-> | ->].
Qed.

Lemma order_run_terminal o fills o' :
  o_status o = FILLED \/ o_status o = CANCELLED -> order_run o fills o' -> fills = [] /\ o' = o.
Proof.
  intros Ht Hr. induction Hr as [o|o fills o1 fills' o2 Hs Hr IH]; [done|].
  apply order_step_terminal in Hs as [-> ->]; [|done]. destruct (IH Ht) as [-> ->]. done.
Qed.

(** The statuses a history can end in, by what it did. *)
Lemma order_run_open o fills o' : order_run o fills o' -> o_status o' = OPEN -> o_status o = OPEN /\ fills = [].
Proof.
  induction 1 as [o|o fills o1 fills' o2 Hs Hr IH]; [done|]. intros Ho. destruct (IH Ho) as [Ho1 ->]. rewrite app_nil_r.
  destruct Hs as [o v r o1 Hq Hf|o|o].
  - apply (fill_requested _ _ r) in Hf as (_ & _ & ->); [|done]. simpl in Ho1. by destruct (int_isclose0 _).
  - unfold cancel in Ho1. by destruct (o_status o) eqn:Hst; simpl in Ho1; rewrite ?Hst in Ho1.
  - unfold request_cancel in Ho1. by destruct (o_status o) eqn:Hst; simpl in Ho1; rewrite ?Hst in Ho1.
Qed.

Lemma is_open_status o : is_open o = negb (bool_decide (o_status o = FILLED \/ o_status o = CANCELLED)).
Proof. unfold is_open. destruct (o_status o); reflexivity. Qed.
End OrderFacts.

(** ** Properties *)

(** C11: Take any sequence of fills, cancels and cancel requests that returned, on
    an order that was submitted open, with the list of the quantities its fills
    asked for (for a NaN request, what remained then).  What remains plus all that
    was asked for is the submitted quantity, and everything asked for was on the
    order's side; the order is FILLED exactly when nothing remains, OPEN only while
    nothing was filled; while it is OPEN or PARTIALLY_FILLED a fill of at most what
    remains returns; and once it is FILLED or CANCELLED no call changes it. *)
Theorem order_lifecycle `{PyFloat F} (o o' : order F) fills :
  o_status o = OPEN -> o_qty o <> 0 -> order_run o fills o' ->
  o_qty o' + sumZ fills = o_qty o /\ Forall (fun r => 0 <= o_qty o * r) fills /\ 0 <= o_qty o * o_qty o' /\
  (o_status o' = FILLED <-> o_qty o' = 0) /\ (o_status o' = OPEN -> fills = []) /\
  (o_status o' = OPEN \/ o_status o' = PARTIALLY_FILLED ->
     forall r, 0 < o_qty o' * r -> Z.abs r <= Z.abs (o_qty o') -> Z.abs r < 2 ^ 63 -> exists o'', fill o' (PInt r) = Ok o'') /\
  (is_open o' = false -> forall fills' o'', order_run o' fills' o'' -> fills' = [] /\ o'' = o').
Proof.
  intros Hst Hq Hr.
  destruct (order_run_inv (o_qty o) o fills o' Hq Hr) as ((H1 & H2 & H3) & H4 & H5).
  { unfold order_inv. rewrite Hst. split_and!; nia. }
  split_and!; [done|done|done| | | |].
  - destruct (o_status o'); try (split; [congruence|lia]); done.
  - intros Ho. by apply (order_run_open o fills o' Hr).
  - intros Hopen r. by apply fill_returns.
  - intros Hopen q' o'' Hr'. rewrite is_open_status in Hopen. bools. by eapply order_run_terminal.
Qed.

(** Concrete objects for the witnesses. *)
Definition demo_contract `{PyFloat F} (oid : positive) (symbol : string) : contract F :=
  Contract oid symbol DEFAULT_CG None (f_of_Z 50) [] [] default_InstrumentSpec.

Definition demo_raw_order `{PyFloat F} (c : contract F) (t : Z) (qty : Z) (k : raw_kind F) : raw_order F :=
  RawOrder (Inst c) (Inst (Some t)) (PInt qty) "" (Inst FOK) [] (Inst OPEN) k.

Definition demo_order `{PyFloat F} (c : contract F) (t : Z) (qty : Z) : order F :=
  Order c (Some t) qty "" FOK [] OPEN RMarket.

Definition demo_trade `{PyFloat F} (c : contract F) (t qty price : Z) : trade F :=
  Trade c (unsettle (demo_order c t qty)) t qty (f_of_Z price) (f_of_Z 1) (f_of_Z 2) [].

Lemma order_lifecycle_witness :
  let o := demo_order (F:=spec_float) (demo_contract 2 "ES") 0 10 in
  let o' := set_qty_status o 6 PARTIALLY_FILLED in
  fill o (PInt 4) = Ok o' /\ o_qty (cancel o') + 4 = 10.
Proof.
  intros o o'. split; [reflexivity|].
  refine (proj1 (order_lifecycle o (cancel o') [4] eq_refl _ _)); [discriminate|].
  change [4] with ([4] ++ ([] ++ [] : list Z)).
  eapply run_cons; [apply step_fill with (v := PInt 4); reflexivity|].
  eapply run_cons; [apply step_cancel|apply run_nil].
Defined.

(** Expanding a roll gives two open market orders that share the roll's
    timestamp, time in force and roll id: the first in the roll's contract for
    the close quantity, the second in a different contract of the same group
    for the reopen quantity, on the opposite side. *)
Theorem roll_legs `{PyFloat F} (r : raw_order F) id o1 o2 :
  legs r id = Ok (o1, o2) ->
  r_contract r = Inst (o_contract o1) /\
  c_oid (o_contract o1) <> c_oid (o_contract o2) /\
  cg_oid (c_contract_group (o_contract o2)) = cg_oid (c_contract_group (o_contract o1)) /\
  o_qty o1 * o_qty o2 < 0 /\ (exists reopen cq rq, r_kind r = RRoll reopen cq rq /\
    whole_quantity cq = Ok (o_qty o1) /\ whole_quantity rq = Ok (o_qty o2)) /\
  o_kind o1 = RMarket /\ o_kind o2 = RMarket /\ o_status o1 = OPEN /\ o_status o2 = OPEN /\
  r_timestamp r = Inst (o_timestamp o1) /\ o_timestamp o2 = o_timestamp o1 /\
  o_time_in_force o2 = o_time_in_force o1 /\
  dict_get (o_properties o1) "_gambit_roll_id" = Some (PStr id) /\
  dict_get (o_properties o2) "_gambit_roll_id" = Some (PStr id).
Proof.
  intros Hl. pose proof Hl as Hn. apply legs_Ok in Hl
    as (reopen & cq & rq & rc & q1 & q2 & Hk & Ht & Hs & Hc & <- & <- & <- & ? & ? & ? & ? & ? & ? & ? & ? & ? & ?).
  apply validated_terms_Ok in Ht as (c & Hc' & -> & Hq1 & Hq2 & Hne & Hg & Hsgn).
  rewrite Hc in Hc'. simplify_eq.
  assert (o_qty o1 <> 0 /\ o_qty o2 <> 0) as [Hn1 Hn2].
  { apply legs_qty in Hn as [Hw1 Hw2]. apply whole_quantity_nonzero_int in Hw1 as [_ ?], Hw2 as [_ ?]. done. }
  split_and!; try done; [nia|eauto 10].
Qed.

Lemma roll_legs_witness :
  let r := demo_raw_order (F:=spec_float) (demo_contract 2 "ESH4") 7 0
             (RRoll (Inst (demo_contract 3 "ESM4")) (PInt (-5)) (PFloat (f_of_Z 5))) in
  exists o1 o2, legs r "1" = Ok (o1, o2) /\ o_qty o1 * o_qty o2 < 0.
Proof.
  intros r.
  assert (exists p, legs r "1" = Ok p) as [[o1 o2] Hp] by (eexists; vm_compute; reflexivity).
  exists o1, o2. split; [exact Hp|].
  apply (roll_legs r "1" o1 o2 Hp).
Defined.
