(* ===== verification/Fifo.v ===== *)
(** * FIFO netting of executions: [compute_pnl.pyx], [pnl_calculation.py]

    [calc_trade_pnl] is modelled as the Cython code is written: [TradeVec] is a
    malloc'd buffer with a start index and a size, quantities are 64-bit longs
    that wrap, and the [while True] loop runs on fuel.  Reading or writing
    outside the buffer, and running out of fuel, are the outcome [NativeFault].
    [fifo] is the specification: a list of open lots into which each execution
    is absorbed.  The refinement theorem says that on quantities that fit a
    [long] the native kernel never faults and computes [fifo]. *)

From S2P Require Import Prelude Numeric.
From Stdlib Require Import Qcanon SpecFloat.

Open Scope Z_scope.

(** Quantities whose negation is a [long] too. *)
Definition qty_ok (z : Z) : Prop := - 2 ^ 63 < z < 2 ^ 63.

Lemma qty_ok_opp z : qty_ok z -> qty_ok (- z).
Proof. unfold qty_ok. lia. Qed.

#[export] Hint Resolve qty_ok_opp : gambit.

Section Kernel.
Context `{PyFloat F}.

(** [cdef struct Trade] *)
Record lot := Lot { lot_qty : Z; lot_price : F }.

(** [cdef struct TradeVec]: the buffer holds uninitialised cells as [None]. *)
Record TradeVec := { start_idx : nat; tv_size : nat; tv_trades : list (option lot) }.

(** [cdef long sign(long val)] *)
Definition sign (val : Z) : Z :=
  (if 0 <? val then 1 else 0) - (if val <? 0 then 1 else 0).

(** [push_back]: [None] is a write outside the buffer. *)
Definition push_back (self : TradeVec) (t : lot) : option TradeVec :=
  let size := S (tv_size self) in
  let idx := (start_idx self + size - 1)%nat in
  if bool_decide (idx < length (tv_trades self))%nat then
    Some {| start_idx := start_idx self; tv_size := size;
            tv_trades := <[idx := Some t]> (tv_trades self) |}
  else None.

Definition pop_front (self : TradeVec) : TradeVec :=
  {| start_idx := S (start_idx self); tv_size := (tv_size self - 1)%nat;
     tv_trades := tv_trades self |}.

(** [at]: [None] is a read outside the buffer or of an uninitialised cell. *)
Definition at_ (self : TradeVec) (i : nat) : option lot :=
  mjoin (tv_trades self !! (start_idx self + i)%nat).

(** A store through the pointer [at] returned. *)
Definition store_at (self : TradeVec) (i : nat) (t : lot) : TradeVec :=
  {| start_idx := start_idx self; tv_size := tv_size self;
     tv_trades := <[(start_idx self + i)%nat := Some t]> (tv_trades self) |}.

(** The loop of [create], after the [malloc]. *)
Fixpoint create_loop (rows : list (Z * F)) (size : nat) (buf : list (option lot))
  : option (nat * list (option lot)) :=
  match rows with
  | [] => Some (size, buf)
  | (q, p) :: rows =>
      if q =? 0 then create_loop rows size buf
      else if bool_decide (size < length buf)%nat
           then create_loop rows (S size) (<[size := Some (Lot q p)]> buf)
           else None
  end.

Definition create (qtys : list Z) (prices : list F) (extra_capacity : nat)
  : option TradeVec :=
  let buf := replicate (length qtys + extra_capacity) None in
  '(size, buf) ← create_loop (zip qtys prices) 0 buf;
  Some {| start_idx := 0; tv_size := size; tv_trades := buf |}.

(** [net_trade(trade, position)]: the two lots after netting, and the P&L. *)
Definition net_trade (trade position : lot) : lot * lot * F :=
  let abs_tqty := if 0 <=? lot_qty trade then lot_qty trade else wrap64 (- lot_qty trade) in
  let abs_pqty := if 0 <=? lot_qty position then lot_qty position
                  else wrap64 (- lot_qty position) in
  let txn_qty := if abs_tqty <=? abs_pqty then lot_qty trade
                 else wrap64 (- lot_qty position) in
  let realized := f_mul (f_of_Z txn_qty) (f_sub (lot_price position) (lot_price trade)) in
  (Lot (wrap64 (lot_qty trade - txn_qty)) (lot_price trade),
   Lot (wrap64 (lot_qty position + txn_qty)) (lot_price position),
   realized).

(** The [while True] loop of [calc_trade_pnl]. *)
Fixpoint net_loop (fuel : nat) (trades positions : TradeVec) (realized : F)
  : option (TradeVec * F) :=
  match fuel with
  | O => None
  | S fuel =>
      if bool_decide (tv_size trades = 0%nat) then Some (positions, realized)
      else
        trade ← at_ trades 0;
        if bool_decide (tv_size positions = 0%nat) then
          positions ← push_back positions trade;
          net_loop fuel (pop_front trades) positions realized
        else
          position ← at_ positions 0;
          if sign (lot_qty trade) =? sign (lot_qty position) then
            positions ← push_back positions trade;
            net_loop fuel (pop_front trades) positions realized
          else
            (* net_trade(deref(position), deref(trade)) *)
            let '(position, trade, pnl) := net_trade position trade in
            let positions := store_at positions 0 position in
            let trades := store_at trades 0 trade in
            let positions := if lot_qty position =? 0 then pop_front positions else positions in
            let trades := if lot_qty trade =? 0 then pop_front trades else trades in
            net_loop fuel trades positions (f_add realized pnl)
  end.

(** The copy-out loop: [at(positions, i)] for [i in range(positions.size)]. *)
Definition copy_out (positions : TradeVec) : option (list lot) :=
  mapM (at_ positions) (seq 0 (tv_size positions)).

Definition net_all (open_qtys : list Z) (open_prices : list F)
    (new_qtys : list Z) (new_prices : list F) : option (list lot * F) :=
  trades ← create new_qtys new_prices 0;
  positions ← create open_qtys open_prices (length new_qtys);
  '(positions, realized) ←
    net_loop (S (2 * tv_size trades + tv_size positions)) trades positions f_zero;
  lots ← copy_out positions;
  Some (lots, realized).

Definition calc_trade_pnl (open_qtys : list Z) (open_prices : list F)
    (new_qtys : list Z) (new_prices : list F) (multiplier : F)
  : result (list Z * list F * F) :=
  unless bool_decide (length open_qtys = length open_prices)
    raise ValueError "open quantities and prices must have the same length" ;;
  unless bool_decide (length new_qtys = length new_prices)
    raise ValueError "new quantities and prices must have the same length" ;;
  match net_all open_qtys open_prices new_qtys new_prices with
  | Some (lots, realized) =>
      Ok (lot_qty <$> lots, lot_price <$> lots, f_mul realized multiplier)
  | None => Err NativeFault
  end.

(** [pnl_calculation.calculate_trade_pnl] *)
Definition calculate_trade_pnl (open_quantities : list Z) (open_prices : list F)
    (new_quantities : list Z) (new_prices : list F) (multiplier : F)
  : result (list Z * list F * F) :=
  '(quantities, prices, realized) ←
    calc_trade_pnl open_quantities open_prices new_quantities new_prices multiplier;
  Ok (quantities, prices, realized).

(** ** Specification: absorb one execution into the queue of open lots *)

Fixpoint absorb (q : Z) (p : F) (lots : list lot) (acc : F) : list lot * F :=
  match lots with
  | [] => ([Lot q p], acc)
  | Lot oq op :: rest =>
      if Z.sgn q =? Z.sgn oq then (lots ++ [Lot q p], acc)
      else if Z.abs oq <=? Z.abs q then
        let acc := f_add acc (f_mul (f_of_Z oq) (f_sub p op)) in
        if q + oq =? 0 then (rest, acc) else absorb (q + oq) p rest acc
      else (Lot (oq + q) op :: rest, f_add acc (f_mul (f_of_Z (- q)) (f_sub p op)))
  end.

Definition fifo_step (st : list lot * F) (t : lot) : list lot * F :=
  absorb (lot_qty t) (lot_price t) st.1 st.2.

Definition fifo (lots : list lot) (acc : F) (executions : list lot) : list lot * F :=
  foldl fifo_step (lots, acc) executions.

Definition lots_of (qtys : list Z) (prices : list F) : list lot :=
  filter (fun t => lot_qty t <> 0) (zip_with Lot qtys prices).

Definition position_of (lots : list lot) : Z := sumZ (lot_qty <$> lots).

Definition lots_ok (lots : list lot) : Prop :=
  Forall (fun t => qty_ok (lot_qty t) /\ lot_qty t <> 0) lots.
End Kernel.

Arguments lot F : clear implicits.
Arguments TradeVec F : clear implicits.
Arguments push_back : simpl never.
Arguments Z.mul : simpl never.

(** The doctest-like run of [test_calc_trade_pnl]: positions 15@6, 8@5. *)
Example calc_trade_pnl_example :
  calc_trade_pnl [15; 8] (f_of_Z <$> [6; 5] : list spec_float) [-20; -5]
    (f_of_Z <$> [8; 7]) (f_of_Z 100)
  = Ok ([-2], [f_of_Z 7], f_of_Z 5100).
Proof. vm_compute. reflexivity. Qed.

(** ** The native kernel refines [fifo] *)

Section Refinement.
Context `{PyFloat F}.
Implicit Types (tv : TradeVec F) (l : list (lot F)).

(** The cells from [start_idx] on hold [l]. *)
Definition repr tv l : Prop :=
  tv_size tv = length l /\
  forall i x, l !! i = Some x -> tv_trades tv !! (start_idx tv + i)%nat = Some (Some x).

Definition capacity tv : nat := length (tv_trades tv).

Lemma sign_sgn z : sign z = Z.sgn z.
Proof. unfold sign. destruct z; done. Qed.

Lemma repr_at tv l i x : repr tv l -> l !! i = Some x -> at_ tv i = Some x.
Proof. intros [_ Hr] Hx. unfold at_. by rewrite (Hr _ _ Hx). Qed.

Lemma repr_pop tv x l : repr tv (x :: l) -> repr (pop_front tv) l.
Proof.
  intros [Hs Hr]. split; simpl in *; [lia|]. intros i y Hy.
  specialize (Hr (S i) y Hy). by rewrite Nat.add_succ_r in Hr.
Qed.

Lemma repr_store tv x y l : repr tv (x :: l) -> repr (store_at tv 0 y) (y :: l).
Proof.
  intros [Hs Hr]. split; [done|]. intros i z Hz. simpl.
  destruct i as [|i]; simplify_eq/=.
  - apply list_lookup_insert_eq. apply (lookup_lt_Some _ _ (Some x)). by apply (Hr 0%nat).
  - rewrite list_lookup_insert_ne by lia. by apply Hr.
Qed.

Lemma repr_push tv x l :
  repr tv l -> (start_idx tv + length l < capacity tv)%nat ->
  exists tv', push_back tv x = Some tv' /\ repr tv' (l ++ [x]) /\
  start_idx tv' = start_idx tv /\ capacity tv' = capacity tv.
Proof.
  intros [Hs Hr] Hc. unfold push_back, capacity in *. rewrite Hs.
  rewrite bool_decide_true by lia.
  eexists. split_and!; [done| |done|apply length_insert].
  split; simpl; [rewrite length_app; simpl; lia|].
  intros i y Hy. replace (start_idx tv + S (length l) - 1)%nat with (start_idx tv + length l)%nat by lia.
  apply lookup_app_Some in Hy as [Hy|[Hi Hy]].
  - rewrite list_lookup_insert_ne; [by apply Hr|]. apply lookup_lt_Some in Hy. lia.
  - apply list_lookup_singleton_Some in Hy as [Hi' <-].
    replace i with (length l) by lia. by apply list_lookup_insert_eq.
Qed.

Lemma create_loop_spec rows size buf l :
  length l = size -> (forall i x, l !! i = Some x -> buf !! i = Some (Some x)) ->
  (size + length rows <= length buf)%nat ->
  exists buf', let l' := l ++ lots_of rows.*1 rows.*2 in
    create_loop rows size buf = Some (length l', buf') /\
  (forall i x, l' !! i = Some x -> buf' !! i = Some (Some x)) /\ length buf' = length buf.
Proof.
  revert size buf l. induction rows as [|[q p] rows IH]; intros size buf l Hl Hb Hc; csimpl in *.
  - exists buf. rewrite app_nil_r. by subst.
  - unfold lots_of. csimpl. destruct (Z.eqb_spec q 0) as [->|Hq].
    + rewrite filter_cons_False by (simpl; lia). apply IH; [done..|lia].
    + rewrite filter_cons_True by done. rewrite bool_decide_true by lia.
      destruct (IH (S size) (<[size:=Some (Lot q p)]> buf) (l ++ [Lot q p])) as (buf' & H1 & H2 & H3).
      * rewrite length_app; simpl; lia.
      * intros i x Hx. apply lookup_app_Some in Hx as [Hx|[Hi Hx]].
        -- rewrite list_lookup_insert_ne; [by apply Hb|]. apply lookup_lt_Some in Hx. lia.
        -- apply list_lookup_singleton_Some in Hx as [Hi' <-].
           replace i with size by lia. apply list_lookup_insert_eq. lia.
      * rewrite length_insert. lia.
      * exists buf'. rewrite length_insert in H3. rewrite <- app_assoc in *. done.
Qed.

Lemma create_spec qtys prices extra :
  length qtys = length prices ->
  exists tv, create qtys prices extra = Some tv /\ repr tv (lots_of qtys prices) /\
  start_idx tv = 0%nat /\ capacity tv = (length qtys + extra)%nat.
Proof.
  intros Hlen. unfold create.
  destruct (create_loop_spec (zip qtys prices) 0 (replicate (length qtys + extra) None) [])
    as (buf & H1 & H2 & H3); [done|done| |].
  { rewrite length_zip_with, length_replicate. simpl. lia. }
  simpl in H1. rewrite fst_zip, snd_zip in * by lia. rewrite H1. simpl.
  eexists. split_and!; [done| |done|unfold capacity; simpl; by rewrite H3, length_replicate].
  split; [done|]. intros i x Hx. simpl. by apply H2.
Qed.

(** Netting two lots of opposite sign leaves one of them empty and cannot overflow. *)
Lemma net_trade_spec pq (pp : F) tq tp :
  qty_ok pq -> qty_ok tq -> Z.sgn tq <> Z.sgn pq -> pq <> 0 -> tq <> 0 ->
  net_trade (Lot pq pp) (Lot tq tp) =
    if Z.abs pq <=? Z.abs tq
    then (Lot 0 pp, Lot (tq + pq) tp, f_mul (f_of_Z pq) (f_sub tp pp))
    else (Lot (pq + tq) pp, Lot 0 tp, f_mul (f_of_Z (- tq)) (f_sub tp pp)).
Proof.
  intros Hp Ht Hs Hp0 Ht0. unfold qty_ok in *. unfold net_trade. simpl.
  assert (forall z, qty_ok z -> (if 0 <=? z then z else wrap64 (- z)) = Z.abs z) as Habs.
  { intros z Hz. unfold qty_ok in Hz. destruct (Z.leb_spec 0 z); [lia|]. rewrite wrap64_id; lia. }
  rewrite !Habs by (unfold qty_ok; lia).
  destruct (Z.leb_spec (Z.abs pq) (Z.abs tq)).
  - rewrite !wrap64_id by lia. do 3 f_equal; lia.
  - rewrite (wrap64_id (- tq)) by lia. rewrite !wrap64_id by lia. do 3 f_equal; lia.
Qed.

Lemma fifo_cons ps acc (t : lot F) ts :
  fifo ps acc (t :: ts) = fifo (absorb (lot_qty t) (lot_price t) ps acc).1
                               (absorb (lot_qty t) (lot_price t) ps acc).2 ts.
Proof. unfold fifo. simpl. f_equal. unfold fifo_step. simpl. by destruct absorb. Qed.

#[local] Opaque net_trade.

Lemma net_loop_spec fuel trades positions acc ts ps :
  repr trades ts -> repr positions ps -> lots_ok ts -> lots_ok ps ->
  (2 * length ts + length ps < fuel)%nat ->
  (start_idx positions + length ps + length ts <= capacity positions)%nat ->
  exists tv, net_loop fuel trades positions acc = Some (tv, (fifo ps acc ts).2) /\
  repr tv (fifo ps acc ts).1.
Proof.
  revert trades positions acc ts ps.
  induction fuel as [|fuel IH]; intros trades positions acc ts ps Ht Hp Hts Hps Hf Hc; [lia|].
  simpl. rewrite (proj1 Ht), (proj1 Hp).
  destruct ts as [|[q p] ts]; [rewrite bool_decide_true by done; eauto|].
  rewrite bool_decide_false by done. rewrite (repr_at trades _ 0%nat _ Ht eq_refl). simpl.
  apply Forall_cons in Hts as [[Hq Hq0] Hts].
  rewrite fifo_cons. simpl in *.
  assert (Hpush : exists tv, push_back positions (Lot q p) = Some tv /\ repr tv (ps ++ [Lot q p]) /\
  start_idx tv = start_idx positions /\ capacity tv = capacity positions)
    by (apply repr_push; [done|lia]).
  destruct Hpush as (tv & Htv & Hrepr & Hstart & Hcap).
  assert (Hgo : exists tv', net_loop fuel (pop_front trades) tv acc =
      Some (tv', (fifo (ps ++ [Lot q p]) acc ts).2) /\ repr tv' (fifo (ps ++ [Lot q p]) acc ts).1).
  { apply IH; [by eapply repr_pop|done|done| | |].
    - apply Forall_app. by rewrite Forall_singleton.
    - rewrite length_app. simpl. lia.
    - rewrite length_app, Hstart, Hcap. simpl. lia. }
  destruct ps as [|[oq op] ps].
  { rewrite bool_decide_true by done. rewrite Htv. exact Hgo. }
  rewrite bool_decide_false by done. rewrite (repr_at positions _ 0%nat _ Hp eq_refl). simpl.
  rewrite !sign_sgn. destruct (Z.eqb_spec (Z.sgn q) (Z.sgn oq)) as [Hsg|Hsg].
  { rewrite Htv. exact Hgo. }
  apply Forall_cons in Hps as [[Hoq Hoq0] Hps]. simpl in *.
  rewrite net_trade_spec by done.
  pose proof (repr_store _ _ (Lot (oq + q) op) _ Hp) as Hst1.
  pose proof (repr_pop _ _ _ (repr_store _ _ (Lot 0 op) _ Hp)) as Hst2.
  destruct (Z.leb_spec (Z.abs oq) (Z.abs q)) as [Hle|Hgt]; simpl.
  - destruct (Z.eqb_spec (q + oq) 0) as [Hz|Hz]; simpl.
    + apply IH; [eapply repr_pop, repr_store; done|done..|lia|].
      unfold capacity in *. simpl. rewrite length_insert. lia.
    + edestruct (IH (store_at trades 0 (Lot (q + oq) p)) (pop_front (store_at positions 0 (Lot 0 op)))
        (f_add acc (f_mul (f_of_Z oq) (f_sub p op))) (Lot (q + oq) p :: ts) ps) as (tv' & H1 & H2).
      * by eapply repr_store.
      * done.
      * constructor; [|done]. simpl. split; [|done]. unfold qty_ok in *. lia.
      * done.
      * simpl. lia.
      * unfold capacity in *. simpl. rewrite length_insert. lia.
      * rewrite fifo_cons in H1, H2. eauto.
  - rewrite (proj2 (Z.eqb_neq (oq + q) 0)) by lia. simpl.
    apply IH; [eapply repr_pop, repr_store; done|done|done| | |].
    + constructor; [|done]. simpl. split; [unfold qty_ok in *; lia|lia].
    + simpl. lia.
    + unfold capacity in *. simpl. rewrite length_insert. lia.
Qed.

#[local] Transparent net_trade.

Lemma copy_out_spec tv l : repr tv l -> copy_out tv = Some l.
Proof.
  intros Hr. unfold copy_out. rewrite (proj1 Hr). apply mapM_Some, Forall2_same_length_lookup.
  split; [by rewrite length_seq|]. intros i x y Hx Hy.
  apply lookup_seq in Hx as [-> _]. by eapply repr_at.
Qed.
End Refinement.

(** ** Structure of the queue *)

Section Structure.
Context `{PyFloat F}.
Implicit Types lots : list (lot F).

Definition one_sided lots : Prop :=
  (Forall (fun t => 0 < lot_qty t) lots) \/ (Forall (fun t => lot_qty t < 0) lots).

Lemma position_of_app l1 l2 : position_of (F:=F) (l1 ++ l2) = position_of l1 + position_of l2.
Proof. unfold position_of. rewrite fmap_app. apply sumZ_app. Qed.

Lemma position_of_cons t l : position_of (F:=F) (t :: l) = lot_qty t + position_of l.
Proof. done. Qed.

Lemma position_of_nil : position_of (F:=F) [] = 0.
Proof. done. Qed.

#[local] Hint Rewrite position_of_app position_of_cons position_of_nil : gambit.
#[local] Ltac pos := autorewrite with gambit in *; simpl in *; lia.

Lemma absorb_position q p lots acc :
  position_of (absorb q p lots acc).1 = position_of lots + q.
Proof.
  revert q acc. induction lots as [|[oq op] lots IH]; intros q acc; [simpl; pos|].
  cbn -[Z.sgn Z.abs]. repeat case_match; simpl; bools; rewrite ?app_comm_cons, ?IH; pos.
Qed.

Lemma fifo_position lots acc ts : position_of (fifo lots acc ts).1 = position_of lots + position_of ts.
Proof.
  revert lots acc. induction ts as [|t ts IH]; intros lots acc; [simpl; pos|].
  rewrite fifo_cons, IH, absorb_position. pos.
Qed.

Lemma absorb_ok q p lots acc :
  qty_ok q -> q <> 0 -> lots_ok lots -> lots_ok (absorb q p lots acc).1.
Proof.
  revert q acc. induction lots as [|[oq op] lots IH]; intros q acc Hq Hq0 Hl.
  { by apply Forall_singleton. }
  apply Forall_cons in Hl as [[H1 H2] Hl]. simpl in *.
  repeat case_match; bools; simplify_eq/=.
  - constructor; [done|]. apply Forall_app. by rewrite Forall_singleton.
  - done.
  - apply IH; [unfold qty_ok in *; lia|done..].
  - constructor; [|done]. simpl. unfold qty_ok in *. lia.
Qed.

Lemma fifo_ok lots acc ts : lots_ok lots -> lots_ok ts -> lots_ok (fifo lots acc ts).1.
Proof.
  revert lots acc. induction ts as [|t ts IH]; intros lots acc Hl Ht; [done|].
  apply Forall_cons in Ht as [[? ?] ?]. rewrite fifo_cons. by apply IH; [apply absorb_ok|].
Qed.

Lemma absorb_one_sided q p lots acc :
  q <> 0 -> one_sided lots -> one_sided (absorb q p lots acc).1.
Proof.
  revert q acc. induction lots as [|[oq op] lots IH]; intros q acc Hq Hl.
  { simpl. unfold one_sided. rewrite !Forall_singleton. simpl. lia. }
  assert (one_sided lots) as Hrest by (destruct Hl as [Hl|Hl]; apply Forall_cons in Hl as [_ ?]; [by left|by right]).
  simpl. repeat case_match; bools; simplify_eq/=; [|done|by apply IH|].
  - destruct Hl as [Hl|Hl]; [left|right]; apply Forall_cons in Hl as [Hl1 Hl2]; simpl in *;
      (constructor; [done|]); apply Forall_app; rewrite Forall_singleton; split; try done; simpl; lia.
  - destruct Hl as [Hl|Hl]; [left|right]; apply Forall_cons in Hl as [Hl1 Hl2]; simpl in *;
      (constructor; [simpl; lia|done]).
Qed.

Lemma fifo_one_sided lots acc ts :
  Forall (fun t => lot_qty t <> 0) ts -> one_sided lots -> one_sided (fifo lots acc ts).1.
Proof.
  revert lots acc. induction ts as [|t ts IH]; intros lots acc Ht Hl; [done|].
  apply Forall_cons in Ht as [? ?]. rewrite fifo_cons. by apply IH; [|apply absorb_one_sided].
Qed.

(** A one-sided queue is empty exactly when the position is flat. *)
Lemma one_sided_flat lots : one_sided lots -> position_of lots = 0 -> lots = [].
Proof.
  destruct lots as [|t lots]; [done|]. intros [Hl|Hl] Hp; exfalso;
    apply Forall_cons in Hl as [Ht Hl]; rewrite position_of_cons in Hp.
  - enough (0 <= position_of lots) by lia. clear Hp. induction Hl; pos.
  - enough (position_of lots <= 0) by lia. clear Hp. induction Hl; pos.
Qed.

Lemma fifo_app lots acc ts1 ts2 :
  fifo lots acc (ts1 ++ ts2) = fifo (fifo lots acc ts1).1 (fifo lots acc ts1).2 ts2.
Proof. unfold fifo. rewrite foldl_app. f_equal. by destruct (foldl _ _ ts1). Qed.

Lemma lots_of_ok qtys prices :
  length qtys = length prices -> Forall qty_ok qtys -> lots_ok (F:=F) (lots_of qtys prices).
Proof.
  unfold lots_of, lots_ok. intros Hlen Hq. revert prices Hlen.
  induction Hq as [|q qtys Hq Hqs IH]; intros [|p prices] Hlen; simplify_eq/=; [constructor..|].
  destruct (decide (q = 0)) as [->|].
  - rewrite filter_cons_False by (simpl; lia). auto.
  - rewrite filter_cons_True by done. constructor; auto.
Qed.

Lemma lots_of_position qtys (prices : list F) :
  length qtys = length prices -> position_of (lots_of qtys prices) = sumZ qtys.
Proof.
  unfold lots_of. revert prices.
  induction qtys as [|q qtys IH]; intros [|p prices] Hlen; simplify_eq/=; [done|].
  destruct (decide (q = 0)) as [->|].
  - rewrite filter_cons_False by (simpl; lia). rewrite sumZ_cons, IH; [lia|done].
  - rewrite filter_cons_True by done. rewrite position_of_cons, sumZ_cons, IH; [done|done].
Qed.

(** Reading a queue of non-empty lots back as two columns loses nothing. *)
Lemma lots_of_columns lots :
  Forall (fun t => lot_qty t <> 0) lots -> lots_of (lot_qty <$> lots) (lot_price <$> lots) = lots.
Proof.
  unfold lots_of. induction 1 as [|[q p] lots Hq Hl IH]; [done|].
  csimpl. rewrite filter_cons_True by done. by rewrite IH.
Qed.

Lemma lots_of_sides (P : Z -> Prop) qtys (prices : list F) :
  length qtys = length prices -> Forall (fun q => q <> 0) qtys ->
  Forall (fun t => P (lot_qty t)) (lots_of qtys prices) -> Forall P qtys.
Proof.
  intros Hlen Hnz. revert prices Hlen. unfold lots_of.
  induction Hnz as [|q qtys Hq Hnz IH]; intros [|p prices] Hlen Hall; simplify_eq/=; [constructor|].
  rewrite filter_cons_True in Hall by done. apply Forall_cons in Hall as [? Hall].
  constructor; [done|by apply (IH prices)].
Qed.

Lemma lots_ok_nonzero lots : lots_ok lots -> Forall (fun t => lot_qty t <> 0) lots.
Proof. intros Hl. eapply Forall_impl; [exact Hl|]. naive_solver. Qed.

Lemma lots_ok_columns lots : lots_ok lots -> Forall qty_ok (lot_qty <$> lots).
Proof. intros Hl. apply Forall_fmap. eapply Forall_impl; [exact Hl|]. naive_solver. Qed.

Lemma net_all_fifo oq op nq (np : list F) :
  length oq = length op -> length nq = length np -> Forall qty_ok oq -> Forall qty_ok nq ->
  net_all oq op nq np = Some (fifo (lots_of oq op) f_zero (lots_of nq np)).
Proof.
  intros Hlo Hln Ho Hn. unfold net_all.
  destruct (create_spec nq np 0 Hln) as (tt & Ht & Hrt & _ & _). rewrite Ht. cbn [mbind option_bind].
  destruct (create_spec oq op (length nq) Hlo) as (tp & Hp & Hrp & Hs & Hc). rewrite Hp. cbn [mbind option_bind].
  assert (forall (xs : list Z) (ys : list F), length (lots_of xs ys) <= length xs)%nat as Hlen.
  { intros xs ys. unfold lots_of. etrans; [apply length_filter|]. rewrite length_zip_with. lia. }
  pose proof (Hlen oq op). pose proof (Hlen nq np).
  destruct (net_loop_spec (S (2 * tv_size tt + tv_size tp)) tt tp f_zero _ _ Hrt Hrp)
    as (tv & Hl & Hr).
  - by apply lots_of_ok.
  - by apply lots_of_ok.
  - rewrite (proj1 Hrt), (proj1 Hrp). lia.
  - rewrite Hs, Hc. lia.
  - rewrite Hl. cbn [mbind option_bind]. rewrite (copy_out_spec _ _ Hr). simpl. by destruct fifo.
Qed.

Lemma calc_trade_pnl_fifo oq op nq (np : list F) m :
  length oq = length op -> length nq = length np -> Forall qty_ok oq -> Forall qty_ok nq ->
  calc_trade_pnl oq op nq np m =
    let '(lots, realized) := fifo (lots_of oq op) f_zero (lots_of nq np) in
    Ok (lot_qty <$> lots, lot_price <$> lots, f_mul realized m).
Proof.
  intros Hlo Hln Ho Hn. unfold calc_trade_pnl. rewrite !bool_decide_true by done. simpl.
  rewrite net_all_fifo by done. by destruct fifo.
Qed.

Lemma calc_trade_pnl_lengths oq (op : list F) nq np m r :
  calc_trade_pnl oq op nq np m = Ok r -> length oq = length op /\ length nq = length np.
Proof. unfold calc_trade_pnl. intros Hc. inv_ok Hc. by bools. Qed.
End Structure.

(** ** Value conservation in exact arithmetic *)

Section Value.
Implicit Types lots : list (lot XQ).

Definition priced lots : Prop := Forall (fun t => is_Some (lot_price t)) lots.

Definition px (p : XQ) : Qc := default 0%Qc p.

(** Value of open lots marked at [m], per unit of the contract multiplier. *)
Definition mtm (m : Qc) lots : Qc :=
  sumQ ((fun t => zq (lot_qty t) * (m - px (lot_price t)))%Qc <$> lots).

Lemma mtm_app m l1 l2 : mtm m (l1 ++ l2) = (mtm m l1 + mtm m l2)%Qc.
Proof. unfold mtm. rewrite fmap_app. apply sumQ_app. Qed.

Lemma mtm_cons m t l : mtm m (t :: l) = (zq (lot_qty t) * (m - px (lot_price t)) + mtm m l)%Qc.
Proof. done. Qed.

Lemma absorb_exact m q p lots a :
  priced lots ->
  exists a', (absorb q (Some p) lots (Some a)).2 = Some a' /\
    priced (absorb q (Some p) lots (Some a)).1 /\
    (a' + mtm m (absorb q (Some p) lots (Some a)).1 = a + mtm m lots + zq q * (m - p))%Qc.
Proof.
  revert q a. induction lots as [|[oq op] lots IH]; intros q a Hl.
  { exists a. split_and!; [done|repeat constructor; eauto|]. unfold mtm; simpl. ring. }
  pose proof Hl as [[op' Hop] Hl']%Forall_cons. simpl in Hop. subst op. simpl.
  destruct (Z.sgn q =? Z.sgn oq) eqn:E1; simpl.
  { exists a. split_and!; [done| |].
    - constructor; [eauto|]. apply Forall_app. rewrite Forall_singleton. eauto.
    - rewrite mtm_cons, mtm_app, !mtm_cons. unfold mtm at 2. simpl. ring. }
  destruct (Z.abs oq <=? Z.abs q) eqn:E2; simpl.
  - destruct (Z.eqb_spec (q + oq) 0) as [Hz|Hz]; simpl.
    + eexists. split_and!; [done|done|].
      rewrite mtm_cons. simpl. replace q with (- oq) by lia. qc_ring.
    + destruct (IH (q + oq) (a + zq oq * (p - op'))%Qc Hl') as (a' & H1 & H2 & H3).
      exists a'. split_and!; [done..|]. etrans; [apply H3|]. rewrite mtm_cons. simpl. qc_ring.
  - eexists. split_and!; [done|by constructor; eauto|].
    rewrite !mtm_cons. simpl. qc_ring.
Qed.

Lemma fifo_exact m lots a ts :
  priced lots -> priced ts ->
  exists a', (fifo lots (Some a) ts).2 = Some a' /\ priced (fifo lots (Some a) ts).1 /\
    (a' + mtm m (fifo lots (Some a) ts).1 = a + mtm m lots + mtm m ts)%Qc.
Proof.
  revert lots a. induction ts as [|[q p] ts IH]; intros lots a Hl Ht.
  { exists a. split_and!; [done..|]. unfold mtm at 3. simpl. ring. }
  apply Forall_cons in Ht as [[p' Hp] Ht]. simpl in Hp. subst p.
  rewrite fifo_cons. simpl.
  destruct (absorb_exact m q p' lots a Hl) as (a1 & H1 & H2 & H3). rewrite H1.
  destruct (IH _ a1 H2 Ht) as (a' & H4 & H5 & H6).
  exists a'. split_and!; [done..|]. etrans; [apply H6|]. rewrite H3, mtm_cons. simpl. ring.
Qed.

(** The running P&L is an accumulator: starting it elsewhere shifts the result. *)
Lemma fifo_acc lots a ts :
  priced lots -> priced ts ->
  exists r, (fifo lots f_zero ts).2 = Some r /\ (fifo lots (Some a) ts).2 = Some (a + r)%Qc /\
    (fifo lots (Some a) ts).1 = (fifo lots f_zero ts).1.
Proof.
  intros Hl Ht.
  assert (forall q p lots acc acc', (absorb q p lots acc).1 = (absorb (F:=XQ) q p lots acc').1) as Hq.
  { intros q p l. revert q. induction l as [|[oq op] l IH]; intros q acc acc'; [done|].
    simpl. repeat case_match; simpl; auto. }
  assert (forall ts lots acc acc', (fifo lots acc ts).1 = (fifo (F:=XQ) lots acc' ts).1) as Hf.
  { induction ts0 as [|t ts0 IH]; intros; [done|]. rewrite !fifo_cons.
    rewrite (Hq _ _ _ acc acc'). apply IH. }
  destruct (fifo_exact 0%Qc lots (zq 0) ts Hl Ht) as (r & H1 & _ & H2).
  destruct (fifo_exact 0%Qc lots a ts Hl Ht) as (r' & H3 & _ & H4).
  exists r. split_and!; [exact H1| |apply Hf]. rewrite H3. f_equal.
  rewrite (Hf ts lots (Some a) (Some (zq 0))) in H4.
  assert (r' = r' + mtm 0 (fifo lots (Some (zq 0)) ts).1 - mtm 0 (fifo lots (Some (zq 0)) ts).1)%Qc
    as -> by ring.
  assert (r = r + mtm 0 (fifo lots (Some (zq 0)) ts).1 - mtm 0 (fifo lots (Some (zq 0)) ts).1)%Qc
    as -> by ring.
  rewrite H2, H4, zq_0. ring.
Qed.

(** The same value over the columns the kernel takes and returns. *)
Definition marked (m : Qc) (qtys : list Z) (prices : list Qc) : Qc :=
  sumQ (zip_with (fun q p => zq q * (m - p))%Qc qtys prices).

Lemma priced_lots_of qtys (prices : list Qc) : priced (lots_of qtys (Some <$> prices)).
Proof.
  unfold priced, lots_of. apply Forall_forall. intros t [_ Ht]%list_elem_of_filter.
  revert prices Ht. induction qtys as [|q qtys IH]; intros [|p prices] Ht; csimpl in *; try by inversion Ht.
  apply elem_of_cons in Ht as [->|Ht]; [by eexists|]. by eapply IH.
Qed.

Lemma priced_columns lots :
  priced lots -> lot_price <$> lots = Some <$> ((fun t => px (lot_price t)) <$> lots).
Proof.
  induction 1 as [|[q p] lots [p' Hp] Hl IH]; [done|]. simpl in Hp. subst p. csimpl. by rewrite IH.
Qed.

Lemma mtm_columns m lots :
  mtm m lots = marked m (lot_qty <$> lots) ((fun t => px (lot_price t)) <$> lots).
Proof.
  unfold marked. induction lots as [|t lots IH]; [done|]. rewrite mtm_cons, IH. done.
Qed.

Lemma mtm_lots_of m qtys (prices : list Qc) :
  length qtys = length prices -> mtm m (lots_of qtys (Some <$> prices)) = marked m qtys prices.
Proof.
  unfold marked, lots_of. revert prices.
  induction qtys as [|q qtys IH]; intros [|p prices] Hlen; simplify_eq/=; [done|].
  destruct (decide (q = 0)) as [->|].
  - rewrite filter_cons_False by (simpl; lia). rewrite IH by done. qc_ring.
  - rewrite filter_cons_True by done. rewrite mtm_cons, IH by done. done.
Qed.
End Value.

(** ** The kernel's results, for its callers *)

Lemma calculate_quantity `{PyFloat F} oq (op : list F) nq np m :
  length oq = length op -> length nq = length np -> Forall qty_ok oq -> Forall qty_ok nq ->
  one_sided (lots_of oq op) ->
  exists lots prices pnl,
    calculate_trade_pnl oq op nq np m = Ok (lots, prices, pnl) /\
    sumZ lots = sumZ oq + sumZ nq /\ length lots = length prices /\
    Forall qty_ok lots /\ Forall (fun q => q <> 0) lots /\ one_sided (lots_of lots prices).
Proof.
  intros Hlo Hln Ho Hn Hs. unfold calculate_trade_pnl. rewrite calc_trade_pnl_fifo by done.
  pose proof (lots_of_ok oq op Hlo Ho) as Hok1. pose proof (lots_of_ok nq np Hln Hn) as Hok2.
  pose proof (fifo_position (lots_of oq op) f_zero (lots_of nq np)) as Hpos.
  pose proof (fifo_one_sided (lots_of oq op) f_zero (lots_of nq np) (lots_ok_nonzero _ Hok2) Hs) as Hside.
  pose proof (fifo_ok (lots_of oq op) f_zero (lots_of nq np) Hok1 Hok2) as Hok.
  destruct (fifo (lots_of oq op) f_zero (lots_of nq np)) as [ls r]. simpl in *.
  rewrite !lots_of_position in Hpos by done.
  eexists _, _, _. split_and!; [done|exact Hpos|by rewrite !length_fmap|by apply lots_ok_columns| |].
  - apply Forall_fmap. exact (lots_ok_nonzero _ Hok).
  - rewrite lots_of_columns; [done|by apply lots_ok_nonzero].
Qed.

Lemma calculate_value oq (op : list Qc) nq (np : list Qc) mult :
  length oq = length op -> length nq = length np -> Forall qty_ok oq -> Forall qty_ok nq ->
  exists lots (prices : list Qc) pnl,
    calculate_trade_pnl (F:=XQ) oq (Some <$> op) nq (Some <$> np) (Some mult)
      = Ok (lots, Some <$> prices, Some (pnl * mult)%Qc) /\
    forall m, (pnl + marked m lots prices = marked m oq op + marked m nq np)%Qc.
Proof.
  intros Hlo Hln Ho Hn. unfold calculate_trade_pnl.
  rewrite calc_trade_pnl_fifo by (rewrite ?length_fmap; done).
  pose proof (fun m => fifo_exact m (lots_of oq (Some <$> op)) (zq 0) (lots_of nq (Some <$> np))
    (priced_lots_of _ _) (priced_lots_of _ _)) as Hex.
  unfold f_zero. change (f_of_Z 0 : XQ) with (Some (zq 0)).
  destruct (fifo _ _ _) as [ls r]. simpl in Hex.
  destruct (Hex 0%Qc) as (a & -> & H2 & _). simpl.
  exists (lot_qty <$> ls), ((fun t => px (lot_price t)) <$> ls), a.
  rewrite (priced_columns ls H2). split; [done|]. intros m.
  destruct (Hex m) as (a' & [= <-] & _ & H3).
  rewrite <- (mtm_columns m ls), <- (mtm_lots_of m oq op), <- (mtm_lots_of m nq np) by done.
  rewrite H3, zq_0. ring.
Qed.

(** ** Properties *)

(** C2: On quantities whose negation fits a C [long], the native FIFO kernel
    never reads or writes outside its buffers, its [while True] loop ends, and
    it returns exactly the lots and the realized P&L of the reference [fifo]. *)
Theorem calc_trade_pnl_refines_fifo `{PyFloat F} oq (op : list F) nq np m :
  length oq = length op -> length nq = length np -> Forall qty_ok oq -> Forall qty_ok nq ->
  calculate_trade_pnl oq op nq np m =
    let '(lots, realized) := fifo (lots_of oq op) f_zero (lots_of nq np) in
    Ok (lot_qty <$> lots, lot_price <$> lots, f_mul realized m).
Proof.
  intros. unfold calculate_trade_pnl. rewrite calc_trade_pnl_fifo by done. by destruct fifo.
Qed.

Lemma calc_trade_pnl_refines_fifo_witness :
  calculate_trade_pnl [15; 8] (f_of_Z <$> [6; 5] : list spec_float) [-20; 0; -5]
    (f_of_Z <$> [8; 1; 7]) (f_of_Z 100) = Ok ([-2], [f_of_Z 7], f_of_Z 5100).
Proof.
  rewrite calc_trade_pnl_refines_fifo; [vm_compute; reflexivity|reflexivity|reflexivity|..];
    repeat constructor.
Defined.

(** Netting conserves quantity and keeps the open queue one-sided: when the
    open lots all have one sign, so have the lots that remain, none of them is
    empty, and they add up to the old position plus the executed quantity. *)
Theorem calc_trade_pnl_conserves_quantity `{PyFloat F} oq (op : list F) nq np m lots prices pnl :
  Forall qty_ok oq -> Forall qty_ok nq ->
  one_sided (lots_of oq op) ->
  calculate_trade_pnl oq op nq np m = Ok (lots, prices, pnl) ->
  sumZ lots = sumZ oq + sumZ nq /\ length lots = length prices /\
  (Forall (fun q => 0 < q) lots \/ Forall (fun q => q < 0) lots).
Proof.
  intros Ho Hn Hs Hc. pose proof Hc as Hl. unfold calculate_trade_pnl in Hl.
  apply bind_Ok_inv in Hl as (r & Hl & _). apply calc_trade_pnl_lengths in Hl as [Hlo Hln].
  destruct (calculate_quantity oq op nq np m Hlo Hln Ho Hn Hs) as (l & p & r' & Hc' & ? & ? & _ & Hnz & Hside).
  rewrite Hc in Hc'. simplify_eq. split_and!; [done|done|].
  destruct Hside as [Hside|Hside]; [left|right]; by eapply lots_of_sides.
Qed.

Lemma calc_trade_pnl_conserves_quantity_witness :
  sumZ [-2] = sumZ [15; 8] + sumZ [-20; -5] /\ length [-2] = length [f_of_Z 7 : spec_float] /\
  (Forall (fun q => 0 < q) [-2] \/ Forall (fun q => q < 0) [-2]).
Proof.
  apply (calc_trade_pnl_conserves_quantity [15; 8] (f_of_Z <$> [6; 5]) [-20; -5] (f_of_Z <$> [8; 7])
    (f_of_Z 100) _ _ (f_of_Z 5100)); [repeat constructor|repeat constructor| |vm_compute; reflexivity].
  left. repeat constructor.
Defined.

(** C32: Value conservation in exact arithmetic: for every mark [m], the P&L the
    kernel realizes plus the marked value of the lots it leaves open equals the
    marked value of the old lots plus that of the executions, all times the
    contract multiplier: netting moves value between realized and unrealized
    P&L and creates none. *)
Theorem calc_trade_pnl_conserves_value oq (op : list Qc) nq (np : list Qc) mult m :
  length oq = length op -> length nq = length np -> Forall qty_ok oq -> Forall qty_ok nq ->
  exists lots (prices : list Qc) pnl,
    calculate_trade_pnl (F:=XQ) oq (Some <$> op) nq (Some <$> np) (Some mult)
      = Ok (lots, Some <$> prices, Some pnl) /\
    (pnl + mult * marked m lots prices = mult * (marked m oq op + marked m nq np))%Qc.
Proof.
  intros Hlo Hln Ho Hn.
  destruct (calculate_value oq op nq np mult Hlo Hln Ho Hn) as (lots & prices & pnl & H1 & H2).
  exists lots, prices, (pnl * mult)%Qc. split; [exact H1|]. rewrite <- (H2 m). ring.
Qed.

Lemma calc_trade_pnl_conserves_value_witness :
  exists lots (prices : list Qc) pnl,
    calculate_trade_pnl (F:=XQ) [15; 8] (Some <$> [zq 6; zq 5]) [-20; -5] (Some <$> [zq 8; zq 7]) (Some (zq 100))
      = Ok (lots, Some <$> prices, Some pnl) /\
    (pnl + zq 100 * marked (zq 7) lots prices
      = zq 100 * (marked (zq 7) [15; 8] [zq 6; zq 5] + marked (zq 7) [-20; -5] [zq 8; zq 7]))%Qc.
Proof.
  apply calc_trade_pnl_conserves_value; [reflexivity|reflexivity|repeat constructor..].
Defined.
