(* ===== verification/ContractPnl.v ===== *)
(** * The ledger of one contract: [contract_pnl.py]

    [ContractPNL] is the class's mutable state.  Its methods run in [ST] over
    that state and the outside world [W]: the price callback is an arbitrary
    function that may read and change the world, return any object, or raise. *)

From S2P Require Import Prelude Numeric Vendor Boundaries Instruments Contracts Orders Fifo.
From Stdlib Require Import Qcanon SpecFloat Field.

Open Scope Z_scope.

(** [find_index_before], and the entry found by [peekitem] (the code never
    peeks at index -1). *)
Section FindIndex.
Context `{SortedDict D} {V : Type}.

Definition find_index_before (d : D V) (key : Z) : result Z :=
  let size := Z.of_nat (sd_len d) in
  if size =? 0 then Ok (-1)
  else
    let i := Z.of_nat (sd_bisect_left d key) in
    if i =? size then Ok (size - 1)
    else match sd_keys d !! Z.to_nat i with
         | Some k => Ok (if k =? key then i else i - 1)
         | None => Err (IndexError "list index out of range")
         end.

Definition peek_before (d : D V) (key : Z) : result (option (Z * V)) :=
  index ← find_index_before d key;
  if index =? -1 then Ok None
  else kv ← sd_peekitem d index; Ok (Some kv).

(** [for k in list(d.keys()): if k >= first: del d[k]] *)
Definition drop_from (d : D V) (first : Z) : D V :=
  foldl (fun d k => if first <=? k then sd_del d k else d) d (sd_keys d).
End FindIndex.

Section ContractPNL.
Context `{PyFloat F} `{!Numpy F} `{SortedDict D} {W : Type}.

(** A [_trade_pnl] value: position, realized, fee, commission, open quantity and
    its weighted average price. *)
Record trade_entry := TradeEntry {
  te_position : Z; te_realized : F; te_fee : F; te_commission : F; te_open_qty : Z; te_avg_price : F }.

(** A [_net_pnl] value. *)
Record net_entry := NetEntry { ne_price : F; ne_open_qty : Z; ne_unrealized : F; ne_net_pnl : F }.

Record ContractPNL := {
  cp_contract : contract F;
  cp_timestamps : list Z;
  cp_trade_pnl : D trade_entry;
  cp_net_pnl : D net_entry;
  cp_open_qtys : list Z;
  cp_open_prices : list F;
  cp_first_trade_timestamp : option Z;
  cp_final_pnl : F;
  cp_new_trades_added : bool;
}.

(** The price callback: world, contract, index into the account's timestamps. *)
Definition price_fn : Type := W -> contract F -> list Z -> nat -> W * result (pyval F).

(** [__init__], the grid being validated. *)
Definition ContractPNL_new (c : contract F) (timestamps : list Z) : ContractPNL := {|
  cp_contract := c; cp_timestamps := timestamps; cp_trade_pnl := sd_empty; cp_net_pnl := sd_empty;
  cp_open_qtys := []; cp_open_prices := []; cp_first_trade_timestamp := None;
  cp_final_pnl := f_nan; cp_new_trades_added := false |}.

Definition ContractPNL_init (c : contract F) (timestamps : ndarray) : result ContractPNL :=
  ts ← validate_timestamp_grid timestamps; Ok (ContractPNL_new c ts).

(** [ContractPNLState], [_snapshot_state] and [_restore_state] *)
Record ContractPNLState := {
  cs_trade_pnl : D trade_entry;
  cs_net_pnl : D net_entry;
  cs_open_qtys : list Z;
  cs_open_prices : list F;
  cs_first_trade_timestamp : option Z;
  cs_final_pnl : F;
  cs_new_trades_added : bool;
}.

Definition snapshot_state (p : ContractPNL) : ContractPNLState := {|
  cs_trade_pnl := cp_trade_pnl p; cs_net_pnl := cp_net_pnl p; cs_open_qtys := cp_open_qtys p;
  cs_open_prices := cp_open_prices p; cs_first_trade_timestamp := cp_first_trade_timestamp p;
  cs_final_pnl := cp_final_pnl p; cs_new_trades_added := cp_new_trades_added p |}.

Definition restore_state (p : ContractPNL) (s : ContractPNLState) : ContractPNL := {|
  cp_contract := cp_contract p; cp_timestamps := cp_timestamps p;
  cp_trade_pnl := cs_trade_pnl s; cp_net_pnl := cs_net_pnl s; cp_open_qtys := cs_open_qtys s;
  cp_open_prices := cs_open_prices s; cp_first_trade_timestamp := cs_first_trade_timestamp s;
  cp_final_pnl := cs_final_pnl s; cp_new_trades_added := cs_new_trades_added s |}.

Definition with_net (p : ContractPNL) (net : D net_entry) (final : F) (added : bool) : ContractPNL := {|
  cp_contract := cp_contract p; cp_timestamps := cp_timestamps p; cp_trade_pnl := cp_trade_pnl p;
  cp_net_pnl := net; cp_open_qtys := cp_open_qtys p; cp_open_prices := cp_open_prices p;
  cp_first_trade_timestamp := cp_first_trade_timestamp p; cp_final_pnl := final;
  cp_new_trades_added := added |}.

Definition after_expiry (c : contract F) (timestamp : Z) : bool :=
  match c_expiry c with Some e => e <? timestamp | None => false end.

(** [_validate_trade_chronology] *)
Definition validate_trade_chronology (p : ContractPNL) (trades : list (trade F)) : result unit :=
  if bool_decide (trades = []) then Ok tt
  else
    let timestamps := np_unique (t_timestamp <$> trades) in
    if bool_decide (sd_len (cp_trade_pnl p) = 0%nat) then Ok tt
    else
      '(prev_max_timestamp, _) ← sd_peekitem (cp_trade_pnl p) (-1);
      match timestamps with
      | [] => Err (IndexError "index 0 is out of bounds")
      | t :: _ =>
          whenever t <? prev_max_timestamp
            raise ValueError "trades can only be added with non-decreasing timestamps" ;;
          Ok tt
      end.

(** The unrealized P&L of [calc_net_pnl] at a price (NaN: carry the last one). *)
Definition unrealized_at (p : ContractPNL) (timestamp : Z) (open_qty : Z) (avg price : F) : result F :=
  if f_isnan price then
    prev ← peek_before (cp_net_pnl p) timestamp;
    Ok (match prev with None => f_zero | Some (_, e) => ne_unrealized e end)
  else Ok (f_mul (f_mul (f_of_Z open_qty) (f_sub price avg)) (c_multiplier (cp_contract p))).

(** The entry in force at a timestamp; zeros before the first trade. *)
Definition zero_entry : trade_entry := TradeEntry 0 f_zero f_zero f_zero 0 f_zero.

Definition entry_before (p : ContractPNL) (timestamp : Z) : result trade_entry :=
  found ← peek_before (cp_trade_pnl p) timestamp;
  Ok (match found with None => zero_entry | Some (_, e) => e end).

Definition record_net (p : ContractPNL) (timestamp : Z) (e : trade_entry) (price unrealized : F) : ContractPNL :=
  let net_pnl := f_sub (f_sub (f_add (te_realized e) unrealized) (te_commission e)) (te_fee e) in
  with_net p (sd_set (cp_net_pnl p) timestamp (NetEntry price (te_open_qty e) unrealized net_pnl))
    (if after_expiry (cp_contract p) timestamp then net_pnl else cp_final_pnl p) false.

Definition calc_net_pnl (price_function : price_fn) (timestamp : Z) : ST (W * ContractPNL) unit := fun '(w, p) =>
  if sd_mem (cp_net_pnl p) timestamp && negb (cp_new_trades_added p) then ((w, p), Ok tt)
  else match cp_first_trade_timestamp p with
  | None => ((w, p), Ok tt)
  | Some first =>
  if timestamp <? first then ((w, p), Ok tt)
  else if after_expiry (cp_contract p) timestamp && negb (f_isnan (cp_final_pnl p)) then ((w, p), Ok tt)
  else match timestamp_index (F:=F) (cp_timestamps p) timestamp with
  | Err e => ((w, p), Err e)
  | Ok i =>
  match entry_before p timestamp with
  | Err e => ((w, p), Err e)
  | Ok e =>
  if int_isclose0 (te_open_qty e) then ((w, record_net p timestamp e f_nan f_zero), Ok tt)
  else
    let '(w, value) := price_function w (cp_contract p) (cp_timestamps p) i in
    match (price ← (value ≫= fun v => validate_price_value v true);
           unrealized ← unrealized_at p timestamp (te_open_qty e) (te_avg_price e) price;
           Ok (price, unrealized)) with
    | Err x => ((w, p), Err x)
    | Ok (price, unrealized) => ((w, record_net p timestamp e price unrealized), Ok tt)
    end
  end end end.

(** [np.array([...], dtype=int)] *)
Definition np_int_array (l : list Z) : result (list Z) :=
  unless forallb (fun z => (- 2 ^ 63 <=? z) && (z <? 2 ^ 63)) l
    raise OverflowError "Python integer out of bounds for int64" ;;
  Ok l.

Definition weighted_avg_price (qtys : list Z) (prices : list F) (open_qty : Z) : F :=
  if open_qty =? 0 then f_zero
  else f_div (np_sum (zip_with (fun q p => f_mul (f_of_Z q) p) qtys prices)) (f_of_Z open_qty).

(** The loop body of [_add_trades] before the valuation: the trades of one instant. *)
Definition book_trades (trades : list (trade F)) (timestamp : Z) (p : ContractPNL) : result ContractPNL :=
  let t_trades := filter (fun t => t_timestamp t = timestamp) trades in
  new_qtys ← np_int_array (t_qty <$> t_trades);
  '(open_qtys, open_prices, realized_chg) ←
    calculate_trade_pnl (cp_open_qtys p) (cp_open_prices p) new_qtys (t_price <$> t_trades)
      (c_multiplier (cp_contract p));
  let open_qty := wrap64 (sumZ open_qtys) in
  let avg := weighted_avg_price open_qtys open_prices open_qty in
  let position_chg := sumZ (t_qty <$> t_trades) in
  let commission_chg := f_sum (t_commission <$> t_trades) in
  let fee_chg := f_sum (t_fee <$> t_trades) in
  prev ← peek_before (cp_trade_pnl p) timestamp;
  let e := match prev with
           | None => TradeEntry position_chg realized_chg fee_chg commission_chg open_qty avg
           | Some (_, e) =>
               TradeEntry (te_position e + position_chg) (f_add (te_realized e) realized_chg)
                 (f_add (te_fee e) fee_chg) (f_add (te_commission e) commission_chg) open_qty avg
           end in
  Ok {| cp_contract := cp_contract p; cp_timestamps := cp_timestamps p;
        cp_trade_pnl := sd_set (cp_trade_pnl p) timestamp e; cp_net_pnl := cp_net_pnl p;
        cp_open_qtys := open_qtys; cp_open_prices := open_prices;
        cp_first_trade_timestamp := cp_first_trade_timestamp p; cp_final_pnl := cp_final_pnl p;
        cp_new_trades_added := cp_new_trades_added p |}.

Definition add_trades_at (price_function : price_fn) (trades : list (trade F)) (timestamp : Z)
  : ST (W * ContractPNL) unit := fun '(w, p) =>
  match book_trades trades timestamp p with
  | Err e => ((w, p), Err e)
  | Ok p => calc_net_pnl price_function timestamp (w, p)
  end.

(** The state of [_add_trades] when its loop starts. *)
Definition begin_trades (p : ContractPNL) (first : Z) : ContractPNL := {|
  cp_contract := cp_contract p; cp_timestamps := cp_timestamps p; cp_trade_pnl := cp_trade_pnl p;
  cp_net_pnl := drop_from (cp_net_pnl p) first; cp_open_qtys := cp_open_qtys p;
  cp_open_prices := cp_open_prices p;
  cp_first_trade_timestamp := match cp_first_trade_timestamp p with None => Some first | Some t => Some t end;
  cp_final_pnl := cp_final_pnl p; cp_new_trades_added := true |}.

(** [_add_trades] *)
Definition add_trades (price_function : price_fn) (trades : list (trade F)) : ST (W * ContractPNL) unit :=
  fun '(w, p) =>
  if bool_decide (trades = []) then ((w, p), Ok tt)
  else match validate_trade_chronology p trades with
  | Err e => ((w, p), Err e)
  | Ok _ =>
      match np_unique (t_timestamp <$> trades) with
      | [] => ((w, p), Err (IndexError "index 0 is out of bounds"))
      | (first :: _) as timestamps =>
          st_iter (add_trades_at price_function trades) timestamps (w, begin_trades p first)
      end
  end.

Definition position (p : ContractPNL) (timestamp : Z) : result Z :=
  found ← peek_before (cp_trade_pnl p) timestamp;
  Ok (match found with None => 0 | Some (_, e) => te_position e end).

Definition net_pnl (p : ContractPNL) (timestamp : Z) : result F :=
  if after_expiry (cp_contract p) timestamp && negb (f_isnan (cp_final_pnl p)) then Ok (cp_final_pnl p)
  else
    found ← peek_before (cp_net_pnl p) timestamp;
    Ok (match found with None => f_zero | Some (_, e) => ne_net_pnl e end).

(** [pnl]: position, price, realized, unrealized, fee, commission, net P&L *)
Definition pnl (p : ContractPNL) (timestamp : Z) : result (Z * F * F * F * F * F * F) :=
  e ← entry_before p timestamp;
  found ← peek_before (cp_net_pnl p) timestamp;
  let n := match found with None => NetEntry f_zero 0 f_zero f_zero | Some (_, n) => n end in
  Ok (te_position e, ne_price n, te_realized e, ne_unrealized n, te_fee e, te_commission e, ne_net_pnl n).
End ContractPNL.

Arguments ContractPNL F D : clear implicits.
Arguments ContractPNLState F D : clear implicits.
Arguments price_fn F W : clear implicits.
Arguments trade_entry F : clear implicits.
Arguments net_entry F : clear implicits.

(** ** Searching a [SortedDict] *)

Lemma count_split (l : list Z) t :
  StronglySorted Z.lt l ->
  count_le l t = (count_lt l t + if decide (l !! count_lt l t = Some t) then 1 else 0)%nat.
Proof.
  unfold count_le, count_lt. induction 1 as [|x l Hs IH Hx]; [done|].
  destruct (Z.lt_trichotomy x t) as [Hlt|[->|Hgt]].
  - rewrite !filter_cons_True by lia. simpl. rewrite IH. done.
  - rewrite filter_cons_True, filter_cons_False by lia. simpl.
    assert (Forall (fun y => ~ y <= t) l /\ Forall (fun y => ~ y < t) l) as [H1 H2]
      by (split; eapply Forall_impl; try exact Hx; simpl; lia).
    rewrite !filter_none by done. simpl. by rewrite decide_True.
  - rewrite !filter_cons_False by lia.
    assert (Forall (fun y => ~ y <= t) l /\ Forall (fun y => ~ y < t) l) as [H1 H2]
      by (split; eapply Forall_impl; try exact Hx; simpl; lia).
    rewrite !filter_none by done. simpl. rewrite decide_False; [done|]. intros ?; simplify_eq. lia.
Qed.

Section Search.
Context `{SortedDictLaws D} {V : Type}.
Implicit Types d : D V.

Lemma filter_keys_length {A} (P : Z -> Prop) `{!forall x, Decision (P x)} (l : list (Z * A)) :
  length (filter P l.*1) = length (filter (fun kv => P kv.1) l).
Proof.
  induction l as [|[k v] l IH]; [done|]. csimpl. rewrite !filter_cons. simpl. case_decide; csimpl; by rewrite IH.
Qed.

Lemma last_le_count (l : list (Z * V)) t :
  StronglySorted Z.lt l.*1 ->
  last_le l t = match count_le l.*1 t with O => None | S n => l !! n end.
Proof.
  intros Hs. unfold count_le. rewrite (filter_keys_length (fun y => y <= t)).
  pose proof (filter_le_split l t Hs) as Hl. unfold last_le.
  set (l1 := filter (fun kv => kv.1 <= t) l) in *.
  destruct (length l1) as [|n] eqn:Hlen; [by apply nil_length_inv in Hlen as ->|].
  rewrite Hl, last_lookup, Hlen. simpl. rewrite lookup_app_l by lia. done.
Qed.

Lemma find_index_before_spec d t :
  find_index_before d t = Ok (Z.of_nat (count_le (sd_keys d) t) - 1).
Proof.
  unfold find_index_before, sd_len. pose proof (sd_items_sorted d) as Hs.
  rewrite sd_bisect_left_count. fold (sd_keys d) in *. rewrite count_split by done.
  destruct (Z.eqb_spec (Z.of_nat (length (sd_items d))) 0) as [Hz|Hz].
  - unfold sd_keys. assert (sd_items d = []) as -> by (apply nil_length_inv; lia). done.
  - assert (length (sd_keys d) = length (sd_items d)) as Hk by apply length_fmap.
    pose proof (length_filter (fun y => y < t) (sd_keys d)) as Hle. fold (count_lt (sd_keys d) t) in Hle.
    destruct (Z.eqb_spec (Z.of_nat (count_lt (sd_keys d) t)) (Z.of_nat (length (sd_items d)))) as [He|He].
    + rewrite decide_False; [f_equal; lia|].
      rewrite lookup_ge_None_2 by lia. done.
    + rewrite Nat2Z.id. destruct (lookup_lt_is_Some_2 (sd_keys d) (count_lt (sd_keys d) t)) as [k Hk']; [lia|].
      rewrite Hk'. destruct (Z.eqb_spec k t) as [->|Hne].
      * rewrite decide_True by done. f_equal. lia.
      * rewrite decide_False by congruence. f_equal. lia.
Qed.

Lemma peek_before_spec d t : peek_before d t = Ok (last_le (sd_items d) t).
Proof.
  unfold peek_before. rewrite find_index_before_spec. simpl.
  rewrite last_le_count by apply sd_items_sorted. fold (sd_keys d).
  destruct (count_le (sd_keys d) t) as [|n] eqn:Hc; [done|].
  destruct (Z.eqb_spec (Z.of_nat (S n) - 1) (-1)); [lia|].
  destruct (lookup_lt_is_Some_2 (sd_items d) n) as [kv Hkv].
  { unfold count_le in Hc. pose proof (length_filter (fun y => y <= t) (sd_keys d)) as Hle.
    rewrite Hc in Hle. unfold sd_keys in Hle. rewrite length_fmap in Hle. lia. }
  replace (Z.of_nat (S n) - 1) with (Z.of_nat n) by lia.
  rewrite (sd_peekitem_nonneg d n kv Hkv). simpl. by rewrite Hkv.
Qed.

Lemma sd_peekitem_last_inv d kv :
  sd_len d <> 0%nat -> last (sd_items d) = Some kv -> sd_peekitem d (-1) = Ok kv.
Proof. intros _. apply sd_peekitem_last. Qed.

Lemma drop_from_items d first :
  sd_items (drop_from d first) = filter (fun kv => kv.1 < first) (sd_items d).
Proof.
  unfold drop_from.
  assert (forall ks d', NoDup ks -> (forall k, k ∈ ks -> k ∈ (sd_items d').*1) ->
    sd_items (foldl (fun d k => if first <=? k then sd_del d k else d) d' ks)
    = filter (fun kv => ~ (first <= kv.1 /\ kv.1 ∈ ks)) (sd_items d')) as Hgen.
  { induction ks as [|k ks IH]; intros d' Hnd Hin; simpl.
    - rewrite filter_all; [done|]. apply Forall_forall. set_solver.
    - apply NoDup_cons in Hnd as [Hk Hnd]. destruct (Z.leb_spec first k) as [Hle|Hlt].
      + rewrite IH; [|done|].
        * rewrite sd_items_del by (apply Hin; left). rewrite list_filter_filter.
          apply list_filter_iff. intros kv. destruct (decide (kv.1 = k)); set_solver.
        * intros k' Hk'. rewrite sd_items_del by (apply Hin; left).
          assert (k' ∈ (sd_items d').*1) as [[? ?] [-> ?]]%list_elem_of_fmap by set_solver.
          apply list_elem_of_fmap. eexists. split; [done|]. apply list_elem_of_filter. simpl in *. set_solver.
      + rewrite IH; [|done|set_solver]. apply list_filter_iff. intros kv.
        assert (kv.1 = k -> ~ first <= kv.1) by lia. set_solver. }
  rewrite Hgen; [|apply sorted_NoDup, sd_items_sorted|done].
  apply filter_ext_in. intros kv Hkv. apply (list_elem_of_fmap_2 fst) in Hkv. split; [|lia].
  intros Hn. destruct (Z.lt_ge_cases kv.1 first); [done|]. exfalso. by apply Hn.
Qed.
End Search.

(** ** What the ledger says of the trades it was given *)

Section Ledger.
Context `{PyFloat F} `{!Numpy F} `{!NumpyLaws F} `{SortedDictLaws D} {W : Type}.
Implicit Types (p : ContractPNL F D) (hist : list (trade F)).

Definition upto hist (t : Z) : list (trade F) := filter (fun x => t_timestamp x <= t) hist.
Definition quantity hist : Z := sumZ (t_qty <$> hist).
Definition volume hist : Z := sumZ (Z.abs ∘ t_qty <$> hist).

Lemma quantity_app h1 h2 : quantity (h1 ++ h2) = quantity h1 + quantity h2.
Proof. unfold quantity. by rewrite fmap_app, sumZ_app. Qed.

Lemma volume_app h1 h2 : volume (h1 ++ h2) = volume h1 + volume h2.
Proof. unfold volume. by rewrite fmap_app, sumZ_app. Qed.

Lemma quantity_volume h : Z.abs (quantity h) <= volume h.
Proof.
  unfold quantity, volume. induction h as [|x h IH]; csimpl; [done|]. rewrite !sumZ_cons. simpl in *. lia.
Qed.

Lemma volume_nonneg h : 0 <= volume h.
Proof. pose proof (quantity_volume h). lia. Qed.

Lemma volume_qty_ok h : volume h < 2 ^ 63 -> Forall qty_ok (t_qty <$> h).
Proof.
  unfold volume. induction h as [|x h IH]; csimpl; intros Hv; constructor; rewrite sumZ_cons in Hv;
    pose proof (volume_nonneg h) as Hn; unfold volume in Hn; simpl in *; [unfold qty_ok; lia|apply IH; lia].
Qed.

Lemma upto_app h1 h2 t : upto (h1 ++ h2) t = upto h1 t ++ upto h2 t.
Proof. apply filter_app. Qed.

Lemma upto_all h t : Forall (fun x => t_timestamp x <= t) h -> upto h t = h.
Proof. apply filter_all. Qed.

Lemma upto_none h t : Forall (fun x => t < t_timestamp x) h -> upto h t = [].
Proof. intros Hh. apply filter_none. eapply Forall_impl; [exact Hh|]. simpl. lia. Qed.

(** The trade entries record every booked trade, in chronological order. *)
Record ledger p hist : Prop := Ledger {
  lg_key k : k ∈ sd_keys (cp_trade_pnl p) <-> k ∈ t_timestamp <$> hist;
  lg_entry k e : (k, e) ∈ sd_items (cp_trade_pnl p) ->
    te_position e = quantity (upto hist k) /\ te_open_qty e = quantity (upto hist k);
  lg_open : sumZ (cp_open_qtys p) = quantity hist;
  lg_lots : length (cp_open_qtys p) = length (cp_open_prices p) /\ Forall qty_ok (cp_open_qtys p) /\
    Forall (fun q => q <> 0) (cp_open_qtys p) /\ one_sided (lots_of (cp_open_qtys p) (cp_open_prices p));
}.

Lemma ledger_new c ts : ledger (ContractPNL_new c ts) [].
Proof.
  split; simpl.
  - unfold sd_keys. rewrite sd_items_empty. done.
  - intros k e. rewrite sd_items_empty. set_solver.
  - done.
  - split_and!; try constructor. constructor.
Qed.

Lemma ledger_key p hist x : ledger p hist -> x ∈ hist -> t_timestamp x ∈ sd_keys (cp_trade_pnl p).
Proof. intros Hl Hx. apply (lg_key _ _ Hl). by apply (list_elem_of_fmap_2 t_timestamp). Qed.

(** Trades up to [t] are those up to the entry found at [t]. *)
Lemma upto_last_le p hist t :
  ledger p hist ->
  upto hist t = match last_le (sd_items (cp_trade_pnl p)) t with
                | Some (k, _) => upto hist k
                | None => []
                end.
Proof.
  intros Hl. destruct (last_le _ t) as [[k e]|] eqn:Hk.
  - pose proof (last_le_Some _ _ _ Hk) as [Hin Hle]. simpl in *.
    apply filter_ext_in. intros x Hx. split; [|lia]. intros Hxt.
    apply (ledger_key _ _ _ Hl) in Hx. unfold sd_keys in Hx.
    apply list_elem_of_fmap in Hx as [[k' e'] [Heq Hx]]. simpl in Heq.
    pose proof (last_le_max _ _ _ _ (sd_items_sorted _) Hk Hx) as Hm. simpl in Hm. lia.
  - apply last_le_None in Hk. apply filter_none, Forall_forall. intros x Hx.
    apply (ledger_key _ _ _ Hl) in Hx. unfold sd_keys in Hx.
    apply list_elem_of_fmap in Hx as [[k' e'] [Heq Hx]]. simpl in Heq.
    rewrite Forall_forall in Hk. apply Hk in Hx. simpl in Hx. lia.
Qed.

Lemma ledger_position p hist t : ledger p hist -> position p t = Ok (quantity (upto hist t)).
Proof.
  intros Hl. unfold position. rewrite peek_before_spec. simpl. rewrite (upto_last_le p hist t Hl).
  destruct (last_le _ t) as [[k e]|] eqn:Hk; [|done].
  apply last_le_Some in Hk as [Hin _]. by apply (lg_entry _ _ Hl) in Hin as [-> _].
Qed.

(** The chronology check: the trades are no earlier than any booked one. *)
Lemma chronology_hist p trades hist :
  ledger p hist -> validate_trade_chronology p trades = Ok tt ->
  forall x y, x ∈ hist -> y ∈ trades -> t_timestamp x <= t_timestamp y.
Proof.
  intros Hl Hv x y Hx Hy. unfold validate_trade_chronology in Hv.
  rewrite bool_decide_false in Hv by (intros ->; by apply elem_of_nil in Hy).
  apply (ledger_key _ _ _ Hl) in Hx. unfold sd_keys in Hx.
  destruct (last (sd_items (cp_trade_pnl p))) as [[k e]|] eqn:Hlast; cycle 1.
  { apply last_None in Hlast. rewrite Hlast in Hx. by apply elem_of_nil in Hx. }
  rewrite bool_decide_false in Hv.
  2: { unfold sd_len. intros Hn%nil_length_inv. rewrite Hn in Hlast. done. }
  rewrite (sd_peekitem_last _ _ Hlast) in Hv. simpl in Hv.
  pose proof (np_unique_sorted (t_timestamp <$> trades)) as Hs.
  assert (t_timestamp y ∈ np_unique (t_timestamp <$> trades)) as Hy'
    by (apply np_unique_elem; set_solver).
  destruct (np_unique (t_timestamp <$> trades)) as [|t ts]; [done|]. inv_ok Hv. bools.
  assert (t <= t_timestamp y).
  { apply StronglySorted_inv in Hs as [_ Hall]. rewrite Forall_forall in Hall.
    apply elem_of_cons in Hy' as [->|Hy']; [lia|]. apply Hall in Hy'. lia. }
  enough (t_timestamp x <= k) by lia.
  apply list_elem_of_fmap in Hx as [[k' e'] [-> Hx]]. simpl.
  pose proof (sd_items_sorted (cp_trade_pnl p)) as Hsort.
  apply last_Some in Hlast as [l' Hl']. rewrite Hl' in *. rewrite fmap_app in Hsort. simpl in Hsort.
  apply elem_of_app in Hx as [Hx|Hx]; [|set_solver].
  apply StronglySorted_app_1_elem_of with (x1 := k') (x2 := k) in Hsort; [lia| |set_solver].
  apply list_elem_of_fmap. by exists (k', e').
Qed.

(** Booking the trades of one instant. *)
Lemma book_trades_spec p hist trades ts :
  let g := filter (fun t => t_timestamp t = ts) trades in
  ledger p hist -> ts ∈ t_timestamp <$> trades -> volume (hist ++ g) < 2 ^ 63 ->
  (forall x, x ∈ hist -> t_timestamp x <= ts) ->
  exists p', book_trades trades ts p = Ok p' /\ ledger p' (hist ++ g).
Proof.
  intros g Hl Hts Hv Hle. unfold book_trades. fold g.
  assert (Forall qty_ok (t_qty <$> g)) as Hg.
  { apply volume_qty_ok. rewrite volume_app in Hv. pose proof (volume_nonneg hist). lia. }
  assert (np_int_array (t_qty <$> g) = Ok (t_qty <$> g)) as ->.
  { unfold np_int_array. replace (forallb _ _) with true; [done|]. symmetry. apply forallb_forall.
    intros z Hz%list_elem_of_In. rewrite Forall_forall in Hg. apply Hg in Hz. unfold qty_ok in Hz.
    rewrite andb_true_iff, Z.leb_le, Z.ltb_lt. lia. }
  simpl. destruct (lg_lots _ _ Hl) as (Hlen & Hok & Hnz & Hside).
  destruct (calculate_quantity (cp_open_qtys p) (cp_open_prices p) (t_qty <$> g) (t_price <$> g)
    (c_multiplier (cp_contract p)) Hlen) as (lots & prices & r & Hc & Hsum & Hlen' & Hok' & Hnz' & Hside');
    [by rewrite !length_fmap|done..|].
  rewrite Hc. simpl. rewrite peek_before_spec. simpl.
  assert (quantity (hist ++ g) = sumZ lots) as Hq.
  { rewrite Hsum, (lg_open _ _ Hl), quantity_app. done. }
  rewrite wrap64_id by (rewrite <- Hq; pose proof (quantity_volume (hist ++ g)); lia).
  eexists. split; [done|].
  assert (Forall (fun x => t_timestamp x = ts) g) as Hgts.
  { apply Forall_forall. intros x [? _]%list_elem_of_filter. done. }
  assert (upto (hist ++ g) ts = hist ++ g) as Hall.
  { apply upto_all, Forall_app. split; apply Forall_forall; [done|].
    intros x Hx. rewrite Forall_forall in Hgts. apply Hgts in Hx. lia. }
  split; simpl; [| |by symmetry|done].
  - intros k. unfold sd_keys. rewrite sd_items_set, items_set_keys, fmap_app, elem_of_app.
    fold (sd_keys (cp_trade_pnl p)). rewrite (lg_key _ _ Hl).
    assert (k ∈ t_timestamp <$> g <-> k = ts) as ->; [|tauto].
    rewrite list_elem_of_fmap. rewrite Forall_forall in Hgts. split; [naive_solver|].
    intros ->. apply list_elem_of_fmap in Hts as (x & -> & Hx). exists x.
    split; [done|]. by apply list_elem_of_filter.
  - intros k e Hin. rewrite sd_items_set in Hin.
    apply items_set_elem_ne in Hin as [Heq|[Hin Hne]]; [|simpl in Hne|apply sd_items_sorted].
    + simplify_eq. rewrite Hall, Hq.
      pose proof (upto_last_le p hist ts Hl) as Hup.
      rewrite (upto_all hist ts) in Hup by (apply Forall_forall; done).
      destruct (last_le _ ts) as [[k0 e0]|] eqn:Hk; simpl; split; try done.
      * apply last_le_Some in Hk as [Hin _]. apply (lg_entry _ _ Hl) in Hin as [-> _].
        rewrite <- Hup, <- Hq, quantity_app. done.
      * rewrite <- Hq, Hup. done.
    + pose proof Hin as Hin0. apply (lg_entry _ _ Hl) in Hin as [-> ->].
      rewrite upto_app. destruct (Z.lt_ge_cases k ts).
      * rewrite (upto_none g k), app_nil_r; [done|]. eapply Forall_impl; [exact Hgts|]. simpl. lia.
      * exfalso. assert (k ∈ t_timestamp <$> hist) as Hk.
        { apply (lg_key _ _ Hl). by apply (list_elem_of_fmap_2 fst) in Hin0. }
        apply list_elem_of_fmap in Hk as (x & -> & Hx). apply Hle in Hx. lia.
Qed.

(** The part of the state that [calc_net_pnl] never touches. *)
Definition same_trades p p' : Prop :=
  cp_contract p' = cp_contract p /\ cp_timestamps p' = cp_timestamps p /\
  cp_trade_pnl p' = cp_trade_pnl p /\ cp_open_qtys p' = cp_open_qtys p /\
  cp_open_prices p' = cp_open_prices p /\ cp_first_trade_timestamp p' = cp_first_trade_timestamp p.

Lemma calc_net_pnl_same (pf : price_fn F W) ts w p w' p' res :
  calc_net_pnl pf ts (w, p) = ((w', p'), res) -> same_trades p p'.
Proof.
  assert (same_trades p p) as Hrefl by done.
  unfold calc_net_pnl. intros Heq.
  repeat match type of Heq with
  | context [match ?x with _ => _ end] =>
      lazymatch x with
      | pf _ _ _ _ => destruct x as [w1 v]
      | _ => destruct x
      end
  end; simplify_eq; done.
Qed.

Lemma ledger_same p p' hist : same_trades p p' -> ledger p hist -> ledger p' hist.
Proof.
  intros (_ & _ & H1' & H2 & H3 & _) []. split; unfold sd_keys in *; rewrite ?H1', ?H2, ?H3; done.
Qed.

(** The trades in the order the loop books them. *)
Definition by_instant (trades : list (trade F)) (instants : list Z) : list (trade F) :=
  instants ≫= fun ts => filter (fun t => t_timestamp t = ts) trades.

Definition booking_order (trades : list (trade F)) : list (trade F) :=
  by_instant trades (np_unique (t_timestamp <$> trades)).

Lemma by_instant_perm trades instants :
  NoDup instants -> by_instant trades instants ≡ₚ filter (fun t => t_timestamp t ∈ instants) trades.
Proof.
  induction instants as [|ts l IH]; intros Hnd.
  - simpl. rewrite filter_none; [done|]. apply Forall_forall. set_solver.
  - apply NoDup_cons in Hnd as [Hts Hnd]. unfold by_instant in *. simpl. rewrite IH by done. clear IH.
    induction trades as [|t trades IH]; [done|]. rewrite !filter_cons.
    destruct (decide (t_timestamp t = ts)) as [->|Hne].
    + rewrite decide_False, decide_True by set_solver. simpl. by rewrite IH.
    + destruct (decide (t_timestamp t ∈ l)).
      * rewrite decide_True by set_solver. rewrite <- IH. symmetry. apply Permutation_middle.
      * by rewrite decide_False by set_solver.
Qed.

Lemma booking_order_perm trades : booking_order trades ≡ₚ trades.
Proof.
  unfold booking_order. rewrite by_instant_perm by apply sorted_NoDup, np_unique_sorted.
  rewrite filter_all; [done|]. apply Forall_forall. intros t Ht. apply np_unique_elem.
  by apply (list_elem_of_fmap_2 t_timestamp).
Qed.

Lemma quantity_perm h1 h2 : h1 ≡ₚ h2 -> quantity h1 = quantity h2.
Proof. intros Hp. unfold quantity. by rewrite Hp. Qed.

Lemma volume_perm h1 h2 : h1 ≡ₚ h2 -> volume h1 = volume h2.
Proof. intros Hp. unfold volume. by rewrite Hp. Qed.

Lemma by_instant_cons trades ts l :
  by_instant trades (ts :: l) = filter (fun t => t_timestamp t = ts) trades ++ by_instant trades l.
Proof. done. Qed.

#[export] Instance same_trades_refl : Reflexive same_trades.
Proof. done. Qed.

Lemma ledger_begin p hist first : ledger p hist -> ledger (begin_trades p first) hist.
Proof. intros []. by split. Qed.

(** Every invariant of the ledger that booking extends and valuation respects
    holds after a batch that [_add_trades] accepts. *)
Section Batches.
Context (I : ContractPNL F D -> list (trade F) -> Prop) (pf : price_fn F W) (trades : list (trade F)).
Context (I_ledger : forall p hist, I p hist -> ledger p hist).
Context (I_same : forall p p' hist, same_trades p p' -> I p hist -> I p' hist).
Context (I_begin : forall p hist first, I p hist -> I (begin_trades p first) hist).
Context (I_book : forall p hist ts,
  let g := filter (fun t => t_timestamp t = ts) trades in
  I p hist -> ts ∈ t_timestamp <$> trades -> volume (hist ++ g) < 2 ^ 63 ->
  (forall x, x ∈ hist -> t_timestamp x <= ts) ->
  exists p', book_trades trades ts p = Ok p' /\ I p' (hist ++ g)).

Lemma add_trades_loop instants hist w p w' p' :
  I p hist -> StronglySorted Z.lt instants ->
  (forall ts, ts ∈ instants -> ts ∈ t_timestamp <$> trades) ->
  (forall x ts, x ∈ hist -> ts ∈ instants -> t_timestamp x <= ts) ->
  volume (hist ++ by_instant trades instants) < 2 ^ 63 ->
  st_iter (add_trades_at pf trades) instants (w, p) = ((w', p'), Ok tt) ->
  I p' (hist ++ by_instant trades instants).
Proof.
  revert hist w p. induction instants as [|ts l IH]; intros hist w p Hl Hs Hin Hle Hv Hit.
  - simpl in Hit. unfold mret, ST_ret in Hit. simplify_eq. by rewrite app_nil_r.
  - simpl in Hit. rewrite by_instant_cons, app_assoc in Hv.
    destruct (I_book p hist ts Hl) as (p1 & Hb & Hl1).
    { apply Hin; left. }
    { rewrite volume_app in Hv. pose proof (volume_nonneg (by_instant trades l)). lia. }
    { intros x Hx. apply Hle; [done|left]. }
    unfold mbind, ST_bind, add_trades_at in Hit. rewrite Hb in Hit.
    destruct (calc_net_pnl pf ts (w, p1)) as [[w2 p2] [[]|e]] eqn:Hc; [|done].
    apply calc_net_pnl_same in Hc. apply StronglySorted_inv in Hs as [Hs Hall].
    rewrite by_instant_cons, app_assoc.
    apply (IH _ w2 p2); [by eapply I_same|done|set_solver| |done|exact Hit].
    intros x ts' Hx Hts'. rewrite Forall_forall in Hall. pose proof (Hall _ Hts').
    apply elem_of_app in Hx as [Hx|[Hx _]%list_elem_of_filter]; [|lia].
    pose proof (Hle x ts Hx ltac:(left)). lia.
Qed.

Lemma add_trades_inv hist w p w' p' :
  I p hist -> volume (hist ++ trades) < 2 ^ 63 ->
  add_trades pf trades (w, p) = ((w', p'), Ok tt) -> I p' (hist ++ booking_order trades).
Proof.
  intros Hl Hv Ha. unfold add_trades in Ha. pose proof (booking_order_perm trades) as Hperm.
  case_bool_decide as Hnil.
  { assert (p' = p) as -> by congruence. rewrite Hnil in Hperm. apply Permutation_nil_r in Hperm.
    rewrite Hnil in *. by rewrite Hperm, app_nil_r. }
  destruct (validate_trade_chronology p trades) as [[]|e] eqn:Hchr; [|done].
  pose proof (chronology_hist p trades hist (I_ledger _ _ Hl) Hchr) as Hle.
  pose proof (np_unique_sorted (t_timestamp <$> trades)) as Hs.
  pose proof (np_unique_elem (t_timestamp <$> trades)) as Hel.
  unfold booking_order in *.
  destruct (np_unique (t_timestamp <$> trades)) as [|first ts] eqn:Hu; [done|].
  eapply add_trades_loop; [by apply I_begin|done|intros ? ?; by apply Hel| | |exact Ha].
  - intros x t Hx Ht%Hel. apply list_elem_of_fmap in Ht as (y & -> & Hy). by apply Hle.
  - rewrite volume_app, (volume_perm _ _ Hperm), <- volume_app. done.
Qed.
End Batches.

Lemma add_trades_ledger (pf : price_fn F W) trades hist w p w' p' :
  ledger p hist -> volume (hist ++ trades) < 2 ^ 63 ->
  add_trades pf trades (w, p) = ((w', p'), Ok tt) ->
  ledger p' (hist ++ booking_order trades).
Proof.
  apply add_trades_inv; [done|apply ledger_same|apply ledger_begin|].
  intros p0 h ts. apply book_trades_spec.
Qed.

(** The contract and the grid never change. *)
Definition same_contract (s s' : W * ContractPNL F D) : Prop :=
  cp_contract s'.2 = cp_contract s.2 /\ cp_timestamps s'.2 = cp_timestamps s.2.

#[export] Instance same_contract_preorder : PreOrder same_contract.
Proof. split; [done|]. intros s1 s2 s3 [? ?] [? ?]. split; congruence. Qed.

Lemma book_trades_same trades ts p p' :
  book_trades trades ts p = Ok p' -> cp_contract p' = cp_contract p /\ cp_timestamps p' = cp_timestamps p.
Proof.
  unfold book_trades. intros Hb. apply bind_Ok_inv in Hb as (? & _ & Hb).
  apply bind_Ok_inv in Hb as ([[? ?] ?] & _ & Hb). apply bind_Ok_inv in Hb as (? & _ & Hb). by simplify_eq.
Qed.

Lemma add_trades_same (pf : price_fn F W) trades s s' res :
  add_trades pf trades s = (s', res) -> same_contract s s'.
Proof.
  destruct s as [w p]. unfold add_trades. case_bool_decide; [by intros; simplify_eq|].
  destruct (validate_trade_chronology p trades); [|by intros; simplify_eq].
  destruct (np_unique _) as [|first ts]; [by intros; simplify_eq|]. intros Hit.
  trans (w, begin_trades p first); [done|].
  eapply (st_iter_rel same_contract); [|exact Hit]. intros t [w1 p1] [w2 p2] r _ Hst. unfold add_trades_at in Hst.
  destruct (book_trades trades t p1) as [p3|e] eqn:Hb; [|by simplify_eq].
  apply book_trades_same in Hb as [? ?]. apply calc_net_pnl_same in Hst as (? & ? & _).
  split; simpl in *; congruence.
Qed.

(** ** Histories *)

(** The states a ledger reaches: any price callback, any batches the ledger
    accepts, any valuations (which may fail). *)
Inductive booked : ContractPNL F D -> list (trade F) -> Prop :=
  | booked_new c ts : booked (ContractPNL_new c ts) []
  | booked_add (pf : price_fn F W) p hist trades w w' p' :
      booked p hist -> volume (hist ++ trades) < 2 ^ 63 ->
      add_trades pf trades (w, p) = ((w', p'), Ok tt) -> booked p' (hist ++ booking_order trades)
  | booked_calc (pf : price_fn F W) p hist t w w' p' res :
      booked p hist -> calc_net_pnl pf t (w, p) = ((w', p'), res) -> booked p' hist.

Lemma booked_ledger p hist : booked p hist -> ledger p hist.
Proof.
  induction 1 as [c ts|pf p hist trades w w' p' _ IH Hv Ha|pf p hist t w w' p' res _ IH Hc].
  - apply ledger_new.
  - by eapply add_trades_ledger.
  - apply calc_net_pnl_same in Hc. by eapply ledger_same.
Qed.
End Ledger.

(** ** The value of the ledger, in exact arithmetic *)

Section LedgerValue.
Context `{!Numpy XQ} `{!NumpyLaws XQ} `{!NumpyExact} `{SortedDictLaws D} {W : Type}.
Implicit Types (p : ContractPNL XQ D) (hist : list (trade XQ)).

Definition exact_trade (t : trade XQ) : Prop :=
  is_Some (t_price t) /\ is_Some (t_fee t) /\ is_Some (t_commission t).

(** Marked value, fees and commissions of executions, per unit of multiplier. *)
Definition mtm_trades (m : Qc) hist : Qc :=
  sumQ ((fun t => zq (t_qty t) * (m - px (t_price t)))%Qc <$> hist).
Definition fees hist : Qc := sumQ (px ∘ t_fee <$> hist).
Definition commissions hist : Qc := sumQ (px ∘ t_commission <$> hist).

Lemma mtm_trades_app m h1 h2 : mtm_trades m (h1 ++ h2) = (mtm_trades m h1 + mtm_trades m h2)%Qc.
Proof. unfold mtm_trades. by rewrite fmap_app, sumQ_app. Qed.
Lemma fees_app h1 h2 : fees (h1 ++ h2) = (fees h1 + fees h2)%Qc.
Proof. unfold fees. by rewrite fmap_app, sumQ_app. Qed.
Lemma commissions_app h1 h2 : commissions (h1 ++ h2) = (commissions h1 + commissions h2)%Qc.
Proof. unfold commissions. by rewrite fmap_app, sumQ_app. Qed.

Lemma px_Some (l : list XQ) : Forall is_Some l -> l = Some <$> (px <$> l).
Proof. induction 1 as [|x l [y ->] Hl IH]; [done|]. csimpl. by rewrite <- IH. Qed.

Lemma f_sum_px (l : list XQ) : Forall is_Some l -> f_sum l = Some (sumQ (px <$> l)).
Proof. intros Hl. rewrite (px_Some l Hl) at 1. apply exact_f_sum. Qed.

Definition entry_value (mult : Qc) hist (e : trade_entry XQ) : Prop :=
  exists r a, te_realized e = Some r /\ te_avg_price e = Some a /\
    te_fee e = Some (fees hist) /\ te_commission e = Some (commissions hist) /\
    forall m, (r + mult * (zq (te_open_qty e) * (m - a)) = mult * mtm_trades m hist)%Qc.

Definition lots_value p : Prop :=
  exists prices : list Qc, cp_open_prices p = Some <$> prices /\
    match last (sd_items (cp_trade_pnl p)) with
    | None => forall m, marked m (cp_open_qtys p) prices = 0%Qc
    | Some (_, e) => forall a, te_avg_price e = Some a -> forall m,
        marked m (cp_open_qtys p) prices = (zq (te_open_qty e) * (m - a))%Qc
    end.

Record ledger_value (mult : Qc) p hist : Prop := LedgerValue {
  lv_ledger : ledger p hist;
  lv_mult : c_multiplier (cp_contract p) = Some mult;
  lv_hist : Forall exact_trade hist;
  lv_lots : lots_value p;
  lv_entry k e : (k, e) ∈ sd_items (cp_trade_pnl p) -> entry_value mult (upto hist k) e;
}.

Lemma marked_position m qtys (prices : list Qc) :
  length qtys = length prices ->
  marked m qtys prices = (zq (sumZ qtys) * m - sumQ (zip_with (fun q x => zq q * x)%Qc qtys prices))%Qc.
Proof.
  unfold marked. revert prices. induction qtys as [|q qtys IH]; intros [|x prices] Hlen; simplify_eq/=.
  { rewrite sumZ_nil. qc_ring. }
  rewrite IH, sumZ_cons by done. qc_ring.
Qed.

(** The average price stands for the whole queue of open lots. *)
Lemma weighted_avg_marked qtys (prices : list Qc) :
  length qtys = length prices -> Forall (fun q => q <> 0) qtys -> one_sided (lots_of qtys (Some <$> prices : list XQ)) ->
  exists a, weighted_avg_price (F:=XQ) qtys (Some <$> prices) (sumZ qtys) = Some a /\
    forall m, marked m qtys prices = (zq (sumZ qtys) * (m - a))%Qc.
Proof.
  intros Hlen Hnz Hside. unfold weighted_avg_price.
  destruct (Z.eqb_spec (sumZ qtys) 0) as [Hz|Hz].
  - exists (zq 0). split; [done|]. intros m. rewrite Hz.
    assert (lots_of qtys (Some <$> prices : list XQ) = []) as Hnil.
    { apply one_sided_flat; [done|]. rewrite lots_of_position by (by rewrite length_fmap). done. }
    destruct qtys as [|q qtys], prices as [|pr prices]; simplify_eq/=.
    + unfold marked. simpl. qc_ring.
    + apply Forall_cons in Hnz as [Hq _]. unfold lots_of in Hnil. simpl in Hnil.
      rewrite filter_cons_True in Hnil by done. done.
  - set (s := sumQ (zip_with (fun q x => zq q * x)%Qc qtys prices)).
    assert (np_sum (zip_with (fun q x => f_mul (f_of_Z q) x) qtys (Some <$> prices)) = Some s) as Hs.
    { unfold s. rewrite <- np_sum_exact. f_equal. clear. revert prices.
      induction qtys as [|q qtys IH]; intros [|x prices]; csimpl; [done..|]. by rewrite IH. }
    exists (s / zq (sumZ qtys))%Qc. split.
    + rewrite Hs. simpl. unfold Exact.div. destruct (Exact.qeqb _ _) eqn:Hq; [|done].
      apply qeqb_eq in Hq. by apply zq_nonzero in Hz.
    + intros m. rewrite marked_position by done. fold s. field. by apply zq_nonzero.
Qed.

Lemma marked_trades m (g : list (trade XQ)) :
  marked m (t_qty <$> g) (px <$> (t_price <$> g)) = mtm_trades m g.
Proof. unfold marked, mtm_trades. induction g as [|t g IH]; csimpl; [done|]. by rewrite IH. Qed.

Lemma exact_prices g : Forall exact_trade g -> t_price <$> g = Some <$> (px <$> (t_price <$> g)).
Proof. intros Hg. apply px_Some, Forall_fmap. eapply Forall_impl; [exact Hg|]. by intros t []. Qed.

Lemma last_all (l : list (Z * trade_entry XQ)) t : Forall (fun kv => kv.1 <= t) l -> last_le l t = last l.
Proof. intros Hl. unfold last_le. by rewrite filter_all. Qed.

Lemma ledger_keys_le p hist ts :
  ledger p hist -> (forall x, x ∈ hist -> t_timestamp x <= ts) ->
  Forall (fun kv => kv.1 <= ts) (sd_items (cp_trade_pnl p)).
Proof.
  intros Hl Hle. apply Forall_forall. intros [k e] Hin. simpl.
  apply (list_elem_of_fmap_2 fst) in Hin. apply (lg_key _ _ Hl) in Hin.
  apply list_elem_of_fmap in Hin as (x & Hk & Hx). simpl in Hk. subst k. by apply Hle.
Qed.

(** Realized P&L so far, against the lots still open. *)
Lemma prev_value mult p hist ts :
  ledger_value mult p hist -> (forall x, x ∈ hist -> t_timestamp x <= ts) ->
  match last_le (sd_items (cp_trade_pnl p)) ts with
  | None => hist = [] /\ forall m, marked m (cp_open_qtys p) (px <$> cp_open_prices p) = 0%Qc
  | Some (_, e) => exists r, te_realized e = Some r /\ te_fee e = Some (fees hist) /\
      te_commission e = Some (commissions hist) /\
      forall m, (r + mult * marked m (cp_open_qtys p) (px <$> cp_open_prices p) = mult * mtm_trades m hist)%Qc
  end.
Proof.
  intros Hlv Hle. pose proof (lv_ledger _ _ _ Hlv) as Hl.
  pose proof (upto_last_le p hist ts Hl) as Hup.
  rewrite (upto_all hist ts) in Hup by (apply Forall_forall; done).
  destruct (lv_lots _ _ _ Hlv) as (op & Hop & Hmark).
  assert (px <$> cp_open_prices p = op) as Hpx.
  { rewrite Hop, <- list_fmap_compose. apply list_fmap_id. }
  rewrite Hpx. rewrite <- (last_all _ ts) in Hmark by by eapply ledger_keys_le.
  destruct (last_le _ ts) as [[k e]|] eqn:Hk; [|done].
  apply last_le_Some in Hk as [Hin _].
  destruct (lv_entry _ _ _ Hlv k e Hin) as (r & a & H1' & H2 & H3 & H4 & H5).
  rewrite <- Hup in *. exists r. split_and!; [done..|]. intros m. by rewrite (Hmark a H2 m).
Qed.

Lemma book_trades_value mult p hist trades ts :
  let g := filter (fun t => t_timestamp t = ts) trades in
  ledger_value mult p hist -> Forall exact_trade trades -> ts ∈ t_timestamp <$> trades ->
  volume (hist ++ g) < 2 ^ 63 -> (forall x, x ∈ hist -> t_timestamp x <= ts) ->
  exists p', book_trades trades ts p = Ok p' /\ ledger_value mult p' (hist ++ g).
Proof.
  intros g Hlv Htr Hts Hv Hle.
  destruct (book_trades_spec p hist trades ts (lv_ledger _ _ _ Hlv) Hts Hv Hle) as (p' & Hb & Hl').
  fold g in Hl'. exists p'. split; [done|].
  assert (Forall exact_trade g) as Hg.
  { apply Forall_forall. intros t [_ Ht]%list_elem_of_filter. rewrite Forall_forall in Htr. by apply Htr. }
  assert (Forall qty_ok (t_qty <$> g)) as Hgq.
  { apply volume_qty_ok. rewrite volume_app in Hv. pose proof (volume_nonneg hist). lia. }
  unfold book_trades in Hb. fold g in Hb. apply bind_Ok_inv in Hb as (nq & Hnp & Hb).
  unfold np_int_array in Hnp. apply guard_bind_Ok in Hnp as [_ [= <-]].
  destruct (lv_lots _ _ _ Hlv) as (op & Hop & _).
  destruct (lg_lots _ _ (lv_ledger _ _ _ Hlv)) as (Hlen & Hok & Hnz & Hside).
  assert (px <$> cp_open_prices p = op) as Hpx.
  { rewrite Hop, <- list_fmap_compose. apply list_fmap_id. }
  pose proof (prev_value mult p hist ts Hlv Hle) as Hprev. rewrite Hpx in Hprev.
  rewrite Hop in Hlen, Hside, Hb. rewrite length_fmap in Hlen.
  rewrite (exact_prices g Hg), (lv_mult _ _ _ Hlv) in Hb.
  destruct (calculate_value (cp_open_qtys p) op (t_qty <$> g) (px <$> (t_price <$> g)) mult Hlen)
    as (lots & prices & chg & Hc & Hval); [by rewrite !length_fmap|done..|].
  rewrite Hc in Hb. simpl in Hb. rewrite peek_before_spec in Hb. simpl in Hb.
  destruct (lg_lots _ _ Hl') as (Hlen' & Hok' & Hnz' & Hside').
  pose proof (lg_open _ _ Hl') as Hopen'.
  injection Hb as Hp'. subst p'. simpl in Hlen', Hok', Hnz', Hside', Hopen'.
  rewrite length_fmap in Hlen'.
  destruct (weighted_avg_marked lots prices Hlen' Hnz' Hside') as (a & Ha & Hma).
  assert (wrap64 (sumZ lots) = sumZ lots) as Hw.
  { apply wrap64_id. rewrite Hopen'. pose proof (quantity_volume (hist ++ g)). lia. }
  rewrite Hw, Ha in *.
  rewrite !f_sum_px in * by (apply Forall_fmap; eapply Forall_impl; [exact Hg|]; by intros t (?&?&?)).
  rewrite <- !list_fmap_compose in *. fold (fees g) (commissions g) in *.
  match type of Hl' with context [sd_set _ ts ?x] => set (e' := x) in * end.
  assert (te_open_qty e' = sumZ lots /\ te_avg_price e' = Some a /\ entry_value mult (hist ++ g) e')
    as (He1 & He2 & He3).
  { unfold e'. destruct (last_le _ ts) as [[k0 e0]|] eqn:Hk.
    - destruct Hprev as (r & Hr & Hf & Hcm & Hrm). split_and!; [done..|].
      exists (r + chg * mult)%Qc, a. simpl. rewrite Hr, Hf, Hcm, fees_app, commissions_app.
      split_and!; [done..|]. intros m. rewrite <- Hma, mtm_trades_app, <- (marked_trades m g).
      rewrite <- list_fmap_compose. transitivity (r + mult * (chg + marked m lots prices))%Qc; [ring|].
      rewrite (Hval m).
      transitivity (r + mult * marked m (cp_open_qtys p) op + mult * marked m (t_qty <$> g) (px ∘ t_price <$> g))%Qc;
        [ring|]. rewrite (Hrm m). ring.
    - destruct Hprev as [-> Hz]. split_and!; [done..|]. exists (chg * mult)%Qc, a. simpl.
      split_and!; [done..|]. intros m. rewrite <- Hma. simpl. rewrite <- (marked_trades m g), <- list_fmap_compose.
      transitivity (mult * (chg + marked m lots prices))%Qc; [ring|]. rewrite (Hval m), (Hz m). ring. }
  split; [exact Hl'|apply (lv_mult _ _ _ Hlv)| | |].
  - apply Forall_app. split; [apply (lv_hist _ _ _ Hlv)|done].
  - exists prices. split; [done|]. simpl. rewrite sd_items_set.
    pose proof (ledger_keys_le p hist ts (lv_ledger _ _ _ Hlv) Hle) as Hkeys.
    rewrite <- (last_all _ ts).
    + rewrite last_le_set_at by apply sd_items_sorted. intros a' Ha' m.
      rewrite He2 in Ha'. simplify_eq. by rewrite He1.
    + apply Forall_forall. intros kv Hin. apply items_set_elem in Hin as [->|Hin]; [done|].
      rewrite Forall_forall in Hkeys. by apply Hkeys.
  - intros k e Hin. simpl in Hin. rewrite sd_items_set in Hin.
    assert (Forall (fun x => t_timestamp x = ts) g) as Hgts.
    { apply Forall_forall. intros x [? _]%list_elem_of_filter. done. }
    apply items_set_elem_ne in Hin as [Heq|[Hin Hne]]; [|simpl in Hne|apply sd_items_sorted].
    + simplify_eq. rewrite upto_all; [done|]. apply Forall_app. split; apply Forall_forall; [done|].
      intros x Hx. rewrite Forall_forall in Hgts. apply Hgts in Hx. lia.
    + pose proof (ledger_keys_le p hist ts (lv_ledger _ _ _ Hlv) Hle) as Hkeys.
      rewrite Forall_forall in Hkeys. pose proof (Hkeys _ Hin) as Hkts. simpl in Hkts.
      rewrite upto_app, (upto_none g), app_nil_r by (eapply Forall_impl; [exact Hgts|]; simpl; lia).
      by apply (lv_entry _ _ _ Hlv).
Qed.

Lemma ledger_value_same mult p p' hist : same_trades p p' -> ledger_value mult p hist -> ledger_value mult p' hist.
Proof.
  intros Hs [H1' H2 H3 H4 H5]. pose proof (ledger_same _ _ _ Hs H1') as Hl.
  destruct Hs as (Hc & _ & Ht & Hq & Hp & _).
  split; unfold lots_value in *; rewrite ?Hc, ?Ht, ?Hq, ?Hp; done.
Qed.

Lemma ledger_value_begin mult p hist first :
  ledger_value mult p hist -> ledger_value mult (begin_trades p first) hist.
Proof. intros []. split; try done. by apply ledger_begin. Qed.

Lemma booked_value mult p hist :
  booked (W:=W) p hist -> c_multiplier (cp_contract p) = Some mult -> Forall exact_trade hist ->
  ledger_value mult p hist.
Proof.
  induction 1 as [c ts|pf p hist trades w w' p' Hb IH Hv Ha|pf p hist t w w' p' res _ IH Hc]; intros Hm Hex.
  - split; [apply ledger_new|done|constructor| |].
    + exists []. simpl. by rewrite sd_items_empty.
    + simpl. intros k e. rewrite sd_items_empty. intros Hin. by apply elem_of_nil in Hin.
  - apply Forall_app in Hex as [Hex1 Hex2]. rewrite (booking_order_perm trades) in Hex2.
    pose proof (add_trades_same _ _ _ _ _ Ha) as [Hc _]. simpl in Hc. rewrite Hc in Hm.
    revert Ha. apply add_trades_inv; [..|by apply IH|done].
    + intros ? ? []. done.
    + apply ledger_value_same.
    + apply ledger_value_begin.
    + intros p0 h ts ? ? ?. by apply book_trades_value.
  - apply calc_net_pnl_same in Hc as Hs. apply (ledger_value_same mult _ _ _ Hs). apply IH; [|done].
    by destruct Hs as [<- _].
Qed.

(** Recording a valuation at a price makes [net_pnl] the marked value of the
    executions less their costs. *)
Lemma net_pnl_value mult p hist t e m u price :
  ledger_value mult p hist -> entry_before p t = Ok e ->
  u = (zq (te_open_qty e) * (m - px (te_avg_price e)) * mult)%Qc ->
  net_pnl (record_net p t e price (Some u)) t
    = Ok (Some (mult * mtm_trades m (upto hist t) - commissions (upto hist t) - fees (upto hist t))%Qc).
Proof.
  intros Hlv He Hu.
  assert (f_sub (f_sub (f_add (te_realized e) (Some u)) (te_commission e)) (te_fee e) =
    Some (mult * mtm_trades m (upto hist t) - commissions (upto hist t) - fees (upto hist t))%Qc) as Hnet.
  { unfold entry_before in He. rewrite peek_before_spec in He. simpl in He.
    rewrite (upto_last_le p hist t (lv_ledger _ _ _ Hlv)).
    destruct (last_le _ t) as [[k e']|] eqn:Hk; simplify_eq.
    - apply last_le_Some in Hk as [Hin _].
      destruct (lv_entry _ _ _ Hlv k e Hin) as (r & a & H1' & H2 & H3 & H4 & H5).
      rewrite H1', H2, H3, H4. simpl. f_equal. rewrite <- (H5 m). ring.
    - simpl. unfold mtm_trades, commissions, fees. simpl. f_equal. qc_ring. }
  unfold net_pnl, record_net. cbn [with_net cp_contract cp_final_pnl cp_net_pnl].
  rewrite Hnet. destruct (after_expiry (cp_contract p) t); simpl; [done|].
  rewrite peek_before_spec. simpl. rewrite sd_items_set, last_le_set_at by apply sd_items_sorted. done.
Qed.
End LedgerValue.

(** ** Acceptance of a batch *)

Section Acceptance.
Context `{PyFloat F} `{!Numpy F} `{!NumpyLaws F} `{SortedDictLaws D} {W : Type}.
Implicit Types (p : ContractPNL F D) (hist : list (trade F)).

(** The callback always returns a real price or NaN. *)
Definition price_total (pf : price_fn F W) : Prop :=
  forall w c ts i, exists w' v x, pf w c ts i = (w', Ok v) /\ validate_price_value v true = Ok x.

Lemma entry_before_Ok p t : exists e, entry_before p t = Ok e.
Proof. unfold entry_before. rewrite peek_before_spec. simpl. eauto. Qed.

Lemma calc_net_pnl_total (pf : price_fn F W) t w p :
  price_total pf -> grid (cp_timestamps p) -> t ∈ cp_timestamps p ->
  exists s', calc_net_pnl pf t (w, p) = (s', Ok tt).
Proof.
  intros Hpf Hg Ht. unfold calc_net_pnl.
  destruct (sd_mem _ _ && _); [eauto|]. destruct (cp_first_trade_timestamp p); [|eauto].
  destruct (t <? z); [eauto|]. destruct (after_expiry _ _ && _); [eauto|].
  destruct (timestamp_index_total (F:=F) (cp_timestamps p) t Hg) as [[_ [i ->]]|[Hn _]]; [|done].
  destruct (entry_before_Ok p t) as [e ->]. destruct (int_isclose0 _); [eauto|].
  destruct (Hpf w (cp_contract p) (cp_timestamps p) i) as (w' & v & x & -> & Hv). simpl. rewrite Hv. simpl.
  unfold unrealized_at. destruct (f_isnan x); simpl; [|eauto].
  rewrite peek_before_spec. simpl. eauto.
Qed.

Lemma chronology_ok p hist trades :
  ledger p hist -> (forall x y, x ∈ hist -> y ∈ trades -> t_timestamp x <= t_timestamp y) ->
  validate_trade_chronology p trades = Ok tt.
Proof.
  intros Hl Hle. unfold validate_trade_chronology. case_bool_decide as Hnil; [done|].
  case_bool_decide as Hlen; [done|]. unfold sd_len in Hlen.
  destruct (last (sd_items (cp_trade_pnl p))) as [[k e]|] eqn:Hlast; cycle 1.
  { apply last_None in Hlast. by rewrite Hlast in Hlen. }
  rewrite (sd_peekitem_last _ _ Hlast). simpl.
  pose proof (np_unique_elem (t_timestamp <$> trades)) as Hel.
  destruct (np_unique _) as [|t ts].
  - destruct trades as [|y trades]; [done|]. exfalso. eapply not_elem_of_nil, Hel. left.
  - assert (t ∈ t_timestamp <$> trades) as (y & -> & Hy)%list_elem_of_fmap by (apply Hel; left).
    assert (k ∈ t_timestamp <$> hist) as (x & -> & Hx)%list_elem_of_fmap.
    { apply (lg_key _ _ Hl). unfold sd_keys. apply (list_elem_of_fmap_2 fst) with (x := (k, e)).
      by apply last_Some_elem_of. }
    rewrite (proj2 (Z.ltb_ge _ _)); [done|by apply Hle].
Qed.

Lemma add_trades_total (pf : price_fn F W) trades hist w p :
  price_total pf -> ledger p hist -> volume (hist ++ trades) < 2 ^ 63 ->
  grid (cp_timestamps p) -> Forall (fun t => t_timestamp t ∈ cp_timestamps p) trades ->
  (forall x y, x ∈ hist -> y ∈ trades -> t_timestamp x <= t_timestamp y) ->
  exists s', add_trades pf trades (w, p) = (s', Ok tt).
Proof.
  intros Hpf Hl Hv Hg Hts Hle. unfold add_trades. case_bool_decide as Hnil; [eauto|].
  rewrite (chronology_ok p hist trades Hl Hle).
  pose proof (np_unique_sorted (t_timestamp <$> trades)) as Hs.
  pose proof (np_unique_elem (t_timestamp <$> trades)) as Hel.
  pose proof (booking_order_perm trades) as Hperm. unfold booking_order in Hperm.
  destruct (np_unique (t_timestamp <$> trades)) as [|first instants].
  { destruct trades as [|y trades]; [done|]. exfalso. eapply not_elem_of_nil, Hel. left. }
  assert (forall t, t ∈ first :: instants -> t ∈ t_timestamp <$> trades) as Hin by (intros; by apply Hel).
  assert (forall x t, x ∈ hist -> t ∈ first :: instants -> t_timestamp x <= t) as Hle'.
  { intros x t Hx Ht. apply Hin, list_elem_of_fmap in Ht as (y & -> & Hy). by apply Hle. }
  rewrite volume_app, <- (volume_perm _ _ Hperm), <- volume_app in Hv.
  apply ledger_begin with (first := first) in Hl.
  assert (cp_timestamps (begin_trades p first) = cp_timestamps p) as Hgrid by done.
  revert Hl Hgrid. generalize (begin_trades p first). clear Hel Hperm Hnil Hle.
  revert hist w Hs Hin Hle' Hv. generalize (first :: instants). clear first instants.
  induction l as [|t l IH]; intros hist w Hs Hin Hle Hv p0 Hl Hgrid; [simpl; unfold mret, ST_ret; eauto|].
  rewrite by_instant_cons, app_assoc in Hv. simpl.
  destruct (book_trades_spec p0 hist trades t Hl) as (p1 & Hb & Hl1).
  { apply Hin; left. }
  { rewrite volume_app in Hv. pose proof (volume_nonneg (by_instant trades l)). lia. }
  { intros x Hx. apply Hle; [done|left]. }
  unfold mbind, ST_bind, add_trades_at. rewrite Hb. apply book_trades_same in Hb as [_ Hts1].
  rewrite Hgrid in Hts1.
  destruct (calc_net_pnl_total pf t w p1) as [[w2 p2] Hc]; [done|by rewrite Hts1| |].
  { rewrite Hts1. rewrite Forall_forall in Hts. specialize (Hin t ltac:(left)).
    apply list_elem_of_fmap in Hin as (y & -> & Hy). by apply Hts. }
  rewrite Hc. apply calc_net_pnl_same in Hc. apply StronglySorted_inv in Hs as [Hs Hall].
  eapply IH; [done|set_solver| |exact Hv|by eapply ledger_same|].
  - intros x t' Hx Ht'. rewrite Forall_forall in Hall. pose proof (Hall _ Ht').
    apply elem_of_app in Hx as [Hx|[Hx _]%list_elem_of_filter]; [|lia].
    pose proof (Hle x t Hx ltac:(left)). lia.
  - destruct Hc as (_ & -> & _). done.
Qed.

(** A late batch is refused before anything changes. *)
Lemma add_trades_late (pf : price_fn F W) trades hist w p x y :
  ledger p hist -> x ∈ hist -> y ∈ trades -> t_timestamp y < t_timestamp x ->
  add_trades pf trades (w, p)
    = ((w, p), Err (ValueError "trades can only be added with non-decreasing timestamps")).
Proof.
  intros Hl Hx Hy Hlt. unfold add_trades.
  rewrite bool_decide_false by (intros ->; by apply elem_of_nil in Hy).
  destruct (validate_trade_chronology p trades) as [[]|e] eqn:Hc.
  { pose proof (chronology_hist p trades hist Hl Hc x y Hx Hy). lia. }
  unfold validate_trade_chronology in Hc.
  rewrite bool_decide_false in Hc by (intros ->; by apply elem_of_nil in Hy).
  case_bool_decide as Hlen; [done|]. unfold sd_len in Hlen.
  destruct (last (sd_items (cp_trade_pnl p))) as [[k v]|] eqn:Hlast; cycle 1.
  { apply last_None in Hlast. by rewrite Hlast in Hlen. }
  rewrite (sd_peekitem_last _ _ Hlast) in Hc. simpl in Hc.
  pose proof (np_unique_elem (t_timestamp <$> trades)) as Hel.
  destruct (np_unique _) as [|t ts].
  - exfalso. eapply not_elem_of_nil, Hel. apply (list_elem_of_fmap_2 t_timestamp). exact Hy.
  - apply guard_bind_Err in Hc as [[_ <-]|[_ ?]]; done.
Qed.
End Acceptance.

(** ** Properties *)

(** After any history of accepted batches and valuations (under any price
    callback), the ledger's position at any instant is the sum of the quantities
    of the trades booked up to that instant, and its open lots are on one side
    and add up to the whole position. *)
Theorem ContractPNL_position `{PyFloat F} `{!Numpy F} `{!NumpyLaws F} `{SortedDictLaws D} {W}
    (p : ContractPNL F D) hist t :
  booked (W:=W) p hist ->
  position p t = Ok (sumZ (t_qty <$> filter (fun x => t_timestamp x <= t) hist)) /\
  sumZ (cp_open_qtys p) = sumZ (t_qty <$> hist) /\
  one_sided (lots_of (cp_open_qtys p) (cp_open_prices p)).
Proof.
  intros Hb%booked_ledger. split_and!; [by apply ledger_position|apply (lg_open _ _ Hb)|apply (lg_lots _ _ Hb)].
Qed.

(** Under a price callback that returns real numbers or NaN, the ledger
    accepts exactly the batches on its grid that are no earlier than what it has
    booked; a late batch is refused with [ValueError] and leaves the ledger as
    it was. *)
Theorem ContractPNL_add_trades_accepts `{PyFloat F} `{!Numpy F} `{!NumpyLaws F} `{SortedDictLaws D} {W}
    (pf : price_fn F W) (p : ContractPNL F D) hist trades w :
  booked (W:=W) p hist -> price_total pf -> sumZ (Z.abs ∘ t_qty <$> hist ++ trades) < 2 ^ 63 ->
  grid (cp_timestamps p) -> Forall (fun t => t_timestamp t ∈ cp_timestamps p) trades ->
  ((forall x y, x ∈ hist -> y ∈ trades -> t_timestamp x <= t_timestamp y) /\
   exists w' p', add_trades pf trades (w, p) = ((w', p'), Ok tt) /\
     booked (W:=W) p' (hist ++ booking_order trades)) \/
  ((exists x y, x ∈ hist /\ y ∈ trades /\ t_timestamp y < t_timestamp x) /\
   add_trades pf trades (w, p)
     = ((w, p), Err (ValueError "trades can only be added with non-decreasing timestamps"))).
Proof.
  intros Hb Hpf Hv Hg Hts. pose proof (booked_ledger _ _ Hb) as Hl.
  destruct (decide (Exists (fun x => Exists (fun y => t_timestamp y < t_timestamp x) trades) hist)) as [He|Hne].
  - right. apply Exists_exists in He as (x & Hx & (y & Hy & Hlt)%Exists_exists).
    split; [eauto 6|]. by eapply add_trades_late.
  - left. assert (forall x y, x ∈ hist -> y ∈ trades -> t_timestamp x <= t_timestamp y) as Hle.
    { intros x y Hx Hy. apply Z.nlt_ge. intros Hlt. apply Hne, Exists_exists. exists x. split; [done|].
      apply Exists_exists. eauto. }
    split; [done|]. destruct (add_trades_total pf trades hist w p Hpf Hl Hv Hg Hts Hle) as [[w' p'] Ha].
    exists w', p'. split; [done|]. by eapply booked_add.
Qed.

(** C7: Valuing the ledger in exact arithmetic: when the price callback returns
    [m] for an instant, the net P&L there becomes the multiplier times the sum of
    quantity times ([m] less the execution price), less commissions and fees,
    over the trades booked up to that instant, however they were batched and
    netted. *)
Theorem ContractPNL_net_pnl_exact `{!Numpy XQ} `{!NumpyLaws XQ} `{!NumpyExact} `{SortedDictLaws D} {W}
    (pf : price_fn XQ W) (p : ContractPNL XQ D) hist mult t first i m w w' :
  booked (W:=W) p hist -> Forall exact_trade hist ->
  c_multiplier (cp_contract p) = Some mult -> cp_first_trade_timestamp p = Some first -> first <= t ->
  timestamp_index (F:=XQ) (cp_timestamps p) t = Ok i ->
  cp_new_trades_added p = true \/ sd_mem (cp_net_pnl p) t = false ->
  after_expiry (cp_contract p) t = false \/ cp_final_pnl p = None ->
  pf w (cp_contract p) (cp_timestamps p) i = (w', Ok (PFloat (Some m))) ->
  exists w'' p', calc_net_pnl pf t (w, p) = ((w'', p'), Ok tt) /\
    net_pnl p' t = Ok (Some (mult * mtm_trades m (upto hist t)
                             - commissions (upto hist t) - fees (upto hist t))%Qc).
Proof.
  intros Hb Hex Hm Hf Hle Hi Hnew Hexp Hpf.
  pose proof (booked_value mult p hist Hb Hm Hex) as Hlv. unfold calc_net_pnl.
  replace (sd_mem (cp_net_pnl p) t && negb (cp_new_trades_added p)) with false
    by (destruct Hnew as [-> | ->]; [by rewrite andb_false_r|done]).
  rewrite Hf, (proj2 (Z.ltb_ge t first)) by done.
  replace (after_expiry (cp_contract p) t && negb (f_isnan (cp_final_pnl p))) with false
    by (destruct Hexp as [-> | ->]; [done|by rewrite andb_false_r]).
  rewrite Hi. destruct (entry_before_Ok p t) as [e He]. rewrite He.
  destruct (int_isclose0 (te_open_qty e)) eqn:Hz.
  - do 2 eexists. split; [done|]. unfold int_isclose0 in Hz. bools.
    unfold f_zero. apply (net_pnl_value mult p hist t e m); [done|done|]. rewrite Hz. qc_ring.
  - rewrite Hpf. simpl. unfold unrealized_at. simpl.
    assert (exists a, te_avg_price e = Some a) as [a Ha].
    { unfold entry_before in He. rewrite peek_before_spec in He. simpl in He.
      destruct (last_le _ t) as [[k e']|] eqn:Hk; simplify_eq.
      apply last_le_Some in Hk as [Hin _]. destruct (lv_entry _ _ _ Hlv k e Hin) as (r & a & _ & Ha & _). eauto. }
    rewrite Ha, Hm. simpl. do 2 eexists. split; [done|].
    apply (net_pnl_value mult p hist t e m); [done|done|]. by rewrite Ha.
Qed.

(** ** Witnesses *)

Section Demo.
Context `{PyFloat F}.

(** Ten contracts at 100, then six sold at 103, priced at 105. *)
Definition demo_trades : list (trade F) :=
  [demo_trade (demo_contract 2 "ES") 1 10 100; demo_trade (demo_contract 2 "ES") 2 (-6) 103].

Definition demo_price : price_fn F unit := fun w _ _ _ => (w, Ok (PFloat (f_of_Z 105))).

Definition demo_ledger0 : ContractPNL F sorted_items := ContractPNL_new (demo_contract 2 "ES") [1; 2; 3].
Definition demo_ledger : ContractPNL F sorted_items := (add_trades demo_price demo_trades (tt, demo_ledger0)).1.2.
End Demo.

Lemma demo_booked_float : booked (F:=spec_float) (W:=unit) demo_ledger ([] ++ booking_order demo_trades).
Proof.
  eapply (booked_add demo_price demo_ledger0 [] demo_trades tt tt); [apply booked_new|reflexivity|].
  unfold demo_ledger. assert ((add_trades (F:=spec_float) demo_price demo_trades (tt, demo_ledger0)).2 = Ok tt) as Hr
    by (vm_compute; reflexivity).
  destruct (add_trades _ _ _) as [[[] p] r]. simpl in *. by rewrite Hr.
Qed.

Lemma demo_booked_exact : booked (F:=XQ) (W:=unit) demo_ledger ([] ++ booking_order demo_trades).
Proof.
  eapply (booked_add demo_price demo_ledger0 [] demo_trades tt tt); [apply booked_new|reflexivity|].
  unfold demo_ledger. assert ((add_trades (F:=XQ) demo_price demo_trades (tt, demo_ledger0)).2 = Ok tt) as Hr
    by (vm_compute; reflexivity).
  destruct (add_trades _ _ _) as [[[] p] r]. simpl in *. by rewrite Hr.
Qed.

Lemma ContractPNL_position_witness :
  position (F:=spec_float) demo_ledger 1 = Ok 10 /\ position (F:=spec_float) demo_ledger 3 = Ok 4.
Proof.
  split.
  - exact (proj1 (ContractPNL_position demo_ledger _ 1 demo_booked_float)).
  - exact (proj1 (ContractPNL_position demo_ledger _ 3 demo_booked_float)).
Defined.

Lemma ContractPNL_add_trades_accepts_witness :
  exists s, add_trades (F:=spec_float) demo_price demo_trades (tt, demo_ledger0) = (s, Ok tt).
Proof.
  destruct (ContractPNL_add_trades_accepts (F:=spec_float) demo_price demo_ledger0 [] demo_trades tt) as [H|H].
  - apply (booked_new (W:=unit)).
  - intros w c ts i. exists w, (PFloat (f_of_Z 105)), (f_of_Z 105). split; reflexivity.
  - reflexivity.
  - repeat constructor.
  - repeat constructor.
  - destruct H as (_ & w' & p' & H & _). eauto.
  - destruct H as ((x & y & Hx & _) & _). by apply elem_of_nil in Hx.
Defined.

Lemma ContractPNL_net_pnl_exact_witness :
  exists w p', calc_net_pnl (F:=XQ) demo_price 3 (tt, demo_ledger) = ((w, p'), Ok tt) /\
    net_pnl p' 3 = Ok (Some (zq 50 * mtm_trades (zq 105) (upto ([] ++ booking_order demo_trades) 3)
      - commissions (upto ([] ++ booking_order demo_trades) 3)
      - fees (upto ([] ++ booking_order demo_trades) 3))%Qc).
Proof.
  refine (ContractPNL_net_pnl_exact demo_price demo_ledger _ (zq 50) 3 1 2 (zq 105) tt tt demo_booked_exact
    _ _ _ _ _ _ _ _).
  - rewrite (booking_order_perm demo_trades). repeat constructor; eauto.
  - reflexivity.
  - reflexivity.
  - discriminate.
  - reflexivity.
  - right. reflexivity.
  - right. reflexivity.
  - reflexivity.
Defined.

#[global] Arguments add_trades : simpl never.
#[global] Arguments calc_net_pnl : simpl never.
