(* ===== verification/Inputs.v ===== *)
(** * Strategy inputs and price adapters: [strategy_inputs.py]

    Price series are snapshots: a strictly increasing grid of instants with one
    price each.  A series is validated when an adapter is built; afterwards a
    price is looked up by instant, exactly or at the latest instant before. *)

From S2P Require Import Prelude Numeric Vendor Boundaries Instruments Contracts Orders Fifo ContractPnl.
From Stdlib Require Import SpecFloat.

Open Scope Z_scope.

(** NumPy: [astype(float)] of one scalar and of an array of them, and [np.unique] of an
    array of strings. *)
Class NumpyCast (F : Type) := {
  np_float : pyval F -> result F;
  np_astype_float : list (pyval F) -> result (list F);
  np_unique_str : list string -> list string;
}.

Class NumpyCastLaws (F : Type) `{PyFloat F} `{NumpyCast F} := {
  np_astype_float_each l l' : np_astype_float l = Ok l' -> Forall2 (fun v x => np_float v = Ok x) l l';
  np_float_real v : is_real v = true -> np_float v = py_float v;
  np_unique_str_NoDup l : NoDup (np_unique_str l);
  np_unique_str_elem l x : x ∈ np_unique_str l <-> x ∈ l;
}.

Section Inputs.
Context `{PyFloat F} `{!Numpy F} `{!NumpyCast F}.

(** [_timestamp_at] *)
Definition timestamp_at (timestamps : list Z) (index : nat) : result Z :=
  match timestamps !! index with Some t => Ok t | None => Err (IndexError "index is out of bounds") end.

Record price_series := PriceSeries { ps_timestamps : list Z; ps_prices : list F }.

(** An array of scalars: its dimension and its values. *)
Record scalar_array := ScalarArray { sc_ndim : nat; sc_values : list (pyval F) }.

(** [_snapshot_price_series] *)
Definition snapshot_price_series (timestamps : ndarray) (prices : scalar_array) : result price_series :=
  match timestamps with
  | NotArray => Err (ValueError "price arrays must be one-dimensional")
  | NdArray ndim is_datetime values =>
      unless bool_decide (ndim = 1%nat) && bool_decide (sc_ndim prices = 1%nat)
        raise ValueError "price arrays must be one-dimensional" ;;
      unless bool_decide (length values = length (sc_values prices))
        raise ValueError "timestamp and price arrays must have equal lengths" ;;
      unless is_datetime raise TypeError "timestamps must have a datetime64 dtype" ;;
      match mapM id values with
      | None => Err (ValueError "timestamps cannot contain NaT")
      | Some normalized_timestamps =>
          unless forallb (fun d => 0 <? d) (np_diff normalized_timestamps)
            raise ValueError "timestamps must be strictly increasing and unique" ;;
          match np_astype_float (sc_values prices) with
          | Ok normalized_prices => Ok (PriceSeries normalized_timestamps normalized_prices)
          | Err e => Err (if is_TypeError_or_ValueError e then TypeError "prices must be numeric" else e)
          end
      end
  end.

(** [_snapshot_vector], [VectorIndicator] and [VectorSignal]. *)
Definition snapshot_vector (vector : scalar_array) : result (list (pyval F)) :=
  unless bool_decide (sc_ndim vector = 1%nat) raise ValueError "vector values must be one-dimensional" ;;
  Ok (sc_values vector).

Definition VectorIndicator_call (vector : list (pyval F)) : scalar_array := ScalarArray 1 vector.
Definition VectorSignal_call (vector : list (pyval F)) : scalar_array := ScalarArray 1 vector.

(** [np_indexof_sorted]; [None] stands for -1. *)
Definition np_indexof_sorted (array : list Z) (value : Z) : option nat :=
  let idx := np_searchsorted_left array value in
  if bool_decide (idx = length array) then None
  else match array !! idx with
       | Some x => if x =? value then Some idx else None
       | None => None
       end.

Definition get_contract_price_from_dict (price_dict : list (string * list (Z * F))) (c : contract F) (timestamp : Z) : result F :=
  match dict_get price_dict (c_symbol c) with
  | None => Err (PQException "symbol not found in price_dict")
  | Some prices => Ok (default f_nan (dict_get prices timestamp))
  end.

Definition get_contract_price_from_array_dict (price_dict : list (string * price_series)) (c : contract F) (timestamp : Z)
  (allow_previous : bool) : result F :=
  match dict_get price_dict (c_symbol c) with
  | None => Err (PQException "symbol not found in price_dict")
  | Some s =>
      let idx := if allow_previous
                 then match np_searchsorted_right (ps_timestamps s) timestamp with O => None | S i => Some i end
                 else np_indexof_sorted (ps_timestamps s) timestamp in
      match idx with
      | None => Ok f_nan
      | Some i => match ps_prices s !! i with Some p => Ok p | None => Err (IndexError "index is out of bounds") end
      end
  end.

(** The price of a contract, or of the components of a basket by their ratios. *)
Definition basket_price (price_of : contract F -> result F) (c : contract F) : result F :=
  if is_basket c then
    foldE (fun price '(component, ratio) => p ← price_of component; Ok (f_add price (f_mul p ratio))) f_zero (c_components c)
  else price_of c.

(** [PriceFuncArrays.__init__]: one series for each symbol. *)
Definition masked {A} (symbols : list string) (symbol : string) (l : list A) : list A :=
  (filter (fun x => x.1 = symbol) (zip symbols l)).*2.

Definition PriceFuncArrays_init (symbols : list string) (is_datetime : bool) (timestamps : list (option Z)) (prices : list (pyval F))
  : result (list (string * price_series)) :=
  unless bool_decide (length timestamps = length symbols) && bool_decide (length prices = length symbols)
    raise PQException "arrays have different sizes" ;;
  foldE (fun d symbol =>
           s ← snapshot_price_series (NdArray 1 is_datetime (masked symbols symbol timestamps))
                 (ScalarArray 1 (masked symbols symbol prices));
           Ok (dict_set d symbol s)) [] (np_unique_str symbols).

(** [PriceFuncArrayDict.__init__] *)
Definition PriceFuncArrayDict_init (price_dict : list (string * (ndarray * scalar_array))) : result (list (string * price_series)) :=
  foldE (fun d '(symbol, (timestamps, prices)) =>
           s ← snapshot_price_series timestamps prices; Ok (dict_set d symbol s)) [] price_dict.

(** [__call__] of both. *)
Definition PriceFuncArrays_call (price_dict : list (string * price_series)) (allow_previous : bool) (c : contract F)
  (timestamps : list Z) (i : nat) : result F :=
  timestamp ← timestamp_at timestamps i;
  basket_price (fun c => get_contract_price_from_array_dict price_dict c timestamp allow_previous) c.

(** [PriceFuncDict.__init__], on instants that may be anything. *)
Definition check_price (timestamp : arg (option Z)) (price : pyval F) : result (Z * F) :=
  match timestamp with
  | NotInst => Err (TypeError "price timestamps must be numpy datetime64 values")
  | Inst None => Err (ValueError "price timestamps cannot be NaT")
  | Inst (Some t) =>
      unless is_real price raise TypeError "prices must be real numeric values" ;;
      x ← py_float price;
      unless f_isfinite x || f_isnan x raise ValueError "prices cannot be infinite" ;;
      Ok (t, x)
  end.

Definition PriceFuncDict_init (price_dict : list (arg string * list (arg (option Z) * pyval F)))
  : result (list (string * list (Z * F))) :=
  foldE (fun snapshot '(symbol, values) =>
           match symbol with
           | NotInst => Err (ValueError "price dictionary symbols must be non-empty strings")
           | Inst symbol =>
               whenever String.eqb symbol "" raise ValueError "price dictionary symbols must be non-empty strings" ;;
               symbol_prices ← foldE (fun d '(timestamp, price) =>
                                        '(t, x) ← check_price timestamp price; Ok (dict_set d t x)) [] values;
               Ok (dict_set snapshot symbol symbol_prices)
           end) [] price_dict.

Definition PriceFuncDict_call (price_dict : list (string * list (Z * F))) (c : contract F) (timestamps : list Z) (i : nat) : result F :=
  timestamp ← timestamp_at timestamps i;
  basket_price (fun c => get_contract_price_from_dict price_dict c timestamp) c.

(** The adapters as price callbacks: they only read. *)
Definition pure_price {W} (f : contract F -> list Z -> nat -> result F) : price_fn F W :=
  fun w c timestamps i => (w, PFloat <$> f c timestamps i).
End Inputs.

Arguments price_series F : clear implicits.
Arguments scalar_array F : clear implicits.

(** ** Facts *)

Section InputFacts.
Context `{PyFloat F} `{!Numpy F} `{!NumpyCast F} `{!NumpyLaws F} `{!NumpyCastLaws F}.
Implicit Types (s : price_series F).

(** A snapshot: a grid with one price per instant. *)
Definition series_wf s : Prop := StronglySorted Z.lt (ps_timestamps s) /\ length (ps_prices s) = length (ps_timestamps s).

Definition items_of s : list (Z * F) := zip (ps_timestamps s) (ps_prices s).

Lemma items_of_keys s : series_wf s -> (items_of s).*1 = ps_timestamps s.
Proof. intros [_ Hl]. unfold items_of. by rewrite fst_zip by lia. Qed.

Lemma items_of_lookup s k t p : items_of s !! k = Some (t, p) <-> ps_timestamps s !! k = Some t /\ ps_prices s !! k = Some p.
Proof.
  unfold items_of. rewrite lookup_zip_with_Some. split.
  - intros (a & b & [= -> ->] & ? & ?). done.
  - intros [? ?]. eauto.
Qed.

(** The price the adapters owe: the latest at or before the instant, or the one at
    the instant. *)
Definition price_at s (timestamp : Z) (allow_previous : bool) : F :=
  if allow_previous then match last_le (items_of s) timestamp with Some (_, p) => p | None => f_nan end
  else default f_nan (dict_get (items_of s) timestamp).

Lemma count_le_last {V} (l : list (Z * V)) t :
  StronglySorted Z.lt l.*1 ->
  match count_le l.*1 t with O => last_le l t = None | S i => exists kv, l !! i = Some kv /\ last_le l t = Some kv end.
Proof.
  intros Hs. pose proof (filter_le_split l t Hs) as Hsplit.
  assert (count_le l.*1 t = length (filter (fun kv : Z * V => kv.1 <= t) l)) as ->.
  { unfold count_le. clear. induction l as [|[k v] l IH]; [done|]. csimpl. rewrite !filter_cons. simpl. case_decide; simpl; lia. }
  unfold last_le. set (l1 := filter _ l) in *. destruct (length l1) as [|i] eqn:Hl1.
  - by apply nil_length_inv in Hl1 as ->.
  - rewrite last_lookup, Hl1. simpl. destruct (lookup_lt_is_Some_2 l1 i) as [kv Hkv]; [lia|].
    exists kv. rewrite Hkv. split; [|done]. rewrite Hsplit. rewrite lookup_app_l by lia. done.
Qed.

Lemma indexof_sorted_spec (l : list Z) t k : StronglySorted Z.lt l -> np_indexof_sorted l t = Some k <-> l !! k = Some t.
Proof.
  intros Hs. unfold np_indexof_sorted. rewrite np_searchsorted_left_count by done. split.
  - case_bool_decide; [done|]. destruct (l !! count_lt l t) as [x|] eqn:Hx; [|done].
    destruct (Z.eqb_spec x t) as [->|]; [|done]. by intros [= <-].
  - intros Hk. rewrite (count_lt_lookup l k t Hs Hk). rewrite bool_decide_eq_false_2 by (apply lookup_lt_Some in Hk; lia).
    by rewrite Hk, Z.eqb_refl.
Qed.

Lemma array_price_correct price_dict (c : contract F) s t allow_previous :
  dict_get price_dict (c_symbol c) = Some s -> series_wf s ->
  get_contract_price_from_array_dict price_dict c t allow_previous = Ok (price_at s t allow_previous).
Proof.
  intros Hd Hwf. pose proof Hwf as [Hs Hl]. unfold get_contract_price_from_array_dict, price_at. rewrite Hd. cbv zeta.
  destruct allow_previous.
  - rewrite np_searchsorted_right_count by done. pose proof (count_le_last (items_of s) t) as Hc.
    rewrite (items_of_keys s Hwf) in Hc. specialize (Hc Hs). destruct (count_le _ _) as [|i]; [by rewrite Hc|].
    destruct Hc as ([t' p] & Hi & ->). apply items_of_lookup in Hi as [_ ->]. done.
  - destruct (np_indexof_sorted (ps_timestamps s) t) as [k|] eqn:Hk.
    + apply indexof_sorted_spec in Hk; [|done]. destruct (lookup_lt_is_Some_2 (ps_prices s) k) as [p Hp].
      { apply lookup_lt_Some in Hk. lia. }
      rewrite Hp. assert (items_of s !! k = Some (t, p)) as Hi by by apply items_of_lookup.
      rewrite (dict_In_get (items_of s) t p); [done| |by eapply list_elem_of_lookup_2].
      unfold dict_wf, dict_keys. rewrite items_of_keys by done. by apply sorted_NoDup.
    + destruct (dict_get (items_of s) t) as [p|] eqn:Hp; [|done]. apply dict_get_Some_In in Hp.
      apply list_elem_of_lookup in Hp as [k Hp]. apply items_of_lookup in Hp as [Hp _].
      apply indexof_sorted_spec in Hp; [congruence|done].
Qed.

(** Instants far enough from the ends of the 64-bit range that their differences
    do not wrap (between 1823 and 2116). *)
Definition instants_bounded (timestamps : ndarray) : Prop :=
  match timestamps with
  | NotArray => True
  | NdArray _ _ values => forall t, Some t ∈ values -> - 2 ^ 62 <= t < 2 ^ 62
  end.

(** What the given arrays say: each instant with its price *)
Definition observed (timestamps : ndarray) (prices : scalar_array F) : list (Z * pyval F) :=
  match timestamps with
  | NotArray => []
  | NdArray _ _ values => omap (fun x => (., x.2) <$> x.1) (zip values (sc_values prices))
  end.

Definition same_item (given : Z * pyval F) (item : Z * F) : Prop := given.1 = item.1 /\ np_float given.2 = Ok item.2.

Lemma observed_items values l (vs : list (pyval F)) (xs : list F) : mapM id values = Some l -> Forall2 (fun v x => np_float v = Ok x) vs xs ->
  Forall2 same_item (omap (fun x => (., x.2) <$> x.1) (zip values vs)) (zip l xs).
Proof.
  intros Hm Hx. revert values l Hm. induction Hx as [|v x vs xs Hv _ IH]; intros values l Hm; apply mapM_Some in Hm.
  - destruct Hm; constructor.
  - destruct Hm as [|t t' values l Ht Hm]; [constructor|]. unfold id in Ht. subst t. csimpl. constructor; [by split|].
    apply IH. by apply mapM_Some.
Qed.

(** A snapshot is a grid that holds the given observations. *)
Lemma snapshot_price_series_spec timestamps prices s :
  instants_bounded timestamps -> snapshot_price_series timestamps prices = Ok s ->
  series_wf s /\ Forall2 same_item (observed timestamps prices) (items_of s).
Proof.
  unfold snapshot_price_series. destruct timestamps as [|ndim dt values]; [done|]. intros Hb Hs. inv_ok Hs.
  destruct (mapM id values) as [l|] eqn:Hm; [|done]. inv_ok Hs. destruct (np_astype_float _) as [ps|e] eqn:Hp; [|done].
  simplify_eq. bools. apply np_astype_float_each in Hp. split; [|by apply observed_items].
  apply Forall2_length in Hp. apply mapM_Some in Hm. pose proof (Forall2_length _ _ _ Hm) as Hlen.
  split; simpl; [|congruence].
  apply np_diff_sorted; [|done]. rewrite Forall_forall. intros t [k Ht]%list_elem_of_lookup.
  destruct (Forall2_lookup_r _ _ _ _ _ Hm Ht) as (x & Hx & Hid). unfold id in Hid. subst x.
  apply (Hb t). by eapply list_elem_of_lookup_2.
Qed.

(** The symbols of an adapter have snapshots. *)
Definition adapter_wf (price_dict : list (string * price_series F)) : Prop :=
  forall symbol s, dict_get price_dict symbol = Some s -> series_wf s.

(** The adapter holds a snapshot of each series it is given. *)
Lemma PriceFuncArrayDict_init_get (d : list (string * (ndarray * scalar_array F))) price_dict symbol :
  dict_wf d -> PriceFuncArrayDict_init d = Ok price_dict ->
  match dict_get d symbol with
  | Some (timestamps, prices) => exists s, snapshot_price_series timestamps prices = Ok s /\ dict_get price_dict symbol = Some s
  | None => dict_get price_dict symbol = None
  end.
Proof.
  intros Hwf Hi. unfold PriceFuncArrayDict_init in Hi.
  enough (forall acc, foldE (fun d '(symbol, (timestamps, prices)) => s ← snapshot_price_series timestamps prices; Ok (dict_set d symbol s)) acc d = Ok price_dict ->
    match dict_get d symbol with
    | Some (timestamps, prices) => exists s, snapshot_price_series timestamps prices = Ok s /\ dict_get price_dict symbol = Some s
    | None => dict_get price_dict symbol = dict_get acc symbol
    end) as Hgen by exact (Hgen [] Hi).
  clear Hi. induction d as [|[symbol' [ts ps]] d IH]; intros acc Hf; cbn [foldE dict_get] in *; [by injection Hf as ->|].
  apply bind_Ok_inv in Hf as (acc' & (s & Hs & [= <-])%bind_Ok_inv & Hf). apply NoDup_cons in Hwf as [Hn Hwf]. specialize (IH Hwf _ Hf).
  rewrite dict_get_set in IH. case_decide as Heq; [|done].
  subst symbol'. exists s. split; [done|].
  destruct (dict_get d symbol) as [[ts' ps']|] eqn:Hd; [|done]. exfalso. apply Hn. apply dict_get_Some_In in Hd.
  apply list_elem_of_fmap. by exists (symbol, (ts', ps')).
Qed.

Lemma PriceFuncArrayDict_init_wf (d : list (string * (ndarray * scalar_array F))) price_dict :
  dict_wf d -> (forall symbol timestamps prices, (symbol, (timestamps, prices)) ∈ d -> instants_bounded timestamps) ->
  PriceFuncArrayDict_init d = Ok price_dict -> adapter_wf price_dict.
Proof.
  intros Hwf Hb Hi symbol s Hs. pose proof (PriceFuncArrayDict_init_get d price_dict symbol Hwf Hi) as Hget.
  destruct (dict_get d symbol) as [[ts ps]|] eqn:Hd; [|congruence]. destruct Hget as (s' & Hs' & Hget). rewrite Hs in Hget. injection Hget as <-.
  eapply snapshot_price_series_spec; [|exact Hs']. eapply Hb. by apply dict_get_Some_In.
Qed.

(** The price that observations give at [t]: that of the instant itself or, with
    [allow_previous], of the latest instant not after it; NaN when there is none. *)
Definition price_given (given : list (Z * pyval F)) (t : Z) (allow_previous : bool) (p : F) : Prop :=
  (exists time v, (time, v) ∈ given /\ np_float v = Ok p /\
     if allow_previous then time <= t /\ forall x, x ∈ given -> x.1 <= t -> x.1 <= time else time = t) \/
  ((forall x, x ∈ given -> if allow_previous then t < x.1 else x.1 <> t) /\ p = f_nan).

Lemma last_le_spec {V} (l : list (Z * V)) t : StronglySorted Z.lt l.*1 ->
  match last_le l t with
  | Some kv => kv ∈ l /\ kv.1 <= t /\ forall x, x ∈ l -> x.1 <= t -> x.1 <= kv.1
  | None => forall x, x ∈ l -> t < x.1
  end.
Proof.
  intros Hs. unfold last_le. destruct (last _) as [kv|] eqn:Hl.
  - apply last_Some in Hl as [l' Hl]. assert (kv ∈ filter (fun kv : Z * V => kv.1 <= t) l) as Hin.
    { rewrite Hl. apply elem_of_app. right. by apply list_elem_of_singleton. }
    apply list_elem_of_filter in Hin as [Hle Hin]. split_and!; [done..|]. intros x Hx Hxt.
    assert (x ∈ l' ++ [kv]) as Hx'. { rewrite <- Hl. by apply list_elem_of_filter. }
    assert (StronglySorted Z.lt (l' ++ [kv]).*1) as Hs'.
    { rewrite <- Hl. clear -Hs. induction l as [|y l IH]; [constructor|]. apply StronglySorted_inv in Hs as [Hs Hall].
      rewrite filter_cons. case_decide; [|by apply IH]. csimpl. constructor; [by apply IH|].
      apply Forall_forall. intros z (kv' & -> & Hin')%list_elem_of_fmap. apply list_elem_of_filter in Hin' as [_ Hin'].
      rewrite Forall_forall in Hall. apply Hall. by apply list_elem_of_fmap_2. }
    apply elem_of_app in Hx' as [Hx'| ->%list_elem_of_singleton]; [|done].
    rewrite fmap_app in Hs'. apply StronglySorted_app in Hs' as (Hs' & _ & _). apply Z.lt_le_incl, Hs'; [by apply list_elem_of_fmap_2|by left].
  - apply last_None in Hl. intros x Hx. destruct (Z.ltb_spec t x.1); [done|]. exfalso.
    apply (not_elem_of_nil x). rewrite <- Hl. by apply list_elem_of_filter.
Qed.

Lemma same_items_given (given : list (Z * pyval F)) items x : Forall2 same_item given items -> x ∈ given -> exists p, (x.1, p) ∈ items /\ np_float x.2 = Ok p.
Proof.
  intros Hf [k Hk]%list_elem_of_lookup. destruct (Forall2_lookup_l _ _ _ _ _ Hf Hk) as ([t p] & Hp & Ht & Hv). simpl in *.
  exists p. rewrite Ht. split; [|done]. by eapply list_elem_of_lookup_2.
Qed.
Lemma same_items_item (given : list (Z * pyval F)) items t p : Forall2 same_item given items -> (t, p) ∈ items -> exists v, (t, v) ∈ given /\ np_float v = Ok p.
Proof.
  intros Hf [k Hk]%list_elem_of_lookup. destruct (Forall2_lookup_r _ _ _ _ _ Hf Hk) as ([t' v] & Hp & Ht & Hv). simpl in *.
  subst t'. exists v. split; [|done]. by eapply list_elem_of_lookup_2.
Qed.

Lemma price_at_given given s t allow_previous : series_wf s -> Forall2 same_item given (items_of s) ->
  price_given given t allow_previous (price_at s t allow_previous).
Proof.
  intros Hwf Hsame. pose proof Hwf as [Hs _]. rewrite <- (items_of_keys s Hwf) in Hs. unfold price_at, price_given. destruct allow_previous.
  - pose proof (last_le_spec (items_of s) t Hs) as Hl. destruct (last_le _ t) as [[time p]|]; simpl in Hl.
    + destruct Hl as (Hin & Hle & Hmax). destruct (same_items_item given _ _ _ Hsame Hin) as (v & Hv & Hp). left. exists time, v.
      split_and!; [done..|]. intros x Hx Hxt. destruct (same_items_given given _ _ Hsame Hx) as (q & Hq & _). exact (Hmax _ Hq Hxt).
    + right. split; [|done]. intros x Hx. destruct (same_items_given given _ _ Hsame Hx) as (q & Hq & _). exact (Hl _ Hq).
  - destruct (dict_get (items_of s) t) as [p|] eqn:Hp; simpl.
    + apply dict_get_Some_In in Hp. destruct (same_items_item given _ _ _ Hsame Hp) as (v & Hv & Hf). left. by exists t, v.
    + right. split; [|done]. intros x Hx Ht. destruct (same_items_given given _ _ Hsame Hx) as (q & Hq & _).
      apply dict_get_None in Hp. apply Hp. rewrite <- Ht. by apply (list_elem_of_fmap_2 fst) in Hq.
Qed.

(** Two adapters that know the same prices up to an instant. *)
Definition known (t : Z) (o : option (price_series F)) : option (list (Z * F)) :=
  (fun s => filter (fun kv => kv.1 <= t) (items_of s)) <$> o.

Definition agree_until (t : Z) (d d' : list (string * price_series F)) : Prop :=
  forall symbol, known t (dict_get d symbol) = known t (dict_get d' symbol).

(** Two sets of arrays with the same observations up to an instant. *)
Definition known_given (t : Z) (o : option (ndarray * scalar_array F)) : option (list (Z * pyval F)) :=
  (fun x => filter (fun kv => kv.1 <= t) (observed x.1 x.2)) <$> o.

Lemma filter_same_items t given items : Forall2 same_item given items ->
  Forall2 same_item (filter (fun kv => kv.1 <= t) given) (filter (fun kv => kv.1 <= t) items).
Proof.
  intros Hf. induction Hf as [|[u v] [u' p] given items [Hu Hv] _ IH]; [constructor|]. simpl in *. subst u'. rewrite !filter_cons. simpl.
  case_decide; [|done]. constructor; [by split|done].
Qed.

Lemma same_items_unique given items items' : Forall2 same_item given items -> Forall2 same_item given items' -> items = items'.
Proof.
  intros Hf. revert items'. induction Hf as [|[u v] [u' p] given items [Hu Hv] _ IH]; intros items' Hf'; inv Hf' as [|? [u'' p'] ? ? [Hu' Hv']]; [done|].
  simpl in *. f_equal; [congruence|by apply IH].
Qed.

Lemma known_agree (d d' : list (string * (ndarray * scalar_array F))) price_dict price_dict' t :
  dict_wf d -> dict_wf d' -> (forall symbol times prices, (symbol, (times, prices)) ∈ d ++ d' -> instants_bounded times) ->
  PriceFuncArrayDict_init d = Ok price_dict -> PriceFuncArrayDict_init d' = Ok price_dict' ->
  (forall symbol, known_given t (dict_get d symbol) = known_given t (dict_get d' symbol)) -> agree_until t price_dict price_dict'.
Proof.
  intros Hwf Hwf' Hb Hd Hd' Hk symbol. specialize (Hk symbol).
  pose proof (PriceFuncArrayDict_init_get d price_dict symbol Hwf Hd) as Hget.
  pose proof (PriceFuncArrayDict_init_get d' price_dict' symbol Hwf' Hd') as Hget'.
  destruct (dict_get d symbol) as [[ts ps]|] eqn:E, (dict_get d' symbol) as [[ts' ps']|] eqn:E'; try discriminate; [|by rewrite Hget, Hget'].
  destruct Hget as (s & Hs & ->), Hget' as (s' & Hs' & ->). apply dict_get_Some_In in E, E'.
  apply snapshot_price_series_spec in Hs as [_ Hs]; [|eapply Hb; apply elem_of_app; by left].
  apply snapshot_price_series_spec in Hs' as [_ Hs']; [|eapply Hb; apply elem_of_app; by right].
  unfold known_given in Hk. simpl in *. injection Hk as Hk. f_equal. apply (filter_same_items t) in Hs, Hs'. rewrite <- Hk in Hs'.
  by eapply same_items_unique.
Qed.

Lemma dict_get_until (l : list (Z * F)) t : dict_get (filter (fun kv => kv.1 <= t) l) t = dict_get l t.
Proof.
  induction l as [|[k v] l IH]; [done|]. rewrite filter_cons. simpl. repeat case_decide; simpl; try lia; try done.
  - by rewrite decide_True.
  - by rewrite decide_False.
Qed.

Lemma price_at_until s s' t allow_previous :
  filter (fun kv => kv.1 <= t) (items_of s) = filter (fun kv => kv.1 <= t) (items_of s') ->
  price_at s t allow_previous = price_at s' t allow_previous.
Proof.
  intros He. unfold price_at. destruct allow_previous.
  - unfold last_le. by rewrite He.
  - by rewrite <- (dict_get_until (items_of s)), <- (dict_get_until (items_of s')), He.
Qed.

Lemma array_price_until d d' (c : contract F) t allow_previous :
  adapter_wf d -> adapter_wf d' -> agree_until t d d' ->
  get_contract_price_from_array_dict d c t allow_previous = get_contract_price_from_array_dict d' c t allow_previous.
Proof.
  intros Hw Hw' Ha. specialize (Ha (c_symbol c)). unfold known in Ha.
  destruct (dict_get d (c_symbol c)) as [s|] eqn:Hs, (dict_get d' (c_symbol c)) as [s'|] eqn:Hs'; try done.
  - injection Ha as Ha. rewrite (array_price_correct d c s), (array_price_correct d' c s') by (try done; by eapply Hw + eapply Hw').
    f_equal. by apply price_at_until.
  - unfold get_contract_price_from_array_dict. by rewrite Hs, Hs'.
Qed.

Lemma basket_price_ext (f f' : contract F -> result F) c : (forall c, f c = f' c) -> basket_price f c = basket_price f' c.
Proof.
  intros Hf. unfold basket_price. rewrite Hf. destruct (is_basket c); [|done]. generalize (f_zero (F:=F)).
  induction (c_components c) as [|[x ratio] l IH]; intros acc; cbn [foldE]; [done|]. rewrite Hf.
  destruct (f' x); cbn; [apply IH|done].
Qed.
End InputFacts.

(** ** Properties *)

(** C28: Array price adapters never look ahead, and look up correctly.  An adapter
    built from arrays gives for a plain contract the price given for the instant,
    or with [allow_previous] the price given for the latest instant at or before it,
    NaN when there is none, and an error for a symbol that was not given; and the
    price of any contract, baskets included, is the same for two adapters built from
    arrays that agree up to the instant, whatever they say of later ones. *)
Theorem array_prices_never_look_ahead `{PyFloat F} `{!Numpy F} `{!NumpyCast F} `{!NumpyLaws F} `{!NumpyCastLaws F}
    (d d' : list (string * (ndarray * scalar_array F))) price_dict price_dict' c timestamps i t allow_previous :
  dict_wf d -> dict_wf d' -> (forall symbol times prices, (symbol, (times, prices)) ∈ d ++ d' -> instants_bounded times) ->
  PriceFuncArrayDict_init d = Ok price_dict -> PriceFuncArrayDict_init d' = Ok price_dict' ->
  timestamps !! i = Some t ->
  (is_basket c = false ->
     match dict_get d (c_symbol c) with
     | Some (times, prices) => exists p, PriceFuncArrays_call price_dict allow_previous c timestamps i = Ok p /\
         price_given (observed times prices) t allow_previous p
     | None => PriceFuncArrays_call price_dict allow_previous c timestamps i = Err (PQException "symbol not found in price_dict")
     end) /\
  ((forall symbol, known_given t (dict_get d symbol) = known_given t (dict_get d' symbol)) ->
     PriceFuncArrays_call price_dict allow_previous c timestamps i = PriceFuncArrays_call price_dict' allow_previous c timestamps i).
Proof.
  intros Hwf Hwf' Hb Hd Hd' Ht. pose proof (known_agree d d' _ _ t Hwf Hwf' Hb Hd Hd') as Hknown.
  pose proof (PriceFuncArrayDict_init_get d price_dict (c_symbol c) Hwf Hd) as Hget.
  apply PriceFuncArrayDict_init_wf in Hd; [|done|intros ? ? ? ?; eapply Hb; apply elem_of_app; by left].
  apply PriceFuncArrayDict_init_wf in Hd'; [|done|intros ? ? ? ?; eapply Hb; apply elem_of_app; by right].
  unfold PriceFuncArrays_call, timestamp_at. rewrite Ht. cbn [mbind result_bind]. split.
  - intros Hc. unfold basket_price. rewrite Hc. destruct (dict_get d (c_symbol c)) as [[times prices]|] eqn:E.
    + destruct Hget as (s & Hs & Hget). apply dict_get_Some_In in E.
      apply snapshot_price_series_spec in Hs as [Hs Hsame]; [|eapply Hb; apply elem_of_app; by left].
      exists (price_at s t allow_previous). split; [by apply array_price_correct|by apply price_at_given].
    + unfold get_contract_price_from_array_dict. by rewrite Hget.
  - intros Hk%Hknown. apply basket_price_ext. intros c'. by apply array_price_until.
Qed.

(** ** Witness *)

#[export] Instance ref_numpy_cast `{PyFloat F} : NumpyCast F := {|
  np_float := py_float;
  np_astype_float := fun l => foldE (fun acc v => x ← py_float v; Ok (acc ++ [x])) [] l;
  np_unique_str := remove_dups;
|}.

#[export] Instance ref_numpy_cast_laws `{PyFloat F} : NumpyCastLaws F.
Proof.
  split; [|done|intros l; apply NoDup_remove_dups|intros l x; apply elem_of_remove_dups].
  intros l l' Hl. enough (forall (l : list (pyval F)) acc r, foldE (fun acc v => x ← py_float v; Ok (acc ++ [x])) acc l = Ok r ->
    exists r', r = acc ++ r' /\ Forall2 (fun v x => py_float v = Ok x) l r') as Hgen by (by apply Hgen in Hl as (r' & -> & Hl)).
  clear. induction l as [|v l IH]; intros acc r; cbn [foldE]; [intros [= <-]; exists []; by rewrite app_nil_r|].
  intros (acc' & Ha & Hr)%bind_Ok_inv. apply bind_Ok_inv in Ha as (x & Hx & [= <-]). apply IH in Hr as (r' & -> & Hr).
  exists (x :: r'). rewrite <- app_assoc. split; [done|by constructor].
Qed.

(** Two series of "ES" that differ after the second instant only. *)
Definition demo_series (last : Z) : list (string * (ndarray * scalar_array spec_float)) :=
  [("ES"%string, (NdArray 1 true [Some 1; Some 2; Some 4], ScalarArray 1 [PInt 100; PInt 101; PInt last]))].

Definition demo_adapter (last : Z) : list (string * price_series spec_float) :=
  match PriceFuncArrayDict_init (demo_series last) with Ok d => d | Err _ => [] end.

Lemma array_prices_never_look_ahead_witness :
  PriceFuncArrays_call (demo_adapter 102) true (demo_contract 2 "ES") [1; 2; 3; 4] 2 =
    PriceFuncArrays_call (demo_adapter 999) true (demo_contract 2 "ES") [1; 2; 3; 4] 2 /\
  PriceFuncArrays_call (demo_adapter 102) true (demo_contract 2 "ES") [1; 2; 3; 4] 2 = Ok (f_of_Z 101).
Proof.
  split; [|vm_compute; reflexivity].
  refine (proj2 (array_prices_never_look_ahead (demo_series 102) (demo_series 999) (demo_adapter 102) (demo_adapter 999)
    (demo_contract 2 "ES") [1; 2; 3; 4] 2 3 true _ _ _ _ _ _) _).
  1-2: exact (NoDup_singleton "ES"%string).
  - intros symbol times prices Hin. apply list_elem_of_In in Hin. simpl in Hin.
    destruct Hin as [[= <- <- <-]|[[= <- <- <-]|[]]]; intros t Ht; apply list_elem_of_In in Ht; simpl in Ht;
      destruct Ht as [[= <-]|[[= <-]|[[= <-]|[]]]]; lia.
  - vm_compute. reflexivity.
  - vm_compute. reflexivity.
  - reflexivity.
  - intros symbol. destruct (decide (symbol = "ES"%string)) as [->|Hne]; [vm_compute; reflexivity|].
    unfold demo_series. cbn [dict_get]. by rewrite !decide_False.
Defined.
