(* ===== verification/Costs.v ===== *)
(** * Slippage, impact and charges: [execution_costs.py]

    A slippage model is a function of the order and the market price, a charge
    model one of the order and the execution price.  The frozen configurations
    are checked when they are built. *)

From S2P Require Import Prelude Numeric Vendor Boundaries Instruments Contracts Orders.
From Stdlib Require Import SpecFloat QArith Qcanon Lqa.

Open Scope Z_scope.

Section Costs.
Context `{PyFloat F}.

(** [SlippageModel] and [ChargeModel]: they read the order. *)
Definition SlippageModel : Type := raw_order F -> F -> result F.
Definition ChargeModel : Type := raw_order F -> F -> result F.

(** [float(value)] of any number, booleans included. *)
Definition num_float (v : pyval F) : result F :=
  match v with
  | PBool b | PNpBool b => Ok (f_of_Z (if b then 1 else 0))
  | _ => py_float v
  end.

(** [math.copysign(x, order.qty)] *)
Definition copysign_qty (x : F) (o : raw_order F) : result F :=
  q ← num_float (r_qty o); Ok (f_copysign x (f_signbit q)).

Definition nonnegative_finite (x : F) (message : string) : result unit :=
  unless f_isfinite x && negb (f_ltb x f_zero) raise ValueError message ;; Ok tt.

(** [FixedPercentageSlippage] *)
Definition FixedPercentageSlippage_post_init (percentage : F) : result unit :=
  nonnegative_finite percentage "slippage percentage must be finite and non-negative".
Definition FixedPercentageSlippage_adjustment (percentage : F) : SlippageModel := fun o raw_price =>
  copysign_qty (f_mul (f_abs raw_price) percentage) o.

(** [BidAskSpreadSlippage] *)
Definition BidAskSpreadSlippage_post_init (spread : F) : result unit :=
  nonnegative_finite spread "spread must be finite and non-negative".
Definition BidAskSpreadSlippage_adjustment (spread : F) : SlippageModel := fun o _ =>
  copysign_qty (f_div spread (f_of_Z 2)) o.

(** [SquareRootMarketImpact] *)
Record SquareRootMarketImpact := mkImpact { im_available_volume : F; im_volatility : F; im_coefficient : F }.

Definition SquareRootMarketImpact_post_init (m : SquareRootMarketImpact) : result unit :=
  unless f_isfinite (im_available_volume m) && f_isfinite (im_volatility m) && f_isfinite (im_coefficient m)
    raise ValueError "market-impact inputs must be finite" ;;
  whenever f_leb (im_available_volume m) f_zero || f_ltb (im_volatility m) f_zero || f_ltb (im_coefficient m) f_zero
    raise ValueError "volume must be positive; volatility and coefficient must be non-negative" ;;
  Ok tt.

Definition SquareRootMarketImpact_adjustment `{!PySqrt F} (m : SquareRootMarketImpact) : SlippageModel := fun o raw_price =>
  q ← num_float (r_qty o);
  let participation := f_div (f_abs q) (im_available_volume m) in
  let impact_fraction := f_mul (f_mul (im_coefficient m) (im_volatility m)) (f_sqrt participation) in
  copysign_qty (f_mul (f_abs raw_price) impact_fraction) o.

(** [PerUnitCharge], [PerOrderCharge] and [NotionalCharge] *)
Definition PerUnitCharge_post_init (amount : F) : result unit :=
  nonnegative_finite amount "per-unit charge must be finite and non-negative".
Definition PerUnitCharge_charge (amount : F) : ChargeModel := fun o _ =>
  q ← num_float (r_qty o); Ok (f_mul amount (f_abs q)).

Definition PerOrderCharge_post_init (amount : F) : result unit :=
  nonnegative_finite amount "per-order charge must be finite and non-negative".
Definition PerOrderCharge_charge (amount : F) : ChargeModel := fun _ _ => Ok amount.

Definition NotionalCharge_post_init (rate : F) : result unit :=
  nonnegative_finite rate "notional charge rate must be finite and non-negative".
Definition NotionalCharge_charge (rate : F) : ChargeModel := fun o execution_price =>
  q ← num_float (r_qty o);
  match r_contract o with
  | NotInst => Err (AttributeError "multiplier")
  | Inst c => Ok (f_mul rate (f_abs (f_mul (f_mul q execution_price) (c_multiplier c))))
  end.
End Costs.

Arguments SquareRootMarketImpact F : clear implicits.
Arguments SlippageModel F : clear implicits.
Arguments ChargeModel F : clear implicits.

(** ** In exact arithmetic *)

Section Exact.
Open Scope Qc_scope.

Lemma num_float_exact (v : pyval XQ) q : py_int v = Some q -> num_float v = Ok (Some (zq q)).
Proof.
  assert (forall x : Qc, whole_float (Some x : XQ) = Some q -> x = zq q) as Hw.
  { intros x. unfold whole_float. simpl. destruct (Qden x) eqn:E; try done. intros [= <-]. apply Qc_is_canon.
    unfold zq. cbn [this Q2Qc]. rewrite Qred_correct. unfold Qeq, inject_Z. simpl. rewrite E, Z.quot_1_r. lia. }
  destruct v as [|b|b|z|[x|]|z|[x|]|s|i]; cbn [py_int]; try done; try (by intros [= <-]); intros ->%Hw; done.
Qed.

(** A whole quantity gives its sign to the adjustment. *)
Lemma copysign_exact (x : Qc) (o : raw_order XQ) q : py_int (r_qty o) = Some q ->
  copysign_qty (Some x) o = Ok (Some (if (q <? 0)%Z then - qabs x else qabs x)).
Proof.
  intros Hq. unfold copysign_qty. rewrite (num_float_exact _ _ Hq). cbn [mbind result_bind]. unfold f_copysign. simpl.
  assert (Exact.qltb (zq q) 0 = (q <? 0)%Z) as ->.
  { apply eq_true_iff_eq. rewrite qltb_lt, Z.ltb_lt. unfold Qclt, zq. simpl. rewrite Qred_correct. unfold Qlt. simpl. lia. }
  by destruct (q <? 0)%Z.
Qed.

Lemma qabs_nonneg' x : 0 <= qabs x.
Proof. destruct (qabs_cases x) as [[-> ?]|[-> ?]]; [done|]. to_Q. lra. Qed.

(** Slippage works against the order: a buy pays at least the market price, a sell
    gets at most the market price. *)
Definition adverse (o : raw_order XQ) (raw_price adjusted : Qc) : Prop :=
  forall q, py_int (r_qty o) = Some q -> if (q <? 0)%Z then adjusted <= raw_price else raw_price <= adjusted.

Lemma copysign_adverse (x raw_price : Qc) (o : raw_order XQ) q a :
  py_int (r_qty o) = Some q -> copysign_qty (Some x) o = Ok (Some a) -> adverse o raw_price (raw_price + a).
Proof.
  intros Hq Ha q' Hq'. rewrite Hq in Hq'. injection Hq' as <-. rewrite (copysign_exact x o q Hq) in Ha. injection Ha as <-.
  pose proof (qabs_nonneg' x) as Hn. destruct (q <? 0)%Z; revert Hn; generalize (qabs x); intros y Hn; to_Q; lra.
Qed.
End Exact.
