(* ===== verification/Roundtrip.v ===== *)
(** * Reconciliation into round-trip trades: [trade_reconciliation.py]

    Working copies of the trades are netted first-in first-out per symbol; every
    match yields a closed round trip, what remains on the stacks an open one.
    The [while True] loop runs on fuel, which is proved to suffice. *)

From S2P Require Import Prelude Numeric Vendor Instruments Contracts Orders Fifo.
From Stdlib Require Import Qcanon SpecFloat.

Open Scope Z_scope.

Section Roundtrip.
Context `{PyFloat F}.

(** [pq_types.RoundTripTrade]; an open one has no exit. *)
Record RoundTripTrade := mkRoundTrip {
  rt_contract : contract F;
  rt_entry_order : raw_order F;
  rt_exit_order : option (raw_order F);
  rt_entry_timestamp : Z;
  rt_exit_timestamp : option Z;
  rt_qty : Z;
  rt_entry_price : F;
  rt_exit_price : F;
  rt_entry_reason : option string;
  rt_exit_reason : option string;
  rt_entry_commission : F;
  rt_exit_commission : F;
  rt_entry_properties : ns F;
  rt_exit_properties : ns F;
  rt_net_pnl : F;
}.

(** The working copy of a trade with another quantity and commission. *)
Definition with_remaining (t : trade F) (qty : Z) (commission : F) : trade F :=
  Trade (t_contract t) (t_order t) (t_timestamp t) qty (t_price t) (t_fee t) commission (t_properties t).

(** [abs(a / b)] of integers *)
Definition fraction (a b : Z) : F := f_abs (f_div (f_of_Z a) (f_of_Z b)).

(** [_net_trade(stack, trade)]: the stack and the trade after it, and the round
    trip it returns. *)
Definition net_trade_rt (stack : list (trade F)) (t : trade F)
  : result (list (trade F) * trade F * option RoundTripTrade) :=
  match stack with
  | [] => Ok ([t], t, None)
  | entry :: rest =>
      if Z.sgn (t_qty t) =? Z.sgn (t_qty entry) then Ok (stack ++ [t], t, None)
      else
        let qty := Z.min (Z.abs (t_qty entry)) (Z.abs (t_qty t)) * Z.sgn (t_qty entry) in
        whenever (t_qty entry =? 0) || (t_qty t =? 0) raise ZeroDivisionError "division by zero" ;;
        let entry_fraction := fraction qty (t_qty entry) in
        let exit_fraction := fraction qty (t_qty t) in
        let pnl := f_sub (f_sub
          (f_mul (f_mul (f_of_Z qty) (f_sub (t_price t) (t_price entry))) (c_multiplier (t_contract entry)))
          (f_mul (t_commission t) exit_fraction))
          (f_mul (t_commission entry) entry_fraction) in
        let roundtrip := mkRoundTrip (t_contract entry) (t_order entry) (Some (t_order t))
          (t_timestamp entry) (Some (t_timestamp t)) qty (t_price entry) (t_price t)
          (Some (r_reason_code (t_order entry))) (Some (r_reason_code (t_order t)))
          (f_mul (t_commission entry) entry_fraction) (f_mul (t_commission t) exit_fraction)
          (t_properties entry) (t_properties t) pnl in
        let residual := t_qty entry - qty in
        let entry := with_remaining entry (t_qty entry - qty)
                       (f_mul (t_commission entry) (f_sub f_one entry_fraction)) in
        let t := with_remaining t (t_qty t + qty) (f_mul (t_commission t) (f_sub f_one exit_fraction)) in
        Ok (if residual =? 0 then rest else entry :: rest, t, Some roundtrip)
  end.

(** The [while True] loop of one trade. *)
Fixpoint reconcile_trade (fuel : nat) (stack : list (trade F)) (t : trade F) (reconciled : list RoundTripTrade)
  : result (list (trade F) * list RoundTripTrade) :=
  match fuel with
  | O => Err OutOfFuel
  | S fuel =>
      '(stack, t, roundtrip) ← net_trade_rt stack t;
      match roundtrip with
      | None => Ok (stack, reconciled)
      | Some r =>
          if t_qty t =? 0 then Ok (stack, reconciled ++ [r])
          else reconcile_trade fuel stack t (reconciled ++ [r])
      end
  end.

(** The working copies: the properties gain the attribute [index]. *)
Definition working_trade (index : nat) (t : trade F) : trade F :=
  Trade (t_contract t) (t_order t) (t_timestamp t) (t_qty t) (t_price t) (t_fee t) (t_commission t)
    (dict_set (t_properties t) "index"%string (PInt (Z.of_nat index))).

Definition index_of (p : ns F) : Z :=
  match dict_get p "index"%string with Some (PInt z) => z | _ => 0 end.

Abbreviation stacks := (list (string * list (trade F))).

Definition reconcile_step (st : stacks * list RoundTripTrade) (t : trade F) : result (stacks * list RoundTripTrade) :=
  let stack := default [] (dict_get st.1 (c_symbol (t_contract t))) in
  '(stack, reconciled) ← reconcile_trade (S (length stack)) stack t st.2;
  Ok (dict_set st.1 (c_symbol (t_contract t)) stack, reconciled).

Definition open_roundtrip (t : trade F) : RoundTripTrade :=
  mkRoundTrip (t_contract t) (t_order t) None (t_timestamp t) None (t_qty t) (t_price t) f_nan
    (Some (r_reason_code (t_order t))) None (t_commission t) f_nan (t_properties t) [] f_zero.

(** The final relabelling: [entry_index] keeps the source index. *)
Definition relabel (index : nat) (r : RoundTripTrade) : RoundTripTrade :=
  let p := rt_entry_properties r in
  let p := dict_set p "entry_index"%string (PInt (index_of p)) in
  let p := dict_set p "index"%string (PInt (Z.of_nat index)) in
  mkRoundTrip (rt_contract r) (rt_entry_order r) (rt_exit_order r) (rt_entry_timestamp r)
    (rt_exit_timestamp r) (rt_qty r) (rt_entry_price r) (rt_exit_price r) (rt_entry_reason r)
    (rt_exit_reason r) (rt_entry_commission r) (rt_exit_commission r) p (rt_exit_properties r) (rt_net_pnl r).

(** [roundtrip_trades] *)
Definition roundtrip_trades (trades : list (trade F)) : result (list RoundTripTrade) :=
  let working := imap working_trade trades in
  '(stacks, reconciled) ← foldE reconcile_step ([], []) working;
  let opens := open_roundtrip <$> concat (dict_values stacks) in
  let sorted := sorted_by (fun r => index_of (rt_entry_properties r)) (reconciled ++ opens) in
  Ok (imap relabel sorted).
End Roundtrip.

Arguments RoundTripTrade F : clear implicits.

(** The doctest of [roundtrip_trades]. *)
Definition doctest_trades : list (trade spec_float) :=
  zip_with (fun q p => demo_trade (Contract 2 "AAPL" DEFAULT_CG None (f_of_Z 1) [] [] default_InstrumentSpec) 0 q p)
    [100; -50; 20; -120; 10] [9; 10; 8; 11; 12].

Example roundtrip_trades_doctest :
  match roundtrip_trades doctest_trades with
  | Ok rts => Ok (map (fun r : RoundTripTrade spec_float => (rt_qty r, rt_entry_price r)) rts)
  | Err e => Err e
  end = Ok [(50, f_of_Z 9); (50, f_of_Z 9); (20, f_of_Z 8); (-10, f_of_Z 11); (-40, f_of_Z 11)].
Proof. vm_compute. reflexivity. Qed.

(** ** Netting terminates and agrees with [fifo] *)

Section Netting.
Context `{PyFloat F}.
Implicit Types (t : trade F) (stack : list (trade F)).

(** The open lot a trade on the stack stands for. *)
Definition trade_lot t : lot F := Lot (t_qty t) (t_price t).

(** [q] units of [entry], closed by [t]: the round trip *)
Record matched (entry : trade F) t (q : Z) (r : RoundTripTrade F) : Prop := Matched {
  mt_qty : rt_qty r = q;
  mt_contract : rt_contract r = t_contract entry;
  mt_entry_order : rt_entry_order r = t_order entry;
  mt_entry_timestamp : rt_entry_timestamp r = t_timestamp entry;
  mt_entry_price : rt_entry_price r = t_price entry;
  mt_entry_properties : rt_entry_properties r = t_properties entry;
  mt_exit_order : rt_exit_order r = Some (t_order t);
  mt_exit_timestamp : rt_exit_timestamp r = Some (t_timestamp t);
  mt_exit_price : rt_exit_price r = t_price t;
  mt_exit_properties : rt_exit_properties r = t_properties t;
}.

Definition opposite (entry : trade F) t : Prop := t_qty entry <> 0 /\ t_qty t <> 0 /\ Z.sgn (t_qty t) <> Z.sgn (t_qty entry).

(** What netting [t] against a stack does: it joins the stack when its side is the same,
    and otherwise closes the front, as many units as both have, until it is used up. *)
Inductive nets : list (trade F) -> trade F -> list (trade F) -> list (RoundTripTrade F) -> Prop :=
  | nets_push stack t :
      match stack with [] => True | entry :: _ => Z.sgn (t_qty t) = Z.sgn (t_qty entry) end -> nets stack t (stack ++ [t]) []
  | nets_part entry rest t r c :
      opposite entry t -> Z.abs (t_qty t) < Z.abs (t_qty entry) -> matched entry t (- t_qty t) r ->
      nets (entry :: rest) t (with_remaining entry (t_qty entry + t_qty t) c :: rest) [r]
  | nets_exact entry rest t r :
      opposite entry t -> Z.abs (t_qty t) = Z.abs (t_qty entry) -> matched entry t (t_qty entry) r -> nets (entry :: rest) t rest [r]
  | nets_whole entry rest t r c stack new :
      opposite entry t -> Z.abs (t_qty entry) < Z.abs (t_qty t) -> matched entry t (t_qty entry) r ->
      nets rest (with_remaining t (t_qty t + t_qty entry) c) stack new -> nets (entry :: rest) t stack (r :: new).

Lemma net_trade_rt_match entry rest t : opposite entry t ->
  let q := if Z.abs (t_qty entry) <=? Z.abs (t_qty t) then t_qty entry else - t_qty t in
  exists c c' r, matched entry t q r /\
    net_trade_rt (entry :: rest) t = Ok (if Z.abs (t_qty entry) <=? Z.abs (t_qty t) then rest else with_remaining entry (t_qty entry - q) c :: rest,
      with_remaining t (t_qty t + q) c', Some r).
Proof.
  intros (He & Ht & Hs) q0. unfold net_trade_rt. rewrite (proj2 (Z.eqb_neq _ _)) by done.
  rewrite (proj2 (Z.eqb_neq (t_qty entry) 0)), (proj2 (Z.eqb_neq (t_qty t) 0)) by done. simpl.
  set (q := Z.min (Z.abs (t_qty entry)) (Z.abs (t_qty t)) * Z.sgn (t_qty entry)).
  assert (q = q0) as ->.
  { unfold q, q0. destruct (Z.leb_spec (Z.abs (t_qty entry)) (Z.abs (t_qty t))).
    - rewrite Z.min_l by done. apply Z.abs_sgn.
    - rewrite Z.min_r by lia. destruct (Z.sgn_spec (t_qty entry)) as [[? ->]|[[? ->]|[? ->]]],
        (Z.sgn_spec (t_qty t)) as [[? ?]|[[? ?]|[? ?]]]; lia. }
  assert ((t_qty entry - q0 =? 0) = (Z.abs (t_qty entry) <=? Z.abs (t_qty t))) as ->.
  { unfold q0. destruct (Z.leb_spec (Z.abs (t_qty entry)) (Z.abs (t_qty t))).
    - rewrite Z.sub_diag. done.
    - apply Z.eqb_neq. lia. }
  do 3 eexists. split; [|reflexivity]. by split.
Qed.

(** The loop ends, having netted the trade. *)
Lemma reconcile_trade_nets stack t acc fuel :
  Forall (fun t => t_qty t <> 0) stack -> t_qty t <> 0 -> (length stack < fuel)%nat ->
  exists stack' new, reconcile_trade fuel stack t acc = Ok (stack', acc ++ new) /\ nets stack t stack' new.
Proof.
  revert stack t acc. induction fuel as [|fuel IH]; intros stack t acc Hst Ht Hf; [lia|]. destruct stack as [|entry rest].
  { exists [t], []. rewrite app_nil_r. split; [done|]. by apply (nets_push []). }
  apply Forall_cons in Hst as [He Hst]. cbn [reconcile_trade].
  destruct (Z.eqb_spec (Z.sgn (t_qty t)) (Z.sgn (t_qty entry))) as [Hs|Hs].
  { exists ((entry :: rest) ++ [t]), []. unfold net_trade_rt. rewrite (proj2 (Z.eqb_eq _ _)) by done.
    rewrite app_nil_r. split; [done|by apply nets_push]. }
  assert (opposite entry t) as Hop by done. destruct (net_trade_rt_match entry rest t Hop) as (c & c' & r & Hr & Hn).
  rewrite Hn. clear Hn. cbn [mbind result_bind]. cbn [t_qty with_remaining].
  destruct (Z.leb_spec (Z.abs (t_qty entry)) (Z.abs (t_qty t))) as [Hle|Hgt].
  - destruct (Z.eqb_spec (t_qty t + t_qty entry) 0) as [Hz|Hz].
    + exists rest, [r]. split; [done|]. apply nets_exact; [done|lia|done].
    + edestruct (IH rest (with_remaining t (t_qty t + t_qty entry) c') (acc ++ [r])) as (stack' & new & H1 & H2); [done|done|simpl in *; lia|].
      exists stack', (r :: new). rewrite <- app_assoc in H1. split; [exact H1|]. eapply nets_whole; [done| |done|exact H2].
      destruct Hop as (? & ? & ?). lia.
  - rewrite Z.add_opp_diag_r, Z.sub_opp_r. simpl. eexists _, [r]. split; [done|]. by apply nets_part.
Qed.

Lemma absorb_front q (p : F) entry rest a :
  absorb q p (trade_lot <$> entry :: rest) a =
    if Z.sgn q =? Z.sgn (t_qty entry) then ((trade_lot <$> entry :: rest) ++ [Lot q p], a)
    else if Z.abs (t_qty entry) <=? Z.abs q then
      let a := f_add a (f_mul (f_of_Z (t_qty entry)) (f_sub p (t_price entry))) in
      if q + t_qty entry =? 0 then (trade_lot <$> rest, a) else absorb (q + t_qty entry) p (trade_lot <$> rest) a
    else (Lot (t_qty entry + q) (t_price entry) :: (trade_lot <$> rest), f_add a (f_mul (f_of_Z (- q)) (f_sub p (t_price entry)))).
Proof. reflexivity. Qed.

(** The queue that is left is the one [absorb] leaves. *)
Lemma nets_absorb stack t stack' new a : nets stack t stack' new ->
  trade_lot <$> stack' = (absorb (t_qty t) (t_price t) (trade_lot <$> stack) a).1.
Proof.
  intros Hn. revert a. induction Hn as [stack t Hs|entry rest t r c Hop Hlt Hr|entry rest t r Hop Heq Hr|entry rest t r c stack new Hop Hlt Hr Hn IH]; intros a.
  - rewrite fmap_app. destruct stack as [|entry rest]; [done|]. rewrite absorb_front. by rewrite (proj2 (Z.eqb_eq _ _)).
  - destruct Hop as (? & ? & Hs). rewrite absorb_front, (proj2 (Z.eqb_neq _ _)) by done. by rewrite (proj2 (Z.leb_gt _ _)).
  - destruct Hop as (? & ? & Hs). rewrite absorb_front, (proj2 (Z.eqb_neq _ _)) by done.
    rewrite (proj2 (Z.leb_le _ _)) by lia. by rewrite (proj2 (Z.eqb_eq (t_qty t + t_qty entry) 0)) by lia.
  - destruct Hop as (? & ? & Hs). rewrite absorb_front, (proj2 (Z.eqb_neq _ _)) by done.
    rewrite (proj2 (Z.leb_le _ _)) by lia. rewrite (proj2 (Z.eqb_neq (t_qty t + t_qty entry) 0)) by lia. apply IH.
Qed.

(** A property of trades that netting keeps: any that ignores commissions and survives
    giving up units on the same side. *)
Lemma nets_keep (P : trade F -> Prop) stack t stack' new :
  (forall t q c, P t -> q <> 0 -> Z.sgn q = Z.sgn (t_qty t) -> P (with_remaining t q c)) ->
  nets stack t stack' new -> Forall P stack -> P t -> Forall P stack'.
Proof.
  intros HP Hn. induction Hn as [stack t Hs|entry rest t r c Hop Hlt Hr|entry rest t r Hop Heq Hr|entry rest t r c stack new Hop Hlt Hr Hn IH];
    intros Hst Ht; [apply Forall_app; by rewrite Forall_singleton|..]; apply Forall_cons in Hst as [He Hst]; destruct Hop as (? & ? & ?).
  - constructor; [|done]. apply HP; [done|lia..].
  - done.
  - apply IH; [done|]. apply HP; [done|lia..].
Qed.
End Netting.

(** ** Every traded unit is accounted for once *)

Section Balance.
Context `{PyFloat F}.
Implicit Types (t : trade F) (stack : list (trade F)) (r : RoundTripTrade F).

(** The units of [q] that are trade [i]'s: held on a stack, entered in a round trip,
    exited in one. *)
Definition share (i : Z) (p : ns F) (q : Z) : Z := if index_of p =? i then Z.abs q else 0.
Definition held (i : Z) t : Z := share i (t_properties t) (t_qty t).
Definition opened (i : Z) r : Z := share i (rt_entry_properties r) (rt_qty r).
Definition closed (i : Z) r : Z :=
  match rt_exit_order r with Some _ => share i (rt_exit_properties r) (rt_qty r) | None => 0 end.

Definition sum_by {A} (f : A -> Z) (l : list A) : Z := sumZ (f <$> l).

Lemma sum_by_app {A} (f : A -> Z) l1 l2 : sum_by f (l1 ++ l2) = sum_by f l1 + sum_by f l2.
Proof. unfold sum_by. by rewrite fmap_app, sumZ_app. Qed.
Lemma sum_by_cons {A} (f : A -> Z) x l : sum_by f (x :: l) = f x + sum_by f l.
Proof. done. Qed.
Lemma sum_by_nil {A} (f : A -> Z) : sum_by f [] = 0.
Proof. done. Qed.
Lemma sum_by_perm {A} (f : A -> Z) l1 l2 : l1 ≡ₚ l2 -> sum_by f l1 = sum_by f l2.
Proof. intros Hp. unfold sum_by. by rewrite Hp. Qed.
Lemma sum_by_ext {A} (f g : A -> Z) l : (forall x, x ∈ l -> f x = g x) -> sum_by f l = sum_by g l.
Proof.
  induction l as [|x l IH]; intros Hfg; [done|]. rewrite !sum_by_cons, IH by set_solver.
  rewrite Hfg by set_solver. done.
Qed.

(** Units are neither made nor lost: those of the stack and of the trade are held,
    opened or closed. *)
Lemma nets_units i stack t stack' new : nets stack t stack' new ->
  sum_by (held i) stack' + sum_by (opened i) new + sum_by (closed i) new = sum_by (held i) stack + held i t.
Proof.
  induction 1 as [stack t Hs|entry rest t r c Hop Hlt Hr|entry rest t r Hop Heq Hr|entry rest t r c stack new Hop Hlt Hr Hn IH].
  - rewrite sum_by_app, sum_by_cons, !sum_by_nil. lia.
  - rewrite !sum_by_cons, !sum_by_nil. unfold held, opened, closed. simpl. destruct Hop as (? & ? & ?).
    rewrite (mt_exit_order _ _ _ _ Hr), (mt_qty _ _ _ _ Hr), (mt_entry_properties _ _ _ _ Hr), (mt_exit_properties _ _ _ _ Hr).
    unfold share. repeat case_match; lia.
  - rewrite !sum_by_cons, !sum_by_nil. unfold held, opened, closed. destruct Hop as (? & ? & ?).
    rewrite (mt_exit_order _ _ _ _ Hr), (mt_qty _ _ _ _ Hr), (mt_entry_properties _ _ _ _ Hr), (mt_exit_properties _ _ _ _ Hr).
    unfold share. repeat case_match; lia.
  - rewrite !sum_by_cons. assert (held i t + held i entry = held i (with_remaining t (t_qty t + t_qty entry) c) + opened i r + closed i r); [|lia].
    unfold held, opened, closed. simpl. destruct Hop as (? & ? & ?).
    rewrite (mt_exit_order _ _ _ _ Hr), (mt_qty _ _ _ _ Hr), (mt_entry_properties _ _ _ _ Hr), (mt_exit_properties _ _ _ _ Hr).
    unfold share. repeat case_match; lia.
Qed.

(** [t] is what is left of the [i]-th trade of [l]. *)
Record left_of (l : list (trade F)) (i : nat) t (w : trade F) : Prop := LeftOf {
  lo_lookup : l !! i = Some w;
  lo_index : index_of (t_properties t) = Z.of_nat i;
  lo_contract : t_contract t = t_contract w;
  lo_order : t_order t = t_order w;
  lo_timestamp : t_timestamp t = t_timestamp w;
  lo_price : t_price t = t_price w;
  lo_side : Z.sgn (t_qty t) = Z.sgn (t_qty w);
}.

Lemma left_of_remaining l i t w q c : left_of l i t w -> Z.sgn q = Z.sgn (t_qty t) -> left_of l i (with_remaining t q c) w.
Proof. intros [] Hq. split; simpl; congruence. Qed.

(** The round trip of the entry [w] *)
Record entered_by (i : nat) (w : trade F) r : Prop := EnteredBy {
  eb_index : index_of (rt_entry_properties r) = Z.of_nat i;
  eb_contract : rt_contract r = t_contract w;
  eb_order : rt_entry_order r = t_order w;
  eb_timestamp : rt_entry_timestamp r = t_timestamp w;
  eb_price : rt_entry_price r = t_price w;
  eb_side : Z.sgn (rt_qty r) = Z.sgn (t_qty w);
}.

(** The exit [w] of the round trip *)
Record exited_by (j : nat) (w : trade F) r : Prop := ExitedBy {
  xb_index : index_of (rt_exit_properties r) = Z.of_nat j;
  xb_symbol : c_symbol (rt_contract r) = c_symbol (t_contract w);
  xb_order : rt_exit_order r = Some (t_order w);
  xb_timestamp : rt_exit_timestamp r = Some (t_timestamp w);
  xb_price : rt_exit_price r = t_price w;
  xb_side : Z.sgn (rt_qty r) = - Z.sgn (t_qty w);
}.

(** A closed round trip goes from one trade of [l] to a later one of the other side. *)
Definition linked (l : list (trade F)) r : Prop := exists i j w u,
  l !! i = Some w /\ l !! j = Some u /\ (i < j)%nat /\ entered_by i w r /\ exited_by j u r.

(** What can be on a stack of [s] before the [n]-th trade *)
Definition earlier (l : list (trade F)) (n : nat) s t : Prop :=
  c_symbol (t_contract t) = s /\ t_qty t <> 0 /\ exists i w, (i < n)%nat /\ left_of l i t w.

Lemma matched_linked l n s entry t q r u : earlier l n s entry -> left_of l n t u -> c_symbol (t_contract t) = s ->
  matched entry t q r -> Z.sgn q = Z.sgn (t_qty entry) -> Z.sgn q = - Z.sgn (t_qty t) -> linked l r.
Proof.
  intros (Hs & _ & i & w & Hi & [E1 E2 E3 E4 E5 E6 E7]) [T1 T2 T3 T4 T5 T6 T7] Ht [M1 M2 M3 M4 M5 M6 M7 M8 M9 M10] Hq Hq'.
  exists i, n, w, u. split; [done|]. split; [done|]. split; [done|]. split; split; congruence.
Qed.

Lemma nets_linked l n s stack t stack' new u : nets stack t stack' new ->
  Forall (earlier l n s) stack -> left_of l n t u -> c_symbol (t_contract t) = s -> Forall (linked l) new.
Proof.
  induction 1 as [stack t Hs|entry rest t r c Hop Hlt Hr|entry rest t r Hop Heq Hr|entry rest t r c stack new Hop Hlt Hr Hn IH];
    intros Hst Ht Hsym; [constructor|..]; apply Forall_cons in Hst as [He Hst]; destruct Hop as (? & ? & ?).
  - constructor; [|done]. eapply matched_linked; [done..| |]; lia.
  - constructor; [|done]. eapply matched_linked; [done..| |]; lia.
  - constructor; [eapply matched_linked; [done..| |]; lia|]. apply IH; [done| |done]. apply left_of_remaining; [done|lia].
Qed.

(** Replacing one stack of the dictionary. *)
Lemma stacks_set_sum (f : trade F -> Z) (d : list (string * list (trade F))) s stack :
  sum_by f (concat (dict_values (dict_set d s stack))) + sum_by f (default [] (dict_get d s))
  = sum_by f (concat (dict_values d)) + sum_by f stack.
Proof.
  unfold dict_values. induction d as [|[s' st] d IH]; csimpl.
  { rewrite app_nil_r, sum_by_nil. lia. }
  destruct (decide (s = s')) as [->|Hne]; csimpl.
  - rewrite !sum_by_app. lia.
  - rewrite !sum_by_app. lia.
Qed.

(** The state of the reconciliation of [l] after its first [n] trades. *)
Record reconciled_inv (l : list (trade F)) (n : nat) (st : list (string * list (trade F)) * list (RoundTripTrade F)) : Prop :=
  ReconciledInv {
    ri_wf : dict_wf st.1;
    ri_linked : Forall (linked l) st.2;
    ri_units i : sum_by (held i) (concat (dict_values st.1)) + sum_by (opened i) st.2 + sum_by (closed i) st.2
                 = sum_by (held i) (take n l);
    ri_fifo s : trade_lot <$> default [] (dict_get st.1 s)
                = (fifo [] f_zero (trade_lot <$> filter (fun t => c_symbol (t_contract t) = s) (take n l))).1;
    ri_earlier s stack : dict_get st.1 s = Some stack -> Forall (earlier l n s) stack;
  }.

(** The open lots do not depend on the P&L accumulated so far. *)
Lemma absorb_lots q (p : F) lots a a' : (absorb q p lots a).1 = (absorb q p lots a').1.
Proof.
  revert q a a'. induction lots as [|[oq op] lots IH]; intros q a a'; [done|].
  simpl. repeat case_match; simpl; auto.
Qed.

(** Working trades: each carries its index, and none is empty. *)
Definition numbered (l : list (trade F)) : Prop :=
  forall i t, l !! i = Some t -> t_qty t <> 0 /\ index_of (t_properties t) = Z.of_nat i.

Lemma reconcile_step_inv l n st t : numbered l ->
  reconciled_inv l n st -> l !! n = Some t -> exists st', reconcile_step st t = Ok st' /\ reconciled_inv l (S n) st'.
Proof.
  intros Hnum Hi Ht. destruct (Hnum n t Ht) as [Hnz Hix]. assert (left_of l n t t) as Hself by by split.
  set (s := c_symbol (t_contract t)). set (stack := default [] (dict_get st.1 s)).
  assert (Forall (earlier l n s) stack) as Hst.
  { unfold stack. destruct (dict_get st.1 s) eqn:Hs; simpl; [by apply (ri_earlier _ _ _ Hi)|constructor]. }
  assert (forall t s, earlier l n s t -> earlier l (S n) s t) as Hmono by (intros t' s' (? & ? & i & w & ? & ?); split_and!; [done..|]; exists i, w; split; [lia|done]).
  destruct (reconcile_trade_nets stack t st.2 (S (length stack))) as (stack' & new & Hr & Hn); [|done|lia|].
  { eapply Forall_impl; [exact Hst|]. by intros t' (_ & ? & _). }
  assert (Forall (earlier l (S n) s) stack') as Hst'.
  { eapply (nets_keep (earlier l (S n) s)); [|exact Hn|eapply Forall_impl; [exact Hst|by auto]|].
    - intros t' q c (Hs & _ & i & w & Hi' & Hw) Hq Hq'. split_and!; [done..|]. exists i, w. split; [done|by apply left_of_remaining].
    - split_and!; [done..|]. exists n, t. split; [lia|done]. }
  exists (dict_set st.1 s stack', st.2 ++ new). split; [unfold reconcile_step; fold s stack; by rewrite Hr|].
  split; simpl.
  - apply dict_set_wf, (ri_wf _ _ _ Hi).
  - apply Forall_app. split; [apply (ri_linked _ _ _ Hi)|by eapply nets_linked].
  - intros i. rewrite (take_S_r _ _ _ Ht), !sum_by_app, sum_by_cons, sum_by_nil, <- (ri_units _ _ _ Hi i).
    pose proof (stacks_set_sum (held i) st.1 s stack') as Hset. fold stack in Hset. pose proof (nets_units i _ _ _ _ Hn). lia.
  - intros s'. rewrite dict_get_set, (take_S_r _ _ _ Ht), filter_app, fmap_app, fifo_app, <- (ri_fifo _ _ _ Hi s').
    rewrite filter_cons, filter_nil. fold s. destruct (decide (s' = s)) as [->|Hne]; [|by rewrite decide_False].
    rewrite decide_True by done. simpl. fold stack. unfold fifo at 1. simpl. unfold fifo_step. simpl. by eapply nets_absorb.
  - intros s' stk. rewrite dict_get_set. case_decide; [intros [= <-]; by subst|]. intros Hs'. eapply Forall_impl; [by eapply ri_earlier|]. auto.
Qed.

Lemma reconcile_all l n st : numbered l -> (n <= length l)%nat ->
  reconciled_inv l n st -> exists st', foldE reconcile_step st (drop n l) = Ok st' /\ reconciled_inv l (length l) st'.
Proof.
  intros Hnum Hle. remember (length l - n)%nat as k eqn:Hk. revert n st Hle Hk. induction k as [|k IH]; intros n st Hle Hk Hi.
  { rewrite drop_ge by lia. exists st. split; [done|]. by replace (length l) with n by lia. }
  destruct (lookup_lt_is_Some_2 l n) as [t Ht]; [lia|]. rewrite (drop_S _ _ _ Ht). simpl.
  destruct (reconcile_step_inv l n st t Hnum Hi Ht) as (st1 & -> & Hi1). simpl. apply IH; [lia|lia|done].
Qed.

Lemma reconciled_nil l : reconciled_inv l 0 ([], []).
Proof. split; try done; constructor. Qed.
End Balance.

(** ** The final list *)

Section Final.
Context `{PyFloat F}.

Definition entry_index (r : RoundTripTrade F) : Z :=
  match dict_get (rt_entry_properties r) "entry_index"%string with Some (PInt z) => z | _ => 0 end.

Definition is_open_rt (r : RoundTripTrade F) : bool :=
  match rt_exit_order r with None => true | Some _ => false end.

Definition roundtrip_lot (r : RoundTripTrade F) : lot F := Lot (rt_qty r) (rt_entry_price r).

Lemma sum_by_imap {A B} (f : B -> Z) (g : A -> Z) (h : nat -> A -> B) l :
  (forall k x, f (h k x) = g x) -> sum_by f (imap h l) = sum_by g l.
Proof.
  revert h. induction l as [|x l IH]; intros h Hfg; [done|].
  rewrite imap_cons, !sum_by_cons, Hfg. f_equal. apply IH. intros k y. apply Hfg.
Qed.

Lemma filter_imap {A B} (P : A -> bool) (f : A -> B) (h : nat -> A -> A) l :
  (forall k x, f (h k x) = f x /\ P (h k x) = P x) ->
  f <$> filter (fun x => P x = true) (imap h l) = f <$> filter (fun x => P x = true) l.
Proof.
  revert h. induction l as [|x l IH]; intros h Hfp; [done|].
  rewrite imap_cons, !filter_cons. destruct (Hfp 0%nat x) as [Hf Hp]. rewrite Hp.
  case_decide; csimpl; rewrite ?Hf; [f_equal|]; apply IH; intros k y; apply Hfp.
Qed.

Lemma entry_index_relabel k (r : RoundTripTrade F) : entry_index (relabel k r) = index_of (rt_entry_properties r).
Proof. unfold entry_index, relabel. simpl. by rewrite dict_get_set_ne, dict_get_set_eq. Qed.

Lemma index_of_relabel k (r : RoundTripTrade F) : index_of (rt_entry_properties (relabel k r)) = Z.of_nat k.
Proof. unfold index_of, relabel. simpl. by rewrite dict_get_set_eq. Qed.

Lemma held_working (trades : list (trade F)) i n :
  sum_by (held (Z.of_nat i)) (imap (fun k t => working_trade (n + k) t) trades)
  = if bool_decide (n <= i)%nat then default 0 (Z.abs ∘ t_qty <$> trades !! (i - n)%nat) else 0.
Proof.
  revert n. induction trades as [|t l IH]; intros n.
  { rewrite lookup_nil. by case_bool_decide. }
  rewrite imap_cons, sum_by_cons. unfold held at 1, share, index_of. simpl. rewrite dict_get_set_eq, Nat.add_0_r.
  assert (imap ((fun k t => working_trade (n + k) t) ∘ S) l = imap (fun k t => working_trade (S n + k) t) l) as ->.
  { apply imap_ext. intros k t' _. simpl. by rewrite Nat.add_succ_r. }
  rewrite IH. destruct (Z.eqb_spec (Z.of_nat n) (Z.of_nat i)) as [Heq|Hne].
  - apply Nat2Z.inj in Heq. subst. rewrite bool_decide_false, bool_decide_true by lia.
    rewrite Nat.sub_diag. simpl. lia.
  - destruct (decide (S n <= i)%nat).
    + rewrite !bool_decide_true by lia. replace (i - n)%nat with (S (i - S n)) by lia. done.
    + rewrite !bool_decide_false by lia. done.
Qed.

(** The symbol's trades on all the stacks are its own stack. *)
Lemma filter_stacks (d : list (string * list (trade F))) s :
  dict_wf d -> (forall s stack, dict_get d s = Some stack -> Forall (fun t => c_symbol (t_contract t) = s) stack) ->
  filter (fun t => c_symbol (t_contract t) = s) (concat (dict_values d)) = default [] (dict_get d s).
Proof.
  unfold dict_wf, dict_keys, dict_values. induction d as [|[s' st] d IH]; csimpl; intros Hwf Hs; [done|].
  apply NoDup_cons in Hwf as [Hn Hwf]. rewrite filter_app.
  assert (filter (fun t => c_symbol (t_contract t) = s) (concat d.*2) = default [] (dict_get d s)) as ->.
  { apply IH; [done|]. intros s0 st0 H0. apply Hs. rewrite decide_False; [done|].
    intros ->. apply Hn. by apply dict_get_Some_keys in H0. }
  pose proof (Hs s' st) as Hst. rewrite decide_True in Hst by done. specialize (Hst eq_refl).
  case_decide as Heq.
  - subst s'. rewrite filter_all by done. simpl.
    rewrite (proj2 (dict_get_None d s)) by done. simpl. apply app_nil_r.
  - rewrite filter_none; [done|]. eapply Forall_impl; [exact Hst|]. simpl. congruence.
Qed.

Lemma working_lookup (trades : list (trade F)) i w : imap working_trade trades !! i = Some w ->
  exists t, trades !! i = Some t /\ w = working_trade i t.
Proof. rewrite list_lookup_imap. destruct (trades !! i) as [t|]; [|done]. intros [= <-]. by exists t. Qed.

Lemma working_numbered (trades : list (trade F)) : Forall (fun t => t_qty t <> 0) trades -> numbered (imap working_trade trades).
Proof.
  intros Hnz i w (t & Ht & ->)%working_lookup. split; [|unfold index_of; simpl; by rewrite dict_get_set_eq].
  rewrite Forall_forall in Hnz. apply (Hnz t). by eapply list_elem_of_lookup_2.
Qed.

Lemma roundtrip_trades_spec (trades : list (trade F)) :
  Forall (fun t => t_qty t <> 0) trades ->
  exists stacks closed_rts rts,
    roundtrip_trades trades = Ok rts /\ reconciled_inv (imap working_trade trades) (length trades) (stacks, closed_rts) /\
    rts = imap relabel (sorted_by (fun r => index_of (rt_entry_properties r))
                          (closed_rts ++ (open_roundtrip <$> concat (dict_values stacks)))).
Proof.
  intros Hnz. destruct (reconcile_all (imap working_trade trades) 0 ([], []) (working_numbered _ Hnz)) as ([stks rs] & Hst & Hi);
    [lia|apply reconciled_nil|]. rewrite length_imap in Hi. rewrite drop_0 in Hst.
  unfold roundtrip_trades. rewrite Hst. simpl. eauto 10.
Qed.

(** Where a round trip comes from *)
Definition from_trades (trades : list (trade F)) (r : RoundTripTrade F) : Prop :=
  exists i t, trades !! i = Some t /\ entered_by i t r /\
    (rt_exit_order r = None \/ exists j u, trades !! j = Some u /\ (i < j)%nat /\ exited_by j u r).

Lemma linked_from (trades : list (trade F)) r : linked (imap working_trade trades) r -> from_trades trades r.
Proof.
  intros (i & j & w & u & (t & Ht & ->)%working_lookup & (t' & Ht' & ->)%working_lookup & Hlt & [] & []).
  exists i, t. split; [done|]. split; [by split|]. right. exists j, t'. split_and!; [done..|]. by split.
Qed.

Lemma open_from (trades : list (trade F)) n s t : earlier (imap working_trade trades) n s t -> from_trades trades (open_roundtrip t).
Proof.
  intros (_ & _ & i & w & _ & [(t0 & Ht0 & ->)%working_lookup]). exists i, t0. split; [done|]. split; [by split|by left].
Qed.

(** The entry's place is kept when the result is renumbered. *)
Record entered_trade (i : nat) (t : trade F) (r : RoundTripTrade F) : Prop := EnteredTrade {
  et_index : entry_index r = Z.of_nat i;
  et_contract : rt_contract r = t_contract t;
  et_order : rt_entry_order r = t_order t;
  et_timestamp : rt_entry_timestamp r = t_timestamp t;
  et_price : rt_entry_price r = t_price t;
  et_side : Z.sgn (rt_qty r) = Z.sgn (t_qty t);
}.

Lemma relabel_from (trades : list (trade F)) k r : from_trades trades r ->
  exists i t, trades !! i = Some t /\ entered_trade i t (relabel k r) /\
    (rt_exit_order (relabel k r) = None \/ exists j u, trades !! j = Some u /\ (i < j)%nat /\ exited_by j u (relabel k r)).
Proof.
  intros (i & t & Ht & [] & Hx). exists i, t. split; [done|]. split; [split; try done; by rewrite entry_index_relabel|].
  destruct Hx as [Hx|(j & u & Hu & Hlt & [])]; [by left|]. right. exists j, u. split_and!; [done..|]. by split.
Qed.
End Final.

(** ** Properties *)

(** C36: Reconciling trades of nonzero quantity always succeeds (its loop ends),
    and accounts for every traded unit exactly once.  The units of each trade are
    those of the round trips it entered together with those of the round trips it
    exited.  Each round trip was entered by the trade of its [entry_index], at its
    price, time and side, and is open or was exited by a later trade of the same
    symbol and the other side, at that trade's price and time; the result is numbered
    from 0. *)
Theorem roundtrip_trades_conserves `{PyFloat F} (trades : list (trade F)) :
  Forall (fun t => t_qty t <> 0) trades ->
  exists rts, roundtrip_trades trades = Ok rts /\
    (forall i t, trades !! i = Some t ->
       Z.abs (t_qty t) = sum_by (fun r => if entry_index r =? Z.of_nat i then Z.abs (rt_qty r) else 0) rts
                         + sum_by (closed (Z.of_nat i)) rts) /\
    (forall k r, rts !! k = Some r -> index_of (rt_entry_properties r) = Z.of_nat k /\
       exists i t, trades !! i = Some t /\ entered_trade i t r /\
         (rt_exit_order r = None \/ exists j u, trades !! j = Some u /\ (i < j)%nat /\ exited_by j u r)).
Proof.
  intros Hnz. destruct (roundtrip_trades_spec trades Hnz) as (stks & rs & rts & Hr & Hi & ->).
  eexists. split; [exact Hr|]. split.
  - intros i t Ht. pose proof (ri_units _ _ _ Hi (Z.of_nat i)) as Hb. simpl in Hb. rewrite take_ge in Hb by by rewrite length_imap.
    pose proof (held_working trades i 0) as Hh. rewrite Nat.sub_0_r, Ht in Hh. simpl in Hh.
    change (imap (fun k t => working_trade k t) trades) with (imap working_trade trades) in Hh.
    rewrite <- Hh, <- Hb.
    rewrite (sum_by_imap _ (opened (Z.of_nat i))) by (intros k r; by rewrite entry_index_relabel).
    rewrite (sum_by_imap _ (closed (Z.of_nat i))) by done.
    rewrite !(sum_by_perm _ _ _ (sorted_by_perm _ _)), !sum_by_app.
    assert (forall l, sum_by (opened (Z.of_nat i)) (open_roundtrip <$> l) = sum_by (held (Z.of_nat i)) l) as ->.
    { intros l. unfold sum_by. by rewrite <- list_fmap_compose. }
    assert (forall l : list (trade F), sum_by (closed (Z.of_nat i)) (open_roundtrip <$> l) = 0) as ->; [|lia].
    { intros l. unfold sum_by. rewrite <- list_fmap_compose. clear. induction l as [|t l IH]; csimpl; [done|].
      by rewrite sumZ_cons, IH. }
  - intros k r Hk. rewrite list_lookup_imap in Hk. destruct (_ !! k) as [r0|] eqn:Hr0; simplify_eq/=. split; [apply index_of_relabel|].
    apply relabel_from. apply list_elem_of_lookup_2 in Hr0. rewrite (sorted_by_perm _ _) in Hr0. apply elem_of_app in Hr0 as [Hr0|Hr0].
    + apply linked_from. pose proof (ri_linked _ _ _ Hi) as Hl. rewrite Forall_forall in Hl. by apply Hl.
    + apply list_elem_of_fmap in Hr0 as (t & -> & (stack & Hin & Ht)%list_elem_of_In%in_concat). apply list_elem_of_In in Ht. apply list_elem_of_In, list_elem_of_fmap in Hin as ([s stk] & -> & Hin).
      apply (dict_In_get _ _ _ (ri_wf _ _ _ Hi)) in Hin. pose proof (ri_earlier _ _ _ Hi _ _ Hin) as He. rewrite Forall_forall in He.
      by eapply open_from, He.
Qed.

(** The doctest: of the sale of 120 units, 50 close what is left of the first trade, 20
    the third trade, and 50 are sold short; 10 of those are bought back. *)
Lemma roundtrip_trades_conserves_witness :
  exists rts, roundtrip_trades doctest_trades = Ok rts /\
    Z.abs (-120) = sum_by (fun r => if entry_index r =? Z.of_nat 3 then Z.abs (rt_qty r) else 0) rts + sum_by (closed (Z.of_nat 3)) rts.
Proof.
  destruct (roundtrip_trades_conserves doctest_trades) as (rts & Hr & Hu & _); [repeat constructor; discriminate|].
  exists rts. split; [exact Hr|]. specialize (Hu 3%nat). destruct (doctest_trades !! 3%nat) as [t|] eqn:Ht; [|discriminate Ht].
  rewrite <- (Hu t eq_refl). injection Ht as <-. reflexivity.
Defined.

(** For every symbol, the round trips left open are exactly the lots that
    FIFO netting of that symbol's trades leaves open: the reconciliation and the
    account's ledger agree. *)
Theorem roundtrip_trades_open_fifo `{PyFloat F} (trades : list (trade F)) s :
  Forall (fun t => t_qty t <> 0) trades ->
  exists rts, roundtrip_trades trades = Ok rts /\
    roundtrip_lot <$> filter (fun r => is_open_rt r && bool_decide (c_symbol (rt_contract r) = s) = true) rts
    ≡ₚ (fifo [] f_zero (trade_lot <$> filter (fun t => c_symbol (t_contract t) = s) trades)).1.
Proof.
  intros Hnz. destruct (roundtrip_trades_spec trades Hnz) as (stks & rs & rts & Hr & Hi & ->).
  eexists. split; [exact Hr|].
  rewrite (filter_imap (fun r => is_open_rt r && bool_decide (c_symbol (rt_contract r) = s)) roundtrip_lot) by done.
  rewrite (sorted_by_perm _ (rs ++ _)), filter_app, (filter_none _ rs).
  2: { eapply Forall_impl; [apply (ri_linked _ _ _ Hi)|]. intros r (i & j & w & u & _ & _ & _ & _ & [Hx]). unfold is_open_rt. by rewrite xb_order0. }
  simpl. pose proof (ri_fifo _ _ _ Hi s) as Hf. simpl in Hf. rewrite take_ge in Hf by by rewrite length_imap.
  rewrite <- (filter_stacks stks s (ri_wf _ _ _ Hi)) in Hf.
  2: { intros s' stack Hs'. eapply Forall_impl; [by apply (ri_earlier _ _ _ Hi)|]. by intros t [? _]. }
  assert (trade_lot <$> filter (fun t => c_symbol (t_contract t) = s) (imap working_trade trades)
    = trade_lot <$> filter (fun t => c_symbol (t_contract t) = s) trades) as <-.
  { pose proof (filter_imap (fun t => bool_decide (c_symbol (t_contract t) = s)) trade_lot working_trade trades) as Hw.
    rewrite !(filter_ext_in (fun t : trade F => c_symbol (t_contract t) = s)
      (fun t => bool_decide (c_symbol (t_contract t) = s) = true)) by (intros; symmetry; apply bool_decide_eq_true).
    by apply Hw. }
  rewrite <- Hf. clear. induction (concat (dict_values stks)) as [|t l IH]; [done|].
  rewrite fmap_cons, !filter_cons. simpl.
  destruct (decide (c_symbol (t_contract t) = s)) as [Hs|Hs].
  - rewrite decide_True by by rewrite bool_decide_true. csimpl. by rewrite IH.
  - rewrite decide_False by by rewrite bool_decide_false. done.
Qed.

Lemma roundtrip_trades_open_fifo_witness :
  exists rts, roundtrip_trades doctest_trades = Ok rts /\
    roundtrip_lot <$> filter (fun r => is_open_rt r && bool_decide (c_symbol (rt_contract r) = "AAPL"%string) = true) rts
    ≡ₚ [Lot (-40) (f_of_Z 11)].
Proof.
  destruct (roundtrip_trades_open_fifo doctest_trades "AAPL") as (rts & Hr & Hp).
  - repeat constructor; discriminate.
  - exists rts. split; [exact Hr|]. rewrite Hp. vm_compute. reflexivity.
Defined.
