(* ===== verification/Account.v ===== *)
(** * The account: [account.py], with [execution_snapshots.py]

    The account owns one [ContractPNL] object per symbol; its dictionaries refer
    to them by symbol.  Methods run in [ST] over the world and the account, so
    that what an exception leaves behind is explicit.  [registry] is the state of
    the contract groups, which the account reads. *)

From S2P Require Import Roundtrip Prelude Numeric Vendor Boundaries Instruments Contracts Orders Fifo.
From S2P Require Import ContractPnl.
From Stdlib Require Import Qcanon SpecFloat.

Open Scope Z_scope.

Definition ns_per_minute : Z := 60 * 10 ^ 9.
Definition ns_per_day : Z := 24 * 60 * ns_per_minute.

(** [timestamp.astype("M8[D]")] *)
Definition day_of (t : Z) : Z := t / ns_per_day.

Section Account.
Context `{PyFloat F} `{!Numpy F} `{SortedDict D} {W : Type}.

(** [_get_calc_timestamps] *)
Definition get_calc_timestamps (timestamps : list Z) (pnl_calc_time : Z) : list Z :=
  let time_delta := pnl_calc_time * ns_per_minute in
  let dates := (fun d => d * ns_per_day) <$> np_unique (day_of <$> timestamps) in
  let target_timestamps := (fun d => d + time_delta) <$> dates in
  let day_starts := np_searchsorted_left timestamps <$> dates in
  let target_ends := np_searchsorted_right timestamps <$> target_timestamps in
  let calc_indices :=
    (fun '(s, e) => (e - 1)%nat) <$> filter (fun '(s, e) => (s < e)%nat) (zip day_starts target_ends) in
  omap (fun i => timestamps !! i) calc_indices.

Record Account := mkAccount {
  ac_starting_equity : F;
  ac_contract_groups : list group;
  ac_timestamps : list Z;
  ac_calc_timestamps : list Z;
  ac_contracts : list (string * contract F);
  ac_symbol_pnls : list (string * ContractPNL F D);
  ac_group_pnls : list (string * list string);      (* symbol_pnls_by_contract_group *)
  ac_trades : list (trade F);
  ac_trades_for_date : list ((string * Z) * list (trade F));
  ac_pnl : D F;
}.

Definition set_symbol_pnls (a : Account) (d : list (string * ContractPNL F D)) : Account :=
  mkAccount (ac_starting_equity a) (ac_contract_groups a) (ac_timestamps a) (ac_calc_timestamps a)
    (ac_contracts a) d (ac_group_pnls a) (ac_trades a) (ac_trades_for_date a) (ac_pnl a).

Definition set_pnl (a : Account) (d : D F) : Account :=
  mkAccount (ac_starting_equity a) (ac_contract_groups a) (ac_timestamps a) (ac_calc_timestamps a)
    (ac_contracts a) (ac_symbol_pnls a) (ac_group_pnls a) (ac_trades a) (ac_trades_for_date a) d.

Definition set_group_pnls (a : Account) (d : list (string * list string)) : Account :=
  mkAccount (ac_starting_equity a) (ac_contract_groups a) (ac_timestamps a) (ac_calc_timestamps a)
    (ac_contracts a) (ac_symbol_pnls a) d (ac_trades a) (ac_trades_for_date a) (ac_pnl a).

(** [_validate_contract_groups]: [NotInst] is no sequence; an element that is no
    group is [NotInst]. *)
Definition validate_contract_groups (contract_groups : arg (list (arg group))) : result (list group) :=
  match contract_groups with
  | NotInst => Err (TypeError "account contract_groups must be a sequence of ContractGroup objects")
  | Inst groups =>
      whenever bool_decide (groups = []) raise ValueError "account requires at least one contract group" ;;
      match mapM (fun g => match g with Inst g => Some g | NotInst => None end) groups with
      | None => Err (TypeError "account contract_groups must contain only ContractGroup objects")
      | Some groups =>
          unless bool_decide (NoDup (cg_name <$> groups))
            raise ValueError "account contract group names must be unique" ;;
          Ok groups
      end
  end.

(** [Account.__init__]; [price_callable] is [callable(price_function)]. *)
Definition Account_init (contract_groups : arg (list (arg group))) (timestamps : ndarray)
    (price_callable : bool) (starting_equity pnl_calc_time : pyval F) : result Account :=
  unless (match starting_equity with PInt _ | PFloat _ | PNpFloat _ => true | _ => false end)
    raise TypeError "starting_equity must be numeric" ;;
  equity ← py_float starting_equity;
  whenever negb (f_isfinite equity) || f_leb equity f_zero
    raise ValueError "starting_equity must be finite and positive" ;;
  match pnl_calc_time with
  | PInt minutes | PNpInt minutes =>
      unless (0 <=? minutes) && (minutes <? 24 * 60)
        raise ValueError "pnl_calc_time must be between 0 and 1439" ;;
      unless price_callable raise TypeError "account price_function must be callable" ;;
      groups ← validate_contract_groups contract_groups;
      ts ← validate_timestamp_grid timestamps;
      Ok (mkAccount equity groups ts (get_calc_timestamps ts minutes) [] [] [] [] [] sd_empty)
  | _ => Err (TypeError "pnl_calc_time must be an integer number of minutes")
  end.

Definition symbols (a : Account) : list string := dict_keys (ac_contracts a).

Definition trade_count (a : Account) : nat := length (ac_trades a).

Definition require_configured_group (a : Account) (g : group) : result unit :=
  unless existsb (is_group g) (ac_contract_groups a)
    raise ValueError "contract group is not configured for this account" ;;
  Ok tt.

(** [_add_contract] *)
Definition add_account_contract (c : contract F) : ST Account unit := fun a =>
  if dict_mem (ac_symbol_pnls a) (c_symbol c)
  then (a, Err (ValueError "account already contains contract symbol"))
  else
    (mkAccount (ac_starting_equity a) (ac_contract_groups a) (ac_timestamps a) (ac_calc_timestamps a)
       (dict_set (ac_contracts a) (c_symbol c) c)
       (dict_set (ac_symbol_pnls a) (c_symbol c) (ContractPNL_new c (ac_timestamps a)))
       (dict_append (ac_group_pnls a) (cg_name (c_contract_group c)) (c_symbol c))
       (ac_trades a) (ac_trades_for_date a) (ac_pnl a), Ok tt).

(** [_AccountTradeState] *)
Record AccountTradeState := {
  ts_contract_states : list (string * ContractPNLState F D);
  ts_contracts : list (string * contract F);
  ts_symbol_pnls : list string;                      (* references to the ledgers *)
  ts_group_pnls : list (string * list string);
  ts_trades : list (trade F);
  ts_trades_for_date : list ((string * Z) * list (trade F));
  ts_pnl : D F;
}.

Definition snapshot_trade_state (a : Account) (syms : list string) : AccountTradeState := {|
  ts_contract_states :=
    omap (fun s => (fun p => (s, snapshot_state p)) <$> dict_get (ac_symbol_pnls a) s) syms;
  ts_contracts := ac_contracts a;
  ts_symbol_pnls := dict_keys (ac_symbol_pnls a);
  ts_group_pnls := ac_group_pnls a;
  ts_trades := ac_trades a;
  ts_trades_for_date := ac_trades_for_date a;
  ts_pnl := ac_pnl a |}.

Definition restore_trade_state (a : Account) (s : AccountTradeState) : Account :=
  let objects := foldl (fun d '(sym, cs) => dict_update d sym (fun p => restore_state p cs))
                   (ac_symbol_pnls a) (ts_contract_states s) in
  mkAccount (ac_starting_equity a) (ac_contract_groups a) (ac_timestamps a) (ac_calc_timestamps a)
    (ts_contracts s)
    (omap (fun sym => (fun p => (sym, p)) <$> dict_get objects sym) (ts_symbol_pnls s))
    (ts_group_pnls s) (ts_trades s) (ts_trades_for_date s) (ts_pnl s).

(** The checks [add_trades] makes of one trade, before anything changes. *)
Definition check_account_trade (a : Account) (r : registry F) (st : heap F) (t : arg (raw_trade F)) : result (trade F) :=
  match t with
  | NotInst => Err (TypeError "account trades must be Trade objects")
  | Inst t =>
      t ← check_trade st t;
      _ ← timestamp_index (F:=F) (ac_timestamps a) (t_timestamp t);
      let c := t_contract t in
      unless existsb (is_group (c_contract_group c)) (ac_contract_groups a)
        raise ValueError "trade contract is outside the account's configured contract groups" ;;
      unless (match dict_get (members r (c_contract_group c)) (c_symbol c) with
              | Some c' => is_contract c' c | None => false end)
        raise ValueError "trade contract is not registered in its contract group" ;;
      Ok t
  end.

Definition symbol_of (t : trade F) : string := c_symbol (t_contract t).

(** [trades_by_contract] *)
Definition group_trades (trades : list (trade F)) : list (string * list (trade F)) :=
  group_by symbol_of trades.

(** One symbol's ledger takes its batch. *)
Definition add_symbol_trades (pf : price_fn F W) (batch : string * list (trade F)) : ST (W * Account) unit :=
  fun '(w, a) =>
  match dict_get (ac_symbol_pnls a) batch.1 with
  | None => ((w, a), Err (KeyError batch.1))
  | Some p =>
      let '((w, p), r) := add_trades pf batch.2 (w, p) in
      ((w, set_symbol_pnls a (dict_update (ac_symbol_pnls a) batch.1 (fun _ => p))), r)
  end.

(** The bookkeeping that ends the [try] block. *)
Definition append_trades (a : Account) (trades : list (trade F)) : Account :=
  mkAccount (ac_starting_equity a) (ac_contract_groups a) (ac_timestamps a) (ac_calc_timestamps a)
    (ac_contracts a) (ac_symbol_pnls a) (ac_group_pnls a) (ac_trades a ++ trades)
    (foldl (fun d t => dict_append d (symbol_of t, day_of (t_timestamp t)) t) (ac_trades_for_date a) trades)
    (match trades with [] => ac_pnl a | t :: _ => drop_from (ac_pnl a) (t_timestamp t) end).

Definition add_new_contracts (trades : list (trade F)) : ST Account unit :=
  st_iter (fun t a => if dict_mem (ac_contracts a) (symbol_of t) then (a, Ok tt)
                      else add_account_contract (t_contract t) a) trades.

(** The [try] block. *)
Definition book_account_trades (pf : price_fn F W) (trades : list (trade F)) : ST (W * Account) unit :=
  fun '(w, a) =>
  match add_new_contracts trades a with
  | (a, Err e) => ((w, a), Err e)
  | (a, Ok _) =>
      match st_iter (add_symbol_trades pf) (group_trades trades) (w, a) with
      | ((w, a), Err e) => ((w, a), Err e)
      | ((w, a), Ok _) => ((w, append_trades a trades), Ok tt)
      end
  end.

(** The statements of the [try] block one by one, [keys] being the keys
    [self._pnl] had: an interruption falls between two of them. *)
Definition on_account (f : Account -> Account) : ST (W * Account) unit := fun '(w, a) => ((w, f a), Ok tt).

Definition book_contract (t : trade F) : ST (W * Account) unit := fun '(w, a) =>
  if dict_mem (ac_contracts a) (symbol_of t) then ((w, a), Ok tt)
  else let '(a, r) := add_account_contract (t_contract t) a in ((w, a), r).

Definition date_trade (t : trade F) (a : Account) : Account :=
  mkAccount (ac_starting_equity a) (ac_contract_groups a) (ac_timestamps a) (ac_calc_timestamps a)
    (ac_contracts a) (ac_symbol_pnls a) (ac_group_pnls a) (ac_trades a)
    (dict_append (ac_trades_for_date a) (symbol_of t, day_of (t_timestamp t)) t) (ac_pnl a).

Definition extend_trades (trades : list (trade F)) (a : Account) : Account :=
  mkAccount (ac_starting_equity a) (ac_contract_groups a) (ac_timestamps a) (ac_calc_timestamps a)
    (ac_contracts a) (ac_symbol_pnls a) (ac_group_pnls a) (ac_trades a ++ trades) (ac_trades_for_date a) (ac_pnl a).

Definition forget_pnl (first k : Z) (a : Account) : Account :=
  set_pnl a (if first <=? k then sd_del (ac_pnl a) k else ac_pnl a).

Definition book_steps (pf : price_fn F W) (keys : list Z) (trades : list (trade F)) : list (ST (W * Account) unit) :=
  (book_contract <$> trades) ++ (add_symbol_trades pf <$> group_trades trades) ++
  ((fun t => on_account (date_trade t)) <$> trades) ++ [on_account (extend_trades trades)] ++
  match trades with [] => [] | t :: _ => (fun k => on_account (forget_pnl (t_timestamp t) k)) <$> keys end.

(** [add_trades] around its [try] block. *)
Definition add_trades_within (block : list (trade F) -> ST (W * Account) unit) (r : registry F) (st : heap F)
    (trades : list (arg (raw_trade F))) : ST (W * Account) unit := fun '(w, a) =>
  match foldE (fun acc t => t ← check_account_trade a r st t; Ok (acc ++ [t])) [] trades with
  | Err e => ((w, a), Err e)
  | Ok checked =>
      let trades := sorted_by t_timestamp checked in
      let trades_by_contract := group_trades trades in
      match iterE (fun '(symbol, contract_trades) =>
                     match dict_get (ac_symbol_pnls a) symbol with
                     | Some p => validate_trade_chronology p contract_trades
                     | None => Ok tt
                     end) trades_by_contract with
      | Err e => ((w, a), Err e)
      | Ok _ =>
          let state := snapshot_trade_state a (dict_keys trades_by_contract) in
          match block trades (w, a) with
          | (s, Ok _) => (s, Ok tt)
          | ((w, a), Err e) => ((w, restore_trade_state a state), Err e)
          end
      end
  end.

Definition account_add_trades (pf : price_fn F W) : registry F -> heap F -> list (arg (raw_trade F)) -> ST (W * Account) unit :=
  add_trades_within (book_account_trades pf).

(** [add_trades] when an interruption arrives in its [try] block after [n] of
    the block's statements (unless one of them raised before). *)
Definition interrupted_add_trades (pf : price_fn F W) (n : nat) :
    registry F -> heap F -> list (arg (raw_trade F)) -> ST (W * Account) unit :=
  add_trades_within (fun trades s =>
    (st_iter id (take n (book_steps pf (sd_keys (ac_pnl s.2)) trades)) ≫= fun _ => st_raise KeyboardInterrupt) s).

(** The loop body of [calc]: value every ledger at [ts]. *)
Definition calc_symbol (pf : price_fn F W) (ts : Z) (acc : F) (symbol : string) : W * Account -> (W * Account) * result F :=
  fun '(w, a) =>
  match dict_get (ac_symbol_pnls a) symbol with
  | None => ((w, a), Err (KeyError symbol))
  | Some p =>
      let '((w, p), r) := calc_net_pnl pf ts (w, p) in
      let a := set_symbol_pnls a (dict_update (ac_symbol_pnls a) symbol (fun _ => p)) in
      match r with
      | Err e => ((w, a), Err e)
      | Ok _ => ((w, a), (fun x => f_add acc x) <$> net_pnl p ts)
      end
  end.

Fixpoint calc_symbols (pf : price_fn F W) (ts : Z) (acc : F) (syms : list string) : W * Account -> (W * Account) * result F :=
  match syms with
  | [] => fun s => (s, Ok acc)
  | sym :: syms => fun s =>
      match calc_symbol pf ts acc sym s with
      | (s, Ok acc) => calc_symbols pf ts acc syms s
      | (s, Err e) => (s, Err e)
      end
  end.

Definition calc_at (pf : price_fn F W) (ts : Z) : ST (W * Account) unit := fun '(w, a) =>
  match calc_symbols pf ts f_zero (dict_keys (ac_symbol_pnls a)) (w, a) with
  | ((w, a), Ok net) => ((w, set_pnl a (sd_set (ac_pnl a) ts net)), Ok tt)
  | ((w, a), Err e) => ((w, a), Err e)
  end.

(** The instants [calc] values, in order. *)
Definition intermediate_timestamps (a : Account) (timestamp : Z) : result (list Z) :=
  prev ← peek_before (ac_pnl a) timestamp;
  let l := filter (fun t => t <= timestamp) (ac_calc_timestamps a) in
  let l := match prev with None => l | Some (prev, _) => filter (fun t => prev < t) l end in
  Ok (if bool_decide (last l = Some timestamp) then l else l ++ [timestamp]).

Definition calc (pf : price_fn F W) (timestamp : Z) : ST (W * Account) unit := fun '(w, a) =>
  match timestamp_index (F:=F) (ac_timestamps a) timestamp with
  | Err e => ((w, a), Err e)
  | Ok _ =>
      if sd_mem (ac_pnl a) timestamp then ((w, a), Ok tt)
      else match intermediate_timestamps a timestamp with
           | Err e => ((w, a), Err e)
           | Ok l => st_iter (calc_at pf) l (w, a)
           end
  end.

(** [equity] *)
Definition equity (pf : price_fn F W) (timestamp : Z) : ST (W * Account) F := fun '(w, a) =>
  match sd_get (ac_pnl a) timestamp with
  | Some pnl => ((w, a), Ok (f_add (ac_starting_equity a) pnl))
  | None =>
      match calc pf timestamp (w, a) with
      | (s, Err e) => (s, Err e)
      | ((w, a), Ok _) =>
          match sd_get (ac_pnl a) timestamp with
          | Some pnl => ((w, a), Ok (f_add (ac_starting_equity a) pnl))
          | None => ((w, a), Err (KeyError "timestamp"))
          end
      end
  end.

(** [position]: the lookup in the [defaultdict] may add an empty list. *)
Definition account_position (g : group) (timestamp : Z) : ST Account F := fun a =>
  match require_configured_group a g with
  | Err e => (a, Err e)
  | Ok _ =>
      let syms := default [] (dict_get (ac_group_pnls a) (cg_name g)) in
      let a := set_group_pnls a (dict_set (ac_group_pnls a) (cg_name g) syms) in
      (a, foldE (fun acc sym =>
                   match dict_get (ac_symbol_pnls a) sym with
                   | Some p => x ← position p timestamp; Ok (f_add acc (f_of_Z x))
                   | None => Err (KeyError sym)
                   end) f_zero syms)
  end.

Definition positions (a : Account) (r : registry F) (g : group) (timestamp : Z) : result (list (contract F * Z)) :=
  _ ← require_configured_group a g;
  foldE (fun acc '(symbol, c) =>
           match dict_get (ac_symbol_pnls a) symbol with
           | None => Ok acc
           | Some p => x ← position p timestamp; Ok (if int_isclose0 x then acc else acc ++ [(c, x)])
           end) [] (members r g).

Definition get_trades_for_date (a : Account) (symbol : string) (date : Z) : list (trade F) :=
  default [] (dict_get (ac_trades_for_date a) (symbol, date)).

(** The bounds of [trades] and [roundtrip_trades]: absent bounds admit every trade. *)
Definition in_range (start end_ : option Z) (t : Z) : bool :=
  (match start with None => true | Some s => s <=? t end) &&
  (match end_ with None => true | Some e => t <=? e end).

Definition account_trades (a : Account) (g : option group) (start end_ : date_arg) : result (list (trade F)) :=
  _ ← match g with None => Ok tt | Some g => require_configured_group a g end;
  '(start, end_) ← validate_date_range start end_;
  Ok (filter (fun t => in_range start end_ (t_timestamp t) &&
                       (match g with None => true | Some g => is_group (c_contract_group (t_contract t)) g end))
        (ac_trades a)).

Definition of_group (g : group) (o : raw_order F) : bool :=
  match r_contract o with Inst c => is_group (c_contract_group c) g | NotInst => false end.

(** [Account.roundtrip_trades] filters on the group of the originating order. *)
Definition account_roundtrip_trades (a : Account) (g : option group) (start end_ : date_arg)
  : result (list (RoundTripTrade F)) :=
  _ ← match g with None => Ok tt | Some g => require_configured_group a g end;
  '(start, end_) ← validate_date_range start end_;
  let trades := match g with
                | None => ac_trades a
                | Some g => filter (fun t => of_group g (t_order t) = true) (ac_trades a)
                end in
  let trades := match start with None => trades | Some s => filter (fun t => s <= t_timestamp t) trades end in
  let trades := match end_ with None => trades | Some e => filter (fun t => t_timestamp t <= e) trades end in
  roundtrip_trades trades.
End Account.

Arguments Account F D : clear implicits.
Arguments AccountTradeState F D : clear implicits.

(** ** A failed [add_trades] changes nothing *)

Section Atomicity.
Context `{PyFloat F} `{!Numpy F} `{SortedDict D} {W : Type}.
Implicit Types a : Account F D.

(** What the [try] block may do to the ledgers that existed when it started:
    change the contents of those of the symbols [syms]. *)
Definition touches (syms : list string) a a' : Prop :=
  ac_starting_equity a' = ac_starting_equity a /\ ac_contract_groups a' = ac_contract_groups a /\
  ac_timestamps a' = ac_timestamps a /\ ac_calc_timestamps a' = ac_calc_timestamps a /\
  forall s p, dict_get (ac_symbol_pnls a) s = Some p ->
    exists p', dict_get (ac_symbol_pnls a') s = Some p' /\ cp_contract p' = cp_contract p /\
      cp_timestamps p' = cp_timestamps p /\ (s ∉ syms -> p' = p).

#[export] Instance touches_preorder syms : PreOrder (touches syms).
Proof.
  split.
  - intros a. unfold touches. naive_solver.
  - intros a1 a2 a3 (H1&H2&H3&H4&H5) (G1&G2&G3&G4&G5). repeat split; try congruence.
    intros s p Hs. destruct (H5 s p Hs) as (p2 & Hp2 & ? & ? & Hn2).
    destruct (G5 s p2 Hp2) as (p3 & Hp3 & ? & ? & Hn3). exists p3.
    split_and!; [done|congruence|congruence|]. intros Hn. rewrite Hn3, Hn2 by done. done.
Qed.

Lemma restore_snapshot (p p' : ContractPNL F D) :
  cp_contract p' = cp_contract p -> cp_timestamps p' = cp_timestamps p -> restore_state p' (snapshot_state p) = p.
Proof. destruct p, p'. unfold restore_state, snapshot_state. simpl. by intros -> ->. Qed.

(** Looking a symbol up after restoring the snapshotted ledgers. *)
Lemma restore_objects (states : list (string * ContractPNLState F D)) d s :
  NoDup states.*1 ->
  dict_get (foldl (fun d '(sym, cs) => dict_update d sym (fun p => restore_state p cs)) d states) s =
    match dict_get states s with
    | Some cs => (fun p => restore_state p cs) <$> dict_get d s
    | None => dict_get d s
    end.
Proof.
  revert d. induction states as [|[sym cs] states IH]; intros d Hnd; csimpl; [done|].
  apply NoDup_cons in Hnd as [Hn Hnd]. rewrite IH by done. rewrite dict_get_update.
  destruct (decide (s = sym)) as [->|]; [|done].
  rewrite (proj2 (dict_get_None states sym)) by done. done.
Qed.

Lemma snapshot_states_get a syms s :
  NoDup syms -> s ∈ syms ->
  dict_get (ts_contract_states (snapshot_trade_state a syms)) s =
    snapshot_state <$> dict_get (ac_symbol_pnls a) s.
Proof.
  simpl. induction 1 as [|sym syms Hn Hnd IH]; [by intros ?%elem_of_nil|].
  intros [->|Hs]%elem_of_cons; csimpl.
  - destruct (dict_get (ac_symbol_pnls a) sym) as [p|] eqn:Hp; simpl; [by rewrite decide_True|].
    apply dict_get_None. unfold dict_keys. intros Hin. apply list_elem_of_fmap in Hin as ([s' c] & -> & Hin).
    apply list_elem_of_omap in Hin as (s1 & Hs1 & Heq). simpl in *.
    destruct (dict_get _ s1) eqn:Hg; simplify_eq/=. 
  - destruct (dict_get (ac_symbol_pnls a) sym); simpl; [|by apply IH].
    rewrite decide_False; [by apply IH|]. by intros ->.
Qed.

Lemma snapshot_states_other a syms s :
  s ∉ syms -> dict_get (ts_contract_states (snapshot_trade_state a syms)) s = None.
Proof.
  intros Hs. apply dict_get_None. unfold dict_keys. simpl. intros Hin.
  apply list_elem_of_fmap in Hin as ([s' c] & -> & Hin).
  apply list_elem_of_omap in Hin as (s1 & Hs1 & Heq). simpl in *.
  destruct (dict_get _ s1); by simplify_eq/=.
Qed.

Lemma snapshot_states_nodup a syms :
  NoDup syms -> NoDup (ts_contract_states (snapshot_trade_state a syms)).*1.
Proof.
  simpl. induction 1 as [|sym syms Hn Hnd IH]; csimpl; [constructor|].
  destruct (dict_get (ac_symbol_pnls a) sym); csimpl; [|done]. constructor; [|done].
  intros Hin. apply list_elem_of_fmap in Hin as ([s' c0] & -> & Hin).
  apply list_elem_of_omap in Hin as (s1 & Hs1 & Heq). simpl in *.
  destruct (dict_get _ s1); by simplify_eq/=.
Qed.

(** Restoring the snapshot undoes anything the block may have done. *)
Lemma restore_touched a a' syms :
  NoDup syms -> dict_wf (ac_symbol_pnls a) -> touches syms a a' ->
  restore_trade_state a' (snapshot_trade_state a syms) = a.
Proof.
  intros Hnd Hwf (H1&H2&H3&H4&H5). unfold restore_trade_state.
  rewrite (dict_rebuild (ac_symbol_pnls a)); [|done|].
  - rewrite H1, H2, H3, H4. by destruct a.
  - intros s p Hp. destruct (H5 s p Hp) as (p' & Hp' & Hc & Ht & Hn).
    rewrite restore_objects by by apply snapshot_states_nodup.
    destruct (decide (s ∈ syms)) as [Hs|Hs].
    + rewrite snapshot_states_get, Hp, Hp' by done. simpl. by rewrite restore_snapshot.
    + rewrite snapshot_states_other, Hp' by done. by rewrite Hn.
Qed.

Lemma add_account_contract_touches syms c a a' r :
  add_account_contract c a = (a', r) -> touches syms a a'.
Proof.
  unfold add_account_contract. destruct (dict_mem _ _) eqn:Hm; intros ?; simplify_eq; [done|].
  repeat split; try done. intros s p Hs. exists p. simpl. rewrite dict_get_set_ne; [done|].
  intros ->. unfold dict_mem in Hm. bools. rewrite Hs in Hm. by apply Hm.
Qed.

Lemma add_new_contracts_touches syms trades a a' r :
  add_new_contracts trades a = (a', r) -> touches syms a a'.
Proof.
  unfold add_new_contracts. apply st_iter_rel; [apply _|]. intros t s s' r' _ Hst.
  destruct (dict_mem _ _); [by simplify_eq|]. by eapply add_account_contract_touches.
Qed.

Definition touches2 (syms : list string) (s s' : W * Account F D) : Prop := touches syms s.2 s'.2.

#[export] Instance touches2_preorder syms : PreOrder (touches2 syms).
Proof. split; [by intros []; unfold touches2; simpl|]. intros [] [] [] ? ?. unfold touches2 in *. simpl in *. by etrans. Qed.

(** Replacing one ledger by a state of the same contract. *)
Lemma update_touches syms a sym p p' :
  dict_get (ac_symbol_pnls a) sym = Some p -> cp_contract p' = cp_contract p -> cp_timestamps p' = cp_timestamps p ->
  (sym ∈ syms \/ p' = p) ->
  touches syms a (set_symbol_pnls a (dict_update (ac_symbol_pnls a) sym (fun _ => p'))).
Proof.
  intros Hp Hc Ht Hor. repeat split; try done. intros s q Hs. simpl. rewrite dict_get_update.
  case_decide; [|eauto]. subst. rewrite Hp. simplify_eq/=. exists p'. split_and!; try done.
  destruct Hor; [done|by intros].
Qed.

Lemma add_symbol_trades_touches syms (pf : price_fn F W) batch s s' r :
  batch.1 ∈ syms -> add_symbol_trades pf batch s = (s', r) -> touches2 syms s s'.
Proof.
  destruct s as [w a]. unfold add_symbol_trades. intros Hin.
  destruct (dict_get _ _) as [p|] eqn:Hp; [|by intros; simplify_eq].
  destruct (add_trades pf batch.2 (w, p)) as [[w' p'] r'] eqn:Ha. intros ?. simplify_eq.
  apply add_trades_same in Ha as [Hc Ht]. simpl in *. unfold touches2. simpl.
  by eapply update_touches; [..|left].
Qed.

Lemma book_contract_touches syms t (s s' : W * Account F D) r : book_contract t s = (s', r) -> touches2 syms s s'.
Proof.
  destruct s as [w a]. unfold book_contract. destruct (dict_mem _ _); [by intros; simplify_eq|].
  destruct (add_account_contract _ a) as [a1 r1] eqn:Ha. intros. simplify_eq. by eapply add_account_contract_touches.
Qed.

Lemma on_account_touches syms f (s s' : W * Account F D) r :
  (forall a, touches syms a (f a)) -> on_account f s = (s', r) -> touches2 syms s s'.
Proof. destruct s as [w a]. unfold on_account. intros Hf ?. simplify_eq. unfold touches2. simpl. apply Hf. Qed.

Lemma same_ledgers_touches syms a a' :
  ac_starting_equity a' = ac_starting_equity a -> ac_contract_groups a' = ac_contract_groups a ->
  ac_timestamps a' = ac_timestamps a -> ac_calc_timestamps a' = ac_calc_timestamps a ->
  ac_symbol_pnls a' = ac_symbol_pnls a -> touches syms a a'.
Proof. unfold touches. intros -> -> -> -> ->. split_and!; [done..|]. intros s p Hp. by exists p. Qed.

(** Any statement of the block keeps what the snapshot relies on. *)
Lemma book_steps_touches (pf : price_fn F W) keys trades step (s s' : W * Account F D) r :
  step ∈ book_steps pf keys trades -> step s = (s', r) -> touches2 (dict_keys (group_trades trades)) s s'.
Proof.
  unfold book_steps. rewrite !elem_of_app, list_elem_of_singleton. intros [Hin|[Hin|[Hin|[->|Hin]]]].
  - apply list_elem_of_fmap in Hin as (t & -> & _). apply book_contract_touches.
  - apply list_elem_of_fmap in Hin as (batch & -> & Hb). apply add_symbol_trades_touches.
    by apply (list_elem_of_fmap_2 fst).
  - apply list_elem_of_fmap in Hin as (t & -> & _). apply on_account_touches. intros b. by apply same_ledgers_touches.
  - apply on_account_touches. intros b. by apply same_ledgers_touches.
  - destruct trades as [|t trades]; [by apply elem_of_nil in Hin|].
    apply list_elem_of_fmap in Hin as (k & -> & _). apply on_account_touches. intros b. by apply same_ledgers_touches.
Qed.

(** The block is these statements. *)
Lemma st_iter_app {S A} (body : A -> ST S unit) l l' s :
  st_iter body (l ++ l') s = (st_iter body l ≫= fun _ => st_iter body l') s.
Proof.
  revert s. induction l as [|x l IH]; intros s; [done|]. simpl. unfold mbind, ST_bind in *.
  destruct (body x s) as [s1 [[]|e]]; [apply IH|done].
Qed.

Lemma on_account_iter {A} (f : A -> Account F D -> Account F D) l w a :
  st_iter id ((fun x => on_account (W:=W) (f x)) <$> l) (w, a) = ((w, foldl (fun a x => f x a) a l), Ok tt).
Proof. revert a. induction l as [|x l IH]; intros a; [done|]. simpl. unfold mbind, ST_bind. simpl. apply IH. Qed.

Lemma book_contracts_iter trades w a :
  st_iter id (book_contract (W:=W) <$> trades) (w, a) =
    let '(a, r) := add_new_contracts trades a in ((w, a), r).
Proof.
  unfold add_new_contracts. revert a. induction trades as [|t trades IH]; intros a; [done|].
  simpl. unfold mbind, ST_bind. unfold id at 1, book_contract at 1. destruct (dict_mem _ _); [apply IH|].
  destruct (add_account_contract _ a) as [a1 [[]|e]]; [apply IH|done].
Qed.

Lemma st_iter_fmap {S A} (body : A -> ST S unit) l s : st_iter id (body <$> l) s = st_iter body l s.
Proof.
  revert s. induction l as [|x l IH]; intros s; [done|]. simpl. unfold mbind, ST_bind, id at 1.
  destruct (body x s) as [s1 [[]|e]]; [apply IH|done].
Qed.

Lemma add_new_contracts_pnl trades a a' r : add_new_contracts trades a = (a', r) -> ac_pnl a' = ac_pnl a.
Proof.
  assert (PreOrder (fun a a' : Account F D => ac_pnl a' = ac_pnl a)) as Hpre by (split; [done|intros ? ? ? ? ?; congruence]).
  apply (st_iter_rel (fun a a' => ac_pnl a' = ac_pnl a)). intros t a1 a2 r1 _.
  unfold add_account_contract. repeat case_match; intros; by simplify_eq.
Qed.

Lemma append_trades_steps trades a :
  append_trades a trades =
    match trades with
    | [] => fun a => a
    | t :: _ => fun a => foldl (fun a k => forget_pnl (t_timestamp t) k a) a (sd_keys (ac_pnl a))
    end (extend_trades trades (foldl (fun a t => date_trade t a) a trades)).
Proof.
  assert (forall l a, foldl (fun a t => date_trade t a) a l =
    mkAccount (ac_starting_equity a) (ac_contract_groups a) (ac_timestamps a) (ac_calc_timestamps a)
      (ac_contracts a) (ac_symbol_pnls a) (ac_group_pnls a) (ac_trades a)
      (foldl (fun d t => dict_append d (symbol_of t, day_of (t_timestamp t)) t) (ac_trades_for_date a) l) (ac_pnl a)) as Hd.
  { induction l as [|x l IH]; intros a'; simpl; [by destruct a'|]. by rewrite IH. }
  assert (forall first ks a, foldl (fun a k => forget_pnl first k a) a ks =
    set_pnl a (foldl (fun d k => if first <=? k then sd_del d k else d) (ac_pnl a) ks)) as Hf.
  { intros first. induction ks as [|k ks IH]; intros a'; simpl; [by destruct a'|]. by rewrite IH. }
  rewrite Hd. destruct trades as [|t trades]; [done|]. by rewrite Hf.
Qed.

Lemma book_account_trades_steps (pf : price_fn F W) trades w a :
  book_account_trades pf trades (w, a) = st_iter id (book_steps pf (sd_keys (ac_pnl a)) trades) (w, a).
Proof.
  unfold book_steps, book_account_trades. rewrite st_iter_app. unfold mbind at 1, ST_bind at 1.
  rewrite book_contracts_iter. destruct (add_new_contracts trades a) as [a1 [[]|e]] eqn:Hn; [|done].
  apply add_new_contracts_pnl in Hn. rewrite <- Hn. rewrite st_iter_app. unfold mbind at 1, ST_bind at 1.
  rewrite st_iter_fmap. destruct (st_iter (add_symbol_trades pf) _ _) as [[w2 a2] [[]|e]] eqn:Hs; [|done].
  assert (ac_pnl a2 = ac_pnl a1) as <-.
  { assert (PreOrder (fun s s' : W * Account F D => ac_pnl s'.2 = ac_pnl s.2)) as Hpre by (split; [done|intros ? ? ? ? ?; congruence]).
    apply (st_iter_rel (fun s s' : W * Account F D => ac_pnl s'.2 = ac_pnl s.2)) in Hs; [done|].
    intros batch [w3 a3] s' r _. unfold add_symbol_trades. destruct (dict_get _ _); [|by intros; simplify_eq].
    destruct (add_trades _ _ _) as [[? ?] ?]. intros. by simplify_eq. }
  rewrite st_iter_app. unfold mbind at 1, ST_bind at 1. rewrite on_account_iter. cbn [app st_iter]. 
  unfold mbind at 1, ST_bind at 1. unfold id at 1, on_account at 1. rewrite append_trades_steps.
  assert (forall l b, ac_pnl (extend_trades l (foldl (fun a t => date_trade t a) b l)) = ac_pnl b) as Hp.
  { intros l b. change (ac_pnl (foldl (fun a t => date_trade t a) b l) = ac_pnl b). revert b.
    induction l as [|x l IH]; intros b; [done|]. apply (IH (date_trade x b)). }
  destruct trades as [|t trades]; [done|]. rewrite on_account_iter. by rewrite Hp.
Qed.

(** Whatever block keeps what the snapshot relies on, its failure is undone. *)
Lemma add_trades_within_rollback (block : list (trade F) -> ST (W * Account F D) unit) r st trades w a w' a' e :
  dict_wf (ac_symbol_pnls a) ->
  (forall trades s s' res, block trades s = (s', res) -> touches2 (dict_keys (group_trades trades)) s s') ->
  add_trades_within block r st trades (w, a) = ((w', a'), Err e) -> a' = a.
Proof.
  intros Hwf Hblock. unfold add_trades_within.
  destruct (foldE _ _ _) as [checked|e1]; [|by intros; simplify_eq].
  destruct (iterE _ _) as [u|e1]; [|by intros; simplify_eq].
  destruct (block (sorted_by t_timestamp checked) (w, a)) as [[w1 a1] [u'|e1]] eqn:Hb; [done|].
  intros ?. simplify_eq. eapply restore_touched; [apply group_by_wf|done|].
  exact (Hblock _ _ _ _ Hb).
Qed.

Lemma account_add_trades_rollback (pf : price_fn F W) r st trades w a w' a' e :
  dict_wf (ac_symbol_pnls a) ->
  account_add_trades pf r st trades (w, a) = ((w', a'), Err e) -> a' = a.
Proof.
  intros Hwf. apply add_trades_within_rollback; [done|]. intros l [w1 a1] s' res.
  rewrite book_account_trades_steps. apply st_iter_rel; [apply _|]. intros step s1 s2 r1 Hin.
  by eapply book_steps_touches.
Qed.

(** An interruption between any two statements is undone as well. *)
Lemma interrupted_add_trades_rollback (pf : price_fn F W) n r st trades w a :
  dict_wf (ac_symbol_pnls a) ->
  exists w' e, interrupted_add_trades pf n r st trades (w, a) = ((w', a), Err e).
Proof.
  intros Hwf. destruct (interrupted_add_trades pf n r st trades (w, a)) as [[w' a'] res] eqn:Hi.
  assert (exists e, res = Err e) as [e ->].
  { unfold interrupted_add_trades, add_trades_within in Hi. destruct (foldE _ _ _); [|simplify_eq; eauto].
    destruct (iterE _ _); [|simplify_eq; eauto]. unfold mbind, ST_bind in Hi.
    destruct (st_iter _ _ _) as [[w2 a2] [u2|e2]]; simplify_eq/=; eauto. }
  exists w', e. f_equal. f_equal. eapply add_trades_within_rollback; [done| |exact Hi].
  intros l s s' r1. unfold mbind, ST_bind. destruct (st_iter _ _ _) as [s1 r2] eqn:Hst. intros Heq.
  assert (s' = s1) as -> by (destruct r2; unfold st_raise in Heq; congruence).
  revert Hst. apply st_iter_rel; [apply _|]. intros step s2 s3 r3 Hin. eapply book_steps_touches.
  apply list_elem_of_lookup in Hin as [i Hi']. apply lookup_take_Some in Hi' as [Hi' _]. by eapply list_elem_of_lookup_2.
Qed.
Lemma check_account_trades_volume a r st trades checked acc :
  foldE (fun acc t => t ← check_account_trade a r st t; Ok (acc ++ [t])) acc trades = Ok checked ->
  exists l, checked = acc ++ l /\ Forall2 (fun t t' => check_account_trade a r st t = Ok t') trades l.
Proof.
  revert acc. induction trades as [|t trades IH]; intros acc Hf; simpl in Hf.
  - simplify_eq. exists []. by rewrite app_nil_r.
  - apply bind_Ok_inv in Hf as (acc1 & Ht & Hf). apply bind_Ok_inv in Ht as (t' & Ht & [= <-]).
    destruct (IH _ Hf) as (l & -> & Hl). exists (t' :: l).
    rewrite <- app_assoc. split; [done|]. by constructor.
Qed.

(** Whatever else happens to an account, its trades and its grid are as before. *)
Definition keeps_trades a a' : Prop :=
  ac_trades a' = ac_trades a /\ ac_timestamps a' = ac_timestamps a /\
  (dict_wf (ac_symbol_pnls a) -> dict_wf (ac_symbol_pnls a')).

#[export] Instance keeps_trades_preorder : PreOrder keeps_trades.
Proof. split; [done|]. intros a1 a2 a3 (?&?&?) (?&?&?). split_and!; [congruence|congruence|auto]. Qed.

Definition keeps_trades2 (s s' : W * Account F D) : Prop := keeps_trades s.2 s'.2.
#[export] Instance keeps_trades2_preorder : PreOrder keeps_trades2.
Proof. split; [by intros []; unfold keeps_trades2|]. intros [] [] [] ? ?. unfold keeps_trades2 in *. simpl in *. by etrans. Qed.

Lemma update_keeps_trades a sym f :
  keeps_trades a (set_symbol_pnls a (dict_update (ac_symbol_pnls a) sym f)).
Proof. split_and!; [done..|]. apply dict_update_wf. Qed.

Lemma add_new_contracts_keeps trades a a' r : add_new_contracts trades a = (a', r) -> keeps_trades a a'.
Proof.
  unfold add_new_contracts. apply st_iter_rel; [apply _|]. intros t a1 a2 r' _.
  destruct (dict_mem _ _); [by intros; simplify_eq|]. unfold add_account_contract.
  destruct (dict_mem _ _); intros; simplify_eq; [done|]. split_and!; [done..|]. apply dict_set_wf.
Qed.

Lemma add_batches_keeps (pf : price_fn F W) l s s' r : st_iter (add_symbol_trades pf) l s = (s', r) -> keeps_trades2 s s'.
Proof.
  apply st_iter_rel; [apply _|]. intros batch [w a] s1 r' _. unfold add_symbol_trades.
  destruct (dict_get _ _); [|by intros; simplify_eq]. destruct (add_trades _ _ _) as [[w1 p1] r1].
  intros. simplify_eq. apply update_keeps_trades.
Qed.

(** [add_trades] appends the checked trades in time order, or nothing at all. *)
Lemma account_add_trades_books (pf : price_fn F W) r st trades w a w' a' res :
  dict_wf (ac_symbol_pnls a) -> account_add_trades pf r st trades (w, a) = ((w', a'), res) ->
  match res with
  | Ok _ => dict_wf (ac_symbol_pnls a') /\ ac_timestamps a' = ac_timestamps a /\
      exists new, Forall2 (fun t t' => check_account_trade a r st t = Ok t') trades new /\
        ac_trades a' = ac_trades a ++ sorted_by t_timestamp new
  | Err _ => a' = a
  end.
Proof.
  intros Hwf Hadd. destruct res as [[]|e]; [|by eapply account_add_trades_rollback].
  unfold account_add_trades, add_trades_within in Hadd. destruct (foldE _ _ _) as [checked|e1] eqn:Hck; [|done].
  apply check_account_trades_volume in Hck as (new & -> & Hnew). cbn [app] in *.
  destruct (iterE _ _) as [u|e1]; [|done]. unfold book_account_trades in Hadd.
  destruct (add_new_contracts _ a) as [a2 [[]|e]] eqn:Hn; [|done]. apply add_new_contracts_keeps in Hn as (Ht & Hg & Hd).
  destruct (st_iter _ _ _) as [[w3 a3] [[]|e]] eqn:Hit; [|done]. apply add_batches_keeps in Hit as (Ht' & Hg' & Hd').
  simplify_eq. simpl in *. split_and!; [auto|congruence|]. exists new. split; [done|]. congruence.
Qed.
End Atomicity.

(** ** The ledgers hold exactly the account's trades *)

Section AccountInvariant.
Context `{PyFloat F} `{!Numpy F} `{!NumpyLaws F} `{SortedDictLaws D} {W : Type}.
Implicit Types a : Account F D.

Definition trades_of (s : string) (l : list (trade F)) : list (trade F) := filter (fun t => symbol_of t = s) l.

(** The ledgers of [d] hold the trades [l]; new ones may still be empty. *)
Definition ledgers_hold (d : list (string * ContractPNL F D)) (l : list (trade F)) : Prop :=
  forall s p, dict_get d s = Some p ->
    exists hist, booked (W:=W) p hist /\ hist ≡ₚ trades_of s l.

Record account_wf a : Prop := AccountWf {
  aw_ledgers : dict_wf (ac_symbol_pnls a);
  aw_keys s : dict_mem (ac_contracts a) s = dict_mem (ac_symbol_pnls a) s;
  aw_hold : ledgers_hold (ac_symbol_pnls a) (ac_trades a);
  aw_known t : t ∈ ac_trades a -> dict_mem (ac_symbol_pnls a) (symbol_of t) = true;
}.

Lemma volume_trades_of s l : volume (F:=F) (trades_of s l) <= volume l.
Proof.
  unfold trades_of. induction l as [|t l IH]; [done|].
  assert (volume (t :: l) = Z.abs (t_qty t) + volume l) as -> by done.
  rewrite filter_cons. case_decide; [|lia].
  assert (volume (t :: filter (fun t => symbol_of t = s) l)
    = Z.abs (t_qty t) + volume (filter (fun t => symbol_of t = s) l)) as -> by done. lia.
Qed.

Lemma trades_of_app s l1 l2 : trades_of s (l1 ++ l2) = trades_of s l1 ++ trades_of s l2.
Proof. apply filter_app. Qed.

(** Registering the new contracts gives every trade a ledger. *)
Lemma add_new_contracts_spec trades a a' :
  account_wf a -> add_new_contracts trades a = (a', Ok tt) ->
  account_wf a' /\ ac_trades a' = ac_trades a /\ ac_timestamps a' = ac_timestamps a /\
  (forall t, t ∈ trades -> dict_mem (ac_symbol_pnls a') (symbol_of t) = true) /\
  (forall s, dict_mem (ac_symbol_pnls a) s = true -> dict_mem (ac_symbol_pnls a') s = true).
Proof.
  unfold add_new_contracts. revert a. induction trades as [|t trades IH]; intros a Hwf; simpl.
  { unfold mret, ST_ret. intros ?; simplify_eq. split_and!; try done. by intros ? ?%elem_of_nil. }
  unfold mbind, ST_bind.
  assert (forall a1, account_wf a1 -> ac_trades a1 = ac_trades a -> ac_timestamps a1 = ac_timestamps a ->
    dict_mem (ac_symbol_pnls a1) (symbol_of t) = true ->
    (forall s, dict_mem (ac_symbol_pnls a) s = true -> dict_mem (ac_symbol_pnls a1) s = true) ->
    st_iter (fun t a => if dict_mem (ac_contracts a) (symbol_of t) then (a, Ok tt)
                      else add_account_contract (t_contract t) a) trades a1 = (a', Ok tt) ->
    account_wf a' /\ ac_trades a' = ac_trades a /\ ac_timestamps a' = ac_timestamps a /\
    (forall t0, t0 ∈ t :: trades -> dict_mem (ac_symbol_pnls a') (symbol_of t0) = true) /\
    (forall s, dict_mem (ac_symbol_pnls a) s = true -> dict_mem (ac_symbol_pnls a') s = true)) as Hgo.
  { intros a1 Hwf1 Ht1 Hts1 Hm1 Hmono Hit. destruct (IH a1 Hwf1 Hit) as (G1 & G2 & G3 & G4 & G5).
    split_and!; [done|congruence|congruence| |auto].
    intros t0 [->|Ht0]%elem_of_cons; auto. }
  destruct (dict_mem (ac_contracts a) (symbol_of t)) eqn:Hm.
  - apply Hgo; try done. by rewrite <- (aw_keys _ Hwf).
  - unfold add_account_contract. fold (symbol_of t).
    rewrite (aw_keys _ Hwf) in Hm. rewrite Hm. apply Hgo; simpl; try done.
    + destruct Hwf as [W1 W2 W3 W4]. split; simpl.
      * by apply dict_set_wf.
      * intros s. unfold dict_mem. rewrite !dict_get_set. case_decide; [done|]. apply W2.
      * intros s p. rewrite dict_get_set. case_decide as Hs; [|apply W3]. intros [= <-]. subst s.
        exists []. split; [constructor|]. unfold trades_of. rewrite filter_none; [done|].
        apply Forall_forall. intros t' Ht' Heq. apply W4 in Ht'. congruence.
      * intros t' Ht'. unfold dict_mem. rewrite dict_get_set. case_decide; [done|]. by apply W4.
    + unfold dict_mem. by rewrite dict_get_set_eq.
    + intros s Hs. unfold dict_mem in *. rewrite dict_get_set. case_decide; [done|]. done.
Qed.

Lemma dict_update_const_mem (d : list (string * ContractPNL F D)) k p s :
  dict_mem (dict_update d k (fun _ => p)) s = dict_mem d s.
Proof.
  unfold dict_mem. rewrite dict_get_update. case_decide; [subst|done].
  apply bool_decide_ext. by rewrite fmap_is_Some.
Qed.

(** Each symbol's batch goes to its ledger: [cur] is what each ledger held. *)
Lemma add_batches_spec (pf : price_fn F W) batches (cur : string -> list (trade F)) w a w' a' :
  NoDup batches.*1 -> dict_wf (ac_symbol_pnls a) ->
  (forall s p, dict_get (ac_symbol_pnls a) s = Some p -> exists hist, booked (W:=W) p hist /\ hist ≡ₚ cur s) ->
  (forall s b, (s, b) ∈ batches -> volume (cur s ++ b) < 2 ^ 63) ->
  st_iter (add_symbol_trades pf) batches (w, a) = ((w', a'), Ok tt) ->
  dict_wf (ac_symbol_pnls a') /\ ac_contracts a' = ac_contracts a /\ ac_trades a' = ac_trades a /\
  (forall s, dict_mem (ac_symbol_pnls a') s = dict_mem (ac_symbol_pnls a) s) /\
  (forall s p, dict_get (ac_symbol_pnls a') s = Some p -> exists hist,
     booked (W:=W) p hist /\ hist ≡ₚ cur s ++ default [] (dict_get batches s)).
Proof.
  revert w a cur. induction batches as [|[s b] batches IH]; intros w a cur Hnd Hwf Hd Hv; simpl.
  { unfold mret, ST_ret. intros ?; simplify_eq. split_and!; try done. intros s p Hp.
    rewrite app_nil_r. by apply Hd. }
  csimpl in Hnd. apply NoDup_cons in Hnd as [Hs Hnd].
  unfold mbind, ST_bind, add_symbol_trades at 1. simpl.
  destruct (dict_get (ac_symbol_pnls a) s) as [p|] eqn:Hp; [|done].
  destruct (add_trades pf b (w, p)) as [[w1 p1] [[]|e]] eqn:Ha; [|done]. intros Hit.
  destruct (Hd s p Hp) as (hist & Hb & Hperm).
  assert (booked (W:=W) p1 (hist ++ booking_order b)) as Hb1.
  { eapply booked_add; [done| |exact Ha]. rewrite volume_app, (volume_perm _ _ Hperm), <- volume_app.
    apply (Hv s). left. }
  set (a1 := set_symbol_pnls a (dict_update (ac_symbol_pnls a) s (fun _ => p1))) in *.
  destruct (IH w1 a1 (fun x => if decide (x = s) then cur s ++ b else cur x) Hnd)
    as (G1 & G2 & G3 & G4 & G5); [| | |exact Hit|].
  - by apply dict_update_wf.
  - intros s' q. simpl. rewrite dict_get_update. case_decide; [|apply Hd]. subst. rewrite Hp.
    intros [= <-]. exists (hist ++ booking_order b). split; [done|]. by rewrite Hperm, (booking_order_perm b).
  - intros s' b' Hin. rewrite decide_False; [apply Hv; by right|].
    intros ->. apply Hs. by apply (list_elem_of_fmap_2 fst) in Hin.
  - split_and!; [done|done|done| |].
    + intros s'. rewrite G4. simpl. apply dict_update_const_mem.
    + intros s' q Hq. destruct (G5 s' q Hq) as (h & Hbh & Hph). exists h. split; [done|]. rewrite Hph.
      destruct (decide (s' = s)) as [->|]; [|done].
      rewrite (proj2 (dict_get_None batches s)) by done. simpl. by rewrite app_nil_r.
Qed.

Lemma account_add_trades_wf (pf : price_fn F W) r st trades w a w' a' :
  account_wf a ->
  account_add_trades pf r st trades (w, a) = ((w', a'), Ok tt) ->
  exists new, Forall2 (fun t t' => check_account_trade a r st t = Ok t') trades new /\
    ac_trades a' = ac_trades a ++ sorted_by t_timestamp new /\
    (volume (ac_trades a ++ new) < 2 ^ 63 -> account_wf a').
Proof.
  intros Hwf. unfold account_add_trades, add_trades_within.
  destruct (foldE _ _ _) as [checked|e1] eqn:Hck; [|by intros; simplify_eq].
  apply check_account_trades_volume in Hck as (new & -> & Hnew). cbn [app].
  destruct (iterE _ _) as [u|e1]; [|by intros; simplify_eq].
  set (sorted := sorted_by t_timestamp new). assert (sorted ≡ₚ new) as Hsort by apply sorted_by_perm.
  destruct (book_account_trades pf sorted (w, a)) as [[w1 a1] [[]|e1]] eqn:Hb; [|done].
  intros ?. simplify_eq. unfold book_account_trades in Hb.
  destruct (add_new_contracts sorted a) as [a2 [[]|e]] eqn:Hn; [|done].
  destruct (add_new_contracts_spec sorted a a2 Hwf Hn) as (Hwf2 & Ht2 & Hts2 & Hknown & Hmono).
  destruct (st_iter _ _ _) as [[w3 a3] [[]|e]] eqn:Hit; [|done]. simplify_eq.
  exists new. split; [done|].
  assert (ac_trades a3 = ac_trades a2) as Htr3.
  { assert (PreOrder (fun s s' : W * Account F D => ac_trades s'.2 = ac_trades s.2)) as Hpre
      by (split; [done|intros ? ? ? ? ?; congruence]).
    apply (st_iter_rel (fun s s' : W * Account F D => ac_trades s'.2 = ac_trades s.2)) in Hit; [done|].
    intros batch [wa aa] s' rr _. unfold add_symbol_trades. destruct (dict_get _ _); [|by intros; simplify_eq].
    destruct (add_trades _ _ _) as [[? ?] ?]. by intros; simplify_eq. }
  split; [simpl; by rewrite Htr3, Ht2|]. intros Hv.
  destruct (add_batches_spec pf (group_trades sorted) (fun s => trades_of s (ac_trades a2)) w a2 w' a3)
    as (G1 & G2 & G3 & G4 & G5).
  - apply group_by_wf.
  - apply (aw_ledgers _ Hwf2).
  - apply (aw_hold _ Hwf2).
  - intros s b Hin. apply dict_In_get in Hin; [|apply group_by_wf]. apply group_by_get in Hin as [-> _].
    fold (trades_of s sorted). rewrite <- trades_of_app, Ht2.
    eapply Z.le_lt_trans; [apply volume_trades_of|].
    rewrite volume_app, (volume_perm _ _ Hsort), <- volume_app. exact Hv.
  - exact Hit.
  - split; simpl.
    + done.
    + intros s. rewrite G2, G4. apply (aw_keys _ Hwf2).
    + intros s p Hp. destruct (G5 s p Hp) as (hist & Hbk & Hperm). exists hist. split; [done|].
      rewrite Hperm, Htr3, trades_of_app.
      destruct (group_by_inv symbol_of sorted) as (_ & Hget & _). unfold group_trades. by rewrite Hget.
    + intros t Ht. rewrite G4. rewrite Htr3 in Ht. apply elem_of_app in Ht as [Ht|Ht].
      * by apply (aw_known _ Hwf2).
      * by apply Hknown.
Qed.
End AccountInvariant.

(** ** Valuation *)

Section Valuation.
Context `{PyFloat F} `{!Numpy F} `{!NumpyLaws F} `{SortedDictLaws D} {W : Type}.
Implicit Types a : Account F D.

(** A valuation replaces ledgers by ledgers of the same history. *)
Definition valued a a' : Prop :=
  ac_trades a' = ac_trades a /\ ac_contracts a' = ac_contracts a /\
  ac_starting_equity a' = ac_starting_equity a /\ ac_contract_groups a' = ac_contract_groups a /\
  ac_timestamps a' = ac_timestamps a /\ ac_calc_timestamps a' = ac_calc_timestamps a /\
  dict_keys (ac_symbol_pnls a') = dict_keys (ac_symbol_pnls a) /\
  forall s p', dict_get (ac_symbol_pnls a') s = Some p' -> exists p,
    dict_get (ac_symbol_pnls a) s = Some p /\ forall hist, booked (W:=W) p hist -> booked (W:=W) p' hist.

#[export] Instance valued_preorder : PreOrder valued.
Proof.
  split.
  - intros a. unfold valued. naive_solver.
  - intros a1 a2 a3 (H1'&H2&H3&H4&H5&H6&H7&H8) (G1&G2&G3&G4&G5&G6&G7&G8). repeat split; try congruence.
    intros s p3 Hs. destruct (G8 s p3 Hs) as (p2 & Hp2 & Hb2). destruct (H8 s p2 Hp2) as (p1 & Hp1 & Hb1).
    exists p1. split; [done|]. auto.
Qed.

Lemma valued_wf a a' : valued a a' -> account_wf (W:=W) a -> account_wf (W:=W) a'.
Proof.
  intros (H1'&H2&_&_&_&_&H7&H8) [W1 W2 W3 W4].
  assert (forall s, dict_mem (ac_symbol_pnls a') s = dict_mem (ac_symbol_pnls a) s) as Hmem.
  { intros s. unfold dict_mem. apply bool_decide_ext. rewrite <- !not_eq_None_Some, !dict_get_None. by rewrite H7. }
  split.
  - unfold dict_wf. by rewrite H7.
  - intros s. by rewrite H2, Hmem.
  - intros s p' Hp'. destruct (H8 s p' Hp') as (p & Hp & Hb). destruct (W3 s p Hp) as (hist & Hh & Hperm).
    exists hist. rewrite H1'. auto.
  - intros t Ht. rewrite H1' in Ht. rewrite Hmem. auto.
Qed.

Lemma calc_symbol_valued (pf : price_fn F W) ts acc sym w a s' r :
  calc_symbol pf ts acc sym (w, a) = (s', r) -> valued a s'.2 /\ ac_pnl s'.2 = ac_pnl a.
Proof.
  unfold calc_symbol. destruct (dict_get _ sym) as [p|] eqn:Hp; [|by intros; simplify_eq].
  destruct (calc_net_pnl pf ts (w, p)) as [[w1 p1] r1] eqn:Hc. intros Heq.
  assert (s'.2 = set_symbol_pnls a (dict_update (ac_symbol_pnls a) sym (fun _ => p1))) as ->
    by (destruct r1; simplify_eq; done).
  split; [|done]. repeat split; try done; [apply dict_keys_update|].
  intros s q. simpl. rewrite dict_get_update. case_decide; [subst|eauto].
  rewrite Hp. intros [= <-]. exists p. split; [done|]. intros hist Hb. by eapply booked_calc.
Qed.

Lemma calc_symbols_valued (pf : price_fn F W) ts syms acc w a s' r :
  calc_symbols pf ts acc syms (w, a) = (s', r) -> valued a s'.2 /\ ac_pnl s'.2 = ac_pnl a.
Proof.
  revert acc w a. induction syms as [|sym syms IH]; intros acc w a; cbn [calc_symbols]; [by intros; simplify_eq|].
  destruct (calc_symbol pf ts acc sym (w, a)) as [[w1 a1] [acc1|e]] eqn:Hc; intros Heq;
    apply calc_symbol_valued in Hc as [Hv Hp]; simpl in *.
  - apply IH in Heq as [Hv' Hp']. split; [by trans a1|congruence].
  - by simplify_eq.
Qed.

Lemma calc_at_spec (pf : price_fn F W) ts w a s' r :
  calc_at pf ts (w, a) = (s', r) -> valued a s'.2 /\
  match r with Ok _ => exists net, ac_pnl s'.2 = sd_set (ac_pnl a) ts net | Err _ => ac_pnl s'.2 = ac_pnl a end.
Proof.
  unfold calc_at. destruct (calc_symbols _ _ _ _ _) as [[w1 a1] [net|e]] eqn:Hc; intros; simplify_eq;
    apply calc_symbols_valued in Hc as [Hv Hp]; simpl in *; [|done].
  split; [|exists net; by rewrite Hp].
  destruct Hv as (G1&G2&G3&G4&G5&G6&G7&G8). repeat split; done.
Qed.

Lemma calc_valued (pf : price_fn F W) t s s' r : calc pf t s = (s', r) -> valued s.2 s'.2.
Proof.
  destruct s as [w a]. unfold calc. destruct (timestamp_index _ _); [|by intros; simplify_eq].
  destruct (sd_mem _ _); [by intros; simplify_eq|].
  destruct (intermediate_timestamps a t) as [l|]; [|by intros; simplify_eq].
  intros Hit.
  assert (PreOrder (fun s s' : W * Account F D => valued s.2 s'.2)) as Hpre.
  { split; [intros s1; reflexivity|]. intros s1 s2 s3 ? ?. by trans s2.2. }
  apply (st_iter_rel (fun s s' : W * Account F D => valued s.2 s'.2)) in Hit; [done|].
  intros ts [w1 a1] s1 r1 _ Hc. by apply calc_at_spec in Hc as [? _].
Qed.

(** The values recorded by the loop of [calc]. *)
Lemma calc_loop_pnl (pf : price_fn F W) l w a w' a' :
  st_iter (calc_at pf) l (w, a) = ((w', a'), Ok tt) ->
  forall k, (sd_mem (ac_pnl a') k = true <-> sd_mem (ac_pnl a) k = true \/ k ∈ l) /\
            (k ∉ l -> sd_get (ac_pnl a') k = sd_get (ac_pnl a) k).
Proof.
  revert w a. induction l as [|ts l IH]; intros w a; simpl.
  { unfold mret, ST_ret. intros ?; simplify_eq. intros k. split; [|done]. set_solver. }
  unfold mbind, ST_bind. destruct (calc_at pf ts (w, a)) as [[w1 a1] [[]|e]] eqn:Hc; [|done]. intros Hit k.
  apply calc_at_spec in Hc as [_ [net Hnet]]. simpl in Hnet. destruct (IH w1 a1 Hit k) as [IH1 IH2].
  assert (sd_get (ac_pnl a1) k = if decide (k = ts) then Some net else sd_get (ac_pnl a) k) as Hget.
  { unfold sd_get. rewrite Hnet, sd_items_set. apply items_get_set, sd_items_sorted. }
  split.
  - rewrite IH1. unfold sd_mem, dict_mem. fold (sd_get (ac_pnl a1) k) (sd_get (ac_pnl a) k).
    rewrite Hget, !bool_decide_eq_true. case_decide; [subst|]; set_solver.
  - intros Hk. rewrite IH2 by set_solver. rewrite Hget, decide_False by set_solver. done.
Qed.

(** The instants valued: the requested one, and the daily ones since the last
    instant recorded before it. *)
Lemma intermediate_elem a t :
  exists l, intermediate_timestamps a t = Ok l /\
  forall k, k ∈ l <-> k = t \/ (k ∈ ac_calc_timestamps a /\ k <= t /\
                                match last_le (sd_items (ac_pnl a)) t with
                                | Some (prev, _) => prev < k | None => True end).
Proof.
  unfold intermediate_timestamps. rewrite peek_before_spec. simpl. eexists. split; [done|]. intros k.
  set (l := match last_le _ t with None => _ | Some _ => _ end).
  assert (k ∈ l <-> k ∈ ac_calc_timestamps a /\ k <= t /\ match last_le (sd_items (ac_pnl a)) t with
                                | Some (prev, _) => prev < k | None => True end) as Hl.
  { unfold l. destruct (last_le _ t) as [[prev v]|]; rewrite !list_elem_of_filter; tauto. }
  case_bool_decide as Hlast; [|rewrite elem_of_app, list_elem_of_singleton; tauto].
  rewrite <- Hl. split; [tauto|]. intros [->|?]; [|done]. by apply last_Some_elem_of.
Qed.

(** [calc] when it succeeds. *)
Lemma calc_Ok (pf : price_fn F W) t w a w' a' :
  calc pf t (w, a) = ((w', a'), Ok tt) ->
  (forall k, sd_mem (ac_pnl a') k = true <-> sd_mem (ac_pnl a) k = true \/ k = t \/
     (k ∈ ac_calc_timestamps a /\ k <= t /\ forall k', sd_mem (ac_pnl a) k' = true -> k' <= t -> k' < k)
     /\ sd_mem (ac_pnl a) t = false) /\
  (forall k v, sd_get (ac_pnl a) k = Some v -> sd_get (ac_pnl a') k = Some v).
Proof.
  unfold calc. destruct (timestamp_index _ _); [|done].
  destruct (sd_mem (ac_pnl a) t) eqn:Hm.
  { intros ?; simplify_eq. split; [|done]. intros k. split; [tauto|]. intros [?|[->|[_ ?]]]; done. }
  destruct (intermediate_elem a t) as (l & -> & Hl). intros Hit.
  pose proof (calc_loop_pnl pf l w a w' a' Hit) as Hpnl.
  pose proof (sd_items_sorted (ac_pnl a)) as Hs.
  assert (forall k', sd_mem (ac_pnl a) k' = true <-> exists v, (k', v) ∈ sd_items (ac_pnl a)) as Hmem.
  { intros k'. unfold sd_mem, dict_mem. rewrite bool_decide_eq_true. split.
    - intros [v Hv]. exists v. by apply dict_get_Some_In.
    - intros [v Hv]. exists v. apply dict_In_get; [by apply sorted_NoDup|done]. }
  assert (forall k, (match last_le (sd_items (ac_pnl a)) t with Some (prev, _) => prev < k | None => True end)
    <-> forall k', sd_mem (ac_pnl a) k' = true -> k' <= t -> k' < k) as Hprev.
  { intros k. destruct (last_le (sd_items (ac_pnl a)) t) as [[prev v]|] eqn:Hp.
    - split.
      + intros Hlt k' [v' Hin]%Hmem Hle. pose proof (last_le_max _ _ _ _ Hs Hp Hin Hle). simpl in *. lia.
      + intros Hall. apply last_le_Some in Hp as [Hin Hle]. apply Hall; [apply Hmem; eauto|done].
    - split; [|done]. intros _ k' [v' Hin]%Hmem Hle. apply last_le_None in Hp. rewrite Forall_forall in Hp.
      apply Hp in Hin. simpl in Hin. lia. }
  split.
  - intros k. rewrite (proj1 (Hpnl k)), Hl, Hprev. tauto.
  - intros k v Hv. rewrite (proj2 (Hpnl k)); [done|]. rewrite Hl, Hprev.
    assert (sd_mem (ac_pnl a) k = true) as Hk.
    { unfold sd_mem, dict_mem. rewrite bool_decide_eq_true. unfold sd_get in Hv. eauto. }
    intros [->|(_ & Hle & Hall)]; [congruence|]. specialize (Hall k Hk Hle). lia.
Qed.
End Valuation.

#[global] Arguments calc : simpl never.
#[global] Arguments account_add_trades : simpl never.

(** ** Properties *)

(** The states an account reaches: batches it accepts (or refuses), valuations
    and queries, under any price callback. *)
Inductive account_reaches `{PyFloat F} `{!Numpy F} `{SortedDict D} {W : Type} : Account F D -> Prop :=
  | reaches_init groups ts callable se t a :
      Account_init groups ts callable se t = Ok a -> account_reaches a
  | reaches_add_trades (pf : price_fn F W) r st trades w a w' a' res :
      account_reaches a -> account_add_trades pf r st trades (w, a) = ((w', a'), res) ->
      volume (ac_trades a') < 2 ^ 63 -> account_reaches a'
  | reaches_calc (pf : price_fn F W) t w a w' a' res :
      account_reaches a -> calc pf t (w, a) = ((w', a'), res) -> account_reaches a'
  | reaches_equity (pf : price_fn F W) t w a w' a' res :
      account_reaches a -> equity pf t (w, a) = ((w', a'), res) -> account_reaches a'
  | reaches_position g t a a' res :
      account_reaches a -> account_position g t a = (a', res) -> account_reaches a'.

Section Reaches.
Context `{PyFloat F} `{!Numpy F} `{!NumpyLaws F} `{SortedDictLaws D} {W : Type}.

Lemma Account_init_wf groups ts callable se t (a : Account F D) :
  Account_init groups ts callable se t = Ok a -> account_wf (W:=W) a.
Proof.
  unfold Account_init. intros Hi. inv_ok Hi. destruct t; try done; inv_ok Hi;
    (split; simpl; [constructor|done|done|]; by intros t' ?%elem_of_nil).
Qed.

Lemma account_reaches_wf (a : Account F D) : account_reaches (W:=W) a -> account_wf (W:=W) a.
Proof.
  induction 1 as [groups ts callable se t a Hi|pf r st trades w a w' a' res _ IH Ha Hv
    |pf t w a w' a' res _ IH Hc|pf t w a w' a' res _ IH He|g t a a' res _ IH Hp].
  - by eapply Account_init_wf.
  - destruct res as [[]|e].
    + destruct (account_add_trades_wf pf r st trades w a w' a' IH Ha) as (new & _ & Ht & Hwf).
      apply Hwf. rewrite Ht in Hv. rewrite volume_app in *.
      by rewrite <- (volume_perm _ _ (sorted_by_perm t_timestamp new)).
    + apply account_add_trades_rollback in Ha as ->; [done|apply (aw_ledgers _ IH)].
  - apply calc_valued in Hc. by eapply valued_wf.
  - unfold equity in He. destruct (sd_get _ t); [by simplify_eq|].
    destruct (calc pf t (w, a)) as [[w1 a1] [[]|e]] eqn:Hc; apply calc_valued in Hc;
      [destruct (sd_get (ac_pnl a1) t)|]; simplify_eq; by eapply valued_wf.
  - unfold account_position in Hp. destruct (require_configured_group a g); simplify_eq; [|done].
    destruct IH. by split.
Qed.
End Reaches.

(** C4: [Account.add_trades] is atomic. Whatever raises after its checks - a
    duplicate symbol, a ledger refusing its batch, the price callback - the
    account is exactly what it was before the call; and so it is when an
    interruption arrives between any two statements of its [try] block, which
    is the sequence [book_steps]: whatever has already been recorded by then,
    among contracts, ledgers, trades, trades per date and P&L, is gone. *)
Theorem Account_add_trades_atomic `{PyFloat F} `{!Numpy F} `{!NumpyLaws F} `{SortedDictLaws D} {W}
    (pf : price_fn F W) r st trades w (a : Account F D) :
  account_reaches (W:=W) a ->
  (forall w' a' e, account_add_trades pf r st trades (w, a) = ((w', a'), Err e) -> a' = a) /\
  (forall n, exists w' e, interrupted_add_trades pf n r st trades (w, a) = ((w', a), Err e)) /\
  (forall l, book_account_trades pf l (w, a) = st_iter id (book_steps pf (sd_keys (ac_pnl a)) l) (w, a)).
Proof.
  intros Ha%account_reaches_wf. split_and!.
  - intros w' a' e. apply account_add_trades_rollback, (aw_ledgers _ Ha).
  - intros n. apply interrupted_add_trades_rollback, (aw_ledgers _ Ha).
  - intros l. apply book_account_trades_steps.
Qed.

(** C12: In every state an account reaches, each symbol's ledger reports as its
    position, at every instant, the sum of the quantities of the account's own
    trades in that symbol up to that instant, and every trade has its ledger. *)
Theorem Account_position_trades `{PyFloat F} `{!Numpy F} `{!NumpyLaws F} `{SortedDictLaws D} {W}
    (a : Account F D) :
  account_reaches (W:=W) a ->
  (forall t, t ∈ ac_trades a -> is_Some (dict_get (ac_symbol_pnls a) (symbol_of t))) /\
  forall s p t, dict_get (ac_symbol_pnls a) s = Some p ->
    position p t = Ok (sumZ (t_qty <$>
      filter (fun x => symbol_of x = s /\ t_timestamp x <= t) (ac_trades a))).
Proof.
  intros Ha%account_reaches_wf. split.
  - intros t Ht. apply (aw_known _ Ha) in Ht. unfold dict_mem in Ht. by bools.
  - intros s p t Hp. destruct (aw_hold _ Ha s p Hp) as (hist & Hb & Hperm).
    rewrite (ledger_position p hist t (booked_ledger _ _ Hb)). f_equal.
    unfold quantity, upto. rewrite Hperm. unfold trades_of. rewrite list_filter_filter.
    do 2 f_equal. apply list_filter_iff. intros x. tauto.
Qed.

(** A successful [calc] at an instant records P&L at that instant and at
    every daily calculation time since the last instant recorded before it, and
    nowhere else; what was recorded stays as it was. *)
Theorem Account_calc_records `{PyFloat F} `{!Numpy F} `{!NumpyLaws F} `{SortedDictLaws D} {W}
    (pf : price_fn F W) t w (a : Account F D) w' a' :
  calc pf t (w, a) = ((w', a'), Ok tt) ->
  (forall k, sd_mem (ac_pnl a') k = true <-> sd_mem (ac_pnl a) k = true \/ k = t \/
     (k ∈ ac_calc_timestamps a /\ k <= t /\ forall k', sd_mem (ac_pnl a) k' = true -> k' <= t -> k' < k)
     /\ sd_mem (ac_pnl a) t = false) /\
  (forall k v, sd_get (ac_pnl a) k = Some v -> sd_get (ac_pnl a') k = Some v) /\
  calc pf t (w', a') = ((w', a'), Ok tt) /\
  (exists v, equity pf t (w', a') = ((w', a'), Ok (f_add (ac_starting_equity a) v))).
Proof.
  intros Hc. destruct (calc_Ok pf t w a w' a' Hc) as [Hk Hv]. split_and!; [done|done| |].
  - pose proof (calc_valued pf t _ _ _ Hc) as (_ & _ & _ & _ & Hts & _). simpl in Hts.
    unfold calc in Hc |- *. rewrite Hts. destruct (timestamp_index _ _); [|done].
    by rewrite (proj2 (Hk t)) by auto.
  - pose proof (calc_valued pf t _ _ _ Hc) as (_ & _ & Hse & _). simpl in Hse.
    assert (sd_mem (ac_pnl a') t = true) as Hm by (apply Hk; auto).
    unfold sd_mem, dict_mem in Hm. bools. destruct Hm as [v Hm]. exists v.
    unfold equity, sd_get. by rewrite Hm, Hse.
Qed.

(** ** Daily calculation times *)

Section CalcTimestamps.
Context `{PyFloat F} `{!Numpy F} `{!NumpyLaws F}.

Lemma count_le_lookup (l : list Z) x i :
  grid l -> count_le l x = S i -> exists t, l !! i = Some t /\ t <= x /\ forall t', t' ∈ l -> t' <= x -> t' <= t.
Proof.
  intros Hs. unfold count_le. revert i. induction Hs as [|y l Hs IH Hy]; intros i; [done|].
  rewrite filter_cons. case_decide as Hle; simpl.
  - intros [= Hi]. destruct i as [|i].
    + exists y. split_and!; [done|done|]. intros t' [->|Ht]%elem_of_cons Hx; [lia|].
      exfalso. apply nil_length_inv in Hi. eapply (filter_nil_not_elem_of (fun z => z <= x)); [exact Hi|exact Hx|done].
    + destruct (IH i Hi) as (t & Ht & Htx & Hmax). exists t. split_and!; [done|done|].
      intros t' [->|Hin]%elem_of_cons Hx; [|auto]. rewrite Forall_forall in Hy.
      apply Z.lt_le_incl, Hy. by eapply list_elem_of_lookup_2.
  - intros Hi. exfalso. rewrite filter_none in Hi; [done|]. eapply Forall_impl; [exact Hy|]. simpl. lia.
Qed.

Lemma count_lt_le_lookup (l : list Z) x i t : grid l -> l !! i = Some t -> (count_lt l x <= i)%nat <-> x <= t.
Proof.
  intros Hs. revert i. unfold count_lt. induction Hs as [|y l Hs IH Hy]; intros i Hi; [done|].
  rewrite filter_cons. case_decide as Hlt.
  - destruct i as [|i]; simplify_eq/=; [split; lia|]. rewrite <- (IH i Hi). lia.
  - rewrite filter_none by (eapply Forall_impl; [exact Hy|]; simpl; lia). simpl.
    assert (y <= t); [|split; lia]. destruct i as [|i]; simplify_eq/=; [lia|].
    rewrite Forall_forall in Hy. apply Z.lt_le_incl, Hy. by eapply list_elem_of_lookup_2.
Qed.

Lemma day_of_bounds d t : day_of t = d <-> d * ns_per_day <= t < (d + 1) * ns_per_day.
Proof. unfold day_of, ns_per_day, ns_per_minute. split; [intros <-|intros ?]; Z.div_mod_to_equations; nia. Qed.

(** The indices [get_calc_timestamps] selects, given the days of the grid. *)
Definition calc_indices (l : list Z) (m : Z) (days : list Z) : list nat :=
  (fun '(s, e) => (e - 1)%nat) <$> filter (fun '(s, e) => (s < e)%nat)
    (zip (np_searchsorted_left l <$> ((fun d => d * ns_per_day) <$> days))
         (np_searchsorted_right l <$> ((fun d => d + m * ns_per_minute) <$> ((fun d => d * ns_per_day) <$> days)))).

Lemma calc_indices_elem l m days i :
  grid l -> i ∈ calc_indices l m days <-> exists d, d ∈ days /\
    i = (count_le l (d * ns_per_day + m * ns_per_minute) - 1)%nat /\
    (count_lt l (d * ns_per_day) < count_le l (d * ns_per_day + m * ns_per_minute))%nat.
Proof.
  intros Hg. unfold calc_indices. induction days as [|d days IH]; csimpl; [set_solver|].
  rewrite np_searchsorted_left_count, np_searchsorted_right_count by done.
  rewrite filter_cons. case_decide as Hlt.
  - rewrite fmap_cons, elem_of_cons, IH. split.
    + intros [->|(d' & ? & ?)]; [exists d; set_solver|exists d'; set_solver].
    + intros (d' & [->|Hd]%elem_of_cons & Hi & Hlt'); [by left|right; eauto].
  - rewrite IH. split; intros (d' & Hd & Hi & Hlt'); exists d'; (split; [|done]); [set_solver|].
    apply elem_of_cons in Hd as [->|Hd]; [done|done].
Qed.

Lemma get_calc_timestamps_elem l m t :
  grid l -> 0 <= m < 24 * 60 ->
  t ∈ get_calc_timestamps (F:=F) l m <->
  t ∈ l /\ t <= day_of t * ns_per_day + m * ns_per_minute /\
  forall t', t' ∈ l -> day_of t' = day_of t -> t' <= day_of t * ns_per_day + m * ns_per_minute -> t' <= t.
Proof.
  intros Hg Hm.
  assert (forall d x, d * ns_per_day <= x <= d * ns_per_day + m * ns_per_minute -> day_of x = d) as Hday.
  { intros d x Hx. apply day_of_bounds. unfold ns_per_day, ns_per_minute in *. lia. }
  assert (forall i, i ∈ calc_indices l m (np_unique (day_of <$> l)) <-> exists d, d ∈ day_of <$> l /\
    i = (count_le l (d * ns_per_day + m * ns_per_minute) - 1)%nat /\
    (count_lt l (d * ns_per_day) < count_le l (d * ns_per_day + m * ns_per_minute))%nat) as Hidx.
  { intros i. rewrite calc_indices_elem by done. split; intros (d & Hd & Hr); exists d; (split; [|done]);
      by apply (np_unique_elem (day_of <$> l)). }
  unfold get_calc_timestamps. rewrite list_elem_of_omap. split.
  - intros (i & (d & Hd & -> & Hlt)%Hidx & Ht).
    destruct (count_le l (d * ns_per_day + m * ns_per_minute)) as [|i] eqn:Hc; [lia|].
    destruct (count_le_lookup l _ i Hg Hc) as (t0 & Ht0 & Hle & Hmax).
    replace (S i - 1)%nat with i in Ht by lia. simplify_eq.
    assert (d * ns_per_day <= t) as Hge by (apply (count_lt_le_lookup l _ i t Hg Ht); lia).
    rewrite (Hday d t) by lia. split_and!; [by eapply list_elem_of_lookup_2|done|]. auto.
  - intros (Hin & Hle & Hmax). set (d := day_of t) in *.
    assert (d * ns_per_day <= t) as Hge by (by apply (day_of_bounds d t)).
    apply list_elem_of_lookup in Hin as [j Hj].
    pose proof (count_le_lookup l (d * ns_per_day + m * ns_per_minute)) as Hc.
    destruct (count_le l (d * ns_per_day + m * ns_per_minute)) as [|i] eqn:Hce.
    { exfalso. unfold count_le in Hce. apply nil_length_inv in Hce.
      eapply (filter_nil_not_elem_of (fun z => z <= d * ns_per_day + m * ns_per_minute)); [exact Hce|exact Hle|].
      by eapply list_elem_of_lookup_2. }
    destruct (Hc i Hg eq_refl) as (t0 & Ht0 & Hle0 & Hmax0).
    assert (t <= t0) by (apply Hmax0; [by eapply list_elem_of_lookup_2|done]).
    assert (t0 <= t).
    { apply Hmax; [by eapply list_elem_of_lookup_2| |done]. apply Hday. lia. }
    assert (t0 = t) as -> by lia. exists i. split; [|done].
    apply Hidx. exists d. split; [|rewrite Hce; split; [lia|]].
    + apply (list_elem_of_fmap_2 day_of). by eapply list_elem_of_lookup_2.
    + apply Nat.lt_succ_r. by apply (count_lt_le_lookup l _ i t Hg Ht0).
Qed.
End CalcTimestamps.

(** The daily calculation times of a grid are, for each day that has a grid
    timestamp at or before the configured time of day, the last such timestamp
    of that day, and no others. *)
Theorem get_calc_timestamps_daily `{PyFloat F} `{!Numpy F} `{!NumpyLaws F} l m t :
  grid l -> 0 <= m < 24 * 60 ->
  t ∈ get_calc_timestamps (F:=F) l m <->
  t ∈ l /\ t <= day_of t * ns_per_day + m * ns_per_minute /\
  forall t', t' ∈ l -> day_of t' = day_of t -> t' <= day_of t * ns_per_day + m * ns_per_minute -> t' <= t.
Proof. apply get_calc_timestamps_elem. Qed.

(** ** Witnesses *)

Section Demo.
Context `{PyFloat F}.

(** A registry in which the group DEFAULT holds "ES"; three instants of one day. *)
Definition demo_registry : registry F :=
  Registry [("DEFAULT"%string, DEFAULT_CG)] [("ES"%string, demo_contract 2 "ES")]
    {[1%positive := [("ES"%string, demo_contract 2 "ES")]]} 3.

Definition demo_orders : heap F := {[5%positive := unsettle (demo_order (demo_contract 2 "ES") 1 10)]}.

Definition demo_raw_trade (t qty price : Z) : arg (raw_trade F) :=
  Inst (RawTrade (Inst (demo_contract 2 "ES")) (Inst 5%positive) (Inst (Some t)) (PInt qty) (PInt price)
          (PInt 1) (PInt 2) []).

Definition demo_account : Account F sorted_items :=
  mkAccount (f_of_Z 1000) [DEFAULT_CG] [1; 2; 3] (get_calc_timestamps (F:=F) [1; 2; 3] 900) [] [] [] [] [] sd_empty.

Definition demo_interrupt : price_fn F unit := fun w _ _ _ => (w, Err KeyboardInterrupt).

(** The account after a batch given in the wrong order of time. *)
Definition demo_traded : (unit * Account F sorted_items) * result unit :=
  account_add_trades demo_price demo_registry demo_orders [demo_raw_trade 2 (-6) 103; demo_raw_trade 1 10 100]
    (tt, demo_account).
End Demo.

Definition float_account : Account spec_float sorted_items := demo_account.
Definition float_traded : (unit * Account spec_float sorted_items) * result unit := demo_traded.

Lemma demo_account_reaches : account_reaches (F:=spec_float) (W:=unit) float_account.
Proof.
  apply (reaches_init (Inst [Inst DEFAULT_CG]) (NdArray 1 true [Some 1; Some 2; Some 3]) true (PInt 1000) (PInt 900)).
  reflexivity.
Qed.

(** The price callback is interrupted; then an interruption arrives after four
    statements: the contract, its batch, the date and the trades. *)
Lemma Account_add_trades_atomic_witness :
  (let r := account_add_trades (F:=spec_float) demo_interrupt demo_registry demo_orders
             [demo_raw_trade 1 10 100] (tt, float_account) in
   r.2 = Err KeyboardInterrupt /\ r.1.2 = float_account) /\
  (exists w' e, interrupted_add_trades (F:=spec_float) demo_price 4 demo_registry demo_orders
     [demo_raw_trade 1 10 100] (tt, float_account) = ((w', float_account), Err e)).
Proof.
  split; [|apply (Account_add_trades_atomic (F:=spec_float) demo_price demo_registry demo_orders
    [demo_raw_trade 1 10 100] tt float_account demo_account_reaches)].
  intros r. assert (r.2 = Err KeyboardInterrupt) as Hr by (vm_compute; reflexivity). split; [exact Hr|].
  apply (proj1 (Account_add_trades_atomic (F:=spec_float) demo_interrupt demo_registry demo_orders [demo_raw_trade 1 10 100] tt
    float_account demo_account_reaches) r.1.1 r.1.2 KeyboardInterrupt).
  by apply run_eta.
Defined.

Lemma demo_traded_reaches : account_reaches (F:=spec_float) (W:=unit) float_traded.1.2.
Proof.
  eapply (reaches_add_trades (F:=spec_float) demo_price demo_registry demo_orders _ tt float_account float_traded.1.1);
    [apply demo_account_reaches|by apply run_eta|vm_compute; reflexivity].
Qed.

Lemma Account_position_trades_witness :
  exists p, dict_get (ac_symbol_pnls (F:=spec_float) float_traded.1.2) "ES" = Some p /\ position p 3 = Ok 4.
Proof.
  destruct (dict_get (ac_symbol_pnls (F:=spec_float) float_traded.1.2) "ES") as [p|] eqn:Hp.
  - exists p. split; [reflexivity|].
    refine (eq_trans (proj2 (Account_position_trades (F:=spec_float) float_traded.1.2 demo_traded_reaches) "ES" p 3 Hp) _).
    vm_compute. reflexivity.
  - exfalso. revert Hp. vm_compute. discriminate.
Defined.

Lemma Account_calc_records_witness :
  let s := calc (F:=spec_float) demo_price 3 float_traded.1 in
  s.2 = Ok tt /\ sd_mem (ac_pnl s.1.2) 3 = true.
Proof.
  intros s. assert (s.2 = Ok tt) as Hs by (vm_compute; reflexivity). split; [exact Hs|].
  assert (calc (F:=spec_float) demo_price 3 (float_traded.1.1, float_traded.1.2) = ((s.1.1, s.1.2), Ok tt)) as Hc.
  { rewrite <- surjective_pairing. by apply run_eta. }
  apply (proj1 (Account_calc_records (F:=spec_float) demo_price 3 float_traded.1.1 float_traded.1.2 s.1.1 s.1.2 Hc)).
  right. left. reflexivity.
Defined.

Lemma get_calc_timestamps_daily_witness :
  2 * ns_per_minute ∈ get_calc_timestamps (F:=spec_float) [1; 2 * ns_per_minute; 4 * ns_per_minute] 3.
Proof.
  apply (get_calc_timestamps_daily (F:=spec_float) [1; 2 * ns_per_minute; 4 * ns_per_minute] 3).
  - repeat constructor.
  - split; [discriminate|reflexivity].
  - split; [rewrite !elem_of_cons; by auto|]. split; [unfold ns_per_minute; vm_compute; discriminate|].
    intros t' Ht' _ Hle. rewrite !elem_of_cons in Ht'.
    change (day_of (2 * ns_per_minute)) with 0 in *. unfold ns_per_minute in *.
    destruct Ht' as [->|[->|[->|Ht']]]; [lia|lia|lia|by apply elem_of_nil in Ht'].
Defined.
