(* ===== verification/Callbacks.v ===== *)
(** * The trust boundary of user callbacks: [callback_contracts.py],
    [order_callback_state.py] and [execution_snapshots.py]

    Rules and market simulators share the order objects with the engine.  A
    callback is given the heap of live objects and may change any of them; what
    it returns is references.  The validators decide what the engine lets in,
    and [OrderCallbackState] what a callback may have done to pending orders. *)

From stdpp Require Import pretty.
From S2P Require Import Prelude Numeric Instruments Contracts Orders.
From Stdlib Require Import SpecFloat.

Open Scope Z_scope.

Section Callbacks.
Context `{PyFloat F}.

(** ** Stage values *)

(** What an indicator or signal callback returned, after [series_to_array]. *)
Record stage_array := StageArray { sa_ndim : nat; sa_values : list (pyval F) }.

Definition validate_stage_values (result : arg stage_array) (expected_length : nat) : Prelude.result (list (pyval F)) :=
  match result with
  | NotInst => Err (TypeError "callback must return a NumPy array or Polars Series")
  | Inst a =>
      unless (sa_ndim a =? 1)%nat raise ValueError "callback must return a one-dimensional array" ;;
      unless (length (sa_values a) =? expected_length)%nat
        raise ValueError "callback returned the wrong number of values" ;;
      Ok (sa_values a)
  end.

(** ** Engine-owned fields of pending orders *)

Record OrderCallbackState := {
  cs_order : positive;
  cs_contract : arg (contract F);
  cs_timestamp : arg (option Z);
  cs_time_in_force : arg TimeInForce;
  cs_qty : pyval F;
  cs_status : arg OrderStatus;
}.

Definition capture (st : heap F) (oid : positive) : option OrderCallbackState :=
  (fun r => {| cs_order := oid; cs_contract := r_contract r; cs_timestamp := r_timestamp r;
               cs_time_in_force := r_time_in_force r; cs_qty := r_qty r; cs_status := r_status r |}) <$> st !! oid.

(** [is] between two fields; a value that is no instance is never the captured
    one, because a captured field was validated. *)
Definition contract_is (a b : arg (contract F)) : bool :=
  match a, b with Inst a, Inst b => is_contract a b | _, _ => false end.
Definition inst_eqb {A} `{EqDecision A} (a b : arg A) : bool :=
  match a, b with Inst a, Inst b => bool_decide (a = b) | _, _ => false end.

(** [validate_identity] *)
Definition validate_identity (s : OrderCallbackState) (st : heap F) : result unit :=
  match st !! cs_order s with
  | None => Err (ValueError "callback changed submitted order contract")
  | Some r =>
      unless contract_is (r_contract r) (cs_contract s)
        raise ValueError "callback changed submitted order contract" ;;
      unless inst_eqb (r_timestamp r) (cs_timestamp s)
        raise ValueError "callback changed submitted order timestamp" ;;
      unless inst_eqb (r_time_in_force r) (cs_time_in_force s)
        raise ValueError "callback changed submitted order time_in_force" ;;
      Ok tt
  end.

Definition cancellable (s : arg OrderStatus) : bool :=
  match s with Inst (OPEN | PARTIALLY_FILLED | CANCEL_REQUESTED) => true | _ => false end.
Definition cancels (s : arg OrderStatus) : bool :=
  match s with Inst (CANCEL_REQUESTED | CANCELLED) => true | _ => false end.

(** [validate_unchanged] *)
Definition validate_unchanged (allow_cancel : bool) (s : OrderCallbackState) (st : heap F) : result unit :=
  _ ← validate_identity s st;
  match st !! cs_order s with
  | None => Err (ValueError "callback changed submitted order contract")
  | Some r =>
      whenever negb (is_real (r_qty r)) || negb (py_eqb (r_qty r) (cs_qty s))
        raise ValueError "callback changed protected order quantity" ;;
      if inst_eqb (r_status r) (cs_status s) then Ok tt
      else if allow_cancel && cancellable (cs_status s) && cancels (r_status r) then Ok tt
      else Err (ValueError "callback changed protected order status")
  end.

(** [restore] *)
Definition restore_order (s : OrderCallbackState) (st : heap F) : heap F :=
  alter (fun r => RawOrder (cs_contract s) (cs_timestamp s) (cs_qty s) (r_reason_code r)
                    (cs_time_in_force s) (r_properties r) (cs_status s) (r_kind r)) (cs_order s) st.

Definition restore_all (l : list OrderCallbackState) (st : heap F) : heap F :=
  foldl (fun st s => restore_order s st) st l.

Definition capture_all (st : heap F) (ids : list positive) : list OrderCallbackState :=
  omap (capture st) ids.

(** ** Orders a rule returned *)

(** The contract registered under the symbol is this object. *)
Definition registered_is (reg : registry F) (g : group) (c : contract F) : bool :=
  match dict_get (members reg g) (c_symbol c) with Some c' => is_contract c' c | None => false end.

(** A new object. *)
Definition alloc (st : heap F) (r : raw_order F) : heap F * positive :=
  let oid := fresh (dom st) in (<[oid := r]> st, oid).

(** A leg, stamped with the batch ordinal when the engine gave one. *)
Definition stamp_leg (prefix : option string) (index : nat) (o : order F) : raw_order F :=
  match prefix with
  | None => unsettle o
  | Some p => with_properties (unsettle o)
      (dict_set (o_properties o) "_gambit_roll_id" (PStr (p +:+ ":" +:+ pretty index)))
  end.

(** The expansion of a roll: two fresh objects. *)
Definition expand_roll (oid : positive) (r : raw_order F) (prefix : option string) (index : nat)
  (st : heap F) : heap F * result (list positive) :=
  match legs r (pretty oid) with
  | Err e => (st, Err e)
  | Ok (close, reopen) =>
      let '(st, a) := alloc st (stamp_leg prefix index close) in
      let '(st, b) := alloc st (stamp_leg prefix index reopen) in
      (st, Ok [a; b])
  end.

(** The checks of one returned order, before a roll is expanded. *)
Definition check_rule_order (reg : registry F) (g : group) (now : Z) (r : raw_order F) : result unit :=
  whenever (match r_kind r with RStopLimit _ _ => true | _ => false end)
    raise ValueError "StopLimitOrder is deprecated and cannot be executed" ;;
  '(c, t, _, _) ← validate_order_references r;
  _ ← (match r_kind r with RRoll _ _ _ => Ok 0 | _ => whole_quantity (r_qty r) end);
  _ ← (match r_kind r with RLimit p => _ ← finite_real p; Ok tt | _ => Ok tt end);
  unless is_group (c_contract_group c) g raise ValueError "rule returned an order outside contract group" ;;
  unless registered_is reg g c raise ValueError "rule returned an unregistered contract" ;;
  unless bool_decide (t = Some now)
    raise ValueError "rule order timestamp does not match the current strategy timestamp" ;;
  match r_kind r with
  | RVWAP stop e =>
      _ ← validate_window (r_timestamp r) e;
      validate_stop stop
  | RRoll reopen _ _ =>
      match reopen with
      | NotInst => Err (AttributeError "symbol")
      | Inst rc => unless registered_is reg g rc raise ValueError "rule returned an unregistered roll contract" ;; Ok tt
      end
  | _ => Ok tt
  end.

(** One iteration of the loop: the identities seen and the orders so far. *)
Definition admit_order (reg : registry F) (g : group) (now : Z) (prefix : option string)
  (acc : nat * list positive * list positive) (x : arg positive) (st : heap F)
  : heap F * result (nat * list positive * list positive) :=
  let '(index, seen, orders) := acc in
  match x with
  | NotInst => (st, Err (TypeError "rule callback returned a non-Order value"))
  | Inst oid =>
  match st !! oid with
  | None => (st, Err (TypeError "rule callback returned a non-Order value"))
  | Some r =>
      if bool_decide (oid ∈ seen)
      then (st, Err (ValueError "rule returned a duplicate or already-pending order object"))
      else match check_rule_order reg g now r with
           | Err e => (st, Err e)
           | Ok _ =>
               match r_kind r with
               | RRoll _ _ _ =>
                   match expand_roll oid r prefix index st with
                   | (st, Err e) => (st, Err e)
                   | (st, Ok ids) => (st, Ok (S index, oid :: seen, orders ++ ids))
                   end
               | _ => (st, Ok (S index, oid :: seen, orders ++ [oid]))
               end
           end
  end end.

Fixpoint admit_orders (reg : registry F) (g : group) (now : Z) (prefix : option string)
  (acc : nat * list positive * list positive) (l : list (arg positive)) (st : heap F)
  : heap F * result (list positive) :=
  match l with
  | [] => (st, Ok acc.2)
  | x :: l =>
      match admit_order reg g now prefix acc x st with
      | (st, Err e) => (st, Err e)
      | (st, Ok acc) => admit_orders reg g now prefix acc l st
      end
  end.

(** [validate_rule_orders] *)
Definition validate_rule_orders (reg : registry F) (result : arg (list (arg positive))) (g : group) (now : Z)
  (pending_orders : list positive) (roll_id_prefix : option string) (st : heap F)
  : heap F * Prelude.result (list positive) :=
  match result with
  | NotInst => (st, Err (TypeError "rule callback must return a sequence of Order objects"))
  | Inst submitted => admit_orders reg g now roll_id_prefix (O, pending_orders, []) submitted st
  end.

(** ** Trades a market simulator returned *)

(** The quantity and status an order had before the callback. *)
Definition order_states := list (positive * (Z * arg OrderStatus)).

Definition check_market_trade (open_orders : list positive) (now : Z) (states : order_states) (st : heap F)
  (acc : list (positive * Z) * list (raw_trade F)) (t : arg (raw_trade F))
  : result (list (positive * Z) * list (raw_trade F)) :=
  let '(filled, trades) := acc in
  match t with
  | NotInst => Err (TypeError "market simulator returned a non-Trade value")
  | Inst t =>
      '(_, _, ts) ← validate_trade_references (rt_contract t) (find_order st (rt_order t)) (rt_timestamp t);
      match rt_order t with
      | NotInst => Err (TypeError "trade order must be an Order")
      | Inst oid =>
          unless bool_decide (oid ∈ open_orders)
            raise ValueError "market simulator returned a trade for an order outside the open order set" ;;
          unless ts =? now
            raise ValueError "market simulator trade timestamp does not match the current strategy timestamp" ;;
          '(quantity, _, _, _) ← validated_trade_numbers (rt_qty t) (rt_price t) (rt_fee t) (rt_commission t);
          match dict_get states oid with
          | None => Err (KeyError "order")
          | Some (original_quantity, _) =>
              unless Bool.eqb (0 <? quantity) (0 <? original_quantity)
                raise ValueError "market simulator fill has the opposite sign to its originating order" ;;
              let total := default 0 (dict_get filled oid) + quantity in
              whenever Z.abs original_quantity <? Z.abs total
                raise ValueError "market simulator fills exceed the originating order remaining quantity" ;;
              Ok (dict_set filled oid total, trades ++ [t])
          end
      end
  end.

Definition expected_fill_status (remaining : Z) : OrderStatus :=
  if remaining =? 0 then FILLED else PARTIALLY_FILLED.

(** The order's fields agree with the trades reported for it. *)
Definition fill_consistent (states : order_states) (filled : list (positive * Z)) (st : heap F) (oid : positive)
  : result unit :=
  match dict_get states oid, st !! oid with
  | Some (original_quantity, original_status), Some r =>
      let filled_quantity := default 0 (dict_get filled oid) in
      let expected_remaining := original_quantity - filled_quantity in
      let did_not_apply_fill :=
        py_eqb (r_qty r) (PInt original_quantity) && inst_eqb (r_status r) original_status in
      let applied_fill :=
        negb (filled_quantity =? 0) && py_eqb (r_qty r) (PInt expected_remaining) &&
        (inst_eqb (r_status r) (Inst (expected_fill_status expected_remaining)) ||
         inst_eqb (r_status r) (Inst CANCELLED)) in
      let cancelled_order :=
        (filled_quantity =? 0) && py_eqb (r_qty r) (PInt original_quantity) &&
        inst_eqb (r_status r) (Inst CANCELLED) in
      unless did_not_apply_fill || applied_fill || cancelled_order
        raise ValueError "market simulator trades do not match the originating order quantity changes" ;;
      Ok tt
  | _, _ => Err (KeyError "order")
  end.

(** [validate_market_trades] *)
Definition validate_market_trades (result : arg (list (arg (raw_trade F)))) (open_orders : list positive)
  (now : Z) (states : order_states) (st : heap F) : Prelude.result (list (raw_trade F)) :=
  match result with
  | NotInst => Err (TypeError "market simulator must return a sequence of Trade objects")
  | Inst l =>
      '(filled, trades) ← foldE (check_market_trade open_orders now states st) ([], []) l;
      _ ← iterE (fill_consistent states filled st) open_orders;
      Ok trades
  end.

(** [snapshot_order] and [snapshot_trade]: values are immutable here, so a copy
    detached from the live object is the object's current value. *)
Definition snapshot_order (st : heap F) (oid : positive) : option (raw_order F) := st !! oid.
End Callbacks.

Arguments stage_array F : clear implicits.
Arguments OrderCallbackState F : clear implicits.

(** ** What the validators establish *)

Section CallbackFacts.
Context `{PyFloat F}.
Implicit Types (st : heap F) (r : raw_order F).

Lemma py_eqb_int (v : pyval F) z : py_eqb v (PInt z) = true <-> py_int v = Some z.
Proof.
  destruct v as [|b|b|y|x|y|x|s|i]; unfold py_eqb, int_float_eqb, py_int, whole_float; try (split; congruence);
    try (rewrite Z.eqb_eq; split; congruence);
    destruct (f_isfinite x && f_is_integer x); simpl; rewrite ?Z.eqb_eq; split; congruence.
Qed.

Lemma inst_eqb_true {A} `{EqDecision A} (a b : arg A) : inst_eqb a b = true <-> exists x, a = Inst x /\ b = Inst x.
Proof.
  unfold inst_eqb. destruct a as [a|], b as [b|]; rewrite ?bool_decide_eq_true; split; naive_solver.
Qed.

(** An order the engine may hold: what admission checked. *)
Record admitted (reg : registry F) (g : group) (now : Z) r : Prop := {
  ad_contract : exists c, r_contract r = Inst c /\ is_group (c_contract_group c) g = true /\ registered_is reg g c = true;
  ad_timestamp : r_timestamp r = Inst (Some now);
  ad_tif : exists tif, r_time_in_force r = Inst tif;
  ad_status : exists s, r_status r = Inst s;
  ad_qty : exists q, whole_quantity (r_qty r) = Ok q;
  ad_kind : match r_kind r with
            | RStopLimit _ _ | RRoll _ _ _ => False
            | RLimit p => exists x, finite_real p = Ok x
            | RVWAP stop e => validate_stop stop = Ok tt /\ exists x, e = Inst (Some x) /\ now <= x
            | _ => True
            end;
}.

Lemma validate_order_references_Ok r c t tif s :
  validate_order_references r = Ok (c, t, tif, s) <->
  r_contract r = Inst c /\ r_timestamp r = Inst t /\ r_time_in_force r = Inst tif /\ r_status r = Inst s.
Proof.
  unfold validate_order_references.
  destruct (r_contract r), (r_timestamp r), (r_time_in_force r), (r_status r); naive_solver.
Qed.

Lemma check_rule_order_Ok reg g now r :
  check_rule_order reg g now r = Ok tt ->
  match r_kind r with
  | RRoll reopen _ _ => (exists rc, reopen = Inst rc /\ registered_is reg g rc = true) /\
      exists c, r_contract r = Inst c /\ is_group (c_contract_group c) g = true /\ registered_is reg g c = true /\
        r_timestamp r = Inst (Some now)
  | _ => admitted reg g now r
  end.
Proof.
  unfold check_rule_order. intros Hc. inv_ok Hc. destruct a as [[[c t] tif] s]. inv_ok Hc. bools. subst t.
  apply validate_order_references_Ok in Hbind as (? & Ht & ? & ?).
  destruct (r_kind r) as [| |p|reopen cq rq|tp p|stop e] eqn:Hk; try done.
  - constructor; rewrite ?Hk; eauto.
  - constructor; rewrite ?Hk; eauto.
  - inv_ok Hbind1. constructor; rewrite ?Hk; eauto.
  - destruct reopen as [rc|]; [|done]. inv_ok Hc. eauto 10.
  - apply bind_Ok_inv in Hc as (e' & Hw & Hs). unfold validate_window in Hw. rewrite Ht in Hw.
    destruct e as [[e|]|]; try done. inv_ok Hw. bools. constructor; rewrite ?Hk; eauto 10.
Qed.

(** New objects are only ever added. *)
Definition extends st st' : Prop := forall oid r, st !! oid = Some r -> st' !! oid = Some r.

#[export] Instance extends_preorder : PreOrder extends.
Proof. split; [by intros st oid r|]. intros a b c Hab Hbc oid r Hr. by apply Hbc, Hab. Qed.

Lemma alloc_spec st r st' oid :
  alloc st r = (st', oid) -> extends st st' /\ st !! oid = None /\ st' !! oid = Some r.
Proof.
  unfold alloc. intros [= <- <-].
  assert (st !! fresh (dom st) = None) as Hn by (apply not_elem_of_dom, is_fresh).
  split_and!; [|done|by rewrite lookup_insert_eq].
  intros oid x Hx. rewrite lookup_insert_ne; [done|]. congruence.
Qed.

Lemma mk_leg_admitted reg g now (o : order F) :
  o_kind o = RMarket -> o_timestamp o = Some now ->
  is_group (c_contract_group (o_contract o)) g = true -> registered_is reg g (o_contract o) = true ->
  whole_quantity (PInt (o_qty o) : pyval F) = Ok (o_qty o) ->
  forall p, admitted reg g now (with_properties (unsettle o) p).
Proof. intros Hk Ht Hg Hr Hq p. constructor; simpl; rewrite ?Hk, ?Ht; eauto. Qed.

Lemma expand_roll_Ok reg g now oid r prefix index st st' ids :
  (exists rc a b, r_kind r = RRoll (Inst rc) a b /\ registered_is reg g rc = true) ->
  (exists c, r_contract r = Inst c /\ is_group (c_contract_group c) g = true /\ registered_is reg g c = true /\
     r_timestamp r = Inst (Some now)) ->
  expand_roll oid r prefix index st = (st', Ok ids) ->
  extends st st' /\ exists a b, ids = [a; b] /\ a <> b /\ st !! a = None /\ st !! b = None /\
    exists r1 r2, st' !! a = Some r1 /\ st' !! b = Some r2 /\ admitted reg g now r1 /\ admitted reg g now r2.
Proof.
  intros (rc & ? & ? & Hk & Hrc) (c & Hc & Hg & Hreg & Ht) He. unfold expand_roll in He.
  destruct (legs r (pretty oid)) as [[o1 o2]|] eqn:Hl; [|done].
  destruct (alloc st _) as [st1 a] eqn:Ha. apply alloc_spec in Ha as (He1 & Hn1 & Hs1).
  destruct (alloc st1 _) as [st2 b] eqn:Hb. apply alloc_spec in Hb as (He2 & Hn2 & Hs2).
  simplify_eq. split; [by etrans|]. exists a, b. split_and!; [done|by intros ->; congruence|done| |].
  { apply eq_None_not_Some. intros [y Hy]. apply He1 in Hy. congruence. }
  apply legs_Ok in Hl as Hl'.
  destruct Hl' as (re & cq & rq & rc' & q1 & q2 & Hk' & Hv & _ & Hc1 & Hc2 & _ & _ & Hk1 & Hk2 & _ & _ & Ht1 & Ht2 & _).
  apply validated_terms_Ok in Hv as (c' & Hc' & Hre & _ & _ & _ & Hgg & _).
  apply legs_qty in Hl as [Hq1 Hq2]. rewrite Hk in Hk'. simplify_eq.
  exists (stamp_leg prefix index o1), (stamp_leg prefix index o2).
  assert (forall o, (forall p, admitted reg g now (with_properties (unsettle o) p)) -> admitted reg g now (stamp_leg prefix index o)) as Hst.
  { intros o Ho. unfold stamp_leg. destruct prefix; [done|]. exact (Ho (o_properties o)). }
  rewrite Hc in Hc1. rewrite Ht in Ht1. rewrite Hc in Hc'. simplify_eq.
  split_and!; [by apply He2|done|apply Hst; apply mk_leg_admitted; congruence|].
  apply Hst. apply mk_leg_admitted; try congruence.
  unfold is_group in *. bools. apply bool_decide_eq_true. congruence.
Qed.

(** What the loop has admitted so far. *)
Record admitting (reg : registry F) (g : group) (now : Z) st0 st (seen0 seen orders : list positive) : Prop := {
  am_extends : extends st0 st;
  am_seen : forall oid, oid ∈ seen0 -> oid ∈ seen;
  am_dom : forall oid, oid ∈ seen -> is_Some (st !! oid);
  am_nodup : NoDup orders;
  am_fresh : forall oid, oid ∈ orders -> oid ∉ seen0;
  am_orders : forall oid, oid ∈ orders -> (oid ∈ seen \/ st0 !! oid = None) /\
                exists r, st !! oid = Some r /\ admitted reg g now r;
}.

Lemma admit_order_Ok reg g now prefix st0 st seen0 index seen orders x st' acc' :
  (forall oid, oid ∈ seen0 -> is_Some (st0 !! oid)) ->
  (forall oid, Inst oid = x -> is_Some (st !! oid) -> is_Some (st0 !! oid)) ->
  admitting reg g now st0 st seen0 seen orders ->
  admit_order reg g now prefix (index, seen, orders) x st = (st', Ok acc') ->
  admitting reg g now st0 st' seen0 acc'.1.2 acc'.2.
Proof.
  intros Hpend Hold [H1 H2 H3 H4 H5 H6] Ha. unfold admit_order in Ha.
  destruct x as [oid|]; [|done]. destruct (st !! oid) as [r|] eqn:Hr; [|done].
  specialize (Hold oid eq_refl ltac:(eauto)).
  case_bool_decide as Hin; [done|]. destruct (check_rule_order reg g now r) as [[]|] eqn:Hc; [|done].
  apply check_rule_order_Ok in Hc.
  assert (forall s, extends st s -> forall i, i ∈ oid :: seen -> is_Some (s !! i)) as Hdom.
  { intros s Hs i [->|Hi]%elem_of_cons; [by eexists; apply Hs|]. destruct (H3 i Hi) as [y Hy]. eexists. by apply Hs. }
  assert (admitted reg g now r -> admitting reg g now st0 st seen0 (oid :: seen) (orders ++ [oid])) as Hone.
  { intros Had. constructor; [done|intros i Hi; right; by apply H2|by apply Hdom| | |].
    - apply NoDup_app. split_and!; [done| |apply NoDup_singleton].
      intros i Hi Hi2. apply list_elem_of_singleton in Hi2 as ->.
      destruct (H6 oid Hi) as [[?|Hn] _]; [done|]. rewrite Hn in Hold. by destruct Hold.
    - intros i [Hi|Hi%list_elem_of_singleton]%elem_of_app; [by apply H5|]. subst. intros Hp. by apply Hin, H2.
    - intros i [Hi|Hi%list_elem_of_singleton]%elem_of_app.
      + destruct (H6 i Hi) as [[?|?] Hx]; split; [left; by right|done|by right|done].
      + subst. split; [left; left|eauto]. }
  destruct (r_kind r) as [| |p|reopen cq rq|tp p|stop e] eqn:Hk; simplify_eq/=; try (by apply Hone).
  destruct (expand_roll oid r prefix index st) as [st1 [ids|]] eqn:He; simplify_eq/=.
  destruct Hc as [(rc & -> & Hrc) Hc].
  destruct (expand_roll_Ok reg g now oid r prefix index st st' ids) as (Hext & a & b & -> & Hab & Ha & Hb & r1 & r2 & Hr1 & Hr2 & Ha1 & Ha2); eauto 10.
  assert (forall i, st !! i = None -> (i ∉ orders) /\ (i ∉ seen0) /\ st0 !! i = None) as Hnew.
  { intros i Hi. split_and!.
    - intros Hio. destruct (H6 i Hio) as [_ (y & Hy & _)]. congruence.
    - intros Hp. destruct (Hpend i Hp) as [y Hy]. apply H1 in Hy. congruence.
    - apply eq_None_not_Some. intros [y Hy]. apply H1 in Hy. congruence. }
  destruct (Hnew a Ha) as (?&?&?), (Hnew b Hb) as (?&?&?).
  constructor; [by etrans|intros i Hi; right; by apply H2|by apply Hdom| | |].
  - apply NoDup_app. split_and!; [done| |].
    + intros i Hi. rewrite !elem_of_cons, elem_of_nil. by intros [ -> |[ -> |[]]].
    + apply NoDup_cons. split; [by rewrite list_elem_of_singleton|apply NoDup_singleton].
  - intros i. rewrite elem_of_app, !elem_of_cons, elem_of_nil. intros [Hi|[ -> |[ -> |[]]]]; auto.
  - intros i. rewrite elem_of_app, !elem_of_cons, elem_of_nil. intros [Hi|[ -> |[ -> |[]]]]; [|eauto..].
    destruct (H6 i Hi) as [Hs (y & Hy & Hady)]. split; [destruct Hs; [left; by right|by right]|]. eauto.
Qed.

Lemma admit_orders_Ok reg g now prefix st0 l : forall st seen0 index seen orders st' ids,
  (forall oid, oid ∈ seen0 -> is_Some (st0 !! oid)) ->
  (forall oid, Inst oid ∈ l -> is_Some (st0 !! oid)) ->
  admitting reg g now st0 st seen0 seen orders ->
  admit_orders reg g now prefix (index, seen, orders) l st = (st', Ok ids) ->
  exists seen', admitting reg g now st0 st' seen0 seen' ids.
Proof.
  induction l as [|x l IH]; intros st seen0 index seen orders st' ids Hp Hl Hi Ha; cbn [admit_orders] in Ha.
  { injection Ha as <- <-. by exists seen. }
  destruct (admit_order reg g now prefix (index, seen, orders) x st) as [st1 [[[i1 s1] o1]|]] eqn:Hx; [|done].
  eapply IH; [exact Hp|intros oid Ho; apply Hl; by right| |exact Ha].
  eapply (admit_order_Ok _ _ _ _ _ _ _ _ _ _ _ _ (i1, s1, o1)); [exact Hp| |exact Hi|exact Hx].
  intros oid <- _. apply Hl. left.
Qed.

(** ** Market trades *)

Definition trade_quantity (t : raw_trade F) : Z :=
  match whole_quantity (rt_qty t) with Ok q => q | Err _ => 0 end.

(** The quantity a batch reports for one order. *)
Definition reported (oid : positive) (trades : list (raw_trade F)) : Z :=
  sumZ (trade_quantity <$> filter (fun t => rt_order t = Inst oid) trades).

(** What [check_market_trade] establishes of a trade. *)
Definition trade_for (open_orders : list positive) (now : Z) st (t : raw_trade F) : Prop :=
  exists oid r c, rt_order t = Inst oid /\ oid ∈ open_orders /\ st !! oid = Some r /\
    rt_timestamp t = Inst (Some now) /\ rt_contract t = Inst c /\ contract_is (r_contract r) (Inst c) = true /\
    exists q p f k, validated_trade_numbers (rt_qty t) (rt_price t) (rt_fee t) (rt_commission t) = Ok (q, p, f, k).

(** The state of the loop: the totals are the reported quantities, each within
    the order's remaining quantity and on its side. *)
Definition fills_ok (open_orders : list positive) (now : Z) (states : order_states) st
  (acc : list (positive * Z) * list (raw_trade F)) : Prop :=
  Forall (trade_for open_orders now st) acc.2 /\
  (forall oid, default 0 (dict_get acc.1 oid) = reported oid acc.2) /\
  (forall oid q0 s0, dict_get states oid = Some (q0, s0) ->
     0 <= q0 * reported oid acc.2 /\ Z.abs (reported oid acc.2) <= Z.abs q0).

Lemma reported_app oid l1 l2 : reported oid (l1 ++ l2) = reported oid l1 + reported oid l2.
Proof. unfold reported. by rewrite filter_app, fmap_app, sumZ_app. Qed.

Lemma reported_one oid t : reported oid [t] = if decide (rt_order t = Inst oid) then trade_quantity t else 0.
Proof. unfold reported. rewrite filter_cons. case_decide; simpl; by rewrite ?sumZ_cons, ?sumZ_nil, ?Z.add_0_r. Qed.

Lemma validate_trade_references_Ok (c : arg (contract F)) o ts c' o' t :
  validate_trade_references c o ts = Ok (c', o', t) ->
  c = Inst c' /\ o = Inst o' /\ ts = Inst (Some t) /\ contract_is (r_contract o') (Inst c') = true /\
  exists ot, r_timestamp o' = Inst (Some ot) /\ ot <= t.
Proof.
  unfold validate_trade_references. intros Hv. destruct c as [c|], o as [o|]; try done. inv_ok Hv.
  destruct ts as [[t0|]|]; try done. destruct (r_timestamp o) as [[ot|]|] eqn:Hot; try done. inv_ok Hv. bools.
  split_and!; try done; [|eauto]. destruct (r_contract o'); [|done].
  unfold contract_is, is_contract in *. bools. apply bool_decide_eq_true. congruence.
Qed.

Lemma find_order_Inst st o r : find_order st o = Inst r -> exists oid, o = Inst oid /\ st !! oid = Some r.
Proof. destruct o as [oid|]; simpl; [|done]. destruct (st !! oid) eqn:E; naive_solver. Qed.

Lemma check_market_trade_Ok open_orders now states st acc t acc' :
  (forall oid, oid ∈ open_orders -> is_Some (dict_get states oid)) ->
  fills_ok open_orders now states st acc ->
  check_market_trade open_orders now states st acc t = Ok acc' ->
  fills_ok open_orders now states st acc' /\ exists t', t = Inst t' /\ acc'.2 = acc.2 ++ [t'].
Proof.
  intros Hst (H1 & H2 & H3) Hc. destruct acc as [filled trades], t as [t|]; [|done]. simpl in *.
  apply bind_Ok_inv in Hc as ([[c r] ts] & Href & Hc).
  apply validate_trade_references_Ok in Href as (Hcc & Ho & Hts & Hcis & _).
  apply find_order_Inst in Ho as (oid & Ho & Hr). rewrite Ho in Hc. inv_ok Hc.
  destruct a as [[[q p] f] k]. bools. subst ts.
  destruct (dict_get states oid) as [[q0 s0]|] eqn:Hs; [|done]. inv_ok Hc. bools.
  split; [|eauto]. assert (whole_quantity (rt_qty t) = Ok q) as Hq.
  { unfold validated_trade_numbers in Hbind. by inv_ok Hbind. }
  assert (trade_quantity t = q) as Htq by (unfold trade_quantity; by rewrite Hq).
  split_and!; simpl.
  - apply Forall_app. split; [done|]. apply Forall_singleton. unfold trade_for. eauto 15.
  - intros i. rewrite dict_get_set, reported_app, reported_one, Ho, <- H2, Htq.
    destruct (decide (i = oid)) as [->|]; simpl; [by rewrite decide_True|]. rewrite decide_False by congruence. lia.
  - intros i q1 s1 Hi. rewrite reported_app, reported_one, Ho, Htq. specialize (H3 i q1 s1 Hi).
    case_decide; simplify_eq; [|lia]. rewrite H2 in *.
    match goal with E : Bool.eqb _ _ = true |- _ => apply Bool.eqb_prop in E end.
    destruct (Z.ltb_spec 0 (trade_quantity t)), (Z.ltb_spec 0 q0); try done; nia.
Qed.

Lemma check_market_trades_Ok open_orders now states st l : forall acc acc',
  (forall oid, oid ∈ open_orders -> is_Some (dict_get states oid)) ->
  fills_ok open_orders now states st acc ->
  foldE (check_market_trade open_orders now states st) acc l = Ok acc' ->
  fills_ok open_orders now states st acc' /\ exists new, l = Inst <$> new /\ acc'.2 = acc.2 ++ new.
Proof.
  induction l as [|t l IH]; intros acc acc' Hst Hacc Hf; cbn [foldE] in Hf.
  - simplify_eq. split; [done|]. exists []. by rewrite app_nil_r.
  - apply bind_Ok_inv in Hf as (acc1 & Ht & Hf).
    destruct (check_market_trade_Ok _ _ _ _ _ _ _ Hst Hacc Ht) as [Hacc1 (t' & -> & Ht')].
    destruct (IH _ _ Hst Hacc1 Hf) as [Hacc' (new & -> & Hnew)]. split; [done|].
    exists (t' :: new). by rewrite Hnew, Ht', <- app_assoc.
Qed.

(** How an order's fields may differ from what they were before the callback. *)
Definition order_reconciled (q0 : Z) (s0 : arg OrderStatus) (filled : Z) r : Prop :=
  (py_int (r_qty r) = Some q0 /\ inst_eqb (r_status r) s0 = true) \/
  (filled <> 0 /\ py_int (r_qty r) = Some (q0 - filled) /\
     (r_status r = Inst (expected_fill_status (q0 - filled)) \/ r_status r = Inst CANCELLED)) \/
  (filled = 0 /\ py_int (r_qty r) = Some q0 /\ r_status r = Inst CANCELLED).

Lemma fill_consistent_Ok states filled st oid :
  fill_consistent states filled st oid = Ok tt ->
  exists q0 s0 r, dict_get states oid = Some (q0, s0) /\ st !! oid = Some r /\
    order_reconciled q0 s0 (default 0 (dict_get filled oid)) r.
Proof.
  unfold fill_consistent, order_reconciled. intros Hf.
  destruct (dict_get states oid) as [[q0 s0]|]; [|done]. destruct (st !! oid) as [r|]; [|done]. inv_ok Hf.
  exists q0, s0, r. split_and!; [done..|].
  rewrite <- !py_eqb_int. rewrite !orb_true_iff, !andb_true_iff, !orb_true_iff in Hguard.
  repeat match goal with E : inst_eqb _ _ = true |- _ => apply inst_eqb_true in E as (? & ? & ?) end.
  rewrite negb_true_iff, Z.eqb_neq, Z.eqb_eq in Hguard.
  rewrite !(inst_eqb_true _ (Inst _)) in Hguard. naive_solver.
Qed.

(** The whole result of a rule, and of a simulator. *)
Lemma validate_rule_orders_Ok reg result g now pending prefix (st st' : heap F) ids :
  (forall oid, oid ∈ pending -> is_Some (st !! oid)) ->
  (forall l oid, result = Inst l -> Inst oid ∈ l -> is_Some (st !! oid)) ->
  validate_rule_orders reg result g now pending prefix st = (st', Ok ids) ->
  NoDup ids /\ (forall oid, oid ∈ ids -> oid ∉ pending) /\ extends st st' /\
  (forall oid, oid ∈ ids -> exists r, st' !! oid = Some r /\ admitted reg g now r).
Proof.
  intros Hp Hl Hv. destruct result as [l|]; [|done]. simpl in Hv.
  destruct (admit_orders_Ok reg g now prefix st l st pending O pending [] st' ids) as [seen' Ha]; try done.
  - intros oid. by apply Hl.
  - constructor; try done; [apply NoDup_nil_2|..]; intros oid ?%elem_of_nil; done.
  - destruct Ha as [H1 _ _ H4 H5 H6]. split_and!; try done. intros oid Ho. by destruct (H6 oid Ho).
Qed.

Lemma validate_market_trades_Ok result open_orders now states (st : heap F) trades :
  (forall oid, oid ∈ open_orders -> is_Some (dict_get states oid)) ->
  validate_market_trades result open_orders now states st = Ok trades ->
  result = Inst (Inst <$> trades) /\ Forall (trade_for open_orders now st) trades /\
  forall oid, oid ∈ open_orders -> exists q0 s0 r,
    dict_get states oid = Some (q0, s0) /\ st !! oid = Some r /\
    0 <= q0 * reported oid trades /\ Z.abs (reported oid trades) <= Z.abs q0 /\
    order_reconciled q0 s0 (reported oid trades) r.
Proof.
  intros Hst Hv. destruct result as [l|]; [|done]. simpl in Hv.
  apply bind_Ok_inv in Hv as ([filled trades'] & Hf & Hv). inv_ok Hv.
  destruct (check_market_trades_Ok open_orders now states st l ([], []) (filled, trades) Hst) as [Hok (new & -> & Hnew)]; [|exact Hf|].
  { split_and!; [constructor|done|]. intros oid q0 s0 _. unfold reported. simpl. rewrite sumZ_nil. lia. }
  destruct Hok as (H1 & H2 & H3). simpl in *. subst new. split_and!; [done|done|].
  destruct a. apply iterE_Ok in Hbind. rewrite Forall_forall in Hbind. intros oid Ho.
  destruct (fill_consistent_Ok _ _ _ _ (Hbind oid Ho)) as (q0 & s0 & r & Hs & Hr & Hrec).
  rewrite H2 in Hrec. destruct (H3 _ _ _ Hs). eauto 10.
Qed.
End CallbackFacts.

(** ** Properties *)

(** When a rule's result is accepted, the orders that enter the engine are
    distinct objects, none of them already pending; every existing object is
    untouched; and each order is executable: for a contract registered in the
    rule's own group, stamped with the current timestamp, with a whole nonzero
    quantity, neither a stop-limit nor an unexpanded roll. *)
Theorem validate_rule_orders_admits `{PyFloat F} reg result g now pending prefix (st st' : heap F) ids :
  (forall oid, oid ∈ pending -> is_Some (st !! oid)) ->
  (forall l oid, result = Inst l -> Inst oid ∈ l -> is_Some (st !! oid)) ->
  validate_rule_orders reg result g now pending prefix st = (st', Ok ids) ->
  NoDup ids /\ (forall oid, oid ∈ ids -> oid ∉ pending) /\ extends st st' /\
  (forall oid, oid ∈ ids -> exists r, st' !! oid = Some r /\ admitted reg g now r).
Proof. apply validate_rule_orders_Ok. Qed.

Definition demo_group_registry `{PyFloat F} : registry F :=
  Registry [("DEFAULT"%string, DEFAULT_CG)] []
    {[1%positive := [("ESH4"%string, demo_contract 2 "ESH4"); ("ESM4"%string, demo_contract 3 "ESM4")]]} 10.

Definition demo_roll_heap `{PyFloat F} : heap F :=
  {[4%positive := demo_raw_order (demo_contract 2 "ESH4") 7 5
      (RRoll (Inst (demo_contract 3 "ESM4")) (PInt (-5)) (PFloat (f_of_Z 5)));
    6%positive := demo_raw_order (demo_contract 2 "ESH4") 7 3 RMarket]}.

Definition demo_rule_result : heap spec_float * result (list positive) :=
  validate_rule_orders demo_group_registry (Inst [Inst 6%positive; Inst 4%positive]) DEFAULT_CG 7 []
    (Some "strategy-roll:0"%string) demo_roll_heap.

Lemma validate_rule_orders_admits_witness :
  exists ids, demo_rule_result.2 = Ok ids /\ length ids = 3%nat /\ NoDup ids /\
    forall oid, oid ∈ ids -> exists r, demo_rule_result.1 !! oid = Some r /\ admitted demo_group_registry DEFAULT_CG 7 r.
Proof.
  assert (exists ids, demo_rule_result.2 = Ok ids /\ length ids = 3%nat) as (ids & Hids & Hlen)
    by (eexists; split; vm_compute; reflexivity).
  exists ids. split; [exact Hids|split; [exact Hlen|]].
  destruct (validate_rule_orders_admits (F:=spec_float) demo_group_registry (Inst [Inst 6%positive; Inst 4%positive]) DEFAULT_CG 7 []
    (Some "strategy-roll:0"%string) demo_roll_heap demo_rule_result.1 ids) as (H1 & _ & _ & H4).
  - intros oid Ho. apply elem_of_nil in Ho. destruct Ho.
  - intros l oid [= <-]. rewrite !elem_of_cons, elem_of_nil. intros [[= ->]|[[= ->]|[]]]; eexists; reflexivity.
  - rewrite <- Hids. apply surjective_pairing.
  - split; [exact H1|exact H4].
Defined.

(** C6: When a market simulator's result is accepted, every trade is for an
    order of the open set, in the order's contract, at the current timestamp and
    with valid numbers; for each open order the reported quantity is on the
    order's side and within what remained before the callback, and the order's
    fields either are what they were, or carry exactly the reported fill, or it
    was cancelled. *)
Theorem validate_market_trades_reconciles `{PyFloat F} result open_orders now states (st : heap F) trades :
  (forall oid, oid ∈ open_orders -> is_Some (dict_get states oid)) ->
  validate_market_trades result open_orders now states st = Ok trades ->
  result = Inst (Inst <$> trades) /\ Forall (trade_for open_orders now st) trades /\
  forall oid, oid ∈ open_orders -> exists q0 s0 r,
    dict_get states oid = Some (q0, s0) /\ st !! oid = Some r /\
    0 <= q0 * reported oid trades /\ Z.abs (reported oid trades) <= Z.abs q0 /\
    order_reconciled q0 s0 (reported oid trades) r.
Proof. apply validate_market_trades_Ok. Qed.

Definition demo_market_heap `{PyFloat F} : heap F := {[6%positive := demo_raw_order (demo_contract 2 "ESH4") 7 3 RMarket]}.
Definition demo_market_trade `{PyFloat F} : raw_trade F :=
  RawTrade (Inst (demo_contract 2 "ESH4")) (Inst 6%positive) (Inst (Some 7)) (PInt 2) (PInt 100) (PInt 0) (PInt 0) [].

Lemma validate_market_trades_reconciles_witness :
  validate_market_trades (F:=spec_float) (Inst [Inst demo_market_trade]) [6%positive] 7 [(6%positive, (3, Inst OPEN))]
    demo_market_heap = Ok [demo_market_trade] /\
  Z.abs (reported (F:=spec_float) 6 [demo_market_trade]) <= 3.
Proof.
  assert (validate_market_trades (F:=spec_float) (Inst [Inst demo_market_trade]) [6%positive] 7 [(6%positive, (3, Inst OPEN))]
    demo_market_heap = Ok [demo_market_trade]) as Hv by (vm_compute; reflexivity).
  split; [exact Hv|].
  destruct (validate_market_trades_reconciles (F:=spec_float) _ [6%positive] _ [(6%positive, (3, Inst OPEN))] _ _
    ltac:(intros oid Ho; apply list_elem_of_singleton in Ho as ->; eexists; reflexivity) Hv) as (_ & _ & Hall).
  destruct (Hall 6%positive ltac:(left)) as (q0 & s0 & r & [= <- <-] & _ & _ & Hb & _). exact Hb.
Defined.
