(* ===== verification/Sparse.v ===== *)
(** * Timestamp buckets: [sparse_iterations.py]

    [SparseIterations] stores only populated buckets in a dictionary; the
    [_Bucket] view indexes, slices and edits one of them.  The abstract
    specification is the dense list with one list per index. *)

From S2P Require Import Prelude.

Open Scope Z_scope.

(** ** Python sequences *)

(** [l[i]]: a negative index counts from the end. *)
Definition py_index (len i : Z) : result nat :=
  let j := if i <? 0 then i + len else i in
  if (0 <=? j) && (j <? len) then Ok (Z.to_nat j) else Err (IndexError "list index out of range").

Record slice := Slice { sl_start : option Z; sl_stop : option Z; sl_step : option Z }.

Definition clamp (lo hi x : Z) : Z := Z.max lo (Z.min hi x).

(** [slice.indices(len)] *)
Definition slice_indices (s : slice) (len : Z) : result (Z * Z * Z) :=
  let step := default 1 (sl_step s) in
  whenever step =? 0 raise ValueError "slice step cannot be zero" ;;
  let '(lo, hi) := if step <? 0 then (-1, len - 1) else (0, len) in
  let bound o d := match o with None => d | Some x => clamp lo hi (if x <? 0 then x + len else x) end in
  let '(dstart, dstop) := if step <? 0 then (hi, lo) else (lo, hi) in
  Ok (bound (sl_start s) dstart, bound (sl_stop s) dstop, step).

(** [range(start, stop, step)], [step] not zero. *)
Definition py_range (start stop step : Z) : list Z :=
  let n := if 0 <? step then (stop - start + step - 1) / step else (start - stop - step - 1) / (- step) in
  (fun k => start + Z.of_nat k * step) <$> seq 0 (Z.to_nat n).

Section Sequences.
Context {T : Type}.

Definition list_getitem (l : list T) (i : Z) : result T :=
  j ← py_index (Z.of_nat (length l)) i;
  match l !! j with Some x => Ok x | None => Err (IndexError "list index out of range") end.

Definition positions_of (l : list T) (s : slice) : result (list nat) :=
  '(a, b, k) ← slice_indices s (Z.of_nat (length l));
  Ok (Z.to_nat <$> py_range a b k).

Definition list_getslice (l : list T) (s : slice) : result (list T) :=
  ps ← positions_of l s; Ok (omap (fun i : nat => l !! i) (ps : list nat)).

Definition list_setitem (l : list T) (i : Z) (x : T) : result (list T) :=
  j ← py_index (Z.of_nat (length l)) i; Ok (<[j := x]> l).

(** [l[s] = xs]: a plain slice is replaced, an extended one filled element by
    element. *)
Definition list_setslice (l : list T) (s : slice) (xs : list T) : result (list T) :=
  '(a, b, k) ← slice_indices s (Z.of_nat (length l));
  if k =? 1 then Ok (take (Z.to_nat a) l ++ xs ++ drop (Z.to_nat (Z.max a b)) l)
  else
    let ps := Z.to_nat <$> py_range a b k in
    unless (length ps =? length xs)%nat
      raise ValueError "attempt to assign sequence of the wrong size to extended slice" ;;
    Ok (foldl (fun l '(p, x) => <[p := x]> l) l (zip ps xs)).

Definition list_delitem (l : list T) (i : Z) : result (list T) :=
  j ← py_index (Z.of_nat (length l)) i; Ok (delete j l).

Definition list_delslice (l : list T) (s : slice) : result (list T) :=
  ps ← positions_of l s; Ok (omap (fun i : nat => if bool_decide (i ∈ ps) then None else l !! i) (seq 0 (length l))).

(** [l.insert(i, x)] *)
Definition list_insert_at (l : list T) (i : Z) (x : T) : list T :=
  let len := Z.of_nat (length l) in
  let j := Z.to_nat (clamp 0 len (if i <? 0 then i + len else i)) in
  take j l ++ x :: drop j l.
End Sequences.

(** ** The container *)

Section Sparse.
Context {T : Type}.

Record SparseIterations := mkSparse {
  si_size : Z;
  si_buckets : list (Z * list T);
}.

Definition sys_maxsize : Z := 2 ^ 63 - 1.

(** [__init__]; [None] is an object that is no integer. *)
Definition SparseIterations_init (size : option Z) : result SparseIterations :=
  match size with
  | None => Err (TypeError "object cannot be interpreted as an integer")
  | Some size =>
      whenever (size <? 0) || (sys_maxsize <? size)
        raise ValueError "timestamp bucket count is outside the supported range" ;;
      Ok (mkSparse size [])
  end.

Definition si_len (s : SparseIterations) : Z := si_size s.
Definition populated_count (s : SparseIterations) : nat := length (si_buckets s).

(** [_index] *)
Definition si_index (s : SparseIterations) (index : Z) : result Z :=
  let index := if index <? 0 then index + si_size s else index in
  unless (0 <=? index) && (index <? si_size s) raise IndexError "timestamp bucket index out of range" ;;
  Ok index.

(** [__getitem__]: the index a view is on, or those of a slice. *)
Definition si_getitem (s : SparseIterations) (index : Z) : result Z := si_index s index.

Definition si_getslice (s : SparseIterations) (sl : slice) : result (list Z) :=
  '(a, b, k) ← slice_indices sl (si_size s);
  foldE (fun acc i => x ← si_getitem s i; Ok (acc ++ [x])) [] (py_range a b k).

Definition at_ (s : SparseIterations) (index : Z) : result (list T) :=
  i ← si_index s index; Ok (default [] (dict_get (si_buckets s) i)).

Definition append_at (s : SparseIterations) (index : Z) (value : T) : result SparseIterations :=
  i ← si_index s index;
  Ok (mkSparse (si_size s) (dict_append (si_buckets s) i value)).

Definition si_replace (s : SparseIterations) (index : Z) (values : list T) : SparseIterations :=
  mkSparse (si_size s)
    (match values with [] => dict_pop (si_buckets s) index | _ => dict_set (si_buckets s) index values end).

(** The mutations of a [_Bucket] on index [i]. *)
Definition bucket_edit (s : SparseIterations) (i : Z) (f : list T -> result (list T)) : result SparseIterations :=
  values ← at_ s i; values ← f values; Ok (si_replace s i values).

Definition bucket_len (s : SparseIterations) (i : Z) : result nat := length <$> at_ s i.
Definition bucket_getitem (s : SparseIterations) (i index : Z) : result T := l ← at_ s i; list_getitem l index.
Definition bucket_getslice (s : SparseIterations) (i : Z) (sl : slice) : result (list T) :=
  l ← at_ s i; list_getslice l sl.
Definition bucket_setitem s i index x := bucket_edit s i (fun l => list_setitem l index x).
Definition bucket_setslice s i sl xs := bucket_edit s i (fun l => list_setslice l sl xs).
Definition bucket_delitem s i index := bucket_edit s i (fun l => list_delitem l index).
Definition bucket_delslice s i sl := bucket_edit s i (fun l => list_delslice l sl).
Definition bucket_insert s i index x := bucket_edit s i (fun l => Ok (list_insert_at l index x)).
Definition bucket_append s i x := append_at s i x.
End Sparse.

Arguments SparseIterations T : clear implicits.

(** ** The dense specification *)

Section Dense.
Context {T : Type}.
Implicit Types s : SparseIterations T.

Record sparse_wf s : Prop := {
  sw_size : 0 <= si_size s <= sys_maxsize;
  sw_dict : dict_wf (si_buckets s);
  sw_bucket i l : dict_get (si_buckets s) i = Some l -> 0 <= i < si_size s /\ l <> [];
}.

(** One list per index. *)
Definition dense s : list (list T) :=
  (fun i => default [] (dict_get (si_buckets s) (Z.of_nat i))) <$> seq 0 (Z.to_nat (si_size s)).

(** The operations: an edit of one bucket, which may be refused. *)
Inductive op :=
  | OpAppend (x : T)
  | OpSetItem (index : Z) (x : T)
  | OpSetSlice (sl : slice) (xs : list T)
  | OpDelItem (index : Z)
  | OpDelSlice (sl : slice)
  | OpInsert (index : Z) (x : T).

(** The view of index [index], then the operation. *)
Definition run_op s (index : Z) (o : op) : result (SparseIterations T) :=
  i ← si_getitem s index;
  match o with
  | OpAppend x => bucket_append s i x
  | OpSetItem index x => bucket_setitem s i index x
  | OpSetSlice sl xs => bucket_setslice s i sl xs
  | OpDelItem index => bucket_delitem s i index
  | OpDelSlice sl => bucket_delslice s i sl
  | OpInsert index x => bucket_insert s i index x
  end.

(** The same operation on a Python list. *)
Definition list_op (o : op) (l : list T) : result (list T) :=
  match o with
  | OpAppend x => Ok (l ++ [x])
  | OpSetItem index x => list_setitem l index x
  | OpSetSlice sl xs => list_setslice l sl xs
  | OpDelItem index => list_delitem l index
  | OpDelSlice sl => list_delslice l sl
  | OpInsert index x => Ok (list_insert_at l index x)
  end.

Lemma dense_length s : length (dense s) = Z.to_nat (si_size s).
Proof. unfold dense. by rewrite length_fmap, length_seq. Qed.

Lemma dense_lookup s j :
  (j < Z.to_nat (si_size s))%nat -> dense s !! j = Some (default [] (dict_get (si_buckets s) (Z.of_nat j))).
Proof. intros Hj. unfold dense. rewrite list_lookup_fmap, lookup_seq_lt by done. done. Qed.

(** The bucket a possibly negative index denotes. *)
Lemma si_index_spec s i j :
  si_index s i = Ok j <-> py_index (si_size s) i = Ok (Z.to_nat j) /\ 0 <= j < si_size s.
Proof.
  unfold si_index, py_index. set (k := if i <? 0 then _ else _). rewrite guard_bind_Ok.
  destruct (Z.leb_spec 0 k), (Z.ltb_spec k (si_size s)); simpl; split; intros; destruct_and?; simplify_eq; try done; try lia.
  split; [done|]. f_equal. lia.
Qed.

Lemma si_index_Ok s i j :
  sparse_wf s -> si_index s i = Ok j ->
  py_index (si_size s) i = Ok (Z.to_nat j) /\
  dense s !! Z.to_nat j = Some (default [] (dict_get (si_buckets s) j)) /\ 0 <= j < si_size s.
Proof.
  intros Hw [Hj Hb]%si_index_spec. split_and!; [done| |lia..]. rewrite dense_lookup by lia. by rewrite Z2Nat.id by lia.
Qed.

Lemma si_index_Err s i e :
  si_index s i = Err e -> e = IndexError "timestamp bucket index out of range" /\ is_ok (py_index (si_size s) i) = false.
Proof.
  unfold si_index, py_index. set (k := if i <? 0 then _ else _). rewrite guard_bind_Err.
  intros [[-> <-]|[_ ?]]; done.
Qed.

(** Replacing one bucket. *)
Lemma replace_dense s j l :
  sparse_wf s -> 0 <= j < si_size s ->
  sparse_wf (si_replace s j l) /\ dense (si_replace s j l) = <[Z.to_nat j := l]> (dense s).
Proof.
  intros [H1 H2 H3] Hj.
  assert (forall i, default [] (dict_get (si_buckets (si_replace s j l)) i) =
            if decide (i = j) then l else default [] (dict_get (si_buckets s) i)) as Hget.
  { intros i. destruct l as [|x l]; simpl.
    - rewrite dict_get_pop by done. by case_decide.
    - rewrite dict_get_set. by case_decide. }
  split.
  - constructor; [done| |].
    + destruct l; simpl; [by apply dict_pop_wf|by apply dict_set_wf].
    + intros i l'. destruct l as [|x l]; simpl; [rewrite dict_get_pop by done|rewrite dict_get_set]; case_decide; subst;
        [done|apply H3|intros [= <-]; done|apply H3].
  - apply list_eq_same_length with (length (dense s)); [by rewrite length_insert|by rewrite !dense_length|].
    intros i x y Hi Hx Hy. rewrite dense_length in Hi. rewrite dense_lookup in Hx by done. injection Hx as <-.
    rewrite Hget. destruct (decide (i = Z.to_nat j)) as [->|Hne].
    + rewrite list_lookup_insert_eq in Hy by (rewrite dense_length; lia). rewrite decide_True by lia. congruence.
    + rewrite list_lookup_insert_ne in Hy by done. rewrite decide_False by lia.
      rewrite dense_lookup in Hy by done. congruence.
Qed.

Lemma append_replace s i j x :
  si_index s i = Ok j ->
  append_at s i x = Ok (si_replace s j (default [] (dict_get (si_buckets s) j) ++ [x])).
Proof.
  intros Hj. unfold append_at, si_replace, dict_append. rewrite Hj. simpl.
  by destruct (default [] _).
Qed.

Lemma si_index_id s i : 0 <= i < si_size s -> si_index s i = Ok i.
Proof.
  intros Hi. unfold si_index. rewrite (proj2 (Z.ltb_ge i 0)) by lia.
  by rewrite (proj2 (Z.leb_le 0 i)), (proj2 (Z.ltb_lt i _)) by lia.
Qed.

(** An operation on a bucket is the list operation, then the replacement. *)
Lemma run_op_edit s i o :
  sparse_wf s ->
  run_op s i o =
    (j ← si_index s i;
     l ← list_op o (default [] (dict_get (si_buckets s) j));
     Ok (si_replace s j l)).
Proof.
  intros Hw. unfold run_op, si_getitem. destruct (si_index s i) as [j|e] eqn:Hj; [|done]. simpl.
  apply si_index_Ok in Hj as (_ & _ & Hj); [|done]. apply si_index_id in Hj.
  destruct o; try (unfold bucket_setitem, bucket_setslice, bucket_delitem, bucket_delslice, bucket_insert, bucket_edit, at_;
    by rewrite Hj).
  unfold bucket_append. by rewrite (append_replace _ _ _ _ Hj).
Qed.

Lemma populated_dense s :
  sparse_wf s -> populated_count s = length (filter (fun l => l <> []) (dense s)).
Proof.
  intros [H1 H2 H3].
  assert (filter (fun l => l <> []) (dense s) =
    (fun i => default [] (dict_get (si_buckets s) (Z.of_nat i))) <$>
      filter (fun i => is_Some (dict_get (si_buckets s) (Z.of_nat i))) (seq 0 (Z.to_nat (si_size s)))) as ->.
  { unfold dense. rewrite list_filter_fmap. f_equal. apply filter_ext_in. intros i _. simpl.
    destruct (dict_get (si_buckets s) (Z.of_nat i)) as [l|] eqn:Hl; simpl.
    - apply H3 in Hl as [_ Hl]. split; [eauto|done].
    - split; [done|by intros [? ?]]. }
  rewrite length_fmap. unfold populated_count.
  transitivity (length (dict_keys (si_buckets s))); [unfold dict_keys; by rewrite length_fmap|].
  transitivity (length (Z.of_nat <$> filter (fun i => is_Some (dict_get (si_buckets s) (Z.of_nat i))) (seq 0 (Z.to_nat (si_size s)))));
    [|by rewrite length_fmap].
  apply Permutation_length, NoDup_Permutation; [done| |].
  - apply (NoDup_fmap_2 _), NoDup_filter, NoDup_seq.
  - intros k. rewrite list_elem_of_fmap. split.
    + intros Hk. assert (is_Some (dict_get (si_buckets s) k)) as [l Hl].
      { apply not_eq_None_Some. by intros Hn%dict_get_None. }
      pose proof (H3 _ _ Hl) as [Hb _]. exists (Z.to_nat k). rewrite list_elem_of_filter, elem_of_seq, Z2Nat.id by lia.
      split_and!; [done|eauto|lia..].
    + intros (i & -> & [[l Hl] _]%list_elem_of_filter). by apply dict_get_Some_keys in Hl.
Qed.
End Dense.

(** ** Properties *)

(** Every edit of a bucket behaves as the same edit of a Python list in a
    dense list of lists: a valid, possibly negative, index picks the list, the
    list operation decides the result or the exception, no other bucket changes,
    and an index out of range raises [IndexError].  The dictionary never keeps
    an empty bucket, so [populated_count] counts the nonempty lists. *)
Theorem sparse_refines_dense {T} (s : SparseIterations T) i o :
  sparse_wf s ->
  populated_count s = length (filter (fun l => l <> []) (dense s)) /\
  match run_op s i o with
  | Ok s' => sparse_wf s' /\ exists j l l', py_index (si_size s) i = Ok j /\ dense s !! j = Some l /\
      list_op o l = Ok l' /\ dense s' = <[j := l']> (dense s)
  | Err e => (is_ok (py_index (si_size s) i) = false /\ e = IndexError "timestamp bucket index out of range") \/
      exists j l, py_index (si_size s) i = Ok j /\ dense s !! j = Some l /\ list_op o l = Err e
  end.
Proof.
  intros Hw. split; [by apply populated_dense|]. rewrite run_op_edit by done.
  destruct (si_index s i) as [j|e] eqn:Hj; simpl; [|apply si_index_Err in Hj as [-> ?]; auto].
  apply si_index_Ok in Hj as (Hp & Hd & Hb); [|done].
  destruct (list_op o _) as [l'|e] eqn:Ho; simpl; [|right; eauto].
  destruct (replace_dense s j l' Hw Hb) as [Hw' Hd']. split; [done|]. eauto 10.
Qed.

Definition demo_sparse : SparseIterations Z := mkSparse 5 [(2, [10; 20; 30]); (0, [7])].

Lemma demo_sparse_wf : sparse_wf demo_sparse.
Proof.
  constructor.
  - done.
  - unfold dict_wf. simpl. repeat constructor; set_solver.
  - intros i l Hl. unfold demo_sparse in *. cbn [si_buckets si_size dict_get] in *. repeat case_decide; by simplify_eq.
Defined.

Lemma sparse_refines_dense_witness :
  exists s', run_op demo_sparse (-3) (OpSetSlice (Slice None None (Some 2)) [1; 3]) = Ok s' /\
    exists j l l', py_index 5 (-3) = Ok j /\ dense demo_sparse !! j = Some l /\
      list_op (OpSetSlice (Slice None None (Some 2)) [1; 3]) l = Ok l' /\ dense s' = <[j := l']> (dense demo_sparse).
Proof.
  eexists. split; [vm_compute; reflexivity|].
  exact (proj2 (proj2 (sparse_refines_dense demo_sparse (-3) (OpSetSlice (Slice None None (Some 2)) [1; 3]) demo_sparse_wf))).
Defined.
