(* ===== verification/Stages.v ===== *)
(** * Stage graphs and stage selection: [stages.py], [strategy_validation.py]

    [topological_order] is a depth-first search; the recursion depth is at most
    one more than the number of nodes, which is the fuel it is given.  The
    interpreter's own recursion limit is not modelled. *)

From stdpp Require Import relations gmap.
From S2P Require Import Prelude Numeric Contracts.

Record StageNode := mkNode { sn_name : string; sn_kind : string; sn_dependencies : list string }.

(** [StageGraph]: the nodes by name, in order. *)
Definition StageGraph := list (string * StageNode).

(** [StageGraph.__init__] *)
Definition StageGraph_init (nodes : list StageNode) : result StageGraph :=
  let d := foldl (fun d n => dict_set d (sn_name n) n) [] nodes in
  unless (length d =? length nodes)%nat raise ValueError "stage names must be unique" ;;
  Ok d.

Definition nodes (g : StageGraph) : list StageNode := dict_values g.

(** The dependencies that no node declares. *)
Definition missing_dependencies (g : StageGraph) : list string :=
  filter (fun d => d ∉ dict_keys g) (concat (sn_dependencies <$> nodes g)).

Record visit_state := VisitState {
  v_order : list string;
  v_visiting : list string;
  v_complete : gset string;
}.

(** [visit] *)
Fixpoint visit (g : StageGraph) (fuel : nat) (name : string) (st : visit_state) : result visit_state :=
  match fuel with
  | O => Err OutOfFuel
  | S fuel =>
      if bool_decide (name ∈ v_complete st) then Ok st
      else if bool_decide (name ∈ v_visiting st) then Err (ValueError "stage dependency cycle")
      else match dict_get g name with
           | None => Err (KeyError name)
           | Some node =>
               st ← foldE (fun st dependency => visit g fuel dependency st)
                      (VisitState (v_order st) (v_visiting st ++ [name]) (v_complete st)) (sn_dependencies node);
               Ok (VisitState (v_order st ++ [name]) (removelast (v_visiting st)) ({[name]} ∪ v_complete st))
           end
  end.

(** [topological_order] *)
Definition topological_order (g : StageGraph) : result (list string) :=
  unless bool_decide (missing_dependencies g = []) raise ValueError "stage dependencies are missing" ;;
  st ← foldE (fun st name => visit g (S (length g)) name st) (VisitState [] [] ∅) (dict_keys g);
  Ok (v_order st).

(** ** Selecting stages *)

(** [validated_stage_groups]; [None] selects every configured group. *)
Definition validated_stage_groups (contract_groups : option (arg (list (arg group)))) (configured : list group)
  : result (list group) :=
  match contract_groups with
  | None => Ok configured
  | Some NotInst => Err (TypeError "contract_groups must be a sequence of ContractGroup objects")
  | Some (Inst gs) =>
      whenever bool_decide (gs = []) raise ValueError "operation requires at least one contract group" ;;
      match mapM (fun g => match g with Inst g => Some g | NotInst => None end) gs with
      | None => Err (TypeError "contract_groups must contain only ContractGroup objects")
      | Some groups =>
          unless forallb (fun g => existsb (is_group g) configured) groups
            raise ValueError "contract group is not configured for this strategy" ;;
          Ok groups
      end
  end.

(** [tuple(dict.fromkeys(names))] *)
Definition unique_names (names : list string) : list string :=
  dict_keys (foldl (fun d n => dict_set d n tt) [] names).

(** [validated_stage_names] *)
Definition validated_stage_names (names : option (arg (list (arg string)))) (registered : list string)
  : result (list string) :=
  match names with
  | None => Ok registered
  | Some NotInst => Err (TypeError "names must be a sequence of strings")
  | Some (Inst l) =>
      match mapM (fun n => match n with Inst n => Some n | NotInst => None end) l with
      | None => Err (TypeError "names must contain only strings")
      | Some names =>
          unless forallb (fun n => bool_decide (n ∈ registered)) names raise ValueError "unknown names" ;;
          Ok (unique_names names)
      end
  end.

(** [_require_group_coverage] *)
Definition require_group_coverage (consumer_groups dependency_groups : list group) : result unit :=
  iterE (fun g => unless existsb (is_group g) dependency_groups
                    raise ValueError "dependency is not registered for contract group" ;; Ok tt) consumer_groups.

Definition py_getitem {V} (d : list (string * V)) (k : string) : result V :=
  match dict_get d k with Some v => Ok v | None => Err (KeyError k) end.

(** The dependencies of one kind of one consumer. *)
Definition require_coverage (groups : list group) (dependencies : list string)
  (dependency_groups : list (string * list group)) : result unit :=
  iterE (fun d => gs ← py_getitem dependency_groups d; require_group_coverage groups gs) dependencies.

(** [validate_dependency_scopes] *)
Definition validate_dependency_scopes
  (indicator_groups : list (string * list group)) (indicator_dependencies : list (string * list string))
  (signal_groups : list (string * list group))
  (signal_indicator_dependencies signal_dependencies : list (string * list string)) : result unit :=
  _ ← iterE (fun '(name, groups) =>
        deps ← py_getitem indicator_dependencies name;
        require_coverage groups deps indicator_groups) indicator_groups;
  iterE (fun '(name, groups) =>
        ideps ← py_getitem signal_indicator_dependencies name;
        _ ← require_coverage groups ideps indicator_groups;
        sdeps ← py_getitem signal_dependencies name;
        require_coverage groups sdeps signal_groups) signal_groups.

(** ** The search *)

Lemma foldl_set_keys ns :
  let d := foldl (fun d n => dict_set d (sn_name n) n) [] ns in
  dict_wf d /\ (length d <= length ns)%nat /\ (length d = length ns -> dict_keys d = sn_name <$> ns).
Proof.
  induction ns as [|n ns (H1 & H2 & H3)] using rev_ind; [split_and!; [apply NoDup_nil_2|done|done]|].
  cbv zeta in *. rewrite foldl_app. cbn [foldl]. set (d := foldl _ [] ns) in *.
  assert (length (dict_set d (sn_name n) n) = length (dict_keys (dict_set d (sn_name n) n))) as Hl
    by (unfold dict_keys; by rewrite length_fmap).
  assert (length (dict_keys d) = length d) as Hd by (unfold dict_keys; by rewrite length_fmap).
  rewrite dict_keys_set in Hl. rewrite dict_keys_set, Hl, !length_app. simpl.
  split; [by apply dict_set_wf|]. case_decide; [lia|]. rewrite length_app. simpl.
  split; [lia|]. intros. rewrite fmap_app, H3 by lia. done.
Qed.

Lemma StageGraph_init_Ok ns g :
  StageGraph_init ns = Ok g -> dict_wf g /\ dict_keys g = sn_name <$> ns.
Proof.
  unfold StageGraph_init. intros Hg. inv_ok Hg. apply Nat.eqb_eq in Hguard.
  destruct (foldl_set_keys ns) as (H1 & _ & H3). auto.
Qed.

(** Distinct stages: the graph is the list itself, by name. *)
Lemma StageGraph_init_nodes ns g n : StageGraph_init ns = Ok g -> n ∈ ns -> dict_get g (sn_name n) = Some n.
Proof.
  intros Hg Hn. destruct (StageGraph_init_Ok ns g Hg) as [Hwf Hk]. unfold StageGraph_init in Hg. inv_ok Hg.
  assert (forall l, NoDup (sn_name <$> l) -> foldl (fun d n => dict_set d (sn_name n) n) [] l = (fun n => (sn_name n, n)) <$> l) as Hfold.
  { induction l as [|x l IH] using rev_ind; [done|]. rewrite fmap_app. intros (Hl & Hx & _)%NoDup_app.
    rewrite foldl_app, IH by done. cbn [foldl]. rewrite dict_set_fresh, fmap_app; [done|].
    apply dict_get_None. intros Hin. apply (Hx (sn_name x)); [|left]. unfold dict_keys in Hin. by rewrite <- list_fmap_compose in Hin. }
  unfold dict_wf in Hwf. rewrite Hk in Hwf. apply dict_In_get; [unfold dict_wf; by rewrite Hk|].
  rewrite Hfold by done. by apply (list_elem_of_fmap_2 (fun n => (sn_name n, n))).
Qed.

Section Search.
Context (g : StageGraph).
Hypothesis keys_nodup : dict_wf g.

Definition depends (x y : string) : Prop := exists n, dict_get g x = Some n /\ y ∈ sn_dependencies n.

(** Consecutive elements depend on each other. *)
Definition chain (l : list string) : Prop :=
  forall i x y, l !! i = Some x -> l !! (S i) = Some y -> depends x y.

Lemma chain_tc l i j x y : chain l -> (i < j)%nat -> l !! i = Some x -> l !! j = Some y -> tc depends x y.
Proof.
  intros Hc. revert y. induction j as [|j IH]; intros y Hij Hx Hy; [lia|].
  destruct (decide (i = j)) as [->|Hne]; [apply tc_once; by eapply Hc|].
  assert (is_Some (l !! j)) as [z Hz] by (apply lookup_lt_is_Some; apply lookup_lt_Some in Hy; lia).
  eapply tc_r; [apply IH; [lia|done|exact Hz]|]. by eapply Hc.
Qed.

Lemma chain_snoc l x y : chain (l ++ [x]) -> depends x y -> chain ((l ++ [x]) ++ [y]).
Proof.
  intros Hc Hd i a b Ha Hb. destruct (decide (S i < length (l ++ [x]))%nat) as [Hlt|Hge].
  - rewrite lookup_app_l in Ha by lia. rewrite lookup_app_l in Hb by lia. by eapply Hc.
  - assert (S i = length (l ++ [x])) as Hi.
    { apply lookup_lt_Some in Hb. rewrite (length_app (l ++ [x])) in Hb. simpl in Hb. lia. }
    rewrite Hi, list_lookup_middle in Hb by done. simplify_eq.
    rewrite length_app in Hi. simpl in Hi. assert (i = length l) as -> by lia.
    rewrite lookup_app_l in Ha by (rewrite length_app; simpl; lia). rewrite list_lookup_middle in Ha by done. by simplify_eq.
Qed.

Lemma missing_spec y : y ∈ missing_dependencies g -> exists x, depends x y /\ y ∉ dict_keys g.
Proof.
  unfold missing_dependencies, nodes, dict_values. rewrite list_elem_of_filter. intros [Hn Hy]. 
  apply list_elem_of_In, in_concat in Hy as (deps & Hdeps & Hy). apply list_elem_of_In in Hdeps, Hy.
  apply list_elem_of_fmap in Hdeps as (node & -> & Hnode). apply list_elem_of_fmap in Hnode as ([x node'] & -> & Hx).
  exists x. split; [|done]. exists node'. split; [|done]. by apply dict_In_get.
Qed.

Lemma missing_nil : missing_dependencies g = [] -> forall x y, depends x y -> y ∈ dict_keys g.
Proof.
  intros Hm x y (n & Hg & Hy). destruct (decide (y ∈ dict_keys g)) as [|Hn]; [done|].
  assert (y ∈ missing_dependencies g) as Hin; [|rewrite Hm in Hin; by apply elem_of_nil in Hin].
  unfold missing_dependencies, nodes, dict_values. rewrite list_elem_of_filter. split; [done|].
  apply list_elem_of_In, in_concat. exists (sn_dependencies n). split; apply list_elem_of_In; [|done].
  apply list_elem_of_fmap. exists n. split; [done|]. apply list_elem_of_fmap. exists (x, n).
  split; [done|]. by apply dict_get_Some_In.
Qed.

Lemma missing_some : missing_dependencies g <> [] -> exists x y, depends x y /\ y ∉ dict_keys g.
Proof.
  destruct (missing_dependencies g) as [|y l] eqn:Hm; [done|]. intros _.
  destruct (missing_spec y) as (x & ?); [rewrite Hm; left|eauto].
Qed.

(** What has been ordered so far is closed under dependencies, each before its
    dependents. *)
Record ordered (st : visit_state) : Prop := {
  od_nodup : NoDup (v_order st);
  od_known : forall x, x ∈ v_order st -> x ∈ dict_keys g;
  od_complete : forall x, x ∈ v_complete st <-> x ∈ v_order st;
  od_before : forall l1 x l2, v_order st = l1 ++ x :: l2 -> forall y, depends x y -> y ∈ l1;
  od_disjoint : forall x, x ∈ v_visiting st -> x ∉ v_order st;
}.

Definition advances (st st' : visit_state) : Prop :=
  ordered st' /\ v_visiting st' = v_visiting st /\ exists new, v_order st' = v_order st ++ new.

Definition cyclic : Prop := exists x, tc depends x x.

Definition visit_post (name : string) (st : visit_state) (r : result visit_state) : Prop :=
  match r with
  | Ok st' => advances st st' /\ name ∈ v_order st'
  | Err e => e = ValueError "stage dependency cycle" /\ cyclic
  end.

Lemma visit_all (body : string -> visit_state -> result visit_state) l : forall st,
  (forall x st1, x ∈ l -> advances st st1 -> visit_post x st1 (body x st1)) ->
  ordered st ->
  match foldE (fun st x => body x st) st l with
  | Ok st' => advances st st' /\ forall x, x ∈ l -> x ∈ v_order st'
  | Err e => e = ValueError "stage dependency cycle" /\ cyclic
  end.
Proof.
  induction l as [|x l IH]; intros st Hbody Hst; cbn [foldE].
  - split; [split_and!; [done|done|exists []; by rewrite app_nil_r]|]. intros x Hx. by apply elem_of_nil in Hx.
  - assert (visit_post x st (body x st)) as Hx.
    { apply Hbody; [left|]. split_and!; [done|done|exists []; by rewrite app_nil_r]. }
    destruct (body x st) as [st1|e]; simpl in *; [|done]. destruct Hx as [(Ho1 & Hv1 & new1 & Hn1) Hin].
    unshelve epose proof (IH st1 _ _) as IH1.
    { intros y st2 Hy (Ho2 & Hv2 & new2 & Hn2). apply Hbody; [by right|]. split_and!; [done|congruence|].
      exists (new1 ++ new2). by rewrite Hn2, Hn1, app_assoc. }
    { done. }
    destruct (foldE _ st1 l) as [st2|e]; [|done]. destruct IH1 as [(Ho2 & Hv2 & new2 & Hn2) Hall].
    split; [split_and!; [done|congruence|exists (new1 ++ new2); by rewrite Hn2, Hn1, app_assoc]|].
    intros y [->|Hy]%elem_of_cons; [rewrite Hn2; set_solver|by apply Hall].
Qed.

(** What the constructor and the check for missing dependencies establish. *)
Hypothesis no_missing : forall x y, depends x y -> y ∈ dict_keys g.

Lemma ordered_push st name :
  ordered st -> name ∉ v_order st -> ordered (VisitState (v_order st) (v_visiting st ++ [name]) (v_complete st)).
Proof.
  intros [H1 H2 H3 H4 H5] Hn. constructor; simpl; try done.
  intros x [Hx|Hx%list_elem_of_singleton]%elem_of_app; [by apply H5|by subst].
Qed.

(** The dependencies of [name] are in: it can be appended. *)
Lemma ordered_finish st name visiting :
  ordered st -> name ∈ dict_keys g -> v_visiting st = visiting ++ [name] -> name ∉ visiting ->
  (forall y, depends name y -> y ∈ v_order st) ->
  ordered (VisitState (v_order st ++ [name]) (removelast (v_visiting st)) ({[name]} ∪ v_complete st)).
Proof.
  intros [H1 H2 H3 H4 H5] Hk Hv Hnv Hd. rewrite Hv, removelast_last.
  assert (name ∉ v_order st) as Hn by (apply H5; rewrite Hv; set_solver). constructor; simpl.
  - apply NoDup_app. split_and!; [done|set_solver|apply NoDup_singleton].
  - intros x [Hx|Hx%list_elem_of_singleton]%elem_of_app; [by apply H2|by subst].
  - intros x. rewrite elem_of_union, elem_of_singleton, elem_of_app, list_elem_of_singleton, H3. tauto.
  - intros l1 x l2 Hl y Hy. destruct l2 as [|z l2 _] using rev_ind.
    + apply app_inj_tail in Hl as [<- ->]. by apply Hd.
    + rewrite app_comm_cons, app_assoc in Hl. apply app_inj_tail in Hl as [Hl _]. by eapply H4.
  - intros x Hx. rewrite elem_of_app, list_elem_of_singleton. intros [Hxo| ->]; [|done].
    eapply H5; [rewrite Hv; apply elem_of_app; by left|done].
Qed.

Lemma dict_lookup_key name : name ∈ dict_keys g -> exists node, dict_get g name = Some node.
Proof.
  intros Hn. destruct (dict_get g name) as [node|] eqn:Hg; [eauto|]. by apply dict_get_None in Hg.
Qed.

Lemma chain_cycle visiting name : chain (visiting ++ [name]) -> name ∈ visiting -> cyclic.
Proof.
  intros Hc (i & Hi)%list_elem_of_lookup. exists name. eapply (chain_tc _ i (length visiting)); [exact Hc| | |].
  - by apply lookup_lt_Some in Hi.
  - rewrite lookup_app_l; [done|]. by apply lookup_lt_Some in Hi.
  - by apply list_lookup_middle.
Qed.

Lemma visiting_bound (l : list string) : NoDup l -> (forall x, x ∈ l -> x ∈ dict_keys g) -> (length l <= length g)%nat.
Proof.
  intros Hnd Hk. transitivity (length (dict_keys g)); [|unfold dict_keys; by rewrite length_fmap].
  apply submseteq_length. by apply NoDup_submseteq.
Qed.

Lemma visit_spec fuel : forall name st,
  (length g < fuel + length (v_visiting st))%nat ->
  NoDup (v_visiting st) -> (forall x, x ∈ v_visiting st -> x ∈ dict_keys g) ->
  chain (v_visiting st ++ [name]) -> name ∈ dict_keys g -> ordered st ->
  visit_post name st (visit g fuel name st).
Proof.
  induction fuel as [|fuel IH]; intros name st Hf Hnd Hk Hch Hn Ho; cbn [visit].
  { apply visiting_bound in Hnd; [lia|done]. }
  case_bool_decide as Hc.
  { split; [|by apply (od_complete _ Ho)]. split_and!; [done|done|exists []; by rewrite app_nil_r]. }
  case_bool_decide as Hv; [split; [done|by eapply chain_cycle]|].
  destruct (dict_lookup_key name Hn) as [node Hg]. rewrite Hg.
  rewrite (od_complete _ Ho) in Hc.
  set (st0 := VisitState _ (v_visiting st ++ [name]) _).
  assert (ordered st0) as Ho0 by by apply ordered_push.
  unshelve epose proof (visit_all (visit g fuel) (sn_dependencies node) st0 _ _) as Hall.
  { intros d st1 Hd (Ho1 & Hv1 & new & Hn1). assert (depends name d) as Hdep by (exists node; done).
    apply IH; rewrite ?Hv1; simpl; try done.
    - rewrite length_app. simpl. lia.
    - apply NoDup_app. split_and!; [done|set_solver|apply NoDup_singleton].
    - intros x [Hx|Hx%list_elem_of_singleton]%elem_of_app; [by apply Hk|by subst].
    - by apply chain_snoc.
    - by eapply no_missing. }
  { done. }
  destruct (foldE _ st0 _) as [st1|e]; simpl; [|done]. destruct Hall as [(Ho1 & Hv1 & new & Hn1) Hin].
  split; [|simpl; set_solver]. split_and!.
  - eapply ordered_finish; [done|done|exact Hv1|done|]. intros y (node' & Hg' & Hy). apply Hin. congruence.
  - cbn [v_visiting]. rewrite Hv1. apply removelast_last.
  - exists (new ++ [name]). simpl. rewrite Hn1. simpl. by rewrite app_assoc.
Qed.
End Search.

Lemma unique_names_spec names :
  NoDup (unique_names names) /\ forall n, n ∈ unique_names names <-> n ∈ names.
Proof.
  unfold unique_names. induction names as [|n names [H1 H2]] using rev_ind; [split; [apply NoDup_nil_2|done]|].
  rewrite foldl_app. cbn [foldl]. split.
  - by apply (dict_set_wf (foldl (fun d n => dict_set d n tt) [] names)).
  - intros x. rewrite dict_keys_set. case_decide as Hn; rewrite !elem_of_app, list_elem_of_singleton, H2; [|done].
    apply H2 in Hn. naive_solver.
Qed.

Lemma topological_order_spec (ns : list StageNode) g :
  StageGraph_init ns = Ok g ->
  match topological_order g with
  | Ok order => order ≡ₚ sn_name <$> ns /\
      forall l1 x l2 y, order = l1 ++ x :: l2 -> depends g x y -> y ∈ l1
  | Err e => (e = ValueError "stage dependencies are missing" /\ exists x y, depends g x y /\ y ∉ sn_name <$> ns) \/
      (e = ValueError "stage dependency cycle" /\ exists x, tc (depends g) x x)
  end.
Proof.
  intros Hg. destruct (StageGraph_init_Ok ns g Hg) as [Hwf Hks]. rewrite <- Hks. unfold topological_order.
  case_bool_decide as Hm; cbn [guard_ok mbind result_bind].
  - assert (forall x y, depends g x y -> y ∈ dict_keys g) as Hnm by by apply missing_nil.
    unshelve epose proof (visit_all g Hwf (visit g (S (length g))) (dict_keys g) (VisitState [] [] ∅) _ _) as Hall.
    { intros x st1 Hx (Ho1 & Hv1 & new & Hn1). apply visit_spec; simpl in Hv1; rewrite ?Hv1; simpl; try done; [lia|apply NoDup_nil_2|].
      intros y ?%elem_of_nil. done. }
    { constructor; simpl; [apply NoDup_nil_2|by intros ? ?%elem_of_nil|set_solver|by intros []|by intros ? ?%elem_of_nil]. }
    destruct (foldE _ _ _) as [st|e]; cbn [mbind result_bind]; [|by right]. destruct Hall as [([H1 H2 H3 H4 H5] & _ & _) Hin].
    split; [|intros; by eapply H4]. apply NoDup_Permutation; [done|done|]. intros x. split; [apply H2|apply Hin].
  - left. split; [done|]. by apply missing_some.
Qed.

Lemma validated_stage_names_spec (names : option (arg (list (arg string)))) registered l :
  validated_stage_names names registered = Ok l <->
  (names = None /\ l = registered) \/
  exists requested, names = Some (Inst (Inst <$> requested)) /\ (forall n, n ∈ requested -> n ∈ registered) /\
    NoDup l /\ (forall n, n ∈ l <-> n ∈ requested) /\ l = unique_names requested.
Proof.
  unfold validated_stage_names. destruct names as [[ns|]|]; [|naive_solver..].
  destruct (mapM _ ns) as [reqs|] eqn:Hm.
  - apply mapM_Some in Hm.
    assert (ns = Inst <$> reqs) as ->.
    { clear -Hm. induction Hm as [|x y ns reqs Hx Hm IH]; [done|]. destruct x; by simplify_eq/=. }
    rewrite guard_bind_Ok. rewrite forallb_forall. split.
    + intros [Hall [= <-]]. right. exists reqs. split_and!; [done| |apply unique_names_spec..|done].
      intros n Hn. apply list_elem_of_In in Hn. specialize (Hall n Hn). by apply bool_decide_eq_true in Hall.
    + intros [[? _]|(reqs' & Heq & Hall & _ & _ & ->)]; [done|].
      injection Heq as Heq. apply (inj (fmap Inst)) in Heq as <-. split; [|done].
      intros n Hn%list_elem_of_In. apply bool_decide_eq_true. by apply Hall.
  - split; [done|]. intros [[? _]|(reqs & [= ->] & _)]; [done|]. exfalso.
    clear -Hm. induction reqs as [|x reqs IH]; csimpl in *; [done|]. destruct (mapM _ _); simplify_eq/=.
Qed.

(** The validations raise their own exceptions. *)
Lemma validated_stage_names_not_fuel names registered : validated_stage_names names registered <> Err OutOfFuel.
Proof.
  unfold validated_stage_names. destruct names as [[l|]|]; [|done..]. destruct (mapM _ l); [|done].
  by destruct (forallb _ _).
Qed.

Lemma validated_stage_groups_not_fuel groups configured : validated_stage_groups groups configured <> Err OutOfFuel.
Proof.
  unfold validated_stage_groups. destruct groups as [[l|]|]; [|done..]. case_bool_decide; [done|]. simpl.
  destruct (mapM _ l); [|done]. by destruct (forallb _ _).
Qed.

Lemma validated_stage_names_sub names registered l n :
  validated_stage_names names registered = Ok l -> n ∈ l -> n ∈ registered.
Proof. intros [[-> ->]|(r & -> & Hr & _ & Hl & _)]%validated_stage_names_spec; [done|]. intros Hn. by apply Hr, Hl. Qed.

(** ** Properties *)

(** On a graph of distinct stages, [topological_order] terminates within its
    recursion bound.  When it returns, the order lists every stage exactly once,
    after all the stages it depends on; when it raises, a dependency is missing
    or the dependencies are cyclic. *)
Theorem topological_order_correct (ns : list StageNode) g :
  StageGraph_init ns = Ok g ->
  match topological_order g with
  | Ok order => order ≡ₚ sn_name <$> ns /\
      forall l1 x l2 y, order = l1 ++ x :: l2 -> depends g x y -> y ∈ l1
  | Err e => (e = ValueError "stage dependencies are missing" /\ exists x y, depends g x y /\ y ∉ sn_name <$> ns) \/
      (e = ValueError "stage dependency cycle" /\ exists x, tc (depends g) x x)
  end.
Proof. apply topological_order_spec. Qed.

Definition demo_stages : list StageNode :=
  [mkNode "rule:enter" "rule" ["signal:s"]; mkNode "signal:s" "signal" ["indicator:i"; "indicator:j"];
   mkNode "indicator:j" "indicator" ["indicator:i"]; mkNode "indicator:i" "indicator" []].

Lemma topological_order_correct_witness :
  exists g, StageGraph_init demo_stages = Ok g /\
    topological_order g = Ok ["indicator:i"; "indicator:j"; "signal:s"; "rule:enter"]%string /\
    ["indicator:i"; "indicator:j"; "signal:s"; "rule:enter"]%string ≡ₚ sn_name <$> demo_stages.
Proof.
  eexists. split; [reflexivity|]. split; [vm_compute; reflexivity|].
  exact (proj1 (topological_order_correct demo_stages _ eq_refl)).
Defined.

(** [validated_stage_names] returns the requested names without repetition,
    in the order first requested, exactly when all are strings that are
    registered; with no request it returns every registered name. *)
Theorem validated_stage_names_correct (names : option (arg (list (arg string)))) registered l :
  validated_stage_names names registered = Ok l <->
  (names = None /\ l = registered) \/
  exists requested, names = Some (Inst (Inst <$> requested)) /\ (forall n, n ∈ requested -> n ∈ registered) /\
    NoDup l /\ (forall n, n ∈ l <-> n ∈ requested) /\ l = unique_names requested.
Proof. apply validated_stage_names_spec. Qed.
