(* ===== verification/Risk.v ===== *)
(** * Pre-trade risk: [risk.py]

    A policy is a callback over the world, the live orders and the account.
    [decide_order] guards the orders it can see and records a decision with a
    detached snapshot. *)

From stdpp Require Import relations.
From S2P Require Import Roundtrip Prelude Numeric Vendor Boundaries Instruments Contracts Orders Fifo.
From S2P Require Import ContractPnl Account Callbacks.
From Stdlib Require Import Qcanon SpecFloat.

Open Scope Z_scope.

Inductive DecisionStatus := ACCEPTED | REJECTED.

#[export] Instance DecisionStatus_eq_dec : EqDecision DecisionStatus.
Proof. solve_decision. Defined.

Record RiskContext := mkContext { rc_timestamp : Z; rc_open_orders : list positive }.

Record PolicyResult := mkResult { pr_accepted : bool; pr_code : string; pr_message : string }.

Section Risk.
Context `{PyFloat F} `{!Numpy F} `{SortedDict D} {W : Type}.

(** What a callback with the account can reach. *)
Definition world : Type := W * (heap F * Account F D).

(** [PolicyResult.__post_init__] *)
Definition PolicyResult_new (accepted code message : pyval F) : result PolicyResult :=
  match accepted with
  | PBool b =>
      match code with
      | PStr c =>
          unless negb (String.eqb c "") raise ValueError "policy result code must be a non-empty string" ;;
          match message with
          | PStr m => Ok (mkResult b c m)
          | _ => Err (TypeError "policy result message must be a string")
          end
      | _ => Err (ValueError "policy result code must be a non-empty string")
      end
  | _ => Err (TypeError "policy result accepted must be a bool")
  end.

Definition accept : PolicyResult := mkResult true "accepted" "".
Definition reject (code message : string) : PolicyResult := mkResult false code message.

(** [order.contract], of an object that may have lost it. *)
Definition contract_of (r : raw_order F) : result (contract F) :=
  match r_contract r with Inst c => Ok c | NotInst => Err (AttributeError "contract") end.

Definition has_symbol (symbol : string) (r : raw_order F) : bool :=
  match r_contract r with Inst c => bool_decide (c_symbol c = symbol) | NotInst => false end.

(** The pending orders that are still open, in the given symbol. *)
Definition pending_in (st : heap F) (ids : list positive) (symbol : string) : list (raw_order F) :=
  filter (fun r => raw_is_open r && has_symbol symbol r = true) (omap (fun i => st !! i) ids).

(** The position already held in the order's symbol. *)
Definition current_position (reg : registry F) (a : Account F D) (c : contract F) (timestamp : Z) : result Z :=
  held ← positions a reg (c_contract_group c) timestamp;
  Ok (sumZ (snd <$> filter (fun '(c', _) => c_symbol c' = c_symbol c) held)).

(** [RiskContext.projected_position] *)
Definition projected_position (reg : registry F) (ctx : RiskContext) (r : raw_order F) (st : heap F) (a : Account F D)
  : result Z :=
  c ← contract_of r;
  current ← current_position reg a c (rc_timestamp ctx);
  Ok (current + sumZ (qty_of <$> pending_in st (rc_open_orders ctx) (c_symbol c)) + qty_of r).

(** The loop of [position_bounds]. *)
Definition extend_bounds (bounds : Z * Z) (r : raw_order F) : Z * Z :=
  (bounds.1 + Z.min 0 (qty_of r), bounds.2 + Z.max 0 (qty_of r)).

Definition bounds_from (current : Z) (r : raw_order F) (pending : list (raw_order F)) : Z * Z :=
  foldl extend_bounds (current + Z.min 0 (qty_of r), current + Z.max 0 (qty_of r)) pending.

(** [RiskContext.position_bounds] *)
Definition position_bounds (reg : registry F) (ctx : RiskContext) (r : raw_order F) (st : heap F) (a : Account F D)
  : result (Z * Z) :=
  c ← contract_of r;
  current ← current_position reg a c (rc_timestamp ctx);
  Ok (bounds_from current r (pending_in st (rc_open_orders ctx) (c_symbol c))).

(** ** Policies *)

Record policy := Policy {
  po_name : string;
  po_evaluate : positive -> RiskContext -> ST world (arg PolicyResult);
}.

(** A policy that only reads. *)
Definition pure_policy (name : string)
  (evaluate : raw_order F -> RiskContext -> heap F -> Account F D -> result PolicyResult) : policy :=
  Policy name (fun oid ctx '(w, (st, a)) =>
    ((w, (st, a)), match st !! oid with
                   | Some r => Inst <$> evaluate r ctx st a
                   | None => Err (AttributeError "order")
                   end)).

(** [MaxOrderQuantity] *)
Definition positive_limit (maximum : F) (msg : string) : result F :=
  whenever negb (f_isfinite maximum) || f_leb maximum f_zero raise ValueError msg ;; Ok maximum.

Definition MaxOrderQuantity_evaluate (maximum : F) (r : raw_order F) : PolicyResult :=
  if f_ltb_z maximum (Z.abs (qty_of r))
  then reject "order_quantity_exceeded" "absolute order quantity exceeds the maximum" else accept.

(** [MaxPositionQuantity] *)
Definition within_limit (maximum : F) (qty : Z) (bounds : Z * Z) : bool :=
  if 0 <? qty then z_leb_f bounds.2 maximum else f_leb_z (f_opp maximum) bounds.1.

Definition MaxPositionQuantity_evaluate (reg : registry F) (maximum : F) (r : raw_order F) (ctx : RiskContext)
  (st : heap F) (a : Account F D) : result PolicyResult :=
  bounds ← position_bounds reg ctx r st a;
  Ok (if within_limit maximum (qty_of r) bounds then accept
      else reject "position_quantity_exceeded" "reachable position range extends beyond the maximum").

(** [MaxVolumeParticipation]; [volume] is the user's callback. *)
Definition MaxVolumeParticipation_new (maximum_fraction : F) : result F :=
  unless f_isfinite maximum_fraction && f_ltb f_zero maximum_fraction && f_leb maximum_fraction f_one
    raise ValueError "maximum volume participation must be in (0, 1]" ;;
  Ok maximum_fraction.

Definition participation_result (maximum_fraction available : F) (qty : Z) : PolicyResult :=
  if negb (f_isfinite available) || f_leb available f_zero
  then reject "volume_unavailable" "available volume must be finite and positive"
  else if f_gtb (f_div (f_of_Z (Z.abs qty)) available) maximum_fraction
       then reject "volume_participation_exceeded" "participation exceeds the maximum" else accept.

Definition MaxVolumeParticipation (maximum_fraction : F) (volume : positive -> Z -> ST world F) : policy :=
  Policy "max_volume_participation" (fun oid ctx s =>
    match volume oid (rc_timestamp ctx) s with
    | (s, Err e) => (s, Err e)
    | ((w, (st, a)), Ok available) =>
        ((w, (st, a)), match st !! oid with
                       | Some r => Ok (Inst (participation_result maximum_fraction available (qty_of r)))
                       | None => Err (AttributeError "order")
                       end)
    end).

(** [InstrumentTradabilityPolicy] *)
Definition tradability_code (t : Tradability) : string :=
  match t with
  | TR_ACTIVE => "instrument_active" | TR_IGNORED => "instrument_ignored"
  | TR_UNTRADEABLE => "instrument_untradeable" | TR_DUPLICATE => "instrument_duplicate"
  | TR_BAD => "instrument_bad"
  end.

Definition reduces (projected qty : Z) : bool := Z.abs projected <? Z.abs (projected - qty).

Definition InstrumentTradability_evaluate (reg : registry F) (allow_risk_reducing : bool) (r : raw_order F)
  (ctx : RiskContext) (st : heap F) (a : Account F D) : result PolicyResult :=
  c ← contract_of r;
  if (match c_expiry c with None => false | Some e => e <? rc_timestamp ctx end)
  then Ok (reject "contract_expired" "expired")
  else
    let t := tradability (c_instrument_spec c) in
    match t with
    | TR_ACTIVE => Ok accept
    | _ =>
        projected ← projected_position reg ctx r st a;
        if allow_risk_reducing && reduces projected (qty_of r) &&
           (match t with TR_IGNORED | TR_UNTRADEABLE => true | _ => false end)
        then Ok accept
        else Ok (reject (tradability_code t) "is marked")
    end.

(** ** Decisions *)

Record OrderSnapshot := {
  os_symbol : string;
  os_contract_group : string;
  os_multiplier : F;
  os_expiry : option Z;
  os_submitted_at : arg (option Z);
  os_qty : pyval F;
  os_order_type : string;
  os_time_in_force : TimeInForce;
  os_order_status : OrderStatus;
  os_reason_code : string;
  os_limit_price : option (pyval F);
  os_trigger_price : option (pyval F);
  os_vwap_stop : option (pyval F);
  os_vwap_end_time : option (arg (option Z));
  os_reopen_symbol : option string;
  os_reopen_contract_group : option string;
  os_close_qty : option (pyval F);
  os_reopen_qty : option (pyval F);
  os_roll_id : option string;
  os_roll_leg : option string;
}.

Definition roll_property (r : raw_order F) (name : string) : option string :=
  match dict_get (r_properties r) name with Some (PStr s) => Some s | _ => None end.

Definition order_type (k : raw_kind F) : string :=
  match k with
  | RBase => "Order" | RMarket => "MarketOrder" | RLimit _ => "LimitOrder" | RRoll _ _ _ => "RollOrder"
  | RStopLimit _ _ => "StopLimitOrder" | RVWAP _ _ => "VWAPOrder"
  end.

(** [OrderSnapshot.capture] *)
Definition OrderSnapshot_capture (r : raw_order F) : result OrderSnapshot :=
  c ← contract_of r;
  match r_time_in_force r, r_status r with
  | Inst tif, Inst s =>
      reopen ← (match r_kind r with
                | RRoll (Inst rc) _ _ => Ok (Some rc)
                | RRoll NotInst _ _ => Err (AttributeError "symbol")
                | _ => Ok None
                end);
      Ok {| os_symbol := c_symbol c;
            os_contract_group := cg_name (c_contract_group c);
            os_multiplier := c_multiplier c;
            os_expiry := c_expiry c;
            os_submitted_at := r_timestamp r;
            os_qty := r_qty r;
            os_order_type := order_type (r_kind r);
            os_time_in_force := tif;
            os_order_status := s;
            os_reason_code := r_reason_code r;
            os_limit_price := match r_kind r with RLimit p | RStopLimit _ p => Some p | _ => None end;
            os_trigger_price := match r_kind r with RStopLimit t _ => Some t | _ => None end;
            os_vwap_stop := match r_kind r with RVWAP s _ => Some s | _ => None end;
            os_vwap_end_time := match r_kind r with RVWAP _ e => Some e | _ => None end;
            os_reopen_symbol := c_symbol <$> reopen;
            os_reopen_contract_group := (fun c => cg_name (c_contract_group c)) <$> reopen;
            os_close_qty := match r_kind r with RRoll _ q _ => Some q | _ => None end;
            os_reopen_qty := match r_kind r with RRoll _ _ q => Some q | _ => None end;
            os_roll_id := roll_property r "_gambit_roll_id";
            os_roll_leg := roll_property r "_gambit_roll_leg" |}
  | _, _ => Err (AttributeError "name")
  end.

Record OrderDecision := {
  od_order : positive;
  od_status : DecisionStatus;
  od_policy : string;
  od_code : string;
  od_message : string;
  od_proposed_qty : pyval F;
  od_timestamp : Z;
  od_snapshot : OrderSnapshot;
}.

(** [OrderDecision(...)] with its [__post_init__]. *)
Definition OrderDecision_new (oid : positive) (status : DecisionStatus) (policy code message : string)
  (timestamp : Z) (st : heap F) : result OrderDecision :=
  match st !! oid with
  | None => Err (AttributeError "order")
  | Some r =>
      snapshot ← OrderSnapshot_capture r;
      Ok {| od_order := oid; od_status := status; od_policy := policy; od_code := code; od_message := message;
            od_proposed_qty := r_qty r; od_timestamp := timestamp; od_snapshot := snapshot |}
  end.

Definition validate_all (allow_cancel : bool) (states : list (OrderCallbackState F)) (st : heap F) : result unit :=
  iterE (fun s => validate_unchanged allow_cancel s st) states.

(** One policy, guarded. *)
Definition evaluate_policy (p : policy) (oid : positive) (ctx : RiskContext) : ST world (arg PolicyResult) :=
  fun '(w, (st, a)) =>
  let states := capture_all st (oid :: rc_open_orders ctx) in
  match po_evaluate p oid ctx (w, (st, a)) with
  | ((w, (st, a)), Err e) => ((w, (restore_all states st, a)), Err e)
  | ((w, (st, a)), Ok result) =>
      match validate_all false states st with
      | Ok _ => ((w, (st, a)), Ok result)
      | Err e => ((w, (restore_all states st, a)), Err e)
      end
  end.

Fixpoint decide_policies (policies : list policy) (oid : positive) (ctx : RiskContext) : ST world OrderDecision :=
  match policies with
  | [] => fun '(w, (st, a)) =>
      ((w, (st, a)), OrderDecision_new oid ACCEPTED "" "accepted" "" (rc_timestamp ctx) st)
  | p :: policies => fun s =>
      match evaluate_policy p oid ctx s with
      | (s, Err e) => (s, Err e)
      | (s, Ok NotInst) => (s, Err (TypeError "risk policy must return a PolicyResult"))
      | ((w, (st, a)), Ok (Inst r)) =>
          if pr_accepted r then decide_policies policies oid ctx (w, (st, a))
          else ((w, (st, a)),
                OrderDecision_new oid REJECTED (po_name p) (pr_code r) (pr_message r) (rc_timestamp ctx) st)
      end
  end.

Definition check_pending_quantities (st : heap F) (ids : list positive) : result unit :=
  iterE (fun i => match st !! i with
                  | Some r => if raw_is_open r then _ ← whole_quantity (r_qty r); Ok tt else Ok tt
                  | None => Err (AttributeError "order")
                  end) ids.

(** [decide_order] *)
Definition decide_order (policies : list policy) (oid : positive) (ctx : RiskContext) : ST world OrderDecision :=
  fun '(w, (st, a)) =>
  match st !! oid with
  | None => ((w, (st, a)), Err (AttributeError "order"))
  | Some r =>
      match _ ← whole_quantity (r_qty r); check_pending_quantities st (rc_open_orders ctx) with
      | Err e => ((w, (st, a)), Err e)
      | Ok _ => decide_policies policies oid ctx (w, (st, a))
      end
  end.
End Risk.

Arguments world F D W : clear implicits.
Arguments policy F D W : clear implicits.
Arguments OrderDecision F : clear implicits.
Arguments OrderSnapshot F : clear implicits.

(** ** Guarded callbacks *)

Section Guards.
Context `{PyFloat F} `{!PyFloatEq F}.
Implicit Types (st : heap F) (r : raw_order F).

(** The engine-owned fields agree. *)
Definition guarded_same r r' : Prop :=
  contract_is (r_contract r') (r_contract r) = true /\ r_timestamp r' = r_timestamp r /\
  r_time_in_force r' = r_time_in_force r /\ py_int (r_qty r') = py_int (r_qty r) /\ r_status r' = r_status r.

(** What the engine knows of an order it holds. *)
Definition engine_order r : Prop := is_Some (settle r).

Lemma engine_order_fields r :
  engine_order r <-> exists c t tif s q, r_contract r = Inst c /\ r_timestamp r = Inst t /\
    r_time_in_force r = Inst tif /\ r_status r = Inst s /\ py_int (r_qty r) = Some q.
Proof.
  unfold engine_order, settle. destruct (r_contract r), (r_timestamp r), (r_time_in_force r), (r_status r), (py_int (r_qty r));
    split; intros Hx; (by destruct Hx) || naive_solver.
Qed.

Lemma contract_is_refl (c : contract F) : contract_is (Inst c) (Inst c) = true.
Proof. unfold contract_is, is_contract. by apply bool_decide_eq_true. Qed.

Lemma contract_is_trans (a b c : arg (contract F)) :
  contract_is a b = true -> contract_is b c = true -> contract_is a c = true.
Proof.
  destruct a, b, c; simpl; try done. unfold is_contract. rewrite !bool_decide_eq_true. congruence.
Qed.

Lemma guarded_same_refl r : engine_order r -> guarded_same r r.
Proof.
  intros (c & t & tif & s & q & Hc & _)%engine_order_fields. unfold guarded_same. rewrite Hc.
  split_and!; try done. apply contract_is_refl.
Qed.

Lemma guarded_same_trans r1 r2 r3 : guarded_same r1 r2 -> guarded_same r2 r3 -> guarded_same r1 r3.
Proof.
  unfold guarded_same. intros (?&?&?&?&?) (?&?&?&?&?). split_and!; try congruence. by eapply contract_is_trans.
Qed.

Lemma guarded_same_engine r r' : engine_order r -> guarded_same r r' -> engine_order r'.
Proof.
  rewrite !engine_order_fields. intros (c & t & tif & s & q & Hc & Ht & Htif & Hs & Hq) (Hg & ? & ? & ? & ?).
  unfold contract_is in Hg. destruct (r_contract r') as [c'|] eqn:Hc'; [|done].
  exists c', t, tif, s, q. split_and!; congruence.
Qed.

Lemma int_float_eqb_whole z (x : F) : int_float_eqb z x = true <-> whole_float x = Some z.
Proof.
  unfold int_float_eqb, whole_float. destruct (f_isfinite x && f_is_integer x); simpl; rewrite ?Z.eqb_eq; split; congruence.
Qed.

Lemma py_eqb_py_int (v w : pyval F) q :
  is_real v = true -> py_eqb v w = true -> py_int w = Some q -> py_int v = Some q.
Proof.
  intros Hv He Hw.
  destruct v as [|b|b|z|x|z|x|s|i], w as [|b'|b'|z'|x'|z'|x'|s'|i']; simpl in Hv; try done;
    cbn [py_eqb py_int] in *;
    rewrite ?int_float_eqb_whole, ?Z.eqb_eq in He; try congruence;
    apply f_eqb_whole in He; congruence.
Qed.

Definition capture_of (oid : positive) r : OrderCallbackState F :=
  {| cs_order := oid; cs_contract := r_contract r; cs_timestamp := r_timestamp r;
     cs_time_in_force := r_time_in_force r; cs_qty := r_qty r; cs_status := r_status r |}.

Lemma inst_eqb_same {A} `{EqDecision A} (a b : arg A) : inst_eqb a b = true -> a = b.
Proof. intros (x & -> & ->)%inst_eqb_true. done. Qed.

Lemma validate_identity_same oid r st :
  validate_identity (capture_of oid r) st = Ok tt ->
  exists r', st !! oid = Some r' /\ contract_is (r_contract r') (r_contract r) = true /\
    r_timestamp r' = r_timestamp r /\ r_time_in_force r' = r_time_in_force r.
Proof.
  unfold validate_identity. simpl. destruct (st !! oid) as [r'|]; [|done]. intros Hv. inv_ok Hv.
  exists r'. split_and!; try done; by apply inst_eqb_same.
Qed.

Lemma validate_unchanged_same oid r st :
  engine_order r -> validate_unchanged false (capture_of oid r) st = Ok tt ->
  exists r', st !! oid = Some r' /\ guarded_same r r'.
Proof.
  intros (c & t & tif & s & q & Hc & Ht & Htif & Hs & Hq)%engine_order_fields. unfold validate_unchanged.
  intros ([] & Hid & Hv)%bind_Ok_inv. apply validate_identity_same in Hid as (r' & Hr' & ? & ? & ?).
  change (cs_order (capture_of oid r)) with oid in Hv. rewrite Hr' in Hv. simpl in Hv. inv_ok Hv.
  rewrite negb_orb, !negb_involutive in Hguard. bools.
  exists r'. split; [done|]. split_and!; try done.
  - rewrite Hq. by eapply py_eqb_py_int.
  - destruct (inst_eqb (r_status r') (r_status r)) eqn:E; [|done]. by apply inst_eqb_same.
Qed.

Lemma capture_all_elem st ids s :
  s ∈ capture_all st ids -> exists oid r, oid ∈ ids /\ st !! oid = Some r /\ s = capture_of oid r.
Proof.
  unfold capture_all, capture. intros (oid & Hin & Hs)%list_elem_of_omap.
  destruct (st !! oid) as [r|] eqn:Hr; simplify_eq/=. eauto.
Qed.

Lemma capture_all_in st ids oid r : oid ∈ ids -> st !! oid = Some r -> capture_of oid r ∈ capture_all st ids.
Proof.
  intros Hin Hr. unfold capture_all. apply list_elem_of_omap. exists oid. split; [done|].
  unfold capture. by rewrite Hr.
Qed.

(** Restoring captured orders puts their guarded fields back; other objects are
    untouched. *)
Lemma restore_all_lookup states st oid :
  restore_all states st !! oid =
    (fun r => match last (filter (fun s => cs_order s = oid) states) with
              | None => r
              | Some s => RawOrder (cs_contract s) (cs_timestamp s) (cs_qty s) (r_reason_code r)
                            (cs_time_in_force s) (r_properties r) (cs_status s) (r_kind r)
              end) <$> st !! oid.
Proof.
  unfold restore_all. revert st. induction states as [|s states IH] using rev_ind; intros st.
  - simpl. by destruct (st !! oid).
  - rewrite foldl_app. cbn [foldl]. unfold restore_order. rewrite filter_app, filter_cons, filter_nil.
    destruct (decide (cs_order s = oid)) as [<-|Hne].
    + rewrite lookup_alter_eq, IH, last_snoc. destruct (st !! cs_order s) as [r|]; [|done]. simpl. f_equal.
      by destruct (last _).
    + rewrite lookup_alter_ne, IH, app_nil_r by done. done.
Qed.

Lemma restore_captured st st' ids oid r :
  oid ∈ ids -> st !! oid = Some r -> engine_order r -> is_Some (st' !! oid) ->
  exists r', restore_all (capture_all st ids) st' !! oid = Some r' /\ guarded_same r r'.
Proof.
  intros Hin Hr He [r' Hr']. rewrite restore_all_lookup, Hr'. simpl. eexists. split; [done|].
  destruct (last _) as [s|] eqn:Hl.
  - apply last_Some_elem_of in Hl. apply list_elem_of_filter in Hl as [Hs Hl].
    apply capture_all_elem in Hl as (oid' & r1 & _ & Hr1 & ->). simpl in Hs. subst oid'. simplify_eq. simpl.
    apply guarded_same_refl in He. exact He.
  - apply last_None in Hl. exfalso. pose proof (capture_all_in st ids oid r Hin Hr) as Hc.
    assert (capture_of oid r ∈ filter (fun s => cs_order s = oid) (capture_all st ids)) as Hf
      by (apply list_elem_of_filter; done).
    rewrite Hl in Hf. by apply elem_of_nil in Hf.
Qed.
End Guards.

(** ** Decisions *)

Section DecisionFacts.
Context `{PyFloat F} `{!PyFloatEq F} `{!Numpy F} `{SortedDict D} {W : Type}.
Implicit Types (st : heap F) (p : policy F D W).

(** Objects that are referred to do not disappear. *)
Definition keeps_objects p : Prop := forall oid ctx s s' r i,
  po_evaluate p oid ctx s = (s', r) -> is_Some (s.2.1 !! i) -> is_Some (s'.2.1 !! i).

(** The guarded fields of the orders [ids] are as they were. *)
Definition undisturbed (ids : list positive) st st' : Prop :=
  forall i r, i ∈ ids -> st !! i = Some r -> exists r', st' !! i = Some r' /\ guarded_same r r'.

Definition engine_orders (ids : list positive) st : Prop :=
  forall i, i ∈ ids -> exists r, st !! i = Some r /\ engine_order r.

Lemma undisturbed_trans ids st1 st2 st3 :
  undisturbed ids st1 st2 -> undisturbed ids st2 st3 -> undisturbed ids st1 st3.
Proof.
  intros H1 H2 i r Hi Hr. destruct (H1 i r Hi Hr) as (r2 & Hr2 & Hs2).
  destruct (H2 i r2 Hi Hr2) as (r3 & Hr3 & Hs3). exists r3. split; [done|]. by eapply guarded_same_trans.
Qed.

Lemma undisturbed_refl ids st : engine_orders ids st -> undisturbed ids st st.
Proof.
  intros He i r Hi Hr. exists r. split; [done|]. destruct (He i Hi) as (r' & Hr' & Heng). simplify_eq.
  by apply guarded_same_refl.
Qed.

Lemma undisturbed_engine ids st st' : engine_orders ids st -> undisturbed ids st st' -> engine_orders ids st'.
Proof.
  intros He Hu i Hi. destruct (He i Hi) as (r & Hr & Heng). destruct (Hu i r Hi Hr) as (r' & Hr' & Hs).
  exists r'. split; [done|]. by eapply guarded_same_engine.
Qed.

Lemma validate_all_undisturbed ids st st' :
  engine_orders ids st -> validate_all false (capture_all st ids) st' = Ok tt -> undisturbed ids st st'.
Proof.
  unfold validate_all. intros He Hv i r Hi Hr. apply iterE_Ok in Hv. rewrite Forall_forall in Hv.
  destruct (He i Hi) as (r' & Hr' & Heng). simplify_eq.
  apply validate_unchanged_same; [done|]. apply Hv. by apply capture_all_in.
Qed.

Lemma restore_undisturbed ids st st' :
  engine_orders ids st -> (forall i, is_Some (st !! i) -> is_Some (st' !! i)) ->
  undisturbed ids st (restore_all (capture_all st ids) st').
Proof.
  intros He Hk i r Hi Hr. destruct (He i Hi) as (r' & Hr' & Heng). simplify_eq.
  eapply restore_captured; [done|done|done|]. apply Hk. eauto.
Qed.

Lemma evaluate_policy_undisturbed p oid ctx w st a w' st' a' r :
  keeps_objects p -> engine_orders (oid :: rc_open_orders ctx) st ->
  evaluate_policy p oid ctx (w, (st, a)) = ((w', (st', a')), r) ->
  undisturbed (oid :: rc_open_orders ctx) st st'.
Proof.
  intros Hk He. unfold evaluate_policy. destruct (po_evaluate p oid ctx (w, (st, a))) as [[w1 [st1 a1]] res] eqn:Hp.
  assert (forall i, is_Some (st !! i) -> is_Some (st1 !! i)) as Hdom by (intros i; apply (Hk _ _ _ _ _ i Hp)).
  destruct res as [res|e]; [destruct (validate_all _ _ _) as [[]|e] eqn:Hv|]; intros; simplify_eq/=;
    [by apply validate_all_undisturbed|by apply restore_undisturbed..].
Qed.

(** The results of policies consulted in order, all returned without raising. *)
Inductive verdicts (oid : positive) (ctx : RiskContext) : world F D W -> list (policy F D W) -> list PolicyResult -> world F D W -> Prop :=
  | verdicts_nil s : verdicts oid ctx s [] [] s
  | verdicts_cons s p r s1 ps rs s2 :
      evaluate_policy p oid ctx s = (s1, Ok (Inst r)) -> verdicts oid ctx s1 ps rs s2 ->
      verdicts oid ctx s (p :: ps) (r :: rs) s2.

Lemma decide_policies_spec ps oid ctx : forall w st a w' st' a' r,
  Forall keeps_objects ps -> engine_orders (oid :: rc_open_orders ctx) st ->
  decide_policies ps oid ctx (w, (st, a)) = ((w', (st', a')), r) ->
  undisturbed (oid :: rc_open_orders ctx) st st' /\
  forall d, r = Ok d ->
    (exists rs, verdicts oid ctx (w, (st, a)) ps rs (w', (st', a')) /\ Forall (fun v => pr_accepted v = true) rs /\
       OrderDecision_new oid ACCEPTED "" "accepted" "" (rc_timestamp ctx) st' = Ok d) \/
    (exists ps1 p ps2 rs v, ps = ps1 ++ p :: ps2 /\
       verdicts oid ctx (w, (st, a)) (ps1 ++ [p]) (rs ++ [v]) (w', (st', a')) /\
       Forall (fun v => pr_accepted v = true) rs /\ pr_accepted v = false /\
       OrderDecision_new oid REJECTED (po_name p) (pr_code v) (pr_message v) (rc_timestamp ctx) st' = Ok d).
Proof.
  induction ps as [|p ps IH]; intros w st a w' st' a' r Hk He Hd; cbn [decide_policies] in Hd.
  - simplify_eq. split; [by apply undisturbed_refl|]. intros d Hd. left. exists []. split_and!; [constructor|done|done].
  - inversion Hk as [|? ? Hkp Hkps]; subst.
    destruct (evaluate_policy p oid ctx (w, (st, a))) as [[w1 [st1 a1]] res] eqn:Hp.
    pose proof (evaluate_policy_undisturbed _ _ _ _ _ _ _ _ _ _ Hkp He Hp) as Hu.
    destruct res as [[v|]|e]; [|by simplify_eq..].
    destruct (pr_accepted v) eqn:Hv.
    + destruct (IH _ _ _ _ _ _ _ Hkps (undisturbed_engine _ _ _ He Hu) Hd) as [Hu1 Hr].
      split; [by eapply undisturbed_trans|]. intros d Hrd.
      destruct (Hr d Hrd) as [(rs & Hvs & Hall & Hnew)|(ps1 & p' & ps2 & rs & v' & -> & Hvs & Hall & Hv' & Hnew)].
      * left. exists (v :: rs). split_and!; [by econstructor|by constructor|done].
      * right. exists (p :: ps1), p', ps2, (v :: rs), v'. split_and!; [done|by econstructor|by constructor|done|done].
    + simplify_eq. split; [done|]. intros d Hrd. right. exists [], p, ps, [], v.
      split_and!; [done|econstructor; [done|constructor]|constructor|done|done].
Qed.
End DecisionFacts.

(** A decision on an order asks the policies in registration order.  The
    order is ACCEPTED exactly when every policy was asked and accepted; the
    first that refuses makes the decision REJECTED under its name and code, and
    the policies after it are not asked.  Whatever the policies did, raising
    included, the contract, timestamp, time in force, quantity and status of the
    order and of every pending order are what they were. *)
Theorem decide_order_correct `{PyFloat F} `{!PyFloatEq F} `{!Numpy F} `{SortedDict D} {W}
    (ps : list (policy F D W)) oid ctx w st a w' st' a' r :
  Forall keeps_objects ps -> engine_orders (oid :: rc_open_orders ctx) st ->
  decide_order ps oid ctx (w, (st, a)) = ((w', (st', a')), r) ->
  undisturbed (oid :: rc_open_orders ctx) st st' /\
  forall d, r = Ok d -> od_order d = oid /\ od_timestamp d = rc_timestamp ctx /\
    match od_status d with
    | ACCEPTED => exists rs, verdicts oid ctx (w, (st, a)) ps rs (w', (st', a')) /\ Forall (fun v => pr_accepted v = true) rs
    | REJECTED => exists ps1 p ps2 rs v, ps = ps1 ++ p :: ps2 /\ od_policy d = po_name p /\ od_code d = pr_code v /\
        verdicts oid ctx (w, (st, a)) (ps1 ++ [p]) (rs ++ [v]) (w', (st', a')) /\
        Forall (fun v => pr_accepted v = true) rs /\ pr_accepted v = false
    end.
Proof.
  intros Hk He Hd. unfold decide_order in Hd. destruct (He oid ltac:(left)) as (o & Ho & _). rewrite Ho in Hd.
  destruct (_ ≫= _) as [[]|e]; [|by simplify_eq; split; [apply undisturbed_refl|]].
  destruct (decide_policies_spec _ _ _ _ _ _ _ _ _ _ Hk He Hd) as [Hu Hr]. split; [done|]. intros d ->.
  assert (forall s pol code msg, OrderDecision_new oid s pol code msg (rc_timestamp ctx) st' = Ok d ->
    od_order d = oid /\ od_timestamp d = rc_timestamp ctx /\ od_status d = s /\ od_policy d = pol /\ od_code d = code) as Hnew.
  { intros s pol code msg Hn. unfold OrderDecision_new in Hn. destruct (st' !! oid); [|done]. by inv_ok Hn. }
  destruct (Hr d eq_refl) as [(rs & Hvs & Hall & Hn)|(ps1 & p & ps2 & rs & v & -> & Hvs & Hall & Hv & Hn)];
    destruct (Hnew _ _ _ _ Hn) as (? & ? & -> & ? & ?); split_and!; try done; eauto 15.
Qed.

Lemma pure_policy_keeps `{PyFloat F} `{!Numpy F} `{SortedDict D} {W} name evaluate :
  keeps_objects (F:=F) (D:=D) (W:=W) (pure_policy name evaluate).
Proof. intros oid ctx [w [st a]] s' r i Hp Hi. unfold pure_policy in Hp. simpl in Hp. by simplify_eq. Qed.

Definition demo_max_order (maximum : Z) : policy spec_float sorted_items unit :=
  pure_policy "max_order_quantity" (fun r _ _ _ => Ok (MaxOrderQuantity_evaluate (f_of_Z maximum) r)).

Lemma decide_order_correct_witness :
  let ps := [demo_max_order 5; demo_max_order 2; demo_max_order 1] in
  let ctx := mkContext 7 [] in
  exists d, (decide_order ps 6 ctx (tt, (demo_market_heap, float_account))).2 = Ok d /\ od_status d = REJECTED /\
    match od_status d with
    | ACCEPTED => True
    | REJECTED => exists ps1 p ps2, ps = ps1 ++ p :: ps2 /\ od_policy d = po_name p
    end.
Proof.
  intros ps ctx.
  assert (exists d, decide_order ps 6 ctx (tt, (demo_market_heap, float_account)) =
    ((tt, (demo_market_heap, float_account)), Ok d) /\ od_status d = REJECTED) as (d & Hd & Hs)
    by (eexists; split; [vm_compute; reflexivity|vm_compute; reflexivity]).
  exists d. rewrite Hd. split; [reflexivity|]. split; [exact Hs|].
  destruct (decide_order_correct (F:=spec_float) ps 6 ctx tt demo_market_heap float_account tt demo_market_heap float_account (Ok d))
    as [_ Hr].
  - repeat constructor; apply pure_policy_keeps.
  - intros i Hi. apply list_elem_of_singleton in Hi as ->. eexists. split; [reflexivity|]. eexists. reflexivity.
  - exact Hd.
  - destruct (Hr d eq_refl) as (_ & _ & Hst). rewrite Hs in *. destruct Hst as (ps1 & p & ps2 & rs & v & Hps & Hpol & _). eauto.
Defined.

(** ** Sums over the pending orders *)

Section Pending.
Context `{PyFloat F}.
Implicit Types (st : heap F) (r : raw_order F).
Context (sel : raw_order F -> bool).

(** What one pending order contributes to a sum over those that are open and
    selected. *)
Definition contrib (g : Z -> Z) st (oid : positive) : Z :=
  match st !! oid with
  | Some r => if raw_is_open r && sel r then g (qty_of r) else 0
  | None => 0
  end.

Definition pending_total (g : Z -> Z) st (ids : list positive) : Z := sumZ (contrib g st <$> ids).

Lemma pending_sum g st ids :
  sumZ ((fun r => g (qty_of r)) <$> filter (fun r => raw_is_open r && sel r = true) (omap (fun i => st !! i) ids)) =
    pending_total g st ids.
Proof.
  unfold pending_total, contrib. induction ids as [|i ids IH]; csimpl; [done|].
  destruct (st !! i) as [r|]; csimpl; [|rewrite sumZ_cons; lia]. rewrite filter_cons, sumZ_cons.
  case_decide as Hp; csimpl; rewrite ?sumZ_cons; [by rewrite Hp, IH|].
  apply not_true_is_false in Hp. rewrite Hp, IH. lia.
Qed.

Lemma sumZ_update (f f' : positive -> Z) ids oid :
  NoDup ids -> (forall i, i <> oid -> f' i = f i) ->
  sumZ (f' <$> ids) = sumZ (f <$> ids) + (if decide (oid ∈ ids) then f' oid - f oid else 0).
Proof.
  intros Hnd Hf. induction Hnd as [|i ids Hn Hnd IH]; [done|]. rewrite !fmap_cons, !sumZ_cons, IH.
  destruct (decide (oid ∈ i :: ids)) as [Hin|Hout], (decide (oid ∈ ids)) as [Hin'|Hout'].
  - rewrite (Hf i) by (intros ->; done). lia.
  - apply elem_of_cons in Hin as [->|]; [lia|done].
  - exfalso. apply Hout. by right.
  - rewrite (Hf i); [lia|]. intros ->. apply Hout. left.
Qed.

Lemma sumZ_filter (f : positive -> Z) (P : positive -> Prop) `{!forall i, Decision (P i)} ids :
  (forall i, ~ P i -> f i = 0) -> sumZ (f <$> filter P ids) = sumZ (f <$> ids).
Proof.
  intros Hf. induction ids as [|i ids IH]; [done|]. rewrite filter_cons. case_decide as Hp; csimpl; rewrite !sumZ_cons, IH; [done|].
  rewrite (Hf i Hp). lia.
Qed.

Lemma raw_fill_Ok r v r' :
  raw_fill r v = Ok r' ->
  exists q, 0 <= qty_of r * q /\ Z.abs q <= Z.abs (qty_of r) /\ qty_of r' = qty_of r - q /\
    r_contract r' = r_contract r /\
    r_status r' = Inst (if int_isclose0 (qty_of r - q) then FILLED else PARTIALLY_FILLED).
Proof.
  unfold raw_fill. destruct (settle r) as [o|] eqn:Hs; [|done]. intros Hf. inv_ok Hf.
  apply fill_Ok in Hbind as (_ & q & _ & Hs1 & Hs2 & ->). exists q.
  assert (qty_of r = o_qty o) as Hq.
  { unfold settle in Hs. unfold qty_of. destruct (r_contract r), (r_timestamp r), (r_time_in_force r), (r_status r), (py_int (r_qty r)); by simplify_eq/=. }
  rewrite Hq. done.
Qed.

(** Replacing one object shifts the sum by the change of its contribution. *)
Lemma pending_insert g st ids oid r :
  NoDup ids ->
  pending_total g (<[oid := r]> st) ids =
    pending_total g st ids + (if decide (oid ∈ ids) then contrib g (<[oid := r]> st) oid - contrib g st oid else 0).
Proof.
  intros Hnd. unfold pending_total. apply sumZ_update; [done|]. intros i Hi. unfold contrib. by rewrite lookup_insert_ne.
Qed.

(** Orders that are not open can be dropped. *)
Lemma pending_drop g st ids :
  pending_total g st (filter (fun i => match st !! i with Some r => raw_is_open r | None => false end = true) ids) =
    pending_total g st ids.
Proof.
  unfold pending_total. apply sumZ_filter. intros i Hi. unfold contrib. destruct (st !! i) as [r|]; [|done].
  apply not_true_is_false in Hi. by rewrite Hi.
Qed.

Lemma pending_snoc g st ids oid : pending_total g st (ids ++ [oid]) = pending_total g st ids + contrib g st oid.
Proof. unfold pending_total. rewrite fmap_app, sumZ_app. csimpl. by rewrite sumZ_cons, sumZ_nil, Z.add_0_r. Qed.

Lemma contrib_cancel g st oid r :
  st !! oid = Some r ->
  contrib g (<[oid := raw_cancel r]> st) oid = 0 \/ contrib g (<[oid := raw_cancel r]> st) oid = contrib g st oid.
Proof.
  intros Hr. unfold contrib. rewrite lookup_insert_eq, Hr.
  unfold raw_cancel, raw_is_open. destruct (r_status r) as [[]|] eqn:Hst; simpl; rewrite ?Hst; simpl; auto.
Qed.

Lemma contrib_unselected g st oid r : sel r = false -> contrib g (<[oid := r]> st) oid = 0.
Proof. intros Hs. unfold contrib. rewrite lookup_insert_eq, Hs. by rewrite andb_false_r. Qed.

(** A fill leaves the unfilled rest, unless it completes the order. *)
Lemma contrib_fill g st oid r v r' :
  (forall r1 r2, r_contract r1 = r_contract r2 -> sel r1 = sel r2) ->
  st !! oid = Some r -> sel r = true -> raw_is_open r = true -> raw_fill r v = Ok r' ->
  exists q, qty_of r' = qty_of r - q /\ (0 <= q <= qty_of r \/ qty_of r <= q <= 0) /\
    contrib g st oid = g (qty_of r) /\
    contrib g (<[oid := r']> st) oid = if qty_of r - q =? 0 then 0 else g (qty_of r - q).
Proof.
  intros Hsel Hr Hs Hop Hf. apply raw_fill_Ok in Hf as (q & Hs1 & Hs2 & Hq & Hc & Hst). exists q.
  split_and!; [done|nia| |].
  - unfold contrib. by rewrite Hr, Hop, Hs.
  - unfold contrib. rewrite lookup_insert_eq. rewrite (Hsel r' r Hc), Hs. unfold raw_is_open. rewrite Hst, Hq.
    unfold int_isclose0. by destruct (_ =? 0).
Qed.
End Pending.

(** ** The position limit *)

Section PositionLimit.
Context `{PyFloat F} `{!Numpy F} `{SortedDict D}.
Implicit Types (st : heap F) (r : raw_order F).
Context (reg : registry F) (symbol : string) (maximum : F).

Abbreviation contribution := (contrib (has_symbol symbol)).

(** The position in [symbol], the live orders, and the pending ones. *)
Record book := mkBook { bk_position : Z; bk_heap : heap F; bk_open : list positive }.

(** What can happen to it: a pending order is filled, in part or whole, and the
    position moves; any object is cancelled; an order is dropped from the
    pending ones once it is not open; a change to orders in other symbols; and
    a new order is admitted by [MaxPositionQuantity] of an account that holds
    the position. *)
Inductive limit_step : book -> book -> Prop :=
  | ls_fill b oid r v r' :
      oid ∈ bk_open b -> bk_heap b !! oid = Some r -> has_symbol symbol r = true -> raw_is_open r = true ->
      raw_fill r v = Ok r' ->
      limit_step b (mkBook (bk_position b + (qty_of r - qty_of r')) (<[oid := r']> (bk_heap b)) (bk_open b))
  | ls_cancel b oid r :
      bk_heap b !! oid = Some r ->
      limit_step b (mkBook (bk_position b) (<[oid := raw_cancel r]> (bk_heap b)) (bk_open b))
  | ls_drop b : limit_step b (mkBook (bk_position b) (bk_heap b)
      (filter (fun i => match bk_heap b !! i with Some r => raw_is_open r | None => false end = true) (bk_open b)))
  | ls_other b oid r :
      has_symbol symbol r = false ->
      (forall r0, bk_heap b !! oid = Some r0 -> has_symbol symbol r0 = false) ->
      limit_step b (mkBook (bk_position b) (<[oid := r]> (bk_heap b)) (bk_open b))
  | ls_admit b oid r c (a : Account F D) timestamp :
      oid ∉ bk_open b -> bk_heap b !! oid = Some r -> r_contract r = Inst c ->
      (c_symbol c = symbol ->
         current_position reg a c timestamp = Ok (bk_position b) /\
         MaxPositionQuantity_evaluate reg maximum r (mkContext timestamp (bk_open b)) (bk_heap b) a = Ok accept) ->
      limit_step b (mkBook (bk_position b) (bk_heap b) (bk_open b ++ [oid])).

(** The sum over the pending orders in the symbol. *)
Definition exposure (g : Z -> Z) (b : book) : Z := pending_total (has_symbol symbol) g (bk_heap b) (bk_open b).

Lemma bounds_sum current r pending :
  bounds_from current r pending =
    (current + Z.min 0 (qty_of r) + sumZ ((fun r => Z.min 0 (qty_of r)) <$> pending),
     current + Z.max 0 (qty_of r) + sumZ ((fun r => Z.max 0 (qty_of r)) <$> pending)).
Proof.
  unfold bounds_from. generalize (current + Z.min 0 (qty_of r)), (current + Z.max 0 (qty_of r)).
  induction pending as [|x pending IH]; intros lo hi; csimpl; rewrite ?sumZ_nil, ?sumZ_cons; [by rewrite !Z.add_0_r|].
  destruct (extend_bounds (lo, hi) x) as [lo' hi'] eqn:E. rewrite IH. unfold extend_bounds in E.
  simplify_eq/=. f_equal; lia.
Qed.

(** The worst reachable positions, with every order filled on one side. *)
Definition within (b : book) : Prop :=
  NoDup (bk_open b) /\
  z_leb_f (bk_position b + exposure (Z.max 0) b) maximum = true /\
  f_leb_z (f_opp maximum) (bk_position b + exposure (Z.min 0) b) = true.

Lemma z_leb_f_mono (x : F) a b : a <= b -> z_leb_f b x = true -> z_leb_f a x = true.
Proof. unfold z_leb_f. destruct (f_isnan x), (f_isinf x); try done. rewrite !Z.leb_le. lia. Qed.

Lemma f_leb_z_mono (x : F) a b : a <= b -> f_leb_z x a = true -> f_leb_z x b = true.
Proof. unfold f_leb_z. destruct (f_isnan x), (f_isinf x); try done. rewrite !Z.leb_le. lia. Qed.

Lemma contribution_sign st i : contribution (Z.min 0) st i <= 0 <= contribution (Z.max 0) st i.
Proof. unfold contrib. destruct (st !! i) as [r|]; [|lia]. destruct (_ && _); lia. Qed.

Lemma exposure_sign b : exposure (Z.min 0) b <= 0 <= exposure (Z.max 0) b.
Proof.
  unfold exposure, pending_total. induction (bk_open b) as [|i ids IH]; csimpl; rewrite ?sumZ_nil, ?sumZ_cons; [lia|].
  pose proof (contribution_sign (bk_heap b) i). lia.
Qed.

(** A change that neither extends the upper end nor lowers the lower one. *)
Lemma within_mono b b' :
  within b -> NoDup (bk_open b') ->
  bk_position b' + exposure (Z.max 0) b' <= bk_position b + exposure (Z.max 0) b ->
  bk_position b + exposure (Z.min 0) b <= bk_position b' + exposure (Z.min 0) b' -> within b'.
Proof.
  intros (H1 & H2 & H3) ???. split_and!; [done|by eapply z_leb_f_mono|by eapply f_leb_z_mono].
Qed.

Lemma within_fill b oid r v r' :
  within b -> oid ∈ bk_open b -> bk_heap b !! oid = Some r -> has_symbol symbol r = true -> raw_is_open r = true ->
  raw_fill r v = Ok r' ->
  within (mkBook (bk_position b + (qty_of r - qty_of r')) (<[oid := r']> (bk_heap b)) (bk_open b)).
Proof.
  intros Hw Hin Hr Hsym Hop Hf. pose proof Hw as (Hnd & _).
  assert (forall r1 r2 : raw_order F, r_contract r1 = r_contract r2 -> has_symbol symbol r1 = has_symbol symbol r2) as Hsel
    by (unfold has_symbol; intros r1 r2 ->; done).
  destruct (contrib_fill _ (Z.max 0) _ _ _ _ _ Hsel Hr Hsym Hop Hf) as (q & Hq & Hb & H1 & H2).
  destruct (contrib_fill _ (Z.min 0) _ _ _ _ _ Hsel Hr Hsym Hop Hf) as (q' & Hq' & _ & H3 & H4).
  assert (q' = q) as -> by lia.
  apply (within_mono b); [done|done|..]; unfold exposure; cbn [bk_heap bk_open bk_position];
    rewrite pending_insert, decide_True by done; rewrite ?H1, ?H2, ?H3, ?H4, Hq;
    generalize (pending_total (has_symbol symbol) (Z.max 0) (bk_heap b) (bk_open b)),
      (pending_total (has_symbol symbol) (Z.min 0) (bk_heap b) (bk_open b)); intros hi lo;
    destruct (Z.eqb_spec (qty_of r - q) 0); lia.
Qed.

(** Replacing an object by one that contributes nothing, or as much as before. *)
Lemma within_replace b oid r :
  within b ->
  (forall g, contribution g (<[oid:=r]> (bk_heap b)) oid = 0 \/
             contribution g (<[oid:=r]> (bk_heap b)) oid = contribution g (bk_heap b) oid) ->
  within (mkBook (bk_position b) (<[oid := r]> (bk_heap b)) (bk_open b)).
Proof.
  intros Hw Hc. pose proof Hw as (Hnd & _). pose proof (contribution_sign (bk_heap b) oid).
  apply (within_mono b); [done|done|..]; unfold exposure; cbn [bk_heap bk_open bk_position];
    rewrite pending_insert by done; case_decide; try lia;
    [destruct (Hc (Z.max 0)) as [-> | ->]|destruct (Hc (Z.min 0)) as [-> | ->]]; lia.
Qed.

Lemma within_admit b oid r c (a : Account F D) timestamp :
  within b -> oid ∉ bk_open b -> bk_heap b !! oid = Some r -> r_contract r = Inst c ->
  (c_symbol c = symbol ->
     current_position reg a c timestamp = Ok (bk_position b) /\
     MaxPositionQuantity_evaluate reg maximum r (mkContext timestamp (bk_open b)) (bk_heap b) a = Ok accept) ->
  within (mkBook (bk_position b) (bk_heap b) (bk_open b ++ [oid])).
Proof.
  intros Hw Hn Hr Hc Hadm. pose proof Hw as (Hnd & Hu & Hl).
  assert (NoDup (bk_open b ++ [oid])) as Hnd'.
  { apply NoDup_app. split_and!; [done|set_solver|apply NoDup_singleton]. }
  assert (forall g, exposure g (mkBook (bk_position b) (bk_heap b) (bk_open b ++ [oid])) =
    exposure g b + contribution g (bk_heap b) oid) as He.
  { intros g. apply pending_snoc. }
  unfold contrib in He. rewrite Hr in He.
  destruct (raw_is_open r && has_symbol symbol r) eqn:Hp.
  2:{ apply (within_mono b); [done|done|..]; rewrite He; simpl; lia. }
  bools. unfold has_symbol in *. rewrite Hc in *. bools.
  assert (c_symbol c = symbol) as Hsym by done. destruct (Hadm Hsym) as [Hcur Hev]. clear Hadm.
  unfold MaxPositionQuantity_evaluate, position_bounds, contract_of in Hev. rewrite Hc in Hev. simpl in Hev.
  rewrite Hsym, Hcur in Hev. simpl in Hev.
  destruct (within_limit _ _ _) eqn:Hlim in Hev; [|done]. clear Hev. unfold within_limit in Hlim. rewrite bounds_sum in Hlim.
  unfold pending_in in Hlim. rewrite !pending_sum in Hlim. unfold within. split; [done|]. rewrite !He. simpl in *.
  unfold exposure in *. revert Hlim Hu Hl.
  generalize (pending_total (has_symbol symbol) (Z.max 0) (bk_heap b) (bk_open b)),
    (pending_total (has_symbol symbol) (Z.min 0) (bk_heap b) (bk_open b)). intros hi lo Hlim Hu Hl.
  destruct (Z.ltb_spec 0 (qty_of r)); split; first
    [ eapply z_leb_f_mono; [|exact Hlim]; lia | eapply f_leb_z_mono; [|exact Hlim]; lia
    | eapply z_leb_f_mono; [|exact Hu]; lia | eapply f_leb_z_mono; [|exact Hl]; lia ].
Qed.

Lemma limit_step_within b b' : limit_step b b' -> within b -> within b'.
Proof.
  intros Hs Hw. destruct Hs as [b oid r v r' Hin Hr Hsym Hop Hf|b oid r Hr|b|b oid r Hsym Hsym0|b oid r c a t Hin Hr Hc Ha].
  - by eapply within_fill.
  - apply within_replace; [done|]. intros g. by apply contrib_cancel.
  - pose proof Hw as (Hnd & _).
    apply (within_mono b); [done|by apply NoDup_filter|..]; unfold exposure; simpl; rewrite pending_drop; reflexivity.
  - apply within_replace; [done|]. intros g. left. by apply contrib_unselected.
  - by eapply within_admit.
Qed.
End PositionLimit.

(** C3: If every order that becomes pending was admitted by
    [MaxPositionQuantity] of an account holding the current position, then
    however pending orders are filled, in part or whole and in any order,
    cancelled or dropped, the position in each symbol stays within the limit on
    both sides. *)
Theorem position_limit_respected `{PyFloat F} `{!Numpy F} `{SortedDict D} (reg : registry F) symbol (maximum : F) b :
  z_leb_f 0 maximum = true -> f_leb_z (f_opp maximum) 0 = true ->
  (exists st, rtc (limit_step (D:=D) reg symbol maximum) (mkBook 0 st []) b) ->
  z_leb_f (bk_position b) maximum = true /\ f_leb_z (f_opp maximum) (bk_position b) = true.
Proof.
  intros Hmax Hmin [st Hr].
  assert (within symbol maximum b) as (_ & Hu & Hl).
  { revert Hr. assert (within symbol maximum (mkBook 0 st [])) as Hi.
    { split_and!; [apply NoDup_nil_2|done|done]. }
    intros Hr. induction Hr as [|b1 b2 b3 Hs Hr IH]; [done|]. apply IH. by eapply limit_step_within. }
  pose proof (exposure_sign symbol b). split; [eapply z_leb_f_mono; [|exact Hu]; lia|eapply f_leb_z_mono; [|exact Hl]; lia].
Qed.

Lemma position_limit_respected_witness :
  let maximum := f_of_Z 10 : spec_float in
  exists b : book (F:=spec_float), bk_position b = 2 /\ z_leb_f (bk_position b) maximum = true /\ f_leb_z (f_opp maximum) (bk_position b) = true.
Proof.
  intros maximum.
  set (b := mkBook 2 (<[6%positive := with_status (with_qty (demo_raw_order (demo_contract 2 "ESH4") 7 3 RMarket) (PInt 1)) PARTIALLY_FILLED]>
                        (demo_market_heap (F:=spec_float))) [6%positive]).
  exists b. split; [reflexivity|].
  apply (position_limit_respected (D:=sorted_items) demo_group_registry "ESH4" maximum b); [reflexivity|reflexivity|].
  exists demo_market_heap. eapply rtc_l.
  - eapply (ls_admit _ _ _ (mkBook 0 demo_market_heap []) 6 (demo_raw_order (demo_contract 2 "ESH4") 7 3 RMarket) (demo_contract 2 "ESH4") float_account 2).
    + intros Hin. apply elem_of_nil in Hin. exact Hin.
    + reflexivity.
    + reflexivity.
    + intros _. split; vm_compute; reflexivity.
  - eapply rtc_l; [|apply rtc_refl].
    apply (ls_fill _ _ _ (mkBook 0 demo_market_heap [6%positive]) 6 (demo_raw_order (demo_contract 2 "ESH4") 7 3 RMarket) (PInt 2)
      (with_status (with_qty (demo_raw_order (demo_contract 2 "ESH4") 7 3 RMarket) (PInt 1)) PARTIALLY_FILLED)).
    + left.
    + reflexivity.
    + reflexivity.
    + reflexivity.
    + vm_compute. reflexivity.
Defined.
