(* ===== verification/ControlPlane.v ===== *)
(** * The control plane: [control_plane.py]

    Hierarchical exposure limits on a table of positions, trading overrides and
    their persistence, and the rolling trade budget.  A Polars frame is a list of
    rows; [Series.sum] is a parameter.  A saved book is its JSON value; the text
    of the file and the atomic replacement on disk are not modelled. *)

From stdpp Require Import relations.
From S2P Require Import Roundtrip Prelude Numeric Vendor Boundaries Instruments Contracts Orders Fifo.
From S2P Require Import ContractPnl Account Callbacks Risk.
From Stdlib Require Import Qcanon SpecFloat QArith Lqa Field.

Open Scope Z_scope.

Inductive ControlLevel := PORTFOLIO | STRATEGY | GROUP | INSTRUMENT.
Inductive TradingMode := ACTIVE | REDUCE_ONLY | NO_TRADE.

#[export] Instance ControlLevel_eq_dec : EqDecision ControlLevel.
Proof. solve_decision. Defined.
#[export] Instance TradingMode_eq_dec : EqDecision TradingMode.
Proof. solve_decision. Defined.

(** Truth of an optional string. *)
Definition truthy (s : option string) : bool :=
  match s with None => false | Some s => negb (String.eqb s "") end.

(** The rule every keyed control shares: a portfolio control has no key, any
    other level needs one. *)
Definition check_key (level : ControlLevel) (key : option string) (msg_portfolio msg_level : string) : result unit :=
  match level with
  | PORTFOLIO => unless bool_decide (key = None) raise ValueError msg_portfolio ;; Ok tt
  | _ => unless truthy key raise ValueError msg_level ;; Ok tt
  end.

(** ** Exposure limits *)

Section Exposure.
Context `{PyFloat F} `{!Polars F}.

Record ExposureLimit := mkLimit { el_level : ControlLevel; el_maximum : F; el_key : option string }.

(** [ExposureLimit.__post_init__] *)
Definition ExposureLimit_new (level : ControlLevel) (maximum : F) (key : option string) : result ExposureLimit :=
  whenever negb (f_isfinite maximum) || f_leb maximum f_zero raise ValueError "exposure limit must be finite and positive" ;;
  _ ← check_key level key "portfolio limit key must be None" "limit requires a key";
  Ok (mkLimit level maximum key).

(** A row of the position frame; [None] is null. *)
Record position_row := PositionRow {
  ps_symbol : option string;
  ps_strategy : option string;
  ps_contract_group : option string;
  ps_net_exposure : option F;
}.

Record position_frame := PositionFrame { pf_columns : list string; pf_rows : list position_row }.

Record limited_row := LimitedRow {
  lr_symbol : string;
  lr_strategy : string;
  lr_contract_group : string;
  lr_pre_limit : F;
  lr_net_exposure : F;
  lr_multiplier : F;
}.

Record limit_diagnostic := Diagnostic {
  dg_limit : ExposureLimit;
  dg_gross_before : F;
  dg_multiplier : F;
  dg_gross_after : F;
  dg_clipped : bool;
}.

Record ExposureLimitResult := {
  er_positions : list (limited_row * F);       (* with the gross_exposure column *)
  er_diagnostics : list limit_diagnostic;
}.

(** [HierarchicalExposureLimiter.__init__] *)
Definition limiter_new (limits : list ExposureLimit) : result (list ExposureLimit) :=
  whenever bool_decide (limits = []) raise ValueError "at least one exposure limit is required" ;;
  unless bool_decide (NoDup ((fun l => (el_level l, el_key l)) <$> limits))
    raise ValueError "exposure limits must have unique level/key identities" ;;
  Ok limits.

(** [_mask] *)
Definition limit_mask (limit : ExposureLimit) (r : limited_row) : bool :=
  match el_level limit with
  | PORTFOLIO => true
  | STRATEGY => bool_decide (el_key limit = Some (lr_strategy r))
  | GROUP => bool_decide (el_key limit = Some (lr_contract_group r))
  | INSTRUMENT => bool_decide (el_key limit = Some (lr_symbol r))
  end.

Definition limit_ordering (limit : ExposureLimit) : Z :=
  match el_level limit with INSTRUMENT => 0 | GROUP => 1 | STRATEGY => 2 | PORTFOLIO => 3 end.

Definition matching (limit : ExposureLimit) (rows : list limited_row) : list limited_row :=
  filter (fun r => limit_mask limit r = true) rows.

Definition gross (rows : list limited_row) : F := pl_sum ((fun r => f_abs (lr_net_exposure r)) <$> rows).

Definition scale_row (limit : ExposureLimit) (multiplier : F) (r : limited_row) : limited_row :=
  if limit_mask limit r
  then LimitedRow (lr_symbol r) (lr_strategy r) (lr_contract_group r) (lr_pre_limit r)
         (f_mul (lr_net_exposure r) multiplier) (f_mul (lr_multiplier r) multiplier)
  else r.

Definition limit_multiplier (limit : ExposureLimit) (gross_before : F) : F :=
  if f_gtb gross_before f_zero then f_min f_one (f_div (el_maximum limit) gross_before) else f_one.

(** One iteration of the loop of [apply]. *)
Definition apply_limit (acc : list limited_row * list limit_diagnostic) (limit : ExposureLimit)
  : result (list limited_row * list limit_diagnostic) :=
  let '(rows, diagnostics) := acc in
  let matched := matching limit rows in
  whenever bool_decide (length matched = O) raise ValueError "exposure limit matches no positions" ;;
  let gross_before := gross matched in
  let multiplier := limit_multiplier limit gross_before in
  Ok (scale_row limit multiplier <$> rows,
      diagnostics ++ [Diagnostic limit gross_before multiplier (f_mul gross_before multiplier)
                        (f_ltb multiplier f_one)]).

Definition required_columns : list string := ["symbol"; "strategy"; "contract_group"; "net_exposure"]%string.

Definition valid_row (r : position_row) : option limited_row :=
  match ps_symbol r, ps_strategy r, ps_contract_group r, ps_net_exposure r with
  | Some s, Some st, Some g, Some x => Some (LimitedRow s st g x x f_one)
  | _, _, _, _ => None
  end.

(** [apply] *)
Definition apply_limits (limits : list ExposureLimit) (positions : position_frame) : result ExposureLimitResult :=
  unless bool_decide (Forall (fun c => c ∈ pf_columns positions) required_columns)
    raise ValueError "position columns are missing" ;;
  whenever bool_decide (length (pf_rows positions) = O) raise ValueError "positions cannot be empty" ;;
  match mapM valid_row (pf_rows positions) with
  | None => Err (ValueError "position fields cannot be null")
  | Some rows =>
      unless forallb (fun r => f_isfinite (lr_net_exposure r)) rows raise ValueError "net exposure must be finite" ;;
      '(rows, diagnostics) ← foldE apply_limit (rows, []) (sorted_by limit_ordering limits);
      Ok {| er_positions := (fun r => (r, f_abs (lr_net_exposure r))) <$> rows; er_diagnostics := diagnostics |}
  end.
End Exposure.

Arguments ExposureLimit F : clear implicits.
Arguments position_frame F : clear implicits.
Arguments position_row F : clear implicits.
Arguments limited_row F : clear implicits.
Arguments limit_diagnostic F : clear implicits.
Arguments ExposureLimitResult F : clear implicits.

(** ** Trading overrides *)

Record TradingOverride := mkOverride {
  to_level : ControlLevel;
  to_mode : TradingMode;
  to_effective_from : Z;
  to_reason : string;
  to_key : option string;
  to_expires_at : option Z;
}.

(** [s.strip()] is empty: ASCII white space only. *)
Definition blank (s : string) : bool :=
  str_all (fun c => let n := Ascii.N_of_ascii c in ((9 <=? n) && (n <=? 13) || (28 <=? n) && (n <=? 32))%N) s.

Section Overrides.
Context `{PyFloat F} `{!Numpy F} `{!DatetimeText F} `{SortedDict D} {W : Type}.

(** [np.datetime64(str(value))] *)
Definition normalized_time (t : option Z) : result (option Z) := np_datetime64 (np_str t).

(** [TradingOverride.__post_init__]; [None] in [expires_at] is [None], [Some None] NaT. *)
Definition TradingOverride_new (level : ControlLevel) (mode : TradingMode) (effective_from : option Z)
  (reason : string) (key : option string) (expires_at : option (option Z)) : result TradingOverride :=
  start ← normalized_time effective_from;
  end_ ← (match expires_at with None => Ok None | Some e => Some <$> normalized_time e end);
  match start, end_ with
  | None, _ | _, Some None => Err (ValueError "override timestamps cannot be NaT")
  | Some start, _ =>
      let end_ := match end_ with Some (Some e) => Some e | _ => None end in
      whenever (match end_ with Some e => e <? start | None => false end)
        raise ValueError "override expiry cannot precede its effective time" ;;
      whenever blank reason raise ValueError "override reason cannot be empty" ;;
      _ ← check_key level key "portfolio override key must be None" "override requires a key";
      Ok (mkOverride level mode start reason key end_)
  end.

(** [is_active]: comparisons with NaT are false. *)
Definition is_active (o : TradingOverride) (timestamp : option Z) : result bool :=
  value ← normalized_time timestamp;
  Ok (match value with
      | None => false
      | Some t => (to_effective_from o <=? t) &&
                  (match to_expires_at o with None => true | Some e => t <=? e end)
      end).

(** [TradingOverrideBook._matches] *)
Definition override_matches (o : TradingOverride) (c : contract F) (strategy : option string) : bool :=
  match to_level o with
  | PORTFOLIO => true
  | STRATEGY => bool_decide (strategy = to_key o)
  | GROUP => bool_decide (Some (cg_name (c_contract_group c)) = to_key o)
  | INSTRUMENT => bool_decide (Some (c_symbol c) = to_key o)
  end.

Definition severity (m : TradingMode) : Z := match m with ACTIVE => 0 | REDUCE_ONLY => 1 | NO_TRADE => 2 end.
Definition specificity (l : ControlLevel) : Z :=
  match l with PORTFOLIO => 0 | STRATEGY => 1 | GROUP => 2 | INSTRUMENT => 3 end.

(** The comparison [<] of the keys. *)
Definition key_lt (a b : TradingOverride) : bool :=
  let k o := (severity (to_mode o), specificity (to_level o), to_effective_from o) in
  let '(a1, a2, a3) := k a in let '(b1, b2, b3) := k b in
  (a1 <? b1) || (a1 =? b1) && ((a2 <? b2) || (a2 =? b2) && (a3 <? b3)).

(** [max(l, key=...)]: the first of the greatest. *)
Definition max_override (o : TradingOverride) (l : list TradingOverride) : TradingOverride :=
  foldl (fun best x => if key_lt best x then x else best) o l.

(** [TradingOverrideBook.resolve] *)
Definition resolve (book : list TradingOverride) (c : contract F) (timestamp : Z) (strategy : option string)
  : result (option TradingOverride) :=
  matches ← foldE (fun acc o =>
              active ← is_active o (Some timestamp);
              Ok (if active && override_matches o c strategy then acc ++ [o] else acc)) [] book;
  Ok (match matches with [] => None | o :: l => Some (max_override o l) end).

(** [TradingOverridePolicy.evaluate] *)
Definition TradingOverride_evaluate (reg : registry F) (book : list TradingOverride) (strategy : option string)
  (r : raw_order F) (ctx : RiskContext) (st : heap F) (a : Account F D) : result PolicyResult :=
  c ← contract_of r;
  override ← resolve book c (rc_timestamp ctx) strategy;
  match override with
  | None => Ok accept
  | Some o =>
      match to_mode o with
      | ACTIVE => Ok accept
      | NO_TRADE => Ok (reject "no_trade_override" (to_reason o))
      | REDUCE_ONLY =>
          projected ← projected_position reg ctx r st a;
          Ok (if reduces projected (qty_of r) then accept else reject "reduce_only_override" (to_reason o))
      end
  end.
End Overrides.

(** ** Persistence *)

#[local] Set Warnings "-register-all".

(** A JSON value (floats and booleans are left out: no field of the format is one). *)
Inductive json :=
  | JNull
  | JInt (z : Z)
  | JString (s : string)
  | JArray (l : list json)
  | JObject (l : list (string * json)).

Definition level_value (l : ControlLevel) : string :=
  match l with PORTFOLIO => "portfolio" | STRATEGY => "strategy" | GROUP => "group" | INSTRUMENT => "instrument" end.
Definition mode_value (m : TradingMode) : string :=
  match m with ACTIVE => "active" | REDUCE_ONLY => "reduce_only" | NO_TRADE => "no_trade" end.

(** [ControlLevel(value)], [TradingMode(value)] *)
Definition level_of (v : json) : result ControlLevel :=
  match v with
  | JString "portfolio" => Ok PORTFOLIO
  | JString "strategy" => Ok STRATEGY
  | JString "group" => Ok GROUP
  | JString "instrument" => Ok INSTRUMENT
  | _ => Err (ValueError "is not a valid ControlLevel")
  end.
Definition mode_of (v : json) : result TradingMode :=
  match v with
  | JString "active" => Ok ACTIVE
  | JString "reduce_only" => Ok REDUCE_ONLY
  | JString "no_trade" => Ok NO_TRADE
  | _ => Err (ValueError "is not a valid TradingMode")
  end.

Definition jget (l : list (string * json)) (k : string) : json := default JNull (dict_get l k).
Definition jitem (l : list (string * json)) (k : string) : result json :=
  match dict_get l k with Some v => Ok v | None => Err (KeyError k) end.

Section Persistence.
Context `{PyFloat F} `{!Numpy F} `{!DatetimeText F}.

(** The payload [save] writes. *)
Definition override_payload (o : TradingOverride) : json :=
  JObject [("level"%string, JString (level_value (to_level o)));
           ("key"%string, match to_key o with None => JNull | Some k => JString k end);
           ("mode"%string, JString (mode_value (to_mode o)));
           ("effective_from"%string, JString (np_str (Some (to_effective_from o))));
           ("expires_at"%string, match to_expires_at o with None => JNull | Some e => JString (np_str (Some e)) end);
           ("reason"%string, JString (to_reason o))].

Definition save_payload (book : list TradingOverride) : json :=
  JObject [("schema_version"%string, JInt 1); ("overrides"%string, JArray (override_payload <$> book))].

(** [np.datetime64(value)] of a JSON value: text, or an error. *)
Definition json_time (v : json) : result (option Z) :=
  match v with
  | JString s => np_datetime64 s
  | JInt _ => Err (ValueError "Converting an integer to a NumPy datetime requires a specified unit")
  | JNull => Ok None
  | _ => Err (ValueError "Could not convert object to NumPy datetime")
  end.

(** A key or reason that is no string raises later, in the constructor. *)
Definition json_key (v : json) : result (option string) :=
  match v with JNull => Ok None | JString s => Ok (Some s) | _ => Err (TypeError "key") end.
Definition json_reason (v : json) : result string :=
  match v with JString s => Ok s | _ => Err (AttributeError "strip") end.

Definition load_override (item : list (string * json)) : result TradingOverride :=
  level ← (v ← jitem item "level"; level_of v);
  key ← json_key (jget item "key");
  mode ← (v ← jitem item "mode"; mode_of v);
  effective_from ← (v ← jitem item "effective_from"; json_time v);
  expires_at ← (match jget item "expires_at" with
                | JNull => Ok None
                | _ => v ← jitem item "expires_at"; Some <$> json_time v
                end);
  reason ← (v ← jitem item "reason"; json_reason v);
  TradingOverride_new level mode effective_from reason key expires_at.

(** [load], of the parsed file. *)
Definition load_payload (payload : json) : result (list TradingOverride) :=
  match payload with
  | JObject root =>
      match jget root "schema_version", jget root "overrides" with
      | JInt 1, JArray items =>
          match mapM (fun i => match i with JObject o => Some o | _ => None end) items with
          | None => Err (ValueError "trading override entries must be objects")
          | Some items => foldE (fun acc i => o ← load_override i; Ok (acc ++ [o])) [] items
          end
      | _, _ => Err (ValueError "unsupported trading override book schema")
      end
  | _ => Err (ValueError "trading override book root must be an object")
  end.
End Persistence.

(** ** The rolling trade budget *)

Section Budget.
Context `{PyFloat F} `{!Numpy F} `{SortedDict D} {W : Type}.

Record RollingTradeBudget := mkBudget {
  tb_maximum : F;
  tb_window : Z;
  tb_level : ControlLevel;
  tb_key : option string;
  tb_strategy : option string;
}.

(** [__post_init__]; the window is in nanoseconds, [None] NaT; [fixed_unit] is
    false of a window in months or years. *)
Definition RollingTradeBudget_new (maximum : F) (fixed_unit : bool) (window : option Z) (level : ControlLevel)
  (key strategy : option string) : result RollingTradeBudget :=
  whenever negb (f_isfinite maximum) || f_leb maximum f_zero raise ValueError "trade budget must be finite and positive" ;;
  unless fixed_unit raise ValueError "trade-budget window must use a fixed-duration unit" ;;
  match window with
  | None => Err (ValueError "trade-budget window must be positive")
  | Some w =>
      whenever w <=? 0 raise ValueError "trade-budget window must be positive" ;;
      _ ← (match level with
           | STRATEGY => unless truthy key && bool_decide (strategy = key)
                           raise ValueError "strategy trade budget requires a matching strategy key" ;; Ok tt
           | _ => check_key level key "portfolio trade-budget key must be None" "trade budget requires a key"
           end);
      Ok (mkBudget maximum w level key strategy)
  end.

(** [_matches] *)
Definition budget_matches (b : RollingTradeBudget) (r : raw_order F) : bool :=
  match tb_level b with
  | PORTFOLIO | STRATEGY => true
  | GROUP => match r_contract r with
             | Inst c => bool_decide (Some (cg_name (c_contract_group c)) = tb_key b) | NotInst => false end
  | INSTRUMENT => match r_contract r with
                  | Inst c => bool_decide (Some (c_symbol c) = tb_key b) | NotInst => false end
  end.

Definition executed_quantity (b : RollingTradeBudget) (trades : list (trade F)) : Z :=
  sumZ ((fun t => Z.abs (t_qty t)) <$> filter (fun t => budget_matches b (t_order t) = true) trades).

Definition pending_quantity (b : RollingTradeBudget) (st : heap F) (ids : list positive) : Z :=
  sumZ ((fun r => Z.abs (qty_of r)) <$>
          filter (fun r => raw_is_open r && budget_matches b r = true) (omap (fun i => st !! i) ids)).

Definition RollingTradeBudget_evaluate (b : RollingTradeBudget) (r : raw_order F) (ctx : RiskContext)
  (st : heap F) (a : Account F D) : result PolicyResult :=
  let start := rc_timestamp ctx - tb_window b in
  trades ← account_trades a None (DTime (Some start)) (DTime (Some (rc_timestamp ctx)));
  let projected := executed_quantity b trades + pending_quantity b st (rc_open_orders ctx) + Z.abs (qty_of r) in
  Ok (if f_ltb_z (tb_maximum b) projected
      then reject "rolling_trade_budget_exceeded" "rolling absolute quantity exceeds the maximum" else accept).
End Budget.

(** ** Overrides: which one decides *)

Section OverrideFacts.
Context `{PyFloat F} `{!Numpy F} `{!DatetimeText F} `{SortedDict D}.

Definition active_at (o : TradingOverride) (t : Z) : bool :=
  (to_effective_from o <=? t) && (match to_expires_at o with None => true | Some e => t <=? e end).

Definition applicable (c : contract F) (t : Z) (strategy : option string) (o : TradingOverride) : bool :=
  active_at o t && override_matches o c strategy.

Lemma is_active_at o t : is_active (F:=F) o (Some t) = Ok (active_at o t).
Proof. unfold is_active, normalized_time. by rewrite np_datetime64_str. Qed.

Lemma key_lt_trans_neg best x p : key_lt best x = true -> key_lt best p = false -> key_lt x p = false.
Proof.
  unfold key_lt. destruct best as [l1 m1 e1 ? ? ?], x as [l2 m2 e2 ? ? ?], p as [l3 m3 e3 ? ? ?]. simpl.
  rewrite !orb_true_iff, !andb_true_iff, !orb_true_iff, !andb_true_iff, !Z.ltb_lt, !Z.eqb_eq.
  rewrite <- !not_true_iff_false, !orb_true_iff, !andb_true_iff, !orb_true_iff, !andb_true_iff, !Z.ltb_lt, !Z.eqb_eq. lia.
Qed.

Lemma key_lt_irrefl o : key_lt o o = false.
Proof. unfold key_lt. rewrite !Z.ltb_irrefl. simpl. by rewrite !andb_false_r. Qed.

Lemma max_override_spec l : forall o,
  max_override o l ∈ o :: l /\ forall x, x ∈ o :: l -> key_lt (max_override o l) x = false.
Proof.
  unfold max_override. induction l as [|y l IH] using rev_ind; intros o.
  - simpl. split; [left|]. intros x ->%list_elem_of_singleton. apply key_lt_irrefl.
  - rewrite foldl_app. cbn [foldl]. destruct (IH o) as [Hin Hmax]. set (best := foldl _ o l) in *.
    destruct (key_lt best y) eqn:Hk; split.
    + right. apply elem_of_app. right. left.
    + intros x. rewrite app_comm_cons, elem_of_app, list_elem_of_singleton.
      intros [Hx| ->]; [|apply key_lt_irrefl]. eapply key_lt_trans_neg; [exact Hk|by apply Hmax].
    + rewrite app_comm_cons. apply elem_of_app. by left.
    + intros x. rewrite app_comm_cons, elem_of_app, list_elem_of_singleton. intros [Hx| ->]; [by apply Hmax|done].
Qed.

Lemma resolve_spec book (c : contract F) t strategy :
  resolve book c t strategy =
    Ok (match filter (fun o => applicable c t strategy o = true) book with
        | [] => None | o :: l => Some (max_override o l) end).
Proof.
  unfold resolve. rewrite (foldE_ext _ (fun acc o => Ok (if applicable c t strategy o then acc ++ [o] else acc))).
  2:{ intros acc o. by rewrite is_active_at. }
  by rewrite foldE_filter.
Qed.

Lemma key_lt_severity a b : key_lt a b = false -> severity (to_mode b) <= severity (to_mode a).
Proof. unfold key_lt. destruct a, b. simpl. intros Hk. bools. lia. Qed.

(** The mode that decides is the most severe of those that apply. *)
Lemma resolve_mode book (c : contract F) t strategy res :
  resolve book c t strategy = Ok res ->
  match res with
  | None => forall o, o ∈ book -> applicable c t strategy o = false
  | Some o => o ∈ book /\ applicable c t strategy o = true /\
      forall o', o' ∈ book -> applicable c t strategy o' = true -> key_lt o o' = false
  end.
Proof.
  rewrite resolve_spec. intros [= <-]. destruct (filter _ book) as [|o l] eqn:Hf.
  - intros o Ho. apply not_true_is_false. intros Ha.
    assert (o ∈ filter (fun o => applicable c t strategy o = true) book) as Hin by (apply list_elem_of_filter; done).
    rewrite Hf in Hin. by apply elem_of_nil in Hin.
  - destruct (max_override_spec l o) as [Hin Hmax]. rewrite <- Hf in Hin. apply list_elem_of_filter in Hin as [? ?].
    split_and!; [done|done|]. intros o' Ho' Ha. apply Hmax. rewrite <- Hf. by apply list_elem_of_filter.
Qed.
End OverrideFacts.

(** The override policy follows the most severe override in force.  An order
    is refused as long as one active override that applies to it says no trade,
    however specific or recent an override that allows trading is; otherwise, as
    long as one says reduce only, it is accepted exactly when it brings the
    projected position closer to zero; otherwise it is accepted. *)
Theorem override_policy_severity `{PyFloat F} `{!Numpy F} `{!DatetimeText F} `{SortedDict D}
    (reg : registry F) book strategy (r : raw_order F) c ctx st (a : Account F D) res projected :
  r_contract r = Inst c -> projected_position reg ctx r st a = Ok projected ->
  TradingOverride_evaluate reg book strategy r ctx st a = Ok res ->
  let in_force m := exists o, o ∈ book /\ applicable c (rc_timestamp ctx) strategy o = true /\ to_mode o = m in
  (in_force NO_TRADE -> pr_accepted res = false) /\
  (~ in_force NO_TRADE -> in_force REDUCE_ONLY ->
     (pr_accepted res = true <-> Z.abs projected < Z.abs (projected - qty_of r))) /\
  (~ in_force NO_TRADE -> ~ in_force REDUCE_ONLY -> pr_accepted res = true).
Proof.
  intros Hc Hp He in_force. unfold TradingOverride_evaluate, contract_of in He. rewrite Hc in He. simpl in He.
  apply bind_Ok_inv in He as (o & Ho & He). apply resolve_mode in Ho.
  assert (forall m, in_force m -> exists o', o = Some o' /\ severity m <= severity (to_mode o')) as Hsev.
  { intros m (o' & Hin & Ha & <-). destruct o as [o|]; [|by rewrite Ho in Ha].
    exists o. split; [done|]. apply key_lt_severity. by apply Ho. }
  assert (forall o', o = Some o' -> in_force (to_mode o')) as Hin.
  { intros o' ->. destruct Ho as (? & ? & _). by exists o'. }
  split_and!.
  - intros (o' & -> & Hs)%Hsev. destruct (to_mode o'); simpl in Hs; try lia. by injection He as <-.
  - intros Hn (o' & -> & Hs)%Hsev. destruct (to_mode o') eqn:Hm; simpl in Hs; try lia.
    + rewrite Hp in He. simpl in He. injection He as <-. unfold reduces.
      destruct (Z.ltb_spec (Z.abs projected) (Z.abs (projected - qty_of r))); simpl; [done|]. split; [done|lia].
    + exfalso. apply Hn. rewrite <- Hm. by apply Hin.
  - intros Hn Hn2. destruct o as [o|]; [|by injection He as <-]. specialize (Hin o eq_refl).
    destruct (to_mode o); [by injection He as <-|done|done].
Qed.

Definition demo_overrides : list TradingOverride :=
  [mkOverride INSTRUMENT ACTIVE 5 "resume" (Some "ESH4"%string) None;
   mkOverride PORTFOLIO REDUCE_ONLY 0 "close" None (Some 100)].

Lemma override_policy_severity_witness :
  let r := demo_raw_order (F:=spec_float) (demo_contract 2 "ESH4") 7 3 RMarket in
  let ev := TradingOverride_evaluate demo_group_registry demo_overrides None r (mkContext 2 []) (demo_market_heap) float_account in
  ev = Ok (reject "reduce_only_override" "close") /\
  (pr_accepted (reject "reduce_only_override" "close") = true <-> Z.abs 3 < Z.abs (3 - 3)).
Proof.
  intros r ev. assert (ev = Ok (reject "reduce_only_override" "close")) as He by (vm_compute; reflexivity).
  split; [exact He|].
  refine (proj1 (proj2 (override_policy_severity (F:=spec_float) demo_group_registry demo_overrides None r
    (demo_contract 2 "ESH4") (mkContext 2 []) demo_market_heap float_account _ 3 eq_refl _ He)) _ _).
  - vm_compute. reflexivity.
  - intros (o & Ho & _ & Hm). unfold demo_overrides in Ho. rewrite !elem_of_cons, elem_of_nil in Ho.
    destruct Ho as [->|[->|[]]]; discriminate.
  - exists (mkOverride PORTFOLIO REDUCE_ONLY 0 "close" None (Some 100)).
    split; [right; left|split; reflexivity].
Defined.

(** ** Saved books *)

Section PersistenceFacts.
Context `{PyFloat F} `{!Numpy F} `{!DatetimeText F}.

(** An override the constructor made. *)
Definition constructed (o : TradingOverride) : Prop := exists level mode start reason key expires,
  TradingOverride_new (F:=F) level mode start reason key expires = Ok o.

Lemma override_new_idem o :
  constructed o ->
  TradingOverride_new (F:=F) (to_level o) (to_mode o) (Some (to_effective_from o)) (to_reason o) (to_key o)
    (Some <$> to_expires_at o) = Ok o.
Proof.
  intros (level & mode & start & reason & key & expires & Hn). unfold TradingOverride_new, normalized_time in *.
  rewrite !np_datetime64_str in *. simpl in *.
  assert (match expires with None => Ok None | Some e => Some <$> np_datetime64 (np_str e) end = Ok expires) as Hx.
  { destruct expires; [|done]. by rewrite np_datetime64_str. }
  rewrite Hx in Hn. simpl in Hn. destruct start as [s|]; [|done].
  destruct expires as [[e|]|]; try done; inv_ok Hn; simpl; rewrite ?np_datetime64_str; simpl;
    bools; rewrite ?(proj2 (Z.ltb_ge _ _)) by done; simpl;
    repeat match goal with E : blank _ = false |- _ => rewrite E end; simpl; by rewrite Hbind.
Qed.

Definition json_opt (k : option string) : json := match k with None => JNull | Some k => JString k end.

Lemma payload_items o item :
  override_payload (F:=F) o = JObject item ->
  jitem item "level" = Ok (JString (level_value (to_level o))) /\ jget item "key" = json_opt (to_key o) /\
  jitem item "mode" = Ok (JString (mode_value (to_mode o))) /\
  jitem item "effective_from" = Ok (JString (np_str (Some (to_effective_from o)))) /\
  jget item "expires_at" = json_opt (np_str <$> (Some <$> to_expires_at o)) /\
  jitem item "expires_at" = Ok (json_opt (np_str <$> (Some <$> to_expires_at o))) /\
  jitem item "reason" = Ok (JString (to_reason o)).
Proof. destruct o as [l m s r k [e|]]; intros [= <-]; split_and!; reflexivity. Qed.

Lemma load_payload_override o item :
  constructed o -> override_payload (F:=F) o = JObject item -> load_override (F:=F) item = Ok o.
Proof.
  intros Hc (H1 & H2 & H3 & H4 & H5 & H6 & H7)%payload_items. apply override_new_idem in Hc.
  assert (forall k, json_key (json_opt k) = Ok k) as Hk by (intros []; reflexivity).
  assert (forall l, level_of (JString (level_value l)) = Ok l) as Hl by (intros []; reflexivity).
  assert (forall m, mode_of (JString (mode_value m)) = Ok m) as Hm by (intros []; reflexivity).
  unfold load_override. rewrite H1, H2, H3, H4, H5, H6, H7. cbn [mbind result_bind].
  rewrite Hl, Hk, Hm. cbn [mbind result_bind json_time json_reason]. rewrite np_datetime64_str.
  destruct (to_expires_at o) as [e|]; cbn [json_opt fmap option_fmap option_map mbind result_bind json_time];
    [rewrite np_datetime64_str|]; exact Hc.
Qed.
Lemma load_payload_array l :
  load_payload (F:=F) (JObject [("schema_version"%string, JInt 1); ("overrides"%string, JArray l)]) =
    match mapM (fun i => match i with JObject o => Some o | _ => None end) l with
    | None => Err (ValueError "trading override entries must be objects")
    | Some items => foldE (fun acc i => o ← load_override (F:=F) i; Ok (acc ++ [o])) [] items
    end.
Proof. reflexivity. Qed.
End PersistenceFacts.

(** A saved override book loads back as the same book: [load] of the payload
    [save] writes returns exactly the overrides that were saved. *)
Theorem override_book_roundtrip `{PyFloat F} `{!Numpy F} `{!DatetimeText F} (book : list TradingOverride) :
  Forall (constructed (F:=F)) book -> load_payload (F:=F) (save_payload (F:=F) book) = Ok book.
Proof.
  intros Hall.
  assert (exists items, mapM (fun i => match i with JObject o => Some o | _ => None end) (override_payload (F:=F) <$> book) = Some items /\
    forall acc, foldE (fun acc i => o ← load_override (F:=F) i; Ok (acc ++ [o])) acc items = Ok (acc ++ book)) as (items & Hm & Hf).
  { induction Hall as [|o book Ho Hall IH]; [exists []; split; [done|]; intros acc; by rewrite app_nil_r|].
    destruct IH as (items & Hm & Hf).
    destruct (override_payload (F:=F) o) as [| | | |item] eqn:Hp'; try done. pose proof (load_payload_override _ _ Ho Hp') as Hp.
    exists (item :: items). split.
    - rewrite fmap_cons, Hp'. cbn [mapM]. rewrite Hm. done.
    - intros acc. cbn [foldE]. rewrite Hp. cbn [mbind result_bind]. rewrite Hf. by rewrite <- app_assoc. }
  unfold save_payload. rewrite load_payload_array, Hm. apply (Hf []).
Qed.

Lemma override_book_roundtrip_witness :
  load_payload (F:=spec_float) (save_payload (F:=spec_float) demo_overrides) = Ok demo_overrides.
Proof.
  apply (override_book_roundtrip (F:=spec_float) demo_overrides).
  repeat constructor; do 6 eexists.
  - instantiate (6 := INSTRUMENT). instantiate (5 := ACTIVE). instantiate (4 := Some 5).
    instantiate (3 := "resume"%string). instantiate (2 := Some "ESH4"%string). instantiate (1 := None). reflexivity.
  - instantiate (6 := PORTFOLIO). instantiate (5 := REDUCE_ONLY). instantiate (4 := Some 0).
    instantiate (3 := "close"%string). instantiate (2 := None). instantiate (1 := Some (Some 100)). reflexivity.
Defined.

(** ** Exposure limits hold together *)

Section ExposureFacts.
Context `{!Polars XQ} `{!PolarsExact}.

(** The exposure of a row, when it is a number. *)
Definition finite_rows (rows : list (limited_row XQ)) : Prop := Forall (fun r => is_Some (lr_net_exposure r)) rows.

Definition qnet (r : limited_row XQ) : Qc := default 0%Qc (lr_net_exposure r).

Definition qgross (l : ExposureLimit XQ) (rows : list (limited_row XQ)) : Qc :=
  sumQ ((fun r => qabs (qnet r)) <$> matching l rows).

(** What a limit does to a row: scale it down, on the same side. *)
Definition shrunk (r r' : limited_row XQ) : Prop :=
  lr_symbol r' = lr_symbol r /\ lr_strategy r' = lr_strategy r /\ lr_contract_group r' = lr_contract_group r /\
  lr_pre_limit r' = lr_pre_limit r /\
  exists m, (0 <= m /\ m <= 1)%Qc /\ lr_net_exposure r' = Some (qnet r * m)%Qc.

Lemma gross_exact rows l : finite_rows rows -> gross (matching l rows) = Some (qgross l rows).
Proof.
  intros Hf. unfold gross, qgross. rewrite <- pl_sum_exact. f_equal. rewrite <- list_fmap_compose.
  apply list_fmap_ext. intros i r Hr. assert (r ∈ rows) as Hin.
  { apply list_elem_of_lookup_2 in Hr. by apply list_elem_of_filter in Hr as [_ ?]. }
  unfold finite_rows in Hf. rewrite Forall_forall in Hf. destruct (Hf r Hin) as [q Hq]. unfold compose, qnet. rewrite Hq. done.
Qed.

Lemma qabs_nonneg q : (0 <= qabs q)%Qc.
Proof. destruct (qabs_cases q) as [[-> ?]|[-> Hlt]]; [done|]. to_Q. lra. Qed.

Lemma qabs_scale q m : (0 <= m)%Qc -> qabs (q * m) = (qabs q * m)%Qc.
Proof.
  intros Hm. destruct (qabs_cases q) as [[-> Hq]|[-> Hq]], (qabs_cases (q * m)) as [[-> Hqm]|[-> Hqm]]; try ring.
  - assert (q * m = 0)%Qc as Hz; [|rewrite Hz; ring]. apply Qcle_antisym; [by apply Qclt_le_weak|]. clear Hqm. to_Q. nra.
  - assert (q * m = 0)%Qc as Hz; [|rewrite Hz; transitivity (- (q * m))%Qc; [rewrite Hz; ring|ring]].
    apply Qcle_antisym; [|done]. clear Hqm. to_Q. nra.
Qed.

Lemma qgross_nonneg l rows : (0 <= qgross l rows)%Qc.
Proof.
  unfold qgross. induction (matching l rows) as [|r rs IH]; csimpl; [apply Qcle_refl|].
  pose proof (qabs_nonneg (qnet r)). to_Q. lra.
Qed.

Lemma mask_shrunk l r r' : shrunk r r' -> limit_mask l r' = limit_mask l r.
Proof. intros (Hs & Hst & Hg & _). unfold limit_mask. by rewrite Hs, Hst, Hg. Qed.

(** Scaling rows down never raises a gross exposure. *)
Lemma qgross_shrunk l rows rows' : Forall2 shrunk rows rows' -> (qgross l rows' <= qgross l rows)%Qc.
Proof.
  unfold qgross, matching. induction 1 as [|r r' rows rows' Hr Hrows IH]; [apply Qcle_refl|].
  rewrite !filter_cons, (mask_shrunk l r r' Hr). case_decide; [|done]. csimpl.
  destruct Hr as (_ & _ & _ & _ & m & [Hm0 Hm1] & Hn). unfold qnet at 1. rewrite Hn. simpl.
  rewrite qabs_scale by done. pose proof (qabs_nonneg (qnet r)) as Hq. clear -Hm0 Hm1 IH Hq.
  set (x := qabs _) in *. set (y := sumQ _) in *. set (z := sumQ _) in *. clearbody x y z. to_Q. nra.
Qed.

Lemma shrunk_finite rows rows' : Forall2 shrunk rows rows' -> finite_rows rows'.
Proof.
  induction 1 as [|r r' rows rows' Hr Hrows IH]; constructor; [|done].
  destruct Hr as (_ & _ & _ & _ & m & _ & ->). eauto.
Qed.

Lemma shrunk_trans r1 r2 r3 : shrunk r1 r2 -> shrunk r2 r3 -> shrunk r1 r3.
Proof.
  intros (A1 & A2 & A3 & A4 & m & [Hm0 Hm1] & Hn) (B1 & B2 & B3 & B4 & n & [Hn0 Hn1] & Hn').
  split_and!; try congruence. exists (m * n)%Qc. split.
  - clear -Hm0 Hm1 Hn0 Hn1. to_Q. split; nra.
  - rewrite Hn'. unfold qnet at 1. rewrite Hn. simpl. f_equal. ring.
Qed.

Lemma shrunk_all_trans rows1 rows2 rows3 : Forall2 shrunk rows1 rows2 -> Forall2 shrunk rows2 rows3 -> Forall2 shrunk rows1 rows3.
Proof.
  intros Hs. revert rows3. induction Hs as [|r1 r2 rows1 rows2 H1 H2 IH]; intros rows3 H3; inversion H3; subst; constructor.
  - by eapply shrunk_trans.
  - by apply IH.
Qed.

(** The multiplier is in the unit interval and brings the node within its limit. *)
Lemma multiplier_exact (l : ExposureLimit XQ) (mx g : Qc) :
  el_maximum l = Some mx -> (0 < mx)%Qc -> (0 <= g)%Qc ->
  exists m, limit_multiplier l (Some g) = Some m /\ (0 <= m /\ m <= 1 /\ g * m <= mx)%Qc.
Proof.
  intros Hmx Hpos Hg. unfold limit_multiplier, f_gtb, f_min, f_zero, f_one. simpl. rewrite Hmx. unfold Exact.cmp, Exact.of_Z. rewrite !zq_0.
  destruct (Exact.qltb 0 g) eqn:Hlt.
  - apply qltb_lt in Hlt. assert (g <> 0%Qc) as Hg0 by (intros ->; by apply Qclt_not_eq in Hlt).
    assert (Exact.qeqb g 0 = false) as Hq0 by (apply not_true_is_false; by rewrite qeqb_eq).
    unfold Exact.div, Exact.of_Z. rewrite Hq0. clear Hq0. fold (Qcdiv mx g).
    set (q := (mx / g)%Qc). assert (q * g = mx)%Qc as Hq by (unfold q; field; done).
    assert (0 <= q)%Qc as Hq0.
    { apply Qcnot_lt_le. intros Hn. assert (q * g < 0)%Qc as Hneg; [|rewrite Hq in Hneg; clear -Hneg Hpos; to_Q; lra].
      clear -Hn Hlt. clearbody q. to_Q. nra. }
    rewrite zq_1. destruct (Exact.qltb q 1) eqn:Hl; eexists; (split; [done|]).
    + apply qltb_lt in Hl. split_and!; [done|by apply Qclt_le_weak|]. rewrite Qcmult_comm, Hq. apply Qcle_refl.
    + split_and!; [by vm_compute|apply Qcle_refl|]. rewrite Qcmult_1_r.
      assert (1 <= q)%Qc as Hge by (apply Qcnot_lt_le; intros Hn; apply qltb_lt in Hn; congruence).
      rewrite <- Hq. clear -Hge Hlt. clearbody q. to_Q. nra.
  - eexists. split; [done|]. rewrite zq_1. split_and!; [by vm_compute|apply Qcle_refl|].
    assert (g <= 0)%Qc as Hle by (apply Qcnot_lt_le; intros Hn; apply qltb_lt in Hn; congruence).
    clear -Hle Hpos. to_Q. lra.
Qed.

(** A limit the constructor made. *)
Definition limit_ok (l : ExposureLimit XQ) : Prop :=
  exists level maximum key, ExposureLimit_new level maximum key = Ok l.

Lemma limit_ok_maximum l : limit_ok l -> exists mx, el_maximum l = Some mx /\ (0 < mx)%Qc.
Proof.
  intros (level & maximum & key & Hn). unfold ExposureLimit_new in Hn. inv_ok Hn. bools.
  destruct maximum as [mx|]; [|done]. exists mx. split; [done|].
  apply Qcnot_le_lt. rewrite <- qleb_le. unfold f_zero in *. simpl in *. rewrite zq_0 in *. congruence.
Qed.

Lemma scale_shrunk l m r :
  is_Some (lr_net_exposure r) -> (0 <= m /\ m <= 1)%Qc -> shrunk r (scale_row l (Some m) r).
Proof.
  intros [q Hq] Hm. unfold scale_row, shrunk. destruct (limit_mask l r); simpl; split_and!; try done.
  - exists m. split; [done|]. unfold qnet. by rewrite Hq.
  - exists 1%Qc. split; [split; [by vm_compute|apply Qcle_refl]|]. unfold qnet. rewrite Hq. simpl. f_equal. ring.
Qed.

Lemma qgross_scaled l m rows :
  finite_rows rows -> (0 <= m)%Qc -> qgross l (scale_row l (Some m) <$> rows) = (qgross l rows * m)%Qc.
Proof.
  intros Hf Hm. unfold qgross, matching. induction Hf as [|r rows [q Hq] Hf IH]; csimpl; [ring|].
  rewrite !filter_cons. assert (limit_mask l (scale_row l (Some m) r) = limit_mask l r) as Hmask.
  { unfold scale_row. destruct (limit_mask l r) eqn:E; [|done]. exact E. }
  rewrite Hmask. destruct (limit_mask l r) eqn:E; [rewrite !decide_True by done|rewrite !decide_False by done; exact IH].
  csimpl. rewrite IH. unfold scale_row, qnet. rewrite E, Hq. simpl. rewrite qabs_scale by done. ring.
Qed.

Lemma apply_limit_step l acc acc' :
  limit_ok l -> finite_rows acc.1 -> apply_limit acc l = Ok acc' ->
  Forall2 shrunk acc.1 acc'.1 /\ exists mx, el_maximum l = Some mx /\ (qgross l acc'.1 <= mx)%Qc.
Proof.
  intros Hl Hf Ha. destruct acc as [rows ds]. simpl in *. unfold apply_limit in Ha. inv_ok Ha.
  destruct (limit_ok_maximum l Hl) as (mx & Hmx & Hpos). rewrite (gross_exact rows l Hf).
  destruct (multiplier_exact l mx (qgross l rows) Hmx Hpos (qgross_nonneg l rows)) as (m & -> & Hm0 & Hm1 & Hle).
  split.
  - clear -Hf Hm0 Hm1. induction Hf as [|r rows Hr Hf IH]; csimpl; constructor; [by apply scale_shrunk|done].
  - exists mx. split; [done|]. by rewrite qgross_scaled.
Qed.

Lemma apply_all_limits limits : forall acc acc',
  Forall limit_ok limits -> finite_rows acc.1 -> foldE apply_limit acc limits = Ok acc' ->
  Forall2 shrunk acc.1 acc'.1 /\
  Forall (fun l => exists mx, el_maximum l = Some mx /\ (qgross l acc'.1 <= mx)%Qc) limits.
Proof.
  induction limits as [|l limits IH]; intros acc acc' Hl Hf Ha; cbn [foldE] in Ha.
  - injection Ha as <-. split; [|done]. clear -Hf. induction Hf as [|r rows [q Hq] Hf IH]; constructor; [|done].
    split_and!; try done. exists 1%Qc. split; [split; [by vm_compute|apply Qcle_refl]|].
    unfold qnet. rewrite Hq. simpl. f_equal. ring.
  - apply bind_Ok_inv in Ha as (acc1 & H1 & Ha). inversion Hl as [|? ? Hl1 Hl2]; subst.
    apply apply_limit_step in H1 as [Hs1 (mx & Hmx & Hle)]; [|done..].
    destruct (IH acc1 acc' Hl2 (shrunk_finite _ _ Hs1) Ha) as [Hs2 Hall].
    split; [by eapply shrunk_all_trans|]. constructor; [|done]. exists mx. split; [done|].
    eapply Qcle_trans; [by eapply qgross_shrunk|exact Hle].
Qed.

(** The nodes of the hierarchy: the portfolio, and the strategies, groups and
    instruments that the rows name in their columns. *)
Definition node_of (level : ControlLevel) (r : limited_row XQ) : option string :=
  match level with
  | PORTFOLIO => None
  | STRATEGY => Some (lr_strategy r)
  | GROUP => Some (lr_contract_group r)
  | INSTRUMENT => Some (lr_symbol r)
  end.

Definition node_gross (level : ControlLevel) (key : option string) (rows : list (limited_row XQ)) : Qc :=
  sumQ ((fun r => qabs (qnet r)) <$> filter (fun r => node_of level r = key) rows).

Lemma qgross_node l rows : limit_ok l -> qgross l rows = node_gross (el_level l) (el_key l) rows.
Proof.
  intros (level & maximum & key & Hn). unfold ExposureLimit_new in Hn. inv_ok Hn. unfold qgross, node_gross, matching. do 2 f_equal.
  apply list_filter_iff. intros r. unfold limit_mask, node_of. simpl.
  destruct level; simpl in *; rewrite ?bool_decide_eq_true; [|naive_solver..]. inv_ok Hbind. bools. naive_solver.
Qed.

(** A limit that its node does not exceed changes nothing. *)
Lemma multiplier_one (l : ExposureLimit XQ) (mx g : Qc) : el_maximum l = Some mx -> (g <= mx)%Qc -> limit_multiplier l (Some g) = Some 1%Qc.
Proof.
  intros Hmx Hg. unfold limit_multiplier, f_gtb, f_min, f_zero, f_one. simpl. rewrite Hmx. unfold Exact.cmp, Exact.of_Z. rewrite !zq_0, zq_1.
  destruct (Exact.qltb 0 g) eqn:Hlt; [|done]. apply qltb_lt in Hlt. assert (g <> 0%Qc) as Hg0 by (intros ->; by apply Qclt_not_eq in Hlt).
  assert (Exact.qeqb g 0 = false) as Hq0 by (apply not_true_is_false; by rewrite qeqb_eq).
  unfold Exact.div, Exact.of_Z. rewrite Hq0. fold (Qcdiv mx g). destruct (Exact.qltb (mx / g)%Qc 1) eqn:Hl; [|done]. exfalso.
  apply qltb_lt in Hl. assert ((mx / g) * g = mx)%Qc as Hq by (field; done). set (q := (mx / g)%Qc) in *. clearbody q. clear -Hl Hlt Hq Hg.
  subst mx. to_Q. nra.
Qed.

Lemma scale_one l (r : limited_row XQ) : scale_row l (Some 1%Qc) r = r.
Proof.
  unfold scale_row. destruct (limit_mask l r), r as [s st g pre [x|] [m|]]; simpl; try done; repeat f_equal; ring.
Qed.

Lemma apply_within limits : forall acc acc', Forall limit_ok limits -> finite_rows acc.1 ->
  Forall (fun l => exists mx, el_maximum l = Some mx /\ (qgross l acc.1 <= mx)%Qc) limits ->
  foldE apply_limit acc limits = Ok acc' -> acc'.1 = acc.1.
Proof.
  induction limits as [|l limits IH]; intros acc acc' Hok Hf Hl Ha; cbn [foldE] in Ha; [by injection Ha as <-|].
  apply bind_Ok_inv in Ha as (acc1 & H1 & Ha). apply Forall_cons in Hok as [Hok1 Hok2]. apply Forall_cons in Hl as [(mx & Hmx & Hle) Hl].
  assert (acc1.1 = acc.1) as Heq.
  { destruct acc as [rows ds]. simpl in *. unfold apply_limit in H1. inv_ok H1. simpl. rewrite (gross_exact rows l Hf), (multiplier_one l mx) by done.
    rewrite <- (list_fmap_id rows) at 2. apply list_fmap_ext. intros i r _. apply scale_one. }
  rewrite <- Heq. rewrite <- Heq in Hf, Hl. by eapply IH.
Qed.
End ExposureFacts.

(** C35: In exact arithmetic, after [apply] the gross exposure of every node with
    a limit - instrument, group, strategy and portfolio together, each the rows that
    name it in the column of its level - is within its limit; every row keeps its
    symbol, strategy and group and has its net exposure scaled by a factor between 0
    and 1; and when every node was within its limit, no exposure changes. *)
Theorem exposure_limits_hold `{!Polars XQ} `{!PolarsExact} limits positions res :
  Forall limit_ok limits -> apply_limits limits positions = Ok res ->
  let within rows := forall l, l ∈ limits -> exists mx, el_maximum l = Some mx /\ (node_gross (el_level l) (el_key l) rows <= mx)%Qc in
  within (er_positions res).*1 /\
  Forall2 (fun p r => ps_symbol p = Some (lr_symbol r) /\ ps_strategy p = Some (lr_strategy r) /\
                      ps_contract_group p = Some (lr_contract_group r) /\
                      exists x m, ps_net_exposure p = Some (Some x) /\ (0 <= m /\ m <= 1)%Qc /\
                        lr_net_exposure r = Some (x * m)%Qc)
    (pf_rows positions) (er_positions res).*1 /\
  (forall rows, mapM valid_row (pf_rows positions) = Some rows -> within rows -> (er_positions res).*1 = rows).
Proof.
  intros Hl Ha within. assert (forall l, l ∈ limits -> limit_ok l) as Hok by (by apply Forall_forall).
  unfold apply_limits in Ha. inv_ok Ha. destruct (mapM valid_row _) as [rows|] eqn:Hm; [|done].
  inv_ok Ha. destruct a as [rows' ds]. inv_ok Ha.
  assert (finite_rows rows) as Hf.
  { apply Forall_forall. intros r Hr. rewrite forallb_forall in Hguard1.
    specialize (Hguard1 r). rewrite <- list_elem_of_In in Hguard1. specialize (Hguard1 Hr).
    by destruct (lr_net_exposure r). }
  assert (Forall limit_ok (sorted_by limit_ordering limits)) as Hsorted by by rewrite (sorted_by_perm limit_ordering limits).
  pose proof (apply_within _ (rows, []) (rows', ds) Hsorted Hf) as Hone. cbn [fst] in Hone.
  cbn [er_positions]. rewrite <- list_fmap_compose, list_fmap_id. pose proof Hbind as Hfold.
  apply apply_all_limits in Hbind as [Hs Hall]; [|done..].
  cbn [fst] in Hs, Hall. rewrite (sorted_by_perm limit_ordering limits), Forall_forall in Hall.
  split_and!.
  - intros l Hin. rewrite <- qgross_node by by apply Hok. by apply Hall.
  - apply mapM_Some in Hm. clear -Hm Hs Hf. revert rows' Hs. induction Hm as [|p r ps rows Hp Hm IH]; intros rows' Hs;
      inversion Hs as [|? r' ? rows1 Hr Hs']; subst; constructor; [|by apply IH; [inversion Hf|]].
    destruct Hr as (H1 & H2 & H3 & _ & m & Hm1 & Hn). inversion Hf as [|? ? [x Hx] _]; subst.
    unfold valid_row in Hp. destruct (ps_symbol p), (ps_strategy p), (ps_contract_group p), (ps_net_exposure p) as [y|]; try done.
    simplify_eq/=. split_and!; try done. exists x, m. split_and!; try done; by destruct Hm1.
  - intros ? [= <-] Hin. apply Hone; [|exact Hfold]. rewrite (sorted_by_perm limit_ordering limits). apply Forall_forall.
    intros l Hl'. rewrite qgross_node by by apply Hok. by apply Hin.
Qed.

Definition demo_limits : list (ExposureLimit XQ) :=
  [mkLimit PORTFOLIO (f_of_Z 100) None; mkLimit INSTRUMENT (f_of_Z 60) (Some "ES"%string)].

Definition demo_positions : position_frame XQ :=
  PositionFrame ["symbol"; "strategy"; "contract_group"; "net_exposure"]%string
    [PositionRow (Some "ES") (Some "main") (Some "INDEX") (Some (f_of_Z 90));
     PositionRow (Some "CL") (Some "main") (Some "ENERGY") (Some (f_of_Z (-80)))]%string.

Lemma exposure_limits_hold_witness :
  exists res, apply_limits demo_limits demo_positions = Ok res /\
    exists mx, Some mx = Some (zq 100) /\ (node_gross PORTFOLIO None (er_positions res).*1 <= mx)%Qc.
Proof.
  assert (exists res, apply_limits demo_limits demo_positions = Ok res) as [res Hres] by (eexists; vm_compute; reflexivity).
  exists res. split; [exact Hres|].
  destruct (exposure_limits_hold demo_limits demo_positions res) as [Hall _].
  - repeat constructor; [exists PORTFOLIO, (f_of_Z 100), None|exists INSTRUMENT, (f_of_Z 60), (Some "ES"%string)]; vm_compute; reflexivity.
  - exact Hres.
  - destruct (Hall (mkLimit PORTFOLIO (f_of_Z 100) None) ltac:(left)) as (mx & Hmx & Hle).
    exists mx. split; [symmetry; exact Hmx|exact Hle].
Defined.

(** ** The trade budget over time *)

Section BudgetFacts.
Context `{PyFloat F} `{!Numpy F} `{SortedDict D}.
Implicit Types (st : heap F) (r : raw_order F).
Context (b : RollingTradeBudget (F:=F)).

(** The clock, the recorded trades, the live orders and the pending ones. *)
Record budget_state := mkBudgetState {
  bu_now : Z;
  bu_trades : list (trade F);
  bu_heap : heap F;
  bu_open : list positive;
}.

(** What can happen: time passes; a pending order in scope is filled, in part or
    whole, and its trade recorded; a trade out of scope is recorded; any object
    is cancelled; closed orders are dropped; an order out of scope changes; an
    order is admitted by the budget of an account with these trades. *)
Inductive budget_step : budget_state -> budget_state -> Prop :=
  | bs_tick s now : bu_now s <= now -> budget_step s (mkBudgetState now (bu_trades s) (bu_heap s) (bu_open s))
  | bs_fill s oid r v r' t :
      oid ∈ bu_open s -> bu_heap s !! oid = Some r -> budget_matches b r = true -> raw_is_open r = true ->
      raw_fill r v = Ok r' -> t_timestamp t = bu_now s -> t_qty t = qty_of r - qty_of r' ->
      r_contract (t_order t) = r_contract r ->
      budget_step s (mkBudgetState (bu_now s) (bu_trades s ++ [t]) (<[oid := r']> (bu_heap s)) (bu_open s))
  | bs_other_trade s t :
      budget_matches b (t_order t) = false -> t_timestamp t = bu_now s ->
      budget_step s (mkBudgetState (bu_now s) (bu_trades s ++ [t]) (bu_heap s) (bu_open s))
  | bs_cancel s oid r :
      bu_heap s !! oid = Some r ->
      budget_step s (mkBudgetState (bu_now s) (bu_trades s) (<[oid := raw_cancel r]> (bu_heap s)) (bu_open s))
  | bs_drop s : budget_step s (mkBudgetState (bu_now s) (bu_trades s) (bu_heap s)
      (filter (fun i => match bu_heap s !! i with Some r => raw_is_open r | None => false end = true) (bu_open s)))
  | bs_other s oid r :
      budget_matches b r = false ->
      budget_step s (mkBudgetState (bu_now s) (bu_trades s) (<[oid := r]> (bu_heap s)) (bu_open s))
  | bs_admit s oid r (a : Account F D) :
      oid ∉ bu_open s -> bu_heap s !! oid = Some r -> ac_trades a = bu_trades s ->
      RollingTradeBudget_evaluate b r (mkContext (bu_now s) (bu_open s)) (bu_heap s) a = Ok accept ->
      budget_step s (mkBudgetState (bu_now s) (bu_trades s) (bu_heap s) (bu_open s ++ [oid])).

(** The quantity executed in the window that ends at [now]. *)
Definition in_window (now : Z) (t : trade F) : bool :=
  (now - tb_window b <=? t_timestamp t) && (t_timestamp t <=? now).

Definition executed_in_window (s : budget_state) : Z :=
  executed_quantity b (filter (fun t => in_window (bu_now s) t = true) (bu_trades s)).

Definition reserved (s : budget_state) : Z := pending_total (budget_matches b) Z.abs (bu_heap s) (bu_open s).

Definition within_budget (s : budget_state) : Prop :=
  0 <= tb_window b /\ NoDup (bu_open s) /\ Forall (fun t => t_timestamp t <= bu_now s) (bu_trades s) /\
  f_ltb_z (tb_maximum b) (executed_in_window s + reserved s) = false.

Lemma f_ltb_z_mono (x : F) i j : i <= j -> f_ltb_z x j = false -> f_ltb_z x i = false.
Proof.
  unfold f_ltb_z. intros Hij. destruct (f_isnan x) eqn:E; [done|]. simpl. rewrite !negb_false_iff. by apply z_leb_f_mono.
Qed.

Lemma executed_app l1 l2 : executed_quantity b (l1 ++ l2) = executed_quantity b l1 + executed_quantity b l2.
Proof. unfold executed_quantity. by rewrite filter_app, fmap_app, sumZ_app. Qed.

Lemma executed_nonneg l : 0 <= executed_quantity b l.
Proof.
  unfold executed_quantity. induction (filter _ l) as [|t ts IH]; csimpl; rewrite ?sumZ_nil, ?sumZ_cons; lia.
Qed.

Lemma contrib_abs_nonneg st oid : 0 <= contrib (budget_matches b) Z.abs st oid.
Proof. unfold contrib. destruct (st !! oid); [|lia]. destruct (_ && _); lia. Qed.

(** Later windows hold less of what was executed before. *)
Lemma executed_window_shrinks now now' l :
  now <= now' -> Forall (fun t => t_timestamp t <= now) l ->
  executed_quantity b (filter (fun t => in_window now' t = true) l) <=
  executed_quantity b (filter (fun t => in_window now t = true) l).
Proof.
  intros Hn Hl. induction Hl as [|t l Ht Hl IH]; [done|]. rewrite !filter_cons_bool, !executed_app.
  pose proof (executed_nonneg [t]). destruct (in_window now' t) eqn:E', (in_window now t) eqn:E; try lia.
  - unfold in_window in *. rewrite andb_true_iff, !Z.leb_le in E'. rewrite andb_false_iff, !Z.leb_gt in E. lia.
  - change (executed_quantity b []) with 0. lia.
Qed.

Lemma budget_mono s s' :
  within_budget s -> NoDup (bu_open s') -> Forall (fun t => t_timestamp t <= bu_now s') (bu_trades s') ->
  executed_in_window s' + reserved s' <= executed_in_window s + reserved s -> within_budget s'.
Proof. intros (H1 & H2 & H3 & H4) ???. split_and!; try done. by eapply f_ltb_z_mono. Qed.

Lemma budget_matches_contract r1 r2 : r_contract r1 = r_contract r2 -> budget_matches b r1 = budget_matches b r2.
Proof. unfold budget_matches. by intros ->. Qed.

(** Recording a trade of this instant. *)
Lemma executed_snoc s t h :
  0 <= tb_window b -> t_timestamp t = bu_now s ->
  executed_in_window (mkBudgetState (bu_now s) (bu_trades s ++ [t]) h (bu_open s)) =
    executed_in_window s + (if budget_matches b (t_order t) then Z.abs (t_qty t) else 0).
Proof.
  intros Hw Ht. unfold executed_in_window. simpl. rewrite filter_app, executed_app. f_equal.
  rewrite filter_cons_True by (unfold in_window; rewrite andb_true_iff, !Z.leb_le; lia).
  unfold executed_quantity. rewrite filter_nil, filter_cons, filter_nil. destruct (budget_matches b (t_order t)) eqn:E.
  - rewrite decide_True by done. csimpl. by rewrite sumZ_cons, sumZ_nil, Z.add_0_r.
  - rewrite decide_False by done. done.
Qed.

Lemma budget_admit s oid r (a : Account F D) :
  within_budget s -> oid ∉ bu_open s -> bu_heap s !! oid = Some r -> ac_trades a = bu_trades s ->
  RollingTradeBudget_evaluate b r (mkContext (bu_now s) (bu_open s)) (bu_heap s) a = Ok accept ->
  within_budget (mkBudgetState (bu_now s) (bu_trades s) (bu_heap s) (bu_open s ++ [oid])).
Proof.
  intros Hw Hn Hr Ha Hev. pose proof Hw as (H1 & H2 & H3 & H4).
  assert (NoDup (bu_open s ++ [oid])) as Hnd.
  { apply NoDup_app. split_and!; [done|set_solver|apply NoDup_singleton]. }
  split_and!; [done|done|done|]. unfold reserved. simpl. rewrite pending_snoc.
  unfold RollingTradeBudget_evaluate, account_trades, validate_date_range in Hev. simpl in Hev.
  destruct (Z.ltb_spec (bu_now s) (bu_now s - tb_window b)); [lia|]. simpl in Hev. rewrite Ha in Hev.
  destruct (f_ltb_z _ _) eqn:Hlim in Hev; [done|]. clear Hev. eapply f_ltb_z_mono; [|exact Hlim].
  unfold pending_quantity. rewrite (pending_sum (budget_matches b) Z.abs).
  assert (contrib (budget_matches b) Z.abs (bu_heap s) oid <= Z.abs (qty_of r)) as Hc.
  { unfold contrib. rewrite Hr. destruct (_ && _); lia. }
  assert (executed_in_window (mkBudgetState (bu_now s) (bu_trades s) (bu_heap s) (bu_open s ++ [oid])) =
    executed_quantity b (filter (fun t => in_range (Some (bu_now s - tb_window b)) (Some (bu_now s)) (t_timestamp t) && true)
                           (bu_trades s))) as ->.
  { unfold executed_in_window. f_equal. apply filter_ext_in. intros t _. by rewrite andb_true_r, Is_true_true. }
  lia.
Qed.

Lemma budget_step_within s s' : budget_step s s' -> within_budget s -> within_budget s'.
Proof.
  intros Hs Hw. pose proof Hw as (H1 & H2 & H3 & H4).
  destruct Hs as [s now Hn|s oid r v r' t Hin Hr Hm Hop Hf Ht Hq Hc|s t Hm Ht|s oid r Hr|s|s oid r Hm|s oid r a Hn Hr Ha Hev].
  - apply (budget_mono s); [done|done|eapply Forall_impl; [exact H3|intros ? ?; simpl in *; lia]|].
    apply Z.add_le_mono_r. by apply executed_window_shrinks.
  - destruct (contrib_fill _ Z.abs _ _ _ _ _ budget_matches_contract Hr Hm Hop Hf) as (q & Hq' & Hb & Hc0 & Hc1).
    apply (budget_mono s); [done|done|apply Forall_app; split; [done|apply Forall_singleton; simpl; lia]|].
    rewrite executed_snoc, (budget_matches_contract (t_order t) r Hc), Hm, Hq by done.
    unfold reserved. cbn [bu_heap bu_open]. rewrite pending_insert, decide_True, Hc0, Hc1 by done.
    destruct (Z.eqb_spec (qty_of r - q) 0); lia.
  - apply (budget_mono s); [done|done|apply Forall_app; split; [done|apply Forall_singleton; simpl; lia]|].
    rewrite executed_snoc, Hm by done. unfold reserved. simpl. lia.
  - apply (budget_mono s); [done..|]. apply Z.add_le_mono_l. unfold reserved. cbn [bu_heap bu_open].
    rewrite pending_insert by done. case_decide; [|lia].
    pose proof (contrib_abs_nonneg (bu_heap s) oid).
    destruct (contrib_cancel (budget_matches b) Z.abs _ _ _ Hr) as [-> | ->]; lia.
  - apply (budget_mono s); [done|by apply NoDup_filter|done|]. apply Z.add_le_mono_l. unfold reserved. simpl.
    by rewrite pending_drop.
  - apply (budget_mono s); [done..|]. apply Z.add_le_mono_l. unfold reserved. cbn [bu_heap bu_open].
    rewrite pending_insert by done. case_decide; [|lia].
    pose proof (contrib_abs_nonneg (bu_heap s) oid). rewrite contrib_unselected by done. lia.
  - by eapply budget_admit.
Qed.
End BudgetFacts.

(** If every order that becomes pending was admitted by the budget, then
    however time passes and orders are filled, cancelled or dropped, the quantity
    executed in scope over the trailing window, together with what pending orders
    in scope could still execute, stays within the budget. *)
Theorem trade_budget_respected `{PyFloat F} `{!Numpy F} `{SortedDict D} (b : RollingTradeBudget (F:=F)) s :
  0 <= tb_window b -> f_ltb_z (tb_maximum b) 0 = false ->
  (exists now st, rtc (budget_step (D:=D) b) (mkBudgetState now [] st []) s) ->
  f_ltb_z (tb_maximum b) (executed_in_window b s) = false /\
  f_ltb_z (tb_maximum b) (executed_in_window b s + reserved b s) = false.
Proof.
  intros Hw Hmax (now & st & Hr).
  assert (within_budget b s) as (_ & _ & _ & Hb).
  { assert (within_budget b (mkBudgetState now [] st [])) as Hi by (split_and!; [done|apply NoDup_nil_2|constructor|done]).
    induction Hr as [|s1 s2 s3 Hs Hr IH]; [done|]. apply IH. by eapply budget_step_within. }
  split; [|done]. eapply f_ltb_z_mono; [|exact Hb].
  unfold reserved, pending_total. induction (bu_open s) as [|i ids IH]; csimpl; rewrite ?sumZ_nil, ?sumZ_cons; [lia|].
  pose proof (contrib_abs_nonneg b (bu_heap s) i). lia.
Qed.

Lemma trade_budget_respected_witness :
  let b := mkBudget (f_of_Z 5 : spec_float) 10 INSTRUMENT (Some "ESH4"%string) None in
  let r := demo_raw_order (demo_contract 2 "ESH4") 7 3 RMarket in
  let r' := with_status (with_qty r (PInt 1)) PARTIALLY_FILLED in
  let t := Trade (demo_contract 2 "ESH4") r 2 2 (f_of_Z 100) (f_of_Z 0) (f_of_Z 0) [] in
  let s := mkBudgetState 2 [t] (<[6%positive := r']> demo_market_heap) [6%positive] in
  executed_in_window b s = 2 /\ reserved b s = 1 /\ f_ltb_z (tb_maximum b) (executed_in_window b s + reserved b s) = false.
Proof.
  intros b r r' t s. split; [vm_compute; reflexivity|]. split; [vm_compute; reflexivity|].
  refine (proj2 (trade_budget_respected (D:=sorted_items) b s _ _ _)); [vm_compute; discriminate|vm_compute; reflexivity|].
  exists 2, demo_market_heap. eapply rtc_l.
  - eapply (bs_admit _ (mkBudgetState 2 [] demo_market_heap []) 6 r float_account).
    + intros Hin. apply elem_of_nil in Hin. exact Hin.
    + reflexivity.
    + reflexivity.
    + vm_compute. reflexivity.
  - eapply rtc_l; [|apply rtc_refl].
    apply (bs_fill _ (mkBudgetState 2 [] demo_market_heap [6%positive]) 6 r (PInt 2) r' t); try reflexivity; try (vm_compute; reflexivity).
    left.
Defined.

(** The budget counts every proposal, in scope or not: a budget for one
    instrument refuses a large order in another that has never traded. *)
Lemma rolling_budget_counts_out_of_scope :
  let b := mkBudget (f_of_Z 5 : spec_float) 10 INSTRUMENT (Some "ESM4"%string) None in
  let r := demo_raw_order (demo_contract 2 "ESH4") 7 6 RMarket in
  budget_matches b r = false /\
  RollingTradeBudget_evaluate b r (mkContext 2 []) ∅ float_account =
    Ok (reject "rolling_trade_budget_exceeded" "rolling absolute quantity exceeds the maximum").
Proof. split; vm_compute; reflexivity. Qed.
