(* ===== verification/Strategy.v ===== *)
(** * Strategy registration, stages and the rule schedule: [strategy.py]

    Callbacks are functions over the world and what the engine lets them reach.
    [Strategy] holds what registration establishes; the values of indicators and
    signals and the schedule of rules are state of the run (see [Engine]). *)

From stdpp Require Import pretty.
From S2P Require Import Roundtrip Prelude Numeric Vendor Boundaries Instruments Contracts Orders Fifo.
From S2P Require Import ContractPnl Account Callbacks Sparse Stages Risk.

Open Scope Z_scope.

Section Strategy.
Context `{PyFloat F} `{!Numpy F} `{SortedDict D} {W : Type}.

(** The values of one stage, and a [SimpleNamespace] of them. *)
Definition values : Type := list (pyval F).
Definition namespace : Type := list (string * values).

(** One namespace per contract group name. *)
Definition stage_values : Type := list (string * namespace).

(** A callback's return value has been through [series_to_array]. *)
Definition indicator_fn : Type := group -> list Z -> namespace -> ST W (arg (stage_array F)).
Definition signal_fn : Type := group -> list Z -> namespace -> namespace -> ST W (arg (stage_array F)).
Definition rule_fn : Type :=
  group -> nat -> list Z -> namespace -> values -> list positive -> ST (world F D W) (arg (list (arg positive))).
Definition sim_fn : Type :=
  list positive -> nat -> list Z -> stage_values -> stage_values -> ST (W * heap F) (arg (list (arg (raw_trade F)))).

Record Strategy := mkStrategy {
  s_timestamps : list Z;
  s_contract_groups : list group;
  s_trade_lag : Z;
  s_run_final_calc : bool;
  s_indicators : list (string * indicator_fn);
  s_indicator_functions : list ((string * positive) * indicator_fn);
  s_indicator_deps : list (string * list string);
  s_indicator_cgroups : list (string * list group);
  s_signals : list (string * signal_fn);
  s_signal_functions : list ((string * positive) * signal_fn);
  s_signal_indicator_deps : list (string * list string);
  s_signal_deps : list (string * list string);
  s_signal_cgroups : list (string * list group);
  s_rule_names : list string;
  s_rules : list (string * rule_fn);
  s_rule_signals : list (string * (string * list (pyval F)));
  s_position_filters : list (string * option string);
  s_market_sims : list sim_fn;
  s_risk_policies : list (policy F D W);
}.

(** [Strategy.__init__], once the account and its grid have been checked. *)
Definition Strategy_init (timestamps : list Z) (groups : list group) (trade_lag : Z) (run_final_calc : bool)
  : result Strategy :=
  unless 0 <=? trade_lag raise PQException "trade_lag cannot be negative" ;;
  Ok (mkStrategy timestamps groups trade_lag run_final_calc [] [] [] [] [] [] [] [] [] [] [] [] [] [] []).

Definition set_functions {A} (d : list ((string * positive) * A)) (name : string) (groups : list group) (f : A) :=
  foldl (fun d g => dict_set d (name, cg_oid g) f) d groups.

Definition setdefault {A} (d : list (string * A)) (k : string) (v : A) : list (string * A) :=
  if dict_mem d k then d else dict_set d k v.

(** The checks shared by the registration of a stage: the groups are new to the
    stage, and its dependencies are those of the earlier registrations. *)
Definition new_groups (cgroups : list (string * list group)) (name : string) (groups : list group) : result (list group) :=
  let existing := default [] (dict_get cgroups name) in
  whenever existsb (fun g => existsb (is_group g) existing) groups
    raise ValueError "already registered for one or more contract groups" ;;
  Ok (existing ++ groups).

Definition same_dependencies (deps : list (string * list string)) (name : string) (new : list string) : result unit :=
  match dict_get deps name with
  | Some old => unless bool_decide (old = new) raise ValueError "registrations must declare identical dependencies" ;; Ok tt
  | None => Ok tt
  end.

(** [add_indicator] *)
Definition add_indicator (s : Strategy) (name : string) (indicator : arg indicator_fn)
  (contract_groups : option (arg (list (arg group)))) (depends_on : option (list string)) : result Strategy :=
  match indicator with
  | NotInst => Err (TypeError "indicator must be callable")
  | Inst f =>
      groups ← validated_stage_groups contract_groups (s_contract_groups s);
      let dependencies := default [] depends_on in
      all_groups ← new_groups (s_indicator_cgroups s) name groups;
      _ ← same_dependencies (s_indicator_deps s) name dependencies;
      Ok (mkStrategy (s_timestamps s) (s_contract_groups s) (s_trade_lag s) (s_run_final_calc s)
            (setdefault (s_indicators s) name f) (set_functions (s_indicator_functions s) name groups f)
            (dict_set (s_indicator_deps s) name dependencies) (dict_set (s_indicator_cgroups s) name all_groups)
            (s_signals s) (s_signal_functions s) (s_signal_indicator_deps s) (s_signal_deps s) (s_signal_cgroups s)
            (s_rule_names s) (s_rules s) (s_rule_signals s) (s_position_filters s) (s_market_sims s) (s_risk_policies s))
  end.

(** [add_signal] *)
Definition add_signal (s : Strategy) (name : string) (signal : arg signal_fn)
  (contract_groups : option (arg (list (arg group)))) (depends_on_indicators depends_on_signals : option (list string))
  : result Strategy :=
  match signal with
  | NotInst => Err (TypeError "signal must be callable")
  | Inst f =>
      groups ← validated_stage_groups contract_groups (s_contract_groups s);
      let indicator_dependencies := default [] depends_on_indicators in
      let signal_dependencies := default [] depends_on_signals in
      all_groups ← new_groups (s_signal_cgroups s) name groups;
      _ ← same_dependencies (s_signal_indicator_deps s) name indicator_dependencies;
      _ ← same_dependencies (s_signal_deps s) name signal_dependencies;
      Ok (mkStrategy (s_timestamps s) (s_contract_groups s) (s_trade_lag s) (s_run_final_calc s)
            (s_indicators s) (s_indicator_functions s) (s_indicator_deps s) (s_indicator_cgroups s)
            (setdefault (s_signals s) name f) (set_functions (s_signal_functions s) name groups f)
            (dict_set (s_signal_indicator_deps s) name indicator_dependencies)
            (dict_set (s_signal_deps s) name signal_dependencies) (dict_set (s_signal_cgroups s) name all_groups)
            (s_rule_names s) (s_rules s) (s_rule_signals s) (s_position_filters s) (s_market_sims s) (s_risk_policies s))
  end.

(** [add_rule]; [sig_true_values] defaults to [(True,)]. *)
Definition add_rule (s : Strategy) (name : arg string) (rule : arg rule_fn) (signal_name : arg string)
  (sig_true_values : option (list (pyval F))) (position_filter : option string) : result Strategy :=
  match name with
  | NotInst => Err (ValueError "rule name must be a non-empty string")
  | Inst name =>
      whenever String.eqb name "" raise ValueError "rule name must be a non-empty string" ;;
      whenever bool_decide (name ∈ s_rule_names s) raise ValueError "rule is already registered" ;;
      match rule with
      | NotInst => Err (TypeError "rule must be callable")
      | Inst f =>
          match signal_name with
          | NotInst => Err (ValueError "rule signal_name must be a non-empty string")
          | Inst sig =>
              whenever String.eqb sig "" raise ValueError "rule signal_name must be a non-empty string" ;;
              unless bool_decide (position_filter ∈
                       [None; Some ""; Some "zero"; Some "nonzero"; Some "positive"; Some "negative"]%string)
                raise ValueError "invalid rule position_filter" ;;
              let trigger_values := default [PBool true] sig_true_values in
              let normalized := if bool_decide (position_filter = Some ""%string) then None else position_filter in
              Ok (mkStrategy (s_timestamps s) (s_contract_groups s) (s_trade_lag s) (s_run_final_calc s)
                    (s_indicators s) (s_indicator_functions s) (s_indicator_deps s) (s_indicator_cgroups s)
                    (s_signals s) (s_signal_functions s) (s_signal_indicator_deps s) (s_signal_deps s) (s_signal_cgroups s)
                    (s_rule_names s ++ [name]) (dict_set (s_rules s) name f)
                    (dict_set (s_rule_signals s) name (sig, trigger_values))
                    (dict_set (s_position_filters s) name normalized) (s_market_sims s) (s_risk_policies s))
          end
      end
  end.

(** [add_market_sim] and [add_risk_policy]; [running] is [self._running]. *)
Definition add_market_sim (s : Strategy) (running : bool) (sim : arg sim_fn) : result Strategy :=
  whenever running raise RuntimeError "cannot register market simulators during a run" ;;
  match sim with
  | NotInst => Err (TypeError "market simulator must be callable")
  | Inst f =>
      Ok (mkStrategy (s_timestamps s) (s_contract_groups s) (s_trade_lag s) (s_run_final_calc s)
            (s_indicators s) (s_indicator_functions s) (s_indicator_deps s) (s_indicator_cgroups s)
            (s_signals s) (s_signal_functions s) (s_signal_indicator_deps s) (s_signal_deps s) (s_signal_cgroups s)
            (s_rule_names s) (s_rules s) (s_rule_signals s) (s_position_filters s) (s_market_sims s ++ [f])
            (s_risk_policies s))
  end.

Definition add_risk_policy (s : Strategy) (running : bool) (p : arg (policy F D W)) : result Strategy :=
  whenever running raise RuntimeError "cannot register risk policies during a run" ;;
  match p with
  | NotInst => Err (TypeError "risk policy must expose a callable evaluate method")
  | Inst p =>
      whenever String.eqb (po_name p) "" raise TypeError "risk policy must expose a non-empty string name" ;;
      Ok (mkStrategy (s_timestamps s) (s_contract_groups s) (s_trade_lag s) (s_run_final_calc s)
            (s_indicators s) (s_indicator_functions s) (s_indicator_deps s) (s_indicator_cgroups s)
            (s_signals s) (s_signal_functions s) (s_signal_indicator_deps s) (s_signal_deps s) (s_signal_cgroups s)
            (s_rule_names s) (s_rules s) (s_rule_signals s) (s_position_filters s) (s_market_sims s)
            (s_risk_policies s ++ [p]))
  end.

(** ** The stage graph *)

Definition prefixed (p : string) (l : list string) : list string := (fun n => (p +:+ n)%string) <$> l.

Definition deps_of (d : list (string * list string)) (name : string) : list string := default [] (dict_get d name).

Definition rule_signal (s : Strategy) (name : string) : string :=
  match dict_get (s_rule_signals s) name with Some (sig, _) => sig | None => ""%string end.

(** [stage_graph] *)
Definition stage_nodes (s : Strategy) : list StageNode :=
  let indicators := (fun name => mkNode ("indicator:" +:+ name) "indicator"
                                   (prefixed "indicator:" (deps_of (s_indicator_deps s) name))) <$> dict_keys (s_indicators s) in
  let signals := (fun name => mkNode ("signal:" +:+ name) "signal"
                                (prefixed "indicator:" (deps_of (s_signal_indicator_deps s) name) ++
                                 prefixed "signal:" (deps_of (s_signal_deps s) name))) <$> dict_keys (s_signals s) in
  let rules := (fun name => mkNode ("rule:" +:+ name) "rule" ["signal:" +:+ rule_signal s name]) <$> s_rule_names s in
  let rule_dependencies := prefixed "rule:" (s_rule_names s) in
  let executions := (fun i => mkNode ("execution:" +:+ pretty i) "execution" rule_dependencies) <$>
                      seq 0 (length (s_market_sims s)) in
  let accounting_dependencies :=
    match executions with [] => rule_dependencies | _ => sn_name <$> executions end in
  indicators ++ signals ++ rules ++ executions ++ [mkNode "accounting:main" "accounting" accounting_dependencies].

Definition stage_graph (s : Strategy) : result StageGraph := StageGraph_init (stage_nodes s).

(** [validate_stage_graph] *)
Definition validate_stage_graph (s : Strategy) : result (list string) :=
  g ← stage_graph s;
  order ← topological_order g;
  _ ← validate_dependency_scopes (s_indicator_cgroups s) (s_indicator_deps s) (s_signal_cgroups s)
        (s_signal_indicator_deps s) (s_signal_deps s);
  Ok order.

(** ** Running indicators and signals *)

(** [getattr(namespace, name)] *)
Definition get_attr (ns : namespace) (name : string) : result values :=
  match dict_get ns name with Some v => Ok v | None => Err (AttributeError name) end.

Definition ns_of (sv : stage_values) (g : group) : namespace := default [] (dict_get sv (cg_name g)).

(** [values[g.name]] of a [defaultdict]. *)
Definition touch_ns (sv : stage_values) (g : group) : stage_values := dict_set sv (cg_name g) (ns_of sv g).

Definition set_stage (sv : stage_values) (g : group) (name : string) (v : values) : stage_values :=
  dict_set sv (cg_name g) (dict_set (ns_of sv g) name v).

(** The namespace of the parents' values. *)
Definition collect (ns : namespace) (names : list string) : result namespace :=
  foldE (fun acc p => v ← get_attr ns p; Ok (dict_set acc p v)) [] names.

(** The result of a stage callback, checked; its exceptions are wrapped. *)
Definition checked_stage (n : nat) (message : string) (r : W * result (arg (stage_array F))) : W * result values :=
  let '(w, r) := r in
  (w, match r ≫= (fun v => validate_stage_values v n) with
      | Ok v => Ok v
      | Err e => Err (if is_Exception e then BacktestCallbackError message e else e)
      end).

(** The names that concern one of the groups. *)
Definition relevant_names (cgroups : list (string * list group)) (groups : list group) (names : list string) : list string :=
  filter (fun n => existsb (fun g => existsb (is_group g) (default [] (dict_get cgroups n))) groups = true) names.

(** One indicator of one group, once its parents have run. *)
Definition run_indicator (s : Strategy) (g : group) (name : string) : ST (W * stage_values) unit := fun '(w, iv) =>
  if dict_mem (ns_of iv g) name then ((w, iv), Ok tt)
  else match dict_get (s_indicator_functions s) (name, cg_oid g) with
       | None => ((w, iv), Err (KeyError name))
       | Some f =>
           match collect (ns_of iv g) (deps_of (s_indicator_deps s) name) with
           | Err e => ((w, iv), Err e)
           | Ok parents =>
               match checked_stage (length (s_timestamps s)) "indicator callback failed" (f g (s_timestamps s) parents w) with
               | (w, Err e) => ((w, iv), Err e)
               | (w, Ok v) => ((w, set_stage iv g name v), Ok tt)
               end
           end
       end.

(** [run_indicators]; the fuel bounds the recursion over dependencies. *)
Fixpoint run_indicators (s : Strategy) (fuel : nat) (indicator_names : option (arg (list (arg string))))
  (contract_groups : option (arg (list (arg group)))) (clear_all : bool) : ST (W * stage_values) unit := fun '(w, iv) =>
  match fuel with
  | O => ((w, iv), Err OutOfFuel)
  | S fuel =>
      match validated_stage_names indicator_names (dict_keys (s_indicators s)) with
      | Err e => ((w, iv), Err e)
      | Ok names =>
      match validated_stage_groups contract_groups (s_contract_groups s) with
      | Err e => ((w, iv), Err e)
      | Ok groups =>
          let iv := if clear_all then [] else iv in
          st_iter (fun g '(w, iv) =>
            st_iter (fun name s0 =>
              match st_iter (fun parent '(w, iv) =>
                      if dict_mem (ns_of iv g) parent then ((w, iv), Ok tt)
                      else run_indicators s fuel (Some (Inst [Inst parent])) (Some (Inst [Inst g])) false (w, iv))
                    (deps_of (s_indicator_deps s) name) s0 with
              | (s1, Err e) => (s1, Err e)
              | (s1, Ok _) => run_indicator s g name s1
              end) (relevant_names (s_indicator_cgroups s) groups names) (w, touch_ns iv g)) groups (w, iv)
      end end
  end.

(** One signal of one group. *)
Definition run_signal (s : Strategy) (iv : stage_values) (g : group) (name : string) : ST (W * stage_values) unit :=
  fun '(w, sv) =>
  if dict_mem (ns_of sv g) name then ((w, sv), Ok tt)
  else match dict_get (s_signal_functions s) (name, cg_oid g) with
       | None => ((w, sv), Err (KeyError name))
       | Some f =>
           match parents ← collect (ns_of sv g) (deps_of (s_signal_deps s) name);
                 indicators ← collect (ns_of iv g) (deps_of (s_signal_indicator_deps s) name);
                 Ok (parents, indicators) with
           | Err e => ((w, sv), Err e)
           | Ok (parents, indicators) =>
               match checked_stage (length (s_timestamps s)) "signal callback failed"
                       (f g (s_timestamps s) indicators parents w) with
               | (w, Err e) => ((w, sv), Err e)
               | (w, Ok v) => ((w, set_stage sv g name v), Ok tt)
               end
           end
       end.

(** [run_signals] *)
Fixpoint run_signals (s : Strategy) (iv : stage_values) (fuel : nat) (signal_names : option (arg (list (arg string))))
  (contract_groups : option (arg (list (arg group)))) (clear_all : bool) : ST (W * stage_values) unit := fun '(w, sv) =>
  match fuel with
  | O => ((w, sv), Err OutOfFuel)
  | S fuel =>
      match validated_stage_names signal_names (dict_keys (s_signals s)) with
      | Err e => ((w, sv), Err e)
      | Ok names =>
      match validated_stage_groups contract_groups (s_contract_groups s) with
      | Err e => ((w, sv), Err e)
      | Ok groups =>
          let sv := if clear_all then [] else sv in
          st_iter (fun g s0 =>
            st_iter (fun name s0 =>
              if bool_decide (cg_name g ∈ (cg_name <$> default [] (dict_get (s_signal_cgroups s) name))) then
                match st_iter (fun parent '(w, sv) =>
                        if dict_mem (ns_of sv g) parent then ((w, sv), Ok tt)
                        else run_signals s iv fuel (Some (Inst [Inst parent])) (Some (Inst [Inst g])) false (w, sv))
                      (deps_of (s_signal_deps s) name) s0 with
                | (s1, Err e) => (s1, Err e)
                | (s1, Ok _) => run_signal s iv g name s1
                end
              else (s0, Ok tt)) (relevant_names (s_signal_cgroups s) groups names) s0) groups (w, sv)
      end end
  end.
End Strategy.

Arguments Strategy F D W : clear implicits.
Arguments values F : clear implicits.
Arguments namespace F : clear implicits.
Arguments stage_values F : clear implicits.
Arguments rule_fn F D W : clear implicits.
Arguments sim_fn F W : clear implicits.
