(* ===== verification/StageRuns.v ===== *)
(** * Running indicators and signals: dependency order, completeness, fuel

    [run_indicators] and [run_signals] recurse over dependencies, and skip what
    already has a value.  Under a stage graph that [validate_stage_graph]
    accepts, the length of the topological order bounds the recursion; what is
    computed is explained by the values of the dependencies. *)

From S2P Require Import Roundtrip Prelude Numeric Vendor Boundaries Instruments Contracts Orders Fifo ContractPnl.
From S2P Require Import Account Callbacks Sparse Stages Risk Strategy.
From Stdlib Require Import SpecFloat.

Open Scope Z_scope.

(** ** Loops *)

Section Loops.
Context {S A : Type}.
Implicit Types (body : A -> ST S unit).

(** Loops that stay within their fuel. *)
Definition in_fuel {B} (m : ST S B) : Prop := forall x, (m x).2 <> Err OutOfFuel.

Lemma in_fuel_iter body l : (forall a, a ∈ l -> in_fuel (body a)) -> in_fuel (st_iter body l).
Proof.
  induction l as [|a l IH]; intros Hb x; cbn [st_iter]; [done|]. unfold mbind, ST_bind.
  pose proof (Hb a ltac:(left) x) as Ha. destruct (body a x) as [y [[]|e]]; [|done].
  apply IH. intros a' Hin. apply Hb. by right.
Qed.

(** A loop of steps that keep [R]: when it returns, every step has achieved its
    own goal, if later steps cannot undo it. *)
Lemma st_iter_goal (R : S -> S -> Prop) `{!PreOrder R} body (Q : A -> S -> Prop) l : forall s s',
  (forall a s s' r, a ∈ l -> body a s = (s', r) -> R s s') ->
  (forall a s s', a ∈ l -> body a s = (s', Ok tt) -> Q a s') ->
  (forall a s s', Q a s -> R s s' -> Q a s') ->
  st_iter body l s = (s', Ok tt) -> forall a, a ∈ l -> Q a s'.
Proof.
  induction l as [|a l IH]; intros s s' HR HQ Hmono; cbn [st_iter]; [by intros _ a ?%elem_of_nil|].
  unfold mbind, ST_bind. destruct (body a s) as [s1 [[]|e]] eqn:Hb; [|done]. intros Hit a' [->|Hin]%elem_of_cons.
  - eapply Hmono; [by eapply HQ; [left|]|]. eapply st_iter_rel; [done| |exact Hit]. intros x ? ? ? Hx. apply HR. by right.
  - eapply IH; [..|exact Hit|done]; [intros x ? ? ? Hx; apply HR; by right|intros x ? ? Hx; apply HQ; by right|done].
Qed.

(** Loops keep an invariant of the state. *)
Lemma st_iter_inv (P : S -> Prop) body l s s' r :
  (forall a s s' r, a ∈ l -> P s -> body a s = (s', r) -> P s') -> P s -> st_iter body l s = (s', r) -> P s'.
Proof.
  revert s. induction l as [|a l IH]; intros s Hb Hs; cbn [st_iter]; [unfold mret, ST_ret; intros; by simplify_eq|].
  unfold mbind, ST_bind. destruct (body a s) as [s1 [[]|e]] eqn:Ha; apply Hb in Ha as Hs1; try done; try (by left).
  - apply IH; [|done]. intros x ? ? ? Hx. apply Hb. by right.
  - intros. by simplify_eq.
Qed.
End Loops.

(** ** Values by group and stage *)

Section Values.
Context {F : Type}.
Implicit Types (sv : stage_values F) (ns : namespace F) (g : group) (n : string).

Definition ns_grows ns ns' : Prop := forall n v, dict_get ns n = Some v -> dict_get ns' n = Some v.
Definition grows sv sv' : Prop := forall g, ns_grows (ns_of sv g) (ns_of sv' g).

#[export] Instance ns_grows_preorder : PreOrder ns_grows.
Proof. split; [by intros ns n v|]. intros n1 n2 n3 H1 H2 n v Hv. auto. Qed.
#[export] Instance grows_preorder : PreOrder grows.
Proof. split; [by intros sv g n v|]. intros s1 s2 s3 H1 H2 g n v Hv. by apply H2, H1. Qed.

Lemma ns_of_set_stage sv g n v g' :
  ns_of (set_stage sv g n v) g' = if decide (cg_name g' = cg_name g) then dict_set (ns_of sv g) n v else ns_of sv g'.
Proof. unfold ns_of, set_stage. rewrite dict_get_set. by case_decide. Qed.

Lemma ns_of_touch sv g g' : ns_of (touch_ns sv g) g' = ns_of sv g'.
Proof. unfold touch_ns, ns_of. rewrite dict_get_set. case_decide as E; [by rewrite <- E|done]. Qed.

Lemma ns_of_same sv g g' : cg_name g' = cg_name g -> ns_of sv g' = ns_of sv g.
Proof. unfold ns_of. by intros ->. Qed.

Lemma dict_mem_None {V} (d : list (string * V)) k : dict_mem d k = false -> dict_get d k = None.
Proof. unfold dict_mem. by destruct (dict_get d k). Qed.

Lemma dict_mem_Some {V} (d : list (string * V)) k : dict_mem d k = true -> exists v, dict_get d k = Some v.
Proof. unfold dict_mem. destruct (dict_get d k); [eauto|done]. Qed.

Lemma ns_grows_set ns n v : dict_get ns n = None -> ns_grows ns (dict_set ns n v).
Proof. intros Hn n' v' Hv. rewrite dict_get_set. case_decide; [congruence|done]. Qed.

Lemma set_stage_grows sv g n v : dict_get (ns_of sv g) n = None -> grows sv (set_stage sv g n v).
Proof.
  intros Hn g'. rewrite ns_of_set_stage. case_decide as E; [|done]. rewrite (ns_of_same _ g g' E). by apply ns_grows_set.
Qed.

Lemma collect_mono ns ns' names l : ns_grows ns ns' -> collect ns names = Ok l -> collect ns' names = Ok l.
Proof.
  intros Hg. unfold collect. generalize (@nil (string * values F)). revert l.
  induction names as [|n names IH]; intros l acc; cbn [foldE]; [done|].
  unfold get_attr. destruct (dict_get ns n) as [v|] eqn:Hv; [|done]. rewrite (Hg _ _ Hv). cbn. apply IH.
Qed.

Lemma collect_not_fuel ns names : collect ns names <> Err OutOfFuel.
Proof.
  unfold collect. generalize (@nil (string * values F)). induction names as [|n names IH]; intros acc; cbn [foldE]; [done|].
  unfold get_attr. destruct (dict_get ns n); [apply IH|done].
Qed.

(** Every value is explained by the namespace it stands in. *)
Definition explained (explains : namespace F -> group -> string -> values F -> Prop) sv : Prop := forall g n v,
  dict_get (ns_of sv g) n = Some v -> exists g', cg_name g' = cg_name g /\ explains (ns_of sv g) g' n v.

Lemma explained_set (explains : namespace F -> group -> string -> values F -> Prop) sv g n v :
  (forall ns ns' g n v, ns_grows ns ns' -> explains ns g n v -> explains ns' g n v) ->
  explained explains sv -> dict_get (ns_of sv g) n = None -> explains (ns_of sv g) g n v ->
  explained explains (set_stage sv g n v).
Proof.
  intros Hmono He Hn Hx g' n' v'. rewrite ns_of_set_stage. case_decide as E; [|apply He].
  rewrite dict_get_set. pose proof (ns_grows_set (ns_of sv g) n v Hn) as Hg. case_decide as E'.
  - intros [= <-]. subst n'. exists g. split; [done|]. by eapply Hmono.
  - intros Hv. rewrite <- (ns_of_same sv g g' E) in *. destruct (He g' n' v' Hv) as (g2 & Hg2 & Hx2). exists g2. split; [done|]. by eapply Hmono.
Qed.

Lemma explained_touch explains sv g : explained explains sv -> explained explains (touch_ns sv g).
Proof. intros He g' n v. rewrite ns_of_touch. apply He. Qed.

Lemma explained_nil explains : explained explains [].
Proof. intros g n v. done. Qed.

Lemma touch_grows sv g : grows sv (touch_ns sv g).
Proof. intros g'. by rewrite ns_of_touch. Qed.
End Values.

(** ** The stage graph orders the dependencies *)

Section Run.
Context `{PyFloat F} `{!Numpy F} `{SortedDict D} {W : Type}.
Context (s : Strategy F D W).

Lemma stage_order order :
  validate_stage_graph s = Ok order ->
  (forall node, node ∈ stage_nodes s -> sn_name node ∈ order) /\
  (forall k node d, node ∈ stage_nodes s -> order !! k = Some (sn_name node) -> d ∈ sn_dependencies node ->
     exists j, (j < k)%nat /\ order !! j = Some d).
Proof.
  unfold validate_stage_graph, stage_graph. intros (g & Hg & Hv)%bind_Ok_inv. apply bind_Ok_inv in Hv as (order' & Ho & Hv).
  apply bind_Ok_inv in Hv as ([] & _ & [= ->]). pose proof (topological_order_spec _ _ Hg) as Hspec. rewrite Ho in Hspec.
  destruct Hspec as [Hp Hb]. split.
  - intros node Hn. rewrite Hp. by apply list_elem_of_fmap_2.
  - intros k node d Hn Hk Hd. pose proof (take_drop_middle _ _ _ Hk) as Hsplit.
    assert (depends g (sn_name node) d) as Hdep by (exists node; split; [by eapply StageGraph_init_nodes|done]).
    symmetry in Hsplit. specialize (Hb _ _ _ _ Hsplit Hdep). apply list_elem_of_lookup in Hb as [j Hj].
    exists j. pose proof (lookup_lt_Some _ _ _ Hj) as Hlt. rewrite length_take in Hlt. split; [lia|].
    by rewrite lookup_take_lt in Hj by lia.
Qed.

(** Bar [k] of the order is past every stage of [names]. *)
Definition below (order : list string) (prefix : string) (k : nat) (names : list string) : Prop :=
  forall n, n ∈ names -> exists j, (j < k)%nat /\ order !! j = Some (prefix +:+ n)%string.

Lemma elem_prefixed p n l : n ∈ l -> (p +:+ n)%string ∈ prefixed p l.
Proof. intros Hn. by apply (list_elem_of_fmap_2 (fun n => (p +:+ n)%string)). Qed.

Lemma below_deps order prefix deps k n :
  (exists node, node ∈ stage_nodes s /\ sn_name node = (prefix +:+ n)%string /\
     forall d, d ∈ deps -> (prefix +:+ d)%string ∈ sn_dependencies node) ->
  validate_stage_graph s = Ok order -> order !! k = Some (prefix +:+ n)%string -> below order prefix k deps.
Proof.
  intros (node & Hn & Hname & Hd) Hv Hk d Hin. destruct (stage_order order Hv) as [_ Hdep].
  eapply Hdep; [exact Hn|by rewrite Hname|by apply Hd].
Qed.

Lemma below_all order prefix names :
  (forall n, n ∈ names -> exists node, node ∈ stage_nodes s /\ sn_name node = (prefix +:+ n)%string) ->
  validate_stage_graph s = Ok order -> below order prefix (length order) names.
Proof.
  intros Hn Hv n Hin. destruct (Hn n Hin) as (node & Hnode & Hname). destruct (stage_order order Hv) as [Hall _].
  specialize (Hall node Hnode). rewrite Hname in Hall. apply list_elem_of_lookup in Hall as [j Hj]. exists j.
  split; [by eapply lookup_lt_Some|done].
Qed.

Lemma indicator_node n : n ∈ dict_keys (s_indicators s) -> exists node, node ∈ stage_nodes s /\
  sn_name node = ("indicator:" +:+ n)%string /\
  forall d, d ∈ deps_of (s_indicator_deps s) n -> ("indicator:" +:+ d)%string ∈ sn_dependencies node.
Proof.
  intros Hn. eexists. split; [unfold stage_nodes; apply elem_of_app; left; eapply (list_elem_of_fmap_2 _ _ _ Hn)|].
  split; [done|]. intros d Hd. by apply elem_prefixed.
Qed.

Lemma signal_node n : n ∈ dict_keys (s_signals s) -> exists node, node ∈ stage_nodes s /\
  sn_name node = ("signal:" +:+ n)%string /\
  forall d, d ∈ deps_of (s_signal_deps s) n -> ("signal:" +:+ d)%string ∈ sn_dependencies node.
Proof.
  intros Hn. eexists. split; [unfold stage_nodes; apply elem_of_app; right; apply elem_of_app; left; eapply (list_elem_of_fmap_2 _ _ _ Hn)|].
  split; [done|]. intros d Hd. apply elem_of_app. right. by apply elem_prefixed.
Qed.

Lemma single_name n registered l : validated_stage_names (Some (Inst [Inst n])) registered = Ok l -> l = [n].
Proof.
  intros [[? _]|(r & Heq & _ & _ & _ & ->)]%validated_stage_names_spec; [done|]. injection Heq as Heq.
  destruct r as [|x [|]]; simplify_eq/=. done.
Qed.

Lemma checked_stage_not_fuel n message (r : W * result (arg (stage_array F))) : (checked_stage n message r).2 <> Err OutOfFuel.
Proof. unfold checked_stage. destruct r as [w r]. simpl. destruct (_ ≫= _) as [v|[]]; simpl; done. Qed.

Lemma run_indicator_in_fuel g n : in_fuel (run_indicator s g n).
Proof.
  intros [w iv]. unfold run_indicator. destruct (dict_mem _ _); [done|]. destruct (dict_get _ _) as [f|]; [|done].
  destruct (collect _ _) as [ps|e] eqn:Hc; [|simpl; intros [= ->]; by eapply collect_not_fuel].
  destruct (checked_stage _ _ _) as [w' [v|e]] eqn:Hk; [done|].
  pose proof (checked_stage_not_fuel (length (s_timestamps s)) "indicator callback failed" (f g (s_timestamps s) ps w)) as Hn.
  rewrite Hk in Hn. simpl in *. congruence.
Qed.

Lemma run_signal_in_fuel iv g n : in_fuel (run_signal s iv g n).
Proof.
  intros [w sv]. unfold run_signal. destruct (dict_mem _ _); [done|]. destruct (dict_get _ _) as [f|]; [|done].
  pose proof (collect_not_fuel (ns_of sv g) (deps_of (s_signal_deps s) n)) as Hc1.
  pose proof (collect_not_fuel (ns_of iv g) (deps_of (s_signal_indicator_deps s) n)) as Hc2.
  destruct (collect (ns_of sv g) _) as [ps|e]; [|cbn in *; congruence].
  destruct (collect (ns_of iv g) _) as [qs|e]; [|cbn in *; congruence]. cbn [mbind result_bind].
  destruct (checked_stage _ _ _) as [w' [v|e]] eqn:Hk; [done|].
  pose proof (checked_stage_not_fuel (length (s_timestamps s)) "signal callback failed" (f g (s_timestamps s) qs ps w)) as Hn.
  rewrite Hk in Hn. simpl in *. congruence.
Qed.

(** A stage with its parents first. *)
Lemma parents_in_fuel {S} (parents : ST S unit) (own : ST S unit) :
  in_fuel parents -> in_fuel own ->
  in_fuel (fun s0 => match parents s0 with (s1, Err e) => (s1, Err e) | (s1, Ok _) => own s1 end).
Proof. intros Hp Ho x. pose proof (Hp x) as Hpx. destruct (parents x) as [y [[]|e]]; [apply Ho|done]. Qed.

Lemma run_indicators_in_fuel order : validate_stage_graph s = Ok order -> forall fuel k names groups clear_all,
  (k < fuel)%nat -> (forall l, validated_stage_names names (dict_keys (s_indicators s)) = Ok l -> below order "indicator:" k l) ->
  in_fuel (run_indicators s fuel names groups clear_all).
Proof.
  intros Hv. induction fuel as [|fuel IH]; intros k names groups clear_all Hk Hbelow [w iv]; [lia|]. cbn [run_indicators].
  destruct (validated_stage_names _ _) as [l|e] eqn:Hl; [|simpl; intros [= ->]; by eapply validated_stage_names_not_fuel].
  destruct (validated_stage_groups _ _) as [gs|e] eqn:Hgs; [|simpl; intros [= ->]; by eapply validated_stage_groups_not_fuel].
  apply in_fuel_iter. intros g _ [w1 iv1]. apply in_fuel_iter. intros n Hn. apply list_elem_of_filter in Hn as [_ Hn].
  destruct (Hbelow l eq_refl n Hn) as (j & Hj & Hoj).
  apply parents_in_fuel; [|apply run_indicator_in_fuel]. apply in_fuel_iter. intros p Hp [w2 iv2].
  destruct (dict_mem _ _); [done|]. eapply (IH j); [lia|]. intros l' ->%single_name. 
  assert (below order "indicator:" j (deps_of (s_indicator_deps s) n)) as Hb.
  { eapply below_deps; [|exact Hv|exact Hoj]. apply indicator_node. by eapply validated_stage_names_sub. }
  intros d ->%list_elem_of_singleton. by apply Hb.
Qed.

Lemma run_signals_in_fuel iv order : validate_stage_graph s = Ok order -> forall fuel k names groups clear_all,
  (k < fuel)%nat -> (forall l, validated_stage_names names (dict_keys (s_signals s)) = Ok l -> below order "signal:" k l) ->
  in_fuel (run_signals s iv fuel names groups clear_all).
Proof.
  intros Hv. induction fuel as [|fuel IH]; intros k names groups clear_all Hk Hbelow [w sv]; [lia|]. cbn [run_signals].
  destruct (validated_stage_names _ _) as [l|e] eqn:Hl; [|simpl; intros [= ->]; by eapply validated_stage_names_not_fuel].
  destruct (validated_stage_groups _ _) as [gs|e] eqn:Hgs; [|simpl; intros [= ->]; by eapply validated_stage_groups_not_fuel].
  apply in_fuel_iter. intros g _. apply in_fuel_iter. intros n Hn. apply list_elem_of_filter in Hn as [_ Hn].
  destruct (Hbelow l eq_refl n Hn) as (j & Hj & Hoj). destruct (bool_decide _); [|done].
  apply parents_in_fuel; [|apply run_signal_in_fuel]. apply in_fuel_iter. intros p Hp [w2 sv2].
  destruct (dict_mem _ _); [done|]. eapply (IH j); [lia|]. intros l' ->%single_name.
  assert (below order "signal:" j (deps_of (s_signal_deps s) n)) as Hb.
  { eapply below_deps; [|exact Hv|exact Hoj]. apply signal_node. by eapply validated_stage_names_sub. }
  intros d ->%list_elem_of_singleton. by apply Hb.
Qed.

(** ** What is computed *)

(** The value is what the callback of the group returned on the values of the
    dependencies, in some state of the world. *)
Definition indicator_explains (ns : namespace F) (g : group) (n : string) (v : list (pyval F)) : Prop := exists f parents w w',
  dict_get (s_indicator_functions s) (n, cg_oid g) = Some f /\ collect ns (deps_of (s_indicator_deps s) n) = Ok parents /\
  checked_stage (length (s_timestamps s)) "indicator callback failed" (f g (s_timestamps s) parents w) = (w', Ok v).

Definition signal_explains (iv : stage_values F) (ns : namespace F) (g : group) (n : string) (v : list (pyval F)) : Prop :=
  exists f parents indicators w w',
  dict_get (s_signal_functions s) (n, cg_oid g) = Some f /\ collect ns (deps_of (s_signal_deps s) n) = Ok parents /\
  collect (ns_of iv g) (deps_of (s_signal_indicator_deps s) n) = Ok indicators /\
  checked_stage (length (s_timestamps s)) "signal callback failed" (f g (s_timestamps s) indicators parents w) = (w', Ok v).

Lemma indicator_explains_mono ns ns' g n v :
  ns_grows ns ns' -> indicator_explains ns g n v -> indicator_explains ns' g n v.
Proof. intros Hg (f & ps & w & w' & ? & ? & ?). exists f, ps, w, w'. split_and!; try done. by eapply collect_mono. Qed.

Lemma signal_explains_mono iv ns ns' g n v :
  ns_grows ns ns' -> signal_explains iv ns g n v -> signal_explains iv ns' g n v.
Proof. intros Hg (f & ps & qs & w & w' & ? & ? & ?). exists f, ps, qs, w, w'. split_and!; try tauto. by eapply collect_mono. Qed.

(** What every step keeps, however it ends. *)
Definition advances (explains : namespace F -> group -> string -> list (pyval F) -> Prop) (x y : W * stage_values F) : Prop :=
  grows x.2 y.2 /\ (explained explains x.2 -> explained explains y.2).

#[export] Instance advances_preorder explains : PreOrder (advances explains).
Proof.
  split; [intros x; split; [done|tauto]|]. intros x y z [H1 H2] [H3 H4].
  split; [exact (transitivity H1 H3)|tauto].
Qed.

Definition has_value (g : group) (n : string) (x : W * stage_values F) : Prop := exists v, dict_get (ns_of x.2 g) n = Some v.

Lemma has_value_advances explains g n x y : has_value g n x -> advances explains x y -> has_value g n y.
Proof. intros [v Hv] [Hg _]. exists v. by apply Hg. Qed.

Lemma run_indicator_advances g n x y r :
  run_indicator s g n x = (y, r) -> advances indicator_explains x y /\ (r = Ok tt -> has_value g n y).
Proof.
  destruct x as [w iv]. unfold run_indicator. destruct (dict_mem _ _) eqn:Hm; [|apply dict_mem_None in Hm].
  { intros [= <- <-]. split; [done|]. intros _. by apply dict_mem_Some. }
  destruct (dict_get _ (n, _)) as [f|] eqn:Hf; [|by intros [= <- <-]].
  destruct (collect _ _) as [ps|e] eqn:Hc; [|by intros [= <- <-]].
  destruct (checked_stage _ _ _) as [w' [v|e]] eqn:Hk; intros [= <- <-]; [|by split; [split|]].
  split; [split|].
  - by apply set_stage_grows.
  - intros He. apply explained_set; [apply indicator_explains_mono|done..|]. by exists f, ps, w, w'.
  - intros _. exists v. simpl. by rewrite ns_of_set_stage, decide_True, dict_get_set_eq.
Qed.

Lemma run_signal_advances iv g n x y r :
  run_signal s iv g n x = (y, r) -> advances (signal_explains iv) x y /\ (r = Ok tt -> has_value g n y).
Proof.
  destruct x as [w sv]. unfold run_signal. destruct (dict_mem _ _) eqn:Hm; [|apply dict_mem_None in Hm].
  { intros [= <- <-]. split; [done|]. intros _. by apply dict_mem_Some. }
  destruct (dict_get _ (n, _)) as [f|] eqn:Hf; [|by intros [= <- <-]].
  destruct (collect (ns_of sv g) _) as [ps|e] eqn:Hc; [|by intros [= <- <-]].
  destruct (collect (ns_of iv g) _) as [qs|e] eqn:Hc2; [|by intros [= <- <-]]. cbn [mbind result_bind].
  destruct (checked_stage _ _ _) as [w' [v|e]] eqn:Hk; intros [= <- <-]; [|by split; [split|]].
  split; [split|].
  - by apply set_stage_grows.
  - intros He. apply explained_set; [apply signal_explains_mono|done..|]. by exists f, ps, qs, w, w'.
  - intros _. exists v. simpl. by rewrite ns_of_set_stage, decide_True, dict_get_set_eq.
Qed.

(** Parents first, then the stage itself. *)
Lemma parents_advance {S} (R : S -> S -> Prop) `{!PreOrder R} (parents own : ST S unit) (Q : S -> Prop) :
  (forall x y r, parents x = (y, r) -> R x y) -> (forall x y r, own x = (y, r) -> R x y /\ (r = Ok tt -> Q y)) ->
  forall x y r, (match parents x with (s1, Err e) => (s1, Err e) | (s1, Ok _) => own s1 end) = (y, r) ->
    R x y /\ (r = Ok tt -> Q y).
Proof.
  intros Hp Ho x y r. destruct (parents x) as [x1 [[]|e]] eqn:Hx; apply Hp in Hx.
  - intros [HR HQ]%Ho. split; [by etrans|done].
  - intros [= <- <-]. split; [done|discriminate].
Qed.

(** One group: every selected stage, parents first. *)
Lemma group_advances {A} (R : W * stage_values F -> W * stage_values F -> Prop) `{!PreOrder R}
    (body : A -> ST (W * stage_values F) unit) (goal : A -> W * stage_values F -> Prop) l :
  (forall a x y r, a ∈ l -> body a x = (y, r) -> R x y /\ (r = Ok tt -> goal a y)) ->
  (forall a x y, goal a x -> R x y -> goal a y) ->
  forall x y r, st_iter body l x = (y, r) -> R x y /\ (r = Ok tt -> forall a, a ∈ l -> goal a y).
Proof.
  intros Hb Hm x y r Hit. split.
  - eapply st_iter_rel; [done| |exact Hit]. intros a ? ? ? Ha H'. by eapply Hb.
  - intros -> a Ha. eapply (st_iter_goal R body goal l); [| |exact Hm|exact Hit|exact Ha].
    + intros a' ? ? ? Ha' H'. by eapply Hb.
    + intros a' x' y' Ha' H'. by eapply Hb.
Qed.

Lemma touch_advances explains g w iv : advances explains (w, iv) (w, touch_ns iv g).
Proof. split; [apply touch_grows|apply explained_touch]. Qed.

Lemma advances_trans explains x y z : advances explains x y -> advances explains y z -> advances explains x z.
Proof. apply transitivity. Qed.

Lemma run_indicators_advances fuel : forall names groups clear_all w iv y r,
  run_indicators s fuel names groups clear_all (w, iv) = (y, r) ->
  (exists iv0, (iv0 = iv \/ clear_all = true /\ iv0 = []) /\ advances indicator_explains (w, iv0) y) /\
  (r = Ok tt -> exists l gs, validated_stage_names names (dict_keys (s_indicators s)) = Ok l /\
     validated_stage_groups groups (s_contract_groups s) = Ok gs /\
     forall g, g ∈ gs -> forall n, n ∈ relevant_names (s_indicator_cgroups s) gs l -> has_value g n y).
Proof.
  induction fuel as [|fuel IH]; intros names groups clear_all w iv y r; cbn [run_indicators].
  { intros [= <- <-]. split; [exists iv; split; [by left|done]|done]. }
  destruct (validated_stage_names names (dict_keys (s_indicators s))) as [l|e] eqn:Hl; [|intros [= <- <-]; split; [exists iv; split; [by left|done]|done]].
  destruct (validated_stage_groups groups (s_contract_groups s)) as [gs|e] eqn:Hgs; [|intros [= <- <-]; split; [exists iv; split; [by left|done]|done]].
  cbv zeta. set (iv0 := if clear_all then [] else iv). intros Hit.
  eapply (group_advances (advances indicator_explains) _
    (fun g y => forall n, n ∈ relevant_names (s_indicator_cgroups s) gs l -> has_value g n y)) in Hit as [HR HQ].
  - split; [exists iv0; split; [unfold iv0; destruct clear_all; auto|done]|]. intros Hr. exists l, gs. split_and!; [done..|by apply HQ].
  - intros g [w1 iv1] y1 r1 _ Hg. eapply (group_advances (advances indicator_explains) _ (has_value g)) in Hg as [HR1 HQ1].
    + split; [|exact HQ1]. eapply advances_trans; [apply touch_advances|exact HR1].
    + intros n x z r' Hn. eapply parents_advance; [apply _| |apply run_indicator_advances].
      intros x1 z1 r1' Hp. eapply st_iter_rel; [apply _| |exact Hp]. intros p [w2 iv2] z2 r2 _.
      destruct (dict_mem _ _); [by intros [= <- <-]|]. intros [(iv3 & [->|[? _]] & Ha) _]%IH; done.
    + intros n x z. apply has_value_advances.
  - intros g x z Hx HR n Hn. eapply has_value_advances; [by apply Hx|exact HR].
Qed.

Lemma run_signals_advances iv fuel : forall names groups clear_all w sv y r,
  run_signals s iv fuel names groups clear_all (w, sv) = (y, r) ->
  (exists sv0, (sv0 = sv \/ clear_all = true /\ sv0 = []) /\ advances (signal_explains iv) (w, sv0) y) /\
  (r = Ok tt -> exists l gs, validated_stage_names names (dict_keys (s_signals s)) = Ok l /\
     validated_stage_groups groups (s_contract_groups s) = Ok gs /\
     forall g, g ∈ gs -> forall n, n ∈ relevant_names (s_signal_cgroups s) gs l ->
       cg_name g ∈ (cg_name <$> default [] (dict_get (s_signal_cgroups s) n)) -> has_value g n y).
Proof.
  induction fuel as [|fuel IH]; intros names groups clear_all w sv y r; cbn [run_signals].
  { intros [= <- <-]. split; [exists sv; split; [by left|done]|done]. }
  destruct (validated_stage_names names (dict_keys (s_signals s))) as [l|e] eqn:Hl; [|intros [= <- <-]; split; [exists sv; split; [by left|done]|done]].
  destruct (validated_stage_groups groups (s_contract_groups s)) as [gs|e] eqn:Hgs; [|intros [= <- <-]; split; [exists sv; split; [by left|done]|done]].
  cbv zeta. set (sv0 := if clear_all then [] else sv). intros Hit.
  set (goal := fun g n y => cg_name g ∈ (cg_name <$> default [] (dict_get (s_signal_cgroups s) n)) -> has_value g n y).
  eapply (group_advances (advances (signal_explains iv)) _
    (fun g y => forall n, n ∈ relevant_names (s_signal_cgroups s) gs l -> goal g n y)) in Hit as [HR HQ].
  - split; [exists sv0; split; [unfold sv0; destruct clear_all; auto|done]|]. intros Hr. exists l, gs. split_and!; [done..|by apply HQ].
  - intros g [w1 sv1] y1 r1 _. apply group_advances; [apply _| |].
    + intros n x z r' Hn. unfold goal. case_bool_decide as Hg; [|intros [= <- <-]; split; [done|by intros _ ?]].
      intros Hpo. eapply parents_advance in Hpo as [HR HQ]; [split; [exact HR|intros; by apply HQ]|apply _| |apply run_signal_advances].
      intros x1 z1 r1' Hp. eapply st_iter_rel; [apply _| |exact Hp]. intros p [w2 sv2] z2 r2 _.
      destruct (dict_mem _ _); [by intros [= <- <-]|]. intros [(sv3 & [->|[? _]] & Ha) _]%IH; done.
    + intros n x z Hx HR Hg. eapply has_value_advances; [by apply Hx|exact HR].
  - intros g x z Hx HR n Hn Hg. eapply has_value_advances; [by apply Hx|exact HR].
Qed.
End Run.

(** What [checked_stage] lets through has one value per timestamp. *)
Lemma checked_stage_length {F W} n message (r : W * result (arg (stage_array F))) w' v :
  checked_stage n message r = (w', Ok v) -> length v = n.
Proof.
  unfold checked_stage. destruct r as [w r]. destruct (r ≫= _) as [v'|e] eqn:Hv; [|done]. intros [= _ <-].
  apply bind_Ok_inv in Hv as (a & _ & Hv). unfold validate_stage_values in Hv. destruct a as [a|]; [|done].
  apply guard_bind_Ok in Hv as [_ Hv]. apply guard_bind_Ok in Hv as [Hl [= <-]]. by apply Nat.eqb_eq.
Qed.

Lemma explained_length {F W} (explains : namespace F -> group -> string -> list (pyval F) -> Prop) m (sv : stage_values F) :
  (forall ns g n v, explains ns g n v -> exists message (r : W * result (arg (stage_array F))) w', checked_stage m message r = (w', Ok v)) ->
  explained explains sv -> forall g n v, dict_get (ns_of sv g) n = Some v -> length v = m.
Proof.
  intros Hx He g n v Hv. destruct (He g n v Hv) as (g' & _ & Hg'). destruct (Hx _ _ _ _ Hg') as (msg & r & w' & Hc).
  by eapply checked_stage_length.
Qed.

(** ** Properties *)

(** Under a validated stage graph, [run_indicators] terminates: the length of
    the topological order bounds the recursion over dependencies.  Whatever the
    outcome, every stored value is what the indicator's callback for that group
    returned on the stored values of its dependencies, with one entry per
    timestamp, and values already there are kept; when it succeeds, every
    requested indicator has a value for every requested group. *)
Theorem run_indicators_correct `{PyFloat F} `{!Numpy F} `{SortedDict D} {W} (s : Strategy F D W) order fuel names groups
    clear_all w iv w' iv' res :
  validate_stage_graph s = Ok order -> (length order < fuel)%nat -> explained (indicator_explains s) iv ->
  run_indicators s fuel names groups clear_all (w, iv) = ((w', iv'), res) ->
  res <> Err OutOfFuel /\ explained (indicator_explains s) iv' /\ (clear_all = false -> grows iv iv') /\
  (forall g n v, dict_get (ns_of iv' g) n = Some v -> length v = length (s_timestamps s)) /\
  (res = Ok tt -> exists l gs, validated_stage_names names (dict_keys (s_indicators s)) = Ok l /\
     validated_stage_groups groups (s_contract_groups s) = Ok gs /\
     forall g n, g ∈ gs -> n ∈ relevant_names (s_indicator_cgroups s) gs l -> exists v, dict_get (ns_of iv' g) n = Some v).
Proof.
  intros Hv Hf Hx Hr. pose proof Hr as ((iv0 & Hiv0 & Hg & He) & Hok)%run_indicators_advances.
  assert (explained (indicator_explains s) iv') as Hx'.
  { apply He. destruct Hiv0 as [->|[_ ->]]; [done|apply explained_nil]. }
  split_and!; [|done| | |].
  - intros ->. eapply (run_indicators_in_fuel s order Hv fuel _ names groups clear_all Hf); [|by rewrite Hr].
    intros l Hl. apply (below_all s); [|done]. intros n Hn. destruct (indicator_node s n) as (node & ? & ? & _); [|eauto].
    by eapply validated_stage_names_sub.
  - intros ->. by destruct Hiv0 as [->|[? _]].
  - eapply explained_length; [|exact Hx']. intros ns g n v (f & ps & w1 & w2 & _ & _ & Hc). eauto.
  - intros Hres. destruct (Hok Hres) as (l & gs & ? & ? & Hall). exists l, gs. split_and!; [done..|]. intros g n Hgs Hn.
    by apply (Hall g Hgs n).
Qed.

(** The same for [run_signals], whose callbacks see the values of the
    indicators and of the signals they depend on: it terminates under a validated
    stage graph, every stored value is explained by its dependencies, and success
    gives every requested signal a value for each requested group it is
    registered for. *)
Theorem run_signals_correct `{PyFloat F} `{!Numpy F} `{SortedDict D} {W} (s : Strategy F D W) order iv fuel names groups
    clear_all w sv w' sv' res :
  validate_stage_graph s = Ok order -> (length order < fuel)%nat -> explained (signal_explains s iv) sv ->
  run_signals s iv fuel names groups clear_all (w, sv) = ((w', sv'), res) ->
  res <> Err OutOfFuel /\ explained (signal_explains s iv) sv' /\ (clear_all = false -> grows sv sv') /\
  (forall g n v, dict_get (ns_of sv' g) n = Some v -> length v = length (s_timestamps s)) /\
  (res = Ok tt -> exists l gs, validated_stage_names names (dict_keys (s_signals s)) = Ok l /\
     validated_stage_groups groups (s_contract_groups s) = Ok gs /\
     forall g n, g ∈ gs -> n ∈ relevant_names (s_signal_cgroups s) gs l ->
       cg_name g ∈ (cg_name <$> default [] (dict_get (s_signal_cgroups s) n)) -> exists v, dict_get (ns_of sv' g) n = Some v).
Proof.
  intros Hv Hf Hx Hr. pose proof Hr as ((sv0 & Hsv0 & Hg & He) & Hok)%run_signals_advances.
  assert (explained (signal_explains s iv) sv') as Hx'.
  { apply He. destruct Hsv0 as [->|[_ ->]]; [done|apply explained_nil]. }
  split_and!; [|done| | |].
  - intros ->. eapply (run_signals_in_fuel s iv order Hv fuel _ names groups clear_all Hf); [|by rewrite Hr].
    intros l Hl. apply (below_all s); [|done]. intros n Hn. destruct (signal_node s n) as (node & ? & ? & _); [|eauto].
    by eapply validated_stage_names_sub.
  - intros ->. by destruct Hsv0 as [->|[? _]].
  - eapply explained_length; [|exact Hx']. intros ns g n v (f & ps & qs & w1 & w2 & _ & _ & _ & Hc). eauto.
  - intros Hres. destruct (Hok Hres) as (l & gs & ? & ? & Hall). exists l, gs. split_and!; [done..|]. intros g n Hgs Hn Hreg.
    by apply (Hall g Hgs n Hn).
Qed.

(** ** Witnesses: an indicator and a signal, each depending on another *)

Definition const_array (x : pyval spec_float) : arg (stage_array spec_float) := Inst (StageArray 1 [x; x; x]).

Definition demo_indicator : indicator_fn (F:=spec_float) (W:=nat) := fun _ _ _ w => (S w, Ok (const_array (PInt (Z.of_nat w)))).

Definition demo_dependent : indicator_fn (F:=spec_float) (W:=nat) := fun _ _ parents w =>
  (S w, match dict_get parents "a" with Some v => Ok (Inst (StageArray 1 v)) | None => Err (KeyError "a") end).

Definition demo_stage_signal : signal_fn (F:=spec_float) (W:=nat) := fun _ _ indicators parents w =>
  (S w, match dict_get indicators "b" with Some v => Ok (Inst (StageArray 1 v)) | None => Ok (const_array (PBool true)) end).

(** The dependent stages are registered first. *)
Definition demo_stage_strategy : result (Strategy spec_float sorted_items nat) :=
  s ← Strategy_init [1; 2; 3] [DEFAULT_CG] 1 true;
  s ← add_indicator s "b" (Inst demo_dependent) None (Some ["a"%string]);
  s ← add_indicator s "a" (Inst demo_indicator) None None;
  s ← add_signal s "y" (Inst demo_stage_signal) None (Some ["b"%string]) (Some ["x"%string]);
  add_signal s "x" (Inst demo_stage_signal) None None None.

Definition staged : Strategy spec_float sorted_items nat :=
  match demo_stage_strategy with Ok s => s | Err _ => mkStrategy [] [] 0 false [] [] [] [] [] [] [] [] [] [] [] [] [] [] [] end.

Definition staged_order : list string :=
  ["indicator:a"; "indicator:b"; "signal:x"; "signal:y"; "accounting:main"]%string.

Definition staged_indicators : (nat * stage_values spec_float) * result unit := run_indicators staged 6 None None false (7%nat, []).
Definition staged_signals : (nat * stage_values spec_float) * result unit :=
  run_signals staged staged_indicators.1.2 6 None None false (7%nat, []).

Lemma run_indicators_correct_witness :
  staged_indicators.2 = Ok tt /\ dict_keys (ns_of staged_indicators.1.2 DEFAULT_CG) = ["a"; "b"]%string /\
  explained (indicator_explains staged) staged_indicators.1.2.
Proof.
  split; [vm_compute; reflexivity|]. split; [vm_compute; reflexivity|].
  refine (proj1 (proj2 (run_indicators_correct staged staged_order 6 None None false 7%nat [] staged_indicators.1.1
    staged_indicators.1.2 staged_indicators.2 _ _ _ _))).
  - vm_compute. reflexivity.
  - simpl. lia.
  - apply explained_nil.
  - by apply run_eta.
Defined.

Lemma run_signals_correct_witness :
  staged_signals.2 = Ok tt /\ dict_keys (ns_of staged_signals.1.2 DEFAULT_CG) = ["x"; "y"]%string /\
  explained (signal_explains staged staged_indicators.1.2) staged_signals.1.2.
Proof.
  split; [vm_compute; reflexivity|]. split; [vm_compute; reflexivity|].
  refine (proj1 (proj2 (run_signals_correct staged staged_order staged_indicators.1.2 6 None None false 7%nat []
    staged_signals.1.1 staged_signals.1.2 staged_signals.2 _ _ _ _))).
  - vm_compute. reflexivity.
  - simpl. lia.
  - apply explained_nil.
  - by apply run_eta.
Defined.

(** An indicator registered for one of two groups makes [run_indicators] raise a
    bare [KeyError] at the other one: unlike [run_signals], it does not ask
    whether the stage is registered for the group. *)
Definition other_group : group := Group 2 "OTHER".

Definition demo_subset_strategy : result (Strategy spec_float sorted_items nat) :=
  s ← Strategy_init [1; 2; 3] [DEFAULT_CG; other_group] 1 true;
  add_indicator s "a" (Inst demo_indicator) (Some (Inst [Inst DEFAULT_CG])) None.

Example run_indicators_subset_KeyError :
  exists s order, demo_subset_strategy = Ok s /\ validate_stage_graph s = Ok order /\
    (run_indicators s 6 None None false (7%nat, [])).2 = Err (KeyError "a").
Proof. do 2 eexists. split; [reflexivity|]. split; vm_compute; reflexivity. Qed.
