(* ===== verification/Engine.v ===== *)
(** * The run: rule schedule, order queue and execution loop of [strategy.py]

    [engine] is what a run mutates: the world of the user's callbacks, the heap of
    order objects, the account, and the engine's own lists of orders.  The
    registry of contracts is part of the world, because rules create contracts.
    The order of calls, the guards around every callback and what is put back
    when one raises are the code's. *)

From stdpp Require Import pretty.
From S2P Require Import Roundtrip Prelude Numeric Vendor Boundaries Instruments Contracts Orders Fifo.
From S2P Require Import ContractPnl Account Callbacks Sparse Stages Risk Strategy.
From Stdlib Require Import SpecFloat.

Open Scope Z_scope.

Section Engine.
Context `{PyFloat F} `{!Numpy F} `{!NumpySignals F} `{SortedDict D} {W : Type}.
Context (s : Strategy F D W) (registry_of : W -> registry F) (pf : price_fn F W).

(** ** The schedule of rules *)

(** [OrderTupType]: the rule, its group, and the iteration parameters. *)
Record order_tup := OrderTup {
  ot_rule : rule_fn F D W;
  ot_group : group;
  ot_indicators : namespace F;
  ot_signals : values F;
  ot_rule_name : string;
}.

Definition np_nonzero (l : list bool) : list nat :=
  (filter (fun x => x.2 = true) (imap (fun i b => (i, b)) l)).*1.

(** The signal with the instants outside the dates masked. *)
Definition masked_signal (sig_values : values F) (start_date end_date : option Z) : result (values F) :=
  let null_value := if np_is_bool sig_values then PNpBool false else PNpFloat f_nan in
  sig_values ← match start_date with
               | None => Ok sig_values
               | Some d => np_fill sig_values 0 (np_searchsorted_left (s_timestamps s) d) null_value
               end;
  match end_date with
  | None => Ok sig_values
  | Some d => np_fill sig_values (np_searchsorted_left (s_timestamps s) d) (length sig_values) null_value
  end.

(** The instants at which the rule runs: not the last one when orders fill later. *)
Definition trigger_indices (sig_values : values F) (sig_true_values : list (pyval F)) : list nat :=
  let indices := np_nonzero (np_isin (take (length (s_timestamps s)) sig_values) sig_true_values) in
  match last indices with
  | Some i => if bool_decide (i = length sig_values - 1)%nat && (0 <? s_trade_lag s)
              then removelast indices else indices
  | None => indices
  end.

(** One rule of one group. *)
Definition schedule_rule (iv sv : stage_values F) (start_date end_date : option Z) (name : string) (g : group)
  (it : SparseIterations order_tup) : result (SparseIterations order_tup) :=
  match dict_get (s_rules s) name, dict_get (s_rule_signals s) name with
  | Some rule, Some (signal_name, sig_true_values) =>
      match dict_get (s_signal_cgroups s) signal_name with
      | None => Err (KeyError signal_name)
      | Some cgroups =>
          if bool_decide (cg_name g ∈ cg_name <$> cgroups) then
            unless dict_mem sv (cg_name g) raise PQException "missing group in signal_values" ;;
            sig_values ← get_attr (ns_of sv g) signal_name;
            sig_values ← masked_signal sig_values start_date end_date;
            let tup := OrderTup rule g (ns_of iv g) sig_values name in
            foldE (fun it idx => append_at it (Z.of_nat idx) tup) it (trigger_indices sig_values sig_true_values)
          else Ok it
      end
  | _, _ => Err (KeyError name)
  end.

(** [_generate_order_iterations], on validated dates. *)
Definition generate_order_iterations (iv sv : stage_values F) (rule_names : list string) (groups : list group)
  (start_date end_date : option Z) : result (SparseIterations order_tup) :=
  it ← SparseIterations_init (Some (Z.of_nat (length (s_timestamps s))));
  foldE (fun it name => foldE (fun it g => schedule_rule iv sv start_date end_date name g it) it groups) it rule_names.

(** ** The state of a run *)

Record engine := mkEngine {
  en_world : W;
  en_heap : heap F;
  en_account : Account F D;
  en_orders : list positive;                 (* _orders *)
  en_current : list positive;                (* _current_orders *)
  en_decisions : list (OrderDecision F);     (* order_decisions *)
}.

Definition set_world_of (e : engine) (wd : world F D W) : engine :=
  mkEngine wd.1 wd.2.1 wd.2.2 (en_orders e) (en_current e) (en_decisions e).
Definition world_of (e : engine) : world F D W := (en_world e, (en_heap e, en_account e)).
Definition set_heap (e : engine) (st : heap F) : engine := set_world_of e (en_world e, (st, en_account e)).
Definition set_current (e : engine) (l : list positive) : engine :=
  mkEngine (en_world e) (en_heap e) (en_account e) (en_orders e) l (en_decisions e).

Definition live (st : heap F) (oid : positive) : bool :=
  match st !! oid with Some r => raw_is_open r | None => false end.

(** [_update_current_orders] *)
Definition update_current_orders (e : engine) : engine :=
  set_current e (filter (fun oid => live (en_heap e) oid = true) (en_current e)).

(** What the engine raises for an exception of a callback. *)
Definition callback_error (message : string) (x : exn) : exn :=
  if is_Exception x then BacktestCallbackError message x else x.

(** ** Orders from a rule *)

(** Whether [position_filter] suppresses the rule at this position. *)
Definition position_blocks (position_filter : string) (curr_pos : F) : bool :=
  let flat := f_isclose curr_pos f_zero in
  if String.eqb position_filter "zero" then negb flat
  else if String.eqb position_filter "nonzero" then flat
  else if String.eqb position_filter "positive" then f_ltb curr_pos f_zero || flat
  else if String.eqb position_filter "negative" then f_ltb f_zero curr_pos || flat
  else false.

(** The filter of a rule, evaluated: whether the rule is suppressed. *)
Definition check_position_filter (t : order_tup) (now : Z) : ST engine bool := fun e =>
  match dict_get (s_position_filters s) (ot_rule_name t) with
  | None => (e, Err (KeyError (ot_rule_name t)))
  | Some None => (e, Ok false)
  | Some (Some position_filter) =>
      let '(a, r) := account_position (ot_group t) now (en_account e) in
      (set_world_of e (en_world e, (en_heap e, a)), (fun x => position_blocks position_filter x) <$> r)
  end.

(** The rule, and the validation of what it did and returned. *)
Definition call_rule (i : nat) (t : order_tup) (now : Z) (states : list (OrderCallbackState F)) : ST engine (list positive) :=
  fun e =>
  match ot_rule t (ot_group t) i (s_timestamps s) (ot_indicators t) (ot_signals t) (en_current e) (world_of e) with
  | (wd, Err x) => (set_world_of e wd, Err x)
  | (wd, Ok returned) =>
      let e := set_world_of e wd in
      match validate_all true states (en_heap e) with
      | Err x => (e, Err x)
      | Ok _ =>
          let '(st, r) := validate_rule_orders (registry_of (en_world e)) returned (ot_group t) now (en_current e)
                            (Some ("strategy-roll:" +:+ pretty (length (en_orders e)))) (en_heap e) in
          (set_heap e st, r)
      end
  end.

(** [_get_orders] *)
Definition get_orders (i : nat) (t : order_tup) (now : Z) : ST engine (list positive) := fun e =>
  match check_position_filter t now e with
  | (e, Err x) => (e, Err (callback_error "rule callback failed" x))
  | (e, Ok true) => (e, Ok [])
  | (e, Ok false) =>
      let states := capture_all (en_heap e) (en_current e) in
      match call_rule i t now states e with
      | (e, Ok orders) => (e, Ok orders)
      | (e, Err x) => (set_heap e (restore_all states (en_heap e)), Err (callback_error "rule callback failed" x))
      end
  end.

(** ** Market simulation *)

(** One pending order before the simulators run: cancellation and expiry; true
    when the order is eligible for execution. *)
Definition expire_order (i : nat) (now : Z) (r : raw_order F) : result (raw_order F * bool) :=
  match r_timestamp r with
  | NotInst => Err (TypeError "order timestamp")
  | Inst None => Err (PQException "order timestamp is not on the grid")
  | Inst (Some t) =>
      let idx := np_searchsorted_left (s_timestamps s) t in
      unless (idx <? length (s_timestamps s))%nat && (idx <=? i)%nat
        raise PQException "order timestamp is not on the grid" ;;
      let r := if inst_eqb (r_status r) (Inst CANCEL_REQUESTED) then raw_cancel r else r in
      let r := if inst_eqb (r_time_in_force r) (Inst DAY) && (day_of t <? day_of now) then raw_cancel r else r in
      let age := Z.of_nat i - Z.of_nat idx in
      let r := if (s_trade_lag s <? age) && inst_eqb (r_time_in_force r) (Inst FOK) then raw_cancel r else r in
      Ok (r, (s_trade_lag s <=? age) && raw_is_open r)
  end.

(** The loop over the pending orders; the second component is [eligible_order_ids]. *)
Definition expire_step (i : nat) (now : Z) (oid : positive) : ST (heap F * list positive) unit := fun '(st, eligible) =>
  match st !! oid with
  | None => ((st, eligible), Err (AttributeError "timestamp"))
  | Some r =>
      match expire_order i now r with
      | Err x => ((st, eligible), Err x)
      | Ok (r, ok) => ((<[oid := r]> st, if ok then oid :: eligible else eligible), Ok tt)
      end
  end.

Definition order_state (st : heap F) (oid : positive) : option (positive * (Z * arg OrderStatus)) :=
  (fun r => (oid, (qty_of r, r_status r))) <$> st !! oid.

(** The check of every pending order after a simulator: only eligible orders may
    have changed. *)
Definition check_states (eligible : list positive) (states : list (OrderCallbackState F)) (st : heap F) : result unit :=
  iterE (fun c => if bool_decide (cs_order c ∈ eligible) then validate_identity c st else validate_unchanged false c st)
    states.

(** [reported_fills] *)
Definition reported_fills (trades : list (raw_trade F)) : list (positive * Z) :=
  foldl (fun d t => match rt_order t with
                    | Inst oid => dict_set d oid (default 0 (dict_get d oid) + trade_quantity t)
                    | NotInst => d
                    end) [] trades.

(** An order whose quantity the simulator left alone takes the reported fill. *)
Definition settle_fill (fills : list (positive * Z)) (x : positive * (Z * arg OrderStatus)) : ST (heap F) unit := fun st =>
  match st !! x.1 with
  | None => (st, Err (AttributeError "qty"))
  | Some r =>
      let reported_fill := default 0 (dict_get fills x.1) in
      if py_eqb (r_qty r) (PInt x.2.1) && negb (reported_fill =? 0) then
        match raw_fill r (PInt reported_fill) with
        | Ok r => (<[x.1 := r]> st, Ok tt)
        | Err e => (st, Err e)
        end
      else (st, Ok tt)
  end.

(** The body of the [try] block once the simulator returned. *)
Definition book_market_result (now : Z) (view eligible : list positive)
  (states : list (OrderCallbackState F)) (order_states : order_states)
  (returned : arg (list (arg (raw_trade F)))) : ST engine unit := fun e =>
  match check_states eligible states (en_heap e) with
  | Err x => (e, Err x)
  | Ok _ =>
  match validate_market_trades returned view now order_states (en_heap e) with
  | Err x => (e, Err x)
  | Ok trades =>
      match st_iter (settle_fill (reported_fills trades)) order_states (en_heap e) with
      | (st, Err x) => (set_heap e st, Err x)
      | (st, Ok _) =>
          let e := set_heap e st in
          match trades with
          | [] => (e, Ok tt)
          | _ =>
              let '((w, a), r) := account_add_trades pf (registry_of (en_world e)) st (Inst <$> trades)
                                    (en_world e, en_account e) in
              (set_world_of e (w, (st, a)), r)
          end
      end
  end end.

(** One market simulator. *)
Definition run_market_sim (i : nat) (now : Z) (iv sv : stage_values F) (eligible : list positive)
  (sim : sim_fn F W) : ST engine unit := fun e =>
  let e := update_current_orders e in
  let states := capture_all (en_heap e) (en_current e) in
  let view := filter (fun oid => oid ∈ eligible) (en_current e) in
  let order_states := omap (order_state (en_heap e)) view in
  let outcome :=
    match sim view i (s_timestamps s) iv sv (en_world e, en_heap e) with
    | ((w, st), Err x) => (set_world_of e (w, (st, en_account e)), Err x)
    | ((w, st), Ok returned) =>
        book_market_result now view eligible states order_states returned (set_world_of e (w, (st, en_account e)))
    end in
  match outcome with
  | (e, Ok _) => (e, Ok tt)
  | (e, Err x) => (set_heap e (restore_all states (en_heap e)), Err (callback_error "market simulator failed" x))
  end.

(** [_sim_market] *)
Definition sim_market (i : nat) (now : Z) (iv sv : stage_values F) : ST engine unit := fun e =>
  match st_iter (expire_step i now) (en_current e) (en_heap e, []) with
  | ((st, _), Err x) => (set_heap e st, Err x)
  | ((st, eligible), Ok _) =>
      match st_iter (run_market_sim i now iv sv eligible) (s_market_sims s) (set_heap e st) with
      | (e, Err x) => (e, Err x)
      | (e, Ok _) => (update_current_orders e, Ok tt)
      end
  end.

(** ** One iteration *)

(** The decision on one order; a rejected one is cancelled. *)
Definition decide_step (now : Z) (accepted : list positive) (oid : positive) : engine -> engine * result (list positive) :=
  fun e =>
  match decide_order (s_risk_policies s) oid (mkContext now (en_current e ++ accepted)) (world_of e) with
  | (wd, Err x) => (set_world_of e wd, Err x)
  | (wd, Ok d) =>
      let e := set_world_of e wd in
      let e := mkEngine (en_world e) (en_heap e) (en_account e) (en_orders e) (en_current e) (en_decisions e ++ [d]) in
      match od_status d with
      | ACCEPTED => (e, Ok (accepted ++ [oid]))
      | REJECTED => (set_heap e (alter raw_cancel oid (en_heap e)), Ok accepted)
      end
  end.

Fixpoint decide_all (now : Z) (accepted orders : list positive) : engine -> engine * result (list positive) :=
  match orders with
  | [] => fun e => (e, Ok accepted)
  | oid :: orders => fun e =>
      match decide_step now accepted oid e with
      | (e, Err x) => (e, Err x)
      | (e, Ok accepted) => decide_all now accepted orders e
      end
  end.

(** One rule of the iteration. *)
Definition run_rule (i : nat) (now : Z) (iv sv : stage_values F) (t : order_tup) : ST engine unit := fun e =>
  match get_orders i t now e with
  | (e, Err x) => (e, Err x)
  | (e, Ok orders) =>
      match decide_all now [] orders e with
      | (e, Err x) => (e, Err x)
      | (e, Ok accepted) =>
          let e := mkEngine (en_world e) (en_heap e) (en_account e) (en_orders e ++ orders) (en_current e ++ accepted)
                     (en_decisions e) in
          if s_trade_lag s =? 0 then sim_market i now iv sv e else (update_current_orders e, Ok tt)
      end
  end.

(** [_run_iteration] *)
Definition run_iteration (it : SparseIterations order_tup) (iv sv : stage_values F) (i : nat) : ST engine unit := fun e =>
  match s_timestamps s !! i with
  | None => (e, Err (IndexError "timestamps"))
  | Some now =>
      match sim_market i now iv sv e with
      | (e, Err x) => (e, Err x)
      | (e, Ok _) =>
          match at_ it (Z.of_nat i) with
          | Err x => (e, Err x)
          | Ok rules => st_iter (run_rule i now iv sv) rules e
          end
      end
  end.

(** The instants [run_rules] visits: it skips those before the start date and
    stops after the end date. *)
Definition visited (start_date end_date : option Z) : list nat :=
  let before t := match start_date with Some d => t <? d | None => false end in
  let after t := match end_date with Some d => d <? t | None => false end in
  (fix go (i : nat) (l : list Z) : list nat :=
    match l with
    | [] => []
    | t :: l => if before t then go (S i) l else if after t then [] else i :: go (S i) l
    end) O (s_timestamps s).

(** [run_rules] *)
Definition run_rules (rule_names : option (arg (list (arg string)))) (contract_groups : option (arg (list (arg group))))
  (start_date end_date : date_arg) (iv sv : stage_values F) : ST engine unit := fun e =>
  match names ← validated_stage_names rule_names (s_rule_names s);
        groups ← validated_stage_groups contract_groups (s_contract_groups s);
        '(start_date, end_date) ← validate_date_range start_date end_date;
        it ← generate_order_iterations iv sv names groups start_date end_date;
        Ok (start_date, end_date, it) with
  | Err x => (e, Err x)
  | Ok (start_date, end_date, it) =>
      match st_iter (run_iteration it iv sv) (visited start_date end_date) e with
      | (e, Err x) => (e, Err x)
      | (e, Ok _) =>
          if s_run_final_calc s then
            match final_timestamp_at_or_before (s_timestamps s) end_date with
            | Err x => (e, Err x)
            | Ok None => (e, Ok tt)
            | Ok (Some final_timestamp) =>
                let '((w, a), r) := calc pf final_timestamp (en_world e, en_account e) in
                (set_world_of e (w, (en_heap e, a)), r)
            end
          else (e, Ok tt)
      end
  end.
(** [_backtest_result]: the counts of the telemetry. *)
Record BacktestTelemetry := mkTelemetry {
  tm_timestamps_processed : nat;
  tm_orders_proposed : nat;
  tm_orders_accepted : nat;
  tm_orders_rejected : Z;
  tm_orders_filled : nat;
  tm_orders_cancelled : nat;
  tm_orders_open : nat;
  tm_trades_executed : nat;
}.

Definition count {A} (p : A -> bool) (l : list A) : nat := length (filter (fun x => p x = true) l).

Definition has_status (st : heap F) (x : OrderStatus) (oid : positive) : bool :=
  match st !! oid with Some r => inst_eqb (r_status r) (Inst x) | None => false end.

Definition telemetry (e : engine) : BacktestTelemetry :=
  let accepted := count (fun d => match od_status d with ACCEPTED => true | REJECTED => false end) (en_decisions e) in
  mkTelemetry (length (s_timestamps s)) (length (en_orders e)) accepted
    (Z.of_nat (length (en_decisions e)) - Z.of_nat accepted)
    (count (has_status (en_heap e) FILLED) (en_orders e)) (count (has_status (en_heap e) CANCELLED) (en_orders e))
    (count (live (en_heap e)) (en_orders e)) (trade_count (en_account e)).

(** [_run_with_captured_provenance]: the stages of a run, in order. *)
Definition run (fuel : nat) (iv sv : stage_values F) : engine -> engine * result BacktestTelemetry := fun e =>
  match validate_stage_graph s with
  | Err x => (e, Err x)
  | Ok _ =>
      let world e w := set_world_of e (w, (en_heap e, en_account e)) in
      match run_indicators s fuel None None false (en_world e, iv) with
      | ((w, _), Err x) => (world e w, Err x)
      | ((w, iv), Ok _) =>
          match run_signals s iv fuel None None false (w, sv) with
          | ((w, _), Err x) => (world e w, Err x)
          | ((w, sv), Ok _) =>
              match run_rules None None DNone DNone iv sv (world e w) with
              | (e, Err x) => (e, Err x)
              | (e, Ok _) => (e, Ok (telemetry e))
              end
          end
      end
  end.
End Engine.

Arguments order_tup F D W : clear implicits.
Arguments engine F D W : clear implicits.

(** ** What callbacks are assumed to be *)

Section Honest.
Context `{PyFloat F} `{!Numpy F} `{!NumpySignals F} `{SortedDict D} {W : Type}.
Implicit Types (st : heap F) (r : raw_order F).

(** An object a reference denotes does not go away. *)
Definition keeps st st' : Prop := forall i, is_Some (st !! i) -> is_Some (st' !! i).

#[export] Instance keeps_preorder : PreOrder keeps.
Proof. split; [by intros st i|]. intros st1 st2 st3 H1 H2 i Hi. auto. Qed.

Lemma keeps_insert st i r : keeps st (<[i := r]> st).
Proof. intros j Hj. rewrite lookup_insert. case_decide; eauto. Qed.

Lemma keeps_alter st i f : keeps st (alter f i st).
Proof. intros j [x Hx]. rewrite lookup_alter. case_decide; subst; rewrite Hx; eauto. Qed.

Lemma keeps_restore (states : list (OrderCallbackState F)) st : keeps st (restore_all states st).
Proof. intros i [r Hr]. rewrite restore_all_lookup, Hr. eauto. Qed.

Definition sim_keeps (sim : sim_fn F W) : Prop := forall view i ts iv sv w st w' st' res,
  sim view i ts iv sv (w, st) = ((w', st'), res) -> keeps st st'.

(** Identity: the fields of a submitted order that nobody may change. *)
Definition same_identity r r' : Prop :=
  contract_is (r_contract r') (r_contract r) = true /\ r_timestamp r' = r_timestamp r /\
  r_time_in_force r' = r_time_in_force r.

Lemma guarded_identity r r' : guarded_same r r' -> same_identity r r'.
Proof. intros (?&?&?&?&?). done. Qed.

Lemma same_identity_refl r : engine_order r -> same_identity r r.
Proof. intros Hr. by apply guarded_identity, guarded_same_refl. Qed.

Lemma same_identity_trans r1 r2 r3 : same_identity r1 r2 -> same_identity r2 r3 -> same_identity r1 r3.
Proof. intros (?&?&?) (?&?&?). split_and!; [by eapply contract_is_trans|congruence|congruence]. Qed.

(** ** Fills *)

Lemma foldl_fills_get (l : list (raw_trade F)) d oid :
  default 0 (dict_get (foldl (fun d t => match rt_order t with
     | Inst oid => dict_set d oid (default 0 (dict_get d oid) + trade_quantity t) | NotInst => d end) d l) oid) =
  default 0 (dict_get d oid) + reported oid l.
Proof.
  revert d. induction l as [|t l IH]; intros d; cbn [foldl].
  { unfold reported. rewrite filter_nil. simpl. rewrite sumZ_nil. lia. }
  rewrite IH. change (t :: l) with ([t] ++ l). rewrite reported_app, reported_one.
  destruct (rt_order t) as [o|]; [|by rewrite decide_False]. rewrite dict_get_set.
  destruct (decide (oid = o)) as [->|Hne].
  - rewrite (decide_True (P:=Inst o = Inst o)) by done. simpl. lia.
  - rewrite decide_False by congruence. lia.
Qed.

Lemma reported_fills_get (trades : list (raw_trade F)) oid :
  default 0 (dict_get (reported_fills trades) oid) = reported oid trades.
Proof. unfold reported_fills. by rewrite foldl_fills_get. Qed.

(** One order after the engine applied the fill reported for it. *)
Definition settled (fill q0 : Z) r r' : Prop :=
  if py_eqb (r_qty r) (PInt q0) && negb (fill =? 0) then raw_fill r (PInt fill) = Ok r' else r' = r.

Lemma settle_fill_Ok fills x st st' :
  settle_fill fills x st = (st', Ok tt) ->
  exists r r', st !! x.1 = Some r /\ st' = <[x.1 := r']> st /\ settled (default 0 (dict_get fills x.1)) x.2.1 r r'.
Proof.
  unfold settle_fill, settled. destruct (st !! x.1) as [r|] eqn:Hr; [|done]. intros Hs. exists r.
  destruct (_ && _).
  - destruct (raw_fill _ _) as [r'|]; simplify_eq. by exists r'.
  - simplify_eq. exists r. by rewrite insert_id.
Qed.

Lemma settle_fills_keeps fills l st st' res : st_iter (settle_fill fills) l st = (st', res) -> keeps st st'.
Proof.
  apply st_iter_rel; [apply _|]. intros x s1 s2 r' _. unfold settle_fill.
  destruct (s1 !! x.1); [destruct (_ && _); [destruct (raw_fill _ _)|]|]; intros; simplify_eq; try done.
  apply keeps_insert.
Qed.

Lemma settle_fills_Ok fills (l : order_states) st st' :
  NoDup l.*1 -> st_iter (settle_fill fills) l st = (st', Ok tt) ->
  (forall oid, oid ∉ l.*1 -> st' !! oid = st !! oid) /\
  (forall oid x, (oid, x) ∈ l -> exists r r', st !! oid = Some r /\ st' !! oid = Some r' /\
     settled (default 0 (dict_get fills oid)) x.1 r r').
Proof.
  revert st. induction l as [|[oid x] l IH]; intros st Hnd; cbn [st_iter].
  { unfold mret, ST_ret. intros. simplify_eq. split; [done|]. by intros ? ? ?%elem_of_nil. }
  unfold mbind, ST_bind. csimpl in *. apply NoDup_cons in Hnd as [Hn Hnd].
  destruct (settle_fill fills (oid, x) st) as [st1 [[]|e]] eqn:Hs; [|done]. intros Hit.
  apply settle_fill_Ok in Hs as (r & r' & Hr & -> & Hset). simpl in *.
  destruct (IH _ Hnd Hit) as [H1 H2]. split.
  - intros i Hi. rewrite not_elem_of_cons in Hi. rewrite H1 by tauto. apply lookup_insert_ne. naive_solver.
  - intros i y [Heq|Hi]%elem_of_cons.
    + simplify_eq. exists r, r'. split_and!; [done| |done]. rewrite H1 by done. by rewrite lookup_insert_eq.
    + destruct (H2 i y Hi) as (r1 & r2 & Hr1 & Hr2 & Hs). exists r1, r2. split_and!; [|done|done].
      rewrite lookup_insert_ne in Hr1; [done|]. intros ->. apply Hn. by apply (list_elem_of_fmap_2 fst) in Hi.
Qed.

Lemma raw_fill_fields r v r' : raw_fill r v = Ok r' ->
  r_contract r' = r_contract r /\ r_timestamp r' = r_timestamp r /\ r_time_in_force r' = r_time_in_force r /\
  exists q, r_qty r' = PInt q.
Proof.
  unfold raw_fill. destruct (settle r) as [o|]; [|done]. intros Hf. inv_ok Hf. eauto 10.
Qed.

Lemma engine_order_qty r q : py_int (r_qty r) = Some q -> qty_of r = q.
Proof. unfold qty_of. by intros ->. Qed.

Lemma raw_fill_int r f r' : engine_order r -> raw_fill r (PInt f) = Ok r' ->
  py_int (r_qty r') = Some (qty_of r - f) /\ r_status r' = Inst (expected_fill_status (qty_of r - f)).
Proof.
  intros (c & t & tif & s & q & Hc & Ht & Htif & Hs & Hq)%engine_order_fields. unfold raw_fill, settle.
  rewrite Hc, Ht, Htif, Hs, Hq. intros Hf. inv_ok Hf. apply fill_Ok in Hbind as (_ & q' & Hw & _ & _ & ->).
  apply whole_quantity_nonzero_int in Hw as [-> _]. rewrite (engine_order_qty r q) by done. simpl.
  unfold expected_fill_status, int_isclose0. done.
Qed.

(** How an order a simulator was shown comes out: the reported fill is taken off
    its quantity once, whoever applied it. *)
Definition fill_outcome (f : Z) r0 r' : Prop :=
  same_identity r0 r' /\ py_int (r_qty r') = Some (qty_of r0 - f) /\
  (f = 0 /\ r_status r' = r_status r0 \/
   f <> 0 /\ r_status r' = Inst (expected_fill_status (qty_of r0 - f)) \/ r_status r' = Inst CANCELLED).

Lemma same_identity_engine r r' q s : engine_order r -> same_identity r r' -> py_int (r_qty r') = Some q ->
  r_status r' = Inst s -> engine_order r'.
Proof.
  rewrite !engine_order_fields. intros (c & t & tif & s0 & q0 & Hc & Ht & Htif & Hs & Hq) (Hi & ? & ?) Hq' Hs'.
  unfold contract_is in Hi. destruct (r_contract r') as [c'|] eqn:Hc'; [|done].
  exists c', t, tif, s, q. split_and!; congruence.
Qed.

Lemma fill_outcome_engine f r0 r' : engine_order r0 -> fill_outcome f r0 r' -> engine_order r'.
Proof.
  intros He (Hi & Hq & Hs). destruct (proj1 (engine_order_fields r0) He) as (c & t & tif & s0 & q0 & _ & _ & _ & Hs0 & _).
  destruct Hs as [[_ Hs]|[[_ Hs]|Hs]]; rewrite ?Hs0 in Hs; by eapply same_identity_engine.
Qed.

Lemma reconciled_settled f r0 r r' :
  engine_order r0 -> same_identity r0 r -> order_reconciled (qty_of r0) (r_status r0) f r -> settled f (qty_of r0) r r' ->
  fill_outcome f r0 r'.
Proof.
  intros He0 Hid Hrec Hset. pose proof (proj1 (engine_order_fields r0) He0) as (c & t & tif & s0 & q0 & _ & _ & _ & Hs0 & Hq0).
  apply engine_order_qty in Hq0. unfold settled in Hset.
  destruct Hrec as [[Hq Hs]|[(Hf & Hq & Hs)|(-> & Hq & Hs)]].
  - apply inst_eqb_same in Hs. rewrite (proj2 (py_eqb_int _ _) Hq) in Hset. cbn [andb] in Hset.
    destruct (f =? 0) eqn:Ef; cbn [negb] in Hset.
    + apply Z.eqb_eq in Ef as ->. subst r'. split_and!; [done|by rewrite Z.sub_0_r|auto].
    + apply Z.eqb_neq in Ef. pose proof (raw_fill_fields _ _ _ Hset) as (Hc & Ht & Htif & _).
      assert (engine_order r) as He by (eapply same_identity_engine; [exact He0|exact Hid|done|rewrite Hs; exact Hs0]).
      apply raw_fill_int in Hset as [Hq' Hs']; [|done]. apply engine_order_qty in Hq. rewrite Hq in *.
      split_and!; [|done|auto]. destruct Hid as (?&?&?). split_and!; congruence.
  - destruct (py_eqb (r_qty r) (PInt (qty_of r0))) eqn:E.
    { apply py_eqb_int in E. rewrite Hq in E. simplify_eq. lia. }
    cbn in Hset. subst r'. split_and!; [done|done|]. destruct Hs; auto.
  - rewrite Z.eqb_refl, andb_false_r in Hset. subst r'. split_and!; [done|by rewrite Z.sub_0_r|auto].
Qed.
End Honest.

(** ** One market simulator *)

Section MarketSim.
Context `{PyFloat F} `{!PyFloatEq F} `{!Numpy F} `{!NumpySignals F} `{SortedDict D} {W : Type}.
Context (s : Strategy F D W) (registry_of : W -> registry F) (pf : price_fn F W).
Implicit Types (st : heap F) (r : raw_order F) (e : engine F D W).

Lemma order_states_keys st (view : list positive) :
  (forall oid, oid ∈ view -> is_Some (st !! oid)) -> (omap (order_state st) view).*1 = view.
Proof.
  induction view as [|oid view IH]; intros Hv; [done|]. destruct (Hv oid ltac:(left)) as [r Hr].
  csimpl. unfold order_state at 1. rewrite Hr. csimpl. f_equal. apply IH. intros i Hi. apply Hv. by right.
Qed.

Lemma order_states_elem st (view : list positive) oid x :
  (oid, x) ∈ omap (order_state st) view <-> oid ∈ view /\ exists r, st !! oid = Some r /\ x = (qty_of r, r_status r).
Proof.
  rewrite list_elem_of_omap. unfold order_state. split.
  - intros (i & Hi & Hx). destruct (st !! i) as [r|] eqn:Hr; simplify_eq/=. eauto.
  - intros (Hv & r & Hr & ->). exists oid. by rewrite Hr.
Qed.

Lemma order_states_get st (view : list positive) oid r :
  NoDup view -> (forall i, i ∈ view -> is_Some (st !! i)) -> oid ∈ view -> st !! oid = Some r ->
  dict_get (omap (order_state st) view) oid = Some (qty_of r, r_status r).
Proof.
  intros Hnd Hv Hin Hr. apply dict_In_get; [unfold dict_wf, dict_keys; by rewrite order_states_keys|].
  apply order_states_elem. eauto.
Qed.

(** What the checks after a simulator established. *)
Lemma check_states_Ok eligible ids st st' :
  engine_orders ids st -> check_states eligible (capture_all st ids) st' = Ok tt ->
  forall oid r, oid ∈ ids -> st !! oid = Some r -> exists r', st' !! oid = Some r' /\
    if decide (oid ∈ eligible) then same_identity r r' else guarded_same r r'.
Proof.
  intros He Hc oid r Hin Hr. destruct (He oid Hin) as (r0 & Hr0 & Heng). simplify_eq.
  apply iterE_Ok in Hc. rewrite Forall_forall in Hc. specialize (Hc _ (capture_all_in st ids oid r Hin Hr)).
  simpl in Hc. case_bool_decide.
  - apply validate_identity_same in Hc as (r' & ? & ?). exists r'. by rewrite decide_True.
  - apply validate_unchanged_same in Hc as (r' & ? & ?); [|done]. exists r'. by rewrite decide_False.
Qed.

(** A booked batch: what the simulator reported, what the account took, and how
    each pending order comes out. *)
Definition filled_by (now : Z) (view cur : list positive) (trades : list (raw_trade F)) e e' : Prop :=
  Forall (fun t => exists oid, rt_order t = Inst oid /\ oid ∈ view /\ rt_timestamp t = Inst (Some now)) trades /\
  (forall oid r, oid ∈ cur -> oid ∉ view -> en_heap e !! oid = Some r ->
     exists r', en_heap e' !! oid = Some r' /\ guarded_same r r') /\
  (forall oid r, oid ∈ view -> en_heap e !! oid = Some r ->
     exists r', en_heap e' !! oid = Some r' /\ fill_outcome (reported oid trades) r r' /\
       0 <= qty_of r * reported oid trades /\ Z.abs (reported oid trades) <= Z.abs (qty_of r)).

Definition books (trades : list (raw_trade F)) e e' : Prop :=
  exists w new, Forall2 (fun t t' => check_account_trade (en_account e) (registry_of w) (en_heap e')
                                     (Inst t) = Ok t') trades new /\
    ac_trades (en_account e') = ac_trades (en_account e) ++ sorted_by t_timestamp new /\
    ac_timestamps (en_account e') = ac_timestamps (en_account e) /\ dict_wf (ac_symbol_pnls (en_account e')).

(** The engine's own lists, which no callback reaches. *)
Definition same_lists e e' : Prop :=
  en_orders e' = en_orders e /\ en_current e' = en_current e /\ en_decisions e' = en_decisions e.

Lemma book_market_result_lists now view eligible states os returned e e' res :
  book_market_result registry_of pf now view eligible states os returned e = (e', res) ->
  same_lists e e' /\ keeps (en_heap e) (en_heap e') /\
  (dict_wf (ac_symbol_pnls (en_account e)) -> (forall u, res <> Ok u) -> en_account e' = en_account e).
Proof.
  unfold book_market_result. destruct (check_states _ _ _); [|by intros; simplify_eq].
  destruct (validate_market_trades _ _ _ _ _) as [trades|]; [|by intros; simplify_eq].
  destruct (st_iter _ os _) as [st [[]|x]] eqn:Hs; apply settle_fills_keeps in Hs; [|by intros; simplify_eq].
  destruct trades as [|t trades]; [by intros; simplify_eq|]. cbn [en_world en_account set_heap set_world_of fst snd].
  destruct (account_add_trades _ _ _ _ _) as [[w1 a1] r1] eqn:Ha. intros. simplify_eq. split_and!; try done.
  intros Hwf Hne. simpl. eapply account_add_trades_books in Ha; [|exact Hwf]. destruct res as [u|]; [by destruct (Hne u)|done].
Qed.

Lemma book_market_result_Ok now view eligible cur st0 returned e e' :
  NoDup cur -> engine_orders cur st0 -> dict_wf (ac_symbol_pnls (en_account e)) ->
  view = filter (fun oid => oid ∈ eligible) cur ->
  book_market_result registry_of pf now view eligible (capture_all st0 cur) (omap (order_state st0) view) returned e =
    (e', Ok tt) ->
  exists trades, returned = Inst (Inst <$> trades) /\ filled_by now view cur trades (set_heap e st0) e' /\ books trades e e'.
Proof.
  intros Hnd He Hwf Hview Hb. unfold book_market_result in Hb.
  assert (NoDup view) as Hndv by (subst; by apply NoDup_filter).
  assert (forall oid, oid ∈ view -> oid ∈ cur /\ oid ∈ eligible) as Hin.
  { intros oid. subst. rewrite list_elem_of_filter. tauto. }
  assert (forall oid, oid ∈ view -> is_Some (st0 !! oid)) as Hsome.
  { intros oid Ho. destruct (He oid) as (r & -> & _); [by apply Hin|done]. }
  destruct (check_states _ _ _) as [[]|] eqn:Hck; [|done]. pose proof (check_states_Ok _ _ _ _ He Hck) as Hid.
  destruct (validate_market_trades _ _ _ _ _) as [trades|] eqn:Hv; [|done].
  assert (forall oid r, oid ∈ view -> st0 !! oid = Some r ->
    dict_get (omap (order_state st0) view) oid = Some (qty_of r, r_status r)) as Hget
    by (intros; by apply order_states_get).
  apply validate_market_trades_Ok in Hv as (Hret & Hfor & Hrec);
    [|intros oid Ho; destruct (Hsome oid Ho) as [r Hr]; rewrite (Hget _ _ Ho Hr); eauto].
  destruct (st_iter _ _ (en_heap e)) as [st1 [[]|x]] eqn:Hs; [|done].
  apply settle_fills_Ok in Hs as [Hother Hset]; [|by rewrite order_states_keys]. rewrite order_states_keys in Hother by done.
  assert (en_heap e' = st1 /\ books trades e e') as [Hst1 Hbooks].
  { destruct trades as [|t trades].
    - simplify_eq. split; [done|]. exists (en_world e), []. split_and!; [constructor|by rewrite app_nil_r|done|done].
    - cbn [en_world en_account set_heap set_world_of fst snd] in Hb.
      destruct (account_add_trades _ _ _ _ _) as [[w1 a1] r1] eqn:Ha. simplify_eq.
      apply account_add_trades_books in Ha; [|done]. change (Inst t :: (Inst <$> trades)) with (Inst <$> (t :: trades)) in Ha.
      destruct Ha as (? & ? & new & Hnew & ?). apply Forall2_fmap_l in Hnew.
      split; [done|]. exists (en_world e), new. done. }
  exists trades. split; [done|]. split; [|done]. subst st1. cbn [set_heap set_world_of en_heap fst snd]. split_and!.
  - eapply Forall_impl; [exact Hfor|]. intros t (oid & r & c & ? & ? & ? & ? & _). eauto.
  - intros oid r Hc Hnv Hr. destruct (Hid oid r Hc Hr) as (r' & Hr' & Hsame). exists r'. rewrite Hother by done.
    split; [done|]. rewrite decide_False in Hsame; [done|]. intros Hel. apply Hnv. subst. by apply list_elem_of_filter.
  - intros oid r Hin' Hr. change (st0 !! oid = Some r) in Hr. destruct (Hin oid Hin') as [Hc Hel]. destruct (Hid oid r Hc Hr) as (r1 & Hr1 & Hsame).
    rewrite decide_True in Hsame by done. destruct (Hrec oid Hin') as (q0 & s0 & r1' & Hst & Hr1' & Hb1 & Hb2 & Hrecd).
    rewrite (Hget oid r Hin' Hr) in Hst. simplify_eq. destruct (He oid Hc) as (r0 & Hr0 & Heng). simplify_eq.
    destruct (Hset oid (qty_of r, r_status r)) as (r2 & r' & Hr2 & Hr' & Hsd); [apply order_states_elem; eauto|].
    simplify_eq. rewrite reported_fills_get in Hsd. exists r'. split_and!; [done| |done|done].
    by eapply reconciled_settled.
Qed.

Lemma callback_error_form message x y :
  callback_error message x = y -> is_Exception y = true -> exists x', y = BacktestCallbackError message x'.
Proof. unfold callback_error. destruct (is_Exception x) eqn:E; intros <- Hy; [eauto|congruence]. Qed.

Lemma filter_sub {A} (P : A -> Prop) `{!forall x, Decision (P x)} (l : list A) x : x ∈ filter P l -> x ∈ l.
Proof. rewrite list_elem_of_filter. tauto. Qed.

Lemma engine_orders_sub (l l' : list positive) st :
  (forall x, x ∈ l' -> x ∈ l) -> engine_orders l st -> engine_orders l' st.
Proof. intros Hs He i Hi. auto. Qed.

(** The state a market simulator leaves, however it ends. *)
Lemma run_market_sim_spec i now iv sv eligible sim e e' res :
  sim_keeps sim -> NoDup (en_current e) -> engine_orders (en_current e) (en_heap e) ->
  dict_wf (ac_symbol_pnls (en_account e)) ->
  run_market_sim s registry_of pf i now iv sv eligible sim e = (e', res) ->
  let e1 := update_current_orders e in
  let view := filter (fun oid => oid ∈ eligible) (en_current e1) in
  same_lists e1 e' /\ keeps (en_heap e) (en_heap e') /\
  match res with
  | Ok _ => exists trades, (exists w st, sim view i (s_timestamps s) iv sv (en_world e, en_heap e) = ((w, st), Ok (Inst (Inst <$> trades)))) /\
      filled_by now view (en_current e1) trades e1 e' /\ books trades e1 e'
  | Err x => undisturbed (en_current e1) (en_heap e) (en_heap e') /\ en_account e' = en_account e /\
      (is_Exception x = true -> exists y, x = BacktestCallbackError "market simulator failed" y)
  end.
Proof.
  intros Hk Hnd He Hwf Hr e1 view. unfold run_market_sim in Hr. fold e1 in Hr. fold view in Hr. cbv zeta in Hr.
  assert (NoDup (en_current e1)) as Hnd1 by (by apply NoDup_filter).
  assert (engine_orders (en_current e1) (en_heap e)) as He1
    by (eapply engine_orders_sub; [|exact He]; intros x; apply filter_sub).
  destruct (sim view i (s_timestamps s) iv sv (en_world e1, en_heap e1)) as [[w st] [returned|x]] eqn:Hs;
    pose proof (Hk _ _ _ _ _ _ _ _ _ _ Hs) as Hks; change (en_heap e1) with (en_heap e) in *.
  2:{ simplify_eq. split_and!; try done; [etrans; [exact Hks|apply keeps_restore]| |].
      - by apply restore_undisturbed.
      - by eapply callback_error_form. }
  set (e2 := set_world_of e1 (w, (st, en_account e1))) in *.
  destruct (book_market_result _ _ _ _ _ _ _ _ _) as [e3 [[]|x]] eqn:Hb; simplify_eq;
    pose proof Hb as (Hl & Hk3 & Hacc)%book_market_result_lists.
  - split_and!; [done|etrans; [exact Hks|exact Hk3]|].
    eapply book_market_result_Ok in Hb as (trades & -> & Hf & Hbk); [|done|done|done|done]. exists trades. split; [by exists w, st|done].
  - assert (keeps (en_heap e) (en_heap e3)) as Hk1 by (etrans; [exact Hks|exact Hk3]).
    split_and!; try done; [etrans; [exact Hk1|apply keeps_restore]| | |].
    + by apply restore_undisturbed.
    + simpl. by apply Hacc.
    + by eapply callback_error_form.
Qed.
End MarketSim.
