(* ===== verification/Simulators.v ===== *)
(** * Market simulators: [strategy_components.py]

    [SimpleMarketSimulator] prices market and limit orders and fills them whole;
    the two legs of a roll fill together or not at all.  [VWAPMarketSimulator]
    fills VWAP orders at their window's end, or in part when their stop is hit.
    Both mutate the live orders they fill. *)

From S2P Require Import Roundtrip Prelude Numeric Vendor Boundaries Instruments Contracts Orders Fifo ContractPnl.
From S2P Require Import Inputs Costs Account Callbacks Sparse Stages Risk Strategy Engine.
From Stdlib Require Import SpecFloat.

Open Scope Z_scope.

Section Simulators.
Context `{PyFloat F} `{!Numpy F} {W : Type}.

(** ** [SimpleMarketSimulator] *)

Record SimpleMarketSimulator := mkSimulator {
  sm_price_func : price_fn F W;
  sm_price_rounding : nat;
  sm_post_trade_func : option (raw_trade F -> ST (W * heap F) unit);
  sm_slippage_model : SlippageModel F;
  sm_commission_model : ChargeModel F;
  sm_fee_model : ChargeModel F;
}.

(** [__init__]: absent models are built from the percentages. *)
Definition SimpleMarketSimulator_init (price_func : price_fn F W) (slippage_pct commission : F) (price_rounding : nat)
  (post_trade_func : option (raw_trade F -> ST (W * heap F) unit)) (slippage_model : option (SlippageModel F))
  (commission_model fee_model : option (ChargeModel F)) : result SimpleMarketSimulator :=
  slippage ← match slippage_model with
             | Some m => Ok m
             | None => _ ← FixedPercentageSlippage_post_init slippage_pct; Ok (FixedPercentageSlippage_adjustment slippage_pct)
             end;
  commissions ← match commission_model with
                | Some m => Ok m
                | None => _ ← PerUnitCharge_post_init commission; Ok (PerUnitCharge_charge commission)
                end;
  fees ← match fee_model with
         | Some m => Ok m
         | None => _ ← PerUnitCharge_post_init f_zero; Ok (PerUnitCharge_charge f_zero)
         end;
  Ok (mkSimulator price_func price_rounding post_trade_func slippage commissions fees).

(** One validated price. *)
Definition quoted (pf : price_fn F W) (c : contract F) (timestamps : list Z) (i : nat) : ST W F := fun w =>
  let '(w, r) := pf w c timestamps i in (w, r ≫= fun v => validate_price_value v true).

(** The components of a basket, until the price is missing. *)
Fixpoint basket_quoted (pf : price_fn F W) (timestamps : list Z) (i : nat) (components : list (contract F * F)) (raw_price : F)
  : ST W F := fun w =>
  match components with
  | [] => (w, Ok raw_price)
  | (c, ratio) :: components =>
      match quoted pf c timestamps i w with
      | (w, Err e) => (w, Err e)
      | (w, Ok p) =>
          let raw_price := f_add raw_price (f_mul p ratio) in
          if f_isnan raw_price then (w, Ok raw_price) else basket_quoted pf timestamps i components raw_price w
      end
  end.

Definition market_price (pf : price_fn F W) (c : contract F) (timestamps : list Z) (i : nat) : ST W F :=
  if is_basket c then basket_quoted pf timestamps i (c_components c) f_zero else quoted pf c timestamps i.

(** [value > 0] of a scalar. *)
Definition num_pos (v : pyval F) : result bool :=
  match v with
  | PBool b | PNpBool b => Ok b
  | PInt z | PNpInt z => Ok (0 <? z)
  | PFloat x | PNpFloat x => Ok (f_ltb f_zero x)
  | _ => Err (TypeError "'>' not supported")
  end.
Definition num_neg (v : pyval F) : result bool :=
  match v with
  | PBool b | PNpBool b => Ok false
  | PInt z | PNpInt z => Ok (z <? 0)
  | PFloat x | PNpFloat x => Ok (f_ltb x f_zero)
  | _ => Err (TypeError "'<' not supported")
  end.

(** A limit order trades when the price is no worse than its limit. *)
Definition is_marketable (o : raw_order F) (price : F) : result bool :=
  match r_kind o with
  | RLimit limit_price =>
      limit ← finite_real limit_price;
      buy ← num_pos (r_qty o);
      sell ← num_neg (r_qty o);
      Ok (buy && f_leb price limit || sell && f_leb limit price)
  | _ => Ok true
  end.

(** The object [Trade.__init__] makes. *)
Definition trade_object (oid : positive) (t : trade F) : raw_trade F :=
  RawTrade (Inst (t_contract t)) (Inst oid) (Inst (Some (t_timestamp t))) (PInt (t_qty t)) (PFloat (t_price t))
    (PFloat (t_fee t)) (PFloat (t_commission t)) (t_properties t).

Definition Trade_new (st : heap F) (c : contract F) (oid : positive) (timestamp : Z) (qty : pyval F) (price fee commission : F)
  : result (raw_trade F) :=
  trade_object oid <$> check_trade st (RawTrade (Inst c) (Inst oid) (Inst (Some timestamp)) qty (PFloat price) (PFloat fee)
                                         (PFloat commission) []).

(** The trade of an order at a market price that is there. *)
Definition execute (sim : SimpleMarketSimulator) (st : heap F) (oid : positive) (o : raw_order F) (c : contract F)
  (timestamp : Z) (raw_price : F) : result (option (raw_trade F)) :=
  slippage ← sm_slippage_model sim o raw_price;
  price ← validate_price_value (PFloat (f_add raw_price slippage)) false;
  let price := f_round price (sm_price_rounding sim) in
  marketable ← is_marketable o price;
  if marketable : bool then
    commission ← sm_commission_model sim o price;
    fee ← sm_fee_model sim o price;
    Some <$> Trade_new st c oid timestamp (r_qty o) price fee commission
  else Ok None.

(** One order of the first loop: its candidate trade. *)
Definition candidate (sim : SimpleMarketSimulator) (st : heap F) (timestamps : list Z) (i : nat) (timestamp : Z) (oid : positive)
  : ST W (option (raw_trade F)) := fun w =>
  match st !! oid with
  | None => (w, Err (AttributeError "contract"))
  | Some o =>
      match r_kind o with
      | RStopLimit _ _ => (w, Err (ValueError "StopLimitOrder is deprecated and cannot be executed"))
      | RMarket | RLimit _ =>
          match r_contract o with
          | NotInst => (w, Err (AttributeError "is_basket"))
          | Inst c =>
              match market_price (sm_price_func sim) c timestamps i w with
              | (w, Err e) => (w, Err e)
              | (w, Ok raw_price) =>
                  if f_isnan raw_price then (w, Ok None)
                  else (w, execute sim st oid o c timestamp raw_price)
              end
          end
      | _ => (w, Ok None)
      end
  end.

Fixpoint candidate_trades (sim : SimpleMarketSimulator) (st : heap F) (timestamps : list Z) (i : nat) (timestamp : Z) (orders : list positive)
  : ST W (list (raw_trade F)) := fun w =>
  match orders with
  | [] => (w, Ok [])
  | oid :: orders =>
      match candidate sim st timestamps i timestamp oid w with
      | (w, Err e) => (w, Err e)
      | (w, Ok t) =>
          match candidate_trades sim st timestamps i timestamp orders w with
          | (w, Err e) => (w, Err e)
          | (w, Ok l) => (w, Ok (match t with Some t => t :: l | None => l end))
          end
      end
  end.

(** [getattr(order.properties, "_gambit_roll_id", None)]; absent and [None] alike. *)
Definition roll_id (o : raw_order F) : option (pyval F) :=
  match dict_get (r_properties o) "_gambit_roll_id"%string with
  | None | Some PNone => None
  | Some v => Some v
  end.

Definition roll_id_of (st : heap F) (oid : positive) : option (pyval F) := st !! oid ≫= roll_id.
Definition trade_order (t : raw_trade F) : positive := match rt_order t with Inst oid => oid | NotInst => 1%positive end.

(** [counts[roll_id] = counts.get(roll_id, 0) + 1] *)
Fixpoint bump (counts : list (pyval F * nat)) (id : pyval F) : list (pyval F * nat) :=
  match counts with
  | [] => [(id, 1%nat)]
  | (k, n) :: counts => if py_eqb k id then (k, S n) :: counts else (k, n) :: bump counts id
  end.

Fixpoint count_of (counts : list (pyval F * nat)) (id : pyval F) : option nat :=
  match counts with
  | [] => None
  | (k, n) :: counts => if py_eqb k id then Some n else count_of counts id
  end.

Definition roll_counts (st : heap F) (orders : list positive) : list (pyval F * nat) :=
  foldl (fun counts oid => match roll_id_of st oid with Some id => bump counts id | None => counts end) [] orders.

(** A leg of a roll trades only when both do. *)
Definition roll_complete (order_counts trade_counts : list (pyval F * nat)) (st : heap F) (t : raw_trade F) : bool :=
  match roll_id_of st (trade_order t) with
  | None => true
  | Some id => bool_decide (count_of trade_counts id = count_of order_counts id) && bool_decide (count_of order_counts id = Some 2%nat)
  end.

(** [trade.order.fill()], then the user's hook. *)
Definition fill_trade (sim : SimpleMarketSimulator) (t : raw_trade F) : ST (W * heap F) unit := fun '(w, st) =>
  match st !! trade_order t with
  | None => ((w, st), Err (AttributeError "fill"))
  | Some o =>
      match raw_fill o (PFloat f_nan) with
      | Err e => ((w, st), Err e)
      | Ok o =>
          let st := <[trade_order t := o]> st in
          match sm_post_trade_func sim with None => ((w, st), Ok tt) | Some f => f t (w, st) end
      end
  end.

(** [__call__] *)
Definition SimpleMarketSimulator_call (sim : SimpleMarketSimulator) : sim_fn F W := fun orders i timestamps _ _ '(w, st) =>
  match timestamp_at timestamps i with
  | Err e => ((w, st), Err e)
  | Ok timestamp =>
      match candidate_trades sim st timestamps i timestamp orders w with
      | (w, Err e) => ((w, st), Err e)
      | (w, Ok candidate_list) =>
          let roll_order_counts := roll_counts st orders in
          let roll_trade_counts := roll_counts st (trade_order <$> candidate_list) in
          let trades := filter (fun t => roll_complete roll_order_counts roll_trade_counts st t = true) candidate_list in
          match st_iter (fill_trade sim) trades (w, st) with
          | (s, Err e) => (s, Err e)
          | (s, Ok _) => (s, Ok (Inst (Inst <$> trades)))
          end
      end
  end.

(** ** [VWAPMarketSimulator] *)

Record VWAPMarketSimulator := mkVwap {
  vs_price_indicator : string;
  vs_volume_indicator : string;
  vs_backup_price_indicator : option string;
}.

(** An indicator as an array of floats. *)
Definition float_values (l : values F) : result (list F) := foldE (fun acc v => x ← num_float v; Ok (acc ++ [x])) [] l.

Definition array_at (l : list F) (i : nat) : result F :=
  match l !! i with Some x => Ok x | None => Err (IndexError "index is out of bounds") end.

(** [math.isfinite(stop)], and the comparison with the price at [i]. *)
Definition stop_hit (stop : pyval F) (qty : pyval F) (prices : list F) (i : nat) : result bool :=
  s ← num_float stop;
  if f_isfinite s then
    sell ← num_neg qty;
    price ← array_at prices i;
    Ok (if sell : bool then f_leb s price else f_leb price s)
  else Ok false.

(** Prices and volumes between two instants, where both are positive. *)
Definition window (timestamps : list Z) (prices volumes : list F) (from to : Z) : result (list (F * F)) :=
  unless bool_decide (length prices = length timestamps) && bool_decide (length volumes = length timestamps)
    raise ValueError "operands could not be broadcast together" ;;
  Ok (omap (fun '(t, (p, v)) =>
              if f_ltb f_zero p && f_ltb f_zero v && (from <=? t) && (t <=? to) then Some (p, v) else None)
        (zip timestamps (zip prices volumes))).

(** The part of the order that a stop fills: the part of its window that passed. *)
Definition stopped_quantity (qty : F) (timestamp order_timestamp vwap_end : Z) : F :=
  let duration_ns := vwap_end - order_timestamp in
  let fill_fraction :=
    if duration_ns <=? 0 then f_one
    else f_min (f_max (f_ratio (timestamp - order_timestamp) (Z.to_pos duration_ns)) f_zero) f_one in
  f_of_Z (f_trunc (f_mul qty fill_fraction)).

(** The validation of the VWAP orders of the set. *)
Definition validate_vwap (st : heap F) (oid : positive) : result unit :=
  match st !! oid with
  | None => Err (AttributeError "vwap_end_time")
  | Some o =>
      match r_kind o with
      | RVWAP stop end_time => _ ← validate_window (r_timestamp o) end_time; validate_stop stop
      | _ => Ok tt
      end
  end.

(** The execution price of a window, or the backup price. *)
Definition vwap_price (sim : VWAPMarketSimulator) (inds : namespace F) (i : nat) (amounts : list (F * F)) : result F :=
  match amounts with
  | [] =>
      match vs_backup_price_indicator sim with
      | None => Err (PQException "backup price indicator not found and no vwap found")
      | Some name => l ← get_attr inds name; x ← float_values l; array_at x i
      end
  | _ => Ok (f_div (np_sum ((fun '(p, v) => f_mul p v) <$> amounts)) (np_sum amounts.*2))
  end.

(** What a VWAP order does at an instant: it waits, or it ends, on its stop or at
    the end of its window, with an execution price. *)
Inductive vwap_decision :=
  | Waits
  | Ends (c : contract F) (end_order : bool) (vwap : F) (order_timestamp vwap_end : Z).

Definition vwap_decide (sim : VWAPMarketSimulator) (indicators : stage_values F) (i : nat) (timestamps : list Z) (timestamp : Z)
  (o : raw_order F) (stop : pyval F) (end_time : arg (option Z)) : result vwap_decision :=
  match r_contract o with
  | NotInst => Err (AttributeError "contract_group")
  | Inst c =>
      inds ← match dict_get indicators (cg_name (c_contract_group c)) with
             | None => Err (PQException "indicators not found for contract group")
             | Some inds => Ok inds
             end;
      prices ← (l ← get_attr inds (vs_price_indicator sim); float_values l);
      volumes ← (l ← get_attr inds (vs_volume_indicator sim); float_values l);
      end_order ← stop_hit stop (r_qty o) prices i;
      vwap_end ← validate_window (r_timestamp o) end_time;
      let last_of_day := match timestamps !! S i with Some t => day_of timestamp <? day_of t | None => false end in
      if negb end_order && (timestamp <? vwap_end) && negb (bool_decide (S i = length timestamps)) && negb last_of_day
      then Ok Waits
      else
        order_timestamp ← match r_timestamp o with Inst (Some t) => Ok t | _ => Err (ValueError "order timestamp") end;
        let until := if end_order : bool then timestamp else Z.min vwap_end timestamp in
        amounts ← window timestamps prices volumes order_timestamp until;
        vwap ← vwap_price sim inds i amounts;
        vwap ← validate_price_value (PFloat vwap) false;
        whenever f_ltb vwap f_zero raise ValueError "VWAP execution price cannot be negative" ;;
        Ok (Ends c end_order vwap order_timestamp vwap_end)
  end.

(** The quantity filled; [None] cancels the order without a fill. *)
Definition vwap_quantity (o : raw_order F) (end_order : bool) (timestamp order_timestamp vwap_end : Z) : result (option (pyval F)) :=
  if end_order then
    qty ← num_float (r_qty o);
    let fill_qty := stopped_quantity qty timestamp order_timestamp vwap_end in
    Ok (if f_isclose fill_qty f_zero then None else Some (PFloat fill_qty))
  else Ok (Some (r_qty o)).

(** One VWAP order: the order is filled and cancelled, then the trade is made. *)
Definition vwap_order (sim : VWAPMarketSimulator) (indicators : stage_values F) (i : nat) (timestamps : list Z) (timestamp : Z)
  (oid : positive) (o : raw_order F) (stop : pyval F) (end_time : arg (option Z)) : ST (heap F) (option (raw_trade F)) := fun st =>
  match vwap_decide sim indicators i timestamps timestamp o stop end_time with
  | Err e => (st, Err e)
  | Ok Waits => (st, Ok None)
  | Ok (Ends c end_order vwap order_timestamp vwap_end) =>
      match vwap_quantity o end_order timestamp order_timestamp vwap_end with
      | Err e => (st, Err e)
      | Ok None => (<[oid := raw_cancel o]> st, Ok None)
      | Ok (Some quantity) =>
          match raw_fill o quantity with
          | Err e => (st, Err e)
          | Ok o =>
              let st := <[oid := raw_cancel o]> st in
              (st, Some <$> Trade_new st c oid timestamp quantity vwap f_zero f_zero)
          end
      end
  end.

(** The second loop: orders one by one. *)
Fixpoint vwap_orders (sim : VWAPMarketSimulator) (indicators : stage_values F) (i : nat) (timestamps : list Z) (timestamp : Z)
  (orders : list positive) (trades : list (raw_trade F)) : ST (heap F) (list (raw_trade F)) := fun st =>
  match orders with
  | [] => (st, Ok trades)
  | oid :: orders =>
      match st !! oid with
      | None => (st, Err (AttributeError "contract"))
      | Some o =>
          match r_kind o with
          | RVWAP stop end_time =>
              match vwap_order sim indicators i timestamps timestamp oid o stop end_time st with
              | (st, Err e) => (st, Err e)
              | (st, Ok t) =>
                  vwap_orders sim indicators i timestamps timestamp orders
                    (match t with Some t => trades ++ [t] | None => trades end) st
              end
          | _ => vwap_orders sim indicators i timestamps timestamp orders trades st
          end
      end
  end.

(** [__call__] *)
Definition VWAPMarketSimulator_call (sim : VWAPMarketSimulator) : sim_fn F W := fun orders i timestamps indicators _ '(w, st) =>
  match timestamp ← timestamp_at timestamps i; _ ← iterE (validate_vwap st) orders; Ok timestamp with
  | Err e => ((w, st), Err e)
  | Ok timestamp =>
      match vwap_orders sim indicators i timestamps timestamp orders [] st with
      | (st, Err e) => ((w, st), Err e)
      | (st, Ok trades) => ((w, st), Ok (Inst (Inst <$> trades)))
      end
  end.
End Simulators.

Arguments SimpleMarketSimulator F W : clear implicits.
