(* ===== verification/Rules.v ===== *)
(** * Trading rules: [strategy_components.py]

    Each rule is a callback of the engine: it sizes orders from equity and
    prices, creates the order objects and returns them.  [registry_of] finds the
    contracts in the state of the program, [pf] prices the account. *)

From S2P Require Import Roundtrip Prelude Numeric Vendor Boundaries Instruments Contracts Orders Fifo ContractPnl.
From S2P Require Import Inputs Costs Account Callbacks Sparse Stages Risk Strategy Engine Simulators.
From Stdlib Require Import SpecFloat Qcanon Lqa.

Open Scope Z_scope.

Section Rules.
Context `{PyFloat F} `{!Numpy F} `{SortedDict D} {W : Type}.
Context (registry_of : W -> registry F) (pf : price_fn F W).

(** [_nonnegative_fraction] *)
Definition nonnegative_fraction (value : F) : result unit :=
  nonnegative_finite value "must be finite and non-negative".

(** [_entry_price] *)
Definition entry_price (value : pyval F) : result F :=
  price ← validate_price_value value true;
  whenever negb (f_isnan price) && f_leb price f_zero raise ValueError "entry sizing requires a positive price" ;;
  Ok price.

(** [_entry_quantity] *)
Definition entry_quantity (equity fraction price_distance multiplier : F) : result F :=
  _ ← nonnegative_fraction fraction;
  unless f_isfinite equity raise ValueError "entry sizing equity must be finite" ;;
  unless f_isfinite price_distance && negb (f_leb price_distance f_zero)
    raise ValueError "entry sizing price/stop distance must be finite and positive" ;;
  let unit_cost := f_mul price_distance multiplier in
  let budget := f_mul (f_max equity f_zero) fraction in
  unless f_isfinite unit_cost && negb (f_leb unit_cost f_zero) && f_isfinite budget
    raise ValueError "entry sizing monetary amount is out of range" ;;
  let quantity := f_div budget unit_cost in
  unless f_isfinite quantity raise ValueError "entry sizing quantity is out of range" ;;
  Ok quantity.

(** ** Access to the world *)

Definition world_price (price_func : price_fn F W) (c : contract F) (timestamps : list Z) (i : nat) : ST (world F D W) (pyval F) :=
  fun '(w, x) => let '(w, r) := price_func w c timestamps i in ((w, x), r).

Definition world_equity (timestamp : Z) : ST (world F D W) F := fun '(w, (st, a)) =>
  let '((w, a), r) := equity pf timestamp (w, a) in ((w, (st, a)), r).

(** A validated entry price. *)
Definition world_entry_price (price_func : price_fn F W) (c : contract F) (timestamps : list Z) (i : nat) : ST (world F D W) F :=
  v ← world_price price_func c timestamps i; st_lift (entry_price v).

(** The constructor of an order class: a new object. *)
Definition new_order (r : raw_order F) : ST (world F D W) positive := fun '(w, (st, a)) =>
  match mk_order r with
  | Err e => ((w, (st, a)), Err e)
  | Ok o => let '(st, oid) := alloc st (unsettle o) in ((w, (st, a)), Ok oid)
  end.

Definition order_terms (c : contract F) (timestamp qty : Z) (reason_code : string) (tif : TimeInForce) (k : raw_kind F) : raw_order F :=
  RawOrder (Inst c) (Inst (Some timestamp)) (PInt qty) reason_code (Inst tif) [] (Inst OPEN) k.

(** What a rule does for one contract: no order, no orders at all, or an order. *)
Inductive entry := Skip | Stop | Place (oid : positive).

Fixpoint for_contracts {A} (body : A -> ST (world F D W) entry) (l : list A) (orders : list positive)
  : ST (world F D W) (list positive) := fun s =>
  match l with
  | [] => (s, Ok orders)
  | c :: l =>
      match body c s with
      | (s, Err e) => (s, Err e)
      | (s, Ok Skip) => for_contracts body l orders s
      | (s, Ok Stop) => (s, Ok [])
      | (s, Ok (Place oid)) => for_contracts body l (orders ++ [oid]) s
      end
  end.

(** A rule's return value. *)
Definition returned (l : list positive) : arg (list (arg positive)) := Inst (Inst <$> l).

Definition contracts_of (g : group) : ST (world F D W) (list (contract F)) := fun s => (s, Ok (get_contracts g (registry_of s.1))).

Definition timestamp_of (timestamps : list Z) (i : nat) : ST (world F D W) Z := st_lift (timestamp_at timestamps i).

(** ** [PercentOfEquityTradingRule] *)

Record PercentOfEquityTradingRule := mkPercentOfEquity {
  pe_reason_code : string;
  pe_price_func : price_fn F W;
  pe_equity_percent : F;
  pe_long : bool;
  pe_allocate_risk : bool;
  pe_limit_increment : F;
}.

Definition PercentOfEquityTradingRule_post_init (rule : PercentOfEquityTradingRule) : result unit :=
  nonnegative_fraction (pe_equity_percent rule).

(** The whole quantity, rounded towards zero. *)
Definition percent_quantity (rule : PercentOfEquityTradingRule) (quantity : F) (n : nat) : Z :=
  let quantity := if pe_allocate_risk rule then f_div quantity (f_of_Z (Z.of_nat n)) else quantity in
  let quantity := if pe_long rule then quantity else f_mul quantity (f_of_Z (-1)) in
  if f_ltb f_zero quantity then f_floor quantity else f_ceil quantity.

Definition percent_entry (rule : PercentOfEquityTradingRule) (timestamps : list Z) (i : nat) (timestamp : Z) (n : nat) (c : contract F)
  : ST (world F D W) entry :=
  entry_price_est ← world_entry_price (pe_price_func rule) c timestamps i;
  if f_isnan entry_price_est then mret Stop
  else
    curr_equity ← world_equity timestamp;
    quantity ← st_lift (entry_quantity curr_equity (pe_equity_percent rule) entry_price_est (c_multiplier c));
    let order_qty := percent_quantity rule quantity n in
    if int_isclose0 order_qty then mret Skip
    else
      let kind := if f_isfinite (pe_limit_increment rule)
                  then RLimit (PNpFloat (f_sub entry_price_est (f_mul (f_of_Z (Z.sgn order_qty)) (pe_limit_increment rule))))
                  else RMarket in
      Place <$> new_order (order_terms c timestamp order_qty (pe_reason_code rule) FOK kind).

Definition PercentOfEquityTradingRule_call (rule : PercentOfEquityTradingRule) : rule_fn F D W :=
  fun g i timestamps _ _ _ =>
  timestamp ← timestamp_of timestamps i;
  contracts ← contracts_of g;
  returned <$> for_contracts (percent_entry rule timestamps i timestamp (length contracts)) contracts [].

(** ** [VWAPEntryRule] *)

Record VWAPEntryRule := mkVWAPEntry {
  ve_reason_code : string;
  ve_vwap_minutes : Z;
  ve_price_func : price_fn F W;
  ve_long : bool;
  ve_percent_of_equity : F;
  ve_stop_price_ind : option string;
  ve_min_price_diff_pct : F;
  ve_single_entry_per_day : bool;
}.

(** [__init__], on arguments of any type. *)
Definition VWAPEntryRule_init (reason_code : string) (vwap_minutes : pyval F) (price_func : price_fn F W) (long : bool)
  (percent_of_equity : F) (stop_price_ind : pyval F) (min_price_diff_pct : F) (single_entry_per_day : bool) : result VWAPEntryRule :=
  _ ← nonnegative_fraction percent_of_equity;
  _ ← nonnegative_fraction min_price_diff_pct;
  minutes ← match vwap_minutes with
            | PInt m | PNpInt m => if 0 <? m then Ok m else Err (ValueError "vwap_minutes must be a positive integer")
            | _ => Err (ValueError "vwap_minutes must be a positive integer")
            end;
  stop ← match stop_price_ind with
         | PNone => Ok None
         | PStr s => if String.eqb s "" then Err (ValueError "stop_price_ind must be a non-empty string or None") else Ok (Some s)
         | _ => Err (ValueError "stop_price_ind must be a non-empty string or None")
         end;
  Ok (mkVWAPEntry reason_code minutes price_func long percent_of_equity stop min_price_diff_pct single_entry_per_day).

(** Whether an open order of the group is pending. *)
Definition pending_in (g : group) (st : heap F) (current_orders : list positive) : bool :=
  existsb (fun oid => match st !! oid with
                      | Some r => of_group g r && raw_is_open r
                      | None => false
                      end) current_orders.

Definition traded_on (a : Account F D) (date : Z) (contracts : list (contract F)) : bool :=
  existsb (fun c => negb (bool_decide (length (get_trades_for_date a (c_symbol c) date) = 0%nat))) contracts.

Definition ns_per_minutes (minutes : Z) : Z := minutes * ns_per_minute.

(** The stop price and the distance to it; [None] when it is too close to enter. *)
Definition vwap_stop_distance (rule : VWAPEntryRule) (indicators : namespace F) (i : nat) (entry_price_est : F)
  : result (option (pyval F * F)) :=
  match ve_stop_price_ind rule with
  | None => Ok (Some (PFloat f_nan, entry_price_est))
  | Some name =>
      l ← get_attr indicators name;
      stop_price ← match l !! i with Some v => Ok v | None => Err (IndexError "index is out of bounds") end;
      stop ← num_float stop_price;
      let distance := if ve_long rule then f_sub entry_price_est stop else f_sub stop entry_price_est in
      unless f_isfinite distance && negb (f_leb distance f_zero)
        raise ValueError "VWAP stop must be finite and on the loss side of the entry price" ;;
      Ok (if f_ltb distance (f_mul (ve_min_price_diff_pct rule) entry_price_est) then None else Some (stop_price, distance))
  end.

Definition vwap_entry (rule : VWAPEntryRule) (indicators : namespace F) (timestamps : list Z) (i : nat) (timestamp : Z) (n : nat)
  (c : contract F) : ST (world F D W) entry :=
  entry_price_est ← world_entry_price (ve_price_func rule) c timestamps i;
  if f_isnan entry_price_est then mret Stop
  else
    stop ← st_lift (vwap_stop_distance rule indicators i entry_price_est);
    match stop with
    | None => mret Stop
    | Some (stop_price, distance) =>
        curr_equity ← world_equity timestamp;
        quantity ← st_lift (entry_quantity curr_equity (ve_percent_of_equity rule) distance (c_multiplier c));
        let order_qty := f_floor (f_div quantity (f_of_Z (Z.of_nat n))) * (if ve_long rule then 1 else -1) in
        if int_isclose0 order_qty then mret Skip
        else
          let vwap_end_time := wrap64 (timestamp + ns_per_minutes (ve_vwap_minutes rule)) in
          Place <$> new_order (order_terms c timestamp order_qty (ve_reason_code rule) GTC (RVWAP stop_price (Inst (Some vwap_end_time))))
    end.

Definition VWAPEntryRule_call (rule : VWAPEntryRule) : rule_fn F D W :=
  fun g i timestamps indicators _ current_orders =>
  timestamp ← timestamp_of timestamps i;
  contracts ← contracts_of g;
  s ← st_get;
  if ve_single_entry_per_day rule && traded_on s.2.2 (day_of timestamp) contracts then mret (returned [])
  else if pending_in g s.2.1 current_orders then mret (returned [])
  else returned <$> for_contracts (vwap_entry rule indicators timestamps i timestamp (length contracts)) contracts [].

(** ** [VWAPCloseRule] *)

Record VWAPCloseRule := mkVWAPClose { vc_reason_code : string; vc_vwap_minutes : Z }.

Definition world_positions (g : group) (timestamp : Z) : ST (world F D W) (list (contract F * Z)) := fun s =>
  (s, positions s.2.2 (registry_of s.1) g timestamp).

Definition vwap_close (rule : VWAPCloseRule) (timestamp : Z) (p : contract F * Z) : ST (world F D W) entry :=
  let vwap_end_time := wrap64 (timestamp + ns_per_minutes (vc_vwap_minutes rule)) in
  Place <$> new_order (order_terms p.1 timestamp (- p.2) (vc_reason_code rule) GTC (RVWAP (PFloat f_nan) (Inst (Some vwap_end_time)))).

Definition VWAPCloseRule_call (rule : VWAPCloseRule) : rule_fn F D W := fun g i timestamps _ _ current_orders =>
  timestamp ← timestamp_of timestamps i;
  s ← st_get;
  if pending_in g s.2.1 current_orders then mret (returned [])
  else positions ← world_positions g timestamp; returned <$> for_contracts (vwap_close rule timestamp) positions [].

(** ** [BracketOrderEntryRule] *)

(** A contract filter sees what the rule sees. *)
Definition contract_filter : Type :=
  group -> nat -> list Z -> namespace F -> values F -> list positive -> ST (world F D W) (list string).

Record BracketOrderEntryRule := mkBracket {
  be_reason_code : string;
  be_price_func : price_fn F W;
  be_long : bool;
  be_percent_of_equity : F;
  be_min_stop_return : F;
  be_max_position_size : F;
  be_single_entry_per_day : bool;
  be_contract_filter : option contract_filter;
  be_stop_return_func : option (price_fn F W);
}.

Definition BracketOrderEntryRule_init (rule : BracketOrderEntryRule) : result BracketOrderEntryRule :=
  _ ← nonnegative_fraction (be_percent_of_equity rule);
  _ ← nonnegative_fraction (be_max_position_size rule);
  unless f_isfinite (be_min_stop_return rule) && f_leb (be_min_stop_return rule) f_zero
    raise ValueError "min_stop_return must be finite and non-positive" ;;
  Ok rule.

(** The contracts: those the filter names and that exist, or those of the group. *)
Definition bracket_contracts (rule : BracketOrderEntryRule) (g : group) (i : nat) (timestamps : list Z) (indicators : namespace F)
  (signals : values F) (current_orders : list positive) : ST (world F D W) (list (contract F)) :=
  match be_contract_filter rule with
  | None => contracts_of g
  | Some f => fun s =>
      match f g i timestamps indicators signals current_orders s with
      | (s, Err e) => (s, Err e)
      | (s, Ok names) => (s, Ok (omap (fun name => Contract_get name (registry_of s.1)) names))
      end
  end.

(** The distance at risk; [None] when the stop is too close, or not on the loss
    side of the price. *)
Definition bracket_distance (rule : BracketOrderEntryRule) (entry_price_est : F) (stop_return : option F) : result (option F) :=
  match stop_return with
  | None => Ok (Some entry_price_est)
  | Some stop_return =>
      unless f_isfinite stop_return && negb (f_leb f_zero stop_return) raise ValueError "stop_return must be finite and negative" ;;
      if f_ltb (be_min_stop_return rule) stop_return then Ok None
      else
        let stop_return := if be_long rule then stop_return else f_opp stop_return in
        let stop_price := f_mul entry_price_est (f_add f_one stop_return) in
        if (if be_long rule then f_leb entry_price_est stop_price else f_leb stop_price entry_price_est) then Ok None
        else Ok (Some (f_abs (f_mul entry_price_est stop_return)))
  end.

(** The quantity: at most the one whose loss at the stop is the budget, and at most
    the largest position size. *)
Definition bracket_quantity (rule : BracketOrderEntryRule) (curr_equity price_distance entry_price_est multiplier : F) : result Z :=
  quantity ← entry_quantity curr_equity (be_percent_of_equity rule) price_distance multiplier;
  quantity ← (if f_ltb f_zero (be_max_position_size rule) then
                max_qty ← entry_quantity curr_equity (be_max_position_size rule) entry_price_est multiplier;
                let sign := if f_ltb f_zero quantity then f_one else if f_ltb quantity f_zero then f_of_Z (-1) else f_zero in
                Ok (if f_ltb max_qty (f_abs quantity) then f_mul max_qty sign else quantity)
              else Ok quantity);
  let order_qty := f_floor quantity in
  Ok (if be_long rule then order_qty else - order_qty).

Definition bracket_stop_return (rule : BracketOrderEntryRule) (timestamps : list Z) (i : nat) (c : contract F) : ST (world F D W) (option F) :=
  match be_stop_return_func rule with
  | None => mret None
  | Some f => v ← world_price f c timestamps i; x ← st_lift (num_float v); mret (Some x)
  end.

Definition bracket_entry (rule : BracketOrderEntryRule) (timestamps : list Z) (i : nat) (timestamp : Z) (c : contract F)
  : ST (world F D W) entry :=
  s ← st_get;
  if be_single_entry_per_day rule && traded_on s.2.2 (day_of timestamp) [c] then mret Skip
  else
    entry_price_est ← world_entry_price (be_price_func rule) c timestamps i;
    if f_isnan entry_price_est then mret Skip
    else
      stop_return ← bracket_stop_return rule timestamps i c;
      distance ← st_lift (bracket_distance rule entry_price_est stop_return);
      match distance with
      | None => mret Skip
      | Some price_distance =>
          curr_equity ← world_equity timestamp;
          order_qty ← st_lift (bracket_quantity rule curr_equity price_distance entry_price_est (c_multiplier c));
          if int_isclose0 order_qty then mret Skip
          else Place <$> new_order (order_terms c timestamp order_qty (be_reason_code rule) FOK RMarket)
      end.

Definition BracketOrderEntryRule_call (rule : BracketOrderEntryRule) : rule_fn F D W :=
  fun g i timestamps indicators signals current_orders =>
  timestamp ← timestamp_of timestamps i;
  contracts ← bracket_contracts rule g i timestamps indicators signals current_orders;
  returned <$> for_contracts (bracket_entry rule timestamps i timestamp) contracts [].

(** ** [ClosePositionExitRule] *)

Record ClosePositionExitRule := mkClose {
  ce_reason_code : string;
  ce_price_func : price_fn F W;
  ce_limit_increment : F;
}.

Definition ClosePositionExitRule_init (rule : ClosePositionExitRule) : result ClosePositionExitRule :=
  unless f_isnan (ce_limit_increment rule) || f_leb f_zero (ce_limit_increment rule)
    raise PQException "limit_increment cannot be negative" ;;
  Ok rule.

Definition close_position (rule : ClosePositionExitRule) (timestamps : list Z) (i : nat) (timestamp : Z) (p : contract F * Z)
  : ST (world F D W) entry :=
  let '(c, qty) := p in
  if f_isfinite (ce_limit_increment rule) then
    v ← world_price (ce_price_func rule) c timestamps i;
    price ← st_lift (num_float v);
    let exit_price_est := if 0 <=? qty then f_add price (ce_limit_increment rule) else f_sub price (ce_limit_increment rule) in
    Place <$> new_order (order_terms c timestamp (- qty) (ce_reason_code rule) FOK (RLimit (PFloat exit_price_est)))
  else Place <$> new_order (order_terms c timestamp (- qty) (ce_reason_code rule) FOK RMarket).

Definition ClosePositionExitRule_call (rule : ClosePositionExitRule) : rule_fn F D W := fun g i timestamps _ _ _ =>
  timestamp ← timestamp_of timestamps i;
  positions ← world_positions g timestamp;
  returned <$> for_contracts (close_position rule timestamps i timestamp) positions [].

(** ** [StopReturnExitRule] *)

(** [context.entry_prices[date]] *)
Record StopReturnExitRule := mkStopReturn {
  sr_reason_code : string;
  sr_price_func : price_fn F W;
  sr_stop_return_func : price_fn F W;
  sr_entry_prices : W -> Z -> result (list (string * F));
}.

Definition stop_return_exit (rule : StopReturnExitRule) (entry_prices : list (string * F)) (timestamps : list Z) (i : nat) (timestamp : Z)
  (p : contract F * Z) : ST (world F D W) entry :=
  let '(c, qty) := p in
  v ← world_price (sr_stop_return_func rule) c timestamps i;
  stop_ret ← st_lift (num_float v);
  _ ← st_lift (unless f_ltb stop_ret f_zero raise PQException "stop_return must be negative" ;; Ok tt);
  entry ← st_lift (py_getitem entry_prices (c_symbol c));
  let stop_ret := if qty <? 0 then f_opp stop_ret else stop_ret in
  let stop_price := f_mul entry (f_add f_one stop_ret) in
  v ← world_price (sr_price_func rule) c timestamps i;
  curr_price ← st_lift (num_float v);
  if f_isnan curr_price then mret Skip
  else if (0 <? qty) && f_ltb stop_price curr_price || (qty <=? 0) && f_ltb curr_price stop_price then mret Skip
  else Place <$> new_order (order_terms c timestamp (- qty) (sr_reason_code rule) FOK RMarket).

Definition StopReturnExitRule_call (rule : StopReturnExitRule) : rule_fn F D W := fun g i timestamps _ _ _ =>
  timestamp ← timestamp_of timestamps i;
  s ← st_get;
  entry_prices ← st_lift (sr_entry_prices rule s.1 (day_of timestamp));
  _ ← st_lift (whenever bool_decide (entry_prices = []) raise PQException "no symbols entered" ;; Ok tt);
  positions ← world_positions g timestamp;
  returned <$> for_contracts (stop_return_exit rule entry_prices timestamps i timestamp) positions [].
End Rules.
