(* ===== verification/Schedule.v ===== *)
(** * The rule schedule is exact

    [generate_order_iterations] fills timestamp buckets by masking, membership
    and index surgery on arrays; the specification says for one bar, one rule and
    one group whether the rule runs there. *)

From S2P Require Import Roundtrip Prelude Numeric Vendor Boundaries Instruments Contracts Orders Fifo ContractPnl.
From S2P Require Import Account Callbacks Sparse Stages Risk Strategy Engine.
From Stdlib Require Import SpecFloat.

Open Scope Z_scope.

(** ** Buckets *)

Section Buckets.
Context {T : Type}.
Implicit Types it : SparseIterations T.

Definition bucket it (i : nat) : list T := default [] (dict_get (si_buckets it) (Z.of_nat i)).

Lemma at_bucket it i : Z.of_nat i < si_size it -> at_ it (Z.of_nat i) = Ok (bucket it i).
Proof. intros Hi. unfold at_. rewrite si_index_id by lia. done. Qed.

Lemma append_bucket it k x it' :
  append_at it (Z.of_nat k) x = Ok it' ->
  si_size it' = si_size it /\ forall i, bucket it' i = bucket it i ++ (if decide (i = k) then [x] else []).
Proof.
  unfold append_at. intros (j & Hj & Ha)%bind_Ok_inv. unfold si_index in Hj. rewrite (proj2 (Z.ltb_ge _ 0)) in Hj by lia.
  apply guard_bind_Ok in Hj as [_ Hj]. simplify_eq. split; [done|]. intros i. unfold bucket. simpl. rewrite dict_append_get.
  destruct (decide (i = k)) as [->|]; [by rewrite decide_True|]. rewrite decide_False, app_nil_r by lia. done.
Qed.

Lemma append_buckets x l : forall it it',
  NoDup l -> foldE (fun it k => append_at it (Z.of_nat k) x) it l = Ok it' ->
  si_size it' = si_size it /\ forall i, bucket it' i = bucket it i ++ (if decide (i ∈ l) then [x] else []).
Proof.
  induction l as [|k l IH]; intros it it' Hnd; cbn [foldE].
  { intros. simplify_eq. split; [done|]. intros i. rewrite decide_False, app_nil_r; [done|]. apply not_elem_of_nil. }
  apply NoDup_cons in Hnd as [Hk Hnd]. intros (it1 & Ha & Hf)%bind_Ok_inv. apply append_bucket in Ha as [Hs1 Hb1].
  destruct (IH _ _ Hnd Hf) as [Hs2 Hb2]. split; [congruence|]. intros i. rewrite Hb2, Hb1, <- app_assoc. f_equal.
  destruct (decide (i = k)) as [->|Hne].
  - by rewrite (decide_False (P:=k ∈ l)), decide_True by (done || left).
  - simpl. destruct (decide (i ∈ l)); [rewrite decide_True by (by right)|rewrite decide_False by (rewrite elem_of_cons; tauto)]; done.
Qed.
End Buckets.

Section Schedule.
Context `{PyFloat F} `{!Numpy F} `{!NumpySignals F} `{!NumpyLaws F} `{!NumpySignalsLaws F} `{SortedDict D} {W : Type}.
Context (s : Strategy F D W).
Hypothesis Hgrid : grid (s_timestamps s).

(** ** One signal *)

Lemma np_nonzero_elem (l : list bool) i : i ∈ np_nonzero l <-> l !! i = Some true.
Proof.
  unfold np_nonzero. rewrite list_elem_of_fmap. split.
  - intros ([j b] & -> & [Hb Hin]%list_elem_of_filter). simpl in *. subst. apply elem_of_lookup_imap in Hin as (k & x & [= -> ->] & Hl). done.
  - intros Hl. exists (i, true). split; [done|]. apply list_elem_of_filter. split; [done|]. apply elem_of_lookup_imap. eauto.
Qed.

Lemma np_nonzero_sorted (l : list bool) : StronglySorted lt (np_nonzero l).
Proof.
  unfold np_nonzero. assert (forall (l : list bool) n,
    StronglySorted lt (filter (fun x => x.2 = true) (imap (fun i b => ((n + i)%nat, b)) l)).*1 /\
    Forall (fun i => n <= i)%nat (filter (fun x => x.2 = true) (imap (fun i b => ((n + i)%nat, b)) l)).*1) as Hgen.
  { clear l. intros l. induction l as [|b l IH]; intros n; [split; constructor|]. rewrite imap_cons.
    rewrite (imap_ext _ (fun i b => ((S n + i)%nat, b))) by (intros; simpl; f_equal; lia).
    destruct (IH (S n)) as [Hs Hf]. rewrite filter_cons. case_decide; csimpl.
    - split; [constructor; [done|]|constructor; [lia|]]; (eapply Forall_impl; [exact Hf|]; simpl; lia).
    - split; [done|]. eapply Forall_impl; [exact Hf|]. simpl. lia. }
  apply (Hgen l 0%nat).
Qed.

Lemma sorted_lt_NoDup (l : list nat) : StronglySorted lt l -> NoDup l.
Proof.
  induction 1 as [|x l Hs IH Hall]; constructor; [|done]. intros Hin. rewrite Forall_forall in Hall.
  specialize (Hall x Hin). lia.
Qed.

Lemma count_lt_spec (l : list Z) i x d : grid l -> l !! i = Some x -> (i < count_lt l d)%nat <-> x < d.
Proof.
  intros Hg. unfold count_lt. revert i. induction Hg as [|y l Hs IH Hall]; intros i Hi; [done|].
  rewrite filter_cons. rewrite Forall_forall in Hall. destruct i as [|i]; simpl in Hi.
  - simplify_eq. case_decide; simpl; [lia|]. split; [|lia]. intros Hlt. exfalso.
    assert (filter (fun y => y < d) l = []) as Hnil; [|rewrite Hnil in Hlt; simpl in Hlt; lia].
    apply filter_none. rewrite Forall_forall. intros z Hz. specialize (Hall z Hz). lia.
  - pose proof (Hall x (list_elem_of_lookup_2 _ _ _ Hi)) as Hyx. case_decide as Hy; simpl.
    + rewrite <- (IH i Hi). lia.
    + split; [|lia]. intros Hlt. exfalso. assert (filter (fun y => y < d) l = []) as Hnil; [|rewrite Hnil in Hlt; simpl in Hlt; lia].
      apply filter_none. rewrite Forall_forall. intros z Hz. specialize (Hall z Hz). lia.
Qed.

(** The instants the dates leave: from the start on, and before the end. *)
Definition in_dates (start_date end_date : option Z) (t : Z) : bool :=
  (match start_date with None => true | Some d => d <=? t end) && (match end_date with None => true | Some d => t <? d end).

(** The specification: the rule runs at bar [i]. *)
Definition fires (v : list (pyval F)) (sig_true_values : list (pyval F)) (start_date end_date : option Z) (i : nat) : bool :=
  match v !! i, s_timestamps s !! i with
  | Some x, Some t =>
      in_dates start_date end_date t && existsb (py_eqb x) sig_true_values &&
      negb (bool_decide (S i = length (s_timestamps s)) && (0 <? s_trade_lag s))
  | _, _ => false
  end.

(** The value that masks a signal. *)
Definition null_of (v : list (pyval F)) : pyval F := if np_is_bool v then PNpBool false else PNpFloat f_nan.

Definition covered (d : option Z) (f : Z -> nat * nat) (k : nat) : bool :=
  match d with None => false | Some d => ((f d).1 <=? k)%nat && (k <? (f d).2)%nat end.

Lemma fill_opt_spec (l : list (pyval F)) (d : option Z) (f : Z -> nat * nat) x l' :
  (match d with None => Ok l | Some d => np_fill l (f d).1 (f d).2 x end) = Ok l' ->
  length l' = length l /\ forall k y, l' !! k = Some y -> if covered d f k then y = x else l !! k = Some y.
Proof.
  destruct d as [d|]; [|by intros [= ->]]. intros [Hl Hk]%np_fill_spec. split; [done|]. intros k y Hy.
  specialize (Hk k y Hy). unfold covered. destruct (Nat.leb_spec (f d).1 k), (Nat.ltb_spec k (f d).2); simpl;
    case_decide; (done || lia).
Qed.

Lemma masked_signal_spec (v : list (pyval F)) start_date end_date (m : list (pyval F)) i x t :
  length v = length (s_timestamps s) -> masked_signal s v start_date end_date = Ok m ->
  m !! i = Some x -> s_timestamps s !! i = Some t ->
  length m = length v /\ if in_dates start_date end_date t then v !! i = Some x else x = null_of v.
Proof.
  intros Hlen Hm Hx Ht. unfold masked_signal in Hm. fold (null_of v) in Hm. apply bind_Ok_inv in Hm as (m1 & Hm1 & Hm2).
  apply (fill_opt_spec v start_date (fun d => (0%nat, np_searchsorted_left (s_timestamps s) d))) in Hm1 as [Hl1 Hm1].
  apply (fill_opt_spec m1 end_date (fun d => (np_searchsorted_left (s_timestamps s) d, length m1))) in Hm2 as [Hl2 Hm2].
  split; [congruence|]. specialize (Hm2 i x Hx). cbn [fst snd] in *.
  assert (i < length (s_timestamps s))%nat as Hi by (by apply lookup_lt_Some in Ht). unfold in_dates.
  assert (forall d, (i < np_searchsorted_left (s_timestamps s) d)%nat <-> t < d) as Hc.
  { intros d. rewrite np_searchsorted_left_count by done. by apply count_lt_spec. }
  assert (forall y, m1 !! i = Some y -> if match start_date with None => true | Some d => d <=? t end
    then v !! i = Some y else y = null_of v) as Hstart.
  { intros y Hy. specialize (Hm1 i y Hy). destruct start_date as [d|]; [|done]. simpl in Hm1.
    destruct (Nat.ltb_spec i (np_searchsorted_left (s_timestamps s) d)) as [Hlt|Hge].
    - apply Hc in Hlt. by rewrite (proj2 (Z.leb_gt d t)).
    - assert (~ t < d) by (rewrite <- Hc; lia). by rewrite (proj2 (Z.leb_le d t)) by lia. }
  unfold covered in *. destruct end_date as [d|].
  - destruct (Nat.leb_spec (np_searchsorted_left (s_timestamps s) d) i) as [Hge|Hlt]; simpl in Hm2.
    + rewrite (proj2 (Nat.leb_le _ _) Hge), (proj2 (Nat.ltb_lt i (length m1))) in Hm2 by lia. assert (~ t < d) by (rewrite <- Hc; lia).
      rewrite (proj2 (Z.ltb_ge t d)), andb_false_r by lia. done.
    + rewrite (proj2 (Nat.leb_gt _ _) Hlt) in Hm2. apply Hc in Hlt. rewrite (proj2 (Z.ltb_lt t d)), andb_true_r by done.
      by apply Hstart.
  - rewrite andb_true_r. by apply Hstart.
Qed.

(** The bars of a masked signal that trigger are those where the rule fires, if
    masking itself does not trigger. *)
Lemma trigger_indices_spec (v : list (pyval F)) tests start_date end_date (m : list (pyval F)) i :
  length v = length (s_timestamps s) -> masked_signal s v start_date end_date = Ok m ->
  existsb (py_eqb (null_of v)) tests = false ->
  i ∈ trigger_indices s m tests <-> fires v tests start_date end_date i = true.
Proof.
  intros Hlen Hm Hnull.
  assert (length m = length v) as Hlm.
  { unfold masked_signal in Hm. apply bind_Ok_inv in Hm as (m1 & Hm1 & Hm2).
    apply (fill_opt_spec v start_date (fun d => (0%nat, np_searchsorted_left (s_timestamps s) d))) in Hm1 as [Hl1 _].
    apply (fill_opt_spec m1 end_date (fun d => (np_searchsorted_left (s_timestamps s) d, length m1))) in Hm2 as [Hl2 _]. congruence. }
  assert (forall i, i ∈ np_nonzero (np_isin (take (length (s_timestamps s)) m) tests) <->
    exists x t, v !! i = Some x /\ s_timestamps s !! i = Some t /\ in_dates start_date end_date t = true /\ existsb (py_eqb x) tests = true) as Hraw.
  { clear i. intros i. rewrite np_nonzero_elem, np_isin_spec, list_lookup_fmap. rewrite take_ge by lia. split.
    - intros Hex. apply fmap_Some in Hex as (x & Hx & Hex). symmetry in Hex.
      destruct (s_timestamps s !! i) as [t|] eqn:Ht; [|apply lookup_ge_None in Ht; apply lookup_lt_Some in Hx; lia].
      destruct (masked_signal_spec v _ _ _ _ _ _ Hlen Hm Hx Ht) as [_ Hin].
      destruct (in_dates _ _ t) eqn:Hd; [by exists x, t|]. subst x. congruence.
    - intros (x & t & Hx & Ht & Hd & Hex). destruct (m !! i) as [y|] eqn:Hy; [|apply lookup_ge_None in Hy; apply lookup_lt_Some in Hx; lia].
      destruct (masked_signal_spec v _ _ _ _ _ _ Hlen Hm Hy Ht) as [_ Hin]. rewrite Hd in Hin. apply fmap_Some. exists y. split; [done|].
      assert (y = x) as -> by congruence. done. }
  assert (fires v tests start_date end_date i = true <->
    i ∈ np_nonzero (np_isin (take (length (s_timestamps s)) m) tests) /\
    ~ (S i = length (s_timestamps s) /\ 0 < s_trade_lag s)) as ->.
  { rewrite Hraw. unfold fires. split.
    - destruct (v !! i) as [x|] eqn:Hx, (s_timestamps s !! i) as [t|] eqn:Ht; try done.
      intros [[Hd He]%andb_prop Hn]%andb_prop. split; [by exists x, t|]. intros [Hi Hl].
      by rewrite bool_decide_eq_true_2, (proj2 (Z.ltb_lt 0 _)) in Hn.
    - intros [(x & t & Hx & Ht & Hd & He) Hn]. rewrite Hx, Ht, Hd, He. simpl.
      destruct (bool_decide _) eqn:E; [|done]. apply bool_decide_eq_true in E. apply negb_true_iff, Z.ltb_ge. lia. }
  set (ix := np_nonzero _) in *. unfold trigger_indices. fold ix.
  assert (forall j, j ∈ ix -> (j < length (s_timestamps s))%nat) as Hlt.
  { intros j Hj. apply Hraw in Hj as (x & t & _ & Ht & _). by apply lookup_lt_Some in Ht. }
  destruct (last ix) as [j|] eqn:Hlast; [|apply last_None in Hlast; rewrite Hlast; split; [by intros ?%elem_of_nil|intros [Hn _]; by apply elem_of_nil in Hn]].
  pose proof (np_nonzero_sorted (np_isin (take (length (s_timestamps s)) m) tests)) as Hsorted. fold ix in Hsorted.
  apply last_Some in Hlast as [l' Hl']. rewrite Hl' in *.
  assert (forall k, k ∈ l' -> (k < j)%nat) as Hmax.
  { intros k Hk. clear - Hsorted Hk. induction l' as [|y l' IH]; [by apply elem_of_nil in Hk|].
    apply StronglySorted_inv in Hsorted as [Hs Hf]. apply elem_of_cons in Hk as [->|Hk]; [|by apply IH].
    rewrite Forall_forall in Hf. apply Hf, elem_of_app. right. left. }
  specialize (Hlt j ltac:(apply elem_of_app; right; left)).
  rewrite removelast_last, Hlm, Hlen.
  destruct (bool_decide (j = length (s_timestamps s) - 1)%nat && (0 <? s_trade_lag s)) eqn:Hb.
  - apply andb_prop in Hb as [Hj%bool_decide_eq_true Hlag%Z.ltb_lt]. rewrite elem_of_app, list_elem_of_singleton.
    split; [intros Hk; specialize (Hmax i Hk); split; [by left|lia]|]. intros [[Hk|Hk] Hn]; [done|]. exfalso. apply Hn. lia.
  - split; [|tauto]. intros Hk. split; [done|]. intros [Hi Hlag]. apply andb_false_iff in Hb as [Hb%bool_decide_eq_false|Hb%Z.ltb_ge]; [|lia].
    apply elem_of_app in Hk as [Hk|Hk%list_elem_of_singleton]; [specialize (Hmax i Hk)|]; lia.
Qed.

(** ** The buckets *)

(** What a rule and a group put into the bucket of bar [i]. *)
Definition scheduled (iv sv : stage_values F) (start_date end_date : option Z) (i : nat) (ng : string * group)
  : option (order_tup F D W) :=
  let '(name, g) := ng in
  match dict_get (s_rules s) name, dict_get (s_rule_signals s) name with
  | Some rule, Some (signal_name, tests) =>
      match dict_get (s_signal_cgroups s) signal_name, dict_get (ns_of sv g) signal_name with
      | Some cgroups, Some v =>
          if bool_decide (cg_name g ∈ cg_name <$> cgroups) && fires v tests start_date end_date i then
            match masked_signal s v start_date end_date with
            | Ok m => Some (OrderTup rule g (ns_of iv g) m name)
            | Err _ => None
            end
          else None
      | _, _ => None
      end
  | _, _ => None
  end.

(** Signals have one value per bar, and masking a signal never triggers a rule. *)
Definition signals_fit (sv : stage_values F) : Prop := forall name g signal_name tests v,
  dict_get (s_rule_signals s) name = Some (signal_name, tests) -> dict_get (ns_of sv g) signal_name = Some v ->
  length v = length (s_timestamps s) /\ existsb (py_eqb (null_of v)) tests = false.

Definition opt_list {A} (o : option A) : list A := match o with Some x => [x] | None => [] end.

Lemma schedule_rule_buckets iv sv start_date end_date name g it it' :
  signals_fit sv -> schedule_rule s iv sv start_date end_date name g it = Ok it' ->
  si_size it' = si_size it /\
  forall i, bucket it' i = bucket it i ++ opt_list (scheduled iv sv start_date end_date i (name, g)).
Proof.
  intros Hfit. unfold schedule_rule, scheduled.
  destruct (dict_get (s_rules s) name) as [rule|]; [|done].
  destruct (dict_get (s_rule_signals s) name) as [[signal_name tests]|] eqn:Hsig; [|done].
  destruct (dict_get (s_signal_cgroups s) signal_name) as [cgroups|]; [|done].
  case_bool_decide as Hg.
  2:{ intros [= ->]. split; [done|]. intros i. destruct (dict_get (ns_of sv g) signal_name); by rewrite app_nil_r. }
  intros [_ Hrest]%guard_bind_Ok. unfold get_attr in Hrest.
  destruct (dict_get (ns_of sv g) signal_name) as [v|] eqn:Hv; [|done]. cbn [mbind result_bind] in Hrest.
  apply bind_Ok_inv in Hrest as (m & Hm & Hf). cbv zeta in Hf.
  destruct (Hfit _ _ _ _ _ Hsig Hv) as [Hlen Hnull].
  apply append_buckets in Hf as [Hs Hb].
  - split; [done|]. intros i. rewrite Hb. f_equal. rewrite Hm. simpl.
    pose proof (trigger_indices_spec v tests start_date end_date m i Hlen Hm Hnull) as Htr.
    destruct (decide (i ∈ trigger_indices s m tests)) as [Hi|Hi].
    + by rewrite (proj1 Htr Hi).
    + destruct (fires v tests start_date end_date i); [by destruct Hi; apply Htr|done].
  - unfold trigger_indices. pose proof (sorted_lt_NoDup _ (np_nonzero_sorted (np_isin (take (length (s_timestamps s)) m) tests))) as Hnd.
    destruct (last _) as [k|] eqn:Hl; [|done]. destruct (_ && _); [|done].
    apply last_Some in Hl as [l' Hl]. rewrite Hl in *. rewrite removelast_last. by apply NoDup_app in Hnd as [? _].
Qed.

Definition candidates (names : list string) (groups : list group) : list (string * group) :=
  names ≫= fun n => (fun g => (n, g)) <$> groups.

Lemma schedule_groups_buckets iv sv start_date end_date name groups : forall it it',
  signals_fit sv -> foldE (fun it g => schedule_rule s iv sv start_date end_date name g it) it groups = Ok it' ->
  si_size it' = si_size it /\
  forall i, bucket it' i = bucket it i ++ omap (scheduled iv sv start_date end_date i) ((fun g => (name, g)) <$> groups).
Proof.
  induction groups as [|g groups IH]; intros it it' Hfit; cbn [foldE].
  { intros [= ->]. split; [done|]. intros i. by rewrite app_nil_r. }
  intros (it1 & H1' & H2')%bind_Ok_inv. apply schedule_rule_buckets in H1' as [Hs1 Hb1]; [|done].
  destruct (IH _ _ Hfit H2') as [Hs2 Hb2]. split; [congruence|]. intros i. rewrite Hb2, Hb1, <- app_assoc. f_equal.
  rewrite fmap_cons. cbn [omap list_omap]. unfold opt_list. by destruct (scheduled iv sv start_date end_date i (name, g) : option (order_tup F D W)).
Qed.

Lemma schedule_names_buckets iv sv start_date end_date groups names : forall it it',
  signals_fit sv ->
  foldE (fun it name => foldE (fun it g => schedule_rule s iv sv start_date end_date name g it) it groups) it names = Ok it' ->
  si_size it' = si_size it /\
  forall i, bucket it' i = bucket it i ++ omap (scheduled iv sv start_date end_date i) (candidates names groups).
Proof.
  induction names as [|name names IH]; intros it it' Hfit; cbn [foldE].
  { intros [= ->]. split; [done|]. intros i. by rewrite app_nil_r. }
  intros (it1 & H1' & H2')%bind_Ok_inv. apply schedule_groups_buckets in H1' as [Hs1 Hb1]; [|done].
  destruct (IH _ _ Hfit H2') as [Hs2 Hb2]. split; [congruence|]. intros i. rewrite Hb2, Hb1, <- app_assoc. f_equal.
  unfold candidates. cbn [mbind list_bind]. by rewrite omap_app.
Qed.

Lemma generate_buckets iv sv names groups start_date end_date it :
  signals_fit sv -> generate_order_iterations s iv sv names groups start_date end_date = Ok it ->
  si_size it = Z.of_nat (length (s_timestamps s)) /\
  forall i, bucket it i = omap (scheduled iv sv start_date end_date i) (candidates names groups).
Proof.
  intros Hfit (it0 & H0' & Hf)%bind_Ok_inv. unfold SparseIterations_init in H0'. apply guard_bind_Ok in H0' as [_ H0'].
  simplify_eq. apply schedule_names_buckets in Hf; [|done]. done.
Qed.
End Schedule.

(** C27: The schedule of a run is exact: the bucket of each bar lists, in the
    order of the rules and then of the groups, exactly the rules that run there
    for a group - those whose signal applies to the group and equals one of the
    rule's trigger values at that bar, which lies between the start date and
    strictly before the end date and is not the last bar when orders fill later. *)
Theorem generate_order_iterations_exact `{PyFloat F} `{!Numpy F} `{!NumpySignals F} `{!NumpyLaws F} `{!NumpySignalsLaws F}
    `{SortedDict D} {W} (s : Strategy F D W) iv sv names groups start_date end_date it i :
  grid (s_timestamps s) -> signals_fit s sv ->
  generate_order_iterations s iv sv names groups start_date end_date = Ok it ->
  (i < length (s_timestamps s))%nat ->
  at_ it (Z.of_nat i) = Ok (omap (scheduled s iv sv start_date end_date i) (candidates names groups)).
Proof.
  intros Hg Hfit Hgen Hi. apply generate_buckets in Hgen as [Hs Hb]; [|done|done]. rewrite at_bucket by lia. by rewrite Hb.
Qed.

(** ** A small strategy *)

Definition demo_signal : signal_fn (F:=spec_float) (W:=unit) := fun _ _ _ _ w =>
  (w, Ok (Inst (StageArray 1 [PNpBool true; PNpBool false; PNpBool true]))).

(** Each time it runs, it buys three at the market. *)
Definition demo_rule : rule_fn spec_float sorted_items unit := fun _ i timestamps _ _ _ '(w, (st, a)) =>
  let '(st, oid) := alloc st (demo_raw_order (demo_contract 2 "ESH4") (default 0 (timestamps !! i)) 3 RMarket) in
  ((w, (st, a)), Ok (Inst [Inst oid])).

(** It fills every order it is shown, three at 100. *)
Definition demo_sim : sim_fn spec_float unit := fun view i timestamps _ _ s =>
  (s, Ok (Inst ((fun oid => Inst (RawTrade (Inst (demo_contract 2 "ESH4")) (Inst oid) (Inst (timestamps !! i : option Z)) (PInt 3) (PInt 100)
     (PInt 0) (PInt 0) [])) <$> view))).

Definition demo_strategy : result (Strategy spec_float sorted_items unit) :=
  s ← Strategy_init [1; 2; 3] [DEFAULT_CG] 1 true;
  s ← add_signal s "go" (Inst demo_signal) None None None;
  s ← add_rule s (Inst "buy"%string) (Inst demo_rule) (Inst "go"%string) None None;
  s ← add_market_sim s false (Inst demo_sim);
  add_risk_policy s false (Inst (demo_max_order 5)).

Definition demo : Strategy spec_float sorted_items unit :=
  match demo_strategy with Ok s => s | Err _ => mkStrategy [] [] 0 false [] [] [] [] [] [] [] [] [] [] [] [] [] [] [] end.

Definition demo_signals : stage_values spec_float := (run_signals demo [] 5 None None false (tt, [])).1.2.

Lemma demo_signals_fit : signals_fit demo demo_signals.
Proof.
  assert (s_rule_signals demo = [("buy"%string, ("go"%string, [PBool true]))]) as Hrs by reflexivity.
  assert (demo_signals = [("DEFAULT"%string, [("go"%string, [PNpBool true; PNpBool false; PNpBool true])])]) as Hd
    by (vm_compute; reflexivity).
  assert (length (s_timestamps demo) = 3%nat) as Hl by reflexivity.
  unfold signals_fit. rewrite Hrs, Hd, Hl. clear. intros name g signal_name tests v Hn Hv. apply dict_get_Some_In in Hn.
  apply list_elem_of_singleton in Hn. injection Hn as -> -> ->. unfold ns_of in Hv. simpl in Hv.
  destruct (decide (cg_name g = _)); [|discriminate]. simpl in Hv. injection Hv as <-. split; reflexivity.
Qed.

(** On the demo the rule runs at the first bar only: it triggers at the last one
    too, but an order placed there could not fill any more. *)
Lemma generate_order_iterations_exact_witness :
  let r := generate_order_iterations demo [] demo_signals ["buy"%string] [DEFAULT_CG] None None in
  exists it, r = Ok it /\
    at_ it 0 = Ok (omap (scheduled demo [] demo_signals None None 0) (candidates ["buy"%string] [DEFAULT_CG])) /\
    (ot_rule_name <$> bucket it 0) = ["buy"%string] /\ bucket it 1 = [] /\ bucket it 2 = [].
Proof.
  intros r. assert ((fun it => (ot_rule_name <$> bucket it 0, bucket it 1, bucket it 2)) <$> r = Ok (["buy"%string], [], [])) as Hb
    by (vm_compute; reflexivity).
  destruct r as [it|x] eqn:Hr; [|discriminate]. exists it. split; [reflexivity|]. split.
  - apply (generate_order_iterations_exact demo [] demo_signals ["buy"%string] [DEFAULT_CG] None None it 0).
    + repeat constructor.
    + apply demo_signals_fit.
    + exact Hr.
    + simpl. lia.
  - injection Hb as H1 H2 H3. rewrite H1, H2, H3. split_and!; reflexivity.
Defined.
