(* ===== verification/Runs.v ===== *)
(** * Runs of the engine: what holds of every order and every trade

    Callbacks are arbitrary; what is assumed of them is stated once, in
    [callbacks_ok].  Each operation of [Engine] gets one lemma saying what it may
    do to the pending orders, the account and the engine's lists; the invariant
    of a run is carried through by those lemmas. *)

From stdpp Require Import pretty.
From S2P Require Import Roundtrip Prelude Numeric Vendor Boundaries Instruments Contracts Orders Fifo ContractPnl.
From S2P Require Import Account Callbacks Sparse Stages Risk Strategy Engine Schedule.
From Stdlib Require Import SpecFloat.

Open Scope Z_scope.

Section Runs.
Context `{PyFloat F} `{!PyFloatEq F} `{!Numpy F} `{!NumpySignals F} `{!NumpyLaws F} `{SortedDictLaws D} {W : Type}.
Context (s : Strategy F D W) (registry_of : W -> registry F) (pf : price_fn F W).
Implicit Types (st : heap F) (r : raw_order F) (e : engine F D W).

(** ** Expiry *)

Lemma raw_cancel_closed r : raw_is_open (raw_cancel r) = false.
Proof. unfold raw_cancel, raw_is_open. destruct (r_status r) as [[]|] eqn:E; simpl; by rewrite ?E. Qed.

Lemma raw_cancel_idem r : raw_cancel (raw_cancel r) = raw_cancel r.
Proof. unfold raw_cancel. destruct (r_status r) as [[]|] eqn:E; simpl; by rewrite ?E. Qed.

Lemma raw_cancel_tif r : r_time_in_force (raw_cancel r) = r_time_in_force r.
Proof. unfold raw_cancel. by destruct (r_status r) as [[]|]. Qed.

Lemma cancel_identity r : engine_order r -> same_identity r (raw_cancel r) /\ engine_order (raw_cancel r).
Proof.
  intros He. assert (same_identity r (raw_cancel r)) as Hi.
  { destruct (same_identity_refl r He) as (?&?&?). unfold raw_cancel, same_identity. by destruct (r_status r) as [[]|]. }
  split; [done|]. apply engine_order_fields in He as (c & t & tif & x & q & ? & ? & ? & Hs & Hq).
  apply engine_order_fields. unfold raw_cancel. rewrite Hs. destruct x; eauto 15.
Qed.

Lemma cancel_if_tif (b : bool) r : r_time_in_force (if b then raw_cancel r else r) = r_time_in_force r.
Proof. destruct b; [apply raw_cancel_tif|done]. Qed.

Lemma inst_eqb_refl {A} `{EqDecision A} (x : A) : inst_eqb (Inst x) (Inst x) = true.
Proof. apply inst_eqb_true. eauto. Qed.

(** What one pass over a pending order does: it leaves it or cancels it; what
    stays open is not due to expire, and is eligible from [lag] bars on. *)
Lemma expire_order_Ok i now r r' ok :
  expire_order s i now r = Ok (r', ok) ->
  exists t, r_timestamp r = Inst (Some t) /\
    let idx := np_searchsorted_left (s_timestamps s) t in
    (idx < length (s_timestamps s))%nat /\ (idx <= i)%nat /\
    (r' = r \/ r' = raw_cancel r) /\
    (ok = true -> s_trade_lag s <= Z.of_nat i - Z.of_nat idx /\ raw_is_open r' = true) /\
    (raw_is_open r' = true -> r' = r /\ r_status r <> Inst CANCEL_REQUESTED /\
       (r_time_in_force r = Inst DAY -> day_of now <= day_of t) /\
       (r_time_in_force r = Inst FOK -> Z.of_nat i - Z.of_nat idx <= s_trade_lag s)).
Proof.
  unfold expire_order. destruct (r_timestamp r) as [[t|]|]; try done. intros Hx.
  apply guard_bind_Ok in Hx as [Hg Hx]. apply andb_prop in Hg as [Hlen Hi]. apply Nat.ltb_lt in Hlen. apply Nat.leb_le in Hi.
  cbv zeta in Hx. exists t. split; [done|]. cbv zeta. split; [done|]. split; [done|].
  set (idx := np_searchsorted_left (s_timestamps s) t) in *. injection Hx as Hr' Hok.
  set (c1 := inst_eqb (r_status r) (Inst CANCEL_REQUESTED)) in *. set (r1 := if c1 then raw_cancel r else r) in *.
  rewrite (cancel_if_tif c1 r : r_time_in_force r1 = _) in Hr', Hok.
  set (c2 := inst_eqb (r_time_in_force r) (Inst DAY) && _) in *. set (r2 := if c2 then raw_cancel r1 else r1) in *.
  rewrite (cancel_if_tif c2 r1 : r_time_in_force r2 = _), (cancel_if_tif c1 r : r_time_in_force r1 = _) in Hr', Hok.
  set (c3 := _ && inst_eqb (r_time_in_force r) (Inst FOK)) in *. rewrite Hr' in Hok.
  assert (r' = if c1 || c2 || c3 then raw_cancel r else r) as ->.
  { rewrite <- Hr'. unfold r2, r1. destruct c1, c2, c3; simpl; by rewrite ?raw_cancel_idem. }
  split; [destruct (c1 || c2 || c3); auto|].
  split; [intros ->; apply andb_prop in Hok as [Hb1 Hb2]; split; [lia|done]|].
  destruct (c1 || c2 || c3) eqn:Hc; [by rewrite raw_cancel_closed|]. intros Hop.
  apply orb_false_elim in Hc as [[Hc1 Hc2]%orb_false_elim Hc3]. split; [done|]. unfold c1, c2, c3 in *.
  split_and!.
  - intros E. by rewrite E, inst_eqb_refl in Hc1.
  - intros E. rewrite E, inst_eqb_refl in Hc2. simpl in Hc2. lia.
  - intros E. rewrite E, inst_eqb_refl, andb_true_r in Hc3. lia.
Qed.

(** Orders are only ever cancelled by the pass, also when it stops half way. *)
Definition cancels_some st st' : Prop :=
  forall oid r, st !! oid = Some r -> exists r', st' !! oid = Some r' /\ (r' = r \/ r' = raw_cancel r).

#[export] Instance cancels_some_preorder : PreOrder cancels_some.
Proof.
  split; [intros st oid r; eauto|]. intros st1 st2 st3 Hone Htwo oid r Hr.
  destruct (Hone oid r Hr) as (r1 & Hr1 & Hc1), (Htwo oid r1 Hr1) as (r2 & Hr2 & Hc2). exists r2. split; [done|].
  destruct Hc1 as [ -> | -> ], Hc2 as [ -> | -> ]; rewrite ?raw_cancel_idem; auto.
Qed.

Definition cancels_some2 (x y : heap F * list positive) : Prop := cancels_some x.1 y.1.
#[export] Instance cancels_some2_preorder : PreOrder cancels_some2.
Proof. split; [by intros []; unfold cancels_some2|]. intros [] [] [] ? ?. unfold cancels_some2 in *. simpl in *. by etrans. Qed.

Lemma expire_step_cancels i now oid x y res : expire_step s i now oid x = (y, res) -> cancels_some2 x y.
Proof.
  destruct x as [st el]. unfold expire_step. destruct (st !! oid) as [r|] eqn:Hr; [|by intros; simplify_eq].
  destruct (expire_order s i now r) as [[r' ok]|] eqn:Hx; intros; simplify_eq; [|done].
  apply expire_order_Ok in Hx as (t & _ & _ & _ & Hc & _). intros oid' r0 Hr0. simpl in *. rewrite lookup_insert.
  case_decide; [simplify_eq|]; eauto.
Qed.

Lemma expire_all_Ok i now ids : forall st el st' el',
  NoDup ids -> st_iter (expire_step s i now) ids (st, el) = ((st', el'), Ok tt) ->
  (forall oid, oid ∉ ids -> st' !! oid = st !! oid /\ (oid ∈ el' <-> oid ∈ el)) /\
  (forall oid, oid ∈ ids -> exists r r' ok, st !! oid = Some r /\ st' !! oid = Some r' /\
     expire_order s i now r = Ok (r', ok) /\ (oid ∈ el' <-> ok = true \/ oid ∈ el)).
Proof.
  induction ids as [|a ids IH]; intros st el st' el' Hnd; cbn [st_iter].
  { unfold mret, ST_ret. intros. simplify_eq. split; [done|]. by intros ? ?%elem_of_nil. }
  apply NoDup_cons in Hnd as [Ha Hnd]. unfold mbind, ST_bind.
  destruct (expire_step s i now a (st, el)) as [[st1 el1] [[]|x]] eqn:Hs; [|done]. intros Hit.
  unfold expire_step in Hs. destruct (st !! a) as [r|] eqn:Hr; [|done].
  destruct (expire_order s i now r) as [[r' ok]|] eqn:Hx; simplify_eq.
  destruct (IH _ _ _ _ Hnd Hit) as [Hone Htwo]. split.
  - intros oid Hn. rewrite not_elem_of_cons in Hn. destruct Hn as [Hn1 Hn2]. destruct (Hone oid Hn2) as [-> ->].
    rewrite lookup_insert_ne by done. split; [done|]. destruct ok; rewrite ?elem_of_cons; naive_solver.
  - intros oid [->|Hin]%elem_of_cons.
    + destruct (Hone a Ha) as [Hst Hel]. exists r, r', ok. rewrite Hst, lookup_insert_eq. split_and!; try done.
      rewrite Hel. destruct ok; rewrite ?elem_of_cons; naive_solver.
    + destruct (Htwo oid Hin) as (r0 & r0' & ok0 & Hr0 & Hr0' & Hx0 & Hel). assert (oid <> a) by (by intros ->).
      rewrite lookup_insert_ne in Hr0 by done. exists r0, r0', ok0. split_and!; try done.
      rewrite Hel. destruct ok; rewrite ?elem_of_cons; naive_solver.
Qed.

(** ** The invariant of a run *)

(** The rules of a schedule are those registered. *)
Definition from_rules (it : SparseIterations (order_tup F D W)) : Prop := forall i t, t ∈ bucket it i ->
  exists name, dict_get (s_rules s) name = Some (ot_rule t).

Lemma append_from_rules it idx t it' name :
  dict_get (s_rules s) name = Some (ot_rule t) -> from_rules it -> append_at it (Z.of_nat idx) t = Ok it' -> from_rules it'.
Proof.
  intros Hr Hf Ha. apply append_bucket in Ha as [_ Hb]. intros i x. rewrite Hb. intros [Hx|Hx]%elem_of_app; [by eapply Hf|].
  case_decide; [|by apply elem_of_nil in Hx]. apply list_elem_of_singleton in Hx as ->. eauto.
Qed.

Lemma generate_from_rules iv sv names groups start_date end_date it :
  generate_order_iterations s iv sv names groups start_date end_date = Ok it -> from_rules it.
Proof.
  intros (it0 & H0' & Hf)%bind_Ok_inv. unfold SparseIterations_init in H0'. apply guard_bind_Ok in H0' as [_ H0']. simplify_eq.
  eapply (foldE_inv from_rules); [| |exact Hf]; [|intros i t Ht; unfold bucket in Ht; simpl in Ht; by apply elem_of_nil in Ht].
  intros ita name itb _ Hit Hgo. eapply (foldE_inv from_rules); [|exact Hit|exact Hgo].
  clear ita itb Hit Hgo Hf. intros it1 g it1' _ Hit. unfold schedule_rule.
  destruct (dict_get (s_rules s) name) as [rule|] eqn:Hr; [|done]. destruct (dict_get (s_rule_signals s) name) as [[sg tests]|]; [|done].
  destruct (dict_get (s_signal_cgroups s) sg); [|done]. case_bool_decide; [|by intros [= <-]].
  intros [_ Hx]%guard_bind_Ok. apply bind_Ok_inv in Hx as (v & _ & Hx). apply bind_Ok_inv in Hx as (m & _ & Hx).
  eapply (foldE_inv from_rules); [|exact Hit|exact Hx]. intros it2 idx it3 _ H1' H2'. eapply append_from_rules; [|exact H1'|exact H2']. exact Hr.
Qed.

Section history.
Context (iv sv : stage_values F) (it : SparseIterations (order_tup F D W)) (e0 : engine F D W).

(** The states the run from [e0] passes through at a bar, between the calls that
    [_run_iteration] makes: after a pass of the market, after a rule, and after the
    orders of a rule were queued. *)
Definition queued e (orders accepted : list positive) : engine F D W :=
  mkEngine (en_world e) (en_heap e) (en_account e) (en_orders e ++ orders) (en_current e ++ accepted) (en_decisions e).

Inductive ran : nat -> engine F D W -> Prop :=
  | ran_start : ran 0 e0
  | ran_later i i' e : (i <= i')%nat -> ran i e -> ran i' e
  | ran_market i now e e' : s_timestamps s !! i = Some now -> ran i e ->
      sim_market s registry_of pf i now iv sv e = (e', Ok tt) -> ran i e'
  | ran_queued i now t e e1 orders e2 accepted : s_timestamps s !! i = Some now -> ran i e -> t ∈ bucket it i ->
      get_orders s registry_of i t now e = (e1, Ok orders) -> decide_all s now [] orders e1 = (e2, Ok accepted) ->
      ran i (queued e2 orders accepted)
  | ran_rule i now t e e' : s_timestamps s !! i = Some now -> ran i e -> t ∈ bucket it i ->
      run_rule s registry_of pf i now iv sv t e = (e', Ok tt) -> ran i e'.

(** The simulators are called in turn, after the pass that found the eligible orders. *)
Definition pass_begun (i : nat) (now : Z) (eligible : list positive) e : Prop := exists e1 st,
  ran i e1 /\ st_iter (expire_step s i now) (en_current e1) (en_heap e1, []) = ((st, eligible), Ok tt) /\ e = set_heap e1 st.

Definition sim_called (i : nat) (now : Z) (eligible : list positive) (sim : sim_fn F W) e : Prop := exists eb sims sims',
  pass_begun i now eligible eb /\ s_market_sims s = sims ++ sim :: sims' /\
  st_iter (run_market_sim s registry_of pf i now iv sv eligible) sims eb = (e, Ok tt).

(** A pending order: it was accepted at the instant it carries, which is bar [j]
    of the grid, not later than bar [i]. *)
Definition order_at (i : nat) e (oid : positive) : Prop := exists r t j d,
  en_heap e !! oid = Some r /\ engine_order r /\ r_timestamp r = Inst (Some t) /\
  s_timestamps s !! j = Some t /\ (j <= i)%nat /\
  d ∈ en_decisions e /\ od_order d = oid /\ od_status d = ACCEPTED /\ od_timestamp d = t.

(** What was returned to the engine and booked: at bar [k] a simulator, called in the
    state [e1] of the run, returned a trade of the object [oid], then pending and
    eligible, and [tr] is that trade as the account took it. *)
Definition booked (k : nat) e1 (oid : positive) (tr : trade F) : Prop := exists now eligible sim e2 w st trades x reg,
  s_timestamps s !! k = Some now /\ sim_called k now eligible sim e1 /\
  run_market_sim s registry_of pf k now iv sv eligible sim e1 = (e2, Ok tt) /\
  sim (filter (fun oid => oid ∈ eligible) (en_current (update_current_orders e1))) k (s_timestamps s) iv sv (en_world e1, en_heap e1) =
    ((w, st), Ok (Inst (Inst <$> trades))) /\
  x ∈ trades /\ rt_order x = Inst oid /\ oid ∈ eligible /\ oid ∈ en_current e1 /\
  check_account_trade (en_account e1) reg (en_heap e2) (Inst x) = Ok tr.

(** A trade executes, at bar [k], an order of which a decision had been taken: that very
    object was accepted at the instant it carries, [lag] bars earlier at least. *)
Definition trade_timely (i : nat) e (tr : trade F) : Prop := exists k e1 oid r t j d,
  booked k e1 oid tr /\ s_timestamps s !! k = Some (t_timestamp tr) /\ (k <= i)%nat /\
  en_heap e1 !! oid = Some r /\ r_timestamp r = Inst (Some t) /\ r_timestamp (t_order tr) = Inst (Some t) /\
  s_timestamps s !! j = Some t /\ Z.of_nat j + s_trade_lag s <= Z.of_nat k /\
  d ∈ en_decisions e1 /\ d ∈ en_decisions e /\ od_order d = oid /\ od_status d = ACCEPTED /\ od_timestamp d = t.

Record run_inv (i : nat) e : Prop := RunInv {
  ri_nodup : NoDup (en_current e);
  ri_orders oid : oid ∈ en_current e -> order_at i e oid;
  ri_trades tr : tr ∈ ac_trades (en_account e) -> trade_timely i e tr;
  ri_ledgers : dict_wf (ac_symbol_pnls (en_account e));
}.

Lemma run_inv_engine_orders i e : run_inv i e -> engine_orders (en_current e) (en_heap e).
Proof. intros Hi oid Ho. destruct (ri_orders _ _ Hi oid Ho) as (r & _ & _ & _ & ? & ? & _). eauto. Qed.

(** The orders [ids] keep their identity and stay orders. *)
Definition tracks (ids : list positive) st st' : Prop := forall oid r,
  oid ∈ ids -> st !! oid = Some r -> engine_order r ->
  exists r', st' !! oid = Some r' /\ same_identity r r' /\ engine_order r'.

Lemma undisturbed_tracks ids st st' : undisturbed ids st st' -> tracks ids st st'.
Proof.
  intros Hu oid r Ho Hr He. destruct (Hu oid r Ho Hr) as (r' & ? & Hg). exists r'.
  split_and!; [done|by apply guarded_identity|by eapply guarded_same_engine].
Qed.

Lemma cancels_tracks ids st st' : cancels_some st st' -> tracks ids st st'.
Proof.
  intros Hc oid r _ Hr He. destruct (Hc oid r Hr) as (r' & Hr' & [ -> | -> ]); [exists r|exists (raw_cancel r)].
  - split_and!; [done|by apply same_identity_refl|done].
  - destruct (cancel_identity r He). done.
Qed.

Lemma tracks_trans ids st1 st2 st3 : tracks ids st1 st2 -> tracks ids st2 st3 -> tracks ids st1 st3.
Proof.
  intros Ha Hb oid r Ho Hr He. destruct (Ha oid r Ho Hr He) as (r2 & Hr2 & Hi2 & He2).
  destruct (Hb oid r2 Ho Hr2 He2) as (r3 & Hr3 & Hi3 & He3). exists r3. split_and!; try done. by eapply same_identity_trans.
Qed.

Lemma tracks_sub ids ids' st st' : (forall x, x ∈ ids' -> x ∈ ids) -> tracks ids st st' -> tracks ids' st st'.
Proof. intros Hs Ht oid r Ho. apply Ht. auto. Qed.

Lemma order_at_tracks i i' e e' ids oid :
  oid ∈ ids -> (i <= i')%nat -> tracks ids (en_heap e) (en_heap e') ->
  (forall d, d ∈ en_decisions e -> d ∈ en_decisions e') -> order_at i e oid -> order_at i' e' oid.
Proof.
  intros Ho Hi Ht Hd (r & t & j & d & Hr & He & Hts & Hj & Hji & Hin & ?). destruct (Ht oid r Ho Hr He) as (r' & Hr' & (_ & Ht' & _) & He').
  exists r', t, j, d. split_and!; try tauto; [congruence|lia|auto].
Qed.

Lemma trade_timely_mono i i' e e' tr : (i <= i')%nat -> (forall d, d ∈ en_decisions e -> d ∈ en_decisions e') ->
  trade_timely i e tr -> trade_timely i' e' tr.
Proof.
  intros Hi Hd (k & e1 & oid & r & t & j & d & Hb & Ht & Hk & Hr & Hrt & Htt & Hj & Hlag & Hd1 & Hd2 & Hrest).
  exists k, e1, oid, r, t, j, d. split_and!; try done; try apply Hrest; [lia|auto].
Qed.

(** A step that books nothing keeps the invariant if pending orders are tracked. *)
Lemma run_inv_tracks i i' e e' :
  (i <= i')%nat -> run_inv i e -> NoDup (en_current e') -> (forall x, x ∈ en_current e' -> x ∈ en_current e) ->
  (forall d, d ∈ en_decisions e -> d ∈ en_decisions e') -> tracks (en_current e') (en_heap e) (en_heap e') ->
  keeps_trades (en_account e) (en_account e') -> run_inv i' e'.
Proof.
  intros Hi [Hnd Ho Htr Hl] Hnd' Hsub Hd Ht (Hk1 & _ & Hk3). split; try done; [| |auto].
  - intros oid Hin. eapply order_at_tracks; [exact Hin|exact Hi|exact Ht|exact Hd|auto].
  - intros tr Hin. rewrite Hk1 in Hin. eapply trade_timely_mono; [exact Hi|exact Hd|auto].
Qed.

Lemma run_inv_update i e : run_inv i e -> run_inv i (update_current_orders e).
Proof.
  intros Hi. eapply run_inv_tracks; [done|exact Hi| | |done| |done].
  - apply NoDup_filter, Hi.
  - intros x. apply filter_sub.
  - apply undisturbed_tracks, undisturbed_refl. eapply engine_orders_sub; [|exact (run_inv_engine_orders _ _ Hi)].
    intros x. apply filter_sub.
Qed.

(** The orders a pass found eligible, for as long as they are pending. *)
Definition eligible_at (i : nat) e (eligible : list positive) : Prop := forall oid, oid ∈ eligible -> oid ∈ en_current e ->
  exists r t j, en_heap e !! oid = Some r /\ r_timestamp r = Inst (Some t) /\ s_timestamps s !! j = Some t /\
    Z.of_nat j + s_trade_lag s <= Z.of_nat i.

Lemma eligible_at_tracks i e e' eligible :
  (forall x, x ∈ en_current e' -> x ∈ en_current e) -> engine_orders (en_current e) (en_heap e) ->
  tracks (en_current e') (en_heap e) (en_heap e') -> eligible_at i e eligible -> eligible_at i e' eligible.
Proof.
  intros Hs Heng Ht Hel oid Ho Hc. destruct (Hel oid Ho (Hs _ Hc)) as (r & t & j & Hr & Hts & ?).
  destruct (Heng oid (Hs _ Hc)) as (r0 & Hr0 & He). simplify_eq.
  destruct (Ht oid r Hc Hr He) as (r' & ? & (_ & ? & _) & _). exists r', t, j. split_and!; [done|congruence|tauto..].
Qed.

(** ** Market simulation *)

(** What the checks of a booked trade say of its times. *)
Lemma check_account_trade_times (a : Account F D) reg st x tr oid now :
  check_account_trade a reg st (Inst x) = Ok tr -> rt_order x = Inst oid -> rt_timestamp x = Inst (Some now) ->
  t_timestamp tr = now /\ st !! oid = Some (t_order tr).
Proof.
  unfold check_account_trade, check_trade. intros Hc Ho Ht. rewrite Ho, Ht in Hc. inv_ok Hc.
  apply bind_Ok_inv in Hbind as ([[c o] ts] & Href & Hb). apply bind_Ok_inv in Hb as ([[[q p] f] k] & _ & [= <-]).
  apply validate_trade_references_Ok in Href as (_ & Hfo & Hts & _). simpl. split; [by simplify_eq|].
  unfold find_order in Hfo. destruct (st !! oid); naive_solver.
Qed.

Lemma filled_tracks now view cur trades e e' :
  engine_orders cur (en_heap e) -> filled_by now view cur trades e e' -> tracks cur (en_heap e) (en_heap e').
Proof.
  intros He (_ & Hout & Hin) oid r Ho Hr Heng. destruct (decide (oid ∈ view)) as [Hv|Hv].
  - destruct (Hin oid r Hv Hr) as (r' & Hr' & Hf & _). exists r'. split_and!; [done|by destruct Hf|by eapply fill_outcome_engine].
  - destruct (Hout oid r Ho Hv Hr) as (r' & Hr' & Hg). exists r'.
    split_and!; [done|by apply guarded_identity|by eapply guarded_same_engine].
Qed.

Lemma booked_timely i now eligible sim e0' e e' tr :
  s_timestamps s !! i = Some now -> run_inv i e0' -> eligible_at i e0' eligible -> sim_called i now eligible sim e0' ->
  run_market_sim s registry_of pf i now iv sv eligible sim e0' = (e', Ok tt) -> e = update_current_orders e0' ->
  (exists trades, (exists w st, sim (filter (fun oid => oid ∈ eligible) (en_current e)) i (s_timestamps s) iv sv (en_world e0', en_heap e0')
      = ((w, st), Ok (Inst (Inst <$> trades)))) /\
    filled_by now (filter (fun oid => oid ∈ eligible) (en_current e)) (en_current e) trades e e' /\ books registry_of trades e e') ->
  en_decisions e' = en_decisions e -> tr ∈ ac_trades (en_account e') -> trade_timely i e' tr.
Proof.
  intros Hnow Hinv Hel Hcall Hrun -> (trades & (w & st & Hsim) & (Hfor & _ & Hin) & w' & new & Hall & Hac & _) Hd Htr. rewrite Hac in Htr.
  apply elem_of_app in Htr as [Htr|Htr].
  { eapply trade_timely_mono; [done| |by eapply (ri_trades _ _ Hinv)]. by rewrite Hd. }
  rewrite (sorted_by_perm t_timestamp new) in Htr. apply list_elem_of_lookup in Htr as [n Htr].
  destruct (Forall2_lookup_r _ _ _ _ _ Hall Htr) as (x & Hx & Hck). apply list_elem_of_lookup_2 in Hx.
  rewrite Forall_forall in Hfor. destruct (Hfor x Hx) as (oid & Ho & Hv & Hts).
  destruct (check_account_trade_times _ _ _ _ _ _ _ Hck Ho Hts) as [Hnow' Hord].
  pose proof (proj1 (list_elem_of_filter _ _ _) Hv) as [Hoel Hoc]. apply filter_sub in Hoc.
  destruct (ri_orders _ _ Hinv oid Hoc) as (r & t & _ & d & Hr & _ & Hrt & _ & _ & Hdin & Hdo & Hacpt & Hdt).
  destruct (Hel oid Hoel Hoc) as (r2 & t2 & j & Hr2 & Ht2 & Hj & Hlag). simplify_eq.
  destruct (Hin (od_order d) r Hv Hr) as (r' & Hr' & ((_ & Hrt' & _) & _) & _). simplify_eq.
  assert (t2 = od_timestamp d) as -> by congruence.
  exists i, e0', (od_order d), r, (od_timestamp d), j, d. rewrite Hd. split_and!; try done; [|congruence].
  exists (t_timestamp tr), eligible, sim, e', w, st, trades, x, (registry_of w'). by split_and!.
Qed.

Lemma run_market_sim_inv i now eligible sim e e' res :
  sim_keeps sim -> s_timestamps s !! i = Some now -> run_inv i e -> eligible_at i e eligible -> sim_called i now eligible sim e ->
  run_market_sim s registry_of pf i now iv sv eligible sim e = (e', res) ->
  run_inv i e' /\ eligible_at i e' eligible /\ keeps (en_heap e) (en_heap e') /\
  en_orders e' = en_orders e /\ en_decisions e' = en_decisions e.
Proof.
  intros Hk Hnow Hinv Hel Hcall Hr. pose proof (run_inv_engine_orders _ _ Hinv) as Heng. pose proof Hr as Hrun.
  apply run_market_sim_spec in Hr as ((Ho & Hc & Hd) & Hks & Hres); [|done|apply Hinv|done|apply Hinv].
  pose proof (run_inv_update _ _ Hinv) as Hinv1. pose proof (run_inv_engine_orders _ _ Hinv1) as Heng1.
  set (e1 := update_current_orders e) in *.
  assert (eligible_at i e1 eligible) as Hel1.
  { eapply (eligible_at_tracks i e e1); [|exact Heng| |exact Hel]; [intros x; apply filter_sub|]. by apply undisturbed_tracks, undisturbed_refl. }
  assert (tracks (en_current e') (en_heap e1) (en_heap e')) as Ht.
  { rewrite Hc. destruct res as [[]|x].
    - destruct Hres as (trades & _ & Hf & _). by eapply filled_tracks.
    - destruct Hres as (Hu & _). by apply undisturbed_tracks. }
  assert (eligible_at i e' eligible) by (eapply (eligible_at_tracks i e1 e'); [by rewrite Hc|exact Heng1|exact Ht|exact Hel1]).
  split_and!; try done. destruct res as [[]|x].
  - pose proof Hres as (trades & _ & Hf & Hb). split.
    + rewrite Hc. apply Hinv1.
    + intros oid Hin. eapply order_at_tracks; [exact Hin|done|exact Ht|by rewrite Hd|]. rewrite Hc in Hin. by apply Hinv1.
    + intros tr Htr. by eapply (booked_timely i now eligible sim e e1).
    + by destruct Hb as (w & new & _ & _ & _ & ?).
  - destruct Hres as (_ & Hacc & _). eapply run_inv_tracks; [done|exact Hinv1|rewrite Hc; apply Hinv1|by rewrite Hc|by rewrite Hd|exact Ht|].
    rewrite Hacc. done.
Qed.

(** What simulators are assumed to do. *)
Definition sims_ok : Prop := Forall sim_keeps (s_market_sims s).

Lemma run_market_sims_inv i now eligible eb sims : forall don e e' res,
  pass_begun i now eligible eb -> s_market_sims s = don ++ sims ->
  st_iter (run_market_sim s registry_of pf i now iv sv eligible) don eb = (e, Ok tt) ->
  Forall sim_keeps sims -> s_timestamps s !! i = Some now -> run_inv i e -> eligible_at i e eligible ->
  st_iter (run_market_sim s registry_of pf i now iv sv eligible) sims e = (e', res) ->
  run_inv i e' /\ keeps (en_heap e) (en_heap e') /\ en_orders e' = en_orders e /\ en_decisions e' = en_decisions e.
Proof.
  induction sims as [|sim sims IH]; intros don e e' res Hbeg Hsims Hdon Hk Hnow Hinv Hel; cbn [st_iter].
  { unfold mret, ST_ret. intros. simplify_eq. done. }
  inversion Hk; subst. assert (sim_called i now eligible sim e) as Hcall by (by exists eb, don, sims). unfold mbind, ST_bind.
  destruct (run_market_sim _ _ _ _ _ _ _ _ _ e) as [e1 [[]|x]] eqn:Hs; intros Hit;
    pose proof Hs as Hs0; apply run_market_sim_inv in Hs as (Hi1 & Hel1 & Hk1 & Ho1 & Hd1); try done.
  - assert (st_iter (run_market_sim s registry_of pf i now iv sv eligible) (don ++ [sim]) eb = (e1, Ok tt)) as Hdon'.
    { rewrite st_iter_app. unfold mbind, ST_bind. rewrite Hdon. cbn [st_iter]. unfold mbind, ST_bind. by rewrite Hs0. }
    destruct (IH (don ++ [sim]) e1 e' res Hbeg ltac:(by rewrite <- app_assoc) Hdon' ltac:(done) Hnow Hi1 Hel1 Hit) as (? & ? & ? & ?). split_and!; [done|by etrans|congruence|congruence].
  - simplify_eq. done.
Qed.

(** [sim_market]: every pending order carries a grid instant, so the pass never
    stops on one. *)
Lemma sim_market_inv i now e e' res :
  sims_ok -> grid (s_timestamps s) -> s_timestamps s !! i = Some now -> run_inv i e -> ran i e ->
  sim_market s registry_of pf i now iv sv e = (e', res) ->
  run_inv i e' /\ keeps (en_heap e) (en_heap e') /\ en_orders e' = en_orders e /\ en_decisions e' = en_decisions e.
Proof.
  intros Hk Hg Hnow Hinv Hran. unfold sim_market.
  destruct (st_iter (expire_step s i now) (en_current e) (en_heap e, [])) as [[st el] [[]|x]] eqn:Hx.
  all: pose proof Hx as Hcan; apply (st_iter_rel cancels_some2) in Hcan;
    [|intros oid x1 x2 r _; apply expire_step_cancels]; change (cancels_some (en_heap e) st) in Hcan.
  all: assert (run_inv i (set_heap e st)) as Hinv1 by
    (eapply run_inv_tracks; [done|exact Hinv|apply Hinv|done|done|by apply cancels_tracks|done]).
  all: assert (keeps (en_heap e) st) as Hks by (intros oid [r Hr]; destruct (Hcan oid r Hr) as (r' & Hr' & _); eauto).
  2:{ intros. simplify_eq. done. }
  assert (eligible_at i (set_heap e st) el) as Hel.
  { intros oid Hoel Hoc. destruct (expire_all_Ok _ _ _ _ _ _ _ (ri_nodup _ _ Hinv) Hx) as [_ Htwo].
    destruct (Htwo oid Hoc) as (r & r' & ok & Hr & Hr' & Hex & Hiff). apply Hiff in Hoel as [->|Hn]; [|by apply elem_of_nil in Hn].
    destruct (ri_orders _ _ Hinv1 oid Hoc) as (r1 & t & j & d & Hr1 & _ & Ht & Hj & _). simpl in Hr1.
    rewrite Hr' in Hr1. injection Hr1 as <-.
    apply expire_order_Ok in Hex as (t' & Ht' & _ & _ & Hc & Hok & _). destruct (Hok eq_refl) as [Hlag _].
    assert (r_timestamp r' = r_timestamp r) as Heq by (destruct Hc as [->| ->]; [done|unfold raw_cancel; by destruct (r_status r) as [[]|]]).
    assert (t' = t) as -> by congruence. exists r', t, j. split_and!; try done.
    rewrite (np_searchsorted_left_count _ _ Hg), (count_lt_lookup _ j t) in Hlag by done. lia. }
  destruct (st_iter _ (s_market_sims s) _) as [e1 [[]|x]] eqn:Hs; intros; simplify_eq;
    apply (run_market_sims_inv i now el (set_heap e st) _ []) in Hs as (Hi1 & Hk1 & Ho1 & Hd1); try done; try (by exists e, st);
    (split_and!; [try by apply run_inv_update|by etrans|done|done]). done.
Qed.

(** ** Rules *)

(** A rule returns references to objects, loses none, and books no trade itself. *)
Definition rule_ok (rule : rule_fn F D W) : Prop := forall g i ts iv sv cur w st a w' st' a' res,
  rule g i ts iv sv cur (w, (st, a)) = ((w', (st', a')), res) ->
  keeps st st' /\ keeps_trades a a' /\ (forall l oid, res = Ok (Inst l) -> Inst oid ∈ l -> is_Some (st' !! oid)).

(** What a rule may do to a pending order: ask for its cancellation, or cancel it. *)
Definition rule_outcome r r' : Prop :=
  same_identity r r' /\ py_int (r_qty r') = py_int (r_qty r) /\
  (r_status r' = r_status r \/ r_status r' = Inst CANCEL_REQUESTED \/ r_status r' = Inst CANCELLED).

Lemma admitted_engine_order reg g now r :
  admitted reg g now r -> engine_order r /\ r_timestamp r = Inst (Some now).
Proof.
  intros [(c & Hc & _) Ht (tif & Htif) (x & Hx) (q & Hq) _]. split; [|done]. apply engine_order_fields.
  apply whole_quantity_py_int in Hq. eauto 10.
Qed.

Lemma validate_rule_change oid r st :
  engine_order r -> validate_unchanged true (capture_of oid r) st = Ok tt ->
  exists r', st !! oid = Some r' /\ rule_outcome r r'.
Proof.
  intros (c & t & tif & x & q & Hc & Ht & Htif & Hs & Hq)%engine_order_fields. unfold validate_unchanged.
  intros ([] & Hid & Hv)%bind_Ok_inv. apply validate_identity_same in Hid as (r' & Hr' & ? & ? & ?).
  change (cs_order (capture_of oid r)) with oid in Hv. rewrite Hr' in Hv. simpl in Hv. inv_ok Hv.
  rewrite negb_orb, !negb_involutive in Hguard. bools.
  exists r'. split; [done|]. split_and!; try done.
  - rewrite Hq. by eapply py_eqb_py_int.
  - destruct (inst_eqb (r_status r') (r_status r)) eqn:E; [left; by apply inst_eqb_same|right].
    destruct (r_status r') as [[]|]; rewrite ?andb_false_r in Hv; simpl in Hv; rewrite ?andb_false_r in Hv; naive_solver.
Qed.

Lemma rule_outcome_engine r r' : engine_order r -> rule_outcome r r' -> engine_order r'.
Proof.
  intros He (Hi & Hq & Hs). destruct (proj1 (engine_order_fields r) He) as (c & t & tif & x & q & _ & _ & _ & Hx & Hq0).
  rewrite Hq0 in Hq. rewrite Hx in Hs. destruct Hs as [Hs|[Hs|Hs]]; by eapply same_identity_engine.
Qed.

Lemma validate_all_rule ids st st' :
  engine_orders ids st -> validate_all true (capture_all st ids) st' = Ok tt ->
  forall oid r, oid ∈ ids -> st !! oid = Some r -> exists r', st' !! oid = Some r' /\ rule_outcome r r'.
Proof.
  unfold validate_all. intros He Hv oid r Ho Hr. apply iterE_Ok in Hv. rewrite Forall_forall in Hv.
  destruct (He oid Ho) as (r' & Hr' & Heng). simplify_eq. apply validate_rule_change; [done|]. apply Hv. by apply capture_all_in.
Qed.

(** Whatever [validate_rule_orders] returns, existing objects are untouched. *)
Lemma expand_roll_extends oid r prefix index st st' res :
  expand_roll oid r prefix index st = (st', res) -> extends st st'.
Proof.
  unfold expand_roll. destruct (legs r (pretty oid)) as [[o1 o2]|]; [|by intros; simplify_eq].
  destruct (alloc st _) as [st1 x] eqn:Hx. destruct (alloc st1 _) as [st2 y] eqn:Hy. intros. simplify_eq.
  apply alloc_spec in Hx as (Hx & _), Hy as (Hy & _). intros i ri Hi. by apply Hy, Hx.
Qed.

Lemma admit_orders_extends reg g now prefix l : forall acc st st' res,
  admit_orders reg g now prefix acc l st = (st', res) -> extends st st'.
Proof.
  induction l as [|x l IH]; intros acc st st' res; cbn [admit_orders]; [by intros; simplify_eq|].
  destruct (admit_order reg g now prefix acc x st) as [st1 r] eqn:Ha.
  assert (extends st st1) as Hext.
  { unfold admit_order in Ha. destruct acc as [[n seen] orders], x as [oid|]; [|by simplify_eq].
    destruct (st !! oid) as [r0|]; [|by simplify_eq]. case_bool_decide; [by simplify_eq|].
    destruct (check_rule_order reg g now r0); [|by simplify_eq].
    destruct (r_kind r0); try (by simplify_eq). destruct (expand_roll _ _ _ _ st) as [st2 [ids|]] eqn:Hr;
      apply expand_roll_extends in Hr; by simplify_eq. }
  destruct r as [acc'|]; [|by intros; simplify_eq]. intros Hl%IH. by etrans.
Qed.

Lemma validate_rule_orders_extends reg result g now pending prefix st st' res :
  validate_rule_orders reg result g now pending prefix st = (st', res) -> extends st st'.
Proof. unfold validate_rule_orders. destruct result; [apply admit_orders_extends|by intros; simplify_eq]. Qed.

Lemma extends_keeps st st' : extends st st' -> keeps st st'.
Proof. intros He i [r Hr]. exists r. by apply He. Qed.

Lemma account_position_keeps g t (a a' : Account F D) res : account_position g t a = (a', res) -> keeps_trades a a'.
Proof.
  unfold account_position. destruct (require_configured_group a g); intros; simplify_eq; [|done]. by split_and!.
Qed.

Lemma check_position_filter_spec t now e e' res :
  check_position_filter s t now e = (e', res) ->
  same_lists e e' /\ en_heap e' = en_heap e /\ keeps_trades (en_account e) (en_account e').
Proof.
  unfold check_position_filter. destruct (dict_get _ _) as [[f|]|]; [|by intros; simplify_eq..].
  destruct (account_position _ _ _) as [a r] eqn:Ha. apply account_position_keeps in Ha. by intros; simplify_eq.
Qed.

Lemma call_rule_spec i t now states e e' res :
  rule_ok (ot_rule t) -> engine_orders (en_current e) (en_heap e) -> states = capture_all (en_heap e) (en_current e) ->
  call_rule s registry_of i t now states e = (e', res) ->
  same_lists e e' /\ keeps (en_heap e) (en_heap e') /\ keeps_trades (en_account e) (en_account e') /\
  forall orders, res = Ok orders ->
    (forall oid r, oid ∈ en_current e -> en_heap e !! oid = Some r ->
       exists r', en_heap e' !! oid = Some r' /\ rule_outcome r r') /\
    NoDup orders /\ (forall oid, oid ∈ orders -> oid ∉ en_current e) /\
    (exists w, forall oid, oid ∈ orders -> exists r, en_heap e' !! oid = Some r /\ admitted (registry_of w) (ot_group t) now r).
Proof.
  intros Hk He -> Hc. unfold call_rule in Hc.
  destruct (ot_rule t _ _ _ _ _ _ _) as [[w [st a]] [returned|x]] eqn:Hr;
    destruct (Hk _ _ _ _ _ _ _ _ _ _ _ _ _ Hr) as (Hks & Hkt & Href); [|by simplify_eq]. cbv zeta in Hc.
  destruct (validate_all _ _ _) as [[]|x] eqn:Hv; [|by simplify_eq].
  pose proof (validate_all_rule _ _ _ He Hv) as Hout. cbn [set_world_of en_heap en_current en_orders en_world en_account fst snd] in *.
  destruct (validate_rule_orders _ _ _ _ _ _ st) as [st2 r2] eqn:Hval. simplify_eq.
  pose proof (validate_rule_orders_extends _ _ _ _ _ _ _ _ _ Hval) as Hext. simpl.
  split_and!; [done|etrans; [exact Hks|by apply extends_keeps]|done|]. intros orders ->.
  apply validate_rule_orders_Ok in Hval as (Hnd & Hnew & _ & Had); [| |intros l oid ->; by apply Href].
  - split_and!; [|done|done|by exists w]. intros oid r Ho Hr0. destruct (Hout oid r Ho Hr0) as (r' & Hr' & ?). eauto.
  - intros oid Ho. destruct (He oid Ho) as (r & Hr0 & _). apply Hks. eauto.
Qed.

(** [_get_orders]: when it raises, pending orders are what they were. *)
Lemma get_orders_spec i t now e e' res :
  rule_ok (ot_rule t) -> engine_orders (en_current e) (en_heap e) ->
  get_orders s registry_of i t now e = (e', res) ->
  same_lists e e' /\ keeps (en_heap e) (en_heap e') /\ keeps_trades (en_account e) (en_account e') /\
  match res with
  | Err x => undisturbed (en_current e) (en_heap e) (en_heap e') /\
      (is_Exception x = true -> exists y, x = BacktestCallbackError "rule callback failed" y)
  | Ok orders =>
      (forall oid r, oid ∈ en_current e -> en_heap e !! oid = Some r ->
         exists r', en_heap e' !! oid = Some r' /\ rule_outcome r r') /\
      NoDup orders /\ (forall oid, oid ∈ orders -> oid ∉ en_current e) /\
      (exists reg, forall oid, oid ∈ orders -> exists r, en_heap e' !! oid = Some r /\ admitted reg (ot_group t) now r)
  end.
Proof.
  intros Hk He. unfold get_orders. destruct (check_position_filter s t now e) as [e1 [[]|x]] eqn:Hf;
    apply check_position_filter_spec in Hf as ((Ho & Hc & Hd) & Hh & Hkt).
  - intros. simplify_eq. rewrite Hh. split_and!; try done; [|by apply NoDup_nil|intros oid Hn; by apply elem_of_nil in Hn
      |exists (registry_of (en_world e)); intros oid Hn; by apply elem_of_nil in Hn].
    intros oid r Hin Hr. destruct (He oid Hin) as (r0 & Hr0 & Heng). simplify_eq. exists r. split; [done|].
    split_and!; [by apply same_identity_refl|done|auto].
  - destruct (call_rule _ _ _ _ _ _ e1) as [e2 r2] eqn:Hcall. rewrite Hh, Hc in Hcall.
    apply call_rule_spec in Hcall as ((Ho2 & Hc2 & Hd2) & Hks2 & Hkt2 & Hok); [|done|by rewrite Hh, Hc|by rewrite Hh, Hc].
    rewrite Hh, Hc in Hok. rewrite Hh in Hks2. assert (keeps_trades (en_account e) (en_account e2)) as Hkt3 by (by etrans).
    destruct r2 as [orders|x]; intros; simplify_eq.
    + destruct (Hok orders eq_refl) as (? & ? & ? & w & ?). split_and!; try done; [split_and!; congruence|by exists (registry_of w)].
    + simpl. rewrite Hh, Hc. split_and!; [split_and!; simpl; congruence|etrans; [exact Hks2|apply keeps_restore]|done| |].
      * by apply restore_undisturbed.
      * by eapply callback_error_form.
  - intros. simplify_eq. rewrite Hh. split_and!; try done; [by apply undisturbed_refl|by eapply callback_error_form].
Qed.

(** ** Risk decisions *)

(** The guarded fields of every order object are as they were. *)
Definition looks st st' : Prop := forall i r, st !! i = Some r -> engine_order r ->
  exists r', st' !! i = Some r' /\ guarded_same r r'.

(** A policy looks at orders and books no trade. *)
Definition policy_ok (p : policy F D W) : Prop := forall oid ctx w st a w' st' a' res,
  po_evaluate p oid ctx (w, (st, a)) = ((w', (st', a')), res) -> keeps st st' /\ looks st st' /\ keeps_trades a a'.

Definition looks_only (x y : world F D W) : Prop :=
  keeps x.2.1 y.2.1 /\ looks x.2.1 y.2.1 /\ keeps_trades x.2.2 y.2.2.

Lemma looks_trans st1 st2 st3 : looks st1 st2 -> looks st2 st3 -> looks st1 st3.
Proof.
  intros Ha Hb i r Hr He. destruct (Ha i r Hr He) as (r2 & Hr2 & Hg2).
  destruct (Hb i r2 Hr2 (guarded_same_engine _ _ He Hg2)) as (r3 & Hr3 & Hg3). exists r3. split; [done|].
  by eapply guarded_same_trans.
Qed.

Lemma looks_refl st : looks st st.
Proof. intros i r Hr He. exists r. split; [done|]. by apply guarded_same_refl. Qed.

#[export] Instance looks_only_preorder : PreOrder looks_only.
Proof.
  split; [intros x; split_and!; [done|apply looks_refl|done]|]. intros x y z (?&?&?) (?&?&?).
  split_and!; [by etrans|by eapply looks_trans|by etrans].
Qed.

Lemma restore_looks ids st st' : looks st st' -> looks st (restore_all (capture_all st ids) st').
Proof.
  intros Hl i r Hr He. destruct (Hl i r Hr He) as (r' & Hr' & Hg). rewrite restore_all_lookup, Hr'. simpl.
  eexists. split; [done|]. destruct (last _) as [c|] eqn:Hc; [|done].
  apply last_Some_elem_of, list_elem_of_filter in Hc as [Hci Hc]. apply capture_all_elem in Hc as (j & r1 & _ & Hr1 & ->).
  simpl in Hci. subst j. simplify_eq. simpl. apply (guarded_same_refl r He).
Qed.

Lemma evaluate_policy_looks p oid ctx x y res :
  policy_ok p -> evaluate_policy p oid ctx x = (y, res) -> looks_only x y.
Proof.
  destruct x as [w [st a]]. intros Hp. unfold evaluate_policy.
  destruct (po_evaluate p oid ctx (w, (st, a))) as [[w1 [st1 a1]] r] eqn:He. destruct (Hp _ _ _ _ _ _ _ _ _ He) as (Hk & Hl & Ht).
  set (ids := oid :: rc_open_orders ctx). pose proof (restore_looks ids _ _ Hl) as Hl2.
  assert (keeps st (restore_all (capture_all st ids) st1)) as Hk2 by (etrans; [exact Hk|apply keeps_restore]).
  destruct r as [v|]; [destruct (validate_all _ _ _)|]; intros; simplify_eq; by split_and!.
Qed.

Lemma OrderDecision_new_Ok oid x pol code msg t st d :
  OrderDecision_new oid x pol code msg t st = Ok d -> od_order d = oid /\ od_timestamp d = t /\ od_status d = x.
Proof. unfold OrderDecision_new. destruct (st !! oid); [|done]. intros Hn. by inv_ok Hn. Qed.

Lemma decide_policies_looks ps oid ctx : forall x y res,
  Forall policy_ok ps -> decide_policies ps oid ctx x = (y, res) ->
  looks_only x y /\ forall d, res = Ok d -> od_order d = oid /\ od_timestamp d = rc_timestamp ctx.
Proof.
  induction ps as [|p ps IH]; intros x y res Hps; cbn [decide_policies].
  { destruct x as [w [st a]]. intros. simplify_eq. split; [done|]. by intros d (?&?&_)%OrderDecision_new_Ok. }
  inversion Hps; subst. destruct (evaluate_policy p oid ctx x) as [[w1 [st1 a1]] r] eqn:He.
  apply evaluate_policy_looks in He; [|done]. destruct r as [[v|]|]; [destruct (pr_accepted v)|..]; intros Hd.
  - apply IH in Hd as [? ?]; [|done]. split; [by etrans|done].
  - simplify_eq. split; [done|]. by intros d (?&?&_)%OrderDecision_new_Ok.
  - by simplify_eq.
  - by simplify_eq.
Qed.

Lemma decide_order_looks ps oid ctx x y res :
  Forall policy_ok ps -> decide_order ps oid ctx x = (y, res) ->
  looks_only x y /\ forall d, res = Ok d -> od_order d = oid /\ od_timestamp d = rc_timestamp ctx.
Proof.
  intros Hps. unfold decide_order. destruct x as [w [st a]]. destruct (st !! oid); [|by intros; simplify_eq].
  destruct (_ ≫= _); [by apply decide_policies_looks|by intros; simplify_eq].
Qed.

(** What the engine knows while it decides on the orders of one rule. *)
Record deciding (i : nat) (now : Z) e (accepted orders : list positive) : Prop := {
  dc_inv : run_inv i e;
  dc_nodup : NoDup (en_current e ++ accepted ++ orders);
  dc_accepted oid : oid ∈ accepted -> order_at i e oid;
  dc_orders oid : oid ∈ orders -> exists r, en_heap e !! oid = Some r /\ engine_order r /\ r_timestamp r = Inst (Some now);
}.

(** The outcome of the decisions taken so far. *)
Definition decided e e' : Prop :=
  en_orders e' = en_orders e /\ en_current e' = en_current e /\ keeps (en_heap e) (en_heap e').

Lemma looks_tracks ids st st' : looks st st' -> tracks ids st st'.
Proof.
  intros Hl oid r _ Hr He. destruct (Hl oid r Hr He) as (r' & ? & Hg).
  exists r'. split_and!; [done|by apply guarded_identity|by eapply guarded_same_engine].
Qed.

Lemma deciding_tracks i now e e' accepted orders :
  en_current e' = en_current e -> (forall d, d ∈ en_decisions e -> d ∈ en_decisions e') ->
  tracks (en_current e ++ accepted ++ orders) (en_heap e) (en_heap e') -> keeps_trades (en_account e) (en_account e') ->
  deciding i now e accepted orders -> deciding i now e' accepted orders.
Proof.
  intros Hc Hd Ht Hk [Hinv Hnd Hacc Hord]. split; rewrite ?Hc; try done.
  - eapply run_inv_tracks; [done|exact Hinv|rewrite Hc; apply Hinv|by rewrite Hc|exact Hd| |exact Hk].
    rewrite Hc. eapply tracks_sub; [|exact Ht]. intros x Hx. apply elem_of_app. by left.
  - intros oid Ho. eapply order_at_tracks; [|done|exact Ht|exact Hd|by apply Hacc]. rewrite !elem_of_app. tauto.
  - intros oid Ho. destruct (Hord oid Ho) as (r & Hr & He & Htm).
    destruct (Ht oid r) as (r' & Hr' & (_ & Htm' & _) & He'); [rewrite !elem_of_app; tauto|done|done|].
    exists r'. split_and!; [done|done|congruence].
Qed.

Lemma deciding_accept i now e accepted orders oid d :
  s_timestamps s !! i = Some now -> d ∈ en_decisions e -> od_order d = oid -> od_status d = ACCEPTED -> od_timestamp d = now ->
  deciding i now e accepted (oid :: orders) -> deciding i now e (accepted ++ [oid]) orders.
Proof.
  intros Hnow Hd Ho Hs Ht [Hinv Hnd Hacc Hord]. split; [done|by rewrite <- app_assoc| |intros j Hj; apply Hord; by right].
  intros j [Hj|Hj%list_elem_of_singleton]%elem_of_app; [by apply Hacc|subst j].
  destruct (Hord oid ltac:(left)) as (r & Hr & He & Htm). exists r, now, i, d. split_and!; try done; lia.
Qed.

Lemma deciding_reject i now e accepted orders oid :
  deciding i now e accepted (oid :: orders) ->
  deciding i now (set_heap e (alter raw_cancel oid (en_heap e))) accepted orders.
Proof.
  intros Hdc. assert (deciding i now e accepted orders) as Hdc'.
  { destruct Hdc as [Hinv Hnd Hacc Hord]. split; [done| |done|intros j Hj; apply Hord; by right].
    eapply sublist_NoDup; [exact Hnd|]. apply sublist_app; [done|]. apply sublist_app; [done|]. by apply sublist_cons. }
  eapply (deciding_tracks i now e); [done|done| |done|exact Hdc']. simpl. intros j r _ Hr He. rewrite lookup_alter.
  case_decide; subst; rewrite Hr; simpl; eexists; (split; [done|]).
  - by apply cancel_identity.
  - split; [by apply same_identity_refl|done].
Qed.

(** What simulators, rules and policies are assumed to do. *)
Definition policies_ok : Prop := Forall policy_ok (s_risk_policies s).

Lemma decide_step_inv i now e accepted oid orders e' res :
  policies_ok -> s_timestamps s !! i = Some now -> deciding i now e accepted (oid :: orders) ->
  decide_step s now accepted oid e = (e', res) ->
  decided e e' /\ run_inv i e' /\
  forall accepted', res = Ok accepted' -> deciding i now e' accepted' orders /\
    exists d, en_decisions e' = en_decisions e ++ [d] /\ od_order d = oid.
Proof.
  intros Hps Hnow Hdc. unfold decide_step.
  destruct (decide_order _ oid _ (world_of e)) as [[w [st a]] r] eqn:Hdo.
  apply decide_order_looks in Hdo as ((Hk & Hl & Ht) & Hd); [|done]. cbn [world_of fst snd] in *.
  set (e1 := set_world_of e (w, (st, a))) in *.
  assert (deciding i now e1 accepted (oid :: orders)) as Hdc1
    by (eapply (deciding_tracks i now e); [done|done|by apply looks_tracks|exact Ht|exact Hdc]).
  destruct r as [d|x]; [|intros; simplify_eq; split_and!; [done..|apply Hdc1|done]].
  destruct (Hd d eq_refl) as [Hdo Hdt]. cbv zeta.
  set (e2 := mkEngine _ _ _ _ _ (_ ++ [d])).
  assert (deciding i now e2 accepted (oid :: orders)) as Hdc2.
  { eapply (deciding_tracks _ _ e1); [done| | |done|exact Hdc1]; [intros d' Hd'; apply elem_of_app; by left|].
    apply looks_tracks, looks_refl. }
  assert (d ∈ en_decisions e2) as Hin by (apply elem_of_app; right; left).
  destruct (od_status d) eqn:Hst; intros; simplify_eq.
  - split_and!; [done..|apply Hdc2|]. intros accepted' [= <-]. split; [by eapply deciding_accept|by exists d].
  - apply deciding_reject in Hdc2. split_and!; [|apply Hdc2|].
    + split; [done|]. split; [done|]. simpl. etrans; [exact Hk|apply keeps_alter].
    + intros accepted' [= <-]. split; [done|by exists d].
Qed.

Lemma decide_all_inv i now orders : forall e accepted e' res,
  policies_ok -> s_timestamps s !! i = Some now -> deciding i now e accepted orders ->
  decide_all s now accepted orders e = (e', res) ->
  decided e e' /\ run_inv i e' /\
  forall accepted', res = Ok accepted' -> deciding i now e' accepted' [] /\
    od_order <$> en_decisions e' = (od_order <$> en_decisions e) ++ orders.
Proof.
  induction orders as [|oid orders IH]; intros e accepted e' res Hps Hnow Hdc; cbn [decide_all].
  { intros. simplify_eq. split_and!; try done; [apply Hdc|]. intros accepted' [= <-]. by rewrite app_nil_r. }
  destruct (decide_step s now accepted oid e) as [e1 [acc1|x]] eqn:Hs;
    apply (decide_step_inv i) with (orders:=orders) in Hs as ((Ho1 & Hc1 & Hk1) & Hi1 & Hok); try done.
  - destruct (Hok acc1 eq_refl) as (Hdc1 & d & Hd & Hdo). intros Hit.
    apply IH in Hit as ((Ho2 & Hc2 & Hk2) & Hi2 & Hok2); try done.
    split_and!; [split; [congruence|split; [congruence|by etrans]]|done|]. intros acc' Hacc'. destruct (Hok2 acc' Hacc') as [Hdc2 Hd2].
    split; [done|]. rewrite Hd2, Hd, fmap_app. csimpl. by rewrite Hdo, <- app_assoc.
  - intros. by simplify_eq.
Qed.

(** ** One rule, one iteration, one run *)

(** The bookkeeping that holds between the calls that raise nothing: one
    decision for each order, in order. *)
Definition one_decision_each e : Prop := od_order <$> en_decisions e = en_orders e.

Definition step_inv (i : nat) e e' (res : result unit) : Prop :=
  run_inv i e' /\ keeps (en_heap e) (en_heap e') /\ (res = Ok tt -> one_decision_each e -> one_decision_each e').

Lemma run_rule_inv i now t e e' res :
  sims_ok -> policies_ok -> rule_ok (ot_rule t) -> grid (s_timestamps s) -> s_timestamps s !! i = Some now ->
  t ∈ bucket it i -> run_inv i e -> ran i e ->
  run_rule s registry_of pf i now iv sv t e = (e', res) -> step_inv i e e' res.
Proof.
  intros Hsims Hps Hrule Hg Hnow Hbucket Hinv Hran. unfold run_rule. pose proof (run_inv_engine_orders _ _ Hinv) as Heng.
  destruct (get_orders s registry_of i t now e) as [e1 r1] eqn:Hget. pose proof Hget as Hget0.
  apply get_orders_spec in Hget as ((Ho1 & Hc1 & Hd1) & Hk1 & Ht1 & Hr1); [|done|done].
  destruct r1 as [orders|x].
  2:{ intros. simplify_eq. destruct Hr1 as [Hu _]. split_and!; [|done|done].
      eapply run_inv_tracks; [done|exact Hinv|rewrite Hc1; apply Hinv|by rewrite Hc1|by rewrite Hd1| |done].
      rewrite Hc1. by apply undisturbed_tracks. }
  destruct Hr1 as (Hout & Hnd & Hnew & reg & Had).
  assert (tracks (en_current e1) (en_heap e) (en_heap e1)) as Htr.
  { intros oid r Ho Hr He. rewrite Hc1 in Ho. destruct (Hout oid r Ho Hr) as (r' & Hr' & Hro).
    exists r'. split_and!; [done|apply Hro|by eapply rule_outcome_engine]. }
  assert (deciding i now e1 [] orders) as Hdc.
  { split.
    - eapply run_inv_tracks; [done|exact Hinv|rewrite Hc1; apply Hinv|by rewrite Hc1|by rewrite Hd1|exact Htr|done].
    - simpl. apply NoDup_app. rewrite Hc1. split_and!; [apply Hinv| |done]. intros x Hx Hx'. by apply (Hnew x).
    - intros oid Hn. by apply elem_of_nil in Hn.
    - intros oid Ho. destruct (Had oid Ho) as (r & Hr & Ha). apply admitted_engine_order in Ha as [? ?]. eauto. }
  destruct (decide_all s now [] orders e1) as [e2 r2] eqn:Hall. pose proof Hall as Hall0.
  apply (decide_all_inv i) in Hall as ((Ho2 & Hc2 & Hk2) & Hi2 & Hok2); try done.
  assert (keeps (en_heap e) (en_heap e2)) as Hk12 by (by etrans).
  destruct r2 as [accepted|x]; [|intros; by simplify_eq].
  destruct (Hok2 accepted eq_refl) as [[_ Hnd2 Hacc2 _] Hdd]. rewrite app_nil_r in Hnd2. cbv zeta.
  set (e3 := mkEngine _ _ _ (en_orders e2 ++ orders) (en_current e2 ++ accepted) _).
  assert (run_inv i e3) as Hi3.
  { split; [exact Hnd2| |apply Hi2|apply Hi2]. intros oid [Ho|Ho]%elem_of_app; [by apply (ri_orders _ _ Hi2)|by apply Hacc2]. }
  assert (ran i e3) as Hran3 by (by eapply ran_queued). assert (one_decision_each e -> one_decision_each e3) as Hone.
  { unfold one_decision_each. simpl. intros Hone. by rewrite Hdd, Hd1, Hone, Ho2, Ho1. }
  destruct (s_trade_lag s =? 0).
  - intros Hsim. apply (sim_market_inv i) in Hsim as (Hi4 & Hk4 & Ho4 & Hd4); try done.
    split_and!; [done|by etrans|]. intros _ He. unfold one_decision_each. rewrite Hd4, Ho4. by apply Hone.
  - intros. simplify_eq. split_and!; [by apply run_inv_update|done|]. intros _ He. by apply Hone.
Qed.

(** Every registered rule keeps its side of the contract. *)
Definition rules_ok : Prop := forall name rule, dict_get (s_rules s) name = Some rule -> rule_ok rule.

Lemma run_inv_later i i' e : (i <= i')%nat -> run_inv i e -> run_inv i' e.
Proof.
  intros Hi Hinv. eapply run_inv_tracks; [exact Hi|exact Hinv|apply Hinv|done|done| |done].
  by apply undisturbed_tracks, undisturbed_refl, (run_inv_engine_orders i).
Qed.

Lemma run_rule_list_inv i now l : forall e e' res,
  sims_ok -> policies_ok -> (forall t, t ∈ l -> rule_ok (ot_rule t) /\ t ∈ bucket it i) -> grid (s_timestamps s) ->
  s_timestamps s !! i = Some now -> run_inv i e -> ran i e ->
  st_iter (run_rule s registry_of pf i now iv sv) l e = (e', res) -> step_inv i e e' res /\ (res = Ok tt -> ran i e').
Proof.
  induction l as [|t l IH]; intros e e' res Hs Hp Hr Hg Hnow Hinv Hran; cbn [st_iter].
  { unfold mret, ST_ret. intros. by simplify_eq. }
  unfold mbind, ST_bind. destruct (run_rule _ _ _ _ _ _ _ t e) as [e1 [[]|x]] eqn:Hrun; intros Hit;
    pose proof Hrun as Hrun0; apply run_rule_inv in Hrun as (Hi1 & Hk1 & Hd1); try done; try (apply Hr; left).
  - assert (ran i e1) as Hran1 by (eapply ran_rule; [done|exact Hran|apply Hr; left|done]).
    apply IH in Hit as [(Hi2 & Hk2 & Hd2) Hran2]; try done; [|intros t' Ht'; apply Hr; by right].
    split; [|done]. split_and!; [done|by etrans|]. intros -> Hone. by apply Hd2, Hd1.
  - by simplify_eq.
Qed.

Lemma run_iteration_inv i e e' res :
  sims_ok -> policies_ok -> rules_ok -> grid (s_timestamps s) -> from_rules it -> run_inv i e -> ran i e ->
  run_iteration s registry_of pf it iv sv i e = (e', res) -> step_inv i e e' res /\ (res = Ok tt -> ran i e').
Proof.
  intros Hs Hp Hr Hg Hfrom Hinv Hran. unfold run_iteration. destruct (s_timestamps s !! i) as [now|] eqn:Hnow; [|by intros; simplify_eq].
  destruct (sim_market s registry_of pf i now iv sv e) as [e1 [[]|x]] eqn:Hsim; pose proof Hsim as Hsim0;
    apply sim_market_inv in Hsim as (Hi1 & Hk1 & Ho1 & Hd1); try done.
  2:{ intros. simplify_eq. by split_and!. }
  assert (ran i e1) as Hran1 by (by eapply ran_market).
  assert (one_decision_each e -> one_decision_each e1) as Hone by (unfold one_decision_each; by rewrite Ho1, Hd1).
  destruct (at_ it (Z.of_nat i)) as [rules|x] eqn:Hat; [|intros; simplify_eq; by split_and!].
  intros Hit. apply run_rule_list_inv in Hit as [(Hi2 & Hk2 & Hd2) Hran2]; try done.
  - split; [|done]. split_and!; [done|by etrans|]. intros ->. auto.
  - intros t Ht. apply bind_Ok_inv in Hat as (j & Hj & [= <-]). unfold si_index in Hj.
    rewrite (proj2 (Z.ltb_ge _ 0)) in Hj by lia. apply guard_bind_Ok in Hj as [_ [= <-]].
    destruct (Hfrom i t Ht) as [name Hname]. split; [by eapply Hr|done].
Qed.

(** ** The loop over the bars *)

Lemma visited_sorted start_date end_date : StronglySorted lt (visited s start_date end_date).
Proof.
  unfold visited. set (before := fun t => match start_date with Some d => t <? d | None => false end).
  set (after := fun t => match end_date with Some d => d <? t | None => false end).
  assert (forall l n, let go := fix go (i : nat) (l : list Z) : list nat := match l with
      | [] => [] | t :: l => if before t then go (S i) l else if after t then [] else i :: go (S i) l end in
    StronglySorted lt (go n l) /\ Forall (fun i => n <= i)%nat (go n l)) as Hgo; [|apply (Hgo _ 0%nat)].
  induction l as [|t l IH]; intros n go; [split; constructor|]. destruct (IH (S n)) as [Hs Hf]. unfold go. fold go.
  fold go in Hs, Hf. destruct (before t); [split; [done|eapply Forall_impl; [exact Hf|simpl; lia]]|].
  destruct (after t); [split; constructor|]. split; constructor; try done; try lia; eapply Forall_impl; try exact Hf; simpl; lia.
Qed.

Lemma run_iterations_inv l : forall i0 e e' res,
  sims_ok -> policies_ok -> rules_ok -> grid (s_timestamps s) -> from_rules it ->
  StronglySorted lt l -> Forall (fun i => i0 <= i)%nat l -> run_inv i0 e -> ran i0 e ->
  st_iter (run_iteration s registry_of pf it iv sv) l e = (e', res) ->
  (exists i, run_inv i e') /\ (res = Ok tt -> one_decision_each e -> one_decision_each e').
Proof.
  induction l as [|i l IH]; intros i0 e e' res Hs Hp Hr Hg Hfrom Hsort Hlow Hinv Hran; cbn [st_iter].
  { unfold mret, ST_ret. intros. simplify_eq. eauto. }
  apply StronglySorted_inv in Hsort as [Hsort Hall]. inversion Hlow; subst.
  unfold mbind, ST_bind. destruct (run_iteration _ _ _ _ _ _ i e) as [e1 [[]|x]] eqn:Hrun; intros Hit;
    apply run_iteration_inv in Hrun as [(Hi1 & _ & Hd1) Hran1]; try done; try (by eapply run_inv_later); try (by eapply ran_later).
  - specialize (Hran1 eq_refl). apply (IH i) in Hit as [Hi2 Hd2]; try done; [|eapply Forall_impl; [exact Hall|simpl; lia]]. split; [done|]. auto.
  - simplify_eq. eauto.
Qed.

Lemma calc_keeps t w (a : Account F D) w' a' res : calc pf t (w, a) = ((w', a'), res) -> keeps_trades a a'.
Proof.
  intros (Ht & _ & _ & _ & Hg & _ & Hk & _)%calc_valued. cbn [snd] in *. split_and!; [done|done|]. unfold dict_wf. by rewrite Hk.
Qed.

End history.

(** The schedule of a run *)
Definition scheduled names groups start_date end_date (iv sv : stage_values F) (it : SparseIterations (order_tup F D W)) : Prop :=
  exists nm gr sd ed, validated_stage_names names (s_rule_names s) = Ok nm /\ validated_stage_groups groups (s_contract_groups s) = Ok gr /\
    validate_date_range start_date end_date = Ok (sd, ed) /\ generate_order_iterations s iv sv nm gr sd ed = Ok it.

(** A run from a state without orders or trades *)
Lemma run_rules_inv names groups start_date end_date iv sv e e' res :
  sims_ok -> policies_ok -> rules_ok -> grid (s_timestamps s) ->
  en_current e = [] -> ac_trades (en_account e) = [] -> dict_wf (ac_symbol_pnls (en_account e)) ->
  run_rules s registry_of pf names groups start_date end_date iv sv e = (e', res) ->
  (exists it i, run_inv iv sv it e i e' /\ (scheduled names groups start_date end_date iv sv it \/ e' = e)) /\
  (res = Ok tt -> one_decision_each e -> one_decision_each e').
Proof.
  intros Hs Hp Hr Hg Hc Ht Hwf. unfold run_rules.
  assert (forall it, run_inv iv sv it e 0 e) as Hinv.
  { intros it. split; [rewrite Hc; by apply NoDup_nil|intros oid; rewrite Hc; by intros ?%elem_of_nil
      |intros tr; rewrite Ht; by intros ?%elem_of_nil|done]. }
  destruct (_ ≫= _) as [[[sd ed] it]|x] eqn:Hv; [|intros; simplify_eq; split; [exists (mkSparse 0 []), 0%nat; auto|done]].
  apply bind_Ok_inv in Hv as (nm & Hnm & Hv). apply bind_Ok_inv in Hv as (gr & Hgr & Hv). apply bind_Ok_inv in Hv as ([sd' ed'] & Hdates & Hv).
  apply bind_Ok_inv in Hv as (it' & Hgen & Hv). simplify_eq.
  assert (scheduled names groups start_date end_date iv sv it) as Hsched by (by exists nm, gr, sd, ed). apply generate_from_rules in Hgen.
  destruct (st_iter _ _ e) as [e1 [[]|x]] eqn:Hit;
    apply (run_iterations_inv iv sv it e _ 0%nat) in Hit as [[i Hi1] Hd1]; try done; try apply visited_sorted;
    try (rewrite Forall_forall; lia); try apply ran_start; [|intros; simplify_eq; eauto 10].
  destruct (s_run_final_calc s); [|intros; simplify_eq; eauto 10].
  destruct (final_timestamp_at_or_before _ _) as [[t|]|x]; [|intros; simplify_eq; eauto 10..].
  destruct (calc pf t _) as [[w a] r] eqn:Hcalc. apply calc_keeps in Hcalc. intros. simplify_eq. split; [|intros _ Ho; by apply Hd1].
  exists it, i. split; [|by left]. eapply run_inv_tracks; [done|exact Hi1|apply Hi1|done|done| |done].
  apply undisturbed_tracks, undisturbed_refl, (run_inv_engine_orders _ _ _ _ _ _ Hi1).
Qed.
End Runs.

(** ** Properties *)

(** C1: No trade looks ahead and no order executes early.  In whatever state a
    run of the rules ends, also when it raises, every trade [tr] of the account was
    booked by a market simulator, called at a bar [k] in a state [e1] that the run
    passed through, which returned it for a pending order, the object [oid]; and that
    very object had by then been accepted by the risk policies, at the instant it
    carries, which is that of a bar at least [trade_lag] bars before [k], the bar
    whose instant the trade carries. *)
Theorem run_rules_causal `{PyFloat F} `{!PyFloatEq F} `{!Numpy F} `{!NumpySignals F} `{!NumpyLaws F} `{SortedDictLaws D} {W}
    (s : Strategy F D W) registry_of pf names groups start_date end_date iv sv e e' res :
  sims_ok s -> policies_ok s -> rules_ok s -> grid (s_timestamps s) ->
  en_current e = [] -> ac_trades (en_account e) = [] -> dict_wf (ac_symbol_pnls (en_account e)) ->
  run_rules s registry_of pf names groups start_date end_date iv sv e = (e', res) ->
  forall tr, tr ∈ ac_trades (en_account e') -> exists it k e1 oid r t j d,
    scheduled s names groups start_date end_date iv sv it /\
    booked s registry_of pf iv sv it e k e1 oid tr /\ s_timestamps s !! k = Some (t_timestamp tr) /\
    en_heap e1 !! oid = Some r /\ r_timestamp r = Inst (Some t) /\ r_timestamp (t_order tr) = Inst (Some t) /\
    s_timestamps s !! j = Some t /\ Z.of_nat j + s_trade_lag s <= Z.of_nat k /\
    d ∈ en_decisions e1 /\ d ∈ en_decisions e' /\ od_order d = oid /\ od_status d = ACCEPTED /\ od_timestamp d = t.
Proof.
  intros Hs Hp Hr Hg Hc Ht Hwf Hrun tr Htr.
  destruct (run_rules_inv _ _ _ _ _ _ _ _ _ _ _ _ Hs Hp Hr Hg Hc Ht Hwf Hrun) as [(it & i & Hi & [Hit| ->]) _];
    [|rewrite Ht in Htr; by apply elem_of_nil in Htr].
  destruct (ri_trades _ _ _ _ _ _ _ _ _ Hi tr Htr) as (k & e1 & oid & r & t & j & d & ? & ? & _ & ?). by exists it, k, e1, oid, r, t, j, d.
Qed.

(** C5: Every order a rule gets into the engine is decided exactly once, in
    submission order: after a run that does not raise, the decisions are those of
    the orders one by one, accepted and rejected counts add up to the orders
    proposed; and no order is pending twice or without having been accepted at the
    instant it carries. *)
Theorem run_rules_one_decision `{PyFloat F} `{!PyFloatEq F} `{!Numpy F} `{!NumpySignals F} `{!NumpyLaws F} `{SortedDictLaws D} {W}
    (s : Strategy F D W) registry_of pf names groups start_date end_date iv sv e e' :
  sims_ok s -> policies_ok s -> rules_ok s -> grid (s_timestamps s) ->
  en_orders e = [] -> en_current e = [] -> en_decisions e = [] -> ac_trades (en_account e) = [] ->
  dict_wf (ac_symbol_pnls (en_account e)) ->
  run_rules s registry_of pf names groups start_date end_date iv sv e = (e', Ok tt) ->
  od_order <$> en_decisions e' = en_orders e' /\
  (let tm := telemetry s e' in
   Z.of_nat (tm_orders_accepted tm) + tm_orders_rejected tm = Z.of_nat (tm_orders_proposed tm)) /\
  NoDup (en_current e') /\
  forall oid, oid ∈ en_current e' -> exists r d, en_heap e' !! oid = Some r /\
    d ∈ en_decisions e' /\ od_order d = oid /\ od_status d = ACCEPTED /\ r_timestamp r = Inst (Some (od_timestamp d)).
Proof.
  intros Hs Hp Hr Hg Ho Hc Hd Ht Hwf Hrun.
  destruct (run_rules_inv _ _ _ _ _ _ _ _ _ _ _ _ Hs Hp Hr Hg Hc Ht Hwf Hrun) as [(it & i & Hi & _) Hone].
  assert (one_decision_each e') as Hone' by (apply Hone; [done|]; unfold one_decision_each; by rewrite Ho, Hd).
  split_and!; [done| |apply Hi|].
  - simpl. rewrite <- Hone', length_fmap. lia.
  - intros oid Hin. destruct (ri_orders _ _ _ _ _ _ _ _ _ Hi oid Hin) as (r & t & j & d & Hr' & _ & Htm & _ & _ & Hdin & Hdo & Hds & Hdt).
    exists r, d. split_and!; try done. congruence.
Qed.

(** ** Witnesses *)

Lemma demo_sims_ok : sims_ok demo.
Proof. repeat constructor. intros view i ts iv sv w st w' st' res Hs. unfold demo_sim in Hs. by simplify_eq. Qed.

Lemma demo_policies_ok : policies_ok demo.
Proof.
  repeat constructor; unfold demo_max_order, pure_policy in *; simpl in *; simplify_eq; try done. apply looks_refl.
Qed.

Lemma demo_rules_ok : rules_ok demo.
Proof.
  intros name rule Hr. simpl in Hr. destruct (decide (name = "buy"%string)); [|done]. injection Hr as <-.
  intros g i ts iv sv cur w st a w' st' a' res Hs. unfold demo_rule, alloc in Hs. simplify_eq.
  split; [apply keeps_insert|]. split; [done|]. intros l oid [= <-] Hl. apply list_elem_of_singleton in Hl as [= ->].
  rewrite lookup_insert_eq. eauto.
Qed.

Definition demo_engine : engine spec_float sorted_items unit := mkEngine tt ∅ float_account [] [] [].

Definition demo_run : engine spec_float sorted_items unit * result unit :=
  run_rules demo (fun _ => demo_group_registry) demo_price None None DNone DNone [] demo_signals demo_engine.

(** The order placed at instant 1 trades at instant 2, one bar later. *)
Lemma run_rules_causal_witness :
  (t_timestamp <$> ac_trades (en_account demo_run.1)) = [2] /\
  forall tr, tr ∈ ac_trades (en_account demo_run.1) -> exists it k e1 oid j d,
    booked demo (fun _ => demo_group_registry) demo_price [] demo_signals it demo_engine k e1 oid tr /\
    s_timestamps demo !! k = Some (t_timestamp tr) /\ s_timestamps demo !! j = Some (od_timestamp d) /\ Z.of_nat j + 1 <= Z.of_nat k /\
    d ∈ en_decisions e1 /\ od_order d = oid /\ od_status d = ACCEPTED.
Proof.
  split; [vm_compute; reflexivity|]. intros tr Htr.
  destruct (run_rules_causal demo (fun _ => demo_group_registry) demo_price None None DNone DNone [] demo_signals demo_engine
    demo_run.1 demo_run.2 demo_sims_ok demo_policies_ok demo_rules_ok ltac:(repeat constructor) eq_refl eq_refl ltac:(constructor)
    (surjective_pairing _) tr Htr) as (it & k & e1 & oid & r & t & j & d & _ & Hb & Hk & _ & _ & _ & Hj & Hlag & Hd & _ & Hdo & Hds & <-).
  by exists it, k, e1, oid, j, d.
Defined.

Lemma run_rules_one_decision_witness :
  demo_run.2 = Ok tt /\ length (en_orders demo_run.1) = 1%nat /\ od_order <$> en_decisions demo_run.1 = en_orders demo_run.1.
Proof.
  assert (demo_run.2 = Ok tt) as Hok by (vm_compute; reflexivity). split; [exact Hok|]. split; [vm_compute; reflexivity|].
  refine (proj1 (run_rules_one_decision demo (fun _ => demo_group_registry) demo_price None None DNone DNone [] demo_signals
    demo_engine demo_run.1 demo_sims_ok demo_policies_ok demo_rules_ok _ _ _ _ _ _ _));
    [repeat constructor|reflexivity..|constructor|rewrite <- Hok; apply surjective_pairing].
Defined.
