(* ===== verification/Guards.v ===== *)
(** * The engine around one callback

    What the pending orders and the account look like after one rule callback,
    one market simulator, and the pass that expires orders before the simulators
    run; also when the callback raises. *)

From S2P Require Import Roundtrip Prelude Numeric Vendor Boundaries Instruments Contracts Orders Fifo ContractPnl.
From S2P Require Import Account Callbacks Sparse Stages Risk Strategy Engine Schedule Runs.
From Stdlib Require Import SpecFloat.

Open Scope Z_scope.

Section Expiry.
Context `{PyFloat F} `{!Numpy F} `{!NumpySignals F} `{!NumpyLaws F} `{SortedDict D} {W : Type}.
Context (s : Strategy F D W).
Implicit Types (st : heap F) (r : raw_order F).

(** An order is due at bar [i] when its cancellation was requested, when it is a
    day order of an earlier day, or when it is fill-or-kill and had its chance;
    [t] and [j] are the instant and the bar it was submitted at. *)
Definition due (i : nat) (now t : Z) (j : nat) r : bool :=
  bool_decide (r_status r = Inst CANCEL_REQUESTED) ||
  bool_decide (r_time_in_force r = Inst DAY) && (day_of t <? day_of now) ||
  bool_decide (r_time_in_force r = Inst FOK) && (s_trade_lag s <? Z.of_nat i - Z.of_nat j).

Lemma inst_eqb_decide {A} `{EqDecision A} (x : arg A) (y : A) : inst_eqb x (Inst y) = bool_decide (x = Inst y).
Proof.
  symmetry. destruct (inst_eqb x (Inst y)) eqn:E.
  - apply bool_decide_eq_true_2. by apply inst_eqb_same.
  - apply bool_decide_eq_false_2. intros ->. by rewrite inst_eqb_refl in E.
Qed.

Lemma expire_order_exact i now r t j :
  grid (s_timestamps s) -> r_timestamp r = Inst (Some t) -> s_timestamps s !! j = Some t -> (j <= i)%nat ->
  expire_order s i now r =
    Ok (if due i now t j r then raw_cancel r else r,
        (s_trade_lag s <=? Z.of_nat i - Z.of_nat j) && negb (due i now t j r) && raw_is_open r).
Proof.
  intros Hg Ht Hj Hji. unfold expire_order. rewrite Ht, (np_searchsorted_left_count _ _ Hg), (count_lt_lookup _ j t) by done.
  pose proof (lookup_lt_Some _ _ _ Hj) as Hlt. rewrite (proj2 (Nat.ltb_lt _ _) Hlt), (proj2 (Nat.leb_le _ _) Hji).
  cbn [andb guard_ok mbind result_bind]. cbv zeta. unfold due.
  rewrite !cancel_if_tif, !inst_eqb_decide.
  set (c1 := bool_decide (r_status r = _)). set (c2 := bool_decide _ && (day_of t <? _)).
  rewrite (andb_comm (s_trade_lag s <? _)). set (c3 := bool_decide _ && (s_trade_lag s <? _)).
  f_equal. f_equal; destruct c1, c2, c3; simpl; rewrite ?raw_cancel_idem, ?raw_cancel_closed, ?andb_false_r, ?andb_true_r; done.
Qed.

Lemma expire_step_exact i now oid st el r t j :
  grid (s_timestamps s) -> st !! oid = Some r -> r_timestamp r = Inst (Some t) -> s_timestamps s !! j = Some t -> (j <= i)%nat ->
  (expire_step s i now oid (st, el)).2 = Ok tt.
Proof. intros Hg Hr Ht Hj Hji. unfold expire_step. by rewrite Hr, (expire_order_exact i now r t j). Qed.

(** The orders are there and were submitted at a bar of the grid. *)
Definition submitted (i : nat) st (oid : positive) : Prop := exists r t j,
  st !! oid = Some r /\ r_timestamp r = Inst (Some t) /\ s_timestamps s !! j = Some t /\ (j <= i)%nat.

Lemma expire_pass_total i now ids : forall st el,
  grid (s_timestamps s) -> NoDup ids -> (forall oid, oid ∈ ids -> submitted i st oid) ->
  (st_iter (expire_step s i now) ids (st, el)).2 = Ok tt.
Proof.
  induction ids as [|oid ids IH]; intros st el Hg Hnd Hs; cbn [st_iter]; [done|].
  apply NoDup_cons in Hnd as [Hn Hnd]. destruct (Hs oid ltac:(left)) as (r & t & j & Hr & Ht & Hj & Hji).
  unfold mbind, ST_bind, expire_step at 1. rewrite Hr, (expire_order_exact i now r t j) by done.
  apply IH; try done. intros oid' Hin. destruct (Hs oid' ltac:(by right)) as (r' & t' & j' & Hr' & ?).
  exists r', t', j'. rewrite lookup_insert_ne by (by intros <-). done.
Qed.
End Expiry.

(** ** Properties *)

(** The pass before the simulators never stops, and is exact: of the pending
    orders precisely the due ones are cancelled, precisely those that are open,
    not due and at least [trade_lag] bars old become eligible for execution, and
    no other object changes. *)
Theorem expiry_pass_exact `{PyFloat F} `{!Numpy F} `{!NumpySignals F} `{!NumpyLaws F} `{SortedDict D} {W} (s : Strategy F D W)
    i now ids (st : heap F) :
  grid (s_timestamps s) -> NoDup ids -> (forall oid, oid ∈ ids -> submitted s i st oid) ->
  exists st' eligible, st_iter (expire_step s i now) ids (st, []) = ((st', eligible), Ok tt) /\
    (forall oid, oid ∉ ids -> st' !! oid = st !! oid /\ oid ∉ eligible) /\
    forall oid r t j, oid ∈ ids -> st !! oid = Some r -> r_timestamp r = Inst (Some t) -> s_timestamps s !! j = Some t ->
      (j <= i)%nat ->
      st' !! oid = Some (if due s i now t j r then raw_cancel r else r) /\
      (oid ∈ eligible <-> s_trade_lag s <= Z.of_nat i - Z.of_nat j /\ due s i now t j r = false /\ raw_is_open r = true).
Proof.
  intros Hg Hnd Hs. pose proof (expire_pass_total s i now ids st [] Hg Hnd Hs) as Hok.
  destruct (st_iter _ ids (st, [])) as [[st' el] res] eqn:Hit. simpl in Hok. subst res. exists st', el. split; [done|].
  destruct (expire_all_Ok _ _ _ _ _ _ _ _ Hnd Hit) as [Hout Hin]. split.
  - intros oid Hn. destruct (Hout oid Hn) as [Heq Hel]. split; [done|]. rewrite Hel. apply not_elem_of_nil.
  - intros oid r t j Ho Hr Ht Hj Hji. destruct (Hin oid Ho) as (r0 & r' & ok & Hr0 & Hr' & Hex & Hel). simplify_eq.
    rewrite (expire_order_exact s i now r t j Hg Ht Hj Hji) in Hex. injection Hex as <- <-. split; [done|].
    rewrite Hel, elem_of_nil. rewrite !andb_true_iff, negb_true_iff, Z.leb_le. tauto.
Qed.

(** C29: A rule callback is guarded: when it, or the validation of its result,
    raises an exception, every pending order is as it was submitted and the
    exception is wrapped; when it returns, a pending order keeps its identity and
    quantity and at most asks to be cancelled, and the new orders are distinct,
    not pending, stamped now and executable in the rule's group. *)
Theorem rule_callback_guarded `{PyFloat F} `{!PyFloatEq F} `{!Numpy F} `{!NumpySignals F} `{SortedDict D} {W} (s : Strategy F D W)
    registry_of i t now e e' res :
  rule_ok (ot_rule t) -> engine_orders (en_current e) (en_heap e) ->
  get_orders s registry_of i t now e = (e', res) ->
  same_lists e e' /\ keeps_trades (en_account e) (en_account e') /\
  match res with
  | Err x => undisturbed (en_current e) (en_heap e) (en_heap e') /\
      (is_Exception x = true -> exists y, x = BacktestCallbackError "rule callback failed" y)
  | Ok orders =>
      (forall oid r, oid ∈ en_current e -> en_heap e !! oid = Some r ->
         exists r', en_heap e' !! oid = Some r' /\ rule_outcome r r') /\
      NoDup orders /\ (forall oid, oid ∈ orders -> oid ∉ en_current e) /\
      (exists reg, forall oid, oid ∈ orders -> exists r, en_heap e' !! oid = Some r /\ admitted reg (ot_group t) now r)
  end.
Proof. intros Hr He Hg. destruct (get_orders_spec _ _ _ _ _ _ _ _ Hr He Hg) as (? & _ & ? & ?). done. Qed.


(** ** Witnesses *)

(** A fill-or-kill order submitted at the first bar, seen at the third. *)
Lemma expiry_pass_exact_witness :
  let st : heap spec_float := {[6%positive := demo_raw_order (demo_contract 2 "ESH4") 1 3 RMarket]} in
  exists st' eligible, st_iter (expire_step demo 2 3) [6%positive] (st, []) = ((st', eligible), Ok tt) /\
    (forall r, st !! 6%positive = Some r -> st' !! 6%positive = Some (raw_cancel r)) /\ 6%positive ∉ eligible.
Proof.
  intros st. destruct (expiry_pass_exact demo 2 3 [6%positive] st) as (st' & el & Hit & _ & Hin).
  - repeat constructor.
  - repeat constructor. intros Hn. by apply elem_of_nil in Hn.
  - intros oid ->%list_elem_of_singleton. exists (demo_raw_order (demo_contract 2 "ESH4") 1 3 RMarket), 1, 0%nat.
    split_and!; [reflexivity..|lia].
  - exists st', el. split; [exact Hit|].
    destruct (Hin 6%positive (demo_raw_order (demo_contract 2 "ESH4") 1 3 RMarket) 1 0%nat ltac:(left) eq_refl eq_refl eq_refl)
      as [Hst Hel]; [lia|].
    split; [intros r [= <-]; exact Hst|]. rewrite Hel. intros (_ & Hd & _). revert Hd. vm_compute. discriminate.
Defined.

(** A run at the second bar, with one order pending since the first. *)
Definition demo_pending : engine spec_float sorted_items unit :=
  mkEngine tt {[6%positive := demo_raw_order (demo_contract 2 "ESH4") 1 3 RMarket]} float_account [6%positive] [6%positive] [].

Lemma demo_pending_orders : engine_orders (en_current demo_pending) (en_heap demo_pending).
Proof.
  intros oid ->%list_elem_of_singleton. eexists. split; [reflexivity|]. apply engine_order_fields. repeat eexists.
Qed.

(** A rule that takes quantity from a pending order: the engine puts it back. *)
Definition demo_meddler : rule_fn spec_float sorted_items unit := fun _ _ _ _ _ cur '(w, (st, a)) =>
  ((w, (alter (fun r => RawOrder (r_contract r) (r_timestamp r) (PInt 1) (r_reason_code r) (r_time_in_force r) (r_properties r)
                          (r_status r) (r_kind r)) 6%positive st, a)), Ok (Inst [])).

Definition demo_tup (rule : rule_fn spec_float sorted_items unit) : order_tup spec_float sorted_items unit :=
  OrderTup rule DEFAULT_CG [] [] "buy".

Definition demo_meddled : engine spec_float sorted_items unit * result (list positive) :=
  get_orders demo (fun _ => demo_group_registry) 1 (demo_tup demo_meddler) 2 demo_pending.

Lemma rule_callback_guarded_witness :
  (exists x, demo_meddled.2 = Err (BacktestCallbackError "rule callback failed" x)) /\
  undisturbed [6%positive] (en_heap demo_pending) (en_heap demo_meddled.1).
Proof.
  assert (exists x, demo_meddled.2 = Err (BacktestCallbackError "rule callback failed" x)) as [x Hx]
    by (eexists; vm_compute; reflexivity).
  split; [exists x; exact Hx|].
  destruct (rule_callback_guarded demo (fun _ => demo_group_registry) 1 (demo_tup demo_meddler) 2 demo_pending demo_meddled.1
    demo_meddled.2) as (_ & _ & Hres).
  - intros g i ts iv sv cur w st a w' st' a' res Hr. simpl in Hr. injection Hr as <- <- <- <-.
    split; [apply keeps_alter|]. split; [split_and!; done|]. intros l oid [= <-] Hl. by apply elem_of_nil in Hl.
  - exact demo_pending_orders.
  - apply surjective_pairing.
  - rewrite Hx in Hres. exact (proj1 Hres).
Defined.


