(* ===== verification/SimulatorFacts.v ===== *)
(** * What the engine accepts from a market simulator

    [validate_market_trades] checks a simulator's trades against the live orders.
    [accepts] says when it lets them through; the simulators of
    [strategy_components.py] meet it. *)

From S2P Require Import Roundtrip Prelude Numeric Vendor Boundaries Instruments Contracts Orders Fifo ContractPnl.
From S2P Require Import Inputs Costs Account Callbacks Sparse Stages Risk Strategy Engine Simulators Schedule Runs Guards.
From Stdlib Require Import SpecFloat.

Open Scope Z_scope.

Section Accepts.
Context `{PyFloat F} `{!PyFloatEq F}.
Implicit Types (st : heap F) (r : raw_order F).

(** A trade for an order of the view: valid against the live orders, at the
    current instant, on the order's side and no larger than it was. *)
Definition fits (view : list positive) (now : Z) st st' (t : raw_trade F) : Prop := exists oid r (t' : trade F),
  rt_order t = Inst oid /\ oid ∈ view /\ st !! oid = Some r /\
  check_trade st' t = Ok t' /\ t_timestamp t' = now /\
  (0 <? t_qty t') = (0 <? qty_of r) /\ Z.abs (t_qty t') <= Z.abs (qty_of r).

Lemma check_trade_parts st (t : raw_trade F) (t' : trade F) : check_trade st t = Ok t' -> exists p f k r,
  validate_trade_references (rt_contract t) (find_order st (rt_order t)) (rt_timestamp t) = Ok (t_contract t', r, t_timestamp t') /\
  validated_trade_numbers (rt_qty t) (rt_price t) (rt_fee t) (rt_commission t) = Ok (t_qty t', p, f, k) /\
  trade_quantity t = t_qty t'.
Proof.
  unfold check_trade. intros Hc. apply bind_Ok_inv in Hc as ([[c r] ts] & Href & Hc).
  apply bind_Ok_inv in Hc as ([[[q p] f] k] & Hnum & [= <-]). simpl. exists p, f, k, r. split_and!; [done..|].
  unfold validated_trade_numbers in Hnum. apply bind_Ok_inv in Hnum as (q' & Hq & Hnum). unfold trade_quantity. rewrite Hq.
  inv_ok Hnum. done.
Qed.

Lemma accept_loop view now states st st' new : forall filled done,
  (forall oid r, oid ∈ view -> st !! oid = Some r -> dict_get states oid = Some (qty_of r, r_status r)) ->
  Forall (fits view now st st') new -> NoDup (rt_order <$> new) ->
  (forall oid, Inst oid ∈ rt_order <$> new -> dict_get filled oid = None) ->
  exists filled', foldE (check_market_trade view now states st') (filled, done) (Inst <$> new) = Ok (filled', done ++ new) /\
    forall oid, default 0 (dict_get filled' oid) = default 0 (dict_get filled oid) + reported oid new.
Proof.
  induction new as [|t new IH]; intros filled done Hstates Hfits Hnd Hfilled; csimpl; cbn [foldE].
  { exists filled. rewrite app_nil_r. split; [done|]. intros oid. unfold reported. simpl. rewrite sumZ_nil. lia. }
  apply Forall_cons in Hfits as [Ht Hfits]. csimpl in *. apply NoDup_cons in Hnd as [Hn Hnd].
  destruct Ht as (oid & r & t' & Ho & Hv & Hr & Hc & Hnow & Hside & Habs).
  destruct (check_trade_parts _ _ _ Hc) as (p & f & k & o & Href & Hnum & Hq).
  assert (dict_get filled oid = None) as Hnone by (apply Hfilled; rewrite Ho; left).
  unfold check_market_trade at 1. rewrite Href. cbn [mbind result_bind]. rewrite Ho. rewrite bool_decide_eq_true_2 by done.
  cbn [guard_ok mbind result_bind]. rewrite (proj2 (Z.eqb_eq _ _) Hnow). cbn [guard_ok mbind result_bind]. rewrite Hnum.
  cbn [mbind result_bind]. rewrite (Hstates oid r Hv Hr). rewrite Hside, Bool.eqb_reflx. cbn [guard_ok mbind result_bind].
  rewrite Hnone. simpl default. rewrite Z.add_0_l, (proj2 (Z.ltb_ge _ _) Habs). cbn [negb guard_ok mbind result_bind].
  destruct (IH (dict_set filled oid (t_qty t')) (done ++ [t]) Hstates Hfits Hnd) as (filled' & Hf & Htot).
  { intros oid' Hin. rewrite dict_get_set_ne; [apply Hfilled; by right|]. intros ->. apply Hn. by rewrite Ho. }
  exists filled'. rewrite <- app_assoc in Hf. split; [exact Hf|]. intros oid'.
  change (t :: new) with ([t] ++ new). rewrite Htot, reported_app, reported_one, Ho, dict_get_set, Hq.
  destruct (decide (oid' = oid)) as [->|Hne].
  - rewrite decide_True by done. rewrite Hnone. simpl. lia.
  - rewrite (decide_False (P:=Inst oid = Inst oid')) by congruence. lia.
Qed.

Lemma fill_consistent_intro states filled st oid q0 (s0 : OrderStatus) r :
  dict_get states oid = Some (q0, Inst s0) -> st !! oid = Some r ->
  order_reconciled q0 (Inst s0) (default 0 (dict_get filled oid)) r -> fill_consistent states filled st oid = Ok tt.
Proof.
  intros Hs Hr Hrec. unfold fill_consistent. rewrite Hs, Hr. cbv zeta. set (f := default 0 (dict_get filled oid)) in *.
  enough ((py_eqb (r_qty r) (PInt q0) && inst_eqb (r_status r) (Inst s0)
    || negb (f =? 0) && py_eqb (r_qty r) (PInt (q0 - f)) &&
       (inst_eqb (r_status r) (Inst (expected_fill_status (q0 - f))) || inst_eqb (r_status r) (Inst CANCELLED))
    || (f =? 0) && py_eqb (r_qty r) (PInt q0) && inst_eqb (r_status r) (Inst CANCELLED)) = true) as -> by done.
  destruct Hrec as [[Hq Hst]|[(Hf & Hq & Hst)|(Hf & Hq & Hst)]].
  - by rewrite (proj2 (py_eqb_int _ _) Hq), Hst.
  - rewrite (proj2 (Z.eqb_neq _ _) Hf), (proj2 (py_eqb_int _ _) Hq). simpl.
    destruct Hst as [-> | ->]; rewrite inst_eqb_refl; by rewrite ?orb_true_r.
  - rewrite (proj2 (Z.eqb_eq _ _) Hf), (proj2 (py_eqb_int _ _) Hq), Hst, inst_eqb_refl. by rewrite !orb_true_r.
Qed.

(** What a simulator owes: distinct orders of the view, each trade fitting, and
    live orders that agree with the trades. *)
Lemma accepts view now st st' trades :
  NoDup view -> engine_orders view st -> NoDup (rt_order <$> trades) -> Forall (fits view now st st') trades ->
  (forall oid r, oid ∈ view -> st !! oid = Some r -> exists r', st' !! oid = Some r' /\
     order_reconciled (qty_of r) (r_status r) (reported oid trades) r') ->
  validate_market_trades (Inst (Inst <$> trades)) view now (omap (order_state st) view) st' = Ok trades.
Proof.
  intros Hnd He Hndt Hfits Hrec.
  assert (forall oid, oid ∈ view -> is_Some (st !! oid)) as Hsome by (intros oid Ho; destruct (He oid Ho) as (r & -> & _); eauto).
  assert (forall oid r, oid ∈ view -> st !! oid = Some r ->
    dict_get (omap (order_state st) view) oid = Some (qty_of r, r_status r)) as Hstates by (intros; by apply order_states_get).
  destruct (accept_loop view now _ st st' trades [] [] Hstates Hfits Hndt) as (filled & Hf & Htot); [done|].
  unfold validate_market_trades. rewrite Hf. cbn [mbind result_bind]. simpl app.
  assert (iterE (fill_consistent (omap (order_state st) view) filled st') view = Ok tt) as ->; [|done].
  apply iterE_Ok. rewrite Forall_forall. intros oid Ho. destruct (He oid Ho) as (r & Hr & Heng).
  pose proof (proj1 (engine_order_fields r) Heng) as (c & ts & tif & s0 & q & _ & _ & _ & Hs0 & _).
  destruct (Hrec oid r Ho Hr) as (r' & Hr' & Hrc). rewrite Hs0 in Hrc.
  eapply fill_consistent_intro; [by rewrite (Hstates oid r Ho Hr), Hs0|exact Hr'|]. rewrite Htot. simpl. exact Hrc.
Qed.
End Accepts.

(** ** [SimpleMarketSimulator] *)

Section Simple.
Context `{PyFloat F} `{!PyFloatEq F} `{!PyFloatNan F} `{!Numpy F} {W : Type}.
Context (sim : SimpleMarketSimulator F W).
Implicit Types (st : heap F) (r : raw_order F).

(** The trade of an order: the whole order, at a price its limit admits. *)
Definition candidate_for st (timestamp : Z) (t : raw_trade F) : Prop := exists oid r t0 t',
  rt_order t = Inst oid /\ st !! oid = Some r /\ check_trade st t0 = Ok t' /\ t = trade_object oid t' /\
  rt_order t0 = Inst oid /\ rt_contract t0 = r_contract r /\ rt_timestamp t0 = Inst (Some timestamp) /\ rt_qty t0 = r_qty r /\
  (exists price fee commission, rt_price t0 = PFloat price /\ rt_fee t0 = PFloat fee /\ rt_commission t0 = PFloat commission /\
     is_marketable r price = Ok true).

Lemma execute_spec st oid r c timestamp raw_price t :
  st !! oid = Some r -> r_contract r = Inst c ->
  execute sim st oid r c timestamp raw_price = Ok (Some t) -> candidate_for st timestamp t /\ rt_order t = Inst oid.
Proof.
  unfold execute, Trade_new. intros Hr Hcr He. apply bind_Ok_inv in He as (slip & _ & He).
  apply bind_Ok_inv in He as (price & _ & He). cbv zeta in He. apply bind_Ok_inv in He as (b & Hmark & He).
  destruct b; [|done]. apply bind_Ok_inv in He as (comm & _ & He). apply bind_Ok_inv in He as (fee & _ & He).
  destruct (check_trade _ _) as [t'|] eqn:Ht; [|done]. cbn in He. simplify_eq. split; [|done].
  eexists oid, r, _, t'. split; [done|]. split; [done|]. split; [exact Ht|]. split_and!; try done. eauto 10.
Qed.

Lemma candidate_spec st timestamps i timestamp oid w w' o :
  candidate sim st timestamps i timestamp oid w = (w', Ok o) ->
  match o with None => True | Some t => candidate_for st timestamp t /\ rt_order t = Inst oid end.
Proof.
  unfold candidate. destruct (st !! oid) as [r|] eqn:Hr; [|done].
  assert (forall c w0, r_contract r = Inst c ->
    match market_price (sm_price_func sim) c timestamps i w0 with
    | (w, Err e) => (w, Err e)
    | (w, Ok raw_price) => if f_isnan raw_price then (w, Ok None) else (w, execute sim st oid r c timestamp raw_price)
    end = (w', Ok o) -> match o with None => True | Some t => candidate_for st timestamp t /\ rt_order t = Inst oid end) as Hexec.
  { intros c w0 Hc. destruct (market_price _ _ _ _ w0) as [w1 [p|e]]; [|done]. destruct (f_isnan p); [by intros [= _ <-]|].
    intros [= _ He]. destruct o as [t|]; [|done]. by eapply execute_spec. }
  destruct (r_kind r); try (by intros [= _ <-]); try done; destruct (r_contract r) as [c|] eqn:Hc; try done; by apply Hexec.
Qed.

Lemma candidate_trades_spec st timestamps i timestamp orders : forall w w' l,
  candidate_trades sim st timestamps i timestamp orders w = (w', Ok l) ->
  Forall (candidate_for st timestamp) l /\ (rt_order <$> l) `sublist_of` (Inst <$> orders).
Proof.
  induction orders as [|oid orders IH]; intros w w' l; cbn [candidate_trades]; [by intros [= _ <-]|].
  destruct (candidate _ _ _ _ _ oid w) as [w1 [o|e]] eqn:Hc; [|done]. apply candidate_spec in Hc.
  destruct (candidate_trades _ _ _ _ _ orders w1) as [w2 [l2|e]] eqn:Hcs; [|done]. intros [= _ <-].
  destruct (IH _ _ _ Hcs) as [Hall Hsub]. destruct o as [t|]; csimpl.
  - destruct Hc as [Hc ->]. split; [by constructor|by apply sublist_skip].
  - split; [done|by apply sublist_cons].
Qed.

(** The user's hook after a trade leaves the orders alone. *)
Definition hook_ok : Prop := forall f, sm_post_trade_func sim = Some f -> forall t w st w' st' res,
  f t (w, st) = ((w', st'), res) -> st' = st.

(** A whole fill. *)
Lemma raw_fill_whole r r' : raw_fill r (PFloat f_nan) = Ok r' ->
  engine_order r /\ r' = with_status (with_qty r (PInt 0)) FILLED /\ whole_quantity (PInt (qty_of r) : pyval F) = Ok (qty_of r) /\
  qty_of r <> 0.
Proof.
  unfold raw_fill, settle, engine_order, qty_of. destruct (r_contract r) eqn:Hc, (r_timestamp r) eqn:Ht, (r_time_in_force r) eqn:Htif,
    (r_status r) eqn:Hs, (py_int (r_qty r)) as [q|] eqn:Hq; try done.
  unfold fill. simpl. intros Hf. apply bind_Ok_inv in Hf as (o' & Hf & [= <-]). apply guard_bind_Ok in Hf as [_ Hf].
  rewrite f_isnan_nan in Hf. apply bind_Ok_inv in Hf as (q' & Hw & Hf). pose proof (whole_quantity_nonzero_int _ _ Hw) as [-> Hnz].
  apply guard_bind_Ok in Hf as [_ Hf]. apply guard_bind_Ok in Hf as [_ [= <-]]. simpl. rewrite Z.sub_diag.
  split; [unfold settle; rewrite Hc, Ht, Htif, Hs, Hq; eauto|]. split_and!; done.
Qed.

Lemma fill_trades_spec (Hhook : hook_ok) trades : forall w st w' st',
  NoDup (trade_order <$> trades) -> st_iter (fill_trade sim) trades (w, st) = ((w', st'), Ok tt) ->
  (forall oid, oid ∉ trade_order <$> trades -> st' !! oid = st !! oid) /\
  (forall oid, oid ∈ trade_order <$> trades -> exists r r', st !! oid = Some r /\ raw_fill r (PFloat f_nan) = Ok r' /\ st' !! oid = Some r').
Proof.
  induction trades as [|t trades IH]; intros w st w' st' Hnd; cbn [st_iter].
  { unfold mret, ST_ret. intros. simplify_eq. split; [done|]. by intros oid ?%elem_of_nil. }
  csimpl in *. apply NoDup_cons in Hnd as [Hn Hnd]. unfold mbind, ST_bind.
  destruct (fill_trade sim t (w, st)) as [[w1 st1] [[]|e]] eqn:Hf; [|done]. intros Hit.
  assert (exists r r', st !! trade_order t = Some r /\ raw_fill r (PFloat f_nan) = Ok r' /\ st1 = <[trade_order t := r']> st)
    as (r & r' & Hr & Hfill & ->).
  { unfold fill_trade in Hf. destruct (st !! trade_order t) as [r|]; [|done]. destruct (raw_fill r _) as [r'|] eqn:Hfill; [|done].
    exists r, r'. split_and!; [done..|]. destruct (sm_post_trade_func sim) as [f|] eqn:Hpost; [by eapply (Hhook f Hpost)|by simplify_eq]. }
  destruct (IH _ _ _ _ Hnd Hit) as [Hout Hin]. split.
  - intros oid. rewrite not_elem_of_cons. intros [Hne Ho]. rewrite Hout by done. by rewrite lookup_insert_ne.
  - intros oid [->|Ho]%elem_of_cons.
    + exists r, r'. rewrite Hout by done. by rewrite lookup_insert_eq.
    + destruct (Hin oid Ho) as (r0 & r0' & Hr0 & ?). rewrite lookup_insert_ne in Hr0 by (intros <-; done). eauto.
Qed.

(** Counting the legs of a roll. *)
Definition has_roll st (id : string) (oid : positive) : bool :=
  match roll_id_of st oid with Some (PStr s) => bool_decide (s = id) | _ => false end.

Definition leg_count st (id : string) (orders : list positive) : nat := length (filter (fun oid => has_roll st id oid = true) orders).

Lemma count_of_bump counts (v : pyval F) id :
  default 0%nat (count_of (bump counts v) (PStr id)) =
    (default 0%nat (count_of counts (PStr id)) + match v with PStr s => if bool_decide (s = id) then 1 else 0 | _ => 0 end)%nat /\
  (count_of counts (PStr id) <> Some 0%nat -> count_of (bump counts v) (PStr id) <> Some 0%nat).
Proof.
  assert (forall k : pyval F, py_eqb k (PStr id) = match k with PStr s => bool_decide (s = id) | _ => false end) as Heq
    by (intros []; done).
  assert (forall k : pyval F, py_eqb k v = true -> py_eqb k (PStr id) = py_eqb v (PStr id)) as Htr.
  { intros k Hk. rewrite !Heq. unfold py_eqb in Hk. destruct k, v; try done. apply bool_decide_eq_true in Hk. by subst. }
  induction counts as [|[k n] counts [IH1 IH2]]; simpl.
  - rewrite Heq. destruct v as [| | | | | | |s|]; try done. destruct (bool_decide (s = id)); done.
  - destruct (py_eqb k v) eqn:Hkv; simpl.
    + rewrite (Htr k Hkv), Heq. destruct v as [| | | | | | |s|]; try (split; [lia|done]).
      case_bool_decide; simpl; [split; [lia|naive_solver]|split; [lia|done]].
    + destruct (py_eqb k (PStr id)) eqn:Hki; simpl; [|done]. split; [|done].
      destruct v as [| | | | | | |s|]; try lia. rewrite Heq in Hki. destruct k; try done. apply bool_decide_eq_true in Hki as ->.
      destruct (decide (s = id)) as [->|Hne]; [by rewrite Heq, bool_decide_eq_true_2 in Hkv|]. rewrite bool_decide_eq_false_2 by done. lia.
Qed.

Lemma roll_counts_spec st id orders :
  default 0%nat (count_of (roll_counts st orders) (PStr id)) = leg_count st id orders /\
  count_of (roll_counts st orders) (PStr id) <> Some 0%nat.
Proof.
  unfold roll_counts, leg_count. induction orders as [|oid orders [IH1 IH2]] using rev_ind; [done|].
  rewrite foldl_app, filter_app, length_app. cbn [foldl]. rewrite filter_cons, filter_nil.
  assert (has_roll st id oid = match roll_id_of st oid with Some (PStr s) => bool_decide (s = id) | _ => false end) as -> by done.
  set (counts := foldl _ [] orders) in *. destruct (roll_id_of st oid) as [v|]; [|simpl; split; [lia|done]].
  destruct (count_of_bump counts v id) as [Hb1 Hb2].
  split; [|by apply Hb2]. rewrite Hb1, IH1. destruct v as [| | | | | | |s|]; simpl; try lia.
  destruct (bool_decide (s = id)); simpl; lia.
Qed.

Lemma filter_sublist {A} (P : A -> Prop) `{!forall x, Decision (P x)} (l1 l2 : list A) :
  l1 `sublist_of` l2 -> filter P l1 `sublist_of` filter P l2.
Proof. induction 1; [done|..]; rewrite ?filter_cons; repeat case_decide; try done; by constructor. Qed.

(** Both legs among the candidates: every order of the roll has one. *)
Lemma legs_all st id l1 l2 oid :
  l1 `sublist_of` l2 -> leg_count st id l1 = leg_count st id l2 -> oid ∈ l2 -> has_roll st id oid = true -> oid ∈ l1.
Proof.
  unfold leg_count. intros Hs Hl Hin Hh. apply (filter_sublist (fun oid => has_roll st id oid = true)) in Hs.
  apply sublist_submseteq, submseteq_length_Permutation in Hs; [|lia].
  assert (oid ∈ filter (fun oid => has_roll st id oid = true) l2) as Hf by (by apply list_elem_of_filter).
  rewrite <- Hs in Hf. by apply list_elem_of_filter in Hf as [_ ?].
Qed.

(** ** What the engine sees of a successful call *)

Lemma trade_order_of (t : raw_trade F) oid : rt_order t = Inst oid -> trade_order t = oid.
Proof. unfold trade_order. by intros ->. Qed.

Lemma candidate_orders st timestamp l : Forall (candidate_for st timestamp) l -> Inst <$> (trade_order <$> l) = rt_order <$> l.
Proof.
  induction 1 as [|t l (oid & r & t0 & t' & Ho & _) _ IH]; csimpl; [done|]. by rewrite (trade_order_of t oid Ho), Ho, IH.
Qed.

Lemma fmap_sublist {A B} (f : A -> B) (l1 l2 : list A) : l1 `sublist_of` l2 -> (f <$> l1) `sublist_of` (f <$> l2).
Proof. induction 1; csimpl; by constructor. Qed.

Lemma sublist_NoDup' {A} (l1 l2 : list A) : NoDup l2 -> l1 `sublist_of` l2 -> NoDup l1.
Proof. intros Hnd Hs. by eapply sublist_NoDup. Qed.

(** A candidate, once its order is filled, is a valid trade of that order. *)
Lemma candidate_fits view now st st' t oid r r' :
  candidate_for st now t -> rt_order t = Inst oid -> oid ∈ view -> st !! oid = Some r ->
  raw_fill r (PFloat f_nan) = Ok r' -> st' !! oid = Some r' ->
  fits view now st st' t /\ trade_quantity t = qty_of r.
Proof.
  intros (oid' & r1 & t0 & t' & Ho' & Hr1 & Hck & -> & Ho0 & Hc0 & Ht0 & Hq0 & p & f & k & Hp & Hf & Hk & _) Ho Hv Hr Hfill Hr'.
  assert (oid' = oid) as -> by (simpl in *; congruence). rewrite Hr in Hr1. injection Hr1 as <-.
  destruct (raw_fill_whole r r' Hfill) as (Heng & -> & Hw & Hnz).
  unfold check_trade in Hck. apply bind_Ok_inv in Hck as ([[c o] ts] & Href & Hck).
  apply bind_Ok_inv in Hck as ([[[q p'] f'] k'] & Hnum & [= <-]). simpl in *.
  apply validate_trade_references_Ok in Href as (Hc & Hfo & Hts & Hcis & ot & Hot & Hle).
  rewrite Ho0 in Hfo. simpl in Hfo. rewrite Hr in Hfo. injection Hfo as <-. rewrite Ht0 in Hts. injection Hts as <-.
  unfold validated_trade_numbers in Hnum. rewrite Hq0, Hp, Hf, Hk in Hnum. apply bind_Ok_inv in Hnum as (q' & Hq' & Hnum).
  apply bind_Ok_inv in Hnum as (p2 & Hp2 & Hnum). apply bind_Ok_inv in Hnum as (f2 & Hf2 & Hnum).
  apply bind_Ok_inv in Hnum as (k2 & Hk2 & [= -> -> -> ->]).
  pose proof (whole_quantity_py_int _ _ Hq') as Hqi. assert (qty_of r = q) as Hqq by (unfold qty_of; by rewrite Hqi).
  rewrite Hqq in *.
  assert (forall x y, finite_real (PFloat x : pyval F) = Ok y -> x = y /\ finite_real (PFloat x : pyval F) = Ok x) as Hfin.
  { intros x y Hx. pose proof (finite_real_Ok _ _ Hx) as [_ [= <-]]. done. }
  apply Hfin in Hp2 as [<- Hp2], Hf2 as [<- Hf2], Hk2 as [<- Hk2].
  assert (check_trade st' (trade_object oid (Trade c r now q p f k (rt_properties t0))) =
    Ok (Trade c (with_status (with_qty r (PInt 0)) FILLED) now q p f k (rt_properties t0))) as Hck'.
  { unfold check_trade, trade_object. cbn [rt_contract rt_order rt_timestamp rt_qty rt_price rt_fee rt_commission rt_properties
      t_contract t_timestamp t_qty t_price t_fee t_commission t_properties]. unfold find_order. rewrite Hr'.
    unfold validate_trade_references. simpl. rewrite Hot. destruct (r_contract r) as [c'|] eqn:Hcr; [|done].
    assert (is_contract c c' = true) as ->.
    { unfold contract_is, is_contract in *. apply bool_decide_eq_true in Hcis. by apply bool_decide_eq_true. }
    cbn [guard_ok mbind result_bind]. rewrite (proj2 (Z.ltb_ge now ot)) by lia. cbn [negb guard_ok mbind result_bind].
    unfold validated_trade_numbers. rewrite Hw, Hp2, Hf2, Hk2. done. }
  split.
  - exists oid, r, (Trade c (with_status (with_qty r (PInt 0)) FILLED) now q p f k (rt_properties t0)).
    split_and!; try done; simpl; by rewrite Hqq.
  - unfold trade_quantity. simpl. by rewrite Hw.
Qed.

Lemma reported_none (trades : list (raw_trade F)) oid : Inst oid ∉ rt_order <$> trades -> reported oid trades = 0.
Proof.
  intros Hn. unfold reported. rewrite filter_none; [done|]. apply Forall_forall. intros t Ht Ho. apply Hn. rewrite <- Ho.
  by apply list_elem_of_fmap_2.
Qed.

Lemma reported_distinct (trades : list (raw_trade F)) t oid :
  NoDup (rt_order <$> trades) -> t ∈ trades -> rt_order t = Inst oid -> reported oid trades = trade_quantity t.
Proof.
  intros Hnd (l1 & l2 & ->)%list_elem_of_split Ho. rewrite fmap_app, fmap_cons in Hnd.
  rewrite (cons_middle t l1 l2), !reported_app, reported_one, decide_True by done.
  apply NoDup_app in Hnd as (_ & H1 & H2). apply NoDup_cons in H2 as [H2 _].
  rewrite (reported_none l1), (reported_none l2); [lia|by rewrite <- Ho|]. intros Hin. apply (H1 _ Hin). rewrite <- Ho. left.
Qed.

(** What a successful call did. *)
Lemma simple_call_Ok view i timestamps iv sv w st w' st' returned now :
  hook_ok -> NoDup view -> timestamps !! i = Some now ->
  SimpleMarketSimulator_call sim view i timestamps iv sv (w, st) = ((w', st'), Ok returned) ->
  exists candidate_list, let trades := filter (fun t => roll_complete (roll_counts st view)
      (roll_counts st (trade_order <$> candidate_list)) st t = true) candidate_list in
    returned = Inst (Inst <$> trades) /\ Forall (candidate_for st now) candidate_list /\
    (trade_order <$> candidate_list) `sublist_of` view /\
    (forall oid, oid ∉ trade_order <$> trades -> st' !! oid = st !! oid) /\
    (forall oid, oid ∈ trade_order <$> trades -> exists r r', st !! oid = Some r /\ raw_fill r (PFloat f_nan) = Ok r' /\ st' !! oid = Some r').
Proof.
  intros Hhook Hnd Hnow. unfold SimpleMarketSimulator_call, timestamp_at. rewrite Hnow.
  destruct (candidate_trades _ _ _ _ _ _ w) as [w1 [l|e]] eqn:Hc; [|done]. cbv zeta. set (trades := filter _ l).
  destruct (st_iter _ trades (w1, st)) as [[w2 st2] [[]|e]] eqn:Hit; [|done]. intros [= <- <- <-]. exists l. fold trades.
  apply candidate_trades_spec in Hc as [Hall Hsub]. rewrite <- (candidate_orders st now l Hall) in Hsub.
  assert ((trade_order <$> l) `sublist_of` view) as Hsub'.
  { clear - Hsub. remember (Inst <$> (trade_order <$> l)) as a eqn:Ha. remember (Inst <$> view) as b eqn:Hb.
    remember (trade_order <$> l) as x eqn:Hx. clear Hx. revert x view Ha Hb. induction Hsub as [|y a b _ IH|y a b _ IH]; intros x v Ha Hb.
    - destruct x, v; done.
    - destruct x as [|x0 x], v as [|v0 v]; try done. csimpl in *. simplify_eq. apply sublist_skip. by apply IH.
    - destruct v as [|v0 v]; try done. csimpl in *. simplify_eq. apply sublist_cons. by apply IH. }
  assert (NoDup (trade_order <$> trades)) as Hndt.
  { eapply sublist_NoDup'; [exact Hnd|]. etrans; [|exact Hsub']. apply fmap_sublist, sublist_filter. }
  destruct (fill_trades_spec Hhook trades _ _ _ _ Hndt Hit) as [Hout Hin]. done.
Qed.

Lemma candidate_order st now l (t : raw_trade F) : Forall (candidate_for st now) l -> t ∈ l -> rt_order t = Inst (trade_order t).
Proof. rewrite Forall_forall. intros Hl Ht. destruct (Hl t Ht) as (oid & _ & _ & _ & Ho & _). by rewrite (trade_order_of t oid Ho). Qed.

(** The consequences, for the trades of a successful call. *)
Section Outcome.
Context (view : list positive) (now : Z) (st st' : heap F) (l : list (raw_trade F)).
Let trades := filter (fun t => roll_complete (roll_counts st view) (roll_counts st (trade_order <$> l)) st t = true) l.
Hypothesis Hnd : NoDup view.
Hypothesis Hall : Forall (candidate_for st now) l.
Hypothesis Hsub : (trade_order <$> l) `sublist_of` view.
Hypothesis Hout : forall oid, oid ∉ trade_order <$> trades -> st' !! oid = st !! oid.
Hypothesis Hin : forall oid, oid ∈ trade_order <$> trades ->
  exists r r', st !! oid = Some r /\ raw_fill r (PFloat f_nan) = Ok r' /\ st' !! oid = Some r'.

Lemma trades_candidates : Forall (candidate_for st now) trades.
Proof. apply Forall_forall. intros t [_ Ht]%list_elem_of_filter. by eapply (proj1 (Forall_forall _ _) Hall). Qed.

Lemma traded t : t ∈ trades -> exists r r', st !! trade_order t = Some r /\ trade_order t ∈ view /\
  raw_fill r (PFloat f_nan) = Ok r' /\ st' !! trade_order t = Some r' /\ fits view now st st' t /\ trade_quantity t = qty_of r.
Proof.
  intros Ht. destruct (Hin (trade_order t)) as (r & r' & Hr & Hf & Hr'); [by apply list_elem_of_fmap_2|].
  assert (trade_order t ∈ view) as Hv.
  { eapply elem_of_sublist; [|exact Hsub]. apply list_elem_of_fmap_2. by apply list_elem_of_filter in Ht as [_ ?]. }
  destruct (candidate_fits view now st st' t (trade_order t) r r') as [? ?]; try done.
  - by eapply (proj1 (Forall_forall _ _) trades_candidates).
  - by eapply candidate_order; [exact trades_candidates|].
  - by exists r, r'.
Qed.

Lemma trades_distinct : NoDup (rt_order <$> trades).
Proof.
  rewrite <- (candidate_orders st now trades trades_candidates). apply NoDup_fmap_2; [by intros ? ? [= ->]|].
  eapply sublist_NoDup'; [exact Hnd|]. etrans; [|exact Hsub]. apply fmap_sublist, sublist_filter.
Qed.

Lemma traded_reported t : t ∈ trades -> reported (trade_order t) trades = trade_quantity t.
Proof.
  intros Ht. apply reported_distinct; [apply trades_distinct|done|]. by eapply candidate_order; [exact trades_candidates|].
Qed.

Lemma outcome oid r : st !! oid = Some r -> exists r', st' !! oid = Some r' /\
  if decide (oid ∈ trade_order <$> trades)
  then r' = with_status (with_qty r (PInt 0)) FILLED /\ reported oid trades = qty_of r /\ qty_of r <> 0 /\ oid ∈ view
  else r' = r /\ reported oid trades = 0.
Proof.
  intros Hr. case_decide as Hi.
  - pose proof Hi as (t & -> & Ht)%list_elem_of_fmap. destruct (traded t Ht) as (r0 & r' & Hr0 & Hv & Hf & Hr' & _ & Hq). simplify_eq.
    exists r'. rewrite (traded_reported t Ht). by apply raw_fill_whole in Hf as (_ & -> & _ & ?).
  - exists r. rewrite Hout by done. split_and!; [done..|]. apply reported_none. intros Hin'. apply Hi.
    rewrite <- (candidate_orders st now trades trades_candidates) in Hin'. by apply (list_elem_of_fmap_inj_2 Inst) in Hin'.
Qed.

Lemma outcome_accepted : engine_orders view st ->
  validate_market_trades (Inst (Inst <$> trades)) view now (omap (order_state st) view) st' = Ok trades.
Proof.
  intros He. apply accepts; [done|done|apply trades_distinct| |].
  - apply Forall_forall. intros t Ht. by destruct (traded t Ht) as (? & ? & _ & _ & _ & _ & ? & _).
  - intros oid r Ho Hr. destruct (outcome oid r Hr) as (r' & Hr' & Hres). exists r'. split; [done|]. case_decide.
    + destruct Hres as (-> & -> & Hnz & _). right. left. rewrite Z.sub_diag. split_and!; try done. by left.
    + destruct Hres as [-> ->]. left. destruct (He oid Ho) as (r0 & Hr0 & Heng). simplify_eq.
      apply engine_order_fields in Heng as (c & ts & tif & s & q & _ & _ & _ & Hs & Hq). split; [unfold qty_of; by rewrite Hq|].
      by rewrite Hs, inst_eqb_refl.
Qed.

Lemma candidate_limit t : candidate_for st now t ->
  exists r p, st !! trade_order t = Some r /\ rt_price t = PFloat p /\ is_marketable r p = Ok true.
Proof.
  intros (oid & r & t0 & t' & Ho & Hr & Hck & -> & _ & _ & _ & _ & p & f & k & Hp & _ & _ & Hm).
  exists r, (t_price t'). split_and!; [done..|]. enough (t_price t' = p) as -> by done.
  unfold check_trade in Hck. apply bind_Ok_inv in Hck as ([[? ?] ?] & _ & Hck).
  apply bind_Ok_inv in Hck as ([[[? p2] ?] ?] & Hnum & [= <-]). simpl. unfold validated_trade_numbers in Hnum. rewrite Hp in Hnum.
  apply bind_Ok_inv in Hnum as (? & _ & Hnum). apply bind_Ok_inv in Hnum as (p3 & Hp3 & Hnum).
  apply finite_real_Ok in Hp3 as [_ [= <-]]. inv_ok Hnum. done.
Qed.

Lemma legs_together id oid : oid ∈ trade_order <$> trades -> has_roll st id oid = true ->
  leg_count st id view = 2%nat /\
  forall oid', oid' ∈ view -> has_roll st id oid' = true -> oid' ∈ trade_order <$> trades.
Proof.
  intros (t & -> & Ht)%list_elem_of_fmap Hroll. unfold trades in *.
  set (oc := roll_counts st view) in *. set (tc := roll_counts st (trade_order <$> l)) in *.
  apply list_elem_of_filter in Ht as [Hcomp Ht].
  assert (count_of tc (PStr id) = count_of oc (PStr id) /\ count_of oc (PStr id) = Some 2%nat) as [Hc1 Hc2].
  { unfold roll_complete, has_roll in Hcomp, Hroll. destruct (roll_id_of st (trade_order t)) as [[]|]; try done.
    apply bool_decide_eq_true in Hroll as ->. by apply andb_prop in Hcomp as [?%bool_decide_eq_true ?%bool_decide_eq_true]. }
  assert (leg_count st id (trade_order <$> l) = leg_count st id view) as Hlc.
  { rewrite <- (proj1 (roll_counts_spec st id view)), <- (proj1 (roll_counts_spec st id (trade_order <$> l))). fold oc tc. by rewrite Hc1. }
  split; [rewrite <- (proj1 (roll_counts_spec st id view)); fold oc; by rewrite Hc2|]. intros oid' Hv Hroll'.
  pose proof (legs_all st id _ _ oid' Hsub Hlc Hv Hroll') as (t2 & -> & Ht2)%list_elem_of_fmap.
  apply list_elem_of_fmap_2, list_elem_of_filter. split; [|done]. unfold roll_complete, has_roll in *.
  destruct (roll_id_of st (trade_order t2)) as [[]|]; try done. apply bool_decide_eq_true in Hroll' as ->.
  by rewrite Hc1, Hc2, !bool_decide_eq_true_2.
Qed.
End Outcome.
End Simple.

(** ** Properties *)

(** C8: The engine accepts every batch [SimpleMarketSimulator] returns.  Each order
    it traded is filled whole, by one trade of exactly its quantity, at a price
    its limit admits; every other order is untouched; and a leg of a
    roll trades only when the roll has exactly two orders, and then both do. *)
Theorem SimpleMarketSimulator_accepted `{PyFloat F} `{!PyFloatEq F} `{!PyFloatNan F} `{!Numpy F} {W} (sim : SimpleMarketSimulator F W)
    view i timestamps iv sv w (st : heap F) w' st' returned now :
  hook_ok sim -> NoDup view -> engine_orders view st -> timestamps !! i = Some now ->
  SimpleMarketSimulator_call sim view i timestamps iv sv (w, st) = ((w', st'), Ok returned) ->
  exists trades, returned = Inst (Inst <$> trades) /\
    validate_market_trades returned view now (omap (order_state st) view) st' = Ok trades /\
    (forall oid r, st !! oid = Some r -> exists r', st' !! oid = Some r' /\
       if decide (oid ∈ trade_order <$> trades)
       then r' = with_status (with_qty r (PInt 0)) FILLED /\ reported oid trades = qty_of r /\ oid ∈ view else r' = r) /\
    (forall t, t ∈ trades -> exists r p, st !! trade_order t = Some r /\ rt_price t = PFloat p /\ is_marketable r p = Ok true) /\
    (forall id oid, oid ∈ trade_order <$> trades -> has_roll st id oid = true ->
       length (filter (fun oid' => has_roll st id oid' = true) view) = 2%nat /\
       forall oid', oid' ∈ view -> has_roll st id oid' = true -> oid' ∈ trade_order <$> trades).
Proof.
  intros Hhook Hnd He Hnow Hcall. apply simple_call_Ok with (now:=now) in Hcall as (l & -> & Hall & Hsub & Hout & Hin); try done.
  eexists. split; [done|]. split_and!.
  - by apply outcome_accepted.
  - intros oid r Hr. destruct (outcome view now st st' l Hnd Hall Hsub Hout Hin oid r Hr) as (r' & Hr' & Hres).
    exists r'. split; [done|]. case_decide; tauto.
  - intros t Ht. apply (candidate_limit now). by eapply (proj1 (Forall_forall _ _) (trades_candidates view now st l Hall)).
  - by apply legs_together.
Qed.

(** ** The simulators meet what the engine assumes of them *)

Section Keeps.
Context `{PyFloat F} `{!Numpy F} {W : Type}.

Lemma simple_sim_keeps (sim : SimpleMarketSimulator F W) :
  (forall f, sm_post_trade_func sim = Some f -> forall t w st w' st' res, f t (w, st) = ((w', st'), res) -> keeps st st') ->
  sim_keeps (SimpleMarketSimulator_call sim).
Proof.
  intros Hf view i ts iv sv w st w' st' res. unfold SimpleMarketSimulator_call.
  destruct (timestamp_at ts i); [|by intros; simplify_eq]. destruct (candidate_trades _ _ _ _ _ _ w) as [w1 [l|]]; [|by intros; simplify_eq].
  cbv zeta. destruct (st_iter _ _ (w1, st)) as [[w2 st2] r] eqn:Hit.
  assert (keeps st st2) as Hk; [|destruct r; intros; by simplify_eq].
  assert (PreOrder (fun x y : W * heap F => keeps x.2 y.2)) as Hpre.
  { split; [by intros []|]. intros [] [] [] Ha Hb. simpl in *. by etrans. }
  apply (st_iter_rel (fun x y : W * heap F => keeps x.2 y.2)) in Hit; [done|].
  intros t [wa sta] [wb stb] rb _. unfold fill_trade. destruct (sta !! trade_order t) as [o|]; [|by intros; simplify_eq].
  destruct (raw_fill o _) as [o'|]; [|by intros; simplify_eq].
  destruct (sm_post_trade_func sim) as [f|] eqn:E; [|intros; simplify_eq; apply keeps_insert].
  intros Hx. apply Hf in Hx; [|done]. simpl. etrans; [apply keeps_insert|exact Hx].
Qed.

Lemma vwap_orders_keeps sim (indicators : stage_values F) i ts timestamp orders : forall trades st st' res,
  vwap_orders sim indicators i ts timestamp orders trades st = (st', res) -> keeps st st'.
Proof.
  induction orders as [|oid orders IH]; intros trades st st' res; cbn [vwap_orders]; [by intros; simplify_eq|].
  destruct (st !! oid) as [o|]; [|by intros; simplify_eq]. destruct (r_kind o); try apply IH.
  destruct (vwap_order _ _ _ _ _ _ _ _ _ st) as [st1 r1] eqn:Hv.
  assert (keeps st st1) as Hk; [|destruct r1; [intros Hr; etrans; [exact Hk|by eapply IH]|intros; by simplify_eq]].
  unfold vwap_order in Hv. destruct (vwap_decide _ _ _ _ _ _ _ _) as [[|c b v t0 t1]|]; try (by simplify_eq).
  destruct (vwap_quantity _ _ _ _ _) as [[q|]|]; try (by simplify_eq); [|simplify_eq; apply keeps_insert].
  destruct (raw_fill o q) as [o'|]; simplify_eq; [apply keeps_insert|done].
Qed.

Lemma vwap_sim_keeps sim : sim_keeps (W:=W) (VWAPMarketSimulator_call sim).
Proof.
  intros view i ts iv sv w st w' st' res. unfold VWAPMarketSimulator_call.
  destruct (_ ≫= _) as [timestamp|]; [|by intros; simplify_eq].
  destruct (vwap_orders _ _ _ _ _ _ _ st) as [st1 [l|]] eqn:Hv; apply vwap_orders_keeps in Hv; intros; by simplify_eq.
Qed.
End Keeps.

(** ** Witness: a market order, and a limit order the price does not reach *)

Definition demo_simulator : SimpleMarketSimulator spec_float unit :=
  mkSimulator demo_price 3 None (FixedPercentageSlippage_adjustment (f_dec 1 2)) (PerUnitCharge_charge (f_of_Z 1))
    (NotionalCharge_charge (f_dec 1 4)).

Definition demo_sim_heap : heap spec_float :=
  {[6%positive := demo_raw_order (demo_contract 2 "ESH4") 7 3 RMarket;
    8%positive := demo_raw_order (demo_contract 2 "ESH4") 7 2 (RLimit (PInt 90))]}.

Definition demo_simulated : (unit * heap spec_float) * result (arg (list (arg (raw_trade spec_float)))) :=
  SimpleMarketSimulator_call demo_simulator [6; 8]%positive 0%nat [7] [] [] (tt, demo_sim_heap).

Lemma SimpleMarketSimulator_accepted_witness :
  exists trades, demo_simulated.2 = Ok (Inst (Inst <$> trades)) /\ (trade_order <$> trades) = [6%positive] /\
    validate_market_trades (Inst (Inst <$> trades)) [6; 8]%positive 7 (omap (order_state demo_sim_heap) [6; 8]%positive) demo_simulated.1.2 = Ok trades.
Proof.
  assert (exists returned, demo_simulated.2 = Ok (Inst (Inst <$> returned)) /\ (trade_order <$> returned) = [6%positive]) as (returned & Hr & Hord).
  { exists (match demo_simulated.2 with Ok (Inst l) => omap (fun x => match x with Inst t => Some t | NotInst => None end) l | _ => [] end).
    split; vm_compute; reflexivity. }
  destruct (SimpleMarketSimulator_accepted demo_simulator [6; 8]%positive 0%nat [7] [] [] tt demo_sim_heap demo_simulated.1.1 demo_simulated.1.2
    (Inst (Inst <$> returned)) 7) as (trades & Heq & Hval & _).
  - intros f Hf. discriminate Hf.
  - repeat constructor; rewrite ?elem_of_cons, elem_of_nil; intros Hn; repeat destruct Hn as [Hn|Hn]; done.
  - intros oid Ho. rewrite !elem_of_cons, elem_of_nil in Ho. destruct Ho as [ -> |[ -> |[]]]; eexists; (split; [reflexivity|]);
      apply engine_order_fields; repeat eexists.
  - reflexivity.
  - rewrite <- Hr. by apply run_eta.
  - assert (trades = returned) as ->.
    { injection Heq as Heq. apply (inj (fmap Inst)) in Heq. by symmetry. }
    exists returned. split; [exact Hr|]. split; [exact Hord|exact Hval].
Defined.
