(* ===== verification/RuleFacts.v ===== *)
(** * What the trading rules promise

    The orders of an entry rule stay within the risk budget it was given; the
    orders of an exit rule close what is open. *)

From S2P Require Import Roundtrip Prelude Numeric Vendor Boundaries Instruments Contracts Orders Fifo ContractPnl.
From S2P Require Import Inputs Costs Account Callbacks Sparse Stages Risk Strategy Engine Simulators Rules.
From Stdlib Require Import SpecFloat QArith Qcanon Qround Lqa.

Open Scope Z_scope.

(** ** Loops over contracts *)

Section Loops.
Context `{PyFloat F} `{!Numpy F} `{SortedDict D} {W : Type}.
Implicit Types (s : world F D W).

Definition heap_of s : heap F := s.2.1.

(** [visits body l s c sc]: the loop over [l] from [s] comes to [c] in the state
    [sc], the one the entries before it left. *)
Inductive visits {A} (body : A -> ST (world F D W) entry) : list A -> world F D W -> A -> world F D W -> Prop :=
  | visits_here c l s : visits body (c :: l) s c s
  | visits_next c l s s1 r x sx :
      body c s = (s1, Ok r) -> r <> Stop -> visits body l s1 x sx -> visits body (c :: l) s x sx.

(** A loop places the orders its visits place, and keeps the order objects when
    its body does. *)
Lemma for_contracts_spec {A} (body : A -> ST (world F D W) entry) (l : list A) :
  (forall c s s' r, body c s = (s', r) -> extends (heap_of s) (heap_of s')) ->
  forall orders s s' ids, for_contracts body l orders s = (s', Ok ids) ->
  extends (heap_of s) (heap_of s') /\ forall oid, oid ∈ ids -> oid ∈ orders \/
    exists c sc s1, visits body l s c sc /\ body c sc = (s1, Ok (Place oid)) /\ extends (heap_of s1) (heap_of s').
Proof.
  intros Hbody. induction l as [|c l IH]; intros orders s s' ids; cbn [for_contracts].
  { intros [= <- <-]. split; [done|auto]. }
  destruct (body c s) as [s1 r] eqn:Hb. pose proof (Hbody _ _ _ _ Hb) as He.
  destruct r as [[| |oid]|e]; [|intros [= <- <-]; split; [done|by intros ? ?%elem_of_nil]| |done];
    intros Hl; destruct (IH _ _ _ _ Hl) as [He' Hin]; (split; [by etrans|]); intros oid' Ho.
  - destruct (Hin oid' Ho) as [?|(c' & sc & s2 & Hv & ?)]; [by left|right]. exists c', sc, s2.
    split; [by eapply visits_next|done].
  - destruct (Hin oid' Ho) as [[?|Hs%list_elem_of_singleton]%elem_of_app|(c' & sc & s2 & Hv & ?)]; [by left|right..].
    + subst oid'. exists c, s, s1. split_and!; [constructor|done|done].
    + exists c', sc, s2. split; [by eapply visits_next|done].
Qed.

(** Prices and equity leave the orders alone. *)
Lemma world_price_heap pf c ts i s s' r : world_price (D:=D) pf c ts i s = (s', r) -> heap_of s' = heap_of s.
Proof. unfold world_price. destruct s as [w x]. destruct (pf w c ts i). by intros [= <- <-]. Qed.

Lemma world_entry_price_heap pf c ts i s s' r : world_entry_price (D:=D) pf c ts i s = (s', r) -> heap_of s' = heap_of s.
Proof.
  unfold world_entry_price, mbind, ST_bind. destruct (world_price pf c ts i s) as [s1 [v|e]] eqn:Hp; apply world_price_heap in Hp;
    unfold st_lift; by intros [= <- <-].
Qed.

Lemma world_equity_heap pf t s s' r : world_equity (D:=D) pf t s = (s', r) -> heap_of s' = heap_of s.
Proof. unfold world_equity. destruct s as [w [st a]]. destruct (equity pf t (w, a)) as [[w1 a1] r1]. by intros [= <- <-]. Qed.

(** A new market order is the object it was asked for, under a new identity. *)
Lemma new_order_spec c t q reason tif s s' r :
  new_order (order_terms c t q reason tif RMarket) s = (s', r) ->
  extends (heap_of s) (heap_of s') /\
  forall oid, r = Ok oid -> heap_of s' !! oid = Some (order_terms c t q reason tif RMarket).
Proof.
  unfold new_order. destruct s as [w [st a]]. destruct (mk_order _) as [o|e] eqn:Ho; [|by intros [= <- <-]].
  simpl in Ho. apply order_post_init_Ok in Ho as ([= Hc] & [= Ht] & [= Htif] & [= Hs] & Hq & Hp & Hr & Hk).
  apply whole_quantity_nonzero_int in Hq as [Hq _].
  unfold alloc. intros [= <- <-]. unfold heap_of. simpl. split.
  - intros i x Hi. rewrite lookup_insert_ne; [done|]. intros <-. by rewrite (not_elem_of_dom_1 _ _ (is_fresh (dom st))) in Hi.
  - intros oid [= <-]. rewrite lookup_insert_eq. unfold unsettle, order_terms. destruct o. simpl in *. by subst.
Qed.
End Loops.

(** ** Exact sizing *)

Section Sizing.
Open Scope Qc_scope.

Lemma exact_floor_le (x : Qc) : zq (f_floor (Some x : XQ)) <= x.
Proof.
  change (f_floor (Some x : XQ)) with (Qnum x / QDen x)%Z. unfold Qcle, zq. simpl. rewrite Qred_correct.
  destruct x as [[n d] Hx]. simpl. exact (Qfloor_le (n # d)).
Qed.

Lemma exact_floor_nonneg (x : Qc) : 0 <= x -> (0 <= f_floor (Some x : XQ))%Z.
Proof.
  intros Hx. change (f_floor (Some x : XQ)) with (Qnum x / QDen x)%Z. apply Z.div_pos; [|done].
  unfold Qcle, Qle in Hx. simpl in Hx. lia.
Qed.

Definition qmax0 (e : Qc) : Qc := if Exact.qltb e 0 then 0 else e.

Lemma exact_max0 (e : Qc) : f_max (Some e : XQ) f_zero = Some (qmax0 e).
Proof. unfold f_max, f_zero, qmax0. simpl. unfold Exact.cmp. rewrite zq_0. by destruct (Exact.qltb e 0). Qed.

Lemma qmax0_nonneg e : 0 <= qmax0 e.
Proof.
  unfold qmax0. destruct (Exact.qltb e 0) eqn:E; [done|]. apply Qcnot_lt_le. intros Hlt. apply qltb_lt in Hlt. congruence.
Qed.

Lemma Qcle_flip (x y : Qc) : Exact.qltb x y = false -> y <= x.
Proof. intros Hf. apply Qcnot_lt_le. intros Hlt. apply qltb_lt in Hlt. congruence. Qed.

Lemma Qclt_flip (x y : Qc) : Exact.qleb x y = false -> y < x.
Proof. intros Hf. apply Qcnot_le_lt. intros Hle. apply qleb_le in Hle. congruence. Qed.

Lemma Qc_div_mul (a u : Qc) : u <> 0 -> a / u * u = a.
Proof. intros Hu. field. exact Hu. Qed.

(** [_entry_quantity] spends the budget exactly. *)
Lemma entry_quantity_exact (equity fraction distance multiplier q : XQ) :
  entry_quantity equity fraction distance multiplier = Ok q ->
  exists e f d m x, equity = Some e /\ fraction = Some f /\ distance = Some d /\ multiplier = Some m /\ q = Some x /\
    0 <= f /\ 0 < d * m /\ x * (d * m) = qmax0 e * f /\ 0 <= x.
Proof.
  unfold entry_quantity, nonnegative_fraction, nonnegative_finite. intros Hq.
  destruct fraction as [f|]; [|done]. apply bind_Ok_inv in Hq as ([] & Hfr & Hq). apply guard_bind_Ok in Hfr as [Hfr _].
  destruct equity as [e|]; [|by apply guard_bind_Ok in Hq as [? _]]. apply guard_bind_Ok in Hq as [_ Hq].
  destruct distance as [d|]; [|by apply guard_bind_Ok in Hq as [? _]]. apply guard_bind_Ok in Hq as [Hd Hq].
  rewrite exact_max0 in Hq. cbv zeta in Hq. destruct multiplier as [m|]; [|by apply guard_bind_Ok in Hq as [? _]].
  apply guard_bind_Ok in Hq as [Hu Hq]. apply guard_bind_Ok in Hq as [_ [= <-]]. bools.
  unfold f_zero in *. simpl in *. unfold Exact.cmp in *. rewrite zq_0 in *.
  assert (0 <= f) as Hf by (by apply Qcle_flip).
  assert (0 < d * m) as Hu by (by apply Qclt_flip).
  assert (d * m <> 0) as Hnz by (intros E; rewrite E in Hu; done).
  destruct (Exact.qeqb (d * m) 0) eqn:E; [by apply qeqb_eq in E|].
  exists e, f, d, m, (qmax0 e * f / (d * m)). split_and!; try done.
  - by apply Qc_div_mul.
  - apply Qcmult_lt_0_le_reg_r with (d * m); [done|]. rewrite Qcmult_0_l.
    rewrite (Qc_div_mul (qmax0 e * f) (d * m) Hnz).
    rewrite <- (Qcmult_0_l f). apply Qcmult_le_compat_r; [apply qmax0_nonneg|done].
Qed.
End Sizing.

(** ** [BracketOrderEntryRule] *)

Section Bracket.
Context `{!Numpy XQ} `{SortedDict D} {W : Type}.
Context (registry_of : W -> registry XQ) (pf : price_fn XQ W) (rule : BracketOrderEntryRule (F:=XQ) (D:=D) (W:=W)).

Open Scope Qc_scope.

Lemma scaled_le (a b u : Qc) : a <= b -> 0 < u -> a * u <= b * u.
Proof. intros Hab Hu. apply Qcmult_le_compat_r; [done|]. by apply Qclt_le_weak. Qed.

(** The quantity of a bracket order: its loss at the stop is within the risk
    budget, its cost within the largest position. *)
Lemma bracket_quantity_exact (equity d p multiplier : XQ) z :
  bracket_quantity rule equity d p multiplier = Ok z ->
  exists e f dist m, equity = Some e /\ be_percent_of_equity rule = Some f /\ d = Some dist /\ multiplier = Some m /\
    (if be_long rule then 0 <= z else z <= 0)%Z /\
    zq (Z.abs z) * (dist * m) <= f * qmax0 e /\
    forall s, be_max_position_size rule = Some s -> 0 < s ->
      exists price, p = Some price /\ zq (Z.abs z) * (price * m) <= s * qmax0 e.
Proof.
  unfold bracket_quantity. intros Hz. apply bind_Ok_inv in Hz as (quantity & Hq & Hz).
  apply entry_quantity_exact in Hq as (e & f & dist & m & x & -> & -> & -> & -> & -> & Hf & Hu & Hx & Hx0).
  apply bind_Ok_inv in Hz as (capped & Hcap & Hz). cbv zeta in Hz.
  assert (z = if be_long rule then f_floor capped else (- f_floor capped)%Z) as -> by (injection Hz as Hz; exact (eq_sym Hz)). clear Hz.
  assert (exists y, capped = Some y /\ 0 <= y /\ y <= x /\
    forall s, be_max_position_size rule = Some s -> 0 < s -> exists price, p = Some price /\ 0 < price * m /\ y * (price * m) <= s * qmax0 e)
    as (y & -> & Hy0 & Hyx & Hcapped).
  { destruct (be_max_position_size rule) as [s|] eqn:Hs; cbn in Hcap.
    2:{ injection Hcap as <-. exists x. by split_and!. }
    rewrite zq_0 in Hcap. destruct (Exact.qltb 0 s) eqn:Hs0.
    2:{ injection Hcap as <-. exists x. split_and!; try done. intros s' [= <-] Hs'. apply qltb_lt in Hs'. congruence. }
    apply bind_Ok_inv in Hcap as (max_qty & Hm & Hcap). apply entry_quantity_exact in Hm
      as (e' & s' & price & m' & y & [= <-] & [= <-] & Hp & [= <-] & -> & Hs'0 & Hu' & Hy & Hy0). subst p.
    assert (forall q, q <= y -> q * (price * m) <= s * qmax0 e) as Hle.
    { intros q Hq. rewrite (Qcmult_comm s), <- Hy. by apply scaled_le. }
    cbn in Hcap. fold (qabs x) in Hcap.
    assert (qabs x = x) as Habs.
    { destruct (qabs_cases x) as [[? _]|[_ Hneg]]; [done|]. exfalso. by apply Qcle_not_lt in Hx0. }
    rewrite Habs in Hcap. destruct (Exact.qltb y x) eqn:Hyx.
    - assert (0 < x) as Hxpos. { apply qltb_lt in Hyx. by eapply Qcle_lt_trans. }
      rewrite (proj2 (qltb_lt 0 x) Hxpos) in Hcap. unfold Exact.of_Z in Hcap. rewrite zq_1, Qcmult_1_r in Hcap.
      injection Hcap as <-. exists y.
      split_and!; try done; [by apply Qclt_le_weak, qltb_lt|]. intros s' [= <-] _. exists price. split_and!; try done. apply Hle, Qcle_refl.
    - injection Hcap as <-. exists x. split_and!; try done. intros s' [= <-] _. exists price. split_and!; try done.
      apply Hle. by apply Qcle_flip. }
  pose proof (exact_floor_nonneg y Hy0) as Hfl0. pose proof (exact_floor_le y) as Hfl. set (z := f_floor (Some y : XQ)) in *.
  assert (Z.abs (if be_long rule then z else (- z)%Z) = z) as Habs by (destruct (be_long rule); lia).
  exists e, f, dist, m. rewrite Habs. split_and!; try done.
  - destruct (be_long rule); lia.
  - rewrite (Qcmult_comm f), <- Hx. apply scaled_le; [|done]. by eapply Qcle_trans; [exact Hfl|].
  - intros s Hs Hs0. destruct (Hcapped s Hs Hs0) as (price & -> & Hup & Hle). exists price. split; [done|].
    eapply Qcle_trans; [|exact Hle]. by apply scaled_le.
Qed.

(** The loss per unit at the stop: the distance to the stop price, the whole
    price when there is no stop. *)
Definition stop_loss (p : Qc) (stop_return : option XQ) (d : Qc) : Prop :=
  match stop_return with
  | None => d = p
  | Some sr => exists x, sr = Some x /\ x < 0 /\ d = p * - x /\ 0 < p /\
      (forall m, be_min_stop_return rule = Some m -> x <= m)
  end.

(** A market order of the rule, placed for [c] in the state [sc]: the price is the
    one the callback gives in this state, the stop return the one it gives after
    that, and the equity the account's after both. *)
Definition bracket_order (timestamps : list Z) (i : nat) (timestamp : Z) (c : contract XQ) (sc : world XQ D W)
    (oid : positive) (st : heap XQ) : Prop :=
  exists q p d e f m s1 s2 s3 sr,
    st !! oid = Some (order_terms c timestamp q (be_reason_code rule) FOK RMarket) /\
    world_entry_price (D:=D) (be_price_func rule) c timestamps i sc = (s1, Ok (Some p)) /\
    bracket_stop_return (D:=D) rule timestamps i c s1 = (s2, Ok sr) /\ stop_loss p sr d /\
    world_equity (D:=D) pf timestamp s2 = (s3, Ok (Some e)) /\
    be_percent_of_equity rule = Some f /\ c_multiplier c = Some m /\
    (if be_long rule then 0 < q else q < 0)%Z /\
    zq (Z.abs q) * (d * m) <= f * qmax0 e /\
    (forall s, be_max_position_size rule = Some s -> 0 < s -> zq (Z.abs q) * (p * m) <= s * qmax0 e).

Lemma qabs_neg (q : Qc) : q < 0 -> qabs q = - q.
Proof. intros Hq. destruct (qabs_cases q) as [[_ Hge]|[-> _]]; [|done]. by apply Qcle_not_lt in Hge. Qed.

Lemma qabs_pos (q : Qc) : 0 < q -> qabs q = q.
Proof. intros Hq. destruct (qabs_cases q) as [[-> _]|[_ Hlt]]; [done|]. apply Qclt_le_weak, Qcle_not_lt in Hq. done. Qed.

(** The price lies on the profit side of the stop: it is positive. *)
Lemma loss_side (p x : Qc) (long : bool) : x < 0 ->
  (if long then p * (1 + x) < p else p < p * (1 + - x)) ->
  0 < p /\ qabs (p * (if long then x else - x)) = p * - x.
Proof.
  intros Hx Hside. assert (0 < p) as Hp by (destruct long; to_Q; nra). split; [done|].
  destruct long; [rewrite qabs_neg; [ring|]|rewrite qabs_pos; [ring|]]; to_Q; nra.
Qed.

Lemma bracket_distance_loss p sr d : bracket_distance rule (Some p) sr = Ok (Some (Some d)) -> stop_loss p sr d.
Proof.
  unfold bracket_distance, stop_loss. destruct sr as [[x|]|]; [|by intros Hd; inv_ok Hd|by intros [= <-]].
  intros Hd. apply guard_bind_Ok in Hd as [Hx Hd]. cbn in Hx. unfold Exact.cmp in Hx. rewrite zq_0 in Hx.
  apply negb_true_iff, Qclt_flip in Hx. destruct (f_ltb (be_min_stop_return rule) _) eqn:Hm; [done|].
  destruct (loss_side p x (be_long rule) Hx) as [Hp Habs].
  { destruct (be_long rule); cbn in Hd; unfold Exact.cmp, Exact.of_Z in Hd; rewrite zq_1 in Hd;
      destruct (Exact.qleb _ _) eqn:Hle in Hd; try done; by apply Qclt_flip in Hle. }
  exists x. destruct (be_long rule); cbn in Hd; destruct (Exact.qleb _ _); try done; injection Hd as <-;
    (split_and!; [done|done|exact Habs|done|]); intros m Hmin; rewrite Hmin in Hm; cbn in Hm; by apply Qcle_flip.
Qed.

Lemma bracket_stop_return_heap timestamps i c s s' r :
  bracket_stop_return (D:=D) rule timestamps i c s = (s', r) -> heap_of s' = heap_of s.
Proof.
  unfold bracket_stop_return. destruct (be_stop_return_func rule) as [f|]; [|by intros [= <- <-]].
  unfold mbind, ST_bind, st_lift. destruct (world_price f c timestamps i s) as [s1 [v|e]] eqn:Hp; apply world_price_heap in Hp.
  - destruct (num_float v); by intros [= <- <-].
  - by intros [= <- <-].
Qed.

Lemma extends_refl (st : heap XQ) : extends st st.
Proof. by intros i x. Qed.

(** The entry of one contract keeps the order objects; what it places is a bracket
    order for the state it was run in. *)
Lemma bracket_entry_spec timestamps i timestamp c s s' r :
  bracket_entry pf rule timestamps i timestamp c s = (s', r) ->
  extends (heap_of s) (heap_of s') /\
  forall oid, r = Ok (Place oid) -> bracket_order timestamps i timestamp c s oid (heap_of s').
Proof.
  intros Hb. unfold bracket_entry in Hb. unfold mbind, ST_bind, st_get, mret, ST_ret, st_lift in Hb.
  destruct (_ && _); [simplify_eq; split; [apply extends_refl|done]|].
  destruct (world_entry_price _ c timestamps i s) as [s1 [p|e]] eqn:Hp; pose proof (world_entry_price_heap _ _ _ _ _ _ _ Hp) as Hh1;
    [|simplify_eq; rewrite Hh1; split; [apply extends_refl|done]].
  destruct (f_isnan p) eqn:Hnan; [simplify_eq; rewrite Hh1; split; [apply extends_refl|done]|].
  destruct (bracket_stop_return rule timestamps i c s1) as [s2 [sr|e]] eqn:Hsr; pose proof (bracket_stop_return_heap _ _ _ _ _ _ Hsr) as Hh2;
    [|simplify_eq; rewrite Hh2, Hh1; split; [apply extends_refl|done]].
  destruct (bracket_distance rule p sr) as [[d|]|e] eqn:Hd; [|simplify_eq; rewrite Hh2, Hh1; split; [apply extends_refl|done]..].
  destruct (world_equity pf timestamp s2) as [s3 [e|e]] eqn:He; pose proof (world_equity_heap _ _ _ _ _ He) as Hh3;
    [|simplify_eq; rewrite Hh3, Hh2, Hh1; split; [apply extends_refl|done]].
  destruct (bracket_quantity rule e d p (c_multiplier c)) as [z|x] eqn:Hz; [|simplify_eq; rewrite Hh3, Hh2, Hh1; split; [apply extends_refl|done]].
  unfold int_isclose0 in Hb. destruct (Z.eqb_spec z 0) as [->|Hnz]; [simplify_eq; rewrite Hh3, Hh2, Hh1; split; [apply extends_refl|done]|].
  unfold fmap, ST_fmap in Hb. destruct (new_order _ s3) as [s4 [oid|x]] eqn:Hn; apply new_order_spec in Hn as [Hext Hobj]; rewrite Hh3, Hh2, Hh1 in Hext;
    simplify_eq; (split; [exact Hext|]); [|done]. intros oid' [= <-].
  destruct p as [p|]; [|done].
  apply bracket_quantity_exact in Hz as (e' & f & dist & m & -> & Hf & -> & Hm & Hside & Hrisk & Hcap).
  exists z, p, dist, e', f, m, s1, s2, s3, sr. split_and!; try done; [by apply Hobj|by apply bracket_distance_loss| |].
  - destruct (be_long rule); lia.
  - intros size Hs Hs0. destruct (Hcap size Hs Hs0) as (price & [= <-] & Hle). exact Hle.
Qed.
End Bracket.

(** ** Properties *)

(** C9: In exact arithmetic the orders of [BracketOrderEntryRule] stay within the
    risk budget.  A returned order was placed when the loop came to its contract
    [c], in some state [sc]: it is a market order on the rule's side for [c]; with
    the price [p], the stop return and the equity that this very call got, its
    loss if it exits at the stop is at most the given fraction of equity, and its
    cost at [p] at most the largest position size when one is given.  With
    negative equity nothing is bought or sold. *)
Theorem bracket_orders_within_risk `{!Numpy XQ} `{SortedDict D} {W} (registry_of : W -> registry XQ) (pf : price_fn XQ W)
    (rule : BracketOrderEntryRule (F:=XQ) (D:=D) (W:=W)) g i timestamps iv sv current s s' ids t :
  BracketOrderEntryRule_call registry_of pf rule g i timestamps iv sv current s = (s', Ok ids) ->
  timestamps !! i = Some t ->
  exists oids contracts s0, ids = Inst (Inst <$> oids) /\
    bracket_contracts registry_of rule g i timestamps iv sv current s = (s0, Ok contracts) /\
    forall oid, oid ∈ oids -> exists c sc, visits (bracket_entry pf rule timestamps i t) contracts s0 c sc /\
      bracket_order pf rule timestamps i t c sc oid (heap_of s').
Proof.
  intros Hcall Ht. unfold BracketOrderEntryRule_call, timestamp_of, timestamp_at in Hcall. rewrite Ht in Hcall.
  apply ST_bind_Ok in Hcall as (s1 & t' & [= <- <-] & Hcall). apply ST_bind_Ok in Hcall as (s2 & contracts & Hc & Hcall).
  apply ST_fmap_Ok in Hcall as (oids & Hloop & ->). exists oids, contracts, s2. split; [done|]. split; [done|].
  eapply for_contracts_spec in Hloop as [_ Hin]; [|intros c sa sb r Hb; exact (proj1 (bracket_entry_spec pf rule _ _ _ _ _ _ _ Hb))].
  intros oid Ho. destruct (Hin oid Ho) as [Hn|(c & sc & s3 & Hv & Hb & Hext)]; [by apply elem_of_nil in Hn|].
  exists c, sc. split; [done|]. apply bracket_entry_spec in Hb as [_ Hb].
  destruct (Hb oid eq_refl) as (q & p & d & e & f & m & sa & sb & sd & sr & Hobj & Hrest).
  exists q, p, d, e, f, m, sa, sb, sd, sr. split; [by apply Hext|exact Hrest].
Qed.

(** ** Witness: a stop at half the price, and a cap on the position *)

Definition constant_price (x : XQ) : price_fn XQ unit := fun w _ _ _ => (w, Ok (PFloat x)).

Definition demo_bracket : BracketOrderEntryRule (F:=XQ) (D:=sorted_items) (W:=unit) :=
  mkBracket "enter" (constant_price (f_of_Z 2)) true (f_dec 5 1) (f_dec (-1) 1) (f_dec 3 1) false None
    (Some (constant_price (f_dec (-5) 1))).

Definition demo_bracketed : world XQ sorted_items unit * result (arg (list (arg positive))) :=
  BracketOrderEntryRule_call (fun _ => demo_registry) (constant_price (f_of_Z 2)) demo_bracket DEFAULT_CG 1%nat [1; 2; 3] [] [] []
    (tt, (∅, demo_account)).

Lemma bracket_orders_within_risk_witness :
  exists oid r, demo_bracketed.2 = Ok (Inst [Inst oid]) /\ heap_of demo_bracketed.1 !! oid = Some r /\ qty_of r = 3 /\
    exists c sc, bracket_order (constant_price (f_of_Z 2)) demo_bracket [1; 2; 3] 1%nat 2 c sc oid (heap_of demo_bracketed.1).
Proof.
  assert (exists oid, demo_bracketed.2 = Ok (Inst [Inst oid])) as [oid Hr] by (eexists; vm_compute; reflexivity).
  assert ((qty_of <$> (heap_of demo_bracketed.1 !! oid)) = Some 3) as Hq.
  { assert (oid = 1%positive) as -> by (assert (demo_bracketed.2 = Ok (Inst [Inst 1%positive])) as E by (vm_compute; reflexivity); congruence).
    vm_compute. reflexivity. }
  destruct (heap_of demo_bracketed.1 !! oid) as [r|] eqn:Hobj; [|discriminate]. injection Hq as Hq.
  exists oid, r. split; [exact Hr|]. split; [exact Hobj|]. split; [exact Hq|].
  destruct (bracket_orders_within_risk (fun _ => demo_registry) (constant_price (f_of_Z 2)) demo_bracket DEFAULT_CG 1%nat [1; 2; 3] [] [] []
    (tt, (∅, demo_account)) demo_bracketed.1 (Inst [Inst oid]) 2) as (oids & contracts & s0 & Heq & _ & Hin).
  - rewrite <- Hr. apply surjective_pairing.
  - reflexivity.
  - destruct oids as [|x [|]]; try discriminate. injection Heq as <-.
    destruct (Hin oid) as (c & sc & _ & Hb); [left|]. by exists c, sc.
Defined.
