(* ===== verification/Ipc.v ===== *)
(** * Preflight of Arrow IPC result tables (ipc_validation.py, bundle_limits.py)

    A result bundle holds tables written by somebody else.  Before a reader of
    unverified native code sees such a file, [inspect_ipc] follows every offset
    and count of its FlatBuffer metadata with bounds checks, and checks that
    every column's buffers hold what the column's layout makes a reader touch.
    Bytes are [list byte]; a Python string is the UTF-8 encoding of its
    characters.  The names Polars prints for its types are parameters. *)

From Stdlib Require Import Strings.Byte.
From stdpp Require Import pretty.
From S2P Require Import Prelude.

Open Scope Z_scope.

(** ** Limits (bundle_limits.py) *)

Record BundleLoadLimits := mkLimits {
  max_manifest_bytes : Z;
  max_table_bytes : Z;
  max_total_bytes : Z;
  max_table_rows : Z;
  max_total_rows : Z;
  max_columns : Z;
  max_record_batches : Z;
  max_ipc_metadata_bytes : Z;
  max_table_decoded_bytes : Z;
  max_total_decoded_bytes : Z;
}.

Definition default_limits : BundleLoadLimits :=
  mkLimits (1024 * 1024) (64 * 1024 * 1024) (256 * 1024 * 1024) 1000000 4000000 128 1024 (1024 * 1024)
    (256 * 1024 * 1024) (512 * 1024 * 1024).

Definition limit_values (l : BundleLoadLimits) : list Z :=
  [max_manifest_bytes l; max_table_bytes l; max_total_bytes l; max_table_rows l; max_total_rows l; max_columns l;
   max_record_batches l; max_ipc_metadata_bytes l; max_table_decoded_bytes l; max_total_decoded_bytes l].

Definition BundleLoadLimits_post_init (l : BundleLoadLimits) : result unit :=
  iterE (fun value => whenever value <=? 0 raise ValueError "limit must be a positive integer" ;; Ok tt) (limit_values l).

(** ** Bytes and [struct] *)

Abbreviation bytes := (list byte).

#[export] Instance byte_eq_decision : EqDecision byte := Byte.byte_eq_dec.

Definition len (data : bytes) : Z := Z.of_nat (length data).

(** [data[lo:hi]] for bounds that are not negative. *)
Definition bytes_slice (data : bytes) (lo hi : Z) : bytes := take (Z.to_nat (hi - lo)) (drop (Z.to_nat lo) data).

Definition le_value (data : bytes) : Z := foldr (fun b z => Z.of_N (Byte.to_N b) + 256 * z) 0 data.

(** The format characters the module uses, little-endian. *)
Inductive fmt := FmtB | Fmth | FmtH | Fmti | FmtI | Fmtq.

Definition calcsize (f : fmt) : Z := match f with FmtB => 1 | Fmth | FmtH => 2 | Fmti | FmtI => 4 | Fmtq => 8 end.
Definition fmt_signed (f : fmt) : bool := match f with Fmth | Fmti | Fmtq => true | _ => false end.

(** [struct.unpack("<" + f, data)[0]] *)
Definition unpack (f : fmt) (data : bytes) : result Z :=
  unless len data =? calcsize f raise StructError ;;
  let v := le_value data in
  Ok (if fmt_signed f && (2 ^ (8 * calcsize f - 1) <=? v) then v - 2 ^ (8 * calcsize f) else v).

(** [struct.unpack_from("<" + f, data, offset)[0]] for an offset that is not negative. *)
Definition unpack_from (f : fmt) (data : bytes) (offset : Z) : result Z :=
  unless calcsize f <=? len data - offset raise StructError ;;
  unpack f (bytes_slice data offset (offset + calcsize f)).

(** [struct.iter_unpack("<" + f, data)]: the whole buffer is checked first. *)
Definition iter_unpack (f : fmt) (data : bytes) : result (list Z) :=
  unless (0 <? len data) && (len data mod calcsize f =? 0) raise StructError ;;
  foldE (fun acc i => x ← unpack_from f data (Z.of_nat i * calcsize f); Ok (acc ++ [x])) []
    (seq 0 (Z.to_nat (len data / calcsize f))).

(** [bytes.decode("utf-8")]: the well-formed byte sequences of the Unicode
    standard; the decoded string is represented by its encoding. *)
Definition in_range (lo hi : Z) (b : byte) : bool :=
  let z := Z.of_N (Byte.to_N b) in (lo <=? z) && (z <=? hi).
Definition continuation : byte -> bool := in_range 128 191.

Fixpoint utf8_valid (data : bytes) : bool :=
  match data with
  | [] => true
  | b0 :: data =>
      if in_range 0 127 b0 then utf8_valid data
      else match data with
      | [] => false
      | b1 :: data =>
          if in_range 194 223 b0 then continuation b1 && utf8_valid data
          else match data with
          | [] => false
          | b2 :: data =>
              if in_range 224 239 b0 then
                in_range (if in_range 224 224 b0 then 160 else 128) (if in_range 237 237 b0 then 159 else 191) b1 &&
                continuation b2 && utf8_valid data
              else match data with
              | [] => false
              | b3 :: data =>
                  in_range 240 244 b0 &&
                  in_range (if in_range 240 240 b0 then 144 else 128) (if in_range 244 244 b0 then 143 else 191) b1 &&
                  continuation b2 && continuation b3 && utf8_valid data
              end
          end
      end
  end.

Definition decode_utf8 (data : bytes) : result string :=
  unless utf8_valid data raise UnicodeDecodeError ;; Ok (String.string_of_list_byte data).

(** ** The bounds-checked FlatBuffer accessor *)

Definition invalid (message : string) : exn := BacktestBundleError message.

Definition require (condition : bool) (message : string) : result unit := guard_ok condition (invalid message).

Definition span (data : bytes) (offset size : Z) : result bytes :=
  unless (0 <=? offset) && (offset <=? len data) && (0 <=? size) && (size <=? len data - offset)
    raise invalid "metadata bounds" ;;
  Ok (bytes_slice data offset (offset + size)).

Definition number (data : bytes) (offset : Z) (f : fmt) : result Z :=
  b ← span data offset (calcsize f); unpack f b.

Definition indirect (data : bytes) (offset : Z) : result Z :=
  n ← number data offset FmtI;
  let target := offset + n in
  unless offset <? target raise invalid "invalid metadata reference" ;;
  _ ← span data target 4;
  Ok target.

Record Table := mkTable { t_metadata : bytes; t_offset : Z; t_vtable : Z; t_vsize : Z; t_size : Z }.

Definition Table_new (metadata : bytes) (offset : Z) : result Table :=
  back ← number metadata offset Fmti;
  let vtable := offset - back in
  vsize ← number metadata vtable FmtH;
  size ← number metadata (vtable + 2) FmtH;
  unless (4 <=? vsize) && (vsize <=? 36) && (vsize mod 2 =? 0) && (4 <=? size) raise invalid "table dimensions" ;;
  _ ← span metadata vtable vsize;
  _ ← span metadata offset size;
  Ok (mkTable metadata offset vtable vsize size).

Definition root (metadata : bytes) : result Table := offset ← indirect metadata 0; Table_new metadata offset.

Definition Table_field (t : Table) (index width : Z) : result (option Z) :=
  let slot := 4 + 2 * index in
  relative ← (if slot <? t_vsize t then number (t_metadata t) (t_vtable t + slot) FmtH else Ok 0);
  if relative =? 0 then Ok None else
  unless (4 <=? relative) && (relative + width <=? t_size t) raise invalid "field bounds" ;;
  Ok (Some (t_offset t + relative)).

Definition Table_number (t : Table) (index : Z) (f : fmt) (default : Z) : result Z :=
  offset ← Table_field t index (calcsize f);
  match offset with None => Ok default | Some offset => number (t_metadata t) offset f end.

Definition Table_child (t : Table) (index : Z) : result Table :=
  offset ← Table_field t index 4;
  match offset with
  | None => Err (BacktestBundleError "invalid IPC: missing required table")
  | Some offset => target ← indirect (t_metadata t) offset; Table_new (t_metadata t) target
  end.

Definition Table_vector (t : Table) (index width maximum : Z) : result (Z * Z) :=
  offset ← Table_field t index 4;
  match offset with
  | None => Ok (0, 0)
  | Some offset =>
      start ← indirect (t_metadata t) offset;
      count ← number (t_metadata t) start FmtI;
      unless count <=? maximum raise invalid "vector count limit" ;;
      _ ← span (t_metadata t) (start + 4) (count * width);
      Ok (start + 4, count)
  end.

Definition Table_empty (t : Table) (index width : Z) : result unit := _ ← Table_vector t index width 0; Ok tt.

Definition Table_string (t : Table) (index : Z) : result string :=
  '(start, size) ← Table_vector t index 1 4096;
  if start =? 0 then Ok EmptyString else
  terminator ← number (t_metadata t) (start + size) FmtB;
  unless terminator =? 0 raise invalid "unterminated string" ;;
  data ← span (t_metadata t) start size;
  match decode_utf8 data with
  | Err UnicodeDecodeError => Err (BacktestBundleError "invalid IPC metadata UTF-8")
  | r => r
  end.

(** ** The schema *)

(** The names Polars gives its parametric types. *)
Class PolarsTypes := {
  pl_Null : string;
  pl_Decimal (precision scale : Z) : string;
  pl_Datetime (unit : string) (time_zone : option string) : string;
  pl_Duration (unit : string) : string;
}.

Record Column := mkColumn {
  col_name : string;
  col_dtype : string;
  col_kind : Z;
  col_width : Z;   (* fixed value width or variable offset width; bool uses 0 *)
}.

#[export] Instance Column_eq_dec : EqDecision Column.
Proof. solve_decision. Defined.

Section inspect.
Context `{PolarsTypes}.
Implicit Types (limits : BundleLoadLimits) (columns : list Column).

Definition int_dtype (bits signed : Z) : string := String.append (if signed =? 0 then "UInt" else "Int") (pretty bits).

Definition unit_name (unit : Z) : string := if unit =? 1 then "ms" else if unit =? 2 then "us" else "ns".

Definition offsets_kind (kind : Z) : bool := bool_decide (kind ∈ [4; 5; 19; 20]).
Definition view_kind (kind : Z) : bool := bool_decide (kind ∈ [23; 24]).

(** Width and type name of a column of each kind ([Schema.fbs] type numbers). *)
Definition column_type (params : Table) (kind : Z) : result (Z * string) :=
  if kind =? 1 then Ok (0, pl_Null)
  else if kind =? 2 then
    bits ← Table_number params 0 Fmti 0;
    signed ← Table_number params 1 FmtB 0;
    unless bool_decide (bits ∈ [8; 16; 32; 64]) && bool_decide (signed ∈ [0; 1]) raise invalid "integer parameters" ;;
    Ok (bits / 8, int_dtype bits signed)
  else if kind =? 3 then
    precision ← Table_number params 0 Fmth 0;
    unless bool_decide (precision ∈ [1; 2]) raise invalid "floating point precision" ;;
    let width := if precision =? 1 then 4 else 8 in
    Ok (width, String.append "Float" (pretty (width * 8)))
  else if offsets_kind kind || view_kind kind then
    Ok (if bool_decide (kind ∈ [4; 5]) then 4 else 8, if bool_decide (kind ∈ [5; 20; 24]) then "String" else "Binary")
  else if kind =? 6 then Ok (0, "Boolean")
  else if kind =? 7 then
    precision ← Table_number params 0 Fmti 0;
    scale ← Table_number params 1 Fmti 0;
    bits ← Table_number params 2 Fmti 128;
    unless (bits =? 128) && (1 <=? precision) && (precision <=? 38) && (0 <=? scale) && (scale <=? precision)
      raise invalid "decimal parameters" ;;
    Ok (16, pl_Decimal precision scale)
  else if kind =? 8 then
    unit ← Table_number params 0 Fmth 1;
    unless unit =? 0 raise invalid "only day-resolution dates supported" ;;
    Ok (4, "Date")
  else if kind =? 9 then
    unit ← Table_number params 0 Fmth 1;
    bits ← (if unit =? 3 then Table_number params 1 Fmti 32 else Ok 0);
    unless (unit =? 3) && (bits =? 64) raise invalid "time parameters" ;;
    Ok (8, "Time")
  else if bool_decide (kind ∈ [10; 18]) then
    unit ← Table_number params 0 Fmth (if kind =? 10 then 0 else 1);
    unless bool_decide (unit ∈ [1; 2; 3]) raise invalid "temporal unit" ;;
    dtype ← (if kind =? 10 then
               zone ← Table_string params 1;
               Ok (pl_Datetime (unit_name unit) (if bool_decide (zone = EmptyString) then None else Some zone))
             else Ok (pl_Duration (unit_name unit)));
    Ok (8, dtype)
  else Err (BacktestBundleError "unsupported IPC type (requires a flat primitive column)").

Definition column (f : Table) : result Column :=
  dictionary ← Table_field f 4 4;
  unless bool_decide (dictionary = None) raise invalid "dictionary encoding" ;;
  _ ← Table_empty f 5 4;
  _ ← Table_empty f 6 4;
  kind ← Table_number f 2 FmtB 0;
  params ← Table_child f 3;
  '(width, dtype) ← column_type params kind;
  name ← Table_string f 0;
  Ok (mkColumn name dtype kind width).

(** [for i in range(count)] *)
Definition py_range (count : Z) : list Z := Z.of_nat <$> seq 0 (Z.to_nat count).

Definition schema (t : Table) limits : result (list Column) :=
  endianness ← Table_number t 0 Fmth 0;
  unless endianness =? 0 raise invalid "big-endian schema" ;;
  _ ← Table_empty t 2 4;
  _ ← Table_empty t 3 8;
  '(start, count) ← Table_vector t 1 4 (max_columns limits);
  columns ← foldE (fun acc i =>
      target ← indirect (t_metadata t) (start + 4 * i);
      f ← Table_new (t_metadata t) target;
      c ← column f;
      Ok (acc ++ [c])) [] (py_range count);
  unless bool_decide (Z.of_nat (length (remove_dups (col_name <$> columns))) = count)
    raise invalid "duplicate column names" ;;
  Ok columns.

(** ** Messages and record batches *)

(** The message at [offset]: its root table, the size of its metadata with the
    prefix, and the size of its body, all before [boundary]. *)
Definition message (data : bytes) (offset boundary : Z) limits : result (Table * Z * Z) :=
  marker ← number data offset FmtI;
  let prefix := if marker =? 0xFFFFFFFF then 8 else 4 in
  size ← number data (offset + prefix - 4) Fmti;
  unless (0 <? size) && (size <=? max_ipc_metadata_bytes limits) && (offset + prefix + size <=? boundary)
    raise invalid "message metadata size limit" ;;
  metadata ← span data (offset + prefix) size;
  t ← root metadata;
  version ← Table_number t 0 Fmth 0;
  unless bool_decide (version ∈ [3; 4]) raise invalid "metadata version" ;;
  _ ← Table_empty t 4 4;
  body_size ← Table_number t 3 Fmtq 0;
  unless (0 <=? body_size) && (body_size <=? boundary - offset - prefix - size) raise invalid "message body bounds" ;;
  Ok (t, prefix + size, body_size).

Definition buffer_span (t : Table) (body : bytes) (buffers : Z) (acc : list bytes) (i : Z) : result (list bytes) :=
  offset ← number (t_metadata t) (buffers + i * 16) Fmtq;
  length ← number (t_metadata t) (buffers + i * 16 + 8) Fmtq;
  unless (0 <=? offset) && (offset <=? len body) && (0 <=? length) && (length <=? len body - offset)
    raise invalid "buffer bounds" ;;
  Ok (acc ++ [bytes_slice body offset (offset + length)]).

Definition span_at (spans : list bytes) (i : Z) : result bytes :=
  match spans !! Z.to_nat i with Some b => Ok b | None => Err (IndexError "list index out of range") end.

(** The loop over the offsets of a string or binary column. *)
Definition check_offsets (payload : bytes) (offsets : list Z) : result Z :=
  foldE (fun previous offset =>
    unless (previous <=? offset) && (offset <=? len payload) raise invalid "invalid string/binary offset" ;;
    Ok offset) 0 offsets.

(** One view: its size is added to the decoded bytes. *)
Definition check_view limits (spans : list bytes) (values : bytes) (cursor extra : Z) (decoded i : Z) : result Z :=
  size ← unpack_from Fmti values (i * 16);
  buffer_index ← unpack_from Fmti values (i * 16 + 8);
  offset ← unpack_from Fmti values (i * 16 + 12);
  unless 0 <=? size raise invalid "negative view size" ;;
  _ ← (if 12 <? size then
         unless (0 <=? buffer_index) && (buffer_index <? extra) raise invalid "view buffer index" ;;
         payload ← span_at spans (cursor + 2 + buffer_index);
         unless (0 <=? offset) && (offset <=? len payload) && (size <=? len payload - offset)
           raise invalid "view bounds" ;;
         Ok tt
       else Ok tt);
  let decoded := decoded + size in
  unless decoded <=? max_table_decoded_bytes limits raise invalid "decoded byte limit" ;;
  Ok decoded.

(** The buffers of one column; the state is the cursor into the buffers, the
    index of the next variadic count and the decoded bytes. *)
Definition check_column (t : Table) limits (nodes variadic rows : Z) (spans : list bytes)
  (st : Z * Z * Z) (x : nat * Column) : result (Z * Z * Z) :=
  let '(cursor, variadic_index, decoded) := st in
  let '(index, c) := x in
  length ← number (t_metadata t) (nodes + Z.of_nat index * 16) Fmtq;
  nulls ← number (t_metadata t) (nodes + Z.of_nat index * 16 + 8) Fmtq;
  unless (length =? rows) && (0 <=? nulls) && (nulls <=? rows) raise invalid "field node length/null count" ;;
  if col_kind c =? 1 then Ok (cursor, variadic_index, decoded) else
  '(extra, variadic_index) ←
    (if view_kind (col_kind c) then
       extra ← number (t_metadata t) (variadic + variadic_index * 8) Fmtq;
       unless (0 <=? extra) && (extra <=? Z.of_nat (Datatypes.length spans)) raise invalid "variadic buffer count" ;;
       Ok (extra, variadic_index + 1)
     else Ok (0, variadic_index));
  let count := if offsets_kind (col_kind c) then 3 else 2 + extra in
  unless cursor + count <=? Z.of_nat (Datatypes.length spans) raise invalid "missing column buffers" ;;
  validity ← span_at spans cursor;
  values ← span_at spans (cursor + 1);
  unless (nulls =? 0) || ((rows + 7) / 8 <=? len validity) raise invalid "short validity bitmap" ;;
  decoded ←
    (if offsets_kind (col_kind c) then
       payload ← span_at spans (cursor + 2);
       unless (rows + 1) * col_width c <=? len values raise invalid "short offsets buffer" ;;
       offsets ← iter_unpack (if col_width c =? 4 then Fmti else Fmtq) (bytes_slice values 0 ((rows + 1) * col_width c));
       _ ← check_offsets payload offsets;
       Ok decoded
     else if view_kind (col_kind c) then
       unless rows * 16 <=? len values raise invalid "short view buffer" ;;
       foldE (check_view limits spans values cursor extra) decoded (py_range rows)
     else
       let required := if col_kind c =? 6 then (rows + 7) / 8 else rows * col_width c in
       unless required <=? len values raise invalid "short primitive buffer" ;;
       Ok decoded);
  Ok (cursor + count, variadic_index, decoded).

Definition total_len (spans : list bytes) : Z := foldr (fun s n => len s + n) 0 spans.

Definition batch (t : Table) (body : bytes) columns limits : result (Z * Z) :=
  compression ← Table_field t 3 4;
  unless bool_decide (compression = None) raise invalid "compressed record batch" ;;
  rows ← Table_number t 0 Fmtq 0;
  unless (0 <=? rows) && (rows <=? max_table_rows limits) raise invalid "record batch row limit" ;;
  '(nodes, node_count) ← Table_vector t 1 16 (max_columns limits);
  unless node_count =? Z.of_nat (length columns) raise invalid "field node count" ;;
  '(buffers, buffer_count) ← Table_vector t 2 16 (max_ipc_metadata_bytes limits / 16);
  '(variadic, variadic_count) ← Table_vector t 4 8 (max_columns limits);
  unless variadic_count =? Z.of_nat (length (filter (fun c => view_kind (col_kind c) = true) columns))
    raise invalid "variadic buffer count" ;;
  spans ← foldE (buffer_span t body buffers) [] (py_range buffer_count);
  let decoded := rows * Z.of_nat (length columns) * 32 + 2 * total_len spans in
  unless decoded <=? max_table_decoded_bytes limits raise invalid "decoded byte limit" ;;
  '(cursor, _, decoded) ←
    foldE (check_column t limits nodes variadic rows spans) (0, 0, decoded) (zip (seq 0 (length columns)) columns);
  unless cursor =? Z.of_nat (length spans) raise invalid "unexpected buffers" ;;
  Ok (rows, decoded).

(** ** The file *)

Definition magic : bytes := [x41; x52; x52; x4f; x57; x31].
Definition ff4_zero4 : bytes := [xff; xff; xff; xff; x00; x00; x00; x00].
Definition zero4 : bytes := [x00; x00; x00; x00].

(** The schema message: its table, the size of its metadata, its body size. *)
Definition schema_message (data : bytes) (schema_end : Z) limits : result (Table * Z * Z) :=
  marker ← number data 8 FmtI;
  if marker =? 0xFFFFFFFF then
    '(t, schema_size, body_size) ← message data 8 schema_end limits;
    unless 8 + schema_size =? schema_end raise invalid "schema message size" ;;
    Ok (t, schema_size, body_size)
  else
    let schema_size := schema_end - 8 in
    metadata ← span data 8 schema_size;
    t ← root metadata;
    version ← Table_number t 0 Fmth 0;
    unless bool_decide (version ∈ [3; 4]) raise invalid "schema message version" ;;
    _ ← Table_empty t 4 4;
    body_size ← Table_number t 3 Fmtq 0;
    Ok (t, schema_size, body_size).

(** One indexed record batch; the state is the end of the last block and the
    metadata bytes, rows and decoded bytes so far. *)
Definition inspect_block (data footer_metadata : bytes) (blocks footer_start expected_rows : Z) columns limits
  (st : Z * Z * Z * Z) (i : Z) : result (Z * Z * Z * Z) :=
  let '(end_, metadata_bytes, rows, decoded) := st in
  offset ← number footer_metadata (blocks + i * 24) Fmtq;
  metadata_size ← number footer_metadata (blocks + i * 24 + 8) Fmti;
  body_length ← number footer_metadata (blocks + i * 24 + 16) Fmtq;
  unless offset =? end_ raise invalid "overlapping, reordered, or unindexed blocks" ;;
  '(t, actual_size, actual_body) ← message data offset footer_start limits;
  unless (metadata_size =? actual_size) && (body_length =? actual_body) raise invalid "block lengths disagree" ;;
  header ← Table_number t 1 FmtB 0;
  unless header =? 3 raise invalid "non-record batch message" ;;
  let metadata_bytes := metadata_bytes + actual_size in
  unless metadata_bytes <=? max_ipc_metadata_bytes limits raise invalid "total metadata byte limit" ;;
  batch_table ← Table_child t 2;
  body ← span data (offset + actual_size) actual_body;
  '(batch_rows, batch_decoded) ← batch batch_table body columns limits;
  let rows := rows + batch_rows in
  let decoded := decoded + batch_decoded in
  unless (rows <=? max_table_rows limits) && (rows <=? expected_rows) raise invalid "table row limit/mismatch" ;;
  unless decoded <=? max_table_decoded_bytes limits raise invalid "table decoded byte limit" ;;
  Ok (offset + actual_size + actual_body, metadata_bytes, rows, decoded).

Definition inspect_ipc (data : bytes) (expected_schema : list (string * string)) (expected_rows : Z) limits : result Z :=
  unless (18 <=? len data) && bool_decide (bytes_slice data 0 6 = magic) &&
         bool_decide (bytes_slice data (len data - 6) (len data) = magic) raise invalid "file magic" ;;
  footer_size ← number data (len data - 10) Fmti;
  unless (0 <? footer_size) && (footer_size <=? max_ipc_metadata_bytes limits) && (footer_size <=? len data - 18)
    raise invalid "footer metadata size limit" ;;
  let footer_start := len data - 10 - footer_size in
  footer_metadata ← span data footer_start footer_size;
  footer ← root footer_metadata;
  version ← Table_number footer 0 Fmth 0;
  unless bool_decide (version ∈ [3; 4]) raise invalid "footer version" ;;
  _ ← Table_empty footer 2 24;
  _ ← Table_empty footer 4 4;
  footer_schema ← Table_child footer 1;
  columns ← schema footer_schema limits;
  unless bool_decide (((fun c => (col_name c, col_dtype c)) <$> columns) = expected_schema) raise invalid "schema mismatch" ;;
  '(blocks, count) ← Table_vector footer 3 24 (max_record_batches limits);
  schema_end ← (if count =? 0 then Ok footer_start else number footer_metadata blocks Fmtq);
  let schema_end := if (count =? 0) && bool_decide (bytes_slice data (schema_end - 8) schema_end = ff4_zero4)
                    then schema_end - 8 else schema_end in
  unless (8 <? schema_end) && (schema_end <=? footer_start) && (schema_end - 8 <=? max_ipc_metadata_bytes limits)
    raise invalid "schema metadata size limit" ;;
  '(t, schema_size, body_size) ← schema_message data schema_end limits;
  header ← Table_number t 1 FmtB 0;
  unless (header =? 1) && (body_size =? 0) raise invalid "missing schema message" ;;
  message_schema ← Table_child t 2;
  columns' ← schema message_schema limits;
  unless bool_decide (columns' = columns) raise invalid "inconsistent file schemas" ;;
  '(end_, metadata_bytes, rows, decoded) ←
    foldE (inspect_block data footer_metadata blocks footer_start expected_rows columns limits)
      (8 + schema_size, footer_size + schema_size, 0, 0) (py_range count);
  gap ← span data end_ (footer_start - end_);
  unless bool_decide (gap ∈ [[]; zero4; ff4_zero4]) raise invalid "unexpected data before footer" ;;
  unless metadata_bytes <=? max_ipc_metadata_bytes limits raise invalid "total metadata byte limit" ;;
  unless rows =? expected_rows raise invalid "row count mismatch" ;;
  Ok decoded.
End inspect.
