(* ===== verification/IpcFacts.v ===== *)
(** * The IPC preflight fails shut

    A small program logic for the checks of [Ipc]: [checks r P] says that [r]
    raises nothing but [BacktestBundleError] and that its value satisfies [P].
    Every accessor is given its rule, and the rules compose along the code. *)

From Stdlib Require Import Strings.Byte.
From stdpp Require Import pretty.
From S2P Require Import Prelude Ipc.

Open Scope Z_scope.

(** ** The layout of an accepted file *)

(** The value at position [i] of a packed array. *)
Definition packed (f : fmt) (data : bytes) (position : Z) (v : Z) : Prop :=
  0 <= position /\ position + calcsize f <= len data /\ unpack f (bytes_slice data position (position + calcsize f)) = Ok v.

(** Every offset a reader of a string column follows stays in the payload. *)
Definition offsets_safe (rows width : Z) (values payload : bytes) : Prop :=
  exists f offsets, calcsize f = width /\ Z.of_nat (length offsets) = rows + 1 /\
    (forall i o, offsets !! i = Some o -> packed f values (Z.of_nat i * width) o /\ 0 <= o <= len payload) /\
    (forall i o o', offsets !! i = Some o -> offsets !! S i = Some o' -> o <= o').

(** Every view is inline or stays in one of the buffers it may name. *)
Definition views_safe (rows : Z) (values : bytes) (payloads : list bytes) : Prop :=
  forall i, 0 <= i < rows -> exists size, packed Fmti values (i * 16) size /\ 0 <= size /\
    (12 < size -> exists buffer_index offset payload,
       packed Fmti values (i * 16 + 8) buffer_index /\ packed Fmti values (i * 16 + 12) offset /\
       0 <= buffer_index /\ payloads !! Z.to_nat buffer_index = Some payload /\
       0 <= offset /\ offset + size <= len payload).

(** The buffers of a column of [rows] values of which [nulls] are null. *)
Definition column_layout (rows nulls : Z) (c : Column) (buffers : list bytes) : Prop :=
  if col_kind c =? 1 then buffers = [] else
  exists validity values rest, buffers = validity :: values :: rest /\
    (nulls <> 0 -> (rows + 7) / 8 <= len validity) /\
    if offsets_kind (col_kind c) then exists payload, rest = [payload] /\ offsets_safe rows (col_width c) values payload
    else if view_kind (col_kind c) then views_safe rows values rest
    else rest = [] /\ (if col_kind c =? 6 then (rows + 7) / 8 else rows * col_width c) <= len values.

(** Buffer [k] of a batch: the range of the body that entry [k] of the buffer
    vector names, which lies in the body. *)
Definition buffer_at (t : Table) (body : bytes) (entries : Z) (k : nat) (b : bytes) : Prop :=
  exists offset length, packed Fmtq (t_metadata t) (entries + Z.of_nat k * 16) offset /\
    packed Fmtq (t_metadata t) (entries + Z.of_nat k * 16 + 8) length /\
    0 <= offset /\ 0 <= length /\ offset + length <= len body /\ b = bytes_slice body offset (offset + length).

(** A view column has as many buffers as its entry of the variadic counts says. *)
Definition variadic_layout (t : Table) (variadic views : Z) (c : Column) (buffers : list bytes) : Prop :=
  view_kind (col_kind c) = true -> exists extra, packed Fmtq (t_metadata t) (variadic + views * 8) extra /\
    Z.of_nat (length buffers) = 2 + extra.

Definition view_count (columns : list Column) : Z := Z.of_nat (length (filter (fun c => view_kind (col_kind c) = true) columns)).

(** The rows, field nodes and buffers of a batch are those its table names; the
    buffers belong to the columns in order, and cost what is counted. *)
Definition batch_layout (limits : BundleLoadLimits) (t : Table) (body : bytes) (columns : list Column) (rows decoded : Z)
  : Prop :=
  exists nodes entries count variadic views buffers,
    Table_number t 0 Fmtq 0 = Ok rows /\
    Table_vector t 1 16 (max_columns limits) = Ok (nodes, Z.of_nat (length columns)) /\
    Table_vector t 2 16 (max_ipc_metadata_bytes limits / 16) = Ok (entries, count) /\
    Table_vector t 4 8 (max_columns limits) = Ok (variadic, views) /\
    length (concat buffers) = Z.to_nat count /\
    (forall k b, concat buffers !! k = Some b -> buffer_at t body entries k b) /\ length buffers = length columns /\
    rows * Z.of_nat (length columns) * 32 + 2 * total_len (concat buffers) <= decoded /\
    forall i c, columns !! i = Some c -> exists nulls bs, buffers !! i = Some bs /\
      packed Fmtq (t_metadata t) (nodes + Z.of_nat i * 16) rows /\
      packed Fmtq (t_metadata t) (nodes + Z.of_nat i * 16 + 8) nulls /\ 0 <= nulls <= rows /\
      column_layout rows nulls c bs /\ variadic_layout t variadic (view_count (take i columns)) c bs.

(** The record batches of a file follow each other without gap or overlap, where
    and as long as the blocks of the footer say: block [i] is entry [i] of the
    vector at [entries] in the footer's metadata [meta], and its table is the
    record batch of the message found there. *)
Record Block := mkBlock { b_size : Z; b_table : Table; b_body : bytes; b_rows : Z; b_decoded : Z }.

Definition next_block (start : Z) (b : Block) : Z := start + b_size b + len (b_body b).

Definition block_layout (limits : BundleLoadLimits) (data meta : bytes) (entries footer_start : Z) (columns : list Column)
    (i : nat) (start : Z) (b : Block) : Prop :=
  0 < b_size b /\ next_block start b <= footer_start /\
  b_body b = bytes_slice data (start + b_size b) (next_block start b) /\
  packed Fmtq meta (entries + Z.of_nat i * 24) start /\
  packed Fmti meta (entries + Z.of_nat i * 24 + 8) (b_size b) /\
  packed Fmtq meta (entries + Z.of_nat i * 24 + 16) (len (b_body b)) /\
  (exists t, message data start footer_start limits = Ok (t, b_size b, len (b_body b)) /\
     Table_number t 1 FmtB 0 = Ok 3 /\ Table_child t 2 = Ok (b_table b)) /\
  batch_layout limits (b_table b) (b_body b) columns (b_rows b) (b_decoded b).

Fixpoint blocks_layout (limits : BundleLoadLimits) (data meta : bytes) (entries footer_start : Z) (columns : list Column)
  (i : nat) (start : Z) (blocks : list Block) (stop : Z) : Prop :=
  match blocks with
  | [] => start = stop
  | b :: blocks => block_layout limits data meta entries footer_start columns i start b /\
      blocks_layout limits data meta entries footer_start columns (S i) (next_block start b) blocks stop
  end.

(** ** [checks]: only [BacktestBundleError] is raised *)

Definition checks {A} (r : result A) (P : A -> Prop) : Prop :=
  match r with Ok a => P a | Err e => exists m, e = BacktestBundleError m end.

Lemma checks_mono {A} (r : result A) (P Q : A -> Prop) : checks r P -> (forall a, P a -> Q a) -> checks r Q.
Proof. destruct r; simpl; auto. Qed.

Lemma checks_bind {A B} (r : result A) (f : A -> result B) (P : A -> Prop) (Q : B -> Prop) :
  checks r P -> (forall a, P a -> checks (f a) Q) -> checks (r ≫= f) Q.
Proof. destruct r; simpl; auto. Qed.

Lemma checks_guard {B} b m (k : unit -> result B) (Q : B -> Prop) :
  (b = true -> checks (k tt) Q) -> checks (guard_ok b (invalid m) ≫= k) Q.
Proof. destruct b; simpl; [auto|]. intros _. by exists m. Qed.

Lemma checks_if {A} (b : bool) (x y : result A) (Q : A -> Prop) :
  (b = true -> checks x Q) -> (b = false -> checks y Q) -> checks (if b then x else y) Q.
Proof. destruct b; auto. Qed.

(** An invariant indexed by the elements already visited. *)
Lemma checks_fold {A B} (body : B -> A -> result B) (P : list A -> B -> Prop) l acc :
  P [] acc ->
  (forall done x todo b, l = done ++ x :: todo -> P done b -> checks (body b x) (P (done ++ [x]))) ->
  checks (foldE body acc l) (P l).
Proof.
  intros H0 Hstep.
  enough (forall todo done b, l = done ++ todo -> P done b -> checks (foldE body b todo) (P l)) as Hall by by apply (Hall l []).
  induction todo as [|x todo IH]; intros done b Hl Hb; cbn [foldE].
  - simpl. by rewrite Hl, app_nil_r.
  - eapply checks_bind; [by eapply Hstep|]. intros b' Hb'. eapply (IH (done ++ [x])); [|done].
    by rewrite <- app_assoc.
Qed.

Lemma checks_self {A} (r : result A) (P : A -> Prop) : checks r P -> checks r (fun a => r = Ok a).
Proof. destruct r; simpl; auto. Qed.

Lemma checks_with {A} (r : result A) (P : A -> Prop) : checks r P -> checks r (fun a => r = Ok a /\ P a).
Proof. destruct r; simpl; auto. Qed.

Ltac checks_step :=
  lazymatch goal with
  | |- checks (guard_ok _ (invalid _) ≫= _) _ => apply checks_guard; intros ?
  | |- checks (_ ≫= _) _ => eapply checks_bind; [solve [eauto with ipc nocore]|intros ? ?]
  | |- checks (match ?x with (_, _) => _ end) _ => destruct x; simpl in *
  | |- checks (if _ then _ else _) _ => apply checks_if; intros ?
  | |- checks (Ok _) _ => simpl
  | |- checks (Err (BacktestBundleError _)) _ => by eexists
  end.

Create HintDb ipc discriminated.
#[export] Hint Constants Opaque : ipc.

(** ** Bytes *)

Lemma len_slice data lo hi : 0 <= lo -> lo <= hi -> hi <= len data -> len (bytes_slice data lo hi) = hi - lo.
Proof. unfold len, bytes_slice. intros. rewrite length_take, length_drop. lia. Qed.

Lemma len_nonneg data : 0 <= len data.
Proof. unfold len. lia. Qed.

Lemma unpack_Ok f data : len data = calcsize f -> exists v, unpack f data = Ok v.
Proof. intros Hl. unfold unpack. rewrite Hl, Z.eqb_refl. simpl. eauto. Qed.

Lemma checks_unpack_from f data position :
  0 <= position -> position + calcsize f <= len data -> checks (unpack_from f data position) (packed f data position).
Proof.
  intros H1 H2. unfold unpack_from. rewrite (proj2 (Z.leb_le _ _)) by lia. simpl.
  destruct (unpack_Ok f (bytes_slice data position (position + calcsize f))) as [v Hv].
  { rewrite len_slice; [lia|lia|destruct f; simpl; lia|lia]. }
  rewrite Hv. simpl. unfold packed. auto.
Qed.

(** ** The accessor *)

Lemma checks_span data offset size :
  checks (span data offset size) (fun b => 0 <= offset /\ 0 <= size /\ offset + size <= len data /\
    b = bytes_slice data offset (offset + size) /\ len b = size).
Proof.
  unfold span. apply checks_guard. rewrite !andb_true_iff, !Z.leb_le. intros [[[? ?] ?] ?]. simpl.
  rewrite len_slice by lia. split_and!; try done; lia.
Qed.

Lemma checks_number data offset f : checks (number data offset f) (fun v => packed f data offset v).
Proof.
  unfold number. eapply checks_bind; [apply checks_span|]. intros b (? & ? & ? & -> & Hl).
  destruct (unpack_Ok f _ Hl) as [v Hv]. rewrite Hv. simpl. by unfold packed.
Qed.

Definition anything {A} (_ : A) : Prop := True.

Lemma checks_Ok_anything {A} (a : A) : checks (Ok a) anything.
Proof. done. Qed.
Lemma checks_if_anything {A} (b : bool) (x y : result A) :
  checks x anything -> checks y anything -> checks (if b then x else y) anything.
Proof. by destruct b. Qed.
Lemma checks_bind_anything {A B} (r : result A) (f : A -> result B) :
  checks r anything -> (forall a, checks (f a) anything) -> checks (r ≫= f) anything.
Proof. intros Hr Hf. eapply checks_bind; [exact Hr|auto]. Qed.
#[export] Hint Resolve checks_Ok_anything checks_if_anything checks_bind_anything : ipc.

Lemma checks_anything {A} (r : result A) P : checks r P -> checks r anything.
Proof. intros H. by eapply checks_mono. Qed.

Lemma checks_span' data offset size : checks (span data offset size) anything.
Proof. eapply checks_anything, checks_span. Qed.
Lemma checks_number' data offset f : checks (number data offset f) anything.
Proof. eapply checks_anything, checks_number. Qed.
#[export] Hint Resolve checks_span' checks_number' : ipc.

Lemma checks_indirect data offset : checks (indirect data offset) anything.
Proof. unfold indirect. repeat checks_step. done. Qed.
#[export] Hint Resolve checks_indirect : ipc.

Lemma checks_Table_new data offset : checks (Table_new data offset) (fun t => t_metadata t = data).
Proof. unfold Table_new. repeat checks_step. done. Qed.
Lemma checks_Table_new' data offset : checks (Table_new data offset) anything.
Proof. eapply checks_anything, checks_Table_new. Qed.
#[export] Hint Resolve checks_Table_new' : ipc.

Lemma checks_root data : checks (root data) (fun t => t_metadata t = data).
Proof. unfold root. eapply checks_bind; [apply checks_indirect|intros ? _; apply checks_Table_new]. Qed.

Lemma checks_root' data : checks (root data) anything.
Proof. eapply checks_anything, checks_root. Qed.
#[export] Hint Resolve checks_root' : ipc.

Lemma checks_field t index width : checks (Table_field t index width) anything.
Proof.
  unfold Table_field. by repeat checks_step.
Qed.
#[export] Hint Resolve checks_field : ipc.

Lemma checks_Table_number t index f default : checks (Table_number t index f default) anything.
Proof. unfold Table_number. checks_step. destruct a; [apply checks_number'|done]. Qed.
#[export] Hint Resolve checks_Table_number : ipc.

Lemma checks_child t index : checks (Table_child t index) (fun c => t_metadata c = t_metadata t).
Proof.
  unfold Table_child. checks_step. destruct a; [|by eexists]. checks_step. apply checks_Table_new.
Qed.
Lemma checks_child' t index : checks (Table_child t index) anything.
Proof. eapply checks_anything, checks_child. Qed.
#[export] Hint Resolve checks_child' : ipc.

Lemma checks_vector t index width maximum :
  checks (Table_vector t index width maximum) anything.
Proof. unfold Table_vector. checks_step. destruct a; [|done]. repeat checks_step. done. Qed.
#[export] Hint Resolve checks_vector : ipc.

Lemma checks_empty t index width : checks (Table_empty t index width) anything.
Proof. unfold Table_empty. by checks_step. Qed.
#[export] Hint Resolve checks_empty : ipc.

Lemma checks_string t index : checks (Table_string t index) anything.
Proof.
  unfold Table_string. do 2 checks_step. checks_step; [done|]. repeat checks_step.
  unfold decode_utf8. destruct (utf8_valid _); simpl; [done|by eexists].
Qed.
#[export] Hint Resolve checks_string : ipc.

(** ** The schema *)

(** What the batch checks rely on: offsets are 4 or 8 bytes wide. *)
Definition column_ok (c : Column) : Prop := offsets_kind (col_kind c) = true -> col_width c = 4 \/ col_width c = 8.

Section inspect.
Context `{PolarsTypes}.

Lemma checks_column_type params kind :
  checks (column_type params kind) (fun x => offsets_kind kind = true -> x.1 = 4 \/ x.1 = 8).
Proof.
  unfold column_type.
  destruct (offsets_kind kind) eqn:Hk.
  - unfold offsets_kind in Hk. apply bool_decide_eq_true_1 in Hk.
    assert (kind = 4 \/ kind = 5 \/ kind = 19 \/ kind = 20) as [-> | [-> | [-> | ->]]] by set_solver; simpl; auto.
  - repeat (apply checks_if; intros ?); by repeat checks_step.
Qed.

Lemma checks_column f : checks (column f) column_ok.
Proof.
  unfold column. repeat checks_step. eapply checks_bind; [apply checks_column_type|]. intros [width dtype] Hw.
  repeat checks_step. exact Hw.
Qed.

Lemma checks_schema t limits : checks (schema t limits) (Forall column_ok).
Proof.
  unfold schema. repeat checks_step. eapply checks_bind.
  - apply (checks_fold _ (fun _ => Forall column_ok)); [constructor|]. intros ? i ? cs _ Hcs. do 2 checks_step.
    eapply checks_bind; [apply checks_column|]. intros c Hc. simpl. by apply Forall_app_2; [|constructor].
  - intros cs Hcs. by repeat checks_step.
Qed.

(** ** Buffers *)

Lemma slice_slice data a b n : 0 <= a -> a <= b -> b <= n -> n <= len data ->
  bytes_slice (bytes_slice data 0 n) a b = bytes_slice data a b.
Proof.
  intros. unfold bytes_slice, len in *. rewrite Z.sub_0_r, skipn_0.
  rewrite !take_drop_commute, take_take. do 2 f_equal. lia.
Qed.

Lemma packed_slice f data n position v :
  0 <= n -> n <= len data -> packed f (bytes_slice data 0 n) position v -> packed f data position v.
Proof.
  intros ? ? (? & Hl & Hv). rewrite len_slice in Hl by lia.
  rewrite slice_slice in Hv by (destruct f; simpl in *; lia). unfold packed. split_and!; [lia..|done].
Qed.

Lemma py_range_split n done i todo : py_range n = done ++ i :: todo -> i = Z.of_nat (length done) /\ i < n.
Proof.
  unfold py_range. intros Heq.
  assert ((Z.of_nat <$> seq 0 (Z.to_nat n)) !! length done = Some i) as Hi.
  { rewrite Heq. by rewrite lookup_app_r, Nat.sub_diag by lia. }
  rewrite list_lookup_fmap in Hi. destruct (seq 0 (Z.to_nat n) !! length done) as [k|] eqn:Hk; [|done].
  apply lookup_seq in Hk as [-> ?]. simpl in Hi. simplify_eq. lia.
Qed.

Lemma elem_of_py_range n i : i ∈ py_range n <-> 0 <= i < n.
Proof.
  unfold py_range. rewrite list_elem_of_fmap. setoid_rewrite elem_of_seq. split.
  - intros (k & -> & ?). lia.
  - intros ?. exists (Z.to_nat i). lia.
Qed.

Lemma calcsize_pos f : 0 < calcsize f.
Proof. by destruct f. Qed.

Lemma checks_iter_unpack f data n : 0 < n -> len data = n * calcsize f ->
  checks (iter_unpack f data) (fun l => Z.of_nat (length l) = n /\
    forall i o, l !! i = Some o -> packed f data (Z.of_nat i * calcsize f) o).
Proof.
  intros Hn Hl. pose proof (calcsize_pos f) as Hf. unfold iter_unpack.
  rewrite Hl, Z.mod_mul by lia. rewrite (proj2 (Z.ltb_lt _ _)) by nia. simpl. rewrite Z.div_mul by lia.
  eapply checks_mono.
  - apply (checks_fold _ (fun visited l => length l = length visited /\
      forall i o, l !! i = Some o -> packed f data (Z.of_nat i * calcsize f) o)); [done|].
    intros visited i todo l Heq [Hlen Hl'].
    assert (seq 0 (Z.to_nat n) !! length visited = Some i) as [-> ?]%lookup_seq.
    { rewrite Heq. by rewrite lookup_app_r, Nat.sub_diag by lia. }
    eapply checks_bind; [apply checks_unpack_from; nia|]. intros v Hv. simpl.
    rewrite !length_app. simpl. split; [lia|]. intros j o [Hj|[? Hj]]%lookup_app_Some; [by apply Hl'|].
    apply list_lookup_singleton_Some in Hj as [? ->]. by replace j with (0 + length visited)%nat by lia.
  - simpl. intros l [Hlen ?]. rewrite length_seq in Hlen. split; [lia|done].
Qed.

Lemma checks_offsets payload offsets :
  checks (check_offsets payload offsets) (fun _ =>
    (forall i o, offsets !! i = Some o -> 0 <= o <= len payload) /\
    (forall i o o', offsets !! i = Some o -> offsets !! S i = Some o' -> o <= o')).
Proof.
  unfold check_offsets. eapply checks_mono.
  - apply (checks_fold _ (fun visited previous => 0 <= previous /\
      (forall o, last visited = Some o -> o = previous) /\
      (forall i o, visited !! i = Some o -> 0 <= o <= len payload) /\
      (forall i o o', visited !! i = Some o -> visited !! S i = Some o' -> o <= o'))); [done|].
    intros visited x todo previous _ (H0 & H1 & H2 & H3). checks_step. rewrite andb_true_iff, !Z.leb_le in *. simpl.
    rewrite last_snoc. split_and!; [lia|naive_solver| |].
    + intros i o [?|[_ Hj]]%lookup_app_Some; [by eapply H2|]. apply list_lookup_singleton_Some in Hj as [_ ->]. lia.
    + intros i o o' Ho [Ho'|[Hge Hx]]%lookup_app_Some.
      * rewrite lookup_app_l in Ho; [by eapply H3|]. apply lookup_lt_Some in Ho'. lia.
      * apply list_lookup_singleton_Some in Hx as [? ->]. rewrite lookup_app_l in Ho by lia.
        rewrite (H1 o); [lia|]. rewrite last_lookup. by replace (pred (length visited)) with i by lia.
  - naive_solver.
Qed.

(** [spans[a:a + n]] *)
Definition window (spans : list bytes) (a n : Z) : list bytes := take (Z.to_nat n) (drop (Z.to_nat a) spans).

Lemma window_lookup spans a n i : 0 <= a -> 0 <= i < n -> window spans a n !! Z.to_nat i = spans !! Z.to_nat (a + i).
Proof.
  intros. unfold window. rewrite lookup_take_lt by lia. rewrite lookup_drop. f_equal. lia.
Qed.

Lemma window_cons spans a n x : 0 <= a -> 0 < n -> spans !! Z.to_nat a = Some x ->
  window spans a n = x :: window spans (a + 1) (n - 1).
Proof.
  intros ? ? Hx. unfold window. rewrite (drop_S _ _ _ Hx). replace (Z.to_nat n) with (S (Z.to_nat (n - 1))) by lia.
  simpl. by replace (Z.to_nat (a + 1)) with (S (Z.to_nat a)) by lia.
Qed.

Lemma checks_span_at spans i : 0 <= i < Z.of_nat (length spans) ->
  checks (span_at spans i) (fun b => spans !! Z.to_nat i = Some b).
Proof.
  intros ?. unfold span_at. destruct (lookup_lt_is_Some_2 spans (Z.to_nat i)) as [b Hb]; [lia|]. by rewrite Hb.
Qed.

Section columns.
Context (limits : BundleLoadLimits) (spans : list bytes) (rows : Z).

Lemma checks_views values cursor extra decoded :
  0 <= cursor -> cursor + 2 + extra <= Z.of_nat (length spans) -> rows * 16 <= len values ->
  decoded <= max_table_decoded_bytes limits ->
  checks (foldE (check_view limits spans values cursor extra) decoded (py_range rows)) (fun decoded' =>
    decoded <= decoded' <= max_table_decoded_bytes limits /\ views_safe rows values (window spans (cursor + 2) extra)).
Proof.
  intros Hc He Hv Hd. eapply checks_mono.
  - apply (checks_fold _ (fun visited d => decoded <= d <= max_table_decoded_bytes limits /\
      forall i, i ∈ visited -> exists size, packed Fmti values (i * 16) size /\ 0 <= size /\
        (12 < size -> exists buffer_index offset payload,
           packed Fmti values (i * 16 + 8) buffer_index /\ packed Fmti values (i * 16 + 12) offset /\
           0 <= buffer_index /\ window spans (cursor + 2) extra !! Z.to_nat buffer_index = Some payload /\
           0 <= offset /\ offset + size <= len payload))); [split; [lia|set_solver]|].
    intros visited i todo d [-> Hi]%py_range_split [Hd' IH]. unfold check_view.
    eapply checks_bind; [apply checks_unpack_from; simpl; lia|intros size Hsize].
    eapply checks_bind; [apply checks_unpack_from; simpl; lia|intros bi Hbi].
    eapply checks_bind; [apply checks_unpack_from; simpl; lia|intros offset Hoffset].
    checks_step. rewrite Z.leb_le in *.
    eapply (checks_bind _ _ (fun _ => 12 < size -> exists payload, 0 <= bi /\
      window spans (cursor + 2) extra !! Z.to_nat bi = Some payload /\ 0 <= offset /\ offset + size <= len payload)).
    + apply checks_if; intros Hs; [|apply Z.ltb_ge in Hs; simpl; intros; lia]. checks_step.
      rewrite andb_true_iff, Z.leb_le, Z.ltb_lt in *.
      eapply checks_bind; [apply checks_span_at; lia|intros payload Hp]. checks_step.
      rewrite !andb_true_iff, !Z.leb_le in *. intros _. exists payload. rewrite window_lookup by lia.
      split_and!; [lia|done|lia..].
    + intros _ Hpl. checks_step. rewrite Z.leb_le in *. split; [lia|].
      intros j [Hj| ->%list_elem_of_singleton]%elem_of_app; [by apply IH|].
      exists size. split_and!; [done|lia|]. intros Hs. destruct (Hpl Hs) as (payload & ? & ? & ? & ?).
      exists bi, offset, payload. by split_and!.
  - intros d [? Hall]. split; [done|]. intros i Hi. apply Hall. by apply elem_of_py_range.
Qed.

Lemma kinds_disjoint kind : offsets_kind kind = true -> view_kind kind = false.
Proof.
  unfold offsets_kind, view_kind. intros Hk%bool_decide_eq_true_1. apply bool_decide_eq_false_2. set_solver by lia.
Qed.

Lemma checks_offsets_column values payload width (decoded : Z) : 0 <= rows -> width = 4 \/ width = 8 -> (rows + 1) * width <= len values ->
  checks (offsets ← iter_unpack (if width =? 4 then Fmti else Fmtq) (bytes_slice values 0 ((rows + 1) * width));
          _ ← check_offsets payload offsets; Ok decoded) (fun d => d = decoded /\ offsets_safe rows width values payload).
Proof.
  intros Hr Hw Hv. set (f := if width =? 4 then Fmti else Fmtq).
  assert (calcsize f = width) as Hf by (subst f; destruct Hw as [-> | ->]; done).
  eapply checks_bind; [apply (checks_iter_unpack _ _ (rows + 1)); [lia|rewrite len_slice by lia; lia]|].
  intros offsets [Hlen Ho]. eapply checks_bind; [apply checks_offsets|]. simpl. intros _ [H1 H2].
  split; [done|]. exists f, offsets. split_and!; [done..| |done]. intros i o Hio. split; [|by eapply H1].
  rewrite <- Hf. eapply packed_slice; [| |by apply Ho]; lia.
Qed.

Lemma checks_column_buffers (t : Table) nodes variadic cursor variadic_index decoded index c :
  0 <= rows -> 0 <= cursor -> decoded <= max_table_decoded_bytes limits -> column_ok c ->
  checks (check_column t limits nodes variadic rows spans (cursor, variadic_index, decoded) (index, c))
    (fun '(cursor', variadic_index', decoded') => cursor <= cursor' /\ decoded <= decoded' <= max_table_decoded_bytes limits /\
      (cursor <= Z.of_nat (length spans) -> cursor' <= Z.of_nat (length spans)) /\
      variadic_index' = variadic_index + view_count [c] /\
      exists nulls, packed Fmtq (t_metadata t) (nodes + Z.of_nat index * 16) rows /\
        packed Fmtq (t_metadata t) (nodes + Z.of_nat index * 16 + 8) nulls /\ 0 <= nulls <= rows /\
        column_layout rows nulls c (window spans cursor (cursor' - cursor)) /\
        variadic_layout t variadic variadic_index c (window spans cursor (cursor' - cursor))).
Proof.
  intros Hr Hc Hd Hok. unfold check_column. eapply checks_bind; [apply checks_number|intros rows' Hrows'].
  eapply checks_bind; [apply checks_number|intros nulls Hnulls]. checks_step.
  rewrite !andb_true_iff, Z.eqb_eq, !Z.leb_le in *.
  checks_step.
  { checks_step. assert (col_kind c = 1) as Hk by lia. assert (view_kind (col_kind c) = false) as Hv by by rewrite Hk.
    split_and!; try lia; [unfold view_count; rewrite filter_cons, Hv; simpl; lia|]. exists nulls.
    assert (rows' = rows) as <- by lia. split_and!; [done..|lia|lia| |by intros ?; congruence]. unfold column_layout, window.
    replace (col_kind c =? 1) with true. by rewrite Z.sub_diag. }
  eapply (checks_bind _ _ (fun x => x.2 = variadic_index + view_count [c] /\
    ((view_kind (col_kind c) = true /\ 0 <= x.1 /\ packed Fmtq (t_metadata t) (variadic + variadic_index * 8) x.1) \/
     (view_kind (col_kind c) = false /\ x.1 = 0)))).
  { unfold view_count. rewrite filter_cons. apply checks_if; intros Hk; rewrite Hk; [|split; [simpl; lia|by right]].
    eapply checks_bind; [apply checks_number|intros extra Hextra]. repeat checks_step.
    rewrite andb_true_iff, !Z.leb_le in *. split; [simpl; lia|]. left. simpl. tauto. }
  intros [extra vi] [Hvi Hextra]. simpl in Hextra, Hvi.
  set (count := if offsets_kind (col_kind c) then 3 else 2 + extra).
  assert (0 <= extra) by naive_solver lia. assert (2 <= count) by (subst count; destruct (offsets_kind _); lia).
  checks_step. rewrite Z.leb_le in *.
  eapply checks_bind; [apply checks_span_at; lia|intros validity Hvalidity].
  eapply checks_bind; [apply checks_span_at; lia|intros values Hvalues].
  checks_step.
  eapply (checks_bind _ _ (fun decoded' => decoded <= decoded' <= max_table_decoded_bytes limits /\
    column_layout rows nulls c (window spans cursor count))).
  2: { intros d' [? Hl]. checks_step. replace (cursor + count - cursor) with count by lia. split_and!; [lia..|done|].
       assert (rows' = rows) as <- by lia. exists nulls. split_and!; [done..|lia|lia|done|]. intros Hv.
       destruct Hextra as [(_ & _ & Hx)|[? _]]; [|congruence]. exists extra. split; [done|].
       subst count. destruct (offsets_kind (col_kind c)) eqn:Hk; [by rewrite kinds_disjoint in Hv|].
       unfold window. rewrite length_take, length_drop. lia. }
  unfold column_layout. replace (col_kind c =? 1) with false.
  rewrite (window_cons spans cursor count validity), (window_cons _ _ _ values) by (done || lia).
  replace (cursor + 1 + 1) with (cursor + 2) by lia. replace (count - 1 - 1) with (count - 2) by lia.
  assert (nulls <> 0 -> (rows + 7) / 8 <= len validity) by (rewrite orb_true_iff, Z.eqb_eq, Z.leb_le in *; lia).
  apply checks_if; intros Hk.
  - destruct Hextra as [[Hv _]|[_ Hextra]]; [by rewrite kinds_disjoint in Hv|].
    assert (count = 3) as -> by (subst count; by rewrite Hk).
    eapply checks_bind; [apply checks_span_at; lia|intros payload Hpayload]. checks_step. rewrite Z.leb_le in *.
    eapply checks_mono; [apply checks_offsets_column; auto|]. intros d [-> Hsafe]. split; [lia|].
    rewrite (window_cons _ _ _ payload), Hk by (done || lia). eexists _, _, _. split_and!; [done..|]. by exists payload.
  - assert (count = 2 + extra) as -> by (subst count; by rewrite Hk).
    apply checks_if; intros Hv; checks_step; rewrite Z.leb_le in *.
    + eapply checks_mono; [apply checks_views; lia|]. intros d [? Hsafe]. split; [done|]. rewrite Hk, Hv.
      eexists _, _, _. split_and!; [done..|]. by replace (2 + extra - 2) with extra by lia.
    + destruct Hextra as [[? _]|[_ ->]]; [congruence|]. checks_step. split; [lia|]. rewrite Hk, Hv.
      by eexists _, _, _; split_and!.
Qed.

Lemma window_app a n m : 0 <= a -> 0 <= n -> 0 <= m -> window spans a (n + m) = window spans a n ++ window spans (a + n) m.
Proof.
  intros. unfold window. rewrite !Z2Nat.inj_add by lia. rewrite <- drop_drop.
  generalize (drop (Z.to_nat a) spans). intros l. rewrite <- (take_drop (Z.to_nat n) l) at 1.
  destruct (decide (Z.to_nat n <= length l)%nat).
  - rewrite take_app_add' by (rewrite length_take; lia). done.
  - rewrite (drop_ge l) by lia. rewrite app_nil_r, take_nil, app_nil_r. rewrite take_take. f_equal. lia.
Qed.

Lemma checks_columns (t : Table) nodes variadic cols : 0 <= rows -> Forall column_ok cols ->
  forall k cursor variadic_index decoded, 0 <= cursor -> decoded <= max_table_decoded_bytes limits ->
  checks (foldE (check_column t limits nodes variadic rows spans) (cursor, variadic_index, decoded)
            (zip (seq k (length cols)) cols))
    (fun '(cursor', _, decoded') => cursor <= cursor' /\ decoded <= decoded' <= max_table_decoded_bytes limits /\
      exists buffers, window spans cursor (cursor' - cursor) = concat buffers /\ length buffers = length cols /\
        forall i c, cols !! i = Some c -> exists nulls bs, buffers !! i = Some bs /\
          packed Fmtq (t_metadata t) (nodes + Z.of_nat (k + i) * 16) rows /\
          packed Fmtq (t_metadata t) (nodes + Z.of_nat (k + i) * 16 + 8) nulls /\ 0 <= nulls <= rows /\
          column_layout rows nulls c bs /\ variadic_layout t variadic (variadic_index + view_count (take i cols)) c bs).
Proof.
  intros Hr Hcols. induction Hcols as [|c cols Hc Hcols IH]; intros k cursor vi decoded H0 Hd.
  - simpl. split_and!; [lia..|]. exists []. rewrite Z.sub_diag. by split_and!.
  - cbn [length seq zip zip_with foldE]. eapply checks_bind; [by apply checks_column_buffers|].
    intros [[cursor1 vi1] decoded1] (H1 & H2 & _ & -> & nulls & Hrn & Hn & Hb & Hl & Hvl).
    eapply checks_mono; [apply (IH (S k)); lia|]. intros [[cursor' vi'] decoded'] (H3 & H4 & bufs & Hw & Hlen & Hall).
    split_and!; [lia..|]. exists (window spans cursor (cursor1 - cursor) :: bufs). split_and!; [|simpl; lia|].
    + replace (cursor' - cursor) with ((cursor1 - cursor) + (cursor' - cursor1)) by lia.
      rewrite window_app by lia. simpl. by replace (cursor + (cursor1 - cursor)) with cursor1 by lia; rewrite Hw.
    + intros [|i] c' Hi; cbn [lookup list_lookup take] in *; simplify_eq.
      * rewrite Nat.add_0_r. exists nulls, (window spans cursor (cursor1 - cursor)).
        replace (vi + view_count []) with vi by (unfold view_count; simpl; lia). done.
      * rewrite Nat.add_succ_r. destruct (Hall i c' Hi) as (nulls' & bs & Hbs & Hr' & Hn' & Hb' & Hl' & Hv').
        exists nulls', bs. split_and!; [done..|lia|lia|done|]. 
        replace (vi + view_count (c :: take i cols)) with (vi + view_count [c] + view_count (take i cols)); [done|].
        unfold view_count. rewrite (filter_app _ [c] (take i cols)), length_app. lia.
Qed.
End columns.

Lemma checks_buffer_spans (t : Table) body entries n :
  checks (foldE (buffer_span t body entries) [] (py_range n)) (fun spans =>
    length spans = Z.to_nat n /\ forall k b, spans !! k = Some b -> buffer_at t body entries k b).
Proof.
  eapply checks_mono.
  - apply (checks_fold _ (fun visited spans => length spans = length visited /\
      forall k b, spans !! k = Some b -> buffer_at t body entries k b)); [done|].
    intros visited i todo spans [-> _]%py_range_split [Hlen IH].
    unfold buffer_span. eapply checks_bind; [apply checks_number|intros offset Ho].
    eapply checks_bind; [apply checks_number|intros size Hs]. repeat checks_step. rewrite !andb_true_iff, !Z.leb_le in *.
    rewrite !length_app, Hlen. split; [done|]. intros k b [Hk|[? Hk]]%lookup_app_Some; [by apply IH|].
    apply list_lookup_singleton_Some in Hk as [? <-]. replace k with (length visited) by lia.
    exists offset, size. split_and!; [done..|lia|lia|lia|done].
  - intros spans [Hlen Hall]. split; [|done]. rewrite Hlen. unfold py_range. by rewrite length_fmap, length_seq.
Qed.

Lemma total_len_nonneg spans : 0 <= total_len spans.
Proof. induction spans as [|s spans IH]; simpl; [done|]. pose proof (len_nonneg s). lia. Qed.

Lemma checks_batch (t : Table) body columns limits : Forall column_ok columns ->
  checks (batch t body columns limits) (fun '(rows, decoded) => 0 <= rows <= max_table_rows limits /\
    0 <= decoded <= max_table_decoded_bytes limits /\ batch_layout limits t body columns rows decoded).
Proof.
  intros Hcols. unfold batch. do 2 checks_step. eapply checks_bind; [eapply checks_self, checks_Table_number|intros rows Hrows].
  checks_step. rewrite andb_true_iff, !Z.leb_le in *.
  eapply checks_bind; [eapply checks_self, checks_vector|intros [nodes n] Hnodes]. checks_step.
  rewrite Z.eqb_eq in *. subst n.
  eapply checks_bind; [eapply checks_self, checks_vector|intros [entries count] Hentries].
  eapply checks_bind; [eapply checks_self, checks_vector|intros [variadic views] Hvariadic]. checks_step.
  eapply checks_bind; [by apply checks_buffer_spans|intros spans [Hcount Hspans]]. checks_step.
  rewrite Z.leb_le in *. pose proof (total_len_nonneg spans).
  eapply checks_bind; [apply checks_columns; [lia|done|lia|done]|]. intros [[cursor vi] decoded] (? & ? & bufs & Hw & Hlen & Hall).
  repeat checks_step. split_and!; [lia..|]. rewrite Z.eqb_eq in *. subst.
  assert (concat bufs = spans) as Hconcat.
  { rewrite <- Hw. unfold window. rewrite take_ge; [done|]. rewrite length_drop. lia. }
  eexists nodes, entries, count, variadic, _, bufs. rewrite Hconcat. split_and!; [done..|lia|]. by apply Hall.
Qed.

(** ** Messages and the file *)

Lemma checks_message data offset boundary limits :
  checks (message data offset boundary limits) (fun '(_, size, body_size) =>
    0 <= offset /\ 0 < size /\ 0 <= body_size /\ offset + size + body_size <= boundary).
Proof.
  unfold message. eapply checks_bind; [apply checks_number|intros marker (? & _)].
  set (prefix := if marker =? 0xFFFFFFFF then 8 else 4).
  assert (4 <= prefix) by (subst prefix; destruct (_ =? _); lia).
  repeat checks_step.
  rewrite !andb_true_iff, !Z.leb_le, ?Z.ltb_lt in *. lia.
Qed.

Lemma checks_schema_message data schema_end limits :
  checks (schema_message data schema_end limits) (fun '(_, size, _) => 8 + size = schema_end).
Proof.
  unfold schema_message. repeat checks_step.
  - eapply checks_bind; [eapply checks_anything, checks_message|]. intros [[t size] body_size] _. checks_step.
    rewrite Z.eqb_eq in *. simpl. lia.
  - lia.
Qed.

Lemma blocks_layout_snoc limits data meta entries footer_start columns i start blocks stop b :
  blocks_layout limits data meta entries footer_start columns i start blocks stop ->
  block_layout limits data meta entries footer_start columns (i + length blocks) stop b ->
  blocks_layout limits data meta entries footer_start columns i start (blocks ++ [b]) (next_block stop b).
Proof.
  revert i start. induction blocks as [|b0 blocks IH]; intros i start; simpl; [intros -> Hb; by rewrite Nat.add_0_r in Hb|].
  intros [? ?] Hb. split; [done|]. apply IH; [done|]. by rewrite Nat.add_succ_comm.
Qed.

(** What the loop over the indexed blocks keeps. *)
Definition block_inv limits data meta entries columns footer_start start (visited : list Z) (st : Z * Z * Z * Z) : Prop :=
  let '(stop, _, rows, decoded) := st in
  0 <= rows <= max_table_rows limits /\ 0 <= decoded <= max_table_decoded_bytes limits /\ stop <= footer_start /\
  exists blocks, length blocks = length visited /\
    blocks_layout limits data meta entries footer_start columns 0 start blocks stop /\
    rows = sumZ (b_rows <$> blocks) /\ decoded = sumZ (b_decoded <$> blocks).

Lemma checks_block data meta entries footer_start expected_rows columns limits start visited st :
  Forall column_ok columns -> block_inv limits data meta entries columns footer_start start visited st ->
  checks (inspect_block data meta entries footer_start expected_rows columns limits st (Z.of_nat (length visited)))
    (block_inv limits data meta entries columns footer_start start (visited ++ [Z.of_nat (length visited)])).
Proof.
  destruct st as [[[stop metadata_bytes] rows] decoded]. intros Hcols (Hr & Hd & Hs & bs & Hlbs & Hbs & -> & ->).
  unfold inspect_block. eapply checks_bind; [apply checks_number|intros offset Ho].
  eapply checks_bind; [apply checks_number|intros msize Hms]. eapply checks_bind; [apply checks_number|intros blen Hbl].
  checks_step. rewrite Z.eqb_eq in *. subst offset.
  eapply checks_bind; [apply checks_with, checks_message|]. intros [[t size] body_size] (Hm & ? & ? & ? & ?). checks_step.
  rewrite andb_true_iff, !Z.eqb_eq in *. eapply checks_bind; [eapply checks_self, checks_Table_number|intros header Hh].
  checks_step. rewrite Z.eqb_eq in *. subst header. checks_step.
  eapply checks_bind; [eapply checks_self, checks_child|intros table Htable].
  eapply checks_bind; [apply checks_span|intros body (_ & _ & _ & Hbody & Hlen)].
  eapply checks_bind; [by apply checks_batch|]. intros [batch_rows batch_decoded] (? & ? & Hl). repeat (checks_step; []).
  rewrite !andb_true_iff, !Z.leb_le in *. subst body_size. unfold block_inv. split_and!; [lia..|].
  set (b := mkBlock size table body batch_rows batch_decoded). exists (bs ++ [b]). rewrite !fmap_app, !length_app. simpl. autorewrite with gambit.
  split_and!; [lia| |lia..]. apply (blocks_layout_snoc _ _ _ _ _ _ _ _ _ _ b); [done|]. rewrite Hlbs. simpl.
  assert (msize = size /\ blen = len body) as [-> ->] by tauto.
  split_and!; [done|unfold next_block; simpl; lia|done..|by exists t|done].
Qed.

Lemma limits_positive limits :
  BundleLoadLimits_post_init limits = Ok tt -> 0 < max_table_rows limits /\ 0 < max_table_decoded_bytes limits.
Proof.
  unfold BundleLoadLimits_post_init. rewrite iterE_Ok. intros Hall.
  assert (forall v, v ∈ limit_values limits -> 0 < v) as Hpos.
  { intros v Hv. rewrite Forall_forall in Hall. specialize (Hall v Hv). simpl in Hall.
    destruct (Z.leb_spec v 0); [done|lia]. }
  split; apply Hpos; unfold limit_values; set_solver.
Qed.

(** What an accepted file is: its footer names the columns and the blocks. *)
Definition accepted_file data expected_schema expected_rows limits (decoded : Z) : Prop :=
  0 <= decoded <= max_table_decoded_bytes limits /\ 0 <= expected_rows <= max_table_rows limits /\
  exists footer_size, packed Fmti data (len data - 10) footer_size /\ 0 < footer_size <= len data - 18 /\
  let footer_start := len data - 10 - footer_size in
  let meta := bytes_slice data footer_start (footer_start + footer_size) in
  exists footer footer_schema columns entries count, root meta = Ok footer /\
    Table_child footer 1 = Ok footer_schema /\ schema footer_schema limits = Ok columns /\
    ((fun c => (col_name c, col_dtype c)) <$> columns) = expected_schema /\
    Table_vector footer 3 24 (max_record_batches limits) = Ok (entries, count) /\
    exists blocks start stop, length blocks = Z.to_nat count /\ 8 < start /\ stop <= footer_start /\
      blocks_layout limits data meta entries footer_start columns 0 start blocks stop /\
      sumZ (b_rows <$> blocks) = expected_rows /\ sumZ (b_decoded <$> blocks) = decoded.

Lemma checks_inspect_ipc data expected_schema expected_rows limits : BundleLoadLimits_post_init limits = Ok tt ->
  checks (inspect_ipc data expected_schema expected_rows limits) (accepted_file data expected_schema expected_rows limits).
Proof.
  intros Hlimits%limits_positive. unfold accepted_file. unfold inspect_ipc. checks_step.
  eapply checks_bind; [apply checks_number|intros footer_size Hfooter_size]. checks_step.
  eapply checks_bind; [apply checks_span|intros meta (_ & _ & _ & -> & _)].
  eapply checks_bind; [eapply checks_self, checks_root|intros footer Hfooter].
  do 4 checks_step. eapply checks_bind; [eapply checks_self, checks_child|intros footer_schema Hfs].
  eapply checks_bind; [apply checks_with, checks_schema|intros columns [Hcs Hcolumns]]. checks_step.
  eapply checks_bind; [eapply checks_self, checks_vector|intros [entries count] Hentries].
  eapply (checks_bind _ _ anything); [auto with ipc|intros schema_end' _]. cbv zeta.
  match goal with |- context [if ?b then schema_end' - 8 else _] =>
    generalize (if b then schema_end' - 8 else schema_end'); intros schema_end end.
  checks_step. eapply checks_bind; [apply checks_schema_message|]. intros [[t schema_size] body_size] Hsize.
  do 3 checks_step. eapply checks_bind; [apply checks_schema|intros columns' _]. checks_step.
  rewrite !andb_true_iff, ?Z.ltb_lt, ?Z.leb_le, ?bool_decide_eq_true in *.
  eapply checks_bind.
  { apply (checks_fold _ (block_inv limits data (bytes_slice data (len data - 10 - footer_size) (len data - 10 - footer_size + footer_size))
      entries columns (len data - 10 - footer_size) (8 + schema_size))).
    - split_and!; [lia..|]. exists []. by split_and!.
    - intros visited i todo st [-> _]%py_range_split Hst. by apply checks_block. }
  intros [[[stop metadata_bytes] rows] decoded] (Hr & Hd & Hstop & blocks & Hlb & Hblocks & Hrows & Hdecoded).
  repeat (checks_step; []). simpl. rewrite Z.eqb_eq in *. subst expected_rows.
  split_and!; [lia..|]. exists footer_size. split_and!; [done|lia|lia|]. exists footer, footer_schema, columns, entries, count.
  split_and!; [done..|]. exists blocks, (8 + schema_size), stop. split_and!; [|lia|lia|done..].
  rewrite Hlb. unfold py_range. by rewrite length_fmap, length_seq.
Qed.

(** C13: The preflight fails shut.  Whatever the bytes, the expected schema and the
    row count, [inspect_ipc] terminates and either raises [BacktestBundleError] -
    no read is ever out of bounds - or accepts.  Then the estimated cost is within
    the budget and the columns are the expected ones, and every size the metadata
    declares is true: the record batches are those the footer indexes, follow each
    other inside the file, are as long as declared and hold the expected rows;
    each buffer is the range its batch's metadata declares and lies whole in the
    body; and the buffers of each column satisfy its layout: no offset, view or
    bitmap a reader follows leads outside its buffer. *)
Theorem inspect_ipc_fails_shut data expected_schema expected_rows limits :
  BundleLoadLimits_post_init limits = Ok tt ->
  match inspect_ipc data expected_schema expected_rows limits with
  | Err e => exists message, e = BacktestBundleError message
  | Ok decoded =>
      0 <= decoded <= max_table_decoded_bytes limits /\ 0 <= expected_rows <= max_table_rows limits /\
      exists footer_size, packed Fmti data (len data - 10) footer_size /\ 0 < footer_size <= len data - 18 /\
      let footer_start := len data - 10 - footer_size in
      let meta := bytes_slice data footer_start (footer_start + footer_size) in
      exists footer footer_schema columns entries count, root meta = Ok footer /\
        Table_child footer 1 = Ok footer_schema /\ schema footer_schema limits = Ok columns /\
        ((fun c => (col_name c, col_dtype c)) <$> columns) = expected_schema /\
        Table_vector footer 3 24 (max_record_batches limits) = Ok (entries, count) /\
        exists blocks start stop, length blocks = Z.to_nat count /\ 8 < start /\ stop <= footer_start /\
          blocks_layout limits data meta entries footer_start columns 0 start blocks stop /\
          sumZ (b_rows <$> blocks) = expected_rows /\ sumZ (b_decoded <$> blocks) = decoded
  end.
Proof. apply checks_inspect_ipc. Qed.
End inspect.

(** ** A concrete file

    Two columns of two rows: "s" holds the strings "a" and "bc", "n" the
    integers 7 and -1. *)

#[local] Instance polars_types : PolarsTypes := {
  pl_Null := "Null";
  pl_Decimal precision scale :=
    ("Decimal(precision=" +:+ pretty precision +:+ ", scale=" +:+ pretty scale +:+ ")")%string;
  pl_Datetime unit zone :=
    ("Datetime(time_unit='" +:+ unit +:+ "', time_zone=" +:+ default "None"%string zone +:+ ")")%string;
  pl_Duration unit := ("Duration(time_unit='" +:+ unit +:+ "')")%string;
}.

Definition demo_file : bytes := omap Byte.of_N ([
  65; 82; 82; 79; 87; 49; 0; 0; 255; 255; 255; 255; 164; 0; 0; 0; 16; 0; 0; 0; 12; 0; 19; 0; 4; 0; 6; 0; 7; 0; 11;
  0; 12; 0; 0; 0; 4; 0; 1; 21; 0; 0; 0; 0; 0; 0; 0; 0; 0; 0; 0; 0; 8; 0; 8; 0; 0; 0; 4; 0; 8; 0; 0; 0; 4; 0; 0; 0;
  2; 0; 0; 0; 20; 0; 0; 0; 44; 0; 0; 0; 12; 0; 13; 0; 4; 0; 0; 0; 8; 0; 9; 0; 12; 0; 0; 0; 40; 0; 0; 0; 5; 47; 0;
  0; 0; 0; 0; 0; 12; 0; 13; 0; 4; 0; 0; 0; 8; 0; 9; 0; 12; 0; 0; 0; 28; 0; 0; 0; 2; 39; 0; 0; 0; 0; 0; 0; 1; 0; 0;
  0; 115; 0; 0; 0; 4; 0; 4; 0; 4; 0; 0; 0; 1; 0; 0; 0; 110; 0; 0; 0; 8; 0; 9; 0; 4; 0; 8; 0; 8; 0; 0; 0; 64; 0; 0;
  0; 1; 0; 0; 0; 255; 255; 255; 255; 188; 0; 0; 0; 16; 0; 0; 0; 12; 0; 19; 0; 4; 0; 6; 0; 7; 0; 11; 0; 12; 0; 0;
  0; 4; 0; 3; 23; 0; 0; 0; 32; 0; 0; 0; 0; 0; 0; 0; 0; 10; 0; 20; 0; 4; 0; 12; 0; 16; 0; 10; 0; 0; 0; 2; 0; 0; 0;
  0; 0; 0; 0; 10; 0; 0; 0; 42; 0; 0; 0; 0; 0; 2; 0; 0; 0; 2; 0; 0; 0; 0; 0; 0; 0; 0; 0; 0; 0; 0; 0; 0; 0; 2; 0; 0;
  0; 0; 0; 0; 0; 0; 0; 0; 0; 0; 0; 0; 0; 5; 0; 0; 0; 0; 0; 0; 0; 0; 0; 0; 0; 0; 0; 0; 0; 0; 0; 0; 0; 0; 0; 0; 0;
  0; 0; 0; 0; 12; 0; 0; 0; 0; 0; 0; 0; 12; 0; 0; 0; 0; 0; 0; 0; 3; 0; 0; 0; 0; 0; 0; 0; 0; 0; 0; 0; 0; 0; 0; 0; 0;
  0; 0; 0; 0; 0; 0; 0; 16; 0; 0; 0; 0; 0; 0; 0; 16; 0; 0; 0; 0; 0; 0; 0; 0; 0; 0; 0; 1; 0; 0; 0; 3; 0; 0; 0; 97;
  98; 99; 0; 7; 0; 0; 0; 0; 0; 0; 0; 255; 255; 255; 255; 255; 255; 255; 255; 16; 0; 0; 0; 12; 0; 14; 0; 4; 0; 6;
  0; 0; 0; 10; 0; 12; 0; 0; 0; 4; 0; 18; 0; 0; 0; 22; 0; 0; 0; 0; 0; 8; 0; 8; 0; 0; 0; 4; 0; 8; 0; 0; 0; 32; 0; 0;
  0; 1; 0; 0; 0; 180; 0; 0; 0; 0; 0; 0; 0; 196; 0; 0; 0; 0; 0; 0; 0; 32; 0; 0; 0; 0; 0; 0; 0; 2; 0; 0; 0; 20; 0;
  0; 0; 44; 0; 0; 0; 12; 0; 13; 0; 4; 0; 0; 0; 8; 0; 9; 0; 12; 0; 0; 0; 40; 0; 0; 0; 5; 47; 0; 0; 0; 0; 0; 0; 12;
  0; 13; 0; 4; 0; 0; 0; 8; 0; 9; 0; 12; 0; 0; 0; 28; 0; 0; 0; 2; 39; 0; 0; 0; 0; 0; 0; 1; 0; 0; 0; 115; 0; 0; 0;
  4; 0; 4; 0; 4; 0; 0; 0; 1; 0; 0; 0; 110; 0; 0; 0; 8; 0; 9; 0; 4; 0; 8; 0; 8; 0; 0; 0; 64; 0; 0; 0; 1; 185; 0; 0;
  0; 65; 82; 82; 79; 87; 49])%N.

Definition demo_schema : list (string * string) := [("s", "String"); ("n", "Int64")]%string.

Example demo_accepted : inspect_ipc demo_file demo_schema 2 default_limits = Ok 190.
Proof. vm_compute. reflexivity. Qed.

(** The last string offset moved past the payload. *)
Example demo_bad_offset :
  inspect_ipc (<[384%nat := x7f]> demo_file) demo_schema 2 default_limits =
    Err (BacktestBundleError "invalid string/binary offset").
Proof. vm_compute. reflexivity. Qed.

Lemma inspect_ipc_fails_shut_witness :
  BundleLoadLimits_post_init default_limits = Ok tt /\ 0 <= 190 <= max_table_decoded_bytes default_limits.
Proof.
  split; [reflexivity|].
  pose proof (inspect_ipc_fails_shut demo_file demo_schema 2 default_limits eq_refl) as Hsafe.
  rewrite demo_accepted in Hsafe. exact (proj1 Hsafe).
Defined.
