(* ===== verification/Universe.v ===== *)
(** * Bulk construction of contract universes (universe.py)

    [create_contract_groups] validates a whole request before it touches the
    registries of [Contracts].  The theorem says what that buys: all or nothing. *)

From S2P Require Import Prelude Numeric Instruments Contracts.

Open Scope Z_scope.

Section universe.
Context `{PyFloat F}.

(** ** Requests *)

Record ContractSpec := mkContractSpec {
  cs_symbol : pyval F;
  cs_expiry : option (arg (option Z));
  cs_multiplier : pyval F;                               (* PNone: the default of the group *)
  cs_instrument_spec : option (arg (InstrumentSpec F));  (* None: None or another false value *)
  cs_properties : option (arg (list (pyval F * pyval F)));
}.

(** An entry of a group's contracts. *)
Inductive entry :=
  | EntrySymbol (symbol : string)
  | EntrySpec (spec : ContractSpec)
  | EntryOther.

Inductive entries :=
  | Entries (l : list entry)
  | EntriesText             (* a str or bytes object *)
  | NotIterable.

Record ContractGroupSpec := mkContractGroupSpec {
  gs_contracts : entries;
  gs_multiplier : pyval F;
  gs_instrument_spec : option (arg (InstrumentSpec F));
}.

Inductive group_definition :=
  | GroupEntries (contracts : entries)
  | GroupSpec (spec : ContractGroupSpec).

Record ContractUniverse := mkUniverse {
  un_groups : list (string * group);
  un_contracts : list (string * contract F);
}.

Definition universe_group (u : ContractUniverse) (name : string) : result group :=
  match dict_get (un_groups u) name with Some g => Ok g | None => Err (KeyError name) end.
Definition universe_contract (u : ContractUniverse) (symbol : string) : result (contract F) :=
  match dict_get (un_contracts u) symbol with Some c => Ok c | None => Err (KeyError symbol) end.

Record PreparedContract := mkPrepared {
  pc_group_name : string;
  pc_symbol : string;
  pc_expiry : option Z;
  pc_multiplier : F;
  pc_instrument_spec : InstrumentSpec F;
  pc_properties : option (ns F);
}.

(** ** Preflight *)

(** [str.isspace] of an ASCII character. *)
Definition ascii_isspace (c : Ascii.ascii) : bool :=
  let n := Ascii.N_of_ascii c in ((9 <=? n) && (n <=? 13) || (28 <=? n) && (n <=? 32))%N.

(** [isinstance(name, str) and name.strip()] *)
Definition stripped_name (v : pyval F) : option string :=
  match v with PStr s => if str_all ascii_isspace s then None else Some s | _ => None end.

(** [math.isfinite(multiplier) and multiplier > 0] of an int or a float, and its
    conversion; a bool or an object of another class is refused before. *)
Definition prepare_multiplier (multiplier : pyval F) : result F :=
  match multiplier with
  | PInt z =>
      let x := f_of_Z z in
      whenever f_isinf x raise OverflowError "int too large to convert to float" ;;
      unless 0 <? z raise ValueError "multiplier must be finite and positive" ;;
      Ok x
  | PFloat x | PNpFloat x =>
      unless f_isfinite x && negb (f_leb x f_zero) raise ValueError "multiplier must be finite and positive" ;;
      Ok x
  | _ => Err (TypeError "multiplier must be numeric")
  end.

(** [SimpleNamespace] attributes of a mapping whose keys are strings. *)
Definition prepare_properties (properties : option (arg (list (pyval F * pyval F)))) : result (option (ns F)) :=
  match properties with
  | None => Ok None
  | Some NotInst => Err (TypeError "properties must be a mapping")
  | Some (Inst l) =>
      items ← foldE (fun acc '(key, value) =>
        match key with
        | PStr s => Ok (acc ++ [(s, value)])
        | _ => Err (TypeError "property names must be strings")
        end) [] l;
      Ok (Some items)
  end.

(** [spec.instrument_spec or default], and its class. *)
Definition prepare_instrument (default_instrument : InstrumentSpec F) (spec : option (arg (InstrumentSpec F)))
  : result (InstrumentSpec F) :=
  instance_or default_instrument spec (TypeError "instrument_spec must be an InstrumentSpec").

Definition prepare_entry (r : registry F) (group_name : string) (default_multiplier : pyval F)
  (default_instrument : InstrumentSpec F) (prepared : list PreparedContract) (e : entry)
  : result (list PreparedContract) :=
  spec ← match e with
         | EntrySymbol symbol => Ok (mkContractSpec (PStr symbol) None PNone None None)
         | EntrySpec spec => Ok spec
         | EntryOther => Err (TypeError "contract definition must be a symbol or ContractSpec")
         end;
  match valid_name (cs_symbol spec) with
  | None => Err (ValueError "contract symbols must be non-empty strings")
  | Some symbol =>
      whenever bool_decide (symbol ∈ pc_symbol <$> prepared)
        raise ValueError "duplicate contract symbol in bulk request" ;;
      whenever Contract_exists symbol r raise ValueError "contract already exists" ;;
      multiplier ← prepare_multiplier (match cs_multiplier spec with PNone => default_multiplier | m => m end);
      expiry ← checked_expiry (cs_expiry spec);
      properties ← prepare_properties (cs_properties spec);
      instrument ← prepare_instrument default_instrument (cs_instrument_spec spec);
      Ok (prepared ++ [mkPrepared group_name symbol expiry multiplier instrument properties])
  end.

Definition prepare_group (r : registry F) (prepared : list PreparedContract) (x : pyval F * group_definition)
  : result (list PreparedContract) :=
  match stripped_name x.1 with
  | None => Err (ValueError "contract-group names must be non-empty strings")
  | Some group_name =>
      let '(contracts, default_multiplier, spec) :=
        match x.2 with
        | GroupSpec s => (gs_contracts s, gs_multiplier s, gs_instrument_spec s)
        | GroupEntries contracts => (contracts, PFloat f_one, None)
        end in
      default_instrument ← prepare_instrument default_InstrumentSpec spec;
      match contracts with
      | EntriesText => Err (TypeError "contracts must be an iterable, not a string")
      | NotIterable => Err (TypeError "object is not iterable")
      | Entries l => foldE (prepare_entry r group_name default_multiplier default_instrument) prepared l
      end
  end.

Definition prepare_contracts (r : registry F) (definitions : arg (list (pyval F * group_definition)))
  : result (list PreparedContract) :=
  match definitions with
  | NotInst => Err (TypeError "contract-group definitions must be a mapping")
  | Inst definitions => foldE (prepare_group r) [] definitions
  end.

(** ** Creation *)

(** A key of the request; only strings pass the preflight. *)
Definition group_key (name : pyval F) : string := match name with PStr s => s | _ => "" end.

(** [{name: ContractGroup.get(name) for name in definitions}] *)
Fixpoint get_groups (names : list (pyval F)) (groups : list (string * group)) : ST (registry F) (list (string * group)) :=
  match names with
  | [] => mret groups
  | name :: names =>
      g ← ContractGroup_get name;
      get_groups names (dict_set groups (group_key name) g)
  end.

Definition create_prepared (groups : list (string * group)) (item : PreparedContract) : ST (registry F) (contract F) :=
  match dict_get groups (pc_group_name item) with
  | None => st_raise (KeyError (pc_group_name item))
  | Some g =>
      Contract_create (CreateArgs (PStr (pc_symbol item)) (Some (Inst g)) (Inst ∘ Some <$> pc_expiry item)
        (Some (PFloat (pc_multiplier item))) None (Inst <$> pc_properties item) (Some (Inst (pc_instrument_spec item))))
  end.

Fixpoint create_all (groups : list (string * group)) (prepared : list PreparedContract)
  (contracts : list (string * contract F)) : ST (registry F) (list (string * contract F)) :=
  match prepared with
  | [] => mret contracts
  | item :: prepared =>
      c ← create_prepared groups item;
      create_all groups prepared (dict_set contracts (pc_symbol item) c)
  end.

Definition create_contract_groups (definitions : arg (list (pyval F * group_definition)))
  : ST (registry F) ContractUniverse := fun r =>
  (prepared ← st_lift (prepare_contracts r definitions);
   groups ← get_groups (match definitions with Inst l => l.*1 | NotInst => [] end) [];
   contracts ← create_all groups prepared [];
   mret (mkUniverse groups contracts)) r.
End universe.

Arguments ContractSpec F : clear implicits.
Arguments ContractGroupSpec F : clear implicits.
Arguments group_definition F : clear implicits.
Arguments entry F : clear implicits.
Arguments entries F : clear implicits.
Arguments PreparedContract F : clear implicits.
Arguments ContractUniverse F : clear implicits.

(** ** All or nothing *)

(** A float that a positive int becomes is positive, unless it overflows. *)
Class FloatOfInt (F : Type) `{PyFloat F} :=
  f_of_Z_pos z : 0 < z -> f_isinf (f_of_Z z) = false -> f_isfinite (f_of_Z z) = true /\ f_leb (f_of_Z z) f_zero = false.

#[export] Instance exact_FloatOfInt : FloatOfInt XQ.
Proof.
  intros z Hz _. split; [done|]. unfold f_zero. rewrite !exact_of_Z. simpl. apply not_true_is_false.
  rewrite qleb_le. unfold zq. intros Hle. to_Q. unfold QArith_base.Qle in Hle. simpl in Hle. lia.
Qed.

Section facts.
Context `{PyFloat F} `{!FloatOfInt F}.
Implicit Types (r : registry F) (item : PreparedContract F).

(** Groups list registered contracts only: what every history of [get],
    [create] and the cache resets maintains. *)
Definition members_registered r : Prop :=
  forall name g symbol, dict_get (rg_groups r) name = Some g ->
    dict_get (rg_contracts r) symbol = None -> dict_get (members r g) symbol = None.

(** What the preflight has checked of one contract. *)
Definition item_ok r item : Prop :=
  pc_symbol item <> "" /\ dict_get (rg_contracts r) (pc_symbol item) = None /\
  f_isfinite (pc_multiplier item) = true /\ f_leb (pc_multiplier item) f_zero = false.

Lemma prepare_multiplier_ok v (m : F) : prepare_multiplier v = Ok m -> f_isfinite m = true /\ f_leb m f_zero = false.
Proof.
  unfold prepare_multiplier. destruct v as [| | |z|x| |x| |]; intros Hm; try done; inv_ok Hm; bools; subst; auto.
Qed.

Definition prepared_ok r (l : list (PreparedContract F)) : Prop := NoDup (pc_symbol <$> l) /\ Forall (item_ok r) l.

Lemma prepare_entry_ok r g m i l e l' :
  prepared_ok r l -> prepare_entry r g m i l e = Ok l' ->
  prepared_ok r l' /\ exists item, l' = l ++ [item] /\ pc_group_name item = g.
Proof.
  intros [Hnd Hl] He. unfold prepare_entry in He. apply bind_Ok_inv in He as (spec & _ & He).
  destruct (valid_name (cs_symbol spec)) as [symbol|] eqn:Hs; [|done]. apply valid_name_Some in Hs as [Hne _].
  inv_ok He. bools. unfold Contract_exists, dict_mem in *. bools. split; [|eauto].
  split; [|apply Forall_app_2; [done|]].
  - rewrite fmap_app. apply NoDup_app. split_and!; [done| |apply NoDup_singleton]. simpl. set_solver.
  - constructor; [|done]. unfold item_ok. simpl. split_and!; [done|by apply eq_None_not_Some|..]; by eapply prepare_multiplier_ok.
Qed.

Lemma prepare_contracts_ok r definitions prepared :
  prepare_contracts r definitions = Ok prepared ->
  exists l, definitions = Inst l /\ prepared_ok r prepared /\
    (forall v, v ∈ l.*1 -> exists name, stripped_name v = Some name) /\
    (forall item, item ∈ prepared -> PStr (pc_group_name item) ∈ l.*1).
Proof.
  unfold prepare_contracts. destruct definitions as [l|]; [|done]. intros Hp. exists l. split; [done|].
  assert (forall seen todo acc, l = seen ++ todo -> prepared_ok r acc ->
    (forall v, v ∈ seen.*1 -> exists name, stripped_name v = Some name) ->
    (forall item, item ∈ acc -> PStr (pc_group_name item) ∈ l.*1) ->
    foldE (prepare_group r) acc todo = Ok prepared ->
    prepared_ok r prepared /\ (forall v, v ∈ l.*1 -> exists name, stripped_name v = Some name) /\
    (forall item, item ∈ prepared -> PStr (pc_group_name item) ∈ l.*1)) as Hall.
  2: { apply (Hall [] l []); try done; [|set_solver..]. split; [constructor|done]. }
  clear Hp. intros seen todo. revert seen. induction todo as [|[v d] todo IH]; intros seen acc Hl Hacc Hseen Hin Hp.
  { simpl in Hp. simplify_eq. rewrite app_nil_r in *. by subst. }
  cbn [foldE] in Hp. apply bind_Ok_inv in Hp as (acc' & Hg & Hp). unfold prepare_group in Hg. cbn [fst snd] in Hg.
  destruct (stripped_name v) as [name|] eqn:Hname; [|done].
  destruct (match d with GroupSpec _ => _ | GroupEntries _ => _ end) as [[contracts m] spec].
  apply bind_Ok_inv in Hg as (i & _ & Hg). destruct contracts as [es| |]; [|done|done].
  assert (prepared_ok r acc' /\ forall item, item ∈ acc' -> PStr (pc_group_name item) ∈ l.*1) as [Hacc' Hin'].
  { eapply (foldE_inv (fun b => prepared_ok r b /\ forall item, item ∈ b -> PStr (pc_group_name item) ∈ l.*1));
      [|done|exact Hg]. intros b e b' _ [Hb Hbin] He. apply prepare_entry_ok in He as (Hb' & item & -> & Hgn); [|done].
    split; [done|]. intros it [?| ->%list_elem_of_singleton]%elem_of_app; [by apply Hbin|].
    assert (v = PStr name) as -> by (unfold stripped_name in Hname; destruct v; try done; case_matches_in Hname; congruence).
    rewrite Hgn, Hl, fmap_app. csimpl. set_solver. }
  eapply (IH (seen ++ [(v, d)])); [by rewrite <- app_assoc|done| |done|done].
  intros v'. rewrite fmap_app. csimpl. intros [?| ->%list_elem_of_singleton]%elem_of_app; [by apply Hseen|eauto].
Qed.

(** ** Creation cannot fail any more *)

Lemma ContractGroup_get_succeeds r v name :
  registry_wf r -> members_registered r -> stripped_name v = Some name ->
  exists r' g, ContractGroup_get v r = (r', Ok g) /\ registry_wf r' /\ members_registered r' /\
    rg_contracts r' = rg_contracts r /\ dict_get (rg_groups r') name = Some g /\ group_key v = name /\
    (forall n g', dict_get (rg_groups r) n = Some g' -> dict_get (rg_groups r') n = Some g').
Proof.
  intros Hwf Hm Hname. unfold stripped_name in Hname. destruct v as [| | | | | | |s|]; try done.
  assert (s <> "" /\ s = name) as [Hne ->] by (case_matches_in Hname; split; [by intros ->|congruence]).
  pose proof (fun r' res => ContractGroup_get_wf r (PStr name) r' res Hwf) as Hwf'.
  unfold ContractGroup_get, valid_name in *. rewrite (proj2 (String.eqb_neq _ _)) in * by done.
  destruct (dict_get (rg_groups r) name) as [g|] eqn:Hg; [by exists r, g|].
  revert Hwf'. unfold mbind, ST_bind, ContractGroup_new, valid_name, mret, ST_ret, st_get, st_put.
  rewrite (proj2 (String.eqb_neq _ _)) by done. cbn beta iota zeta. intros Hwf'.
  eexists _, _. split; [reflexivity|]. split; [by eapply Hwf'|]. cbn [rg_groups rg_contracts set_groups set_members alloc_oid cg_name].
  split_and!.
  - intros n g symbol. cbn [rg_groups rg_contracts set_groups set_members alloc_oid]. rewrite dict_get_set.
    unfold members. cbn [rg_members set_groups set_members alloc_oid].
    case_decide as Hn; [intros [= <-] _; by rewrite lookup_insert_eq|].
    intros Hng Hc. destruct (decide (cg_oid g = rg_next r)) as [->|]; [by rewrite lookup_insert_eq|].
    rewrite lookup_insert_ne by done. by apply (Hm n).
  - done.
  - apply dict_get_set_eq.
  - done.
  - intros n g' Hn. rewrite dict_get_set_ne; [done|]. intros ->. congruence.
Qed.

(** The groups of the request are the registered ones. *)
Definition groups_ok r (names : list (pyval F)) (groups : list (string * group)) : Prop :=
  forall v, v ∈ names -> exists g, dict_get groups (group_key v) = Some g /\ dict_get (rg_groups r) (group_key v) = Some g.

Lemma get_groups_succeeds names : forall r seen groups,
  registry_wf r -> members_registered r -> (forall v, v ∈ names -> exists name, stripped_name v = Some name) ->
  groups_ok r seen groups ->
  exists r' groups', get_groups names groups r = (r', Ok groups') /\ registry_wf r' /\ members_registered r' /\
    rg_contracts r' = rg_contracts r /\ groups_ok r' (seen ++ names) groups'.
Proof.
  induction names as [|v names IH]; intros r seen groups Hwf Hm Hnames Hseen; simpl.
  - exists r, groups. rewrite app_nil_r. by split_and!.
  - destruct (Hnames v) as [name Hname]; [set_solver|].
    destruct (ContractGroup_get_succeeds _ _ _ Hwf Hm Hname) as (r1 & g & Hget & Hwf1 & Hm1 & Hc1 & Hg & Hkey & Hkeep).
    unfold mbind, ST_bind. rewrite Hget.
    destruct (IH r1 (seen ++ [v]) (dict_set groups (group_key v) g)) as (r' & groups' & -> & ? & ? & ? & ?); try done.
    + intros v' ?. apply Hnames. set_solver.
    + intros v' Hv'. rewrite dict_get_set. case_decide as Hk; [rewrite Hk; rewrite Hkey; eauto|].
      apply elem_of_app in Hv' as [Hv'| ->%list_elem_of_singleton]; [|done].
      destruct (Hseen v' Hv') as (g' & ? & ?). eauto.
    + exists r', groups'. rewrite <- app_assoc in *. split_and!; congruence || done.
Qed.

(** A created contract is the requested one. *)
Definition as_requested r item (c : contract F) : Prop :=
  c_symbol c = pc_symbol item /\ c_expiry c = pc_expiry item /\ c_multiplier c = pc_multiplier item /\
  c_components c = [] /\ c_properties c = default [] (pc_properties item) /\
  c_instrument_spec c = pc_instrument_spec item /\
  dict_get (rg_groups r) (pc_group_name item) = Some (c_contract_group c) /\
  dict_get (members r (c_contract_group c)) (c_symbol c) = Some c.

Lemma Contract_create_Ok (a : create_args F) r symbol g m expiry cs p sp :
  create_checks a r = Ok (symbol, g, m, expiry, cs, p, sp) -> dict_get (members r g) symbol = None ->
  exists r', Contract_create a r = (r', Ok (Contract (rg_next r) symbol g expiry m cs p sp)).
Proof.
  intros Hck Hmem. unfold Contract_create. rewrite Hck. unfold mbind, ST_bind, add_contract, is_group.
  cbn [c_contract_group c_symbol]. rewrite bool_decide_true by done. cbn [negb].
  change (members (alloc_oid r) g) with (members r g). rewrite Hmem. eexists. reflexivity.
Qed.

Lemma create_prepared_succeeds r groups item g :
  registry_wf r -> members_registered r -> item_ok r item ->
  dict_get groups (pc_group_name item) = Some g -> dict_get (rg_groups r) (pc_group_name item) = Some g ->
  exists r' c, create_prepared groups item r = (r', Ok c) /\ registry_wf r' /\ members_registered r' /\
    rg_contracts r' = rg_contracts r ++ [(pc_symbol item, c)] /\ rg_groups r' = rg_groups r /\ as_requested r' item c /\
    (forall it c', as_requested r it c' -> as_requested r' it c').
Proof.
  intros Hwf Hm (Hne & Hfresh & Hfin & Hpos) Hg Hrg. unfold create_prepared. rewrite Hg.
  match goal with |- context [Contract_create ?a r] => set (args := a) in * end.
  assert (create_checks args r = Ok (pc_symbol item, g, pc_multiplier item, pc_expiry item, [],
                                     default [] (pc_properties item), pc_instrument_spec item)) as Hck.
  { subst args. unfold create_checks, valid_name. cbn -[finite_real dict_mem].
    rewrite (proj2 (String.eqb_neq _ _)) by done. cbn -[finite_real dict_mem]. unfold dict_mem. rewrite Hfresh.
    cbn -[finite_real]. rewrite (proj2 (finite_real_float _)) by done. cbn. rewrite Hpos.
    by destruct (pc_expiry item), (pc_properties item). }
  destruct (Contract_create_Ok _ _ _ _ _ _ _ _ _ Hck) as [r' Hc]; [by eapply Hm|].
  destruct (Contract_create_spec _ _ _ _ Hwf Hc) as (Hwf' & Hgroups & _ & _ & _ & _ & Hcontracts & Hmembers & Hothers).
  set (c := Contract (rg_next r) _ _ _ _ _ _ _) in *.
  change (c_contract_group c) with g in *. change (c_symbol c) with (pc_symbol item) in *.
  assert (dict_get (members r g) (pc_symbol item) = None) as Hmem by by eapply Hm.
  assert (forall g' s, dict_get (members r' g') s =
    if decide (cg_oid g' = cg_oid g /\ s = pc_symbol item) then Some c else dict_get (members r g') s) as Hget.
  { intros g' s. destruct (decide (cg_oid g' = cg_oid g)) as [Hg'|Hg'].
    - assert (forall x, members x g' = members x g) as -> by (intros; unfold members; by rewrite Hg').
      assert (members r g' = members r g) as -> by (unfold members; by rewrite Hg').
      rewrite Hmembers, dict_get_app. simpl. case_decide as Hs.
      + subst s. by rewrite Hmem, decide_True.
      + rewrite decide_False by naive_solver. by destruct (dict_get (members r g) s).
    - unfold members. rewrite Hothers by done. by rewrite decide_False by tauto. }
  exists r', c. split_and!; try done.
  - intros name g' s. rewrite Hgroups, Hcontracts, dict_get_app, Hget. intros Hn.
    destruct (dict_get (rg_contracts r) s) eqn:Hs; [done|]. simpl. case_decide as Hs'; [done|]. intros _.
    rewrite decide_False by tauto. by apply (Hm name).
  - unfold as_requested. rewrite Hgroups, Hget. cbn. by rewrite decide_True.
  - intros it c' (? & ? & ? & ? & ? & ? & ? & Hc'). unfold as_requested. rewrite Hgroups, Hget.
    split_and!; try done. rewrite decide_False; [done|]. intros [Hgo Hs]. unfold members in Hc', Hmem.
    rewrite Hgo, Hs in Hc'. congruence.
Qed.

Lemma create_all_succeeds groups prepared : forall r done contracts,
  registry_wf r -> members_registered r -> prepared_ok r prepared ->
  (forall item, item ∈ prepared -> exists g, dict_get groups (pc_group_name item) = Some g /\
     dict_get (rg_groups r) (pc_group_name item) = Some g) ->
  dict_keys contracts = pc_symbol <$> done -> (forall item, item ∈ prepared -> pc_symbol item ∉ pc_symbol <$> done) ->
  Forall2 (as_requested r) done contracts.*2 ->
  exists r' created, create_all groups prepared contracts r = (r', Ok (contracts ++ created)) /\
    registry_wf r' /\ members_registered r' /\ rg_contracts r' = rg_contracts r ++ created /\
    dict_keys (contracts ++ created) = pc_symbol <$> done ++ prepared /\
    Forall2 (as_requested r') (done ++ prepared) (contracts ++ created).*2.
Proof.
  induction prepared as [|item prepared IH]; intros r done contracts Hwf Hm [Hnd Hok] Hgroups Hkeys Hfresh Hdone; simpl.
  - exists r, []. rewrite !app_nil_r. by split_and!.
  - apply Forall_cons in Hok as [Hitem Hok]. csimpl in *. apply NoDup_cons in Hnd as [Hni Hnd].
    destruct (Hgroups item) as (g & Hg & Hrg); [by left|].
    destruct (create_prepared_succeeds r groups item g) as (r1 & c & Hc & Hwf1 & Hm1 & Hc1 & Hg1 & Hreq & Hkept); [done..|].
    unfold mbind, ST_bind. rewrite Hc.
    assert (dict_get contracts (pc_symbol item) = None) as Hnone.
    { apply dict_get_None. rewrite Hkeys. apply Hfresh. by left. }
    rewrite dict_set_fresh by done.
    destruct (IH r1 (done ++ [item]) (contracts ++ [(pc_symbol item, c)])) as (r' & created & Hall & ? & ? & Hcs & Hks & Hreqs); try done.
    + split; [done|]. rewrite Forall_forall in *. intros it Hit. destruct (Hok it Hit) as (? & Hf & ? & ?).
      unfold item_ok. rewrite Hc1, dict_get_app, Hf. simpl. rewrite decide_False; [done|]. intros Heq.
      apply Hni. rewrite <- Heq. by apply list_elem_of_fmap_2.
    + intros it Hit. rewrite Hg1. apply Hgroups. by right.
    + unfold dict_keys in *. by rewrite !fmap_app, Hkeys.
    + intros it Hit. rewrite fmap_app, not_elem_of_app. split; [apply Hfresh; by right|]. csimpl.
      rewrite list_elem_of_singleton. intros Heq. apply Hni. rewrite <- Heq. by apply list_elem_of_fmap_2.
    + rewrite fmap_app. apply Forall2_app; [|constructor; [exact Hreq|constructor]]. eapply Forall2_impl; [exact Hdone|]. auto.
    + exists r', ((pc_symbol item, c) :: created). rewrite <- app_assoc in Hall, Hks, Hreqs.
      rewrite <- app_assoc in Hks, Hreqs. split_and!; try done. by rewrite Hcs, Hc1, <- app_assoc.
Qed.
End facts.

(** [create_contract_groups] is all or nothing.  On a registry whose groups
    list only registered contracts, it fails exactly when the preflight fails,
    and then no registry has changed; otherwise it registers the requested
    contracts and no others, in request order, each with the requested terms, in
    the registered group of its name, and the registries stay consistent. *)
Theorem create_contract_groups_all_or_nothing `{PyFloat F} `{!FloatOfInt F} definitions (r r' : registry F) res :
  registry_wf r -> members_registered r -> create_contract_groups definitions r = (r', res) ->
  match res with
  | Err e => prepare_contracts r definitions = Err e /\ r' = r
  | Ok u => exists prepared, prepare_contracts r definitions = Ok prepared /\
      rg_contracts r' = rg_contracts r ++ un_contracts u /\ dict_keys (un_contracts u) = pc_symbol <$> prepared /\
      Forall2 (as_requested r') prepared (un_contracts u).*2 /\ registry_wf r' /\ members_registered r'
  end.
Proof.
  intros Hwf Hm. unfold create_contract_groups, mbind, ST_bind, st_lift.
  destruct (prepare_contracts r definitions) as [prepared|e] eqn:Hp; [|intros Heq; by simplify_eq].
  destruct (prepare_contracts_ok _ _ _ Hp) as (l & -> & [Hnd Hok] & Hnames & Hin).
  destruct (get_groups_succeeds l.*1 r [] []) as (r1 & groups & Hg & Hwf1 & Hm1 & Hc1 & Hgs);
    [done..|by intros ? ?%elem_of_nil|].
  rewrite Hg. destruct (create_all_succeeds groups prepared r1 [] []) as (r2 & created & Hall & ? & ? & Hc2 & ? & ?); try done.
  - split; [done|]. eapply Forall_impl; [exact Hok|]. unfold item_ok. by rewrite Hc1.
  - intros item Hitem. by destruct (Hgs (PStr (pc_group_name item)) (Hin item Hitem)) as (g & ? & ?); exists g.
  - simpl. set_solver.
  - rewrite Hall. unfold mret, ST_ret. intros Heq. simplify_eq. exists prepared. by rewrite Hc2, Hc1.
Qed.

(** ** A concrete request *)

Definition demo_request (symbols : list string) : arg (list (pyval XQ * group_definition XQ)) :=
  Inst [(PStr "FUTURES", GroupSpec (mkContractGroupSpec (Entries (EntrySymbol <$> symbols)) (PInt 50) None))].

Lemma initial_members_registered `{PyFloat F} : members_registered (F:=F) initial_registry.
Proof.
  intros name g s. simpl. case_decide; [|done]. intros [= <-] _. unfold members. simpl.
  by rewrite lookup_singleton_eq.
Qed.

Lemma create_contract_groups_all_or_nothing_witness :
  exists u, (create_contract_groups (demo_request ["ES"; "NQ"]) (initial_registry (F:=XQ))).2 = Ok u /\
    rg_contracts (create_contract_groups (demo_request ["ES"; "NQ"]) (initial_registry (F:=XQ))).1 = un_contracts u /\
    dict_keys (un_contracts u) = ["ES"; "NQ"].
Proof.
  destruct (create_contract_groups (demo_request ["ES"; "NQ"]) initial_registry) as [r' res] eqn:Heq.
  pose proof (create_contract_groups_all_or_nothing (demo_request ["ES"; "NQ"]) initial_registry r' res
    initial_registry_wf initial_members_registered Heq) as Hall.
  destruct res as [u|e]; [|destruct Hall as [Hp _]; vm_compute in Hp; discriminate].
  destruct Hall as (prepared & Hp & Hc & Hk & _). exists u. split_and!; [reflexivity|exact Hc|].
  rewrite Hk. vm_compute in Hp. injection Hp as <-. reflexivity.
Defined.

(** A group that still lists a contract of a cleared cache breaks the hypothesis,
    and the promise: the request passes the preflight, then the first contract is
    created before the second raises. *)
Example stale_member_partial_creation :
  let stale := (Contract_create (CreateArgs (PStr "NQ") None None None None None None) (initial_registry (F:=XQ))) in
  let r := match stale.2 with
           | Ok c => (add_contract DEFAULT_CG (Inst c) (Contract_clear_cache stale.1)).1
           | Err _ => stale.1
           end in
  let request := Inst [(PStr "DEFAULT", GroupEntries (Entries [EntrySymbol "ES"; EntrySymbol "NQ"]))] in
  is_ok (prepare_contracts r request) = true /\
  is_ok (create_contract_groups request r).2 = false /\
  dict_keys (rg_contracts (create_contract_groups request r).1) = ["ES"].
Proof. vm_compute. done. Qed.
