(* ===== verification/Portfolio.v ===== *)
(** * Portfolios of strategies (portfolio.py)

    A portfolio runs several strategies on one merged clock.  Each strategy keeps
    its own account, order lists and stage values; the world of the callbacks and
    the heap of order objects are shared.  The theorems say that the merged clock
    shows every strategy exactly its own bars, in order. *)

From S2P Require Import Roundtrip Prelude Numeric Vendor Boundaries Instruments Contracts Orders Fifo.
From S2P Require Import ContractPnl Account Callbacks Sparse Stages Risk Strategy Engine Schedule Runs.
From Stdlib Require Import SpecFloat.

Open Scope Z_scope.

Section Portfolio.
Context `{PyFloat F} `{!Numpy F} `{!NumpySignals F} `{SortedDict D} {W : Type}.
Context (registry_of : W -> registry F) (pf : price_fn F W).

(** A strategy object: its configuration and what only its own runs change. *)
Record member := mkMember {
  m_oid : positive;                                    (* the identity of the Strategy object *)
  m_strategy : Strategy F D W;
  m_account : Account F D;
  m_orders : list positive;
  m_current : list positive;
  m_decisions : list (OrderDecision F);
  m_indicators : stage_values F;
  m_signals : stage_values F;
  m_iterations : SparseIterations (order_tup F D W);   (* orders_iter *)
}.

Record portfolio := mkPortfolio {
  po_world : W;
  po_heap : heap F;
  po_strategies : list (string * member);
}.

Definition set_members (p : portfolio) (l : list (string * member)) : portfolio := mkPortfolio (po_world p) (po_heap p) l.

(** [add_strategy] *)
Definition add_strategy (name : pyval F) (strategy : arg member) : ST portfolio unit := fun p =>
  match valid_name name with
  | None => (p, Err (ValueError "portfolio strategy name must be a non-empty string"))
  | Some name =>
      if dict_mem (po_strategies p) name then (p, Err (ValueError "portfolio strategy is already registered")) else
      match strategy with
      | NotInst => (p, Err (TypeError "portfolio strategy must be a Strategy"))
      | Inst m =>
          if existsb (fun m' => bool_decide (m_oid m = m_oid m')) (dict_values (po_strategies p))
          then (p, Err (ValueError "strategy instance is already registered in this portfolio"))
          else (set_members p (dict_set (po_strategies p) name m), Ok tt)
      end
  end.

(** [_selected_strategies]: the names, without repetition. *)
Definition selected_strategies (strategy_names : option (arg (list (arg string)))) (p : portfolio) : result (list string) :=
  match strategy_names with
  | None => match dict_keys (po_strategies p) with
            | [] => Err (ValueError "a portfolio operation requires at least one strategy")
            | names => Ok names
            end
  | Some NotInst => Err (TypeError "portfolio strategy_names must be a sequence of strings")
  | Some (Inst []) => Err (ValueError "a portfolio operation requires at least one strategy")
  | Some (Inst l) =>
      match mapM (fun n => match n with Inst n => Some n | NotInst => None end) l with
      | None => Err (TypeError "portfolio strategy_names must contain only strings")
      | Some names =>
          unless forallb (fun n => dict_mem (po_strategies p) n) names raise ValueError "unknown portfolio strategies" ;;
          Ok (unique_names names)
      end
  end.

(** One method of one strategy, on the shared world and heap. *)
Definition engine_of (p : portfolio) (m : member) : engine F D W :=
  mkEngine (po_world p) (po_heap p) (m_account m) (m_orders m) (m_current m) (m_decisions m).

Definition member_after (e : engine F D W) (m : member) : member :=
  mkMember (m_oid m) (m_strategy m) (en_account e) (en_orders e) (en_current e) (en_decisions e)
    (m_indicators m) (m_signals m) (m_iterations m).

Definition put_engine (name : string) (e : engine F D W) (p : portfolio) : portfolio :=
  mkPortfolio (en_world e) (en_heap e) (dict_update (po_strategies p) name (member_after e)).

Definition on_member {A} (name : string) (f : member -> ST portfolio A) : ST portfolio A := fun p =>
  match dict_get (po_strategies p) name with
  | None => (p, Err (KeyError name))
  | Some m => f m p
  end.

Definition on_engine (name : string) (f : member -> ST (engine F D W) unit) : ST portfolio unit :=
  on_member name (fun m p => let '(e, r) := f m (engine_of p m) in (put_engine name e p, r)).

(** [strategy.run_indicators()] and [strategy.run_signals()]. *)
Definition strategy_indicators (fuel : nat) (name : string) : ST portfolio unit :=
  on_member name (fun m p =>
    let '((w, iv), r) := run_indicators (m_strategy m) fuel None None false (po_world p, m_indicators m) in
    (mkPortfolio w (po_heap p) (dict_update (po_strategies p) name (fun m =>
       mkMember (m_oid m) (m_strategy m) (m_account m) (m_orders m) (m_current m) (m_decisions m) iv (m_signals m)
         (m_iterations m))), r)).

Definition strategy_signals (fuel : nat) (name : string) : ST portfolio unit :=
  on_member name (fun m p =>
    let '((w, sv), r) := run_signals (m_strategy m) (m_indicators m) fuel None None false (po_world p, m_signals m) in
    (mkPortfolio w (po_heap p) (dict_update (po_strategies p) name (fun m =>
       mkMember (m_oid m) (m_strategy m) (m_account m) (m_orders m) (m_current m) (m_decisions m) (m_indicators m) sv
         (m_iterations m))), r)).

Definition portfolio_run_indicators (fuel : nat) (strategy_names : option (arg (list (arg string)))) : ST portfolio unit :=
  fun p => (names ← st_lift (selected_strategies strategy_names p); st_iter (strategy_indicators fuel) names) p.

Definition portfolio_run_signals (fuel : nat) (strategy_names : option (arg (list (arg string)))) : ST portfolio unit :=
  fun p => (names ← st_lift (selected_strategies strategy_names p); st_iter (strategy_signals fuel) names) p.

(** ** The merged clock *)

Definition np_union1d (a b : list Z) : list Z := np_unique (a ++ b).

(** [reduce(np.union1d, timestamps_list)], restricted to the dates. *)
Definition all_timestamps (timestamps_list : list (list Z)) (start_date end_date : option Z) : result (list Z) :=
  match timestamps_list with
  | [] => Err (TypeError "reduce() of empty iterable with no initial value")
  | first :: rest =>
      let all := foldl np_union1d first rest in
      let all := match start_date with Some d => filter (fun t => d <= t) all | None => all end in
      Ok (match end_date with Some d => filter (fun t => t <= d) all | None => all end)
  end.

(** The schedule of one strategy's rules, kept in its [orders_iter]. *)
Definition generate_iterations (start_date end_date : option Z) (name : string) : ST portfolio unit :=
  on_member name (fun m p =>
    match generate_order_iterations (m_strategy m) (m_indicators m) (m_signals m) (s_rule_names (m_strategy m))
            (s_contract_groups (m_strategy m)) start_date end_date with
    | Err x => (p, Err x)
    | Ok it => (set_members p (dict_update (po_strategies p) name (fun m =>
                  mkMember (m_oid m) (m_strategy m) (m_account m) (m_orders m) (m_current m) (m_decisions m)
                    (m_indicators m) (m_signals m) it)), Ok tt)
    end).

(** The iterations of one instant: the strategies that have a bar there, with
    the index of the bar. *)
Definition due_at (grids : list (string * list Z)) (timestamp : Z) : list (string * nat) :=
  omap (fun '(name, timestamps) =>
    let idx := np_searchsorted_left timestamps timestamp in
    match timestamps !! idx with
    | Some t => if t =? timestamp then Some (name, idx) else None
    | None => None
    end) grids.

(** All iterations of a run, in the order of the loop. *)
Definition portfolio_steps (grids : list (string * list Z)) (clock : list Z) : list (string * nat) :=
  concat (due_at grids <$> clock).

Definition run_step (x : string * nat) : ST portfolio unit :=
  on_engine x.1 (fun m =>
    run_iteration (m_strategy m) registry_of pf (m_iterations m) (m_indicators m) (m_signals m) x.2).

(** [strategy.account.calc] at the last bar, for every strategy. *)
Definition final_step (s : Strategy F D W) (end_date : option Z) : ST (engine F D W) unit := fun e =>
  match final_timestamp_at_or_before (s_timestamps s) end_date with
  | Err x => (e, Err x)
  | Ok None => (e, Ok tt)
  | Ok (Some final_timestamp) =>
      let '((w, a), r) := calc pf final_timestamp (en_world e, en_account e) in
      (set_world_of e (w, (en_heap e, a)), r)
  end.

Definition final_calc (end_date : option Z) (name : string) : ST portfolio unit :=
  on_engine name (fun m => final_step (m_strategy m) end_date).

Definition check_graph (name : string) : ST portfolio unit :=
  on_member name (fun m p => (p, (fun _ => tt) <$> validate_stage_graph (m_strategy m))).

(** The strategies' timestamp arrays, by name. *)
Definition grids_of (p : portfolio) (names : list string) : list (string * list Z) :=
  omap (fun name => (fun m => (name, s_timestamps (m_strategy m))) <$> dict_get (po_strategies p) name) names.

(** [Portfolio.run_rules] *)
Definition portfolio_run_rules (strategy_names : option (arg (list (arg string)))) (start_date end_date : date_arg)
  : ST portfolio unit := fun p =>
  (names ← st_lift (selected_strategies strategy_names p);
   '(start_date, end_date) ← st_lift (validate_date_range start_date end_date);
   _ ← st_iter check_graph names;
   clock ← st_lift (all_timestamps (grids_of p names).*2 start_date end_date);
   _ ← st_iter (generate_iterations start_date end_date) names;
   _ ← st_iter run_step (portfolio_steps (grids_of p names) clock);
   st_iter (final_calc end_date) names) p.

(** [Portfolio.run] *)
Definition portfolio_run (fuel : nat) (strategy_names : option (arg (list (arg string)))) (start_date end_date : date_arg)
  : ST portfolio unit := fun p =>
  (names ← st_lift (selected_strategies strategy_names p);
   _ ← st_iter check_graph names;
   let selected := Some (Inst (Inst <$> names)) in
   _ ← portfolio_run_indicators fuel selected;
   _ ← portfolio_run_signals fuel selected;
   portfolio_run_rules selected start_date end_date) p.
End Portfolio.

Arguments member F D W : clear implicits.
Arguments portfolio F D W : clear implicits.

(** ** The merged clock is exact *)

Section clock.
Context `{PyFloat F} `{!Numpy F} `{!NumpyLaws F}.
Implicit Types (t : Z).

Definition within_dates (start_date end_date : option Z) t : Prop :=
  (forall d, start_date = Some d -> d <= t) /\ (forall d, end_date = Some d -> t <= d).

Lemma all_timestamps_spec lists start_date end_date clock :
  Forall grid lists -> all_timestamps lists start_date end_date = Ok clock ->
  grid clock /\ forall t, t ∈ clock <-> within_dates start_date end_date t /\ exists l, l ∈ lists /\ t ∈ l.
Proof.
  intros Hgrids. destruct lists as [|first rest]; [done|]. intros [= <-].
  assert (grid (foldl np_union1d first rest) /\
          forall t, t ∈ foldl np_union1d first rest <-> exists l, l ∈ first :: rest /\ t ∈ l) as [Hs Hin].
  { apply Forall_cons in Hgrids as [Hf _]. revert first Hf. induction rest as [|l rest IH]; intros first Hf.
    - simpl. split; [done|]. intros t. set_solver.
    - cbn [foldl]. destruct (IH (np_union1d first l)) as [Hs Hin]; [apply np_unique_sorted|]. split; [done|].
      intros t. rewrite Hin. unfold np_union1d. split.
      + intros (l' & [->|?]%elem_of_cons & Ht); [|exists l'; set_solver].
        apply np_unique_elem, elem_of_app in Ht as [?|?]; [exists first|exists l]; set_solver.
      + intros (l' & [->|[->|?]%elem_of_cons]%elem_of_cons & Ht); [| |exists l'; set_solver].
        all: eexists; (split; [by left|]); apply np_unique_elem, elem_of_app; auto. }
  unfold within_dates. destruct start_date as [d|], end_date as [d'|]; split; repeat apply filter_grid; try done;
    intros t; rewrite ?list_elem_of_filter, ?Hin; naive_solver.
Qed.

(** The bar of [timestamps] at an instant. *)
Definition bar_at (timestamps : list Z) t : option nat :=
  match timestamps !! count_lt timestamps t with
  | Some t' => if t' =? t then Some (count_lt timestamps t) else None
  | None => None
  end.

Lemma bar_at_Some timestamps t i : grid timestamps -> bar_at timestamps t = Some i <-> timestamps !! i = Some t.
Proof.
  intros Hg. unfold bar_at. split.
  - destruct (timestamps !! _) as [t'|] eqn:Ht; [|done]. destruct (Z.eqb_spec t' t); [|done]. intros. by simplify_eq.
  - intros Hi. rewrite (count_lt_lookup _ _ _ Hg Hi), Hi. by rewrite Z.eqb_refl.
Qed.

Lemma due_at_bar (grids : list (string * list Z)) t :
  Forall (fun x => grid x.2) grids -> due_at grids t = omap (fun x => (fun i => (x.1, i)) <$> bar_at x.2 t) grids.
Proof.
  unfold due_at, bar_at. induction 1 as [|[name ts] grids Hg Hgrids IH]; [done|]. csimpl in *.
  rewrite np_searchsorted_left_count by done. destruct (ts !! _) as [t'|]; simpl; [destruct (t' =? t); simpl|]; by rewrite IH.
Qed.

(** The bars a schedule gives to one strategy. *)
Definition bars_of (name : string) (steps : list (string * nat)) : list nat := (filter (fun x => x.1 = name) steps).*2.

Lemma bars_of_app name (l1 l2 : list (string * nat)) : bars_of name (l1 ++ l2) = bars_of name l1 ++ bars_of name l2.
Proof. unfold bars_of. by rewrite filter_app, fmap_app. Qed.

Lemma bars_of_due grids name timestamps t :
  Forall (fun x => grid x.2) grids -> NoDup grids.*1 -> (name, timestamps) ∈ grids ->
  bars_of name (due_at grids t) = option_list (bar_at timestamps t).
Proof.
  intros Hg Hnd Hin. rewrite due_at_bar by done. clear Hg.
  induction grids as [|[n ts] grids IH]; [by apply elem_of_nil in Hin|]. csimpl in *. apply NoDup_cons in Hnd as [Hn Hnd].
  assert (forall ts', (n, ts') ∉ grids) as Hout.
  { intros ts' Hts. apply Hn. apply list_elem_of_fmap. by exists (n, ts'). }
  assert (forall l, n ∉ l.*1 -> bars_of n (omap (fun x => (fun i => (x.1, i)) <$> bar_at x.2 t) l) = []) as Hnone.
  { clear. induction l as [|[m ts] l IH]; [done|]. csimpl. rewrite not_elem_of_cons. intros [Hm Hl].
    destruct (bar_at ts t); csimpl; [|by apply IH]. unfold bars_of. rewrite filter_cons_False by (simpl; congruence). by apply IH. }
  apply elem_of_cons in Hin as [[= -> ->]|Hin].
  - destruct (bar_at ts t) as [i|]; csimpl; [|by apply Hnone]. unfold bars_of. rewrite filter_cons_True by done.
    csimpl. f_equal. by apply Hnone.
  - assert (n <> name) by (intros ->; by eapply Hout). destruct (bar_at ts t); csimpl; [|by apply IH].
    unfold bars_of. rewrite filter_cons_False by done. by apply IH.
Qed.

Lemma bars_of_steps grids name timestamps clock :
  Forall (fun x => grid x.2) grids -> NoDup grids.*1 -> (name, timestamps) ∈ grids ->
  bars_of name (portfolio_steps grids clock) = concat ((fun t => option_list (bar_at timestamps t)) <$> clock).
Proof.
  intros Hg Hnd Hin. unfold portfolio_steps. induction clock as [|t clock IH]; [done|]. csimpl.
  by rewrite bars_of_app, IH, (bars_of_due _ _ timestamps).
Qed.

Lemma bars_sorted timestamps clock : grid timestamps -> grid clock ->
  StronglySorted lt (concat ((fun t => option_list (bar_at timestamps t)) <$> clock)) /\
  forall i, i ∈ concat ((fun t => option_list (bar_at timestamps t)) <$> clock) <->
    exists t, t ∈ clock /\ timestamps !! i = Some t.
Proof.
  intros Hg Hc. induction Hc as [|t clock Hs [IH1 IH2] Ht]; csimpl; [split; [constructor|set_solver]|].
  rewrite Forall_forall in Ht. destruct (bar_at timestamps t) as [i|] eqn:Hb; simpl.
  - apply bar_at_Some in Hb; [|done]. split.
    + constructor; [done|]. rewrite Forall_forall. intros j (t' & Hin & Hj)%IH2. specialize (Ht t' Hin).
      destruct (Nat.lt_total i j) as [|[->|Hlt]]; [done|simplify_eq; lia|].
      pose proof (grid_lookup_lt _ _ _ _ _ Hg Hlt Hj Hb). lia.
    + intros j. rewrite elem_of_cons, IH2. setoid_rewrite elem_of_cons. split; [naive_solver|].
      intros (t' & [->|?] & Hj); [left; by apply (grid_lookup_inj timestamps j i t)|naive_solver].
  - split; [done|]. intros j. rewrite IH2. setoid_rewrite elem_of_cons. split; [naive_solver|].
    intros (t' & [->|?] & Hj); [|naive_solver]. apply bar_at_Some in Hj; [congruence|done].
Qed.

End clock.

Section run.
Context `{PyFloat F} `{!Numpy F} `{!NumpySignals F} `{!NumpyLaws F} `{SortedDict D} {W : Type}.
Implicit Types (s : Strategy F D W) (p : portfolio F D W) (m : member F D W).

Lemma elem_of_visited s start_date end_date i : grid (s_timestamps s) ->
  i ∈ visited s start_date end_date <-> exists t, s_timestamps s !! i = Some t /\ within_dates start_date end_date t.
Proof.
  unfold visited, within_dates. set (before := fun t => match start_date with Some d => t <? d | None => false end).
  set (after := fun t => match end_date with Some d => d <? t | None => false end).
  assert (forall t, (forall d, start_date = Some d -> d <= t) <-> before t = false) as Hb.
  { intros t. unfold before. destruct start_date as [d|]; [rewrite Z.ltb_ge; naive_solver|naive_solver]. }
  assert (forall t, (forall d, end_date = Some d -> t <= d) <-> after t = false) as Ha.
  { intros t. unfold after. destruct end_date as [d|]; [rewrite Z.ltb_ge; naive_solver|naive_solver]. }
  assert (forall t t', t < t' -> after t = true -> after t' = true) as Hmono.
  { intros t t'. unfold after. destruct end_date; [rewrite !Z.ltb_lt; lia|done]. }
  setoid_rewrite Hb. setoid_rewrite Ha. clear Hb Ha. intros Hg.
  assert (forall n, i ∈ (fix go (i : nat) (l : list Z) : list nat := match l with
      | [] => [] | t :: l => if before t then go (S i) l else if after t then [] else i :: go (S i) l end) n (s_timestamps s) <->
    exists k t, i = (n + k)%nat /\ s_timestamps s !! k = Some t /\ before t = false /\ after t = false) as Hgo.
  2: { etransitivity; [apply (Hgo 0%nat)|]. naive_solver. }
  clearbody before after.
  induction Hg as [|t l Hl IH Ht]; intros n; [set_solver|]. rewrite Forall_forall in Ht.
  assert ((exists k t', i = (n + k)%nat /\ (t :: l) !! k = Some t' /\ before t' = false /\ after t' = false) <->
    (i = n /\ before t = false /\ after t = false) \/
    (exists k t', i = (S n + k)%nat /\ l !! k = Some t' /\ before t' = false /\ after t' = false)) as ->.
  { split.
    - intros ([|k] & t' & -> & Hk & ?); simplify_eq/=; [left; split; [lia|done]|right; exists k, t'; split; [lia|done]].
    - intros [(-> & ?)|(k & t' & -> & ?)]; [exists 0%nat, t; split; [lia|done]|exists (S k), t'; split; [lia|done]]. }
  destruct (before t) eqn:Hbt; [rewrite IH; split; [by right|intros [(_ & ? & _)|?]; done]|]. destruct (after t) eqn:Hat; [|rewrite elem_of_cons, IH; split; [intros [->|?]; auto|intros [(-> & _)|?]; auto]].
  split; [by intros ?%elem_of_nil|]. intros [(_ & _ & ?)|(k & t' & _ & Hk & _ & Hat')]; [done|].
  rewrite (Hmono t t') in Hat'; [done| |done]. apply Ht. by eapply list_elem_of_lookup_2.
Qed.

Lemma bars_of_visited (grids : list (string * list Z)) start_date end_date clock name s :
  Forall (fun x => grid x.2) grids -> NoDup grids.*1 -> all_timestamps grids.*2 start_date end_date = Ok clock ->
  (name, s_timestamps s) ∈ grids -> bars_of name (portfolio_steps grids clock) = visited s start_date end_date.
Proof.
  intros Hg Hnd Hclock Hs. apply all_timestamps_spec in Hclock as [Hc Hin]; [|by rewrite Forall_fmap].
  assert (grid (s_timestamps s)) as Hgs by (rewrite Forall_forall in Hg; by apply (Hg _ Hs)).
  rewrite (bars_of_steps _ _ (s_timestamps s)) by done. destruct (bars_sorted _ _ Hgs Hc) as [Hsort Helem].
  apply (StronglySorted_unique_strong lt); [lia|done|apply visited_sorted|].
  apply NoDup_Permutation; [by apply sorted_lt_NoDup..|apply sorted_lt_NoDup, visited_sorted|].
  intros i. rewrite Helem, elem_of_visited by done. setoid_rewrite Hin. split; [naive_solver|].
  intros (t & Hi & Ht). exists t. split; [|done]. split; [done|]. exists (s_timestamps s). split; [|by eapply list_elem_of_lookup_2].
  apply list_elem_of_fmap. by exists (name, s_timestamps s).
Qed.

(** What precedes what: time, then the order of the selection. *)
Definition step_before (grids : list (string * list Z)) (x y : string * nat) : Prop :=
  exists a b ts ts' t t', grids !! a = Some (x.1, ts) /\ ts !! x.2 = Some t /\
    grids !! b = Some (y.1, ts') /\ ts' !! y.2 = Some t' /\ (t < t' \/ (t = t' /\ (a < b)%nat)).

Lemma due_at_cons n ts grids t : grid ts ->
  due_at ((n, ts) :: grids) t = option_list ((fun i => (n, i)) <$> bar_at ts t) ++ due_at grids t.
Proof.
  intros Hg. unfold due_at, bar_at. csimpl. rewrite np_searchsorted_left_count by done.
  by destruct (ts !! _) as [t'|]; simpl; [destruct (t' =? t)|].
Qed.

Lemma due_sorted (grids : list (string * list Z)) t : Forall (fun x => grid x.2) grids -> forall pre post, grids = pre ++ post ->
  (forall x, x ∈ due_at post t -> exists a ts, (length pre <= a)%nat /\ grids !! a = Some (x.1, ts) /\ ts !! x.2 = Some t) /\
  StronglySorted (step_before grids) (due_at post t).
Proof.
  intros Hg pre post. revert pre. induction post as [|[n ts] post IH]; intros pre Hpre; [split; [by intros ? ?%elem_of_nil|constructor]|].
  destruct (IH (pre ++ [(n, ts)])) as [IH1 IH2]; [by rewrite <- app_assoc|].
  assert (grid ts) as Hgts by (rewrite Hpre in Hg; by apply Forall_app in Hg as [_ [??]%Forall_cons]).
  rewrite due_at_cons by done.
  rewrite length_app in IH1. cbn [length] in IH1. csimpl.
  assert (forall i, bar_at ts t = Some i -> grids !! length pre = Some (n, ts) /\ ts !! i = Some t) as Hhead.
  { intros i Hi. split; [by rewrite Hpre, lookup_app_r, Nat.sub_diag by lia|by apply bar_at_Some]. }
  destruct (bar_at ts t) as [i|]; csimpl.
  - destruct (Hhead i eq_refl) as [Ha Hi]. split.
    + intros x [->|Hx]%elem_of_cons; [exists (length pre), ts; split_and!; [lia|done..]|].
      destruct (IH1 x Hx) as (a & ts' & ? & ?). exists a, ts'. split; [lia|done].
    + constructor; [done|]. rewrite Forall_forall. intros x Hx. destruct (IH1 x Hx) as (a & ts' & ? & ? & ?).
      exists (length pre), a, ts, ts', t, t. split_and!; try done. right. split; [done|lia].
  - split; [|done]. intros x Hx. destruct (IH1 x Hx) as (a & ts' & ? & ?). exists a, ts'. split; [lia|done].
Qed.

Lemma steps_sorted (grids : list (string * list Z)) clock :
  Forall (fun x => grid x.2) grids -> grid clock -> StronglySorted (step_before grids) (portfolio_steps grids clock).
Proof.
  intros Hg. unfold portfolio_steps. induction 1 as [|t clock Hs IH Ht]; csimpl; [constructor|].
  rewrite Forall_forall in Ht. apply StronglySorted_app_2; [|by eapply (due_sorted grids t Hg [])|done].
  intros x y Hx Hy. apply list_elem_of_In, in_concat in Hy as (l & Hl & Hy). apply list_elem_of_In in Hy.
  apply list_elem_of_In, list_elem_of_fmap in Hl as (t' & -> & Ht').
  destruct (proj1 (due_sorted grids t Hg [] grids eq_refl) x Hx) as (a & ts & _ & ? & ?).
  destruct (proj1 (due_sorted grids t' Hg [] grids eq_refl) y Hy) as (b & ts' & _ & ? & ?).
  exists a, b, ts, ts', t, t'. split_and!; try done. left. by apply Ht.
Qed.

(** C34: The merged clock of a portfolio is exact: every selected strategy goes
    through exactly the bars it would visit alone between the dates, once each and
    in its own order, and across strategies the iterations are in order of time,
    simultaneous ones in the order of the selection. *)
Theorem portfolio_clock_exact (grids : list (string * list Z)) start_date end_date clock :
  Forall (fun x => grid x.2) grids -> NoDup grids.*1 -> all_timestamps grids.*2 start_date end_date = Ok clock ->
  (forall name s, (name, s_timestamps s) ∈ grids ->
     bars_of name (portfolio_steps grids clock) = visited s start_date end_date) /\
  StronglySorted (step_before grids) (portfolio_steps grids clock).
Proof.
  intros Hg Hnd Hclock. assert (grid clock) by (apply all_timestamps_spec in Hclock as [??]; [done|by rewrite Forall_fmap]).
  split; [|by apply steps_sorted]. intros name s Hs. by apply bars_of_visited.
Qed.

(** ** A portfolio that runs one strategy is that strategy *)

Context (registry_of : W -> registry F) (pf : price_fn F W).

(** The strategy's configuration, stage values and schedule. *)
Definition fixed_part m := (m_oid m, m_strategy m, m_indicators m, m_signals m, m_iterations m).

(** [p'] is [p] after work on the strategy [name], which is now [m'] with the
    engine state [e]. *)
Definition holds name p p' m' e : Prop :=
  dict_get (po_strategies p') name = Some m' /\ engine_of p' m' = e /\
  forall n, n <> name -> dict_get (po_strategies p') n = dict_get (po_strategies p) n.

Lemma on_engine_holds name f p p0 m e e' r :
  holds name p p0 m e -> f m e = (e', r) ->
  exists p' m', on_engine name f p0 = (p', r) /\ holds name p p' m' e' /\ fixed_part m' = fixed_part m.
Proof.
  intros (Hm & He & Hothers) Hf. unfold on_engine, on_member. rewrite Hm, He, Hf.
  exists (put_engine name e' p0), (member_after e' m). split; [reflexivity|]. split; [|reflexivity].
  unfold holds, put_engine. cbn [po_strategies]. split_and!; [by rewrite dict_get_update, decide_True, Hm|by destruct e'|]. intros n Hn. rewrite dict_get_update, decide_False by done. by apply Hothers.
Qed.

Lemma steps_hold name p bars : forall p0 m e e' r,
  holds name p p0 m e ->
  st_iter (run_iteration (m_strategy m) registry_of pf (m_iterations m) (m_indicators m) (m_signals m)) bars e = (e', r) ->
  exists p' m', st_iter (run_step registry_of pf) ((fun i => (name, i)) <$> bars) p0 = (p', r) /\
    holds name p p' m' e' /\ fixed_part m' = fixed_part m.
Proof.
  induction bars as [|i bars IH]; intros p0 m e e' r Hh; cbn [st_iter fmap list_fmap].
  - unfold mret, ST_ret. intros [= <- <-]. by exists p0, m.
  - unfold mbind, ST_bind. destruct (run_iteration _ _ _ _ _ _ i e) as [e1 r1] eqn:Hrun.
    destruct (on_engine_holds _ (fun m => run_iteration (m_strategy m) registry_of pf (m_iterations m) (m_indicators m) (m_signals m) i)
      _ _ _ _ _ _ Hh Hrun) as (p1 & m1 & Hstep & Hh1 & Hfix).
    assert (run_step registry_of pf (name, i) p0 = (p1, r1)) as -> by exact Hstep. destruct r1 as [[]|x]; intros Hit; [|injection Hit as <- <-; by exists p1, m1].
    pose proof Hfix as Hfix1. injection Hfix as _ H1 H2 H3 H4. rewrite <- H1, <- H2, <- H3, <- H4 in Hit.
    destruct (IH _ _ _ _ _ Hh1 Hit) as (p' & m' & ? & ? & Hfix'). exists p', m'. split_and!; [done..|].
    by rewrite Hfix'.
Qed.

Lemma due_at_single name ts t : grid ts -> due_at [(name, ts)] t = (fun i => (name, i)) <$> option_list (bar_at ts t).
Proof. intros Hg. rewrite due_at_cons by done. unfold due_at. simpl. by destruct (bar_at ts t). Qed.

(** The steps of one strategy are its own bars. *)
Lemma single_steps name s start_date end_date clock :
  grid (s_timestamps s) -> all_timestamps [s_timestamps s] start_date end_date = Ok clock ->
  portfolio_steps [(name, s_timestamps s)] clock = (fun i => (name, i)) <$> visited s start_date end_date.
Proof.
  intros Hg Hc. rewrite <- (bars_of_visited [(name, s_timestamps s)] start_date end_date clock name s);
    [|by repeat constructor|by apply NoDup_singleton|done|by left].
  clear Hc. unfold portfolio_steps. induction clock as [|t clock IH]; [done|].
  cbn [fmap list_fmap concat]. rewrite bars_of_app, fmap_app, <- IH, due_at_single by done. f_equal.
  destruct (bar_at (s_timestamps s) t); simpl; [|done]. unfold bars_of. by rewrite filter_cons_True.
Qed.

Lemma selected_one name p m :
  dict_get (po_strategies p) name = Some m -> selected_strategies (Some (Inst [Inst name])) p = Ok [name].
Proof. intros Hm. unfold selected_strategies, dict_mem. simpl. by rewrite Hm. Qed.

Lemma iter_one {A} (f : string -> ST A unit) name (x x' : A) r : f name x = (x', r) -> st_iter f [name] x = (x', r).
Proof. intros Hf. cbn [st_iter]. unfold mbind, ST_bind. rewrite Hf. by destruct r as [[]|]. Qed.

Lemma holds_refl name p m : dict_get (po_strategies p) name = Some m -> holds name p p m (engine_of p m).
Proof. done. Qed.

(** Computing the schedule changes nothing else. *)
Lemma generate_iterations_holds start_date end_date name p m it :
  dict_get (po_strategies p) name = Some m ->
  generate_order_iterations (m_strategy m) (m_indicators m) (m_signals m) (s_rule_names (m_strategy m))
    (s_contract_groups (m_strategy m)) start_date end_date = Ok it ->
  exists p1 m1, generate_iterations start_date end_date name p = (p1, Ok tt) /\ holds name p p1 m1 (engine_of p m) /\
    (m_strategy m1, m_indicators m1, m_signals m1, m_iterations m1) = (m_strategy m, m_indicators m, m_signals m, it).
Proof.
  intros Hm Hit. unfold generate_iterations, on_member. rewrite Hm, Hit.
  eexists _, (mkMember (m_oid m) (m_strategy m) (m_account m) (m_orders m) (m_current m) (m_decisions m)
                (m_indicators m) (m_signals m) it).
  split; [reflexivity|]. split; [|reflexivity]. unfold holds, set_members. cbn [po_strategies].
  split_and!; [by rewrite dict_get_update, decide_True, Hm|done|]. intros n Hn. by rewrite dict_get_update, decide_False.
Qed.

(** A portfolio that runs one of its strategies does what the strategy does:
    the same world, heap, account, order lists and decisions at the end, the same
    exception if there is one, and the other strategies are as they were. *)
Theorem portfolio_runs_one p name m start_date end_date order p' res :
  dict_get (po_strategies p) name = Some m -> grid (s_timestamps (m_strategy m)) ->
  validate_stage_graph (m_strategy m) = Ok order -> s_run_final_calc (m_strategy m) = true ->
  portfolio_run_rules registry_of pf (Some (Inst [Inst name])) start_date end_date p = (p', res) ->
  exists m', holds name p p' m'
    (run_rules (m_strategy m) registry_of pf None None start_date end_date (m_indicators m) (m_signals m) (engine_of p m)).1 /\
    res = (run_rules (m_strategy m) registry_of pf None None start_date end_date (m_indicators m) (m_signals m) (engine_of p m)).2.
Proof.
  intros Hm Hg Horder Hfinal. unfold portfolio_run_rules, run_rules. set (s := m_strategy m) in *.
  unfold mbind at 1 2 3 4 5 6, ST_bind, st_lift. rewrite (selected_one _ _ _ Hm).
  unfold validated_stage_names, validated_stage_groups. cbn [mbind result_bind].
  destruct (validate_date_range start_date end_date) as [[sd ed]|x]; cbn [mbind result_bind];
    [|intros [= <- <-]; exists m; by split].
  assert (check_graph name p = (p, Ok tt)) as Hcheck.
  { unfold check_graph, on_member. rewrite Hm. fold s. by rewrite Horder. }
  rewrite (iter_one _ _ _ _ _ Hcheck).
  assert (grids_of p [name] = [(name, s_timestamps s)]) as -> by (unfold grids_of; simpl; by rewrite Hm).
  destruct (all_timestamps [(name, s_timestamps s)].*2 sd ed) as [clock|x] eqn:Hclock; [|done].
  rewrite (single_steps name s sd ed clock) by done.
  destruct (generate_order_iterations s (m_indicators m) (m_signals m) (s_rule_names s) (s_contract_groups s) sd ed)
    as [it|x] eqn:Hit; cbn [mbind result_bind].
  2: { assert (generate_iterations sd ed name p = (p, Err x)) as Hgen.
       { unfold generate_iterations, on_member. rewrite Hm. fold s. by rewrite Hit. }
       rewrite (iter_one _ _ _ _ _ Hgen). intros [= <- <-]. exists m. by split. }
  destruct (generate_iterations_holds sd ed name p m it Hm Hit) as (p1 & m1 & Hgen & Hh1 & [= Hs1 Hi1 Hv1 Hit1]).
  rewrite (iter_one _ _ _ _ _ Hgen).
  destruct (st_iter (run_iteration s registry_of pf it _ _) _ _) as [e2 r2] eqn:Hrun.
  fold s in Hs1. rewrite <- Hs1, <- Hi1, <- Hv1, <- Hit1 in Hrun. rewrite Hs1 in Hrun at 2.
  destruct (steps_hold _ _ _ _ _ _ _ _ Hh1 Hrun) as (p2 & m2 & -> & Hh2 & Hfix2).
  destruct r2 as [[]|x]; [|intros [= <- <-]; by exists m2]. rewrite Hfinal.
  assert (m_strategy m2 = s) as Hs2 by (unfold fixed_part in Hfix2; congruence).
  fold (final_step pf s ed e2). destruct (final_step pf s ed e2) as [e3 r3] eqn:Hcalc.
  destruct (on_engine_holds name (fun m => final_step pf (m_strategy m) ed) _ _ _ _ e3 r3 Hh2) as (p3 & m3 & Hfin & Hh3 & _);
    [by rewrite Hs2|].
  rewrite (iter_one (final_calc pf ed) _ _ _ _ Hfin). intros [= <- <-]. by exists m3.
Qed.
End run.

(** ** Concrete portfolios *)

Definition demo_grids : list (string * list Z) := [("a", [1; 2; 3]); ("b", [2; 4])]%string.

Lemma portfolio_clock_exact_witness :
  portfolio_steps (F:=spec_float) demo_grids [1; 2; 3; 4] = [("a", 0); ("a", 1); ("b", 0); ("a", 2); ("b", 1)]%string%nat /\
  bars_of "a" (portfolio_steps (F:=spec_float) demo_grids [1; 2; 3; 4]) = visited demo None None.
Proof.
  split; [vm_compute; reflexivity|].
  assert (all_timestamps (F:=spec_float) demo_grids.*2 None None = Ok [1; 2; 3; 4]) as Hclock by (vm_compute; reflexivity).
  assert (Forall (fun x => grid x.2) demo_grids) as Hgrids by (repeat constructor).
  assert (NoDup demo_grids.*1) as Hnd by (apply (bool_decide_unpack _); vm_compute; exact I).
  refine (proj1 (portfolio_clock_exact (D:=sorted_items) (W:=unit) demo_grids None None [1; 2; 3; 4] Hgrids Hnd Hclock)
    "a"%string demo _). by left.
Defined.

Definition demo_member : member spec_float sorted_items unit :=
  mkMember 1 demo float_account [] [] [] [] demo_signals (mkSparse 3 []).
Definition demo_portfolio : portfolio spec_float sorted_items unit := mkPortfolio tt ∅ [("a", demo_member)]%string.

Definition demo_portfolio_run : portfolio spec_float sorted_items unit * result unit :=
  portfolio_run_rules (fun _ => demo_group_registry) demo_price (Some (Inst [Inst "a"%string])) DNone DNone demo_portfolio.

(** The portfolio's strategy trades at instant 2, as it does alone. *)
Lemma portfolio_runs_one_witness :
  demo_portfolio_run.2 = demo_run.2 /\
  exists m', dict_get (po_strategies demo_portfolio_run.1) "a"%string = Some m' /\
    m_account m' = en_account demo_run.1 /\ (t_timestamp <$> ac_trades (m_account m')) = [2].
Proof.
  assert (is_ok (validate_stage_graph demo) = true) as Hgraph by (vm_compute; reflexivity).
  destruct (validate_stage_graph demo) as [order|] eqn:Horder; [|discriminate].
  destruct (portfolio_runs_one (fun _ => demo_group_registry) demo_price demo_portfolio "a" demo_member DNone DNone order
    demo_portfolio_run.1 demo_portfolio_run.2) as (m' & (Hm' & He & _) & Hres);
    [reflexivity|repeat constructor|exact Horder|reflexivity|apply surjective_pairing|].
  split; [exact Hres|]. exists m'. split; [exact Hm'|].
  assert (m_account m' = en_account demo_run.1) as Ha by (change (m_account m') with (en_account (engine_of demo_portfolio_run.1 m'));
    rewrite He; reflexivity).
  split; [exact Ha|]. rewrite Ha. vm_compute. reflexivity.
Defined.
