(* ===== verification/Calendar.v ===== *)
(** * Trading calendars (holiday_calendars.py)

    A [datetime64] is its int64 tick count, NaT being the least int64, as the
    code itself views it; arrays are one-dimensional.  The business-day functions
    of NumPy are the class [NumpyBusdays]; [BusdayLaws] is what its documentation
    says of them.  The calendar of an exchange is the [busdaycalendar] that
    [Calendar.__init__] builds from the vendor's holidays. *)

From S2P Require Import Prelude Numeric Vendor Boundaries.

#[local] Open Scope Z_scope.

(** ** Scalars and arrays *)

Inductive nd (A : Type) := Scalar (x : A) | Array (l : list A).
Arguments Scalar {A} x.
Arguments Array {A} l.

#[export] Instance nd_fmap : FMap nd := fun A B f x =>
  match x with Scalar x => Scalar (f x) | Array l => Array (f <$> l) end.

Definition nd_values {A} (x : nd A) : list A := match x with Scalar x => [x] | Array l => l end.

(** An element-wise function that may raise. *)
Definition nd_traverse {A B} (f : A -> result B) (x : nd A) : result (nd B) :=
  match x with Scalar x => Scalar <$> f x | Array l => Array <$> mapM f l end.

(** [np.broadcast_arrays], on scalars and one-dimensional arrays *)
Definition broadcast {A B} (x : nd A) (y : nd B) : result (nd (A * B)) :=
  match x, y with
  | Scalar a, Scalar b => Ok (Scalar (a, b))
  | Scalar a, Array m => Ok (Array (pair a <$> m))
  | Array l, Scalar b => Ok (Array ((fun a => (a, b)) <$> l))
  | Array [a], Array m => Ok (Array (pair a <$> m))
  | Array l, Array [b] => Ok (Array ((fun a => (a, b)) <$> l))
  | Array l, Array m =>
      unless bool_decide (length l = length m) raise ValueError "operands could not be broadcast together" ;;
      Ok (Array (zip l m))
  end.

(** ** Dates *)

Definition NaT : Z := - 2 ^ 63.
Definition isnat (d : Z) : bool := d =? NaT.
Definition max_int64 : Z := 2 ^ 63 - 1.
Definition is_int64 (z : Z) : bool := (- 2 ^ 63 <=? z) && (z <? 2 ^ 63).

(** [_DAY_TICKS] *)
Definition DAY_TICKS : list (string * Z) :=
  [("D", 1); ("h", 24); ("m", 1440); ("s", 86400); ("ms", 86400000); ("us", 86400000000); ("ns", 86400000000000)]%string.

(** A [datetime64] or [timedelta64] scalar or array of some unit, such as
    M8[25us]. *)
Record datetimes := mkDatetimes { dt_unit : string; dt_step : Z; dt_ticks : nd Z }.

Inductive date_value :=
  | Datetime64 (v : datetimes)
  | DateText (s : string)
  | PyDate (unit : string) (ticks : Z)        (* datetime.date, datetime.datetime *)
  | DateSeries (v : option datetimes)         (* pl.Series; None: neither a Date nor a Datetime column *)
  | OtherValue (oid : positive).

(** [np.busdaycalendar]: the week mask from Monday on, and the holidays, which
    NumPy keeps normalized. *)
Record busdaycalendar := mkBusdays { weekmask : list bool; holidays : list Z }.

Class NumpyBusdays := {
  np_to_datetime64 : date_value -> result (string * Z * Z);   (* np.datetime64(val): unit, step, ticks *)
  np_astype_days : string -> Z -> Z -> Z;                     (* .astype("M8[D]") of one element *)
  np_time_unit : string -> Z -> string * Z;                   (* unit and step of dtime - dtime.astype("M8[D]") *)
  np_time_of_day : string -> Z -> Z -> Z;                     (* its ticks *)
  np_arange_arrays : list (Z * Z) -> result (list Z);         (* np.arange with array end points *)
  np_is_busday : busdaycalendar -> Z -> bool;
  np_busday_count : busdaycalendar -> Z -> Z -> Z;
  np_busday_offset : busdaycalendar -> Z -> Z -> string -> result Z;
}.

Section calendar.
Context {F : Type} `{PyFloat F} `{Numpy F} `{NumpyBusdays}.

(** [_polars_datetimes] *)
Definition polars_datetimes (values : option datetimes) : result datetimes :=
  match values with
  | None => Err (TypeError "calendar series must have a Polars Date or Datetime dtype")
  | Some v => Ok v
  end.

Definition astype_days (v : datetimes) : nd Z := np_astype_days (dt_unit v) (dt_step v) <$> dt_ticks v.

(** [isinstance(d.astype(datetime.datetime), int)]: the day is outside the
    range of [datetime.date]. *)
Definition beyond_python (d : Z) : bool := negb (isnat d) && negb ((-719162 <=? d) && (d <=? 2932896)).

(** [_as_np_date] *)
Definition as_np_date (val : date_value) : result (option (nd Z)) :=
  match val with
  | Datetime64 v => Ok (Some (astype_days v))
  | DateText _ | PyDate _ _ =>
      '(unit, step, ticks) ← np_to_datetime64 val;
      let np_date := np_astype_days unit step ticks in
      whenever beyond_python np_date raise GenericException "invalid date" ;;
      Ok (Some (Scalar np_date))
  | DateSeries v => v ← polars_datetimes v; Ok (Some (astype_days v))
  | OtherValue _ => Ok None
  end.

(** [_normalize_datetime]: the days, the time of day, and its unit *)
Definition normalize_datetime (val : date_value) : result (nd (Z * Z) * string * Z) :=
  v ← match val with
      | Datetime64 v => Ok v
      | DateSeries v => polars_datetimes v
      | _ => '(unit, step, ticks) ← np_to_datetime64 val; Ok (mkDatetimes unit step (Scalar ticks))
      end;
  let unit := dt_unit v in
  let step := dt_step v in
  match dict_get DAY_TICKS unit with
  | Some day_ticks =>
      let time_step := if day_ticks mod step =? 0 then step else 1 in
      let split ticks :=
        if isnat ticks then (NaT, NaT) else (ticks * step / day_ticks, (ticks * step) mod day_ticks / time_step) in
      let dates := split <$> dt_ticks v in
      unless forallb (fun '(day, time) => is_int64 day && is_int64 time) (nd_values dates)
        raise OverflowError "Python int too large to convert to C long" ;;
      Ok (dates, unit, time_step)
  | None =>
      let '(time_unit, time_step) := np_time_unit unit step in
      Ok ((fun ticks => (np_astype_days unit step ticks, np_time_of_day unit step ticks)) <$> dt_ticks v,
          time_unit, time_step)
  end.

Definition cumsum (l : list Z) : list Z := (fun i => sumZ (take (S i) l)) <$> seq 0 (length l).

(** [_business_day_ordinal] *)
Definition business_day_ordinal (calendar : busdaycalendar) (date : Z) : Z :=
  let open_days := Z.b2z <$> weekmask calendar in
  let prefix := 0 :: cumsum (drop 3 open_days ++ take 3 open_days) in
  let partial := default 0 (prefix !! Z.to_nat (date mod 7)) in
  let weekdays := date / 7 * sumZ open_days + partial in
  weekdays - Z.of_nat (np_searchsorted_left (F:=F) (holidays calendar) date).

(** [s > e], which NaT never satisfies *)
Definition date_gt (x : Z * Z) : bool := negb (isnat x.1) && negb (isnat x.2) && (x.2 <? x.1).
Definition add_day (d : Z) : Z := if isnat d then NaT else wrap64 (d + 1).

(** [_normalize] *)
Definition normalize (start end_ : date_value) (include_first include_last : bool) : result (nd (Z * Z)) :=
  s ← as_np_date start;
  e ← as_np_date end_;
  match s, e with
  | Some s, Some e =>
      pairs ← broadcast s e;
      whenever existsb date_gt (nd_values pairs) raise ValueError "start date must not be after end date" ;;
      let s : nd Z := if include_first then s else add_day <$> s in
      let e : nd Z := if include_last then add_day <$> e else e in
      pairs ← broadcast s e;
      let pairs : nd (Z * Z) := (fun x => if date_gt x then (x.2, x.2) else x) <$> pairs in
      Ok pairs
  | _, _ => Err (ValueError "start and end must be supported date values")
  end.

(** [Calendar.is_trading_day] *)
Definition is_trading_day (bus_day_cal : busdaycalendar) (dates : date_value) : result (nd bool) :=
  normalized ← as_np_date dates;
  match normalized with
  | None => Err (ValueError "dates must be supported date values")
  | Some d => Ok (np_is_busday bus_day_cal <$> (d : nd Z))
  end.

(** 1900-01-01 *)
Definition dummy_date : Z := -25567.

(** [Calendar.num_trading_days] *)
Definition num_trading_days (bus_day_cal : busdaycalendar) (start end_ : date_value) (include_first include_last : bool)
  : result (nd F) :=
  pairs ← normalize start end_ include_first include_last;
  match pairs with
  | Array l =>
      let mask := (fun '(s, e) => isnat s || isnat e) <$> l in
      let l := zip_with (fun (m : bool) '(s, e) => if m then (dummy_date, dummy_date) else (s, e)) mask l in
      let vector_count := (fun '(s, e) => f_of_Z (np_busday_count bus_day_cal s e)) <$> l in
      Ok (Array (zip_with (fun (m : bool) count => if m then f_nan else count) mask vector_count))
  | Scalar (s, e) =>
      Ok (Scalar (if isnat s || isnat e then f_nan else f_of_Z (np_busday_count bus_day_cal s e)))
  end.

(** [Calendar.get_trading_days] *)
Definition get_trading_days (bus_day_cal : busdaycalendar) (start end_ : date_value) (include_first include_last : bool)
  : result (list Z) :=
  pairs ← normalize start end_ include_first include_last;
  dates ← match pairs with
          | Scalar (s, e) =>
              whenever isnat s || isnat e raise ValueError "arange: cannot compute length" ;;
              Ok (seqZ s (e - s))
          | Array l => np_arange_arrays l
          end;
  Ok (filter (fun d => np_is_busday bus_day_cal d = true) dates).

(** The numbers of days to add: an integer, an integer array, or anything else. *)
Inductive day_offsets := IntOffsets (n : nd Z) | OtherOffsets.

(** The offsets under the roll "allow": on a closed day the rolled day counts
    as day one. *)
Definition allow_offset (bus_day_cal : busdaycalendar) (x : (Z * Z) * Z) : Z :=
  let '((date, _), n) := x in if negb (np_is_busday bus_day_cal date) && (0 <? n) then n - 1 else n.

(** One start date with its time of day and its rolled date. *)
Definition rolled_date (bus_day_cal : busdaycalendar) (roll : string) (x : Z * Z) : result (Z * Z * Z) :=
  base ← np_busday_offset bus_day_cal x.1 0 roll; Ok (x.1, x.2, base).

Definition offset_date (bus_day_cal : busdaycalendar) (roll : string) (x : (Z * Z * Z) * Z) : result (Z * Z * Z) :=
  let '((date, time, base), n) := x in out ← np_busday_offset bus_day_cal date n roll; Ok (out, time, base).

(** The offset did not arrive [n] trading days from the rolled date. *)
Definition wrong_offset (bus_day_cal : busdaycalendar) (x : (Z * Z * Z) * Z) : bool :=
  let '((out, _, base), n) := x in
  negb (isnat base) &&
  (isnat out || negb (business_day_ordinal bus_day_cal out - business_day_ordinal bus_day_cal base =? n)).

(** Rolling went further than all holidays and a week. *)
Definition wrong_roll (bus_day_cal : busdaycalendar) (x : Z * Z * Z) : bool :=
  let '(date, _, base) := x in
  negb (isnat date) && (7 * (Z.of_nat (length (holidays bus_day_cal)) + 1) <? Z.abs (base - date)) && negb (isnat base).

(** [Calendar.add_trading_days] *)
Definition add_trading_days (bus_day_cal : busdaycalendar) (start : date_value) (num_days : day_offsets) (roll : string)
  : result datetimes :=
  match num_days with
  | OtherOffsets => Err (TypeError "num_days must be an integer or an integer array; booleans are not allowed")
  | IntOffsets num_days =>
      '(dates, unit, step) ← normalize_datetime start;
      num_days ← (if bool_decide (roll = "allow"%string)
                  then pairs ← broadcast dates num_days; Ok (allow_offset bus_day_cal <$> (pairs : nd _))
                  else Ok num_days);
      let roll := if bool_decide (roll = "allow"%string) then "forward"%string else roll in
      bases ← nd_traverse (rolled_date bus_day_cal roll) dates;
      pairs ← broadcast bases num_days;
      outs ← nd_traverse (offset_date bus_day_cal roll) pairs;
      checks ← broadcast outs num_days;
      whenever existsb (wrong_offset bus_day_cal) (nd_values checks) || existsb (wrong_roll bus_day_cal) (nd_values bases)
        raise OverflowError "trading-day offset exceeds the representable date range" ;;
      match dict_get DAY_TICKS unit with
      | None => Err (KeyError unit)
      | Some day_ticks =>
          let ticks '(out, time, _) := out * (day_ticks / step) + time in
          let missing '(out, time, _) := isnat out || isnat time in
          whenever existsb (fun x => negb (missing x) && (max_int64 <? Z.abs (ticks x))) (nd_values outs)
            raise OverflowError "trading-day offset exceeds the representable timestamp range" ;;
          Ok (mkDatetimes unit step ((fun x => if missing x then NaT else ticks x) <$> (outs : nd _)))
      end
  end.
End calendar.
