(* ===== verification/CalendarFacts.v ===== *)
(** * What the trading calendars promise

    The business-day ordinal is exact, so the displacement check of
    [add_trading_days] makes its results right whatever NumPy does near the
    limits of int64; counting and listing trading days agree with the
    definition of a trading day. *)

From S2P Require Import Prelude Numeric Vendor Boundaries Calendar.

#[local] Open Scope Z_scope.

(** ** Trading days *)

(** Monday is day 0 of the week mask; day 0 of the epoch is a Thursday. *)
Definition open_day (cal : busdaycalendar) (d : Z) : bool :=
  nth (Z.to_nat ((d + 3) mod 7)) (weekmask cal) false && negb (bool_decide (d ∈ holidays cal)).

(** The trading days of [a, b), and their number *)
Definition trading_days (cal : busdaycalendar) (a b : Z) : list Z := filter (fun d => open_day cal d = true) (seqZ a (b - a)).
Definition count_open (cal : busdaycalendar) (a b : Z) : Z := Z.of_nat (length (trading_days cal a b)).

(** What [np.busdaycalendar] guarantees of its fields: seven days, not all
    closed; holidays in increasing order, on open weekdays only. *)
Record normalized (cal : busdaycalendar) : Prop := {
  norm_week : length (weekmask cal) = 7%nat;
  norm_open : true ∈ weekmask cal;
  norm_sorted : StronglySorted Z.lt (holidays cal);
  norm_masked : Forall (fun d => nth (Z.to_nat ((d + 3) mod 7)) (weekmask cal) false = true) (holidays cal);
}.

(** A date that int64 can hold and that is not NaT *)
Definition representable (d : Z) : Prop := - 2 ^ 63 < d < 2 ^ 63.

(** The month of a day, counted from March of year 0 (the proleptic Gregorian
    calendar repeats every 146097 days). *)
Definition month_of_day (d : Z) : Z :=
  let era := (d + 719468) / 146097 in
  let doe := (d + 719468) mod 146097 in
  let yoe := (doe - doe / 1460 + doe / 36524 - doe / 146096) / 365 in
  let doy := doe - (365 * yoe + yoe / 4 - yoe / 100) in
  (era * 400 + yoe) * 12 + (5 * doy + 2) / 153.

(** No trading day in what is left of the month of [d], either way *)
Definition closed_month (cal : busdaycalendar) (d first : Z) : Prop :=
  Forall (fun o => month_of_day o = month_of_day d -> open_day cal o = false) (seqZ first 31).

(** No roll goes further than all holidays and a week. *)
Definition roll_range (cal : busdaycalendar) : Z := 7 * (Z.of_nat (length (holidays cal)) + 1).

(** The valid day a date is rolled to: the first at or after it, the last at or
    before it, or for a modified roll the other one of these when the first choice
    crosses the border of the month. *)
Definition rolls_to (cal : busdaycalendar) (roll : string) (d b : Z) : Prop :=
  open_day cal b = true /\
  let later := d <= b /\ count_open cal d b = 0 in
  let earlier := b <= d /\ count_open cal (b + 1) (d + 1) = 0 in
  if bool_decide (roll ∈ ["forward"; "following"]%string) then later
  else if bool_decide (roll ∈ ["backward"; "preceding"]%string) then earlier
  else if bool_decide (roll ∈ ["raise"; "nat"]%string) then b = d
  else if bool_decide (roll = "modifiedfollowing"%string) then
    (later /\ b < d + 31 /\ month_of_day b = month_of_day d) \/
    (earlier /\ closed_month cal d d /\ representable (d + roll_range cal))
  else if bool_decide (roll = "modifiedpreceding"%string) then
    (earlier /\ d - 31 < b /\ month_of_day b = month_of_day d) \/
    (later /\ closed_month cal d (d - 30) /\ representable (d - roll_range cal))
  else False.

(** The signed number of trading days from [b] to [o] *)
Definition displacement (cal : busdaycalendar) (b o : Z) : Z :=
  if b <=? o then count_open cal b o else - count_open cal o b.

(** What the documentation says of the business-day functions.  Beyond int64
    [busday_offset] wraps around without an exception: nothing is said of it
    then. *)
Class BusdayLaws `{NumpyBusdays} := {
  np_is_busday_spec cal d : normalized cal -> np_is_busday cal d = negb (isnat d) && open_day cal d;
  np_busday_count_spec cal s e : normalized cal -> representable s -> representable e -> s <= e < s + 2 ^ 62 ->
    np_busday_count cal s e = count_open cal s e;
  np_busday_offset_spec cal d n roll b o : normalized cal -> representable d -> rolls_to cal roll d b ->
    representable b -> open_day cal o = true -> displacement cal b o = n -> representable o ->
    np_busday_offset cal d n roll = Ok o;
  np_busday_offset_int64 cal d n roll o : np_busday_offset cal d n roll = Ok o -> o = NaT \/ representable o;
}.

(** Under the roll "nat" a date that is not a valid day gives NaT. *)
Class BusdayNat `{NumpyBusdays} :=
  np_busday_offset_nat cal d n : normalized cal -> representable d -> open_day cal d = false ->
    np_busday_offset cal d n "nat" = Ok NaT.

(** [add_trading_days] lands on [o]: from the rolled date, [n] trading days on;
    under "allow" a positive [n] counts the trading days after the date itself,
    whether it is one or not. *)
Definition forward_roll (roll : string) : string := if bool_decide (roll = "allow"%string) then "forward"%string else roll.

Definition lands (cal : busdaycalendar) (roll : string) (d n o : Z) : Prop :=
  open_day cal o = true /\
  if bool_decide (roll = "allow"%string) && (0 <? n) then d < o /\ count_open cal (d + 1) (o + 1) = n
  else exists b, rolls_to cal (forward_roll roll) d b /\ displacement cal b o = n.

(** The offset from the rolled date *)
Definition net_offset (cal : busdaycalendar) (roll : string) (d n : Z) : Z :=
  if bool_decide (roll = "allow"%string) && (0 <? n) && negb (open_day cal d) then n - 1 else n.

(** ** Arrays *)

Lemma nd_fmap_compose {A B C} (f : A -> B) (g : B -> C) (x : nd A) : g <$> (f <$> x) = (g ∘ f) <$> x.
Proof. destruct x; [done|]. unfold fmap, nd_fmap. by rewrite list_fmap_compose. Qed.

Lemma nd_fmap_id {A} (f : A -> A) (x : nd A) : (forall a, f a = a) -> f <$> x = x.
Proof. intros Hf. destruct x; unfold fmap, nd_fmap; f_equal; [done|]. induction l; simpl; by f_equal. Qed.

Lemma nd_fmap_ext {A B} (f g : A -> B) (x : nd A) : (forall a, a ∈ nd_values x -> f a = g a) -> f <$> x = g <$> x.
Proof.
  destruct x as [a|l]; unfold fmap, nd_fmap; simpl; intros Hf; f_equal; [apply Hf; by left|].
  apply list_fmap_ext. intros k a Ha. apply Hf. by eapply list_elem_of_lookup_2.
Qed.

Lemma nd_values_fmap {A B} (f : A -> B) (x : nd A) : nd_values (f <$> x) = f <$> nd_values x.
Proof. by destruct x. Qed.

Definition ok_or {A} (default : A) (r : result A) : A := match r with Ok a => a | Err _ => default end.

Lemma mapM_result {A B} (f : A -> result B) (d : B) l :
  match mapM f l with
  | Ok y => y = (fun a => ok_or d (f a)) <$> l /\ Forall (fun a => is_ok (f a) = true) l
  | Err e => Exists (fun a => f a = Err e) l
  end.
Proof.
  induction l as [|a l IH]; simpl; [done|]. destruct (f a) as [b|e] eqn:Ha; simpl; [|by left].
  destruct (mapM f l) as [y|e]; simpl; [|by right]. destruct IH as [-> IH]. split; [done|]. constructor; [by rewrite Ha|done].
Qed.

(** An element-wise function succeeds exactly when it does on every element. *)
Lemma nd_traverse_spec {A B} (f : A -> result B) (d : B) (x : nd A) :
  match nd_traverse f x with
  | Ok y => y = (fun a => ok_or d (f a)) <$> x /\ Forall (fun a => is_ok (f a) = true) (nd_values x)
  | Err e => Exists (fun a => f a = Err e) (nd_values x)
  end.
Proof.
  destruct x as [a|l]; simpl.
  - unfold fmap, nd_fmap. destruct (f a) as [b|e] eqn:Ha; simpl; [|by left]. split; [done|].
    constructor; [by rewrite Ha|done].
  - pose proof (mapM_result f d l) as Hm. destruct (mapM f l) as [y|e]; simpl; [|done]. by destruct Hm as [-> Hm].
Qed.

Lemma nd_traverse_fmap {A B C} (g : A -> B) (f : B -> result C) (x : nd A) : nd_traverse f (g <$> x) = nd_traverse (f ∘ g) x.
Proof.
  destruct x as [a|l]; [done|]. unfold fmap, nd_fmap. simpl. f_equal. induction l as [|a l IH]; [done|].
  cbn [fmap list_fmap mapM]. by rewrite IH.
Qed.

Lemma nd_traverse_ext {A B} (f g : A -> result B) (x : nd A) :
  (forall a, a ∈ nd_values x -> f a = g a) -> nd_traverse f x = nd_traverse g x.
Proof.
  destruct x as [a|l]; simpl; intros Hf; [by rewrite Hf by left|]. f_equal. induction l as [|a l IH]; [done|].
  cbn [mapM]. rewrite Hf by left. destruct (g a); [|done]. simpl. rewrite IH; [done|]. intros. apply Hf. by right.
Qed.

Lemma nd_traverse_Ok {A B} (f : A -> B) (x : nd A) : nd_traverse (fun a => Ok (f a)) x = Ok (f <$> x).
Proof.
  destruct x as [a|l]; [done|]. simpl. assert (mapM (fun a => Ok (f a)) l = Ok (f <$> l)) as ->; [|done].
  induction l as [|a l IH]; [done|]. cbn [mapM mbind result_bind]. by rewrite IH.
Qed.

Lemma existsb_false {A} (p : A -> bool) l x : existsb p l = false -> x ∈ l -> p x = false.
Proof.
  intros Hp Hx. apply not_true_is_false. intros Ht. apply not_true_iff_false in Hp. apply Hp, existsb_exists.
  exists x. by rewrite <- list_elem_of_In.
Qed.

Lemma existsb_fmap {A B} (f : A -> B) (p : B -> bool) l : existsb p (f <$> l) = existsb (p ∘ f) l.
Proof. induction l as [|a l IH]; [done|]. rewrite fmap_cons. simpl. by f_equal. Qed.

Lemma broadcast_fmap {A B C} (f : A -> C) (x : nd A) (y : nd B) p :
  broadcast x y = Ok p -> broadcast (f <$> x) y = Ok ((fun q => (f q.1, q.2)) <$> p).
Proof.
  assert (forall (l : list A) (m : list B), zip (f <$> l) m = (fun q => (f q.1, q.2)) <$> zip l m) as Hzip.
  { intros l. induction l as [|a l IH]; intros [|b m]; [done..|]. simpl. by rewrite <- IH. }
  destruct x as [a|[|a [|a' l]]], y as [b|[|b [|b' m]]]; unfold fmap, nd_fmap; simpl; intros Hp; inv_ok Hp;
    rewrite ?bool_decide_true by (by rewrite ?length_fmap; bools; simpl in *; lia); simpl; try done;
    rewrite ?Hzip; repeat f_equal; rewrite <- ?list_fmap_compose; try done.
Qed.

Lemma broadcast_fmap_r {A B D} (f : B -> D) (x : nd A) (y : nd B) p :
  broadcast x y = Ok p -> broadcast x (f <$> y) = Ok ((fun q => (q.1, f q.2)) <$> p).
Proof.
  assert (forall (l : list A) (m : list B), zip l (f <$> m) = (fun q => (q.1, f q.2)) <$> zip l m) as Hzip.
  { intros l. induction l as [|a l IH]; intros [|b m]; [done..|]. simpl. by rewrite <- IH. }
  destruct x as [a|[|a [|a' l]]], y as [b|[|b [|b' m]]]; unfold fmap, nd_fmap; simpl; intros Hp; inv_ok Hp;
    rewrite ?bool_decide_true by (by rewrite ?length_fmap; bools; simpl in *; lia); simpl; try done;
    rewrite ?Hzip; repeat f_equal; rewrite <- ?list_fmap_compose; try done.
Qed.

Lemma broadcast_values {A B} (x : nd A) (y : nd B) p q :
  broadcast x y = Ok p -> q ∈ nd_values p -> q.1 ∈ nd_values x /\ q.2 ∈ nd_values y.
Proof.
  assert (forall (l : list A) (m : list B) q, q ∈ zip l m -> q.1 ∈ l /\ q.2 ∈ m) as Hzip.
  { intros l m [a b] Hq. split; [by eapply elem_of_zip_l|by eapply elem_of_zip_r]. }
  destruct x as [a|[|a [|a' l]]], y as [b|[|b [|b' m]]]; simpl; intros Hp; inv_ok Hp; intros Hq; try (by apply Hzip in Hq);
    try set_solver.
Qed.

Lemma zip_fmap_l {A B C} (k : A * B -> C) (l : list A) (m : list B) : length l = length m ->
  zip (k <$> zip l m) m = (fun q => (k q, q.2)) <$> zip l m.
Proof. revert m. induction l as [|a l IH]; intros [|b m] Hl; try done. simpl in *. rewrite IH by lia. done. Qed.

Lemma zip_fmap_r {A B D} (h : A * B -> D) (l : list A) (m : list B) : length l = length m ->
  zip l (h <$> zip l m) = (fun q => (q.1, h q)) <$> zip l m.
Proof. revert m. induction l as [|a l IH]; intros [|b m] Hl; try done. simpl in *. rewrite IH by lia. done. Qed.

Lemma zip_self_l {A B} (f : A -> B) (l : list A) : zip (f <$> l) l = (fun a => (f a, a)) <$> l.
Proof. induction l as [|a l IH]; [done|]. rewrite !fmap_cons. simpl. by f_equal. Qed.

Lemma zip_self_r {A B} (f : A -> B) (l : list A) : zip l (f <$> l) = (fun a => (a, f a)) <$> l.
Proof. induction l as [|a l IH]; [done|]. rewrite !fmap_cons. simpl. by f_equal. Qed.

(** What has the shape of a broadcast is broadcast as it is. *)
Lemma broadcast_again_l {A B C} (k : A * B -> C) (x : nd A) (y : nd B) p :
  broadcast x y = Ok p -> broadcast (k <$> p) y = Ok ((fun q => (k q, q.2)) <$> p).
Proof.
  destruct x as [a|[|a [|a' l]]], y as [b|[|b [|b' m]]]; unfold fmap, nd_fmap; simpl; intros Hp; inv_ok Hp; try done;
    bools; rewrite ?bool_decide_true by (rewrite ?length_fmap, ?length_zip; simpl in *; lia); simpl;
    rewrite ?zip_fmap_l by (simpl in *; lia); rewrite <- ?list_fmap_compose; rewrite ?zip_self_l; done.
Qed.

Lemma broadcast_again_r {A B D} (h : A * B -> D) (x : nd A) (y : nd B) p :
  broadcast x y = Ok p -> broadcast x (h <$> p) = Ok ((fun q => (q.1, h q)) <$> p).
Proof.
  destruct x as [a|[|a [|a' l]]], y as [b|[|b [|b' m]]]; unfold fmap, nd_fmap; simpl; intros Hp; inv_ok Hp; try done;
    bools; rewrite ?bool_decide_true by (rewrite ?length_fmap, ?length_zip; simpl in *; lia); simpl;
    rewrite ?zip_fmap_r by (simpl in *; lia); rewrite <- ?list_fmap_compose; rewrite ?zip_self_r; done.
Qed.


Section facts.
Context {F : Type} `{PyFloat F} `{!Numpy F} `{!NumpyLaws F}.
Implicit Types (cal : busdaycalendar) (d a b o n : Z).

(** ** The ordinal is exact *)

Lemma seqZ_snoc m n : 0 <= n -> seqZ m (n + 1) = seqZ m n ++ [m + n].
Proof. intros Hn. rewrite seqZ_app by lia. done. Qed.

Lemma trading_days_snoc cal a b : a <= b ->
  trading_days cal a (b + 1) = trading_days cal a b ++ (if open_day cal b then [b] else []).
Proof.
  intros Hab. unfold trading_days. replace (b + 1 - a) with (b - a + 1) by lia.
  rewrite seqZ_snoc by lia. rewrite filter_app. f_equal. replace (a + (b - a)) with b by lia.
  rewrite filter_cons. by destruct (open_day cal b).
Qed.

Lemma trading_days_nil cal a b : b <= a -> trading_days cal a b = [].
Proof. intros Hab. unfold trading_days. by rewrite seqZ_nil by lia. Qed.

Lemma elem_of_trading_days cal a b d : d ∈ trading_days cal a b <-> a <= d < b /\ open_day cal d = true.
Proof. unfold trading_days. rewrite list_elem_of_filter, elem_of_seqZ. split; [intros []|intros [??]]; split; try done; lia. Qed.

Lemma count_lt_succ (l : list Z) d : StronglySorted Z.lt l ->
  Z.of_nat (count_lt l (d + 1)) = Z.of_nat (count_lt l d) + Z.b2z (bool_decide (d ∈ l)).
Proof.
  unfold count_lt. induction 1 as [|x l Hs IH Hx]; [done|]. rewrite !filter_cons.
  destruct (decide (x = d)) as [->|Hne].
  - rewrite (decide_True (P:=d < d + 1)), (decide_False (P:=d < d)) by lia. rewrite bool_decide_true by left.
    rewrite !filter_none; [done|eapply Forall_impl; [exact Hx|]; simpl; lia..].
  - assert (bool_decide (d ∈ x :: l) = bool_decide (d ∈ l)) as ->.
    { apply bool_decide_ext. rewrite elem_of_cons. naive_solver. }
    destruct (decide (x < d + 1)), (decide (x < d)); cbn [length]; lia.
Qed.

Lemma ordinal_succ cal d : normalized cal ->
  business_day_ordinal (F:=F) cal (d + 1) = business_day_ordinal (F:=F) cal d + Z.b2z (open_day cal d).
Proof.
  intros [Hw Ho Hs Hm]. unfold business_day_ordinal, open_day. rewrite !np_searchsorted_left_count by done.
  rewrite count_lt_succ by done. rewrite Forall_forall in Hm. specialize (Hm d).
  destruct (weekmask cal) as [|m0 [|m1 [|m2 [|m3 [|m4 [|m5 [|m6 [|]]]]]]]]; try done.
  assert (d = 7 * (d / 7) + d mod 7 /\ 0 <= d mod 7 < 7) as [Hd Hr]
    by (split; [apply Z.div_mod; lia|apply Z.mod_pos_bound; lia]).
  generalize dependent (d mod 7). generalize (d / 7). intros q r Hd Hr.
  assert (r = 0 \/ r = 1 \/ r = 2 \/ r = 3 \/ r = 4 \/ r = 5 \/ r = 6) as Hcases by lia.
  assert (Hdiv : (d + 1) / 7 = if r =? 6 then q + 1 else q).
  { subst d. symmetry. destruct (Z.eqb_spec r 6).
    - subst r. apply (Z.div_unique _ _ _ 0); lia.
    - apply (Z.div_unique _ _ _ (r + 1)); lia. }
  assert (Hmod : (d + 1) mod 7 = if r =? 6 then 0 else r + 1).
  { pose proof (Z.div_mod (d + 1) 7 ltac:(lia)). rewrite Hdiv in *. destruct (Z.eqb_spec r 6); lia. }
  assert (Hmod3 : (d + 3) mod 7 = if r <? 4 then r + 3 else r - 4).
  { subst d. symmetry. destruct (Z.ltb_spec r 4); [apply (Z.mod_unique _ _ q)|apply (Z.mod_unique _ _ (q + 1))]; lia. }
  rewrite Hdiv, Hmod, Hmod3 in *. clear Hdiv Hmod Hmod3 Hd Ho Hw.
  assert (forall m, (bool_decide (d ∈ holidays cal) = true -> m = true) ->
    Z.b2z (m && negb (bool_decide (d ∈ holidays cal))) = Z.b2z m - Z.b2z (bool_decide (d ∈ holidays cal))) as Hb2z.
  { intros m Hmt. destruct (bool_decide _); [by rewrite Hmt|]. destruct m; simpl; lia. }
  rewrite Hb2z by (intros ?%bool_decide_eq_true; auto). clear Hb2z Hm.
  destruct_or!; subst r; cbn -[Z.b2z Z.mul Z.add Z.sub Z.to_nat nth];
    repeat match goal with |- context [Z.to_nat ?e] => let v := eval compute in (Z.to_nat e) in change (Z.to_nat e) with v end;
    unfold sumZ; cbn -[Z.b2z Z.mul Z.add Z.sub]; lia.
Qed.

Notation ordinal := (business_day_ordinal (F:=F)).

Lemma ordinal_count cal a b : normalized cal -> a <= b -> ordinal cal b = ordinal cal a + count_open cal a b.
Proof.
  intros Hn Hab. replace b with (a + (b - a)) by lia. generalize (b - a) (Z.le_0_sub a b). intros k [_ Hk].
  specialize (Hk Hab). clear b Hab. revert k Hk. unfold count_open. apply natlike_ind.
  - rewrite trading_days_nil by lia. simpl. by rewrite !Z.add_0_r.
  - intros k Hk IH. rewrite <- Z.add_1_r, Z.add_assoc, ordinal_succ, trading_days_snoc, length_app by (done || lia).
    destruct (open_day cal (a + k)); simpl; lia.
Qed.

Lemma displacement_ordinal cal b o : normalized cal -> displacement cal b o = ordinal cal o - ordinal cal b.
Proof. intros Hn. unfold displacement. destruct (Z.leb_spec b o); [rewrite (ordinal_count cal b o)|rewrite (ordinal_count cal o b)]; (done || lia). Qed.

Lemma ordinal_mono cal a b : normalized cal -> a <= b -> ordinal cal a <= ordinal cal b.
Proof. intros Hn Hab. rewrite (ordinal_count cal a b) by done. unfold count_open. lia. Qed.

Lemma sumZ_b2z_pos (l : list bool) : true ∈ l -> 1 <= sumZ (Z.b2z <$> l).
Proof.
  assert (forall l : list bool, 0 <= sumZ (Z.b2z <$> l)) as Hp.
  { clear l. intros l. induction l as [|[] l IH]; [done|..]; rewrite fmap_cons, sumZ_cons; simpl; lia. }
  intros (l1 & l2 & ->)%list_elem_of_split. rewrite fmap_app, fmap_cons, sumZ_app, sumZ_cons.
  pose proof (Hp l1). pose proof (Hp l2). simpl. lia.
Qed.

(** In a window of [n] weeks at least [n] days are open, less the holidays. *)
Lemma open_in_weeks cal a n : normalized cal -> 0 <= n ->
  ordinal cal a + n - Z.of_nat (length (holidays cal)) <= ordinal cal (a + 7 * n).
Proof.
  intros [Hw Ho Hs _] Hn. unfold business_day_ordinal. rewrite !np_searchsorted_left_count by done.
  replace (a + 7 * n) with (a + n * 7) by lia. rewrite Z.div_add, Z.mod_add by lia. apply sumZ_b2z_pos in Ho.
  assert (Z.of_nat (count_lt (holidays cal) (a + n * 7)) <= Z.of_nat (length (holidays cal))) by
    (unfold count_lt; apply inj_le, length_filter).
  set (S := sumZ _) in *. assert (n <= n * S) by nia. lia.
Qed.

(** Two days a date rolls to have one ordinal, next to that of the date. *)
Lemma rolls_to_ordinal cal roll d b : normalized cal -> rolls_to cal roll d b ->
  (d <= b /\ ordinal cal b = ordinal cal d) \/ (b <= d /\ ordinal cal (b + 1) = ordinal cal (d + 1)).
Proof.
  intros Hn [Ho Hr].
  assert (d <= b /\ count_open cal d b = 0 -> d <= b /\ ordinal cal b = ordinal cal d) as Hl.
  { intros [Hd Hc]. split; [done|]. rewrite (ordinal_count cal d b) by done. lia. }
  assert (b <= d /\ count_open cal (b + 1) (d + 1) = 0 -> b <= d /\ ordinal cal (b + 1) = ordinal cal (d + 1)) as He.
  { intros [Hd Hc]. split; [done|]. rewrite (ordinal_count cal (b + 1) (d + 1)) by (done || lia). lia. }
  cbv zeta in Hr. repeat case_bool_decide; try done; try tauto. left. subst. lia.
Qed.

Lemma later_unique cal d b b' : normalized cal -> d <= b -> count_open cal d b = 0 -> d <= b' -> count_open cal d b' = 0 ->
  ordinal cal b = ordinal cal b'.
Proof. intros Hn ? ? ? ?. rewrite (ordinal_count cal d b), (ordinal_count cal d b') by done. lia. Qed.

Lemma earlier_unique cal d b b' : normalized cal -> open_day cal b = true -> open_day cal b' = true ->
  b <= d -> count_open cal (b + 1) (d + 1) = 0 -> b' <= d -> count_open cal (b' + 1) (d + 1) = 0 ->
  ordinal cal b = ordinal cal b'.
Proof.
  intros Hn Ho Ho' ? ? ? ?.
  pose proof (ordinal_succ cal b Hn) as Hb. pose proof (ordinal_succ cal b' Hn) as Hb'. rewrite Ho in Hb. rewrite Ho' in Hb'.
  pose proof (ordinal_count cal (b + 1) (d + 1)). pose proof (ordinal_count cal (b' + 1) (d + 1)). simpl in *.
  intuition lia.
Qed.

Lemma closed_month_no cal d first o : closed_month cal d first -> first <= o < first + 31 ->
  month_of_day o = month_of_day d -> open_day cal o = true -> False.
Proof.
  unfold closed_month. rewrite Forall_forall. intros Hc Ho Hm Hopen. rewrite Hc in Hopen; [done| |done].
  apply elem_of_seqZ. lia.
Qed.

Lemma rolls_to_unique cal roll d b b' : normalized cal -> rolls_to cal roll d b -> rolls_to cal roll d b' ->
  ordinal cal b = ordinal cal b'.
Proof.
  intros Hn [Ho Hr] [Ho' Hr']. cbv zeta in Hr, Hr'. repeat case_bool_decide; try done.
  - by eapply (later_unique cal d); naive_solver.
  - by eapply (earlier_unique cal d); naive_solver.
  - by subst.
  - destruct Hr as [([? ?] & ? & ?)|([? ?] & ? & _)], Hr' as [([? ?] & ? & ?)|([? ?] & ? & _)].
    + by apply (later_unique cal d).
    + exfalso. apply (closed_month_no cal d d b); (done || lia).
    + exfalso. apply (closed_month_no cal d d b'); (done || lia).
    + by apply (earlier_unique cal d).
  - destruct Hr as [([? ?] & ? & ?)|([? ?] & ? & _)], Hr' as [([? ?] & ? & ?)|([? ?] & ? & _)].
    + by apply (earlier_unique cal d).
    + exfalso. apply (closed_month_no cal d (d - 30) b); (done || lia).
    + exfalso. apply (closed_month_no cal d (d - 30) b'); (done || lia).
    + by apply (later_unique cal d).
Qed.

Lemma rolls_to_near cal roll d b : normalized cal -> rolls_to cal roll d b ->
  Z.abs (b - d) <= roll_range cal.
Proof.
  intros Hn Hr. unfold roll_range. set (w := Z.of_nat (length (holidays cal)) + 1).
  destruct (rolls_to_ordinal cal roll d b Hn Hr) as [[Hle Heq]|[Hle Heq]].
  - destruct (Z.le_gt_cases (b - d) (7 * w)); [lia|]. pose proof (open_in_weeks cal d w Hn ltac:(lia)).
    pose proof (ordinal_mono cal (d + 7 * w) b Hn ltac:(lia)). lia.
  - destruct (Z.le_gt_cases (d - b) (7 * w)); [lia|]. pose proof (open_in_weeks cal (b + 1) w Hn ltac:(lia)).
    pose proof (ordinal_mono cal (b + 1 + 7 * w) (d + 1) Hn ltac:(lia)). lia.
Qed.

(** ** Adding trading days *)

Lemma lands_displacement cal roll d n o b : normalized cal -> rolls_to cal (forward_roll roll) d b -> lands cal roll d n o ->
  displacement cal b o = net_offset cal roll d n.
Proof.
  intros Hn Hb [Ho Hl]. unfold net_offset. destruct (_ && (0 <? n)) eqn:Ha; simpl.
  - bools. subst roll. destruct Hl as [Hlt Hc]. rewrite displacement_ordinal by done.
    destruct Hb as [_ Hb]. unfold forward_roll in Hb. repeat case_bool_decide; try set_solver.
    pose proof (ordinal_count cal d b). pose proof (ordinal_count cal (d + 1) (o + 1)).
    pose proof (ordinal_succ cal d Hn). pose proof (ordinal_succ cal o Hn) as Hso. rewrite Ho in Hso.
    destruct (open_day cal d); simpl in *; intuition lia.
  - destruct Hl as (b' & Hb' & <-). rewrite !displacement_ordinal by done.
    by rewrite (rolls_to_unique cal (forward_roll roll) d b b').
Qed.

Context `{!NumpyBusdays} `{!BusdayLaws}.
Section add.
Context (cal : busdaycalendar) (roll : string).
Hypothesis cal_ok : normalized cal.

(** A start date whose roll exists within the range of int64 *)
Definition starts (x : Z * Z) : Prop :=
  representable x.1 /\ x.2 <> NaT /\ exists b, rolls_to cal (forward_roll roll) x.1 b /\ representable b.

Notation base_of d := (ok_or NaT (np_busday_offset cal d 0 (forward_roll roll))).
Definition offset_of (q : (Z * Z) * Z) : Z := if bool_decide (roll = "allow"%string) then allow_offset cal q else q.2.
Notation out_of q := (ok_or NaT (np_busday_offset cal q.1.1 (offset_of q) (forward_roll roll))).

Lemma representable_not_nat d : representable d -> isnat d = false.
Proof. unfold representable, isnat, NaT. lia. Qed.

Lemma offset_of_net q : representable q.1.1 -> offset_of q = net_offset cal roll q.1.1 q.2.
Proof.
  destruct q as [[d t] n]. intros Hd. unfold offset_of, net_offset, allow_offset. simpl in *.
  rewrite np_is_busday_spec, representable_not_nat by done. simpl.
  destruct (bool_decide _), (0 <? n), (open_day cal d); done.
Qed.

Lemma base_spec x : starts x -> exists b, np_busday_offset cal x.1 0 (forward_roll roll) = Ok b /\
  rolls_to cal (forward_roll roll) x.1 b /\ representable b.
Proof.
  intros (Hd & _ & b & Hb & Hrb). exists b. split; [|done]. pose proof Hb as [Ho _].
  eapply np_busday_offset_spec; try done. rewrite displacement_ordinal by done. lia.
Qed.

Lemma out_spec q o : starts q.1 -> lands cal roll q.1.1 q.2 o -> representable o ->
  np_busday_offset cal q.1.1 (offset_of q) (forward_roll roll) = Ok o.
Proof.
  intros Hs Hl Ho. rewrite offset_of_net by apply Hs. destruct (base_spec _ Hs) as (b & _ & Hb & Hrb).
  eapply np_busday_offset_spec; try done; [apply Hs|apply Hl|]. by apply lands_displacement.
Qed.

(** The check of the displacement decides whether NumPy arrived. *)
Lemma wrong_offset_spec q : starts q.1 ->
  is_ok (np_busday_offset cal q.1.1 (offset_of q) (forward_roll roll)) = true ->
  wrong_offset (F:=F) cal ((out_of q, q.1.2, base_of q.1.1), offset_of q) = false <->
  representable (out_of q) /\ displacement cal (base_of q.1.1) (out_of q) = net_offset cal roll q.1.1 q.2.
Proof.
  intros Hs Hok. destruct (base_spec _ Hs) as (b & -> & Hb & Hrb). rewrite <- offset_of_net by apply Hs.
  destruct (np_busday_offset cal q.1.1 _ _) as [o|] eqn:Ho; [|done]. unfold wrong_offset, ok_or.
  rewrite displacement_ordinal, (representable_not_nat b) by done. cbn [negb andb].
  rewrite orb_false_iff, negb_false_iff, Z.eqb_eq. apply np_busday_offset_int64 in Ho as [->|Ho].
  - split; [by intros [? _]|]. intros [Hr _]. unfold representable, NaT in Hr. lia.
  - rewrite representable_not_nat by done. tauto.
Qed.

Lemma wrong_roll_never x : starts x -> wrong_roll cal (x.1, x.2, base_of x.1) = false.
Proof.
  intros Hs. destruct (base_spec _ Hs) as (b & -> & Hb & _). unfold wrong_roll, ok_or.
  pose proof (rolls_to_near _ _ _ _ cal_ok Hb) as Hnear. unfold roll_range in Hnear. apply Z.ltb_ge in Hnear. rewrite Hnear. by destruct (isnat x.1).
Qed.

(** Past the roll, the body of [add_trading_days] works cell by cell. *)
Definition cell_out (q : (Z * Z) * Z) : result (Z * Z * Z) :=
  o ← np_busday_offset cal q.1.1 (offset_of q) (forward_roll roll); Ok (o, q.1.2, base_of q.1.1).

Lemma cells_of_any start num dates unit step day_ticks pairs :
  normalize_datetime start = Ok (dates, unit, step) -> dict_get DAY_TICKS unit = Some day_ticks ->
  broadcast dates num = Ok pairs ->
  let cell q : Z * Z * Z := (out_of q, q.1.2, base_of q.1.1) in
  let missing '(out, time, _) := isnat out || isnat time in
  let ticks '(out, time, _) := out * (day_ticks / step) + time in
  match nd_traverse (rolled_date cal (forward_roll roll)) dates, nd_traverse cell_out pairs with
  | Err _, _ | _, Err _ => is_ok (add_trading_days (F:=F) cal start (IntOffsets num) roll) = false
  | Ok _, Ok _ => add_trading_days (F:=F) cal start (IntOffsets num) roll =
      (whenever existsb (fun q => wrong_offset (F:=F) cal (cell q, offset_of q)) (nd_values pairs)
          || existsb (fun x => wrong_roll cal (x.1, x.2, base_of x.1)) (nd_values dates)
        raise OverflowError "trading-day offset exceeds the representable date range" ;;
      whenever existsb (fun q => negb (missing (cell q)) && (max_int64 <? Z.abs (ticks (cell q)))) (nd_values pairs)
        raise OverflowError "trading-day offset exceeds the representable timestamp range" ;;
      Ok (mkDatetimes unit step ((fun q => if missing (cell q) then NaT else ticks (cell q)) <$> pairs)))
  end.
Proof.
  intros Hstart Hunit Hp cell missing ticks. unfold add_trading_days. rewrite Hstart. cbn [mbind result_bind].
  set (both := if bool_decide (roll = "allow"%string) then (fun q => (q.2, allow_offset cal q)) <$> pairs
               else (fun n => (n, n)) <$> num : nd (Z * Z)).
  set (num' := if bool_decide (roll = "allow"%string) then allow_offset cal <$> pairs else num).
  assert (snd <$> both = num') as Hnum by (unfold both, num'; case_bool_decide; rewrite nd_fmap_compose, ?nd_fmap_id; done).
  assert (broadcast dates both = Ok ((fun q => (q.1, (q.2, offset_of q))) <$> pairs)) as Hboth.
  { unfold both, offset_of. case_bool_decide; [by erewrite broadcast_again_r|by erewrite broadcast_fmap_r]. }
  assert (broadcast dates num' = Ok ((fun q => (q.1, offset_of q)) <$> pairs)) as Hp'.
  { rewrite <- Hnum. erewrite broadcast_fmap_r by exact Hboth. by rewrite nd_fmap_compose. }
  assert (broadcast (cell <$> pairs) num' = Ok ((fun q => (cell q, offset_of q)) <$> pairs)) as Hchecks.
  { pose proof (broadcast_again_l (fun e => cell (e.1, e.2.1)) _ _ _ Hboth) as Ha. rewrite nd_fmap_compose in Ha.
    rewrite (nd_fmap_ext _ cell) in Ha by (by intros []). rewrite <- Hnum. erewrite broadcast_fmap_r by exact Ha.
    rewrite !nd_fmap_compose. f_equal. apply nd_fmap_ext. by intros [[] ?]. }
  assert ((if bool_decide (roll = "allow"%string) then pairs ← broadcast dates num; Ok (allow_offset cal <$> (pairs : nd _)) else Ok num)
    = Ok num') as -> by (unfold num'; case_bool_decide; [by rewrite Hp|done]).
  cbn [mbind result_bind]. fold (forward_roll roll).
  set (rolled := fun x : Z * Z => (x.1, x.2, base_of x.1)).
  pose proof (nd_traverse_spec (rolled_date cal (forward_roll roll)) (0, 0, 0) dates) as Hbases.
  destruct (nd_traverse (rolled_date cal (forward_roll roll)) dates) as [bases|e]; [|done]. destruct Hbases as [-> Hb].
  assert ((fun x => ok_or (0, 0, 0) (rolled_date cal (forward_roll roll) x)) <$> dates = rolled <$> dates) as ->.
  { apply nd_fmap_ext. intros x Hx. rewrite Forall_forall in Hb. specialize (Hb x Hx). unfold rolled_date, rolled in *.
    by destruct (np_busday_offset cal x.1 0 (forward_roll roll)). }
  cbn [mbind result_bind]. rewrite (broadcast_fmap rolled _ _ _ Hp'). cbn [mbind result_bind].
  rewrite nd_fmap_compose, nd_traverse_fmap.
  rewrite (nd_traverse_ext (offset_date cal (forward_roll roll) ∘ _) cell_out) by (by intros [[d t] n] _).
  pose proof (nd_traverse_spec cell_out (0, 0, 0) pairs) as Hout. destruct (nd_traverse cell_out pairs) as [outs|e]; [|done].
  destruct Hout as [-> Hok]. cbn [mbind result_bind].
  assert ((fun q => ok_or (0, 0, 0) (cell_out q)) <$> pairs = cell <$> pairs) as ->.
  { apply nd_fmap_ext. intros q Hq. rewrite Forall_forall in Hok. specialize (Hok q Hq). unfold cell_out, cell in *.
    by destruct (np_busday_offset cal q.1.1 (offset_of q) _). }
  rewrite Hchecks. cbn [mbind result_bind].
  rewrite Hunit, !nd_values_fmap, !existsb_fmap, nd_fmap_compose. done.
Qed.

(** When every roll exists, the rolling never fails. *)
Lemma cells_of_add start num dates unit step day_ticks pairs :
  normalize_datetime start = Ok (dates, unit, step) -> dict_get DAY_TICKS unit = Some day_ticks ->
  Forall starts (nd_values dates) -> broadcast dates num = Ok pairs ->
  let cell q : Z * Z * Z := (out_of q, q.1.2, base_of q.1.1) in
  let missing '(out, time, _) := isnat out || isnat time in
  let ticks '(out, time, _) := out * (day_ticks / step) + time in
  match nd_traverse cell_out pairs with
  | Err _ => is_ok (add_trading_days (F:=F) cal start (IntOffsets num) roll) = false
  | Ok _ => add_trading_days (F:=F) cal start (IntOffsets num) roll =
      (whenever existsb (fun q => wrong_offset (F:=F) cal (cell q, offset_of q)) (nd_values pairs)
        raise OverflowError "trading-day offset exceeds the representable date range" ;;
      whenever existsb (fun q => negb (missing (cell q)) && (max_int64 <? Z.abs (ticks (cell q)))) (nd_values pairs)
        raise OverflowError "trading-day offset exceeds the representable timestamp range" ;;
      Ok (mkDatetimes unit step ((fun q => if missing (cell q) then NaT else ticks (cell q)) <$> pairs)))
  end.
Proof.
  intros Hstart Hunit Hs Hp. pose proof (cells_of_any _ _ _ _ _ _ _ Hstart Hunit Hp) as Hcells. cbv zeta in *.
  rewrite Forall_forall in Hs.
  pose proof (nd_traverse_spec (rolled_date cal (forward_roll roll)) (0, 0, 0) dates) as Hbases.
  destruct (nd_traverse (rolled_date cal (forward_roll roll)) dates) as [bases|e].
  2: { apply Exists_exists in Hbases as (x & Hx & He). unfold rolled_date in He.
       by destruct (base_spec _ (Hs x Hx)) as (b & Hb & _); rewrite Hb in He. }
  destruct (nd_traverse cell_out pairs); [|done].
  assert (existsb (fun x => wrong_roll cal (x.1, x.2, base_of x.1)) (nd_values dates) = false) as Hw.
  { apply not_true_is_false. rewrite existsb_exists. intros (x & Hx & Hw). apply list_elem_of_In in Hx.
    by rewrite wrong_roll_never in Hw by auto. }
  by rewrite Hw, orb_false_r in Hcells.
Qed.

Lemma lands_out q o : starts q.1 -> lands cal roll q.1.1 q.2 o -> representable o ->
  out_of q = o /\ wrong_offset (F:=F) cal ((out_of q, q.1.2, base_of q.1.1), offset_of q) = false.
Proof.
  intros Hs Hl Ho. pose proof (out_spec q o Hs Hl Ho) as Heq. split; [by rewrite Heq|].
  apply wrong_offset_spec; [done|by rewrite Heq|]. rewrite Heq. split; [done|].
  destruct (base_spec _ Hs) as (b & -> & Hb & _). by apply lands_displacement.
Qed.

(** A date that must be rolled: under "nat" a closed day is no failure. *)
Definition must_roll (d : Z) : Prop := ~ (roll = "nat"%string /\ open_day cal d = false).

Lemma missing_nat `{!BusdayNat} d n : representable d -> ~ must_roll d -> np_busday_offset cal d n (forward_roll roll) = Ok NaT.
Proof.
  intros Hd Hm. destruct (decide (roll = "nat"%string)) as [Heq|]; [|by exfalso; apply Hm; intros [? _]].
  destruct (open_day cal d) eqn:Ho; [by exfalso; apply Hm; intros [_ ?]; congruence|]. rewrite Heq. by apply np_busday_offset_nat.
Qed.

Lemma must_roll_dec d : must_roll d \/ ~ must_roll d.
Proof. unfold must_roll. destruct (decide (roll = "nat"%string)), (open_day cal d); intuition congruence. Qed.

(** An element that passed every check *)
Lemma cell_returned `{!BusdayNat} d t n stamp x : representable d -> t <> NaT ->
  is_ok (np_busday_offset cal d 0 (forward_roll roll)) = true ->
  is_ok (np_busday_offset cal d (offset_of ((d, t), n)) (forward_roll roll)) = true ->
  wrong_offset (F:=F) cal ((out_of ((d, t), n), t, base_of d), offset_of ((d, t), n)) = false ->
  wrong_roll cal (d, t, base_of d) = false ->
  negb (isnat (out_of ((d, t), n))) && (max_int64 <? Z.abs (stamp (out_of ((d, t), n)))) = false ->
  x = (if isnat (out_of ((d, t), n)) then NaT else stamp (out_of ((d, t), n))) ->
  exists b, np_busday_offset cal d 0 (forward_roll roll) = Ok b /\
    (b <> NaT -> Z.abs (b - d) <= roll_range cal /\
       exists o, x = stamp o /\ representable o /\ Z.abs x <= max_int64 /\ displacement cal b o = net_offset cal roll d n) /\
    (forall b', rolls_to cal (forward_roll roll) d b' -> representable b' -> rolls_to cal (forward_roll roll) d b /\
       forall o, lands cal roll d n o -> representable o -> x = stamp o) /\
    (roll = "nat"%string -> open_day cal d = false -> x = NaT).
Proof.
  intros Hd Ht Hb Hok Hw Hwr Hover ->.
  assert (forall b', rolls_to cal (forward_roll roll) d b' -> representable b' -> starts (d, t)) as Hst
    by (intros b' ? ?; split_and!; [done..|by exists b']).
  destruct (np_busday_offset cal d 0 (forward_roll roll)) as [b|] eqn:Hbase; [|done]. exists b. split; [done|].
  cbn [ok_or] in Hw, Hwr. split_and!.
  - intros Hnb. apply Z.eqb_neq in Hnb. fold (isnat b) in Hnb. unfold wrong_roll in Hwr.
    rewrite representable_not_nat, Hnb, andb_true_r in Hwr by done. cbn [negb andb] in Hwr. split; [unfold roll_range; lia|].
    unfold wrong_offset in Hw. rewrite Hnb in Hw. cbn [negb andb] in Hw. apply orb_false_iff in Hw as [Ho Hdisp].
    rewrite Ho in Hover |- *. cbn [negb andb] in Hover. eexists. split; [done|].
    destruct (np_busday_offset cal d (offset_of (d, t, n)) (forward_roll roll)) as [o|] eqn:Hout; [|done]. cbn [fst snd] in *. rewrite Hout in *. cbn [ok_or] in *.
    split_and!; [|lia|].
    + apply np_busday_offset_int64 in Hout as [->|?]; [done|done].
    + rewrite displacement_ordinal by done. apply negb_false_iff, Z.eqb_eq in Hdisp. rewrite Hdisp. by apply (offset_of_net ((d, t), n)).
  - intros b' Hb' Hrb. pose proof (Hst b' Hb' Hrb) as Hs. destruct (base_spec _ Hs) as (b2 & Hb2 & Hr2 & _). simpl in Hb2.
    rewrite Hbase in Hb2. injection Hb2 as <-. split; [done|]. intros o Hl Ho.
    destruct (lands_out ((d, t), n) o Hs Hl Ho) as [Heq _]. rewrite Heq, representable_not_nat by done. done.
  - intros Hnat Hc. assert (~ must_roll d) as Hm by (intros Hm; by apply Hm).
    cbn [fst snd]. by rewrite (missing_nat d _ Hd Hm).
Qed.

Lemma accepted_out q : starts q.1 ->
  is_ok (np_busday_offset cal q.1.1 (offset_of q) (forward_roll roll)) = true ->
  wrong_offset (F:=F) cal ((out_of q, q.1.2, base_of q.1.1), offset_of q) = false ->
  representable (out_of q) /\ exists b, rolls_to cal (forward_roll roll) q.1.1 b /\
    displacement cal b (out_of q) = net_offset cal roll q.1.1 q.2.
Proof.
  intros Hs Hok Hw. apply wrong_offset_spec in Hw as [Ho Hd]; [|done..]. split; [done|].
  destruct (base_spec _ Hs) as (b & Hb & ? & _). exists b. rewrite Hb in Hd. done.
Qed.
End add.

Section outcome.
Context `{!BusdayNat} (cal : busdaycalendar) (roll : string) (start : date_value) (num : nd Z).
Context (dates : nd (Z * Z)) (unit : string) (step day_ticks : Z) (pairs : nd ((Z * Z) * Z)).
Hypothesis Hcal : normalized cal.
Hypothesis Hstart : normalize_datetime start = Ok (dates, unit, step).
Hypothesis Hunit : dict_get DAY_TICKS unit = Some day_ticks.
Hypothesis Hdates : Forall (fun '(d, t) => representable d /\ t <> NaT) (nd_values dates).
Hypothesis Hp : broadcast dates num = Ok pairs.
Notation stamp o t := (o * (day_ticks / step) + t).
Notation np d n := (np_busday_offset cal d n (forward_roll roll)).

Lemma date_ok d t : (d, t) ∈ nd_values dates -> representable d /\ t <> NaT.
Proof. rewrite Forall_forall in Hdates. apply Hdates. Qed.

Lemma date_starts d t b : (d, t) ∈ nd_values dates -> rolls_to cal (forward_roll roll) d b -> representable b -> starts cal roll (d, t).
Proof. intros [? ?]%date_ok ? ?. split_and!; [done..|by exists b]. Qed.

Lemma date_nat d t n : (d, t) ∈ nd_values dates -> ~ must_roll cal roll d -> np d n = Ok NaT.
Proof. intros [? _]%date_ok ?. by apply (missing_nat cal roll Hcal). Qed.

Lemma pair_date q : q ∈ nd_values pairs -> q.1 ∈ nd_values dates.
Proof. intros Hin. by apply (broadcast_values _ _ _ _ Hp). Qed.

(** Of an element that fails a check, no date in int64 is right. *)
Lemma date_fails d t : (d, t) ∈ nd_values dates ->
  is_ok (np d 0) = false \/ wrong_roll cal (d, t, ok_or NaT (np d 0)) = true ->
  must_roll cal roll d /\ forall b, rolls_to cal (forward_roll roll) d b -> ~ representable b.
Proof.
  intros Hin Hf. destruct (must_roll_dec cal roll d) as [Hm|Hm].
  2: { rewrite (date_nat _ _ 0 Hin Hm) in Hf. unfold wrong_roll in Hf. simpl in Hf. rewrite andb_false_r in Hf. by destruct Hf. }
  split; [done|]. intros b Hb Hr. pose proof (date_starts _ _ _ Hin Hb Hr) as Hs.
  destruct (base_spec cal roll Hcal _ Hs) as (b2 & Hb2 & _). pose proof (wrong_roll_never cal roll Hcal _ Hs) as Hw.
  simpl in *. rewrite Hb2 in *. destruct Hf as [Hf|Hf]; [done|]. simpl in *. congruence.
Qed.

Lemma pair_fails d t n : ((d, t), n) ∈ nd_values pairs ->
  let out := np d (offset_of cal roll ((d, t), n)) in
  is_ok out = false \/ wrong_offset (F:=F) cal ((ok_or NaT out, t, ok_or NaT (np d 0)), offset_of cal roll ((d, t), n)) = true \/
    (isnat (ok_or NaT out) = false /\ max_int64 < Z.abs (stamp (ok_or NaT out) t)) ->
  must_roll cal roll d /\ forall b o, rolls_to cal (forward_roll roll) d b -> representable b -> lands cal roll d n o ->
    representable o -> max_int64 < Z.abs (stamp o t).
Proof.
  intros Hin out Hf. pose proof (pair_date _ Hin) as Hin'. simpl in Hin'. destruct (must_roll_dec cal roll d) as [Hm|Hm].
  { split; [done|]. intros b o Hb Hr Hl Ho. pose proof (date_starts _ _ _ Hin' Hb Hr) as Hs.
    pose proof (out_spec cal roll Hcal ((d, t), n) o Hs Hl Ho) as Heq. destruct (lands_out cal roll Hcal ((d, t), n) o Hs Hl Ho) as [_ Hw].
    cbn [fst snd] in *. subst out. rewrite Heq in *. destruct Hf as [Hf|[Hf|[_ Hf]]]; [done| |done]. cbn [ok_or] in *. congruence. }
  exfalso. subst out. rewrite !(date_nat _ _ _ Hin' Hm) in Hf. by destruct Hf as [?|[?|[? _]]].
Qed.

Lemma add_failed : is_ok (add_trading_days (F:=F) cal start (IntOffsets num) roll) = false ->
  Exists (fun '(d, _) => must_roll cal roll d /\ forall b, rolls_to cal (forward_roll roll) d b -> ~ representable b) (nd_values dates) \/
  Exists (fun '((d, t), n) => must_roll cal roll d /\
    forall b o, rolls_to cal (forward_roll roll) d b -> representable b -> lands cal roll d n o -> representable o ->
      max_int64 < Z.abs (stamp o t)) (nd_values pairs).
Proof.
  intros Hadd. pose proof (cells_of_any cal roll _ _ _ _ _ _ _ Hstart Hunit Hp) as Hcells. cbv zeta in Hcells.
  rewrite !Exists_exists. pose proof (nd_traverse_spec (rolled_date cal (forward_roll roll)) (0, 0, 0) dates) as Hbases.
  destruct (nd_traverse (rolled_date cal (forward_roll roll)) dates) as [bases|e].
  2: { left. apply Exists_exists in Hbases as ([d t] & Hin & He). exists (d, t). split; [done|]. apply (date_fails d t Hin).
       left. unfold rolled_date in He. simpl in He. by destruct (np d 0). }
  pose proof (nd_traverse_spec (cell_out cal roll) (0, 0, 0) pairs) as Hout.
  destruct (nd_traverse _ pairs) as [outs|e].
  2: { right. apply Exists_exists in Hout as ([[d t] n] & Hin & He). exists ((d, t), n). split; [done|]. apply (pair_fails d t n Hin).
       left. unfold cell_out in He. cbn [fst snd] in He. by destruct (np d (offset_of cal roll (d, t, n))). }
  rewrite Hcells in Hadd. destruct (existsb _ _ || existsb _ _) eqn:Hw; cbn [guard_ok negb mbind result_bind] in Hadd.
  { apply orb_prop in Hw as [Hw|Hw]; apply existsb_exists in Hw as (q & Hin%list_elem_of_In & Hw).
    - right. exists q. split; [done|]. destruct q as [[d t] n]. apply (pair_fails d t n Hin). right. by left.
    - left. exists q. split; [done|]. destruct q as [d t]. apply (date_fails d t Hin). by right. }
  match type of Hadd with context [existsb ?p ?l] => destruct (existsb p l) eqn:Ht end; cbn [guard_ok negb mbind result_bind] in Hadd; [|done].
  apply existsb_exists in Ht as (q & Hin%list_elem_of_In & Ht). right. exists q. split; [done|].
  destruct q as [[d t] n]. apply (pair_fails d t n Hin). right; right. cbn [fst snd] in Ht. bools. split; [|lia]. tauto.
Qed.

Lemma add_returned r : add_trading_days (F:=F) cal start (IntOffsets num) roll = Ok r ->
  dt_unit r = unit /\ dt_step r = step /\
  Forall2 (fun '((d, t), n) x => exists b, np d 0 = Ok b /\
      (b <> NaT -> Z.abs (b - d) <= roll_range cal /\
         exists o, x = stamp o t /\ representable o /\ Z.abs x <= max_int64 /\
           displacement cal b o = net_offset cal roll d n) /\
      (forall b', rolls_to cal (forward_roll roll) d b' -> representable b' -> rolls_to cal (forward_roll roll) d b /\
         forall o, lands cal roll d n o -> representable o -> x = stamp o t) /\
      (roll = "nat"%string -> open_day cal d = false -> x = NaT))
    (nd_values pairs) (nd_values (dt_ticks r)).
Proof.
  intros Hadd. pose proof (cells_of_any cal roll _ _ _ _ _ _ _ Hstart Hunit Hp) as Hcells. cbv zeta in Hcells.
  pose proof (nd_traverse_spec (rolled_date cal (forward_roll roll)) (0, 0, 0) dates) as Hbases.
  destruct (nd_traverse (rolled_date cal (forward_roll roll)) dates) as [bases|e]; [|by rewrite Hadd in Hcells].
  pose proof (nd_traverse_spec (cell_out cal roll) (0, 0, 0) pairs) as Hout.
  destruct (nd_traverse _ pairs) as [outs|e]; [|by rewrite Hadd in Hcells]. rewrite Hcells in Hadd. clear Hcells.
  destruct Hbases as [_ Hbases]. destruct Hout as [_ Hok]. rewrite Forall_forall in Hbases. rewrite Forall_forall in Hok.
  destruct (existsb _ _ || existsb _ _) eqn:Hw; [done|]. cbn [guard_ok negb mbind result_bind] in Hadd.
  apply orb_false_iff in Hw as [Hwo Hwr].
  match type of Hadd with context [existsb ?p ?l] => destruct (existsb p l) eqn:Ht end; [done|].
  cbn [guard_ok negb mbind result_bind] in Hadd. injection Hadd as <-.
  split_and!; [done..|]. cbn [dt_ticks]. rewrite nd_values_fmap. apply Forall2_fmap_r, Forall_Forall2_diag, Forall_forall.
  intros [[d t] n] Hin. pose proof (pair_date _ Hin) as Hin'. destruct (date_ok _ _ Hin') as [Hd Hnt]. simpl in Hin'.
  pose proof (existsb_false _ _ _ Hwo Hin) as Hwq. pose proof (existsb_false _ _ _ Ht Hin) as Htq.
  pose proof (existsb_false _ _ _ Hwr Hin') as Hwb. specialize (Hok _ Hin). specialize (Hbases _ Hin'). unfold cell_out, rolled_date in *.
  assert (isnat t = false) as Hnt' by by apply Z.eqb_neq. cbn [fst snd] in *. rewrite Hnt', orb_false_r in *.
  apply (cell_returned cal roll Hcal d t n (fun o => stamp o t)); try done.
  - by destruct (np d 0).
  - by destruct (np d (offset_of cal roll (d, t, n))).
  - cbn [fst snd]. by rewrite Hnt', orb_false_r.
Qed.
End outcome.

(** C14: [add_trading_days] is exact, for scalars and arrays alike and for every
    roll of NumPy and "allow", whatever NumPy does beyond the range of int64.
    When it returns, each element is such that the rolled date [b] NumPy gave is
    no further from the date than all holidays and a week, so that no wrapped
    date is ever used, and the result is, with the time of day, the date exactly
    the requested number of trading days from [b]; if a valid day exists in int64
    to roll to, [b] is one and the result the trading day to land on; a closed
    day under "nat" gives NaT.  It raises only if some date has no valid day in
    int64 to roll to, or for some element no date that int64 holds is right or
    its time stamp overflows. *)
Theorem add_trading_days_exact `{!BusdayNat} cal roll start num dates unit step day_ticks pairs :
  normalized cal -> normalize_datetime start = Ok (dates, unit, step) -> dict_get DAY_TICKS unit = Some day_ticks ->
  Forall (fun '(d, t) => representable d /\ t <> NaT) (nd_values dates) -> broadcast dates num = Ok pairs ->
  let stamp o t := o * (day_ticks / step) + t in
  match add_trading_days (F:=F) cal start (IntOffsets num) roll with
  | Ok r => dt_unit r = unit /\ dt_step r = step /\
      Forall2 (fun '((d, t), n) x => exists b, np_busday_offset cal d 0 (forward_roll roll) = Ok b /\
          (b <> NaT -> Z.abs (b - d) <= roll_range cal /\
             exists o, x = stamp o t /\ representable o /\ Z.abs x <= max_int64 /\
               displacement cal b o = net_offset cal roll d n) /\
          (forall b', rolls_to cal (forward_roll roll) d b' -> representable b' -> rolls_to cal (forward_roll roll) d b /\
             forall o, lands cal roll d n o -> representable o -> x = stamp o t) /\
          (roll = "nat"%string -> open_day cal d = false -> x = NaT))
        (nd_values pairs) (nd_values (dt_ticks r))
  | Err _ =>
      Exists (fun '(d, _) => must_roll cal roll d /\ forall b, rolls_to cal (forward_roll roll) d b -> ~ representable b) (nd_values dates) \/
      Exists (fun '((d, t), n) => must_roll cal roll d /\
        forall b o, rolls_to cal (forward_roll roll) d b -> representable b -> lands cal roll d n o -> representable o ->
          max_int64 < Z.abs (stamp o t)) (nd_values pairs)
  end.
Proof.
  intros Hcal Hstart Hunit Hs Hp stamp.
  pose proof (add_returned cal roll start num dates unit step day_ticks pairs Hcal Hstart Hunit Hs Hp) as Hok.
  pose proof (add_failed cal roll start num dates unit step day_ticks pairs Hcal Hstart Hunit Hs Hp) as Herr.
  destruct (add_trading_days _ _ _ _) as [r|e]; [by apply Hok|by apply Herr].
Qed.

(** ** Counting and listing trading days *)

(** The trading days of a period, an end point counting only if included *)
Definition interval_days cal (include_first include_last : bool) (s e : Z) : list Z :=
  filter (fun d => open_day cal d = true /\ (s < d \/ include_first = true) /\ (d < e \/ include_last = true))
    (seqZ s (e - s + 1)).

(** Period ends well inside int64, in order *)
Definition ordered (x : Z * Z) : Prop := - 2 ^ 60 <= x.1 /\ x.1 <= x.2 /\ x.2 <= 2 ^ 60.

(** The half-open period that [_normalize] makes of one pair of dates *)
Definition half_open (include_first include_last : bool) (x : Z * Z) : Z * Z :=
  let x := (if include_first then x.1 else add_day x.1, if include_last then add_day x.2 else x.2) in
  if date_gt x then (x.2, x.2) else x.

Lemma add_day_succ d : - 2 ^ 61 <= d <= 2 ^ 61 -> add_day d = d + 1.
Proof. intros Hd. unfold add_day. rewrite representable_not_nat, wrap64_id; unfold representable; lia. Qed.

Lemma half_open_days cal f l x : ordered x ->
  let '(s, e) := half_open f l x in
  representable s /\ representable e /\ s <= e < s + 2 ^ 62 /\ trading_days cal s e = interval_days cal f l x.1 x.2.
Proof.
  destruct x as [s e]. intros (Hs & Hse & He). simpl in *. unfold half_open. simpl.
  assert (exists s' e', (if f then s else add_day s) = s' /\ (if l then add_day e else e) = e' /\
    s <= s' <= s + 1 /\ e <= e' <= e + 1 /\ (f = true <-> s' = s) /\ (l = true <-> e' = e + 1)) as (s' & e' & -> & -> & Hb).
  { exists (if f then s else s + 1), (if l then e + 1 else e). rewrite !add_day_succ by lia. destruct f, l; split_and!; try split; intros; try done; lia. }
  assert (date_gt (s', e') = (e' <? s')) as -> by
    (unfold date_gt; simpl; rewrite !representable_not_nat by (unfold representable; lia); done).
  assert (exists s2, (if e' <? s' then (e', e') else (s', e')) = (s2, e') /\ s2 = Z.min s' e') as (s2 & -> & Hs2).
  { destruct (Z.ltb_spec e' s'); eexists; split; try done; lia. }
  split_and!; [unfold representable; lia..|].
  apply grid_ext; [apply filter_grid, seqZ_grid..|]. intros d. unfold interval_days.
  rewrite elem_of_trading_days, list_elem_of_filter, elem_of_seqZ. destruct f, l; intuition lia.
Qed.

Lemma normalize_pairs start end_ f l s e pairs : as_np_date start = Ok (Some s) -> as_np_date end_ = Ok (Some e) ->
  broadcast s e = Ok pairs ->
  normalize start end_ f l = if existsb date_gt (nd_values pairs) then Err (ValueError "start date must not be after end date")
    else Ok (half_open f l <$> pairs).
Proof.
  intros Hs He Hp. unfold normalize. rewrite Hs, He. cbn [mbind result_bind]. rewrite Hp. cbn [mbind result_bind].
  destruct (existsb date_gt _); [done|]. cbn [negb guard_ok mbind result_bind].
  assert (broadcast (if f then s else add_day <$> s) (if l then add_day <$> e else e) =
    Ok ((fun x => (if f then x.1 else add_day x.1, if l then add_day x.2 else x.2)) <$> pairs)) as ->.
  { destruct f, l.
    - by rewrite (broadcast_fmap_r _ _ _ _ Hp).
    - rewrite Hp, nd_fmap_id; [done|by intros []].
    - by rewrite (broadcast_fmap_r _ _ _ _ (broadcast_fmap _ _ _ _ Hp)), nd_fmap_compose.
    - by rewrite (broadcast_fmap _ _ _ _ Hp). }
  cbn [mbind result_bind]. by rewrite nd_fmap_compose.
Qed.

Definition missing (x : Z * Z) : bool := isnat x.1 || isnat x.2.
Definition bounded (x : Z * Z) : Prop := - 2 ^ 60 <= x.1 <= 2 ^ 60 /\ - 2 ^ 60 <= x.2 <= 2 ^ 60.

(** The masks of [num_trading_days] single out the missing pairs. *)
Lemma num_trading_days_pairs cal start end_ f l : num_trading_days (F:=F) cal start end_ f l =
  (fun pairs : nd (Z * Z) => (fun x => if missing x then f_nan else f_of_Z (np_busday_count cal x.1 x.2)) <$> pairs) <$>
    normalize start end_ f l.
Proof.
  unfold num_trading_days. destruct (normalize _ _ _ _) as [[[s e]|ps]|]; [done| |done].
  cbn [mbind result_bind fmap result_fmap nd_fmap]. do 2 f_equal. induction ps as [|[s e] ps IH]; [done|].
  rewrite !fmap_cons. cbn [zip_with fmap list_fmap]. f_equal; [|exact IH]. unfold missing. cbn [fst snd]. by destruct (isnat s || isnat e).
Qed.

Lemma half_open_missing f l x : missing x = true -> missing (half_open f l x) = true.
Proof.
  destruct x as [s e]. unfold missing, half_open, add_day. simpl. intros Hx.
  destruct (isnat s) eqn:Hs, (isnat e) eqn:He; try done; apply Z.eqb_eq in Hs || apply Z.eqb_eq in He; subst;
    destruct f, l; unfold date_gt; simpl; rewrite ?He, ?Hs, ?andb_false_r, ?orb_true_r; done.
Qed.

Lemma half_open_count cal f l x : normalized cal -> ordered x ->
  missing (half_open f l x) = false /\
  np_busday_count cal (half_open f l x).1 (half_open f l x).2 = Z.of_nat (length (interval_days cal f l x.1 x.2)).
Proof.
  intros Hcal Hx. pose proof (half_open_days cal f l x Hx) as Hd. destruct (half_open f l x) as [s e].
  destruct Hd as (Hs & He & Hse & Hd). unfold missing. simpl. rewrite !representable_not_nat by done. split; [done|].
  rewrite np_busday_count_spec by done. unfold count_open. by rewrite Hd.
Qed.

(** C15: The counting and the listing of trading days agree with each other and with
    what a trading day is.  For dates well inside int64, both refuse a period
    that starts after its end; otherwise [num_trading_days] counts, for scalars
    and element by element for arrays, exactly the days of [get_trading_days]:
    the open, non-holiday days of the period, an end point counting only if it
    is included; a missing date gives NaN. *)
Theorem trading_days_counted cal start end_ include_first include_last s e pairs :
  normalized cal -> as_np_date start = Ok (Some s) -> as_np_date end_ = Ok (Some e) -> broadcast s e = Ok pairs ->
  Forall (fun x => missing x = true \/ bounded x) (nd_values pairs) ->
  let days x := interval_days cal include_first include_last x.1 x.2 in
  if existsb date_gt (nd_values pairs)
  then exists msg, num_trading_days (F:=F) cal start end_ include_first include_last = Err (ValueError msg) /\
         get_trading_days cal start end_ include_first include_last = Err (ValueError msg)
  else num_trading_days cal start end_ include_first include_last =
         Ok ((fun x => if missing x then f_nan else f_of_Z (Z.of_nat (length (days x)))) <$> pairs) /\
       forall x, pairs = Scalar x -> missing x = false ->
         get_trading_days cal start end_ include_first include_last = Ok (days x).
Proof.
  intros Hcal Hs He Hp Hb days. rewrite num_trading_days_pairs. unfold get_trading_days.
  rewrite (normalize_pairs _ _ _ _ _ _ _ Hs He Hp). destruct (existsb date_gt _) eqn:Hgt; [by eexists|].
  assert (forall x, x ∈ nd_values pairs -> missing x = false -> ordered x) as Hord.
  { intros x Hx Hm. pose proof (existsb_false _ _ _ Hgt Hx) as Hle. rewrite Forall_forall in Hb.
    destruct (Hb x Hx) as [|[]]; [congruence|]. unfold missing, date_gt, ordered in *.
    apply orb_false_iff in Hm as [Hm1 Hm2]. rewrite Hm1, Hm2 in Hle. simpl in Hle. bools. lia. }
  cbn [fmap result_fmap]. rewrite nd_fmap_compose. split.
  - f_equal. apply nd_fmap_ext. intros x Hx. unfold compose. destruct (missing x) eqn:Hm; [by rewrite half_open_missing|].
    destruct (half_open_count cal include_first include_last x Hcal (Hord x Hx Hm)) as [-> ->]. done.
  - intros [a b] -> Hm. specialize (Hord (a, b) ltac:(by left) Hm).
    pose proof (half_open_days cal include_first include_last _ Hord) as Hd. cbn [mbind result_bind fmap nd_fmap].
    destruct (half_open _ _ _) as [s' e']. destruct Hd as (Hs' & He' & _ & Hd). unfold days. rewrite <- Hd.
    rewrite !representable_not_nat by done. cbn. f_equal. apply filter_ext_in. intros d Hd'%elem_of_seqZ.
    rewrite np_is_busday_spec, representable_not_nat by (done || unfold representable in *; lia). done.
Qed.
End facts.

(** ** The laws can hold, and concrete calendars *)

#[local] Instance representable_dec d : Decision (representable d).
Proof. unfold representable. apply _. Defined.

#[local] Instance rolls_to_dec cal roll d b : Decision (rolls_to cal roll d b).
Proof.
  unfold rolls_to. apply and_dec; [apply _|].
  repeat match goal with |- Decision (if ?b then _ else _) => destruct b end; apply _.
Defined.

(** The first day near [d] with a decidable property *)
Definition pick (P : Z -> Prop) `{!forall x, Decision (P x)} (d w : Z) : option Z := head (filter P (seqZ (d - w) (2 * w + 1))).

Lemma pick_unique (P : Z -> Prop) `{!forall x, Decision (P x)} d w x :
  P x -> (forall y, P y -> y = x) -> Z.abs (x - d) <= w -> pick P d w = Some x.
Proof.
  intros Hx Hu Hw. unfold pick. rewrite (grid_ext (filter P _) [x]); [done|apply filter_grid, seqZ_grid|repeat constructor|].
  intros t. rewrite list_elem_of_filter, elem_of_seqZ, list_elem_of_singleton. split; [naive_solver|].
  intros ->. split; [done|lia].
Qed.

(** Business days by search *)
#[local] Instance ref_busdays : NumpyBusdays := {
  np_to_datetime64 val := match val with PyDate unit ticks => Ok (unit, 1, ticks) | _ => Err (ValueError "not a datetime") end;
  np_astype_days unit step ticks :=
    match dict_get DAY_TICKS unit with Some k => if isnat ticks then NaT else ticks * step / k | None => NaT end;
  np_time_unit _ _ := ("D"%string, 1);
  np_time_of_day _ _ _ := 0;
  np_arange_arrays _ := Err (TypeError "only length-1 arrays can be converted");
  np_is_busday cal d := negb (isnat d) && open_day cal d;
  np_busday_count cal s e := count_open cal s e;
  np_busday_offset cal d n roll :=
    let w k := 7 * (Z.of_nat (length (holidays cal)) + 1 + Z.abs k) in
    let out o := if bool_decide (representable o) then o else NaT in
    match pick (rolls_to cal roll d) d (w 0) with
    | None => if bool_decide (roll = "nat"%string) then Ok NaT else Err (ValueError "Non-business day date in busday_offset")
    | Some b => Ok (default NaT (out <$> pick (fun o => open_day cal o = true /\ displacement cal b o = n) b (w n)))
    end;
}.

Section ref.
Notation ordinal := (business_day_ordinal (F:=XQ)).

Lemma open_ordinal cal a b : normalized cal -> open_day cal a = true -> open_day cal b = true ->
  ordinal cal a = ordinal cal b -> a = b.
Proof.
  intros Hn Ha Hb Heq. destruct (Z.lt_total a b) as [Hlt|[?|Hlt]]; [|done|].
  - pose proof (ordinal_succ cal a Hn) as Hs. pose proof (ordinal_mono (F:=XQ) cal (a + 1) b Hn ltac:(lia)).
    rewrite Ha in Hs. simpl in Hs. lia.
  - pose proof (ordinal_succ cal b Hn) as Hs. pose proof (ordinal_mono (F:=XQ) cal (b + 1) a Hn ltac:(lia)).
    rewrite Hb in Hs. simpl in Hs. lia.
Qed.

Lemma displacement_near cal b o n : normalized cal -> open_day cal b = true -> displacement cal b o = n ->
  Z.abs (o - b) <= 7 * (Z.of_nat (length (holidays cal)) + 1 + Z.abs n).
Proof.
  intros Hn Hb Hd. rewrite (displacement_ordinal (F:=XQ)) in Hd by done.
  set (w := Z.of_nat (length (holidays cal)) + 1 + Z.abs n).
  destruct (Z.le_gt_cases (o - b) (7 * w)), (Z.le_gt_cases (b - o) (7 * w)); [lia|..]; exfalso.
  - pose proof (open_in_weeks (F:=XQ) cal o w Hn ltac:(lia)). pose proof (ordinal_mono (F:=XQ) cal (o + 7 * w) b Hn ltac:(lia)). lia.
  - pose proof (open_in_weeks (F:=XQ) cal b w Hn ltac:(lia)). pose proof (ordinal_mono (F:=XQ) cal (b + 7 * w) o Hn ltac:(lia)). lia.
  - lia.
Qed.

End ref.

#[local] Instance ref_busday_laws : BusdayLaws.
Proof.
  split; [done|done| |].
  - intros cal d n roll b o Hn _ Hb _ Ho Hd Hro. simpl. pose proof (rolls_to_near (F:=XQ) _ _ _ _ Hn Hb).
    rewrite (pick_unique _ _ _ b); [|done| |unfold roll_range in *; lia].
    2: { intros b' Hb'. apply (open_ordinal cal); [done|apply Hb'|apply Hb|]. by eapply (rolls_to_unique (F:=XQ)). }
    rewrite (pick_unique _ _ _ o); [|done| |by apply displacement_near; [|apply Hb|]].
    + simpl. by rewrite bool_decide_true.
    + intros o' [Ho' Hd']. apply (open_ordinal cal); [done..|]. rewrite !(displacement_ordinal (F:=XQ)) in * by done. lia.
  - intros cal d n roll o. simpl. destruct (pick (rolls_to cal roll d) _ _) as [b|]; [|case_bool_decide; naive_solver].
    intros [= <-]. destruct (pick _ _ _); simpl; [case_bool_decide|]; auto.
Qed.

#[local] Instance ref_busday_nat : BusdayNat.
Proof.
  intros cal d n _ _ Ho. simpl. unfold pick. rewrite filter_none; [done|]. apply Forall_forall. intros b _ [Hb Hr].
  simpl in Hr. subst. congruence.
Qed.

(** Monday to Friday, closed on New Year's Day 2024. *)
Definition demo_calendar : busdaycalendar := mkBusdays [true; true; true; true; true; false; false] [19723].

Lemma demo_normalized : normalized demo_calendar.
Proof. split; [done|left|repeat constructor|repeat constructor]. Qed.

(** From the Saturday before New Year at 15:25, and from the Friday before it. *)
Definition demo_start : date_value := Datetime64 (mkDatetimes "m" 1 (Array [19721 * 1440 + 925; 19720 * 1440 + 925])).

Example demo_add : add_trading_days (F:=XQ) demo_calendar demo_start (IntOffsets (Scalar 1)) "allow" =
  Ok (mkDatetimes "m" 1 (Array [19724 * 1440 + 925; 19724 * 1440 + 925])).
Proof. vm_compute. reflexivity. Qed.

Example demo_overflow :
  add_trading_days (F:=XQ) demo_calendar (Datetime64 (mkDatetimes "ns" 1 (Scalar (2 ^ 63 - 1)))) (IntOffsets (Scalar 1)) "forward" =
  Err (OverflowError "trading-day offset exceeds the representable timestamp range").
Proof. vm_compute. reflexivity. Qed.

Definition demo_dates : nd (Z * Z) := Array [(19721, 925); (19720, 925)].
Definition demo_pairs : nd ((Z * Z) * Z) := Array [((19721, 925), 1); ((19720, 925), 1)].

Lemma add_trading_days_exact_witness :
  Forall2 (fun '((d, t), n) x => exists b, np_busday_offset demo_calendar d 0 (forward_roll "allow") = Ok b /\
      (b <> NaT -> Z.abs (b - d) <= roll_range demo_calendar /\
         exists o, x = o * (1440 / 1) + t /\ representable o /\ Z.abs x <= max_int64 /\
           displacement demo_calendar b o = net_offset demo_calendar "allow" d n) /\
      (forall b', rolls_to demo_calendar (forward_roll "allow") d b' -> representable b' ->
         rolls_to demo_calendar (forward_roll "allow") d b /\
         forall o, lands demo_calendar "allow" d n o -> representable o -> x = o * (1440 / 1) + t) /\
      ("allow"%string = "nat"%string -> open_day demo_calendar d = false -> x = NaT))
    (nd_values demo_pairs) [19724 * 1440 + 925; 19724 * 1440 + 925].
Proof.
  assert (Forall (fun '(d, t) => representable d /\ t <> NaT) (nd_values demo_dates)) as Hs
    by (repeat constructor; try (unfold representable, NaT; lia)).
  pose proof (add_trading_days_exact (F:=XQ) demo_calendar "allow" demo_start (Scalar 1) demo_dates "m" 1 1440 demo_pairs
    demo_normalized eq_refl eq_refl Hs eq_refl) as Hadd.
  rewrite demo_add in Hadd. apply Hadd.
Defined.

(** The end of June 2024 is a Sunday: the modified roll goes back to Friday. *)
Example demo_modified :
  add_trading_days (F:=XQ) demo_calendar (Datetime64 (mkDatetimes "D" 1 (Scalar 19904))) (IntOffsets (Scalar 0)) "modifiedfollowing" =
  Ok (mkDatetimes "D" 1 (Scalar 19902)).
Proof. vm_compute. reflexivity. Qed.

Lemma trading_days_counted_witness :
  num_trading_days (F:=XQ) demo_calendar (Datetime64 (mkDatetimes "D" 1 (Scalar 19720))) (Datetime64 (mkDatetimes "D" 1 (Array [19724; NaT])))
    false true = Ok ((fun x => if missing x then f_nan else
      f_of_Z (Z.of_nat (length (interval_days demo_calendar false true x.1 x.2)))) <$> Array [(19720, 19724); (19720, NaT)]).
Proof.
  assert (Forall (fun x => missing x = true \/ bounded x) (nd_values (Array [(19720, 19724); (19720, NaT)]))) as Hb.
  { constructor; [right; unfold bounded; simpl; lia|]. constructor; [by left|constructor]. }
  assert (as_np_date (Datetime64 (mkDatetimes "D" 1 (Scalar 19720))) = Ok (Some (Scalar 19720))) as Hs by by vm_compute.
  assert (as_np_date (Datetime64 (mkDatetimes "D" 1 (Array [19724; NaT]))) = Ok (Some (Array [19724; NaT]))) as He by by vm_compute.
  apply (trading_days_counted (F:=XQ) demo_calendar _ _ false true _ _ _ demo_normalized Hs He eq_refl Hb).
Defined.
