(* ===== verification/Segment.v ===== *)
(** * Mapped factor columns on disk (factor_cache.py)

    The reference implementation of the segment format: a header page that
    carries a commit mark and a checksum, then the little-endian doubles.  A file
    is its durable content together with the stores of the memory mapping that
    [flush] has not yet made durable; the writer leaves the history of the file
    behind, so that every moment at which it can die is a state to reason about. *)

From Stdlib Require Import Strings.Byte.
From S2P Require Import Prelude Ipc.

#[local] Open Scope Z_scope.

(** ** [struct.Struct("<8sIIQQQQ")] *)

Definition byte_of (z : Z) : byte := default x00 (Byte.of_N (Z.to_N z)).
Definition byte_value (b : byte) : Z := Z.of_N (Byte.to_N b).

(** [n] little-endian bytes of [v] *)
Fixpoint le_bytes (n : nat) (v : Z) : bytes :=
  match n with O => [] | S n => byte_of (v mod 256) :: le_bytes n (v / 256) end.

(** The format characters I and Q *)
Definition pack_uint (n : nat) (v : Z) : result bytes :=
  unless (0 <=? v) && (v <? 256 ^ Z.of_nat n) raise StructError ;;
  Ok (le_bytes n v).

Definition MAGIC : bytes := [x47; x41; x4d; x42; x49; x54; x46; x43].
Definition VERSION : Z := 1.
Definition COMMITTED : Z := 1.
Definition HEADER_BYTES : Z := 4096.

Record header := mkHeader {
  hd_magic : bytes; hd_version : Z; hd_state : Z; hd_rows : Z; hd_offset : Z; hd_data_bytes : Z; hd_checksum : Z;
}.

(** [HEADER.size] *)
Definition HEADER_size : Z := 48.

(** [HEADER.pack] *)
Definition pack_header (h : header) : result bytes :=
  version ← pack_uint 4 (hd_version h);
  state ← pack_uint 4 (hd_state h);
  rows ← pack_uint 8 (hd_rows h);
  offset ← pack_uint 8 (hd_offset h);
  data_bytes ← pack_uint 8 (hd_data_bytes h);
  checksum ← pack_uint 8 (hd_checksum h);
  Ok (hd_magic h ++ version ++ state ++ rows ++ offset ++ data_bytes ++ checksum).

(** [HEADER.unpack] of 48 bytes *)
Definition unpack_header (m : bytes) : header :=
  let field lo hi := le_value (bytes_slice m lo hi) in
  mkHeader (bytes_slice m 0 8) (field 8 12) (field 12 16) (field 16 24) (field 24 32) (field 32 40) (field 40 48).

(** [_checksum] *)
Definition checksum_step (value : Z) (b : byte) : Z :=
  let value := Z.lxor value (byte_value b) in
  Z.land (value * 1099511628211) (Z.shiftl 1 64 - 1).

Definition checksum (data : bytes) : Z := foldl checksum_step 1469598103934665603 data.

(** ** Doubles: [array.tobytes()] and [np.frombuffer(data, dtype="<f8")] *)

Class DoubleBytes (F : Type) := {
  double_bytes : F -> bytes;
  bytes_double : bytes -> F;
}.

Class DoubleBytesLaws (F : Type) `{DoubleBytes F} := {
  double_bytes_length x : length (double_bytes x) = 8%nat;
  double_bytes_inv x : bytes_double (double_bytes x) = x;
}.

Section segment.
Context {F : Type} `{DoubleBytes F}.

Definition tobytes (values : list F) : bytes := values ≫= double_bytes.

(** The first [n] doubles of a buffer *)
Fixpoint frombuffer (n : nat) (data : bytes) : list F :=
  match n with O => [] | S n => bytes_double (take 8 data) :: frombuffer n (drop 8 data) end.

(** ** Files and their memory mappings *)

(** What is durable, and the later stores (offset, bytes) in order. *)
Record file := mkFile { durable : bytes; pending : list (nat * bytes) }.

(** [mapping[offset:offset + len(data)] = data] *)
Definition store (content : bytes) (s : nat * bytes) : bytes :=
  take s.1 content ++ s.2 ++ drop (s.1 + length s.2) content.

(** The content a reader of the mapping sees *)
Definition view (f : file) : bytes := foldl store (durable f) (pending f).

(** A file operation extends the history of the file; the latest state is last. *)
Definition latest (history : list file) : file := default (mkFile [] []) (last history).
Definition file_step (f : file -> file) : ST (list file) unit := fun history => (history ++ [f (latest history)], Ok tt).

Definition truncate (n : Z) : ST (list file) unit :=
  file_step (fun f => mkFile (take (Z.to_nat n) (durable f) ++ replicate (Z.to_nat n - length (durable f)) x00) (pending f)).
Definition assign (offset : Z) (data : bytes) : ST (list file) unit :=
  file_step (fun f => mkFile (durable f) (pending f ++ [(Z.to_nat offset, data)])).
Definition flush : ST (list file) unit := file_step (fun f => mkFile (view f) []).

(** The writer's steps on the file it has just created *)
Definition write_segment (values : list F) : ST (list file) unit :=
  let array := tobytes values in
  let rows := Z.of_nat (length values) in
  _ ← truncate (HEADER_BYTES + len array);
  _ ← assign 0 (replicate (Z.to_nat HEADER_BYTES) x00);
  _ ← assign HEADER_BYTES array;
  history ← st_get;
  let sum := checksum (drop (Z.to_nat HEADER_BYTES) (view (latest history))) in
  uncommitted ← st_lift (pack_header (mkHeader MAGIC VERSION 0 rows HEADER_BYTES (len array) sum));
  _ ← assign 0 uncommitted;
  _ ← flush;
  committed ← st_lift (pack_header (mkHeader MAGIC VERSION COMMITTED rows HEADER_BYTES (len array) sum));
  _ ← assign 0 committed;
  flush.

(** The files of the cache, each by its history *)
Definition files := list (string * list file).

(** [write_reference_float64]: mode "xb+" refuses an existing path. *)
Definition write_reference_float64 (path : string) (values : list F) : ST files unit := fun fs =>
  match dict_get fs path with
  | Some _ => (fs, Err FileExistsError)
  | None => let '(history, r) := write_segment values [mkFile [] []] in (dict_set fs path history, r)
  end.

(** The checks and the copy of [read_reference_float64], on the mapped content *)
Definition read_segment (m : bytes) : result (list F) :=
  unless HEADER_BYTES <=? len m raise ValueError "factor cache segment is truncated" ;;
  let h := unpack_header m in
  whenever negb (bool_decide (hd_magic h = MAGIC)) || negb (hd_version h =? VERSION) || negb (hd_state h =? COMMITTED)
    raise ValueError "factor cache header is invalid or uncommitted" ;;
  whenever negb (hd_offset h =? HEADER_BYTES) || negb (hd_data_bytes h =? hd_rows h * 8)
    || negb (hd_offset h + hd_data_bytes h =? len m)
    raise ValueError "factor cache segment bounds are invalid" ;;
  let data := bytes_slice m (hd_offset h) (hd_offset h + hd_data_bytes h) in
  unless checksum data =? hd_checksum h raise ValueError "factor cache checksum mismatch" ;;
  Ok (frombuffer (Z.to_nat (hd_rows h)) data).

Definition read_reference_float64 (path : string) (fs : files) : result (list F) :=
  match dict_get fs path with
  | None => Err FileNotFoundError
  | Some history => read_segment (view (latest history))
  end.
End segment.
