(* ===== verification/SegmentFacts.v ===== *)
(** * What a factor segment promises

    A reader never accepts a segment whose writer died: at every moment the
    file, whatever part of the stores since the last [flush] has reached the
    disk, is refused or complete.  A complete segment gives the values back, and
    damage to one byte or to the length is noticed. *)

From Stdlib Require Import Strings.Byte.
From S2P Require Import Prelude Ipc Segment.

#[local] Open Scope Z_scope.

(** ** Bytes of integers *)

Lemma byte_value_range b : 0 <= byte_value b < 256.
Proof. unfold byte_value. pose proof (Byte.to_N_bounded b). lia. Qed.

Lemma byte_of_value b : byte_of (byte_value b) = b.
Proof. unfold byte_of, byte_value. by rewrite N2Z.id, Byte.of_to_N. Qed.

Lemma byte_value_of z : 0 <= z < 256 -> byte_value (byte_of z) = z.
Proof.
  intros Hz. unfold byte_of, byte_value. destruct (Byte.of_N (Z.to_N z)) as [b|] eqn:Hb.
  - apply Byte.to_of_N in Hb. simpl. rewrite Hb. lia.
  - apply Byte.of_N_None_iff in Hb. lia.
Qed.

Lemma le_bytes_length n v : length (le_bytes n v) = n.
Proof. revert v. induction n as [|n IH]; intros v; simpl; [done|]. by rewrite IH. Qed.

Lemma le_value_cons b s : le_value (b :: s) = byte_value b + 256 * le_value s.
Proof. done. Qed.

Lemma le_bytes_value s : le_bytes (length s) (le_value s) = s.
Proof.
  induction s as [|b s IH]; [done|]. cbn [length le_bytes]. rewrite le_value_cons. pose proof (byte_value_range b).
  replace (byte_value b + 256 * le_value s) with (byte_value b + le_value s * 256) by lia.
  rewrite Z.mod_add, Z.div_add, Z.mod_small, Z.div_small by lia. by rewrite Z.add_0_l, IH, byte_of_value.
Qed.

Lemma le_value_bytes n v : 0 <= v < 256 ^ Z.of_nat n -> le_value (le_bytes n v) = v.
Proof.
  revert v. induction n as [|n IH]; intros v Hv; [simpl in *; cbn; lia|]. cbn [le_bytes]. rewrite le_value_cons.
  rewrite Nat2Z.inj_succ, Z.pow_succ_r in Hv by lia. pose proof (Z.mod_pos_bound v 256 ltac:(lia)).
  rewrite byte_value_of, IH; [pose proof (Z.div_mod v 256 ltac:(lia)); lia| |done].
  split; [apply Z.div_pos; lia|apply Z.div_lt_upper_bound; lia].
Qed.

Lemma le_bytes_inj n v w : 0 <= v < 256 ^ Z.of_nat n -> 0 <= w < 256 ^ Z.of_nat n -> le_bytes n v = le_bytes n w -> v = w.
Proof. intros Hv Hw Heq. by rewrite <- (le_value_bytes n v), <- (le_value_bytes n w), Heq. Qed.

(** ** The checksum tells every single byte *)

Lemma checksum_step_mod v b : checksum_step v b = (Z.lxor v (byte_value b) * 1099511628211) mod 2 ^ 64.
Proof. unfold checksum_step. change (Z.shiftl 1 64 - 1) with (Z.ones 64). by rewrite Z.land_ones. Qed.

Lemma checksum_step_range v b : 0 <= checksum_step v b < 2 ^ 64.
Proof. rewrite checksum_step_mod. by apply Z.mod_pos_bound. Qed.

Lemma lxor_range v w : 0 <= v < 2 ^ 64 -> 0 <= w < 2 ^ 64 -> 0 <= Z.lxor v w < 2 ^ 64.
Proof.
  intros Hv Hw. assert (0 <= Z.lxor v w) as Hn by (apply Z.lxor_nonneg; lia). split; [done|].
  destruct (Z.eq_dec (Z.lxor v w) 0) as [->|Hne]; [lia|]. apply Z.log2_lt_pow2; [lia|].
  assert (forall z, 0 <= z < 2 ^ 64 -> Z.log2 z < 64) as Hlog.
  { intros z Hz. destruct (Z.eq_dec z 0) as [->|]; [done|]. apply Z.log2_lt_pow2; lia. }
  pose proof (Z.log2_lxor v w ltac:(lia) ltac:(lia)). pose proof (Hlog v Hv). pose proof (Hlog w Hw). lia.
Qed.

(** The multiplier is odd, so multiplication by it is undone modulo 2^64. *)
Lemma multiplier_cancel x y : 0 <= x < 2 ^ 64 -> 0 <= y < 2 ^ 64 ->
  (x * 1099511628211) mod 2 ^ 64 = (y * 1099511628211) mod 2 ^ 64 -> x = y.
Proof.
  set (inv := 14886173955864302971). intros Hx Hy Heq.
  assert (forall z, 0 <= z < 2 ^ 64 -> ((z * 1099511628211) mod 2 ^ 64 * inv) mod 2 ^ 64 = z) as Hinv.
  { intros z Hz. rewrite Z.mul_mod_idemp_l by lia. rewrite <- Z.mul_assoc, <- Z.mul_mod_idemp_r by lia.
    change ((1099511628211 * inv) mod 2 ^ 64) with 1. rewrite Z.mul_1_r. by apply Z.mod_small. }
  by rewrite <- (Hinv x), <- (Hinv y), Heq.
Qed.

Lemma checksum_step_inj v w b c : 0 <= v < 2 ^ 64 -> 0 <= w < 2 ^ 64 -> checksum_step v b = checksum_step w c ->
  Z.lxor v (byte_value b) = Z.lxor w (byte_value c).
Proof.
  intros Hv Hw. rewrite !checksum_step_mod. pose proof (byte_value_range b). pose proof (byte_value_range c).
  apply multiplier_cancel; apply lxor_range; lia.
Qed.

Lemma lxor_cancel_r v w b : Z.lxor v b = Z.lxor w b -> v = w.
Proof. intros Heq. rewrite <- (Z.lxor_0_r v), <- (Z.lxor_0_r w), <- (Z.lxor_nilpotent b), <- !Z.lxor_assoc. by rewrite Heq. Qed.

Lemma checksum_fold_range v data : 0 <= v < 2 ^ 64 -> 0 <= foldl checksum_step v data < 2 ^ 64.
Proof. revert v. induction data as [|b data IH]; intros v Hv; simpl; [done|]. apply IH, checksum_step_range. Qed.

Lemma checksum_fold_inj v w data : 0 <= v < 2 ^ 64 -> 0 <= w < 2 ^ 64 ->
  foldl checksum_step v data = foldl checksum_step w data -> v = w.
Proof.
  revert v w. induction data as [|b data IH]; intros v w Hv Hw Heq; simpl in *; [done|].
  apply IH in Heq; [|apply checksum_step_range..]. apply checksum_step_inj in Heq; [|done..]. by apply lxor_cancel_r in Heq.
Qed.

Lemma checksum_range data : 0 <= checksum data < 2 ^ 64.
Proof. by apply checksum_fold_range. Qed.

Lemma checksum_insert data i b : (i < length data)%nat -> checksum (<[i:=b]> data) = checksum data -> data !! i = Some b.
Proof.
  intros Hi. destruct (lookup_lt_is_Some_2 data i Hi) as [c Hc]. rewrite Hc.
  rewrite (insert_take_drop data i b) by done. rewrite <- (take_drop_middle data i c Hc) at 3.
  unfold checksum. rewrite !foldl_app. simpl. intros Heq.
  apply checksum_fold_inj in Heq; [|apply checksum_step_range..].
  apply checksum_step_inj in Heq; [|by apply checksum_fold_range..].
  rewrite (Z.lxor_comm _ (byte_value b)), (Z.lxor_comm _ (byte_value c)) in Heq. apply lxor_cancel_r in Heq.
  by rewrite <- (byte_of_value b), <- (byte_of_value c), Heq.
Qed.

(** ** The header a reader accepts *)

Definition header_of (state : Z) (data : bytes) : bytes :=
  MAGIC ++ le_bytes 4 VERSION ++ le_bytes 4 state ++ le_bytes 8 (len data / 8) ++ le_bytes 8 HEADER_BYTES ++
  le_bytes 8 (len data) ++ le_bytes 8 (checksum data).

Lemma header_of_length state data : length (header_of state data) = 48%nat.
Proof. unfold header_of. by rewrite !length_app, !le_bytes_length. Qed.

Lemma bytes_slice_length m lo hi : 0 <= lo <= hi -> hi <= len m -> length (bytes_slice m lo hi) = Z.to_nat (hi - lo).
Proof. unfold len, bytes_slice. intros Hlo Hhi. rewrite length_take, length_drop. lia. Qed.

Lemma slice_le m lo hi n : 0 <= lo <= hi -> hi <= len m -> n = Z.to_nat (hi - lo) ->
  le_bytes n (le_value (bytes_slice m lo hi)) = bytes_slice m lo hi.
Proof. intros Hlo Hhi ->. by rewrite <- (bytes_slice_length m lo hi), le_bytes_value. Qed.

Lemma take_slice m lo hi : 0 <= lo <= hi -> take (Z.to_nat hi) m = take (Z.to_nat lo) m ++ bytes_slice m lo hi.
Proof. intros Hlo. unfold bytes_slice. rewrite take_take_drop. f_equal. lia. Qed.

(** The fields, and the fields only, make up the first 48 bytes. *)
Lemma unpack_take m : 48 <= len m -> let h := unpack_header m in
  take 48 m = hd_magic h ++ le_bytes 4 (hd_version h) ++ le_bytes 4 (hd_state h) ++ le_bytes 8 (hd_rows h) ++
    le_bytes 8 (hd_offset h) ++ le_bytes 8 (hd_data_bytes h) ++ le_bytes 8 (hd_checksum h).
Proof.
  intros Hm. unfold unpack_header. cbn [hd_magic hd_version hd_state hd_rows hd_offset hd_data_bytes hd_checksum].
  change 48%nat with (Z.to_nat 48).
  rewrite (take_slice m 40 48), (take_slice m 32 40), (take_slice m 24 32), (take_slice m 16 24), (take_slice m 12 16),
    (take_slice m 8 12), (take_slice m 0 8) by lia.
  rewrite take_0, app_nil_l, <- !app_assoc. by rewrite !slice_le by (done || lia).
Qed.

Lemma read_segment_checks {F} `{DoubleBytes F} m (v : list F) : read_segment m = Ok v -> let h := unpack_header m in
  HEADER_BYTES <= len m /\ hd_magic h = MAGIC /\ hd_version h = VERSION /\ hd_state h = COMMITTED /\
  hd_offset h = HEADER_BYTES /\ hd_data_bytes h = hd_rows h * 8 /\ hd_offset h + hd_data_bytes h = len m /\
  checksum (bytes_slice m (hd_offset h) (hd_offset h + hd_data_bytes h)) = hd_checksum h.
Proof.
  unfold read_segment. intros Hr. inv_ok Hr. bools. rewrite ?negb_false_iff, ?negb_true_iff in *. bools. split_and!; done.
Qed.

Lemma bytes_slice_rest m lo : 0 <= lo -> bytes_slice m lo (len m) = drop (Z.to_nat lo) m.
Proof. intros Hlo. unfold bytes_slice, len. apply take_ge. rewrite length_drop. lia. Qed.

Lemma len_drop m : HEADER_BYTES <= len m -> len (drop 4096 m) = len m - HEADER_BYTES.
Proof. unfold len, HEADER_BYTES. rewrite length_drop. lia. Qed.

Lemma le_value_range s : 0 <= le_value s < 256 ^ len s.
Proof.
  unfold len. induction s as [|b s IH]; [done|]. rewrite le_value_cons. pose proof (byte_value_range b).
  cbn [length]. rewrite Nat2Z.inj_succ, Z.pow_succ_r by lia. lia.
Qed.

(** The rest of the file determines the header of a segment that is accepted. *)
Lemma read_segment_header {F} `{DoubleBytes F} m (v : list F) : read_segment m = Ok v ->
  HEADER_BYTES <= len m /\ take 48 m = header_of COMMITTED (drop 4096 m) /\ 0 <= len (drop 4096 m) < 256 ^ 8.
Proof.
  intros (Hlen & Hmagic & Hversion & Hstate & Hoffset & Hdata & Hend & Hsum)%read_segment_checks. split; [done|].
  rewrite Hend, Hoffset in Hsum. rewrite bytes_slice_rest in Hsum by done. change (Z.to_nat HEADER_BYTES) with 4096%nat in Hsum.
  assert (hd_data_bytes (unpack_header m) = len (drop 4096 m)) as Hd by (rewrite len_drop by done; lia).
  assert (hd_rows (unpack_header m) = len (drop 4096 m) / 8) as Hrows by (rewrite <- Hd, Hdata, Z.div_mul; done).
  rewrite unpack_take by (unfold HEADER_BYTES in Hlen; lia).
  split; [by rewrite Hmagic, Hversion, Hstate, Hoffset, Hrows, Hd, <- Hsum|]. rewrite <- Hd.
  pose proof (le_value_range (bytes_slice m 32 40)) as Hr. unfold len at 1 in Hr.
  rewrite bytes_slice_length in Hr by (unfold HEADER_BYTES in Hlen; lia). exact Hr.
Qed.

Lemma header_of_inj state data data' : 0 <= len data < 256 ^ 8 -> 0 <= len data' < 256 ^ 8 ->
  header_of state data = header_of state data' -> len data = len data' /\ checksum data = checksum data'.
Proof.
  intros Hd Hd' Heq. pose proof (checksum_range data). pose proof (checksum_range data').
  apply (f_equal (drop 32)) in Heq. change (le_bytes 8 (len data) ++ le_bytes 8 (checksum data) =
    le_bytes 8 (len data') ++ le_bytes 8 (checksum data')) in Heq.
  apply app_inj_1 in Heq as [Hl Hc]; [|by rewrite !le_bytes_length].
  split; (eapply (le_bytes_inj 8); [..|done]); simpl; lia.
Qed.

Lemma read_segment_error {F} `{DoubleBytes F} m e : read_segment (F:=F) m = Err e -> exists msg, e = ValueError msg.
Proof.
  unfold read_segment. intros Hr. repeat (apply guard_bind_Err in Hr as [[_ <-]|[_ Hr]]; [by eexists|]). done.
Qed.

(** ** A complete segment *)

(** The file with a header of the given state *)
Definition image (state : Z) (data : bytes) : bytes := header_of state data ++ replicate 4048 x00 ++ data.

Lemma image_length state data : length (image state data) = (4096 + length data)%nat.
Proof. unfold image. rewrite !length_app, header_of_length, length_replicate. lia. Qed.

Lemma image_drop state data : drop 4096 (image state data) = data.
Proof.
  unfold image. rewrite app_assoc. apply drop_app_length'. by rewrite length_app, header_of_length, length_replicate.
Qed.

(** Only byte 12 tells a complete segment from an unfinished one. *)
Lemma image_mark data : exists pre post, length pre = 12%nat /\
  image 0 data = pre ++ x00 :: post /\ image COMMITTED data = pre ++ x01 :: post.
Proof.
  exists (MAGIC ++ le_bytes 4 VERSION). eexists ([x00; x00; x00] ++ _). split; [done|].
  unfold image, header_of. rewrite <- !app_assoc. by split.
Qed.

Lemma image_mark_ne data i : i <> 12%nat -> image 0 data !! i = image COMMITTED data !! i.
Proof.
  intros Hi. destruct (image_mark data) as (pre & post & Hl & -> & ->).
  destruct (decide (i < 12)%nat); [by rewrite !lookup_app_l by lia|].
  rewrite !lookup_app_r by lia. by destruct (i - length pre)%nat eqn:Hd; [lia|].
Qed.

Lemma image_mark_at data : image 0 data !! 12%nat = Some x00 /\ image COMMITTED data !! 12%nat = Some x01.
Proof.
  destruct (image_mark data) as (pre & post & Hl & -> & ->). by rewrite !list_lookup_middle by done.
Qed.

Lemma accepted_mark {F} `{DoubleBytes F} m (v : list F) : read_segment m = Ok v -> m !! 12%nat = Some x01.
Proof.
  intros (_ & Hh & _)%read_segment_header. rewrite <- (lookup_take_lt m 48 12) by lia. by rewrite Hh.
Qed.

(** A file whose commit byte is clear is refused. *)
Lemma refused {F} `{DoubleBytes F} m : m !! 12%nat = Some x00 -> exists msg, read_segment (F:=F) m = Err (ValueError msg).
Proof.
  intros Hm. destruct (read_segment m) as [v|e] eqn:Hr.
  - apply accepted_mark in Hr. congruence.
  - apply read_segment_error in Hr as [msg ->]. by exists msg.
Qed.

Section writer.
Context {F : Type} `{DoubleBytes F} `{!DoubleBytesLaws F}.
Implicit Types values : list F.

Lemma tobytes_length values : length (tobytes values) = (8 * length values)%nat.
Proof.
  induction values as [|x values IH]; [done|]. change (tobytes (x :: values)) with (double_bytes x ++ tobytes values).
  rewrite length_app, double_bytes_length, IH. simpl. lia.
Qed.

Lemma frombuffer_tobytes values : frombuffer (length values) (tobytes values) = values.
Proof.
  induction values as [|x values IH]; [done|]. change (tobytes (x :: values)) with (double_bytes x ++ tobytes values).
  cbn [length frombuffer]. rewrite (take_app_length' _ _ 8), (drop_app_length' _ _ 8) by by rewrite double_bytes_length. by rewrite double_bytes_inv, IH.
Qed.

(** The array fits a file. *)
Definition fits values : Prop := Z.of_nat (length values) < 2 ^ 60.

Lemma tobytes_len values : len (tobytes values) = Z.of_nat (length values) * 8.
Proof. unfold len. rewrite tobytes_length. lia. Qed.

Lemma pack_header_of state values : fits values -> state = 0 \/ state = COMMITTED ->
  pack_header (mkHeader MAGIC VERSION state (Z.of_nat (length values)) HEADER_BYTES (len (tobytes values)) (checksum (tobytes values)))
  = Ok (header_of state (tobytes values)).
Proof.
  intros Hf Hs. unfold fits in Hf. pose proof (checksum_range (tobytes values)) as Hc. unfold pack_header, pack_uint, header_of.
  rewrite tobytes_len, Z.div_mul by done. cbn [hd_version hd_state hd_rows hd_offset hd_data_bytes hd_checksum].
  assert (forall n v, 0 <= v < 256 ^ Z.of_nat n -> (0 <=? v) && (v <? 256 ^ Z.of_nat n) = true) as Hin.
  { intros n v Hv. apply andb_true_iff. lia. }
  rewrite !Hin by (split; [by destruct Hs; subst; try done; lia|]; destruct Hs; subst; try done; simpl; lia). done.
Qed.

(** The fields of a header that starts a file *)
Lemma unpack_image state data : 0 <= state < 256 -> len data < 2 ^ 64 ->
  unpack_header (image state data) = mkHeader MAGIC VERSION state (len data / 8) HEADER_BYTES (len data) (checksum data).
Proof.
  intros Hs Hd. pose proof (checksum_range data) as Hc. assert (0 <= len data) by (unfold len; lia).
  assert (0 <= len data / 8 < 2 ^ 64) by (split; [apply Z.div_pos; lia|apply Z.div_lt_upper_bound; lia]).
  unfold unpack_header. f_equal.
  - by apply (le_value_bytes 4 state); simpl; lia.
  - by apply (le_value_bytes 8 (len data / 8)); simpl; lia.
  - by apply (le_value_bytes 8 (len data)); simpl; lia.
  - by apply (le_value_bytes 8 (checksum data)); simpl; lia.
Qed.

Lemma read_image values : fits values -> read_segment (image COMMITTED (tobytes values)) = Ok values.
Proof.
  intros Hf. unfold fits in Hf. pose proof (tobytes_len values) as Ht. unfold read_segment.
  rewrite unpack_image by (unfold COMMITTED; lia). cbv zeta.
  cbn [hd_magic hd_version hd_state hd_rows hd_offset hd_data_bytes hd_checksum].
  assert (len (image COMMITTED (tobytes values)) = HEADER_BYTES + len (tobytes values)) as Hl
    by (unfold len, HEADER_BYTES; rewrite image_length; lia).
  rewrite <- Hl, bytes_slice_rest by done. change (Z.to_nat HEADER_BYTES) with 4096%nat. rewrite image_drop.
  rewrite (proj2 (Z.leb_le HEADER_BYTES _)) by (rewrite Hl, Ht; lia). rewrite bool_decide_true, !Z.eqb_refl by done.
  rewrite Ht, Z.div_mul, Z.eqb_refl by done. cbn. by rewrite Nat2Z.id, frombuffer_tobytes.
Qed.

(** ** Every moment of the writer *)

Definition zeros (n : nat) : bytes := replicate n x00.

(** The states of the file, in order *)
Definition moments values : list file :=
  let data := tobytes values in
  let blank := zeros (4096 + length data) in
  let header_page := (0%nat, zeros 4096) in
  [mkFile [] []; mkFile blank []; mkFile blank [header_page]; mkFile blank [header_page; (4096%nat, data)];
   mkFile blank [header_page; (4096%nat, data); (0%nat, header_of 0 data)];
   mkFile (image 0 data) []; mkFile (image 0 data) [(0%nat, header_of COMMITTED data)]; mkFile (image COMMITTED data) []].

Lemma store_front content d : store content (0%nat, d) = d ++ drop (length d) content.
Proof. done. Qed.

Lemma store_header state state' data : store (image state data) (0%nat, header_of state' data) = image state' data.
Proof. rewrite store_front, header_of_length. by unfold image. Qed.

Lemma view_data data :
  store (store (zeros (4096 + length data)) (0%nat, zeros 4096)) (4096%nat, data) = zeros 4096 ++ data.
Proof.
  rewrite store_front. unfold store, zeros. cbn [fst snd]. rewrite (take_app_length' _ _ 4096) by by rewrite length_replicate.
  rewrite (drop_ge _ (4096 + _)), app_nil_r; [done|]. rewrite length_app, length_drop, !length_replicate. lia.
Qed.

Lemma view_uncommitted data : store (zeros 4096 ++ data) (0%nat, header_of 0 data) = image 0 data.
Proof.
  rewrite store_front, header_of_length. unfold image, zeros.
  rewrite drop_app_le by (rewrite length_replicate; lia). by rewrite drop_replicate.
Qed.

Lemma latest_snoc h f : latest (h ++ [f]) = f.
Proof. unfold latest. by rewrite last_snoc. Qed.

Lemma step_bind {A} (g : file -> file) (k : unit -> ST (list file) A) h f :
  (file_step g ≫= k) (h ++ [f]) = k tt ((h ++ [f]) ++ [g f]).
Proof. unfold mbind, ST_bind, file_step. by rewrite latest_snoc. Qed.

Lemma lift_bind {A B} (a : A) (k : A -> ST (list file) B) h : (st_lift (Ok a) ≫= k) h = k a h.
Proof. done. Qed.

Lemma write_segment_moments values : fits values -> write_segment values [mkFile [] []] = (moments values, Ok tt).
Proof.
  intros Hf. unfold write_segment, truncate, assign, flush. change [mkFile [] []] with ([] ++ [mkFile [] []]).
  rewrite !step_bind. unfold mbind at 1, ST_bind at 1. cbn [st_get]. rewrite latest_snoc.
  cbn [durable pending]. rewrite take_nil, app_nil_l.
  replace (Z.to_nat (HEADER_BYTES + len (tobytes values)) - length (@nil byte))%nat with (4096 + length (tobytes values))%nat
    by (unfold HEADER_BYTES, len; simpl length; lia).
  change (Z.to_nat HEADER_BYTES) with 4096%nat. change (Z.to_nat 0) with 0%nat. fold (zeros 4096) (zeros (4096 + length (tobytes values))).
  set (data := tobytes values). set (f3 := mkFile (zeros (4096 + length data)) (([] ++ [(0%nat, zeros 4096)]) ++ [(4096%nat, data)])).
  assert (view f3 = zeros 4096 ++ data) as Hv by apply view_data.
  assert (drop 4096 (view f3) = data) as -> by (rewrite Hv; apply drop_app_length'; unfold zeros; by rewrite length_replicate).
  pose proof (pack_header_of 0 values Hf (or_introl eq_refl)) as H0. pose proof (pack_header_of COMMITTED values Hf (or_intror eq_refl)) as H1.
  fold data in H0, H1. rewrite H0, H1, !lift_bind, !step_bind, lift_bind, !step_bind.
  unfold file_step. rewrite latest_snoc. cbn [durable pending].
  assert (view (mkFile (durable f3) (pending f3 ++ [(0%nat, header_of 0 data)])) = image 0 data) as ->.
  { unfold view. cbn [durable pending]. rewrite foldl_app. cbn [foldl]. rewrite <- view_uncommitted. f_equal. apply Hv. }
  unfold view. cbn [durable pending foldl app]. by rewrite store_header.
Qed.

(** What may be found of a file whose writer died: of every byte of the
    mapping, any value it had since the last flush. *)
Definition crashed (f : file) (c : bytes) : Prop :=
  length c = length (durable f) /\
  forall i b, c !! i = Some b -> exists k, foldl store (durable f) (take k (pending f)) !! i = Some b.

Lemma crashed_durable d c : crashed (mkFile d []) c -> c = d.
Proof.
  intros [Hl Hc]. simpl in Hl. apply list_eq_same_length with (length d); [done..|]. intros i x y Hi Hx Hy.
  destruct (Hc i x Hx) as [k Hk]. cbn [durable pending] in Hk. rewrite take_nil in Hk. cbn [foldl] in Hk. congruence.
Qed.

(** While every store leaves the commit byte clear, so does a crash. *)
Lemma crashed_refused f c : (12 < length (durable f))%nat ->
  (forall k, foldl store (durable f) (take k (pending f)) !! 12%nat = Some x00) -> crashed f c ->
  exists msg, read_segment (F:=F) c = Err (ValueError msg).
Proof.
  intros Hlen Hk [Hl Hc]. apply refused. destruct (lookup_lt_is_Some_2 c 12) as [b Hb]; [lia|].
  destruct (Hc _ _ Hb) as [k Hkb]. rewrite Hk in Hkb. by simplify_eq.
Qed.

Lemma store_front_mark content d : d !! 12%nat = Some x00 -> store content (0%nat, d) !! 12%nat = Some x00.
Proof. intros Hd. rewrite store_front. apply lookup_app_l_Some, Hd. Qed.

Lemma store_data_mark content d : content !! 12%nat = Some x00 -> (4096 <= length content)%nat ->
  store content (4096%nat, d) !! 12%nat = Some x00.
Proof.
  intros Hc Hl. unfold store. cbn [fst snd]. apply lookup_app_l_Some. by rewrite lookup_take_lt by lia.
Qed.

Lemma unfinished_mark data k :
  foldl store (zeros (4096 + length data)) (take k [(0%nat, zeros 4096); (4096%nat, data); (0%nat, header_of 0 data)]) !! 12%nat = Some x00.
Proof.
  assert (zeros (4096 + length data) !! 12%nat = Some x00) as H0 by (apply lookup_replicate; split; [done|lia]).
  assert (store (zeros (4096 + length data)) (0%nat, zeros 4096) !! 12%nat = Some x00) as H1
    by (apply store_front_mark, lookup_replicate; split; [done|lia]).
  destruct k as [|[|[|k]]]; simpl take; cbn [foldl]; [done|done| |].
  - apply store_data_mark; [done|]. rewrite store_front, length_app. unfold zeros. rewrite length_replicate. lia.
  - rewrite take_nil. cbn [foldl]. by apply store_front_mark.
Qed.

(** A crash while the commit mark is written leaves it clear or set. *)
Lemma crashed_commit data c : crashed (mkFile (image 0 data) [(0%nat, header_of COMMITTED data)]) c ->
  c !! 12%nat = Some x00 \/ c = image COMMITTED data.
Proof.
  intros [Hl Hc]. cbn [durable pending] in *.
  assert (forall i b, c !! i = Some b -> image 0 data !! i = Some b \/ image COMMITTED data !! i = Some b) as Hc'.
  { intros i b Hb. destruct (Hc i b Hb) as [[|k] Hk]; simpl in Hk; [by left|]. rewrite take_nil in Hk. cbn [foldl] in Hk.
    rewrite store_header in Hk. by right. }
  destruct (lookup_lt_is_Some_2 c 12) as [b Hb]; [rewrite Hl, image_length; lia|].
  destruct (image_mark_at data) as [Hz Ho].
  destruct (Hc' _ _ Hb) as [Hb0|Hb1]; [left; congruence|right].
  apply list_eq_same_length with (length (image COMMITTED data)); [done|by rewrite Hl, !image_length|].
  intros i x y Hi Hx Hy. destruct (decide (i = 12)%nat) as [->|Hne]; [congruence|].
  destruct (Hc' _ _ Hx) as [Hx'|Hx']; [rewrite image_mark_ne in Hx' by done|]; congruence.
Qed.

Lemma moments_crashed values : fits values -> Forall (fun f => forall c, crashed f c ->
  read_segment c = Ok values \/ exists msg, read_segment (F:=F) c = Err (ValueError msg)) (moments values).
Proof.
  intros Hf. set (data := tobytes values) in *.
  assert (forall j c, crashed (mkFile (zeros (4096 + length data))
    (take j [(0%nat, zeros 4096); (4096%nat, data); (0%nat, header_of 0 data)])) c -> exists msg, read_segment (F:=F) c = Err (ValueError msg)) as Hj.
  { intros j c. apply crashed_refused; cbn [durable pending]; [unfold zeros; rewrite length_replicate; lia|].
    intros k. rewrite take_take. apply unfinished_mark. }
  unfold moments. fold data. repeat (apply Forall_cons_2; [intros c Hc|]); [..|constructor].
  - apply crashed_durable in Hc as ->. right. by eexists.
  - right. exact (Hj 0%nat c Hc).
  - right. exact (Hj 1%nat c Hc).
  - right. exact (Hj 2%nat c Hc).
  - right. exact (Hj 3%nat c Hc).
  - apply crashed_durable in Hc as ->. right. exact (refused _ (proj1 (image_mark_at data))).
  - apply crashed_commit in Hc as [Hc| ->]; [right; exact (refused _ Hc)|left; exact (read_image _ Hf)].
  - apply crashed_durable in Hc as ->. left. exact (read_image _ Hf).
Qed.

Lemma latest_moments values : latest (moments values) = mkFile (image COMMITTED (tobytes values)) [].
Proof. done. Qed.

(** C16: Writing a segment is atomic and durable, and reading gives the values back.
    An existing file is refused untouched.  Otherwise the writer succeeds and
    leaves the other files alone; at every moment, whatever bytes of the stores
    since the last flush a crash leaves, a reader gets all the values or a
    [ValueError]; once the writer has returned, a reader gets the values, and
    so does one after a crash. *)
Theorem segment_write_atomic path values (fs fs' : files) r : fits values ->
  write_reference_float64 path values fs = (fs', r) ->
  match dict_get fs path with
  | Some _ => r = Err FileExistsError /\ fs' = fs
  | None => r = Ok tt /\ (forall p, p <> path -> dict_get fs' p = dict_get fs p) /\
      read_reference_float64 path fs' = Ok values /\
      exists history, dict_get fs' path = Some history /\
        (forall c, crashed (latest history) c -> read_segment c = Ok values) /\
        forall f c, f ∈ history -> crashed f c ->
          read_segment c = Ok values \/ exists msg, read_segment (F:=F) c = Err (ValueError msg)
  end.
Proof.
  intros Hf Hw. unfold write_reference_float64 in Hw. destruct (dict_get fs path) eqn:Hp; [by simplify_eq|].
  rewrite write_segment_moments in Hw by done. injection Hw as <- <-. split; [done|].
  split; [intros p Hne; exact (dict_get_set_ne _ _ _ _ Hne)|]. unfold read_reference_float64. rewrite dict_get_set_eq.
  rewrite latest_moments. split; [exact (read_image _ Hf)|]. exists (moments values). split; [done|]. rewrite latest_moments.
  split; [|intros f c Hin; exact (proj1 (Forall_forall _ _) (moments_crashed values Hf) f Hin c)]. intros c ->%crashed_durable. exact (read_image _ Hf).
Qed.

End writer.

(** ** Damage is noticed *)

(** One byte of the header or of the data has changed, or the length has. *)
Inductive damaged (m : bytes) : bytes -> Prop :=
  | damaged_byte i b : (i < length m)%nat -> (i < 48 \/ 4096 <= i)%nat -> m !! i <> Some b -> damaged m (<[i:=b]> m)
  | damaged_cut k : (k < length m)%nat -> damaged m (take k m)
  | damaged_grown more : more <> [] -> damaged m (m ++ more).

(** C30: Damage is noticed.  If a segment is accepted, then a file that differs from
    it in one byte of the header or of the data, or that was cut or has grown,
    is refused with a [ValueError]. *)
Theorem segment_damage_detected `{DoubleBytes F} m m' (v : list F) :
  read_segment m = Ok v -> damaged m m' -> exists msg, read_segment (F:=F) m' = Err (ValueError msg).
Proof.
  intros (Hlen & Hhead & Hsize)%read_segment_header Hdam. destruct (read_segment m') as [v'|e] eqn:Hr.
  2: { apply read_segment_error in Hr as [msg ->]. by exists msg. }
  exfalso. apply read_segment_header in Hr as (Hlen' & Hhead' & Hsize'). unfold HEADER_BYTES, len in Hlen, Hlen'.
  destruct Hdam as [i b Hi [Hlow|Hhigh] Hb|k Hk|more Hmore].
  - rewrite drop_insert_lt, <- Hhead in Hhead' by lia. apply Hb. rewrite <- (lookup_take_lt m 48 i), <- Hhead' by lia.
    rewrite lookup_take_lt by lia. by apply list_lookup_insert_eq.
  - rewrite take_insert_ge, Hhead in Hhead' by lia. apply header_of_inj in Hhead' as [_ Hc]; [|done..].
    rewrite drop_insert_ge in Hc by lia. apply Hb. symmetry in Hc. apply checksum_insert in Hc; [|rewrite length_drop; lia].
    rewrite lookup_drop in Hc. by replace (4096 + (i - 4096))%nat with i in Hc by lia.
  - rewrite length_take in Hlen'. rewrite take_take, Nat.min_l, Hhead in Hhead' by lia.
    apply header_of_inj in Hhead' as [Hl _]; [|done..]. unfold len in Hl. rewrite !length_drop, length_take in Hl. lia.
  - rewrite take_app_le, Hhead in Hhead' by lia. apply header_of_inj in Hhead' as [Hl _]; [|done..].
    destruct more as [|b more]; [done|]. unfold len in Hl. rewrite !length_drop, length_app in Hl. simpl in Hl. lia.
Qed.

(** ** A concrete segment

    A double as its eight bytes. *)
Definition double := (byte * byte * byte * byte * byte * byte * byte * byte)%type.

#[local] Instance double_patterns : DoubleBytes double := {
  double_bytes '(b0, b1, b2, b3, b4, b5, b6, b7) := [b0; b1; b2; b3; b4; b5; b6; b7];
  bytes_double s := match s with
    | [b0; b1; b2; b3; b4; b5; b6; b7] => (b0, b1, b2, b3, b4, b5, b6, b7)
    | _ => (x00, x00, x00, x00, x00, x00, x00, x00)
    end;
}.

#[local] Instance double_patterns_laws : DoubleBytesLaws double.
Proof. split; by intros [[[[[[[]]]]]]]. Qed.

(** 1.0 and -2.5 *)
Definition demo_values : list double :=
  [(x00, x00, x00, x00, x00, x00, xf0, x3f); (x00, x00, x00, x00, x00, x00, x04, xc0)].

Definition demo_written : files * result unit := write_reference_float64 "value.bin" demo_values [].

Example demo_damage :
  (fun history => read_segment (F:=double) (<[4100%nat:=x01]> (view (latest history)))) <$> dict_get demo_written.1 "value.bin" =
  Some (Err (ValueError "factor cache checksum mismatch")).
Proof. vm_compute. reflexivity. Qed.

Lemma segment_write_atomic_witness : exists fs, demo_written = (fs, Ok tt) /\ read_reference_float64 "value.bin" fs = Ok demo_values.
Proof.
  assert (fits demo_values) as Hf by (unfold fits; simpl; lia). unfold demo_written.
  destruct (write_reference_float64 "value.bin" demo_values []) as [fs r] eqn:Hd.
  destruct (segment_write_atomic "value.bin" demo_values [] fs r Hf Hd) as (-> & _ & Hr & _). exists fs. split; [reflexivity|exact Hr].
Defined.

Lemma segment_damage_detected_witness :
  exists msg, read_segment (F:=double) (take 5000 (image COMMITTED (tobytes demo_values)) ++ [x00]) = Err (ValueError msg).
Proof.
  assert (fits demo_values) as Hf by (unfold fits; simpl; lia).
  apply (segment_damage_detected (image COMMITTED (tobytes demo_values)) _ demo_values (read_image demo_values Hf)).
  rewrite take_ge by (rewrite image_length, tobytes_length; simpl length; lia). by apply damaged_grown.
Defined.
