(* ===== verification/FactorIdentity.v ===== *)
(** * Identities of factor-DAG nodes (factor_identity.py)

    A node's key is the digest of a canonical JSON payload of everything its
    output depends on.  [value] is what the canonical mappings hold; a mapping is
    its items in insertion order, a key that is not a string being [None].  A
    string is a sequence of single-byte characters.  [json.dumps], [json.loads]
    and the digest are the classes [JsonText] and [Sha256]. *)

From Stdlib Require Import Ascii.
From S2P Require Import Prelude Numeric.

#[local] Open Scope Z_scope.

Inductive value (F : Type) :=
  | VNone
  | VBool (b : bool)
  | VInt (z : Z)
  | VFloat (x : F)
  | VStr (s : string)
  | VSeq (l : list (value F))
  | VMap (l : list (option string * value F))
  | VOther (oid : positive).
Arguments VNone {F}.
Arguments VBool {F} b.
Arguments VInt {F} z.
Arguments VFloat {F} x.
Arguments VStr {F} s.
Arguments VSeq {F} l.
Arguments VMap {F} l.
Arguments VOther {F} oid.

(** ** Items in the order of their keys *)

Definition key_text (k : option string) : string := default ""%string k.
Definition key_le {A} (x y : option string * A) : Prop := String.le (key_text x.1) (key_text y.1).
#[export] Instance key_le_dec {A} (x y : option string * A) : Decision (key_le x y).
Proof. unfold key_le. apply _. Defined.

Definition sorted_items {A} (l : list (option string * A)) : list (option string * A) := merge_sort key_le l.

(** [json.dumps(value, sort_keys=True, ...)] orders every mapping. *)
Fixpoint sort_keys {F} (v : value F) : value F :=
  match v with
  | VSeq l => VSeq (sort_keys <$> l)
  | VMap l => VMap (sorted_items ((fun x => (x.1, sort_keys x.2)) <$> l))
  | v => v
  end.

(** Values JSON can hold: mappings with string keys, each key once *)
Fixpoint json_plain {F} (v : value F) : bool :=
  match v with
  | VSeq l => forallb json_plain l
  | VMap l => bool_decide (NoDup l.*1) && forallb (fun x => bool_decide (is_Some x.1) && json_plain x.2) l
  | VOther _ => false
  | _ => true
  end.

Class JsonText (F T : Type) := {
  json_dumps : value F -> T;             (* sort_keys=True, separators=(",", ":"), UTF-8 *)
  json_loads : T -> result (value F);
}.

(** Sorting the keys makes the text a function of the sorted value, and loading
    it gives that value back. *)
Class JsonTextLaws (F T : Type) `{JsonText F T} := {
  json_dumps_sorted v : json_plain v = true -> json_dumps v = json_dumps (sort_keys v);
  json_loads_dumps v : json_plain v = true -> json_loads (json_dumps v) = Ok (sort_keys v);
}.

(** [hashlib.sha256(payload).hexdigest()] *)
Class Sha256 (T : Type) := sha256_hex : T -> string.

(** ** Names and digests *)

Definition IDENTITY_FORMAT : string := "gambit-factor-node".
Definition IDENTITY_VERSION : Z := 1.

Definition ascii_in (lo hi c : ascii) : bool := (N_of_ascii lo <=? N_of_ascii c)%N && (N_of_ascii c <=? N_of_ascii hi)%N.

Fixpoint all_chars (p : ascii -> bool) (s : string) : bool :=
  match s with EmptyString => true | String c s => p c && all_chars p s end.

Definition hex_digit (c : ascii) : bool := ascii_in "0" "9" c || ascii_in "a" "f" c.

(** [re.compile(r"[0-9a-f]{64}").fullmatch(s)] *)
Definition is_digest (s : string) : bool := bool_decide (String.length s = 64%nat) && all_chars hex_digit s.

Definition ascii_letter (c : ascii) : bool := ascii_in "A" "Z" c || ascii_in "a" "z" c.

(** [re.compile(r"[A-Za-z][A-Za-z0-9_.-]{0,127}").fullmatch(s)] *)
Definition is_name (s : string) : bool :=
  match s with
  | EmptyString => false
  | String c rest => ascii_letter c && (String.length rest <=? 127)%nat &&
      all_chars (fun c => ascii_letter c || ascii_in "0" "9" c || bool_decide (c ∈ ["_"; "."; "-"]%char)) rest
  end.

Definition validate_digest (value : string) : result unit :=
  unless is_digest value raise ValueError "must contain lowercase SHA-256 digests" ;; Ok tt.

Section identity.
Context {F T : Type} `{PyFloat F} `{JsonText F T} `{Sha256 T}.

(** [_canonicalize] *)
Definition bad_key (k : option string) : bool := match k with Some s => String.eqb s "" | None => true end.

Fixpoint canonicalize (v : value F) : result (value F) :=
  match v with
  | VNone | VBool _ | VInt _ | VStr _ => Ok v
  | VFloat x => unless f_isfinite x raise ValueError "contains a non-finite float" ;; Ok v
  | VMap l =>
      whenever existsb bad_key l.*1 raise ValueError "mapping keys must be non-empty strings" ;;
      items ← mapM (fun x => v ← x.2; Ok (x.1, v)) (sorted_items ((fun x => (x.1, canonicalize x.2)) <$> l));
      Ok (VMap items)
  | VSeq l => items ← mapM id (canonicalize <$> l); Ok (VSeq items)
  | VOther _ => Err (TypeError "contains unsupported value type")
  end.

(** ** Column schemas *)

Record FactorColumnSchema := mkColumnSchema { cn_name : string; cn_dtype : string; cn_nullable : bool }.

Definition FactorColumnSchema_init (name dtype : string) (nullable : bool) : result FactorColumnSchema :=
  unless is_name name raise ValueError "factor column name must be a safe portable identifier" ;;
  whenever String.eqb dtype "" || (128 <? String.length dtype)%nat
    raise ValueError "factor column dtype must be non-empty and at most 128 characters" ;;
  Ok (mkColumnSchema name dtype nullable).

Definition item (k : string) (v : value F) : option string * value F := (Some k, v).

Definition column_snapshot (c : FactorColumnSchema) : value F :=
  VMap [item "name" (VStr (cn_name c)); item "dtype" (VStr (cn_dtype c)); item "nullable" (VBool (cn_nullable c))].

(** ** Identities *)

(** A mapping argument: its items; fingerprints have string keys and values. *)
Record FactorNodeIdentity := mkIdentity {
  id_transform : string;
  id_transform_version : string;
  id_output_schema : list FactorColumnSchema;
  id_row_ordering : list string;
  id_parents : list string;
  id_input_fingerprints : list (string * string);
  id_parameters : list (option string * value F);
  id_research_context : list (option string * value F);
  id_canonical_payload : T;
}.

(** [_build_snapshot] *)
Definition build_snapshot (transform transform_version : string) (output_schema : list FactorColumnSchema)
  (row_ordering parents : list string) (input_fingerprints : list (string * string))
  (parameters research_context : list (option string * value F)) : result (value F) :=
  parameters ← canonicalize (VMap parameters);
  research_context ← canonicalize (VMap research_context);
  Ok (VMap [
    item "format" (VStr IDENTITY_FORMAT); item "version" (VInt IDENTITY_VERSION);
    item "parents" (VSeq (VStr <$> parents));
    item "inputs" (VMap (sorted_items ((fun x => item x.1 (VStr x.2)) <$> input_fingerprints)));
    item "transform" (VMap [item "name" (VStr transform); item "version" (VStr transform_version)]);
    item "parameters" parameters;
    item "output_schema" (VSeq (column_snapshot <$> output_schema));
    item "row_ordering" (VSeq (VStr <$> row_ordering));
    item "research_context" research_context]).

(** The constructor: [__post_init__] *)
Definition FactorNodeIdentity_init (transform transform_version : string) (output_schema : list FactorColumnSchema)
  (row_ordering parents : list string) (input_fingerprints : list (string * string))
  (parameters research_context : list (option string * value F)) : result FactorNodeIdentity :=
  whenever String.eqb transform "" || (255 <? String.length transform)%nat
    raise ValueError "transform must be non-empty and at most 255 characters" ;;
  whenever String.eqb transform_version "" || (128 <? String.length transform_version)%nat
    raise ValueError "transform_version must be non-empty and at most 128 characters" ;;
  whenever bool_decide (output_schema = []) raise ValueError "output_schema must not be empty" ;;
  unless bool_decide (NoDup (cn_name <$> output_schema)) raise ValueError "output_schema column names must be unique" ;;
  whenever bool_decide (row_ordering = []) || existsb (String.eqb "") row_ordering
    raise ValueError "row_ordering must explicitly name at least one ordering field" ;;
  unless bool_decide (NoDup row_ordering) raise ValueError "row_ordering fields must be unique" ;;
  _ ← iterE validate_digest parents;
  unless bool_decide (NoDup parents) raise ValueError "parents must not contain duplicate node keys" ;;
  whenever bool_decide (parents = []) && bool_decide (input_fingerprints = [])
    raise ValueError "a factor node must identify at least one parent or input" ;;
  _ ← iterE (fun x =>
        unless is_name x.1 raise ValueError "input fingerprint names must be safe portable identifiers" ;;
        validate_digest x.2) input_fingerprints;
  snapshot ← build_snapshot transform transform_version output_schema row_ordering parents input_fingerprints
               parameters research_context;
  Ok (mkIdentity transform transform_version output_schema row_ordering parents input_fingerprints parameters
        research_context (json_dumps snapshot)).

Definition identity_snapshot (i : FactorNodeIdentity) : result (value F) := json_loads (id_canonical_payload i).

Definition node_key (i : FactorNodeIdentity) : string := sha256_hex (id_canonical_payload i).

(** ** Reading an identity back *)

Definition field (l : list (option string * value F)) (k : string) : result (value F) :=
  match dict_get l (Some k) with Some v => Ok v | None => Err (KeyError k) end.

(** [set(mapping) == names] *)
Definition same_keys (l : list (option string * value F)) (names : list string) : bool :=
  forallb (fun x => match x.1 with Some k => bool_decide (k ∈ names) | None => false end) l &&
  forallb (fun k => bool_decide (Some k ∈ l.*1)) names.

Definition str_of (e : exn) (v : value F) : result string := match v with VStr s => Ok s | _ => Err e end.
Definition seq_of (e : exn) (v : value F) : result (list (value F)) := match v with VSeq l => Ok l | _ => Err e end.
Definition map_of (e : exn) (v : value F) : result (list (option string * value F)) := match v with VMap l => Ok l | _ => Err e end.
Definition is_str (v : value F) : bool := match v with VStr _ => true | _ => false end.

Definition column_of (v : value F) : result FactorColumnSchema :=
  let invalid := ValueError "factor identity output schema is invalid" in
  column ← map_of invalid v;
  unless same_keys column ["name"; "dtype"; "nullable"]%string raise invalid ;;
  name ← field column "name" ≫= str_of invalid;
  dtype ← field column "dtype" ≫= str_of invalid;
  nullable ← field column "nullable" ≫= (fun v => match v with VBool b => Ok b | _ => Err invalid end);
  FactorColumnSchema_init name dtype nullable.

Definition fingerprint_of (x : option string * value F) : result (string * string) :=
  match x with (Some k, VStr s) => Ok (k, s) | _ => Err (ValueError "factor identity inputs are invalid") end.

(** [FactorNodeIdentity.from_snapshot] *)
Definition from_snapshot (snapshot : value F) : result FactorNodeIdentity :=
  let fields_invalid := ValueError "factor identity snapshot fields are invalid" in
  l ← map_of fields_invalid snapshot;
  unless same_keys l ["format"; "version"; "parents"; "inputs"; "transform"; "parameters"; "output_schema";
                      "row_ordering"; "research_context"]%string raise fields_invalid ;;
  format ← field l "format";
  version ← field l "version";
  unless match format with VStr s => String.eqb s IDENTITY_FORMAT | _ => false end &&
         match version with VInt z => z =? IDENTITY_VERSION | _ => false end
    raise ValueError "factor identity snapshot version is invalid" ;;
  let transform_invalid := ValueError "factor identity transform is invalid" in
  transform ← field l "transform" ≫= map_of transform_invalid;
  unless same_keys transform ["name"; "version"]%string raise transform_invalid ;;
  parents ← field l "parents" ≫= seq_of (ValueError "factor identity parents are invalid");
  unless forallb is_str parents raise ValueError "factor identity parents are invalid" ;;
  inputs ← field l "inputs" ≫= map_of (ValueError "factor identity inputs are invalid");
  schema ← field l "output_schema" ≫= seq_of (ValueError "factor identity output schema is invalid");
  ordering ← field l "row_ordering" ≫= seq_of (ValueError "factor identity row ordering is invalid");
  unless forallb is_str ordering raise ValueError "factor identity row ordering is invalid" ;;
  parameters ← field l "parameters" ≫= map_of (ValueError "factor identity mappings are invalid");
  context ← field l "research_context" ≫= map_of (ValueError "factor identity mappings are invalid");
  columns ← mapM column_of schema;
  name ← field transform "name" ≫= str_of transform_invalid;
  transform_version ← field transform "version" ≫= str_of transform_invalid;
  inputs ← mapM fingerprint_of inputs;
  parents ← mapM (str_of (ValueError "factor identity parents are invalid")) parents;
  ordering ← mapM (str_of (ValueError "factor identity row ordering is invalid")) ordering;
  FactorNodeIdentity_init name transform_version columns ordering parents inputs parameters context.
End identity.
Arguments FactorNodeIdentity F T : clear implicits.
