(* ===== verification/FactorIdentityFacts.v ===== *)
(** * What node identities promise

    The canonical payload is exactly the identity up to the order of mappings,
    and an identity read back from its payload has the same key. *)

From S2P Require Import Prelude Numeric FactorIdentity.

#[local] Open Scope Z_scope.

(** ** Induction on nested values *)

Section value_ind.
Context {F : Type} (P : value F -> Prop).
Hypothesis P_leaf : forall v, (forall l, v <> VSeq l) -> (forall l, v <> VMap l) -> P v.
Hypothesis P_seq : forall l, Forall P l -> P (VSeq l).
Hypothesis P_map : forall l, Forall (fun x => P x.2) l -> P (VMap l).

Fixpoint value_nested_ind (v : value F) : P v.
Proof.
  destruct v as [| | | | |l|l|]; try by apply P_leaf.
  - apply P_seq. induction l as [|v l IH]; constructor; [apply value_nested_ind|exact IH].
  - apply P_map. induction l as [|[k v] l IH]; constructor; [apply value_nested_ind|exact IH].
Defined.
End value_ind.

(** ** Sorted items *)

#[local] Instance key_le_trans {A} : Transitive (@key_le A).
Proof. intros x y z. unfold key_le. by etrans. Qed.
#[local] Instance key_le_total {A} : Total (@key_le A).
Proof. intros x y. unfold key_le. apply (total String.le). Qed.

Lemma sorted_items_perm {A} (l : list (option string * A)) : sorted_items l ≡ₚ l.
Proof. apply merge_sort_Permutation. Qed.

Lemma sorted_items_sorted {A} (l : list (option string * A)) : StronglySorted key_le (sorted_items l).
Proof. apply StronglySorted_merge_sort; apply _. Qed.

(** Keys that are texts, each once *)
Definition good_keys {A} (l : list (option string * A)) : Prop := NoDup l.*1 /\ Forall (fun x => is_Some x.1) l.

Lemma sorted_unique {A} (l l' : list (option string * A)) :
  good_keys l -> StronglySorted key_le l -> StronglySorted key_le l' -> l ≡ₚ l' -> l = l'.
Proof.
  intros [Hnd Hs] Hl Hl' Hp. apply (StronglySorted_unique_strong key_le); try done.
  intros [k v] [k' v'] Hx Hy Hle Hle'. rewrite <- Hp in Hy. rewrite Forall_forall in Hs.
  destruct (Hs _ Hx) as [s Hk], (Hs _ Hy) as [s' Hk']. simpl in *. subst.
  assert (s = s') as <- by (by apply (anti_symm String.le)).
  apply list_elem_of_lookup in Hx as [i Hi]. apply list_elem_of_lookup in Hy as [j Hj].
  assert (i = j) as <-; [|congruence]. eapply (NoDup_lookup l.*1); [done|by rewrite list_lookup_fmap, Hi|by rewrite list_lookup_fmap, Hj].
Qed.

Lemma good_keys_perm {A} (l l' : list (option string * A)) : l ≡ₚ l' -> good_keys l -> good_keys l'.
Proof. intros Hp [Hnd Hs]. split; [by rewrite <- Hp|by rewrite <- Hp]. Qed.

Lemma good_keys_keys {A B} (l : list (option string * A)) (l' : list (option string * B)) :
  l.*1 = l'.*1 -> good_keys l -> good_keys l'.
Proof.
  intros Hk [Hnd Hs]. split; [by rewrite <- Hk|]. rewrite <- (Forall_fmap fst is_Some), <- Hk, Forall_fmap. exact Hs.
Qed.

Lemma sorted_keys {A B} (l : list (option string * A)) (l' : list (option string * B)) :
  l.*1 = l'.*1 -> StronglySorted key_le l -> StronglySorted key_le l'.
Proof.
  intros Hk Hl. revert l' Hk. induction Hl as [|x l Hl IH Hx]; intros [|y l'] Hk; try done; [constructor|].
  rewrite !fmap_cons in Hk. injection Hk as Hk1 Hk2. constructor; [by apply IH|].
  apply (Forall_fmap fst (fun k => String.le (key_text y.1) (key_text k))). rewrite <- Hk2, <- Hk1. by apply Forall_fmap.
Qed.

Lemma sorted_items_ext {A} (l l' : list (option string * A)) : good_keys l -> l ≡ₚ l' -> sorted_items l = sorted_items l'.
Proof.
  intros Hg Hp. apply sorted_unique; [|apply sorted_items_sorted..|by rewrite !sorted_items_perm].
  eapply good_keys_perm; [symmetry; apply sorted_items_perm|done].
Qed.

Lemma sorted_items_id {A} (l : list (option string * A)) : good_keys l -> StronglySorted key_le l -> sorted_items l = l.
Proof.
  intros Hg Hl. symmetry. apply sorted_unique; [done..|apply sorted_items_sorted|by rewrite sorted_items_perm].
Qed.

(** Sorting looks at the keys only. *)
Lemma sorted_items_fmap {A B} (f : A -> B) (l : list (option string * A)) : good_keys l ->
  sorted_items ((fun x => (x.1, f x.2)) <$> l) = (fun x => (x.1, f x.2)) <$> sorted_items l.
Proof.
  intros [Hnd Hs]. assert (forall l : list (option string * A), ((fun x => (x.1, f x.2)) <$> l).*1 = l.*1) as Hk
    by (intros l'; rewrite <- list_fmap_compose; done).
  apply sorted_unique; [|apply sorted_items_sorted| |by rewrite !sorted_items_perm].
  - eapply good_keys_perm; [symmetry; apply sorted_items_perm|]. split; [by rewrite Hk|by rewrite Forall_fmap].
  - pose proof (sorted_items_sorted l) as Hl. induction Hl as [|x l' Hl IH Hx]; [constructor|].
    rewrite fmap_cons. constructor; [exact IH|]. apply Forall_fmap. exact Hx.
Qed.

(** ** Canonical values *)

Section canonical.
Context {F : Type} `{PyFloat F}.

(** Python mappings have each key once. *)
Fixpoint unique_keys (v : value F) : bool :=
  match v with
  | VSeq l => forallb unique_keys l
  | VMap l => bool_decide (NoDup l.*1) && forallb (fun x => unique_keys x.2) l
  | _ => true
  end.

Lemma bad_keys (l : list (option string * value F)) : existsb bad_key l.*1 = false -> NoDup l.*1 -> good_keys l.
Proof.
  intros Hb Hnd. split; [done|]. apply Forall_forall. intros [[k|] v] Hx; [by eexists|]. exfalso.
  apply not_true_iff_false in Hb. apply Hb, existsb_exists. exists None. split; [|done].
  apply list_elem_of_In, list_elem_of_fmap. by exists (None, v).
Qed.

Lemma bad_keys_sorted (l : list (option string * value F)) :
  existsb bad_key l.*1 = false -> existsb bad_key (sorted_items l).*1 = false.
Proof.
  intros Hb. apply not_true_is_false. intros (k & Hk & Hbad)%existsb_exists. apply not_true_iff_false in Hb.
  apply Hb, existsb_exists. exists k. split; [|done]. apply list_elem_of_In. apply list_elem_of_In in Hk.
  by rewrite (sorted_items_perm l) in Hk.
Qed.

Lemma sort_keys_good (l : list (option string * value F)) : good_keys l ->
  sort_keys (VMap l) = VMap ((fun x => (x.1, sort_keys x.2)) <$> sorted_items l).
Proof. intros Hg. cbn [sort_keys]. by rewrite sorted_items_fmap. Qed.

Lemma canonicalize_good (l : list (option string * value F)) : existsb bad_key l.*1 = false -> NoDup l.*1 ->
  canonicalize (VMap l) = items ← mapM (fun x => v ← canonicalize x.2; Ok (x.1, v)) (sorted_items l); Ok (VMap items).
Proof.
  intros Hb Hnd. cbn [canonicalize]. rewrite Hb. cbn [negb guard_ok mbind result_bind].
  rewrite sorted_items_fmap by by apply bad_keys. f_equal.
  generalize (sorted_items l). intros l'. induction l' as [|x l' IH]; [done|]. rewrite fmap_cons. cbn [mapM]. by rewrite IH.
Qed.

Lemma forallb_Forall_true {A} (p : A -> bool) l : forallb p l = true <-> Forall (fun x => p x = true) l.
Proof. induction l as [|x l IH]; simpl; [done|]. by rewrite andb_true_iff, Forall_cons, IH. Qed.

(** The canonical form of a mapping, item by item *)
Lemma canonicalize_items (l items : list (option string * value F)) :
  mapM (fun x => v ← canonicalize x.2; Ok (x.1, v)) l = Ok items <->
  Forall2 (fun x y => y.1 = x.1 /\ canonicalize x.2 = Ok y.2) l items.
Proof.
  rewrite mapM_Ok. split; intros Hl; (eapply Forall2_impl; [exact Hl|]); intros [k v] [k' v']; simpl.
  - destruct (canonicalize v); simpl; [|done]. by intros [= <- <-].
  - by intros [-> ->].
Qed.

Lemma plain_unique (v : value F) : json_plain v = true -> unique_keys v = true.
Proof.
  induction v as [v Hs Hm|l IH|l IH] using value_nested_ind; intros Hp.
  - destruct v; try done; [by destruct (Hs l)|by destruct (Hm l)].
  - cbn [json_plain unique_keys] in *. apply forallb_Forall_true in Hp. apply forallb_Forall_true. decompose_Forall; auto.
  - cbn [json_plain unique_keys] in *. apply andb_true_iff in Hp as [-> Hp]. apply forallb_Forall_true in Hp.
    apply forallb_Forall_true. apply Forall_forall. intros x Hx. rewrite !Forall_forall in *.
    apply IH; [done|]. by apply Hp, andb_true_iff in Hx as [_ ?].
Qed.

Lemma plain_map (l : list (option string * value F)) :
  json_plain (VMap l) = true <-> good_keys l /\ Forall (fun x => json_plain x.2 = true) l.
Proof.
  cbn [json_plain]. rewrite andb_true_iff, bool_decide_eq_true, forallb_Forall_true. unfold good_keys.
  setoid_rewrite andb_true_iff. setoid_rewrite bool_decide_eq_true. rewrite Forall_and. naive_solver.
Qed.

(** A canonical value is the value with its keys sorted, and its own canonical
    form. *)
Definition canonical_form (v v' : value F) : Prop := v' = sort_keys v /\ canonicalize v' = Ok v' /\ json_plain v' = true.

Lemma canonicalize_map l v' : Forall (fun x => forall v', unique_keys x.2 = true -> canonicalize x.2 = Ok v' -> canonical_form x.2 v') l ->
  unique_keys (VMap l) = true -> canonicalize (VMap l) = Ok v' -> canonical_form (VMap l) v'.
Proof.
  intros IH Hu Hc. cbn [unique_keys] in Hu. apply andb_true_iff in Hu as [Hnd%bool_decide_eq_true Hu].
  destruct (existsb bad_key l.*1) eqn:Hb; [cbn [canonicalize] in Hc; by rewrite Hb in Hc|].
  assert (good_keys l) as Hg by by apply bad_keys.
  rewrite canonicalize_good in Hc by done. inv_ok Hc. apply canonicalize_items in Hbind. rename a into items.
  assert (Forall2 (fun x y => y = (x.1, sort_keys x.2) /\ canonicalize y.2 = Ok y.2 /\ json_plain y.2 = true) (sorted_items l) items) as Hf.
  { apply forallb_Forall_true in Hu. rewrite <- (sorted_items_perm l) in IH. rewrite <- (sorted_items_perm l) in Hu.
    clear -Hbind IH Hu. induction Hbind as [|[k v] [k' v'] ls items [Hk Hv] _ IHl]; constructor.
    - apply Forall_cons in IH as [IH _]. apply Forall_cons in Hu as [Hu _]. simpl in *. subst.
      destruct (IH v') as (-> & ? & ?); [done..|done].
    - apply Forall_cons in IH as [_ IH]. apply Forall_cons in Hu as [_ Hu]. auto. }
  assert (items = (fun x => (x.1, sort_keys x.2)) <$> sorted_items l) as Hitems.
  { clear -Hf. induction Hf as [|x y ls items [-> _] _ IHl]; [done|]. by rewrite fmap_cons, <- IHl. }
  assert (items.*1 = (sorted_items l).*1) as Hkeys by (rewrite Hitems, <- list_fmap_compose; done).
  assert (Forall (fun y => canonicalize y.2 = Ok y.2 /\ json_plain y.2 = true) items) as Hy.
  { clear -Hf. induction Hf as [|x y ls items (_ & ? & ?) _ IHl]; by constructor. }
  assert (good_keys items) as Hgi.
  { apply good_keys_keys with (sorted_items l); [by symmetry|]. eapply good_keys_perm; [symmetry; apply sorted_items_perm|done]. }
  split; [by rewrite sort_keys_good, Hitems|].
  split.
  - rewrite canonicalize_good; [|by rewrite Hkeys, bad_keys_sorted|apply Hgi].
    rewrite (sorted_items_id items); [|done|by eapply sorted_keys; [symmetry; exact Hkeys|apply sorted_items_sorted]].
    assert (mapM (fun x => v ← canonicalize x.2; Ok (x.1, v)) items = Ok items) as ->; [|done].
    apply canonicalize_items. clear -Hy. induction Hy as [|y items [Hy _] _ IHi]; by constructor.
  - apply plain_map. split; [done|]. eapply Forall_impl; [exact Hy|]. by intros y [].
Qed.

Lemma canonicalize_form v v' : unique_keys v = true -> canonicalize v = Ok v' -> canonical_form v v'.
Proof.
  revert v'. induction v as [v Hs Hm|l IH|l IH] using value_nested_ind; intros v' Hu Hc.
  - destruct v; try (by destruct (Hs l)); try (by destruct (Hm l)); simpl in Hc; try (inv_ok Hc; by split_and!).
    inv_ok Hc. split_and!; [done| |done]. simpl. by rewrite Hguard.
  - cbn [canonicalize unique_keys] in Hc, Hu. inv_ok Hc. apply forallb_Forall_true in Hu. apply mapM_Ok in Hbind.
    apply Forall2_fmap_l in Hbind.
    assert (Forall2 canonical_form l a) as Hf.
    { clear -Hbind IH Hu. induction Hbind as [|v v' l items Hv _ IHl]; constructor; decompose_Forall; auto. }
    unfold canonical_form. cbn [canonicalize json_plain sort_keys]. split_and!.
    + f_equal. clear -Hf. induction Hf as [|v v' l items [-> _] _ IHl]; [done|]. by rewrite fmap_cons, <- IHl.
    + assert (mapM id (canonicalize <$> a) = Ok a) as ->; [|done]. apply mapM_Ok, Forall2_fmap_l.
      clear -Hf. induction Hf as [|v v' l items (_ & ? & _) _ IHl]; by constructor.
    + apply forallb_Forall_true. clear -Hf. induction Hf as [|v v' l items (_ & _ & ?) _ IHl]; by constructor.
  - by apply canonicalize_map.
Qed.

Lemma canonicalize_sorted v v' : unique_keys v = true -> canonicalize v = Ok v' -> sort_keys v' = v'.
Proof.
  intros Hu Hc. destruct (canonicalize_form v v' Hu Hc) as (_ & Hc' & Hu'). apply plain_unique in Hu'. symmetry. by apply (canonicalize_form v' v').
Qed.


Lemma good_keys_sort (f : value F -> value F) (l : list (option string * value F)) : good_keys l ->
  good_keys ((fun x => (x.1, f x.2)) <$> l).
Proof. apply good_keys_keys. rewrite <- list_fmap_compose. done. Qed.

Lemma sort_keys_plain (v : value F) : json_plain v = true -> json_plain (sort_keys v) = true /\ sort_keys (sort_keys v) = sort_keys v.
Proof.
  induction v as [v Hs Hm|l IH|l IH] using value_nested_ind; intros Hp.
  - destruct v; try done; [by destruct (Hs l)|by destruct (Hm l)].
  - cbn [json_plain sort_keys] in *. apply forallb_Forall_true in Hp.
    assert (Forall (fun v => json_plain (sort_keys v) = true /\ sort_keys (sort_keys v) = sort_keys v) l) as Hf
      by (decompose_Forall; auto).
    split; [apply forallb_Forall_true, Forall_fmap; eapply Forall_impl; [exact Hf|]; by intros ? []|].
    f_equal. rewrite <- list_fmap_compose. apply list_fmap_ext. intros i v Hv. eapply Forall_lookup_1 in Hf; [|exact Hv]. apply Hf.
  - apply plain_map in Hp as [Hg Hp].
    assert (Forall (fun x => json_plain (sort_keys x.2) = true /\ sort_keys (sort_keys x.2) = sort_keys x.2) l) as Hf
      by (apply Forall_forall; intros x Hx; rewrite Forall_forall in IH, Hp; auto).
    assert (good_keys (sorted_items ((fun x => (x.1, sort_keys x.2)) <$> l))) as Hgs
      by (eapply good_keys_perm; [symmetry; apply sorted_items_perm|by apply good_keys_sort]).
    split.
    + apply plain_map. cbn [sort_keys]. split; [done|]. rewrite sorted_items_perm. apply Forall_fmap. eapply Forall_impl; [exact Hf|]. by intros ? [].
    + rewrite (sort_keys_good l) by done. rewrite sort_keys_good by by rewrite <- sorted_items_fmap.
      f_equal. rewrite sorted_items_fmap by by eapply good_keys_perm; [symmetry; apply sorted_items_perm|].
      rewrite (sorted_items_id (sorted_items l)); [|by eapply good_keys_perm; [symmetry; apply sorted_items_perm|]|apply sorted_items_sorted].
      rewrite <- list_fmap_compose. apply list_fmap_ext. intros i x Hx. simpl. f_equal.
      rewrite <- (sorted_items_perm l) in Hf. eapply Forall_lookup_1 in Hf; [|exact Hx]. apply Hf.
Qed.

End canonical.

(** ** Payloads *)

Lemma Ok_inj {A} (a b : A) : Ok a = Ok b -> a = b.
Proof. by intros [= ->]. Qed.

Section payload.
Context {F T : Type} `{PyFloat F} `{!JsonText F T} `{!JsonTextLaws F T} `{!Sha256 T}.
Implicit Types (i : FactorNodeIdentity F T) (parameters context : list (option string * value F)).

Definition sorted_column (c : FactorColumnSchema) : value F :=
  VMap [item "dtype" (VStr (cn_dtype c)); item "name" (VStr (cn_name c)); item "nullable" (VBool (cn_nullable c))].

Definition sorted_inputs (inputs : list (string * string)) : list (option string * value F) :=
  sorted_items ((fun x => item x.1 (VStr x.2)) <$> inputs).

(** The payload's value, its keys in order *)
Definition sorted_snapshot transform transform_version output_schema row_ordering parents inputs (parameters context : value F) : value F :=
  VMap [item "format" (VStr IDENTITY_FORMAT); item "inputs" (VMap (sorted_inputs inputs));
        item "output_schema" (VSeq (sorted_column <$> output_schema)); item "parameters" parameters;
        item "parents" (VSeq (VStr <$> parents)); item "research_context" context;
        item "row_ordering" (VSeq (VStr <$> row_ordering));
        item "transform" (VMap [item "name" (VStr transform); item "version" (VStr transform_version)]);
        item "version" (VInt IDENTITY_VERSION)].

Lemma sort_column c : sort_keys (column_snapshot c) = sorted_column c.
Proof. reflexivity. Qed.

Lemma inputs_good (inputs : list (string * string)) : NoDup inputs.*1 -> good_keys ((fun x => item (F:=F) x.1 (VStr x.2)) <$> inputs).
Proof.
  intros Hnd. split; [|apply Forall_fmap, Forall_true; intros x; by exists x.1].
  assert (((fun x => item (F:=F) x.1 (VStr x.2)) <$> inputs).*1 = Some <$> inputs.*1) as -> by (rewrite <- !list_fmap_compose; done).
  by apply NoDup_fmap_2; [apply _|].
Qed.

Lemma sort_inputs inputs : NoDup inputs.*1 -> sort_keys (VMap (sorted_inputs inputs)) = VMap (sorted_inputs inputs).
Proof.
  intros Hnd. assert (good_keys (sorted_inputs inputs)) as Hg
    by (eapply good_keys_perm; [symmetry; apply sorted_items_perm|by apply inputs_good]).
  rewrite sort_keys_good by done. rewrite (sorted_items_id (sorted_inputs _)); [|done|apply sorted_items_sorted].
  assert (Forall (fun x => sort_keys x.2 = x.2) (sorted_inputs inputs)) as Hf.
  { unfold sorted_inputs. rewrite sorted_items_perm. apply Forall_fmap, Forall_forall. intros x _. reflexivity. }
  f_equal. clear Hg. induction Hf as [|[k v] l Hx _ IH]; [done|]. rewrite fmap_cons, IH. simpl in *. by rewrite Hx.
Qed.

Lemma sort_texts (l : list string) : sort_keys (VSeq (F:=F) (VStr <$> l)) = VSeq (VStr <$> l).
Proof. cbn [sort_keys]. f_equal. rewrite <- list_fmap_compose. done. Qed.

Lemma sort_columns (l : list FactorColumnSchema) : sort_keys (VSeq (F:=F) (column_snapshot <$> l)) = VSeq (sorted_column <$> l).
Proof. cbn [sort_keys]. f_equal. rewrite <- list_fmap_compose. done. Qed.

Lemma build_snapshot_sorted transform transform_version output_schema row_ordering parents inputs parameters context v :
  NoDup inputs.*1 -> unique_keys (VMap parameters) = true -> unique_keys (VMap context) = true ->
  build_snapshot transform transform_version output_schema row_ordering parents inputs parameters context = Ok v ->
  sort_keys v = sorted_snapshot transform transform_version output_schema row_ordering parents inputs
    (sort_keys (VMap parameters)) (sort_keys (VMap context)).
Proof.
  intros Hnd Hp Hc Hb. unfold build_snapshot in Hb. generalize dependent (VMap parameters). intros vp Hp.
  generalize dependent (VMap context). intros vc Hc Hb. inv_ok Hb.
  pose proof (canonicalize_sorted _ _ Hp Hbind) as Hsp. pose proof (canonicalize_sorted _ _ Hc Hbind0) as Hsc.
  apply canonicalize_form in Hbind as [-> _]; [|done]. apply canonicalize_form in Hbind0 as [-> _]; [|done].
  remember (sort_keys vp) as p. remember (sort_keys vc) as c.
  pose proof (sort_inputs inputs Hnd) as Hsi. unfold sorted_snapshot.
  transitivity (VMap (F:=F) (sorted_items [
    item "format" (VStr IDENTITY_FORMAT); item "version" (VInt IDENTITY_VERSION); item "parents" (sort_keys (VSeq (VStr <$> parents)));
    item "inputs" (sort_keys (VMap (sorted_inputs inputs)));
    item "transform" (VMap [item "name" (VStr transform); item "version" (VStr transform_version)]);
    item "parameters" (sort_keys p); item "output_schema" (sort_keys (VSeq (column_snapshot <$> output_schema)));
    item "row_ordering" (sort_keys (VSeq (VStr <$> row_ordering))); item "research_context" (sort_keys c)])); [reflexivity|].
  rewrite Hsi, Hsp, Hsc, !sort_texts, sort_columns. reflexivity.
Qed.

Lemma build_snapshot_plain transform transform_version output_schema row_ordering parents inputs parameters context v :
  NoDup inputs.*1 -> unique_keys (VMap parameters) = true -> unique_keys (VMap context) = true ->
  build_snapshot transform transform_version output_schema row_ordering parents inputs parameters context = Ok v ->
  json_plain v = true.
Proof.
  intros Hnd Hp Hc Hb. unfold build_snapshot in Hb. generalize dependent (VMap parameters). intros vp Hp.
  generalize dependent (VMap context). intros vc Hc Hb.
  apply bind_Ok_inv in Hb as (p & Hbp & Hb). apply bind_Ok_inv in Hb as (c & Hbc & Hb). apply Ok_inj in Hb as <-.
  apply canonicalize_form in Hbp as (_ & _ & Hpp); [|done]. apply canonicalize_form in Hbc as (_ & _ & Hpc); [|done].
  assert (forall l : list string, json_plain (VSeq (F:=F) (VStr <$> l)) = true) as Ht
    by (intros l; apply forallb_Forall_true, Forall_fmap, Forall_forall; done).
  assert (json_plain (VSeq (F:=F) (column_snapshot <$> output_schema)) = true) as Hcol
    by (apply forallb_Forall_true, Forall_fmap, Forall_forall; done).
  assert (json_plain (VMap (F:=F) (sorted_inputs inputs)) = true) as Hin.
  { apply plain_map. split; [eapply good_keys_perm; [symmetry; apply sorted_items_perm|by apply inputs_good]|].
    unfold sorted_inputs. rewrite sorted_items_perm. apply Forall_fmap, Forall_forall. done. }
  apply plain_map. split; [apply bad_keys; [done|by apply (bool_decide_eq_true_1 _)]|].
  repeat (constructor; [first [exact (Ht _)|exact Hin|exact Hcol|exact Hpp|exact Hpc|reflexivity]|]). constructor.
Qed.

(** ** What the constructor checks, and the payload it keeps *)

Definition checked transform transform_version output_schema row_ordering parents (inputs : list (string * string)) : Prop :=
  transform <> "" /\ (String.length transform <= 255)%nat /\
  transform_version <> "" /\ (String.length transform_version <= 128)%nat /\
  output_schema <> [] /\ NoDup (cn_name <$> output_schema) /\
  row_ordering <> [] /\ ("" ∉ row_ordering) /\ NoDup row_ordering /\
  Forall (fun p => is_digest p = true) parents /\ NoDup parents /\ (parents <> [] \/ inputs <> []) /\
  Forall (fun x => is_name x.1 = true /\ is_digest x.2 = true) inputs.

Lemma length_guard (s : string) n : (String.eqb s "" || (n <? String.length s)%nat) = false <-> s <> "" /\ (String.length s <= n)%nat.
Proof. rewrite orb_false_iff, String.eqb_neq, Nat.ltb_ge. done. Qed.

Lemma no_empty_text l : existsb (String.eqb "") l = false <-> "" ∉ l.
Proof.
  rewrite <- not_true_iff_false, existsb_exists. split.
  - intros Hn Hin. apply Hn. exists "". split; [by apply list_elem_of_In|done].
  - intros Hn (x & Hx & <-%String.eqb_eq). by apply Hn, list_elem_of_In.
Qed.

Lemma validate_digest_Ok s : validate_digest s = Ok tt <-> is_digest s = true.
Proof. unfold validate_digest. by destruct (is_digest s). Qed.

Lemma unit_bind_Ok {B} (r : result unit) (k : unit -> result B) v : (r ≫= k) = Ok v <-> r = Ok tt /\ k tt = Ok v.
Proof. destruct r as [[]|]; naive_solver. Qed.

Lemma bind_Ok {A B} (r : result A) (k : A -> result B) v : (r ≫= k) = Ok v <-> exists a, r = Ok a /\ k a = Ok v.
Proof. split; [apply bind_Ok_inv|]. by intros (a & -> & ?). Qed.

Lemma init_Ok transform transform_version output_schema row_ordering parents inputs parameters context i :
  FactorNodeIdentity_init transform transform_version output_schema row_ordering parents inputs parameters context = Ok i <->
  checked transform transform_version output_schema row_ordering parents inputs /\
  exists v, build_snapshot transform transform_version output_schema row_ordering parents inputs parameters context = Ok v /\
    i = mkIdentity transform transform_version output_schema row_ordering parents inputs parameters context (json_dumps v).
Proof.
  unfold FactorNodeIdentity_init, checked.
  do 6 rewrite guard_bind_Ok. rewrite unit_bind_Ok. do 2 rewrite guard_bind_Ok. rewrite unit_bind_Ok, bind_Ok.
  rewrite !negb_true_iff, !length_guard, orb_false_iff, no_empty_text, andb_false_iff, !bool_decide_eq_true, !bool_decide_eq_false,
    !iterE_Ok.
  setoid_rewrite validate_digest_Ok. setoid_rewrite guard_bind_Ok. setoid_rewrite validate_digest_Ok.
  split.
  - intros (? & ? & ? & ? & ? & ? & ? & ? & ? & ? & v & Hv & [= <-]). naive_solver.
  - intros ((? & ? & ? & ? & ? & ? & ? & ? & ? & ? & ? & ? & ?) & v & Hv & ->). naive_solver.
Qed.

(** An identity the constructor made from Python mappings *)
Definition constructed i : Prop :=
  FactorNodeIdentity_init (id_transform i) (id_transform_version i) (id_output_schema i) (id_row_ordering i) (id_parents i)
    (id_input_fingerprints i) (id_parameters i) (id_research_context i) = Ok i /\
  NoDup (id_input_fingerprints i).*1 /\ unique_keys (VMap (id_parameters i)) = true /\
  unique_keys (VMap (id_research_context i)) = true.

(** The identity, up to the order of mappings *)
Definition same_identity i i' : Prop :=
  id_transform i = id_transform i' /\ id_transform_version i = id_transform_version i' /\
  id_output_schema i = id_output_schema i' /\ id_row_ordering i = id_row_ordering i' /\ id_parents i = id_parents i' /\
  id_input_fingerprints i ≡ₚ id_input_fingerprints i' /\
  sort_keys (VMap (id_parameters i)) = sort_keys (VMap (id_parameters i')) /\
  sort_keys (VMap (id_research_context i)) = sort_keys (VMap (id_research_context i')).

Definition snapshot_of i : value F :=
  sorted_snapshot (id_transform i) (id_transform_version i) (id_output_schema i) (id_row_ordering i) (id_parents i)
    (id_input_fingerprints i) (sort_keys (VMap (id_parameters i))) (sort_keys (VMap (id_research_context i))).

Lemma constructed_payload i : constructed i ->
  id_canonical_payload i = json_dumps (snapshot_of i) /\ json_plain (snapshot_of i) = true /\ sort_keys (snapshot_of i) = snapshot_of i.
Proof.
  intros (Hi & Hnd & Hp & Hc). apply init_Ok in Hi as (_ & v & Hv & Heq).
  pose proof (build_snapshot_sorted _ _ _ _ _ _ _ _ _ Hnd Hp Hc Hv) as Hs. fold (snapshot_of i) in Hs.
  apply build_snapshot_plain in Hv; [|done..]. apply sort_keys_plain in Hv as Hv'. rewrite Hs in Hv'. destruct Hv' as [Hpl Hid].
  split_and!; [|done..]. rewrite <- Hs, <- json_dumps_sorted by done. by rewrite Heq.
Qed.

Lemma constructed_snapshot i : constructed i -> identity_snapshot i = Ok (snapshot_of i).
Proof. intros (Hp & Hpl & Hs)%constructed_payload. unfold identity_snapshot. by rewrite Hp, json_loads_dumps, Hs. Qed.

Definition read_item (x : option string * value F) : option (string * string) :=
  match x with (Some k, VStr s) => Some (k, s) | _ => None end.

Lemma read_items (inputs : list (string * string)) :
  omap read_item ((fun x => item (F:=F) x.1 (VStr x.2)) <$> inputs) = inputs.
Proof. induction inputs as [|[k s] inputs IH]; [done|]. simpl. by f_equal. Qed.

Lemma sorted_inputs_perm (inputs inputs' : list (string * string)) : NoDup inputs.*1 ->
  sorted_inputs inputs = sorted_inputs inputs' <-> inputs ≡ₚ inputs'.
Proof.
  intros Hnd. unfold sorted_inputs. split.
  - intros Hs. rewrite <- (read_items inputs), <- (read_items inputs').
    by rewrite <- (sorted_items_perm (_ <$> inputs)), <- (sorted_items_perm (_ <$> inputs')), Hs.
  - intros Hp. apply sorted_items_ext; [by apply inputs_good|by rewrite Hp].
Qed.

#[local] Instance VStr_inj : Inj (=) (=) (VStr (F:=F)).
Proof. by intros ? ? [= ->]. Qed.
#[local] Instance sorted_column_inj : Inj (=) (=) sorted_column.
Proof. intros [] []. unfold sorted_column. by intros [= -> -> ->]. Qed.

Lemma texts_inj (l l' : list string) : VStr (F:=F) <$> l = VStr <$> l' -> l = l'.
Proof. apply (inj (fmap VStr)). Qed.

Lemma columns_inj (l l' : list FactorColumnSchema) : sorted_column <$> l = sorted_column <$> l' -> l = l'.
Proof. apply (inj (fmap sorted_column)). Qed.

Lemma snapshot_inj i i' : NoDup (id_input_fingerprints i).*1 -> snapshot_of i = snapshot_of i' <-> same_identity i i'.
Proof.
  intros Hnd. unfold snapshot_of, sorted_snapshot, same_identity. rewrite <- sorted_inputs_perm by done. split.
  - intros [= Hin Hcol Hp Hpar Hc Hord Hname Hversion]. apply columns_inj in Hcol. apply texts_inj in Hpar. apply texts_inj in Hord.
    split_and!; try done; cbn [sort_keys]; by f_equal.
  - intros (-> & -> & -> & -> & -> & -> & -> & ->). done.
Qed.

Lemma payload_iff i i' : constructed i -> constructed i' ->
  id_canonical_payload i = id_canonical_payload i' <-> same_identity i i'.
Proof.
  intros Hi Hi'. destruct (constructed_payload i Hi) as (-> & Hp & Hs), (constructed_payload i' Hi') as (-> & Hp' & Hs').
  rewrite <- snapshot_inj by apply Hi. split; [|by intros ->]. intros Hd. apply Ok_inj. rewrite <- Hs, <- Hs', <- !json_loads_dumps by done. by f_equal.
Qed.

(** ** Reading a payload back *)

Lemma column_of_sorted c : FactorColumnSchema_init (cn_name c) (cn_dtype c) (cn_nullable c) = Ok c ->
  column_of (F:=F) (sorted_column c) = Ok c.
Proof. intros <-. reflexivity. Qed.

Definition read_inputs (inputs : list (string * string)) : list (string * string) := omap read_item (sorted_inputs inputs).

Lemma read_inputs_perm inputs : read_inputs inputs ≡ₚ inputs.
Proof. unfold read_inputs, sorted_inputs. rewrite sorted_items_perm. by rewrite read_items. Qed.

Lemma fingerprints_read inputs : mapM fingerprint_of (sorted_inputs inputs) = Ok (read_inputs inputs).
Proof.
  unfold read_inputs. assert (Forall (fun x => is_Some (read_item x)) (sorted_inputs inputs)) as Hf.
  { unfold sorted_inputs. rewrite sorted_items_perm. apply Forall_fmap, Forall_forall. by intros [k v] _; eexists. }
  induction Hf as [|[[k|] v] l [x Hx] _ IH]; [done| |done]. destruct v; try done. simpl in *. by rewrite IH.
Qed.

Lemma texts_read e (l : list string) : mapM (str_of (F:=F) e) (VStr <$> l) = Ok l.
Proof. apply mapM_Ok, Forall2_fmap_l, Forall_Forall2_diag, Forall_forall. done. Qed.

Lemma texts_are_str (l : list string) : forallb (is_str (F:=F)) (VStr <$> l) = true.
Proof. by induction l. Qed.

Lemma from_sorted_snapshot transform transform_version output_schema row_ordering parents inputs parameters context :
  Forall (fun c => FactorColumnSchema_init (cn_name c) (cn_dtype c) (cn_nullable c) = Ok c) output_schema ->
  from_snapshot (sorted_snapshot transform transform_version output_schema row_ordering parents inputs (VMap parameters) (VMap context)) =
    FactorNodeIdentity_init (F:=F) transform transform_version output_schema row_ordering parents (read_inputs inputs) parameters context.
Proof.
  intros Hcols. unfold from_snapshot, sorted_snapshot.
  assert (mapM column_of (sorted_column <$> output_schema) = Ok output_schema) as Hc.
  { apply mapM_Ok, Forall2_fmap_l, Forall_Forall2_diag. eapply Forall_impl; [exact Hcols|]. apply column_of_sorted. }
  pose proof (texts_are_str parents) as Hp1. pose proof (texts_are_str row_ordering) as Ho1.
  pose proof (texts_read (ValueError "factor identity parents are invalid") parents) as Hp2.
  pose proof (texts_read (ValueError "factor identity row ordering is invalid") row_ordering) as Ho2.
  pose proof (fingerprints_read inputs) as Hin.
  generalize dependent (VStr (F:=F) <$> parents). generalize dependent (VStr (F:=F) <$> row_ordering).
  generalize dependent (sorted_column <$> output_schema). generalize dependent (sorted_inputs inputs).
  intros ins Hin cols Hc os Ho1 Ho2 ps Hp1 Hp2.
  repeat first [bind_step | rewrite Hp1 | rewrite Ho1 | rewrite Hc | rewrite Hin | rewrite Hp2 | rewrite Ho2]. done.
Qed.

Lemma checked_perm transform transform_version output_schema row_ordering parents inputs inputs' : inputs ≡ₚ inputs' ->
  checked transform transform_version output_schema row_ordering parents inputs ->
  checked transform transform_version output_schema row_ordering parents inputs'.
Proof.
  intros Hp (? & ? & ? & ? & ? & ? & ? & ? & ? & ? & ? & Hne & Hf). unfold checked. split_and!; try done; [|by rewrite <- Hp].
  destruct Hne as [?|Hne]; [by left|right]. intros ->. by apply Hne, Permutation_nil.
Qed.

Lemma canonical_mapping (l : list (option string * value F)) v : unique_keys (VMap l) = true -> canonicalize (VMap l) = Ok v ->
  exists l', v = VMap l' /\ sort_keys (VMap l) = VMap l' /\ canonicalize (VMap l') = Ok (VMap l') /\ unique_keys (VMap l') = true /\
    sort_keys (VMap l') = VMap l'.
Proof.
  intros Hu Hc. pose proof (canonicalize_sorted _ _ Hu Hc) as Hs. destruct (canonicalize_form _ _ Hu Hc) as (-> & Hc' & Hu'%plain_unique).
  exists (sorted_items ((fun x => (x.1, sort_keys x.2)) <$> l)). split_and!; done.
Qed.

Lemma reread_constructed i : constructed i ->
  Forall (fun c => FactorColumnSchema_init (cn_name c) (cn_dtype c) (cn_nullable c) = Ok c) (id_output_schema i) ->
  exists i', from_snapshot (snapshot_of i) = Ok i' /\ constructed i' /\ same_identity i i'.
Proof.
  intros (Hi & Hnd & Hup & Huc) Hcols. apply init_Ok in Hi as (Hck & v & Hv & _). unfold build_snapshot in Hv.
  apply bind_Ok_inv in Hv as (p & Hp & Hv). apply bind_Ok_inv in Hv as (c & Hc & _).
  destruct (canonical_mapping _ _ Hup Hp) as (lp & -> & Hsp & Hcp & Hup' & Hspp), (canonical_mapping _ _ Huc Hc) as (lc & -> & Hsc & Hcc & Huc' & Hscc).
  assert (NoDup (read_inputs (id_input_fingerprints i)).*1) as Hnd' by by rewrite read_inputs_perm.
  unfold snapshot_of. rewrite Hsp, Hsc, from_sorted_snapshot by done.
  pose proof (checked_perm _ _ _ _ _ _ _ (symmetry (read_inputs_perm _)) Hck) as Hck'.
  assert (exists i', FactorNodeIdentity_init (id_transform i) (id_transform_version i) (id_output_schema i) (id_row_ordering i)
    (id_parents i) (read_inputs (id_input_fingerprints i)) lp lc = Ok i') as [i' Hi'].
  { setoid_rewrite init_Ok. unfold build_snapshot. rewrite Hcp, Hcc. eauto. }
  exists i'. split; [done|]. pose proof Hi' as Hi2. apply init_Ok in Hi2 as (_ & v' & _ & ->). unfold constructed, same_identity. simpl id_parameters.
  split_and!; try done; simpl id_input_fingerprints; simpl id_research_context; by rewrite ?read_inputs_perm, ?Hspp, ?Hscc.
Qed.

(** C17: two nodes have the same canonical payload, hence the same key, exactly
    when their transform and its version, output schema, row ordering and
    parents are equal, their fingerprints are equal as mappings, and their
    parameters and research contexts are equal up to the order of keys at every
    level: the order in which a mapping was written never changes a key, and
    nothing else can differ. *)
Theorem node_payload_exact i i' : constructed i -> constructed i' ->
  (id_canonical_payload i = id_canonical_payload i' <-> same_identity i i') /\ (same_identity i i' -> node_key i = node_key i').
Proof.
  intros Hi Hi'. pose proof (payload_iff i i' Hi Hi') as Hp. split; [done|]. intros Hs%Hp. unfold node_key. by rewrite Hs.
Qed.

(** C31: a node read back from its persisted payload is accepted, is the same
    identity, and has the same key. *)
Theorem node_identity_roundtrip i : constructed i ->
  Forall (fun c => FactorColumnSchema_init (cn_name c) (cn_dtype c) (cn_nullable c) = Ok c) (id_output_schema i) ->
  exists i', identity_snapshot i ≫= from_snapshot = Ok i' /\ constructed i' /\ same_identity i i' /\ node_key i' = node_key i.
Proof.
  intros Hi Hcols. destruct (reread_constructed i Hi Hcols) as (i' & Hr & Hi' & Hs). exists i'.
  rewrite constructed_snapshot by done. split_and!; try done.
  apply (payload_iff i i' Hi Hi') in Hs. unfold node_key. by rewrite Hs.
Qed.
End payload.

(** ** Witnesses *)

Module ident_witness.
(** The text of a value is the value with its keys sorted. *)
#[local] Instance value_text : JsonText (XQ) (value (XQ)) := {| json_dumps := sort_keys; json_loads := Ok |}.
#[local] Instance value_text_laws : JsonTextLaws (XQ) (value (XQ)).
Proof. split; [intros v Hv; symmetry; by apply sort_keys_plain|done]. Qed.
#[local] Instance some_digest : Sha256 (value (XQ)) := fun v => match v with VMap l => "digest" | _ => "" end.

Definition digest_a : string := "aaaaaaaaaaaaaaaaaaaaaaaaaaaaaaaaaaaaaaaaaaaaaaaaaaaaaaaaaaaaaaaa".

Definition node (inputs : list (string * string)) (parameters : list (option string * value XQ)) :
  FactorNodeIdentity XQ (value XQ) :=
  mkIdentity "zscore" "1" [mkColumnSchema "value" "Float64" false] ["timestamp"%string] [] inputs parameters []
    match build_snapshot "zscore" "1" [mkColumnSchema "value" "Float64" false] ["timestamp"%string] [] inputs parameters []
    with Ok v => json_dumps v | Err _ => VNone end.

Definition by_xy : value XQ := VMap [item "x" VNone; item "y" (VInt 1)].
Definition by_yx : value XQ := VMap [item "y" (VInt 1); item "x" VNone].
Definition first_node := node [("b", digest_a); ("a", digest_a)]%string [item "window" (VInt 5); item "by" by_yx].
Definition second_node := node [("a", digest_a); ("b", digest_a)]%string [item "by" by_xy; item "window" (VInt 5)].

Lemma first_constructed : constructed first_node.
Proof. split_and!; [vm_compute; reflexivity|apply (bool_decide_eq_true_1 _); vm_compute; reflexivity|vm_compute; reflexivity..]. Qed.

Lemma second_constructed : constructed second_node.
Proof. split_and!; [vm_compute; reflexivity|apply (bool_decide_eq_true_1 _); vm_compute; reflexivity|vm_compute; reflexivity..]. Qed.

Lemma node_payload_exact_witness :
  first_node <> second_node /\ id_canonical_payload first_node = id_canonical_payload second_node.
Proof.
  split; [discriminate|]. apply (node_payload_exact first_node second_node first_constructed second_constructed).
  unfold same_identity. split_and!; try reflexivity. apply (bool_decide_eq_true_1 _). vm_compute. reflexivity.
Defined.

Lemma node_identity_roundtrip_witness : constructed first_node /\
  exists i', identity_snapshot first_node ≫= from_snapshot = Ok i' /\ constructed i' /\ same_identity first_node i' /\
    node_key i' = node_key first_node.
Proof.
  split; [exact first_constructed|]. apply (node_identity_roundtrip first_node first_constructed). constructor; [reflexivity|constructor].
Defined.
End ident_witness.
