(* ===== verification/Fs.v ===== *)
(** * The file system under the factor cache

    Paths are relative to the cache root, last component first, so that a parent
    is a tail.  A symbolic link is [Link]; what it points to is outside the tree
    and following it raises [OSError].  A computation runs on a [disk]: the tree
    as it is, every tree it has been since, and the number of calls made.  Any
    call may fail: the class [World] says which, and with what exception, so a
    theorem about all worlds covers a full disk, an interrupt and, at each tree of
    the trace, the death of the process. *)

From S2P Require Import Prelude.

Abbreviation path := (list string).
Declare Scope path_scope.
Delimit Scope path_scope with path.
Notation "p // n" := (@cons string n p) (at level 40, left associativity) : path_scope.
#[global] Open Scope path_scope.

Inductive entry (C : Type) :=
  | File (c : C)
  | Dir
  | Link.
Arguments File {C} c.
Arguments Dir {C}.
Arguments Link {C}.

Abbreviation tree C := (@gmap path (@list_eq_dec string String.eq_dec) (@list_countable string String.eq_dec String.countable) (entry C)).

Record disk (C : Type) := mkDisk { now : tree C; trace : list (tree C); clock : nat }.
Arguments mkDisk {C} _ _ _.
Arguments now {C} _.
Arguments trace {C} _.
Arguments clock {C} _.

Class World := {
  fault : nat -> option exn;                      (* what the n-th call raises, if it fails *)
  uuid4_hex : nat -> string;
  time_ns : nat -> Z;
  listing : forall A, nat -> list A -> list A;    (* the order in which a directory is read *)
}.
Arguments listing {_} {A} _ _.

(** A directory is read in some order; the clock is past the epoch. *)
Class WorldLaws `{World} : Prop := {
  listing_perm A n (l : list A) : listing n l ≡ₚ l;
  time_ns_nonneg n : (0 <= time_ns n)%Z;
}.

(** [except OSError] *)
Definition is_OSError (e : exn) : bool :=
  match e with OSError _ | FileNotFoundError | FileExistsError => true | _ => false end.

(** [try: m except: h(e)]; [h] raises again what it does not handle. *)
Definition st_catch {S A} (m : ST S A) (h : exn -> ST S A) : ST S A := fun s =>
  match m s with (s', Ok a) => (s', Ok a) | (s', Err e) => h e s' end.

(** [try: m finally: f] *)
Definition st_finally {S A} (m : ST S A) (f : ST S unit) : ST S A := fun s =>
  match m s with (s', r) => match f s' with (s'', Ok _) => (s'', r) | (s'', Err e) => (s'', Err e) end end.

Definition st_guard {S} (b : bool) (e : exn) : ST S unit := if b then mret tt else st_raise e.

(** [for x in l: acc = body(acc, x)] *)
Fixpoint st_fold {S A B} (body : B -> A -> ST S B) (acc : B) (l : list A) : ST S B :=
  match l with
  | [] => mret acc
  | x :: l => acc ← body acc x; st_fold body acc l
  end.

Section fs.
Context {C : Type} `{World}.
Implicit Types (t : tree C) (p q : path).

(** ** Calls *)

Definition tick (d : disk C) : disk C := mkDisk (now d) (trace d) (S (clock d)).

Definition syscall {A} (f : tree C -> result (tree C * A)) : ST (disk C) A := fun d =>
  match fault (clock d) with
  | Some e => (tick d, Err e)
  | None =>
      match f (now d) with
      | Ok (t, a) => (mkDisk t (trace d ++ [t]) (S (clock d)), Ok a)
      | Err e => (tick d, Err e)
      end
  end.

(** A call that only reads *)
Definition query {A} (f : tree C -> result A) : ST (disk C) A := fun d =>
  match fault (clock d) with Some e => (tick d, Err e) | None => (tick d, f (now d)) end.

Definition uuid4 : ST (disk C) string := fun d => (tick d, Ok (uuid4_hex (clock d))).
Definition get_time_ns : ST (disk C) Z := fun d => (tick d, Ok (time_ns (clock d))).

(** ** Reading *)

Definition is_symlink t p : bool := match t !! p with Some Link => true | _ => false end.
Definition is_dir t p : bool := match t !! p with Some Dir => true | _ => false end.
Definition is_file t p : bool := match t !! p with Some (File _) => true | _ => false end.
Definition path_exists t p : bool := is_dir t p || is_file t p.

Definition read_file t p : result C :=
  match t !! p with
  | Some (File c) => Ok c
  | None => Err FileNotFoundError
  | Some _ => Err (OSError "not a regular file")
  end.

(** The names in a directory *)
Definition children t p : list string :=
  omap (fun x => match x.1 with [] => None | n :: q => if decide (q = p) then Some n else None end) (map_to_list t).

Definition iterdir p : ST (disk C) (list string) := fun d =>
  query (fun t => if is_dir t p then Ok (listing (clock d) (children t p)) else Err (OSError "not a directory")) d.

(** ** Directories *)

Definition mkdir_call p t : result (tree C * unit) :=
  unless match p with [] => true | _ :: q => match t !! q with None => false | _ => true end end raise FileNotFoundError ;;
  unless match p with [] => true | _ :: q => is_dir t q end raise OSError "parent is not a directory" ;;
  match t !! p with None => Ok (<[p := Dir]> t, tt) | Some _ => Err FileExistsError end.

(** [path.mkdir()] *)
Definition mkdir p : ST (disk C) unit := syscall (mkdir_call p).

(** [path.mkdir(exist_ok=True)] *)
Definition mkdir_exist_ok p : ST (disk C) unit :=
  st_catch (mkdir p) (fun e =>
    if is_OSError e then present ← query (fun t => Ok (is_dir t p)); if (present : bool) then mret tt else st_raise e
    else st_raise e).

(** [path.mkdir(parents=True, exist_ok=True)] *)
Fixpoint mkdir_parents p : ST (disk C) unit :=
  st_catch (mkdir p) (fun e =>
    match e, p with
    | FileNotFoundError, _ :: q => _ ← mkdir_parents q; mkdir_exist_ok p
    | _, _ =>
        if is_OSError e then present ← query (fun t => Ok (is_dir t p)); if (present : bool) then mret tt else st_raise e
        else st_raise e
    end).

(** ** Files *)

Definition create_call (empty : C) p t : result (tree C * unit) :=
  unless match p with [] => false | _ :: q => is_dir t q end raise FileNotFoundError ;;
  match t !! p with None => Ok (<[p := File empty]> t, tt) | Some _ => Err FileExistsError end.

Definition write_call p (c : C) t : result (tree C * unit) :=
  match t !! p with Some (File _) => Ok (<[p := File c]> t, tt) | _ => Err FileNotFoundError end.

Definition fsync : ST (disk C) unit := query (fun _ => Ok tt).

(** [with path.open("xb") as file: file.write(c); file.flush(); os.fsync(file.fileno())] *)
Definition write_new (empty : C) p (c : C) : ST (disk C) unit :=
  _ ← syscall (create_call empty p);
  _ ← syscall (write_call p c);
  fsync.

(** [_fsync_directory] *)
Definition fsync_directory p : ST (disk C) unit :=
  query (fun t => match t !! p with None => Err FileNotFoundError | Some Link => Err (OSError "broken link") | Some _ => Ok tt end).

(** [os.open(path, os.O_RDWR | os.O_CREAT)] of a lock file, and [flock] *)
Definition lock_file (empty : C) p : ST (disk C) unit :=
  syscall (fun t =>
    match t !! p with
    | Some (File _) => Ok (t, tt)
    | Some _ => Err (OSError "not a regular file")
    | None => create_call empty p t
    end).

Definition unlink_call (missing_ok : bool) p t : result (tree C * unit) :=
  match t !! p with
  | None => if missing_ok then Ok (t, tt) else Err FileNotFoundError
  | Some Dir => Err (OSError "is a directory")
  | Some _ => Ok (delete p t, tt)
  end.
Definition unlink (missing_ok : bool) p : ST (disk C) unit := syscall (unlink_call missing_ok p).

Definition rmdir_call p t : result (tree C * unit) :=
  match t !! p with
  | Some Dir => if decide (children t p = []) then Ok (delete p t, tt) else Err (OSError "directory not empty")
  | None => Err FileNotFoundError
  | Some _ => Err (OSError "not a directory")
  end.
Definition rmdir p : ST (disk C) unit := syscall (rmdir_call p).

(** [os.replace(source, target)] of files *)
Definition replace_call p q t : result (tree C * unit) :=
  match t !! p with
  | Some (File c) =>
      match t !! q with
      | Some Dir => Err (OSError "is a directory")
      | Some _ => Ok (<[q := File c]> (delete p t), tt)
      | None => unless match q with [] => false | _ :: r => is_dir t r end raise FileNotFoundError ;; Ok (<[q := File c]> (delete p t), tt)
      end
  | None => Err FileNotFoundError
  | Some _ => Err (OSError "not a regular file")
  end.
Definition replace p q : ST (disk C) unit := syscall (replace_call p q).

(** ** Subtrees *)

(** The part of [q] below [p] *)
Definition below p q : option path :=
  if decide (p `suffix_of` q) then Some (take (length q - length p) q) else None.

(** Everything at or below [p], moved to [q] in place of what was there *)
Definition move p q t : tree C :=
  map_fold (fun r x acc =>
    match below p r, below q r with
    | Some k, _ => <[k ++ q := x]> acc
    | None, Some _ => acc
    | None, None => <[r := x]> acc
    end) ∅ t.

(** [source.rename(target)] of directories *)
Definition rename_call p q t : result (tree C * unit) :=
  unless is_dir t p raise FileNotFoundError ;;
  unless match q with [] => false | _ :: r => is_dir t r end raise FileNotFoundError ;;
  unless match t !! q with None | Some Dir => bool_decide (children t q = []) | _ => false end
    raise OSError "directory not empty" ;;
  Ok (move p q t, tt).
Definition rename p q : ST (disk C) unit := syscall (rename_call p q).

(** Everything below a directory, deepest first; then the directory *)
Definition deeper p q : Prop := (length q <= length p)%nat.
#[global] Instance deeper_dec p q : Decision (deeper p q).
Proof. unfold deeper. apply _. Defined.

Definition subtree (n : nat) t p : list path :=
  merge_sort deeper (listing n (filter (fun q => p `suffix_of` q) (map_to_list t).*1)).

Definition remove_entry p : ST (disk C) unit :=
  syscall (fun t => match t !! p with Some Dir => rmdir_call p t | _ => unlink_call false p t end).

(** [shutil.rmtree(path, ignore_errors)]; the directories of the cache are flat. *)
Definition rmtree (ignore_errors : bool) p : ST (disk C) unit :=
  let ignored (m : ST (disk C) unit) :=
    st_catch m (fun e => if ignore_errors && is_OSError e then mret tt else st_raise e) in
  ignored (
    paths ← (fun d => query (fun t => if is_dir t p then Ok (subtree (clock d) t p) else
                                       match t !! p with None => Err FileNotFoundError | _ => Err (OSError "not a directory") end) d);
    st_iter (fun q => ignored (remove_entry q)) paths).
End fs.

(** ** Reasoning about computations on a disk

    [triple I P m Q]: from a tree satisfying [P], [m] ends with an outcome and a
    tree satisfying [Q], and every tree on the way satisfies [I]. *)

Section triples.
Context {C : Type} `{World}.
Implicit Types (t : tree C) (p q : path) (I P : tree C -> Prop) (S : path -> Prop) (e : exn).

Definition triple {A : Type} I P (m : ST (disk C) A) (Q : result A -> tree C -> Prop) : Prop :=
  forall d, P (now d) -> let '(d', r) := m d in
    Q r (now d') /\ exists ts, trace d' = trace d ++ ts /\ Forall I ts.

Lemma triple_weaken {A : Type} I I' P P' (m : ST (disk C) A) Q Q' :
  triple I P m Q -> (forall t, P' t -> P t) -> (forall t, I t -> I' t) -> (forall r t, Q r t -> Q' r t) -> triple I' P' m Q'.
Proof.
  intros Hm HP HI HQ d Hd. specialize (Hm d (HP _ Hd)). destruct (m d) as [d' r]. destruct Hm as (Hr & ts & Ht & Hts).
  split; [by apply HQ|]. exists ts. split; [done|]. by eapply Forall_impl.
Qed.

Lemma triple_pure {A : Type} (φ : Prop) I P (m : ST (disk C) A) Q : (φ -> triple I P m Q) -> triple I (fun t => φ /\ P t) m Q.
Proof. intros Hm d [Hφ Hd]. by apply Hm. Qed.

Lemma triple_ret {A : Type} I P (a : A) (Q : result A -> tree C -> Prop) : (forall t, P t -> Q (Ok a) t) -> triple I P (mret a) Q.
Proof. intros HQ d Hd. split; [by apply HQ|]. exists []. by rewrite app_nil_r. Qed.

Lemma triple_lift {A : Type} I P (r : result A) (Q : result A -> tree C -> Prop) : (forall t, P t -> Q r t) -> triple I P (st_lift r) Q.
Proof. intros HQ d Hd. split; [by apply HQ|]. exists []. by rewrite app_nil_r. Qed.

Lemma triple_raise {A : Type} I P (e : exn) (Q : result A -> tree C -> Prop) : (forall t, P t -> Q (Err e) t) -> triple I P (st_raise e) Q.
Proof. apply triple_lift. Qed.

Lemma triple_guard I P (b : bool) e (Q : result unit -> tree C -> Prop) :
  (b = true -> forall t, P t -> Q (Ok tt) t) -> (b = false -> forall t, P t -> Q (Err e) t) -> triple I P (st_guard b e) Q.
Proof. destruct b; intros Ht Hf; [apply triple_ret|apply triple_raise]; auto. Qed.

(** The rule of sequencing: [R] holds between. *)
Lemma triple_bind {A B : Type} I P (m : ST (disk C) A) (k : A -> ST (disk C) B) (R : A -> tree C -> Prop) Q :
  triple I P m (fun r t => match r with Ok a => R a t | Err e => Q (Err e) t end) ->
  (forall a, triple I (R a) (k a) Q) -> triple I P (m ≫= k) Q.
Proof.
  intros Hm Hk d Hd. specialize (Hm d Hd). unfold mbind, ST_bind. destruct (m d) as [d1 [a|e]]; [|done].
  destruct Hm as (Ha & ts & Ht & Hts). specialize (Hk a d1 Ha). destruct (k a d1) as [d2 r].
  destruct Hk as (Hr & ts' & Ht' & Hts'). split; [done|]. exists (ts ++ ts'). rewrite Ht', Ht, app_assoc. split; [done|].
  by apply Forall_app.
Qed.

Lemma triple_catch {A : Type} I P (m : ST (disk C) A) (h : exn -> ST (disk C) A) (R : exn -> tree C -> Prop) Q :
  triple I P m (fun r t => match r with Ok a => Q (Ok a) t | Err e => R e t end) ->
  (forall e, triple I (R e) (h e) Q) -> triple I P (st_catch m h) Q.
Proof.
  intros Hm Hh d Hd. specialize (Hm d Hd). unfold st_catch. destruct (m d) as [d1 [a|e]]; [done|].
  destruct Hm as (Ha & ts & Ht & Hts). specialize (Hh e d1 Ha). destruct (h e d1) as [d2 r].
  destruct Hh as (Hr & ts' & Ht' & Hts'). split; [done|]. exists (ts ++ ts'). rewrite Ht', Ht, app_assoc. split; [done|].
  by apply Forall_app.
Qed.

Lemma triple_syscall {A : Type} I P (f : tree C -> result (tree C * A)) Q :
  (forall (e : exn) t, P t -> Q (Err e) t) ->
  (forall t t' a, P t -> f t = Ok (t', a) -> I t' /\ Q (Ok a) t') -> triple I P (syscall f) Q.
Proof.
  intros He Hok d Hd. unfold syscall. destruct (fault (clock d)) as [e|].
  { split; [by apply He|]. exists []. by rewrite app_nil_r. }
  destruct (f (now d)) as [[t' a]|e] eqn:Hf.
  - destruct (Hok _ _ _ Hd Hf) as [HI HQ]. split; [done|]. exists [t']. split; [done|]. by constructor.
  - split; [by apply He|]. exists []. by rewrite app_nil_r.
Qed.

Lemma triple_query {A : Type} I P (f : tree C -> result A) Q :
  (forall (e : exn) t, P t -> Q (Err e) t) -> (forall t a, P t -> f t = Ok a -> Q (Ok a) t) -> triple I P (query f) Q.
Proof.
  intros He Hok d Hd. unfold query. destruct (fault (clock d)) as [e|]; (split; [|exists []; by rewrite app_nil_r]); [by apply He|].
  simpl. destruct (f (now d)) as [a|e] eqn:Hf; [by apply Hok|by apply He].
Qed.

Lemma triple_uuid4 I P Q : (forall n t, P t -> Q (Ok (uuid4_hex n)) t) -> triple I P uuid4 Q.
Proof. intros HQ d Hd. split; [by apply HQ|]. exists []. by rewrite app_nil_r. Qed.

Lemma triple_time_ns I P Q : (forall n t, P t -> Q (Ok (time_ns n)) t) -> triple I P get_time_ns Q.
Proof. intros HQ d Hd. split; [by apply HQ|]. exists []. by rewrite app_nil_r. Qed.

Lemma triple_finally {A : Type} I P (m : ST (disk C) A) f (R : result A -> tree C -> Prop) (Q : result A -> tree C -> Prop) :
  triple I P m R ->
  (forall r, triple I (R r) f (fun r' t => match r' with Ok _ => Q r t | Err e => Q (Err e) t end)) ->
  triple I P (st_finally m f) Q.
Proof.
  intros Hm Hf d Hd. specialize (Hm d Hd). unfold st_finally. destruct (m d) as [d1 r].
  destruct Hm as (H1 & ts & Ht & Hts). specialize (Hf r d1 H1). destruct (f d1) as [d2 [u|e]];
    destruct Hf as (H2 & ts' & Ht' & Hts'); (split; [done|]); exists (ts ++ ts'); rewrite Ht', Ht, app_assoc; (split; [done|]);
    by apply Forall_app.
Qed.

Lemma triple_iter {A : Type} I (P : tree C -> Prop) (body : A -> ST (disk C) unit) l :
  (forall x, x ∈ l -> triple I P (body x) (fun _ t => P t)) -> triple I P (st_iter body l) (fun _ t => P t).
Proof.
  induction l as [|x l IH]; intros Hb; simpl; [by apply triple_ret|].
  apply triple_bind with (R := fun _ => P).
  - eapply triple_weaken; [apply Hb; by left|done..|]. by intros [|].
  - intros _. apply IH. intros y Hy. apply Hb. by right.
Qed.

(** A fold whose state [P done acc] records the elements done *)
Lemma triple_fold {A B : Type} I (P : list A -> B -> tree C -> Prop) (body : B -> A -> ST (disk C) B) l acc0 (E : exn -> tree C -> Prop) :
  (forall don x rest acc, l = don ++ x :: rest ->
     triple I (P don acc) (body acc x) (fun r t => match r with Ok acc' => P (don ++ [x]) acc' t | Err e => E e t end)) ->
  triple I (P [] acc0) (st_fold body acc0 l) (fun r t => match r with Ok acc => P l acc t | Err e => E e t end).
Proof.
  intros Hb. assert (forall rest don acc, l = don ++ rest ->
    triple I (P don acc) (st_fold body acc rest) (fun r t => match r with Ok acc => P l acc t | Err e => E e t end)) as Hg; [|by apply (Hg l [])].
  induction rest as [|x rest IH]; intros don acc Hl; simpl.
  - apply triple_ret. rewrite app_nil_r in Hl. by subst.
  - apply triple_bind with (R := P (don ++ [x])); [by eapply Hb|]. intros acc'. apply IH. by rewrite <- app_assoc.
Qed.

(** ** Frames

    [touches S m]: at every moment, [m] has changed only paths in [S]. *)
Definition same_outside (S : path -> Prop) t0 t : Prop := forall p, ~ S p -> t !! p = t0 !! p.

Definition touches {A : Type} (S : path -> Prop) (m : ST (disk C) A) : Prop :=
  forall t0, triple (same_outside S t0) (same_outside S t0) m (fun _ => same_outside S t0).

Lemma touches_weaken {A : Type} (S S' : path -> Prop) (m : ST (disk C) A) : touches S m -> (forall p, S p -> S' p) -> touches S' m.
Proof.
  intros Hm HS t0 d Hd. pose proof (Hm (now d) d) as Hm'. destruct (m d) as [d' r].
  destruct Hm' as (Hr & ts & Ht & Hts); [done|].
  assert (forall t, same_outside S (now d) t -> same_outside S' t0 t) as Hw.
  { intros t Hst p Hp. rewrite <- Hd by done. apply Hst. eauto. }
  split; [by apply Hw|]. exists ts. split; [done|]. eapply Forall_impl; [exact Hts|]. apply Hw.
Qed.

(** A computation that does not touch what [P] looks at keeps it. *)
Lemma touches_keeps {A : Type} S I P (m : ST (disk C) A) :
  touches S m -> (forall t t', P t -> same_outside S t t' -> P t') -> (forall t, P t -> I t) -> triple I P m (fun _ => P).
Proof.
  intros Hm HP HI d Hd. specialize (Hm (now d) d). destruct (m d) as [d' r]. destruct Hm as (Hr & ts & Ht & Hts); [done|].
  split; [by eapply HP|]. exists ts. split; [done|]. eapply Forall_impl; [exact Hts|]. intros t Hst. apply HI. by eapply HP.
Qed.

Lemma touches_ret {A : Type} S (a : A) : touches S (mret a).
Proof. intros t0. by apply triple_ret. Qed.
Lemma touches_lift {A : Type} S (r : result A) : touches S (st_lift r).
Proof. intros t0. by apply triple_lift. Qed.
Lemma touches_raise {A : Type} S (e : exn) : touches S (st_raise (A:=A) e).
Proof. intros t0. by apply triple_raise. Qed.
Lemma touches_bind {A B : Type} S (m : ST (disk C) A) (k : A -> ST (disk C) B) :
  touches S m -> (forall a, touches S (k a)) -> touches S (m ≫= k).
Proof.
  intros Hm Hk t0. apply triple_bind with (R := fun _ => same_outside S t0); [|intros a; apply Hk].
  eapply triple_weaken; [apply Hm|done..|]. by intros [|].
Qed.
Lemma touches_catch {A : Type} S (m : ST (disk C) A) h : touches S m -> (forall e, touches S (h e)) -> touches S (st_catch m h).
Proof.
  intros Hm Hk t0. apply triple_catch with (R := fun _ => same_outside S t0); [|intros a; apply Hk].
  eapply triple_weaken; [apply Hm|done..|]. by intros [|].
Qed.
Lemma touches_query {A : Type} S (f : tree C -> result A) : touches S (query f).
Proof. intros t0. by apply triple_query. Qed.
Lemma touches_uuid4 S : touches S uuid4.
Proof. intros t0. by apply triple_uuid4. Qed.
Lemma touches_time_ns S : touches S get_time_ns.
Proof. intros t0. by apply triple_time_ns. Qed.
Lemma touches_iter {A : Type} S (body : A -> ST (disk C) unit) l : (forall x, x ∈ l -> touches S (body x)) -> touches S (st_iter body l).
Proof. intros Hb t0. apply triple_iter. intros x Hx. by apply Hb. Qed.
Lemma touches_syscall {A : Type} (S : path -> Prop) (f : tree C -> result (tree C * A)) :
  (forall t t' a, f t = Ok (t', a) -> same_outside S t t') -> touches S (syscall f).
Proof.
  intros Hf t0. apply triple_syscall; [done|]. intros t t' a Ht Hok.
  assert (same_outside S t0 t'); [|done]. intros p Hp. rewrite (Hf _ _ _ Hok) by done. by apply Ht.
Qed.
Lemma touches_if {A : Type} S (b : bool) (m m' : ST (disk C) A) : touches S m -> touches S m' -> touches S (if b then m else m').
Proof. by destruct b. Qed.

Lemma touches_guard S (b : bool) e : touches S (st_guard (S:=disk C) b e).
Proof. apply touches_if; [apply touches_ret|apply touches_raise]. Qed.
Lemma touches_finally {A : Type} S (m : ST (disk C) A) f : touches S m -> touches S f -> touches S (st_finally m f).
Proof.
  intros Hm Hf t0 d Hd. specialize (Hm t0 d Hd). unfold st_finally. destruct (m d) as [d1 r].
  destruct Hm as (H1 & ts & Ht & Hts). specialize (Hf t0 d1 H1). destruct (f d1) as [d2 [[]|e]];
    destruct Hf as (H2 & ts' & Ht' & Hts'); (split; [done|]); exists (ts ++ ts'); rewrite Ht', Ht, app_assoc; (split; [done|]);
    by apply Forall_app.
Qed.
Lemma touches_fold {A B : Type} S (body : B -> A -> ST (disk C) B) acc l :
  (forall acc x, x ∈ l -> touches S (body acc x)) -> touches S (st_fold body acc l).
Proof.
  revert acc. induction l as [|x l IH]; intros acc Hb; [apply touches_ret|].
  apply touches_bind; [apply Hb; by left|]. intros acc'. apply IH. intros a y Hy. apply Hb. by right.
Qed.

(** What each call may change *)
Definition only p : path -> Prop := fun q => q = p.
Definition under p : path -> Prop := fun q => p `suffix_of` q.

Lemma insert_outside t p x : same_outside (only p) t (<[p := x]> t).
Proof. intros q Hq. apply lookup_insert_ne. by intros <-. Qed.
Lemma delete_outside t p : same_outside (only p) t (delete p t).
Proof. intros q Hq. apply lookup_delete_ne. by intros <-. Qed.

Lemma create_call_spec empty p t t' u : create_call empty p t = Ok (t', u) -> t !! p = None /\ t' = <[p := File empty]> t.
Proof. unfold create_call. intros Hc. inv_ok Hc. destruct (t !! p); simplify_eq. done. Qed.
Lemma write_call_spec p c t t' u : write_call p c t = Ok (t', u) -> (exists c0, t !! p = Some (File c0)) /\ t' = <[p := File c]> t.
Proof. unfold write_call. destruct (t !! p) as [[]|]; intros Hc; simplify_eq. eauto. Qed.
Lemma mkdir_call_spec p t t' u : mkdir_call p t = Ok (t', u) -> t !! p = None /\ t' = <[p := Dir]> t.
Proof. unfold mkdir_call. intros Hc. inv_ok Hc. destruct (t !! p); simplify_eq. done. Qed.
Lemma unlink_call_spec m p t t' u : unlink_call m p t = Ok (t', u) ->
  (t !! p = None /\ t' = t) \/ (t !! p <> Some Dir /\ t' = delete p t).
Proof. unfold unlink_call. destruct (t !! p) as [[]|], m; intros Hc; simplify_eq; eauto. Qed.
Lemma rmdir_call_spec p t t' u : rmdir_call p t = Ok (t', u) -> t !! p = Some Dir /\ t' = delete p t.
Proof. unfold rmdir_call. destruct (t !! p) as [[]|]; try case_decide; intros Hc; simplify_eq; eauto. Qed.
Lemma replace_call_spec p q t t' u : replace_call p q t = Ok (t', u) ->
  exists c, t !! p = Some (File c) /\ t !! q <> Some Dir /\ t' = <[q := File c]> (delete p t).
Proof.
  unfold replace_call. destruct (t !! p) as [[]|]; try done. destruct (t !! q) as [[]|]; intros Hc; try done; inv_ok Hc; eauto.
Qed.

Lemma touches_mkdir p : touches (only p) (mkdir p).
Proof. apply touches_syscall. intros t t' [] (_ & ->)%mkdir_call_spec. apply insert_outside. Qed.
Lemma touches_mkdir_exist_ok p : touches (only p) (mkdir_exist_ok p).
Proof.
  apply touches_catch; [apply touches_mkdir|]. intros e. apply touches_if; [|apply touches_raise].
  apply touches_bind; [apply touches_query|]. intros b. apply touches_if; [apply touches_ret|apply touches_raise].
Qed.
Definition ancestors p : path -> Prop := fun q => q `suffix_of` p.
Lemma touches_mkdir_parents p : touches (ancestors p) (mkdir_parents p).
Proof.
  assert (forall p e, touches (ancestors p) (if is_OSError e then present ← query (fun t => Ok (is_dir t p));
    if (present : bool) then mret tt else st_raise e else st_raise e)) as Hpresent.
  { intros q e. apply touches_if; [|apply touches_raise]. apply touches_bind; [apply touches_query|].
    intros b. apply touches_if; [apply touches_ret|apply touches_raise]. }
  assert (forall p q, only p q -> ancestors p q) as Hself by (intros ? ? ->; unfold ancestors; done).
  induction p as [|n p IH]; apply touches_catch; try (by eapply touches_weaken; [apply touches_mkdir|apply Hself]).
  - intros e. destruct e; apply Hpresent.
  - intros e. destruct e; try apply Hpresent. apply touches_bind.
    + eapply touches_weaken; [exact IH|]. intros q Hq. unfold ancestors in *. by apply suffix_cons_r.
    + intros []. eapply touches_weaken; [apply touches_mkdir_exist_ok|apply Hself].
Qed.
Lemma touches_write_new empty p c : touches (only p) (write_new empty p c).
Proof.
  apply touches_bind; [|intros []; apply touches_bind; [|intros []; apply touches_query]]; apply touches_syscall; intros t t' [].
  - intros (_ & ->)%create_call_spec. apply insert_outside.
  - intros (_ & ->)%write_call_spec. apply insert_outside.
Qed.
(** A new file, once written, holds its content. *)
Lemma triple_write_new I P empty p c : (forall t t', P t -> same_outside (only p) t t' -> P t') -> (forall t, P t -> I t) ->
  triple I P (write_new empty p c) (fun r t => P t /\ (r = Ok tt -> t !! p = Some (File c))).
Proof.
  intros HP HI. unfold write_new. apply triple_bind with (R := fun _ => P).
  { apply triple_syscall; [done|]. intros t t' [] Ht [_ ->]%create_call_spec.
    assert (P (<[p := File empty]> t)) by (eapply HP; [exact Ht|apply insert_outside]). auto. }
  intros _. apply triple_bind with (R := fun _ t => P t /\ t !! p = Some (File c)).
  { apply triple_syscall; [done|]. intros t t' [] Ht [_ ->]%write_call_spec.
    assert (P (<[p := File c]> t)) by (eapply HP; [exact Ht|apply insert_outside]). split; [auto|]. by rewrite lookup_insert_eq. }
  intros _. unfold fsync. apply triple_query; naive_solver.
Qed.

Lemma touches_lock_file empty p : touches (only p) (lock_file empty p).
Proof.
  apply touches_syscall. intros t t' []. destruct (t !! p) as [[]|]; try done; [by intros [= ->]|].
  intros (_ & ->)%create_call_spec. apply insert_outside.
Qed.
Lemma touches_fsync S : touches S fsync.
Proof. apply touches_query. Qed.
Lemma touches_fsync_directory S p : touches S (fsync_directory p).
Proof. apply touches_query. Qed.
Lemma touches_unlink m p : touches (only p) (unlink m p).
Proof. apply touches_syscall. intros t t' [] [[_ ->]|[_ ->]]%unlink_call_spec; [done|apply delete_outside]. Qed.
Lemma touches_rmdir p : touches (only p) (rmdir p).
Proof. apply touches_syscall. intros t t' [] [_ ->]%rmdir_call_spec. apply delete_outside. Qed.
Lemma touches_replace p q : touches (fun r => r = p \/ r = q) (replace p q).
Proof.
  apply touches_syscall. intros t t' [] (c & _ & _ & ->)%replace_call_spec r Hr.
  rewrite lookup_insert_ne by naive_solver. apply lookup_delete_ne. naive_solver.
Qed.
Lemma touches_iterdir S p : touches S (iterdir p).
Proof.
  intros t0 d Hd. unfold iterdir.
  apply (touches_query S (fun t => if is_dir t p then Ok (listing (clock d) (children t p)) else Err (OSError "not a directory")) t0 d Hd).
Qed.
Lemma touches_remove_entry p : touches (only p) (remove_entry p).
Proof.
  apply touches_syscall. intros t t' [] Hok. destruct (t !! p) as [[]|].
  1,3,4: by apply unlink_call_spec in Hok as [[_ ->]|[_ ->]]; [done|apply delete_outside].
  apply rmdir_call_spec in Hok as [_ ->]. apply delete_outside.
Qed.

(** ** Subtrees *)

Lemma below_app p q : below p (q ++ p) = Some q.
Proof.
  unfold below. rewrite decide_True by by exists q. f_equal. rewrite length_app. replace (length q + length p - length p)%nat with (length q) by lia.
  apply take_app_length.
Qed.
Lemma below_Some p q r : below p q = Some r <-> q = r ++ p.
Proof.
  split; [|intros ->; apply below_app]. unfold below. case_decide as Hs; [|done]. destruct Hs as [k ->].
  intros [= <-]. rewrite length_app. replace (length k + length p - length p)%nat with (length k) by lia. by rewrite take_app_length.
Qed.
Lemma below_None p q : below p q = None <-> ~ under p q.
Proof. unfold below, under. case_decide; naive_solver. Qed.

Lemma disjoint_subtrees p q a b : ~ under p q -> ~ under q p -> a ++ p <> b ++ q.
Proof.
  intros Hpq Hqp Hab. destruct (suffix_weak_total p q (a ++ p)); [by exists a|by exists b|naive_solver..].
Qed.

Lemma lookup_move p q t r : ~ under p q -> ~ under q p ->
  move p q t !! r = match below q r with Some k => t !! (k ++ p) | None => if decide (under p r) then None else t !! r end.
Proof.
  intros Hpq Hqp. pose proof (disjoint_subtrees p q) as Hdis. revert r. unfold move.
  apply (map_fold_weak_ind (fun acc t => forall r, acc !! r = match below q r with
    Some k => t !! (k ++ p) | None => if decide (under p r) then None else t !! r end)).
  - intros r. destruct (below q r); [|case_decide]; by rewrite ?lookup_empty.
  - intros k x m acc Hk IH r. destruct (below p k) as [a|] eqn:Hp.
    + apply below_Some in Hp as ->. destruct (below q r) as [b|] eqn:Hq.
      * apply below_Some in Hq as ->. destruct (decide (a = b)) as [->|Hne]; [by rewrite !lookup_insert_eq|].
        rewrite !lookup_insert_ne, IH, below_app; [done|by intros ?%app_inv_tail..].
      * rewrite lookup_insert_ne by (intros <-; by rewrite below_app in Hq). rewrite IH, Hq. case_decide as Hu; [done|].
        rewrite lookup_insert_ne; [done|]. intros <-. apply Hu. by exists a.
    + apply below_None in Hp. destruct (below q k) as [a|] eqn:Hq.
      * apply below_Some in Hq as ->. rewrite IH. destruct (below q r) as [b|] eqn:Hr.
        -- by rewrite lookup_insert_ne by (intros ?; by eapply Hdis).
        -- case_decide; [done|]. rewrite lookup_insert_ne; [done|]. intros <-. by rewrite below_app in Hr.
      * destruct (decide (k = r)) as [->|Hne].
        -- rewrite lookup_insert_eq, Hq, decide_False, lookup_insert_eq by done. done.
        -- rewrite lookup_insert_ne, IH by done. destruct (below q r) as [b|] eqn:Hr.
           ++ rewrite lookup_insert_ne; [done|]. intros ->. apply Hp. by exists b.
           ++ case_decide; [done|]. by rewrite lookup_insert_ne.
Qed.

Lemma rename_call_spec p q t t' u : rename_call p q t = Ok (t', u) ->
  t !! p = Some Dir /\ children t q = [] /\ t' = move p q t.
Proof.
  unfold rename_call, is_dir. intros Hr. inv_ok Hr. destruct (t !! p) as [[]|]; try done.
  destruct (t !! q) as [[]|]; try done; by apply bool_decide_eq_true in Hguard1.
Qed.

Lemma touches_rename p q : ~ under p q -> ~ under q p -> touches (fun r => under p r \/ under q r) (rename p q).
Proof.
  intros Hpq Hqp. apply touches_syscall. intros t t' [] (_ & _ & ->)%rename_call_spec r Hr.
  rewrite lookup_move by done. destruct (below q r) as [k|] eqn:Hk; [apply below_Some in Hk as ->; exfalso; apply Hr; right; by exists k|].
  rewrite decide_False; naive_solver.
Qed.

Lemma elem_of_children t p n : n ∈ children t p <-> is_Some (t !! (p // n)).
Proof.
  unfold children. rewrite list_elem_of_omap. split.
  - intros ([k x] & Hin & Hk). apply elem_of_map_to_list in Hin. simpl in Hk. destruct k as [|m q]; [done|].
    case_decide; simplify_eq. by exists x.
  - intros [x Hx]. exists (p // n, x). split; [by apply elem_of_map_to_list|]. simpl. by rewrite decide_True.
Qed.

Context `{!WorldLaws}.

Lemma elem_of_subtree n t p q : q ∈ subtree n t p <-> under p q /\ is_Some (t !! q).
Proof.
  unfold subtree. rewrite (merge_sort_Permutation _ _), listing_perm, list_elem_of_filter, list_elem_of_fmap. split.
  - intros [Hu ([k x] & -> & Hin%elem_of_map_to_list)]. split; [done|]. by exists x.
  - intros [Hu [x Hx]]. split; [done|]. exists (q, x). split; [done|]. by apply elem_of_map_to_list.
Qed.

Lemma touches_rmtree ignore p : touches (under p) (rmtree ignore p).
Proof.
  assert (forall (m : ST (disk C) unit) S, touches S m ->
    touches S (st_catch m (fun e => if ignore && is_OSError e then mret tt else st_raise e))) as Hig.
  { intros m S Hm. apply touches_catch; [done|]. intros e. apply touches_if; [apply touches_ret|apply touches_raise]. }
  apply Hig. intros t0.
  apply triple_bind with (R := fun l t => (forall q, q ∈ l -> under p q) /\ same_outside (under p) t0 t).
  - intros d Hd. pose proof (triple_query (same_outside (under p) t0) (same_outside (under p) t0)
      (fun t => if is_dir t p then Ok (subtree (clock d) t p) else
        match t !! p with None => Err FileNotFoundError | _ => Err (OSError "not a directory") end)
      (fun r t => match r with Ok l => (forall q, q ∈ l -> under p q) /\ same_outside (under p) t0 t | Err _ => same_outside (under p) t0 t end)) as Hq.
    apply Hq; [done| |done]. intros t l Ht Hl. destruct (is_dir t p); [|by destruct (t !! p)]. injection Hl as <-.
    split; [|done]. intros q Hq'. by apply elem_of_subtree in Hq' as [? _].
  - intros l d [Hl Hd]. apply (touches_iter (under p)); [|done]. intros q Hq. apply Hig.
    eapply touches_weaken; [apply touches_remove_entry|]. intros r ->. by apply Hl.
Qed.
End triples.

Create HintDb touches.
#[export] Hint Resolve touches_mkdir touches_mkdir_exist_ok touches_mkdir_parents touches_write_new touches_lock_file
  touches_unlink touches_rmdir touches_replace touches_remove_entry touches_rmtree : touches.

(** Reduce [touches S m] to the calls of [m] and the paths they name. *)
Ltac touch_step :=
  match goal with
  | |- touches _ (mret _) => apply touches_ret
  | |- touches _ (st_lift _) => apply touches_lift
  | |- touches _ (st_raise _) => apply touches_raise
  | |- touches _ (st_guard _ _) => apply touches_guard
  | |- touches _ (query _) => apply touches_query
  | |- touches _ uuid4 => apply touches_uuid4
  | |- touches _ get_time_ns => apply touches_time_ns
  | |- touches _ fsync => apply touches_fsync
  | |- touches _ (fsync_directory _) => apply touches_fsync_directory
  | |- touches _ (iterdir _) => apply touches_iterdir
  | |- touches _ (_ ≫= _) => apply touches_bind; [|intros ?]
  | |- touches _ (st_catch _ _) => apply touches_catch; [|intros ?]
  | |- touches _ (st_finally _ _) => apply touches_finally
  | |- touches _ (st_iter _ _) => apply touches_iter; intros ? ?
  | |- touches _ (st_fold _ _ _) => apply touches_fold; intros ? ? ?
  | |- touches _ (let _ := _ in _) => intros ?
  | |- touches _ (match ?x with _ => _ end) => destruct x
  | |- touches _ _ => eapply touches_weaken; [solve [eauto with touches]|]
  end.
Ltac touch := repeat touch_step.
