(* ===== verification/CacheFiles.v ===== *)
(** * What the files of the factor cache hold, and the host around it

    A file's content is text: JSON (class [JsonText]), a generation name on a line,
    or a native column segment.  [CacheFiles] names what the code calls to make and
    read it; the laws say that what was written is read back.  [Host] is the
    process and the operating system. *)

From S2P Require Import Prelude Numeric FactorIdentity Fs.

#[local] Open Scope Z_scope.

(** [MappedFloat64Column] *)
Record mapped_column (F : Type) := mkColumn {
  mc_values : list F;
  mc_row_count : Z;
  mc_checksum : Z;
  mc_format_version : Z;
}.
Arguments mkColumn {F} _ _ _ _.
Arguments mc_values {F} _.
Arguments mc_row_count {F} _.
Arguments mc_checksum {F} _.
Arguments mc_format_version {F} _.

Class CacheFiles (F C : Type) := {
  empty_file : C;
  with_newline : C -> C;                        (* payload + b"\n" *)
  pointer_text : string -> C;                   (* f"{generation}\n".encode() *)
  stripped_text : C -> result string;           (* path.read_text().strip() *)
  native_available : bool;                      (* MappedFloat64Column is not None *)
  native_segment : list F -> C;                 (* the file create_chunked_v3 writes *)
  native_column : list F -> mapped_column F;    (* and the object it returns *)
  native_open : C -> result (mapped_column F);  (* MappedFloat64Column.open *)
}.

Class CacheFilesLaws (F C : Type) `{JsonText F C, CacheFiles F C} : Prop := {
  json_with_newline c : json_loads (with_newline c) = json_loads (F:=F) c;
  pointer_text_read s : all_chars hex_digit s = true ->
    stripped_text (pointer_text s) = Ok s;
  native_open_segment values : native_open (native_segment values) = Ok (native_column values);
  native_column_values values : mc_values (native_column values) = values;
}.

(** What [os.kill(pid, 0)] raises *)
Inductive kill_error :=
  | NoSuchProcess
  | NotPermitted
  | InvalidPid
  | KillFailure (e : exn).

Class Host (C : Type) := {
  getpid : Z;
  gethostname : string;
  os_kill : nat -> Z -> option kill_error;      (* None: the process exists *)
  int_text : string -> result Z;                (* int(text) *)
  st_size : C -> Z;
  st_blocks : entry C -> Z;
  st_mtime_ns : nat -> path -> Z;
  statvfs_free : nat -> Z;                      (* f_bavail * f_frsize *)
}.

(** ** Python's operations on decoded JSON *)

Section json.
Context {F : Type} `{PyFloat F}.

(** [v.get(k)] *)
Definition vget (v : value F) (k : string) : result (option (value F)) :=
  match v with VMap l => Ok (dict_get l (Some k)) | _ => Err (AttributeError "object has no attribute 'get'") end.

(** [v[k]] for a string [k] *)
Definition vindex (v : value F) (k : string) : result (value F) :=
  match v with
  | VMap l => match dict_get l (Some k) with Some x => Ok x | None => Err (KeyError k) end
  | _ => Err (TypeError "indices must be integers")
  end.

(** [v == text] and [v == z] *)
Definition eq_text (v : value F) (s : string) : bool := match v with VStr s' => String.eqb s' s | _ => false end.
Definition eq_int (v : value F) (z : Z) : bool :=
  match v with VInt z' => z' =? z | VBool b => Z.b2z b =? z | VFloat x => f_eqb x (f_of_Z z) | _ => false end.
Definition opt_eq_text (v : option (value F)) (s : string) : bool := match v with Some v => eq_text v s | None => false end.
Definition opt_eq_int (v : option (value F)) (z : Z) : bool := match v with Some v => eq_int v z | None => false end.

(** [type(v) is int] *)
Definition exact_int (v : value F) : option Z := match v with VInt z => Some z | _ => None end.

(** [int(v)] *)
Definition int_of `{Host C} (v : value F) : result Z :=
  match v with
  | VInt z => Ok z
  | VBool b => Ok (Z.b2z b)
  | VFloat x =>
      whenever f_isnan x raise ValueError "cannot convert float NaN to integer" ;;
      whenever f_isinf x raise OverflowError "cannot convert float infinity to integer" ;;
      Ok (f_trunc x)
  | VStr s => int_text s
  | _ => Err (TypeError "int() argument must be a string or a number")
  end.
End json.

(** [except (OSError, ValueError, KeyError, TypeError)] *)
Definition is_decode_error (e : exn) : bool :=
  is_OSError e || match e with ValueError _ | UnicodeDecodeError | KeyError _ | TypeError _ => true | _ => false end.
(** [except (OSError, ValueError)] *)
Definition is_read_error (e : exn) : bool :=
  is_OSError e || match e with ValueError _ | UnicodeDecodeError => true | _ => false end.

(** A read whose listed errors become another exception, or a default *)
Definition raise_from {A} (caught : exn -> bool) (r : result A) (e : exn) : result A :=
  match r with Ok a => Ok a | Err x => if caught x then Err e else Err x end.
Definition or_else {A} (caught : exn -> bool) (r : result A) (a : A) : result A :=
  match r with Ok a => Ok a | Err x => if caught x then Ok a else Err x end.
