(* ===== verification/CacheWitness.v ===== *)
(** * A small host for witnesses

    Files as the values they hold, a file system whose calls do not fail, and a
    process that is alive: instances of the classes of [CacheFiles] that satisfy
    their laws, on which the operations of the cache can be run. *)

From Stdlib Require Import Ascii.
From S2P Require Import Prelude Numeric FactorIdentity FactorIdentityFacts Fs CacheFiles.

#[local] Open Scope Z_scope.

Inductive held :=
  | HNothing
  | HJson (v : value XQ)
  | HPointer (s : string)
  | HSegment (values : list XQ).

#[export] Instance held_json : JsonText XQ held := {|
  json_dumps v := HJson (sort_keys v);
  json_loads c := match c with HJson v => Ok v | _ => Err (ValueError "not JSON") end;
|}.
#[export] Instance held_json_laws : JsonTextLaws XQ held.
Proof. split; [intros v Hv; unfold json_dumps; simpl; by rewrite (proj2 (sort_keys_plain v Hv))|done]. Qed.

(** A digest that tells the first letter of a transform *)
#[export] Instance held_digest : Sha256 held := fun c =>
  match c with
  | HJson v =>
      match vindex v "transform" ≫= (fun t => vindex t "name") with
      | Ok (VStr (String "a"%char _)) => "aaaaaaaaaaaaaaaaaaaaaaaaaaaaaaaaaaaaaaaaaaaaaaaaaaaaaaaaaaaaaaaa"
      | _ => "bbbbbbbbbbbbbbbbbbbbbbbbbbbbbbbbbbbbbbbbbbbbbbbbbbbbbbbbbbbbbbbb"
      end
  | _ => "0000000000000000000000000000000000000000000000000000000000000000"
  end%string.

#[export] Instance held_files : CacheFiles XQ held := {|
  empty_file := HNothing;
  with_newline c := c;
  pointer_text s := HPointer s;
  stripped_text c := match c with HPointer s => Ok s | _ => Err UnicodeDecodeError end;
  native_available := true;
  native_segment values := HSegment values;
  native_column values := mkColumn values (Z.of_nat (length values)) 0 3;
  native_open c := match c with HSegment values => Ok (mkColumn values (Z.of_nat (length values)) 0 3) | _ => Err (RuntimeError "bad segment") end;
|}.
#[export] Instance held_files_laws : CacheFilesLaws XQ held.
Proof. split; done. Qed.

(** Call [n] sees the clock at [n], and draws the n-th generation name. *)
Definition numbered (n : nat) : string :=
  let digit k := String (ascii_of_nat (48 + k)) "" in
  (digit ((n / 1000) mod 10) +:+ digit ((n / 100) mod 10) +:+ digit ((n / 10) mod 10) +:+ digit (n mod 10) +:+
   "aaaaaaaaaaaaaaaaaaaaaaaaaaaa")%string%nat.

#[export] Instance quiet_world : World := {|
  fault _ := None;
  uuid4_hex := numbered;
  time_ns n := Z.of_nat n * 1000000000;
  listing A _ l := l;
|}.
#[export] Instance quiet_world_laws : WorldLaws.
Proof. split; [done|]. intros n. simpl. lia. Qed.

#[export] Instance held_host : Host held := {|
  getpid := 1;
  gethostname := "host";
  os_kill _ pid := if pid =? 1 then None else Some NoSuchProcess;
  int_text _ := Err (ValueError "invalid literal");
  st_size c := match c with HSegment values => 8 * Z.of_nat (length values) | _ => 1 end;
  st_blocks _ := 8;
  st_mtime_ns _ _ := 0;
  statvfs_free _ := 1000000;
|}.

Definition fresh_disk : disk held := mkDisk ∅ [] 0.

(** A node with one float64 column and one fingerprint *)
Definition held_node (transform : string) (parents : list string) : FactorNodeIdentity XQ held :=
  let schema := [mkColumnSchema "value" "float64" false] in
  let inputs := [("prices", "cccccccccccccccccccccccccccccccccccccccccccccccccccccccccccccccc")]%string in
  mkIdentity transform "1" schema ["timestamp"%string] parents inputs [item "window" (VInt 5)] []
    match build_snapshot transform "1" schema ["timestamp"%string] parents inputs [item "window" (VInt 5)] []
    with Ok v => json_dumps v | Err _ => HNothing end.

Lemma held_a_constructed : constructed (held_node "a" []).
Proof. split_and!; [vm_compute; reflexivity|apply (bool_decide_eq_true_1 _); vm_compute; reflexivity|vm_compute; reflexivity..]. Qed.

Lemma held_columns_built transform parents :
  Forall (fun c => FactorColumnSchema_init (cn_name c) (cn_dtype c) (cn_nullable c) = Ok c) (id_output_schema (held_node transform parents)).
Proof. repeat constructor. Qed.
