(* ===== verification/Metrics.v ===== *)
(** * Lifetime metrics of the factor cache (factor_metrics.py)

    Counters in one JSON file, replaced atomically under a lock. *)

From Stdlib Require Import Ascii.
From stdpp Require Import pretty.
From S2P Require Import Prelude Numeric FactorIdentity Fs CacheFiles.

#[local] Open Scope Z_scope.

Definition METRICS_FORMAT : string := "gambit-factor-cache-metrics".
Definition METRICS_VERSION : Z := 2.
Definition V1_COUNTER_NAMES : list string :=
  ["cache_hits"; "cache_misses"; "cache_admissions"; "cache_declines"; "cache_evictions"; "reclaimed_bytes";
   "corruption_failures"; "lease_conflicts"]%string.
Definition COUNTER_NAMES : list string :=
  V1_COUNTER_NAMES ++ ["migration_nodes"; "migration_bytes"; "migration_failures"; "migration_conflicts"]%string.

Record FactorCacheMetrics := mkMetrics {
  mt_format : string;
  mt_version : Z;
  mt_updated_ns : Z;
  mt_counters : list (string * Z);
}.

Definition empty_counters : list (string * Z) := (fun name => (name, 0)) <$> COUNTER_NAMES.

(** [mapping.update(items)] *)
Definition update_all {A} (d items : list (string * A)) : list (string * A) := foldl (fun d x => dict_set d x.1 x.2) d items.

(** ** The Prometheus text *)

(** [s.removeprefix(prefix)] *)
Definition removeprefix (prefix s : string) : string :=
  if String.prefix prefix s then String.substring (String.length prefix) (String.length s - String.length prefix) s else s.

(** [s.replace("_", " ")] *)
Fixpoint underscores_spaced (s : string) : string :=
  match s with
  | EmptyString => EmptyString
  | String c s => String (if Ascii.eqb c "_"%char then " "%char else c) (underscores_spaced s)
  end.

Definition PROMETHEUS_NAME (name : string) : string := ("gambit_factor_cache_" +:+ removeprefix "cache_" name +:+ "_total")%string.

Definition newline : string := String (Ascii.ascii_of_nat 10) "".

Definition counter_lines (metrics : FactorCacheMetrics) (name : string) : result (list string) :=
  let metric_name := PROMETHEUS_NAME name in
  match dict_get (mt_counters metrics) name with
  | Some value => Ok [
      ("# HELP " +:+ metric_name +:+ " Gambit factor cache lifetime " +:+ underscores_spaced name +:+ ".")%string;
      ("# TYPE " +:+ metric_name +:+ " counter")%string;
      (metric_name +:+ " " +:+ pretty value)%string]
  | None => Err (KeyError name)
  end.

Definition format_prometheus_metrics (openmetrics : bool) (metrics : FactorCacheMetrics) : result string :=
  lines ← mapM (counter_lines metrics) COUNTER_NAMES;
  let lines := mjoin lines ++ (if openmetrics then ["# EOF"%string] else []) in
  Ok (foldr (fun line text => line +:+ newline +:+ text)%string EmptyString lines).

Definition metrics_dir : path := [] // "metrics"%string.

Section metrics.
Context {F C : Type} `{PyFloat F} `{JsonText F C} `{CacheFiles F C} `{World}.

Definition validate_increments (increments : list (string * value F)) : result (list (string * Z)) :=
  unless forallb (fun x => bool_decide (x.1 ∈ COUNTER_NAMES)) increments raise ValueError "unknown factor-cache counters" ;;
  foldE (fun normalized x =>
    match exact_int x.2 with
    | Some value =>
        whenever value <? 0 raise ValueError "factor-cache counter increments must be non-negative integers" ;;
        Ok (dict_set normalized x.1 value)
    | None => Err (ValueError "factor-cache counter increments must be non-negative integers")
    end) empty_counters increments.

(** [asdict] *)
Definition metrics_snapshot (m : FactorCacheMetrics) : value F :=
  VMap [item "format" (VStr (mt_format m)); item "version" (VInt (mt_version m)); item "updated_ns" (VInt (mt_updated_ns m));
        item "counters" (VMap ((fun x => item x.1 (VInt x.2)) <$> mt_counters m))].

(** [_metrics_lock], which yields [metrics_dir] *)
Definition metrics_lock : ST (disk C) unit :=
  let root : path := [] in
  let metrics := metrics_dir in
  bad ← query (fun t => Ok (is_symlink t root || (path_exists t root && negb (is_dir t root))));
  _ ← st_guard (negb bad) (FactorMetricsError "factor cache root must be a non-symlink directory");
  _ ← mkdir_parents root;
  link ← query (fun t => Ok (is_symlink t metrics));
  _ ← st_guard (negb link) (FactorMetricsError "factor metrics directory may not be a symbolic link");
  _ ← mkdir_exist_ok metrics;
  lock_file empty_file (metrics // ".lock"%string).

Definition counter_of (x : option string * value F) : option (string * Z) :=
  match x with (Some name, VInt z) => if 0 <=? z then Some (name, z) else None | _ => None end.

(** The payload's checks *)
Definition decode_payload (payload : value F) : result FactorCacheMetrics :=
  counters ← vindex payload "counters";
  version ← vindex payload "version";
  let expected_names := if eq_int version 1 then V1_COUNTER_NAMES else COUNTER_NAMES in
  format ← vindex payload "format";
  unless eq_text format METRICS_FORMAT raise ValueError "" ;;
  unless eq_int version 1 || eq_int version METRICS_VERSION raise ValueError "" ;;
  updated_ns ← vindex payload "updated_ns";
  match exact_int updated_ns, counters with
  | Some updated_ns, VMap counters =>
      unless 0 <=? updated_ns raise ValueError "" ;;
      unless same_keys counters expected_names raise ValueError "" ;;
      match mapM counter_of counters with
      | Some counters => Ok (mkMetrics METRICS_FORMAT METRICS_VERSION updated_ns (update_all empty_counters counters))
      | None => Err (ValueError "")
      end
  | _, _ => Err (ValueError "")
  end.

(** [_decode] *)
Definition decode (p : path) (t : tree C) : result FactorCacheMetrics :=
  if negb (path_exists t p) then Ok (mkMetrics METRICS_FORMAT METRICS_VERSION 0 empty_counters)
  else
    whenever is_symlink t p raise FactorMetricsError "factor metrics file may not be a symbolic link" ;;
    raise_from is_decode_error (c ← read_file t p; payload ← json_loads c; decode_payload payload)
      (FactorMetricsError "factor cache lifetime metrics are invalid").

Definition read_factor_cache_metrics : ST (disk C) FactorCacheMetrics :=
  _ ← metrics_lock;
  query (decode (metrics_dir // "lifetime.json"%string)).

Definition add_counters (previous additions : list (string * Z)) : list (string * Z) :=
  (fun name => (name, default 0 (dict_get previous name) + default 0 (dict_get additions name))) <$> COUNTER_NAMES.

Definition record_factor_cache_metrics (increments : list (string * value F)) : ST (disk C) FactorCacheMetrics :=
  additions ← st_lift (validate_increments increments);
  _ ← metrics_lock;
  let metrics := metrics_dir in
  let target := metrics // "lifetime.json"%string in
  previous ← query (decode target);
  now_ns ← get_time_ns;
  let updated := mkMetrics METRICS_FORMAT METRICS_VERSION now_ns (add_counters (mt_counters previous) additions) in
  uuid ← uuid4;
  let staging := metrics // (".lifetime-" +:+ uuid +:+ ".tmp")%string in
  _ ← st_finally (
        _ ← write_new empty_file staging (json_dumps (metrics_snapshot updated));
        _ ← replace staging target;
        fsync_directory metrics)
      (unlink true staging);
  mret updated.

Definition is_metrics_error (e : exn) : bool := is_OSError e || match e with FactorMetricsError _ => true | _ => false end.

Definition try_record_factor_cache_metrics (increments : list (string * value F)) : ST (disk C) bool :=
  st_catch (_ ← record_factor_cache_metrics increments; mret true)
    (fun e => if is_metrics_error e then mret false else st_raise e).
End metrics.
