(* ===== verification/MetricsFacts.v ===== *)
(** * What recording metrics promises

    The counters on disk are at every moment those before or those after, and
    recording adds exactly the increments. *)

From S2P Require Import Prelude Numeric FactorIdentity FactorIdentityFacts Fs CacheFiles CacheWitness Metrics.

#[local] Open Scope Z_scope.

Lemma dict_get_perm {K V} `{EqDecision K} (l l' : list (K * V)) k : NoDup l.*1 -> l ≡ₚ l' -> dict_get l k = dict_get l' k.
Proof.
  intros Hnd Hp. assert (NoDup l'.*1) as Hnd' by by rewrite <- Hp. destruct (dict_get l k) as [v|] eqn:Hl.
  - symmetry. apply dict_In_get; [done|]. rewrite <- Hp. by apply dict_get_Some_In.
  - symmetry. apply dict_get_None. unfold dict_keys. rewrite <- Hp. by apply dict_get_None.
Qed.

Lemma dict_get_fmap_snd {K V W} `{EqDecision K} (f : V -> W) (l : list (K * V)) k :
  dict_get ((fun x => (x.1, f x.2)) <$> l) k = f <$> dict_get l k.
Proof. induction l as [|[k' v] l IH]; [done|]. simpl. by case_decide. Qed.

Section sorted.
Context {F : Type}.

(** Reading a field of what was written *)
Lemma get_sorted (l : list (option string * value F)) k : good_keys l ->
  dict_get (sorted_items ((fun x => (x.1, sort_keys x.2)) <$> l)) k = sort_keys <$> dict_get l k.
Proof.
  intros Hg. rewrite <- dict_get_fmap_snd. apply dict_get_perm; [|apply sorted_items_perm].
  rewrite (sorted_items_perm _). rewrite <- list_fmap_compose. apply Hg.
Qed.

Lemma vindex_sorted `{PyFloat F} (l : list (option string * value F)) k v : good_keys l -> dict_get l (Some k) = Some v ->
  vindex (sort_keys (VMap l)) k = Ok (sort_keys v).
Proof. intros Hg Hk. cbn [sort_keys vindex]. by rewrite get_sorted, Hk. Qed.
End sorted.

Section update.
Context {A : Type}.
Implicit Types d l : list (string * A).

Lemma update_all_get d l k : NoDup l.*1 ->
  dict_get (update_all d l) k = match dict_get l k with Some v => Some v | None => dict_get d k end.
Proof.
  revert d. induction l as [|[k' v] l IH]; intros d Hnd; [done|]. unfold update_all in *. simpl.
  apply NoDup_cons in Hnd as [Hk Hnd]. rewrite IH by done. simpl. rewrite dict_get_set.
  destruct (decide (k = k')) as [->|]; [|done]. by rewrite (proj2 (dict_get_None l k') Hk).
Qed.

Lemma update_all_keys d l : Forall (fun x => x.1 ∈ d.*1) l -> (update_all d l).*1 = d.*1.
Proof.
  revert d. induction l as [|[k v] l IH]; intros d Hl; [done|]. apply Forall_cons in Hl as [Hk Hl].
  assert ((dict_set d k v).*1 = d.*1) as Hd by (pose proof (dict_keys_set d k v) as Hs; by rewrite decide_True in Hs).
  unfold update_all in *. simpl. rewrite IH; [done|]. by rewrite Hd.
Qed.

Lemma update_all_Forall (P : A -> Prop) d l : Forall (fun x => P x.2) d -> Forall (fun x => P x.2) l ->
  Forall (fun x => P x.2) (update_all d l).
Proof.
  revert d. induction l as [|[k v] l IH]; intros d Hd Hl; [done|]. apply Forall_cons in Hl as [Hk Hl]. apply IH; [|done].
  clear -Hd Hk. simpl in Hk. induction Hd as [|[k' v'] d Hx Hd IHd]; simpl; [by constructor|]. case_decide; by constructor.
Qed.

(** Writing all the entries again, in any order, changes nothing. *)
Lemma update_all_same d0 d l : NoDup d.*1 -> d0.*1 = d.*1 -> l ≡ₚ d -> update_all d0 l = d.
Proof.
  intros Hnd Hk Hp. assert (NoDup l.*1) as Hndl by by rewrite Hp.
  assert ((update_all d0 l).*1 = d.*1) as Hks.
  { rewrite update_all_keys; [done|]. apply Forall_forall. intros x Hx. rewrite Hp in Hx. rewrite Hk. by apply list_elem_of_fmap_2. }
  apply dict_ext; [unfold dict_wf, dict_keys; by rewrite Hks|exact Hks|].
  intros k. rewrite update_all_get, (dict_get_perm l d) by done. destruct (dict_get d k) as [v|] eqn:Hd; [done|].
  apply dict_get_None. unfold dict_keys. rewrite Hk. by apply dict_get_None.
Qed.
End update.

(** ** What is written is read back *)

Section metrics_facts.
Context {F C : Type} `{PyFloat F} `{JsonText F C} `{!JsonTextLaws F C} `{CacheFiles F C} `{World} `{!WorldLaws}.

Definition lifetime : path := metrics_dir // "lifetime.json"%string.

(** Counters as the code keeps them *)
Definition counters_ok (l : list (string * Z)) : Prop := l.*1 = COUNTER_NAMES /\ Forall (fun x => 0 <= x.2) l.

Lemma names_NoDup : NoDup COUNTER_NAMES.
Proof. apply (bool_decide_unpack _). vm_compute. exact I. Qed.

Lemma empty_counters_ok : counters_ok empty_counters.
Proof. split; [done|]. repeat constructor; done. Qed.

Lemma default_nonneg (l : list (string * Z)) k : Forall (fun x => 0 <= x.2) l -> 0 <= default 0 (dict_get l k).
Proof.
  intros Hl. destruct (dict_get l k) as [z|] eqn:Hk; [|done]. apply dict_get_Some_In in Hk. rewrite Forall_forall in Hl.
  apply (Hl _ Hk).
Qed.

Lemma add_counters_ok l a : Forall (fun x => 0 <= x.2) l -> Forall (fun x => 0 <= x.2) a -> counters_ok (add_counters l a).
Proof.
  intros Hl Ha. split; [done|]. unfold add_counters. apply Forall_fmap, Forall_forall. intros name _. simpl.
  pose proof (default_nonneg l name Hl). pose proof (default_nonneg a name Ha). lia.
Qed.

Lemma validate_increments_ok increments adds :
  validate_increments (F:=F) increments = Ok adds -> Forall (fun x => 0 <= x.2) adds.
Proof.
  unfold validate_increments. intros Hv. apply guard_bind_Ok in Hv as [_ Hv]. revert Hv.
  assert (Forall (fun x => 0 <= x.2) empty_counters) as He by apply empty_counters_ok. revert He. generalize empty_counters.
  induction increments as [|[k v] l IH]; intros acc Ha Hf; simpl in Hf; [by simplify_eq|].
  apply bind_Ok_inv in Hf as (acc' & Hx & Hf). apply IH in Hf; [done|]. destruct (exact_int v) as [z|]; [|done].
  inv_ok Hx. bools. change (dict_set acc k z) with (update_all acc [(k, z)]). apply update_all_Forall; [done|]. by repeat constructor.
Qed.

Lemma decode_payload_ok payload m : decode_payload (F:=F) payload = Ok m -> counters_ok (mt_counters m).
Proof.
  unfold decode_payload. intros Hd. inv_ok Hd. destruct (exact_int a2) as [z|]; [|done]. destruct a as [| | | | | |l|]; try done.
  inv_ok Hd. destruct (mapM counter_of l) as [cs|] eqn:Hcs; [|done]. simplify_eq. simpl.
  apply mapM_Some in Hcs. rename Hguard2 into Hsame.
  unfold same_keys in Hsame. apply andb_true_iff in Hsame as [Hsame _]. apply forallb_Forall_true in Hsame.
  assert (Forall (fun x => x.1 ∈ COUNTER_NAMES /\ 0 <= x.2) cs) as Hall.
  { clear -Hsame Hcs. induction Hcs as [|[k v] [k' z] l cs Hk _ IH]; [done|]. apply Forall_cons in Hsame as [Hn Hsame].
    constructor; [|by apply IH]. destruct k as [k|]; [|done]. destruct v; try done. cbn in Hk, Hn.
    destruct (0 <=? z0) eqn:Hz; [|done]. apply Z.leb_le in Hz. simplify_eq. apply bool_decide_eq_true in Hn. split; [|done]. simpl.
    destruct (eq_int a0 1); [|done]. apply elem_of_app. by left. }
  split.
  - rewrite update_all_keys; [done|]. eapply Forall_impl; [exact Hall|]. by intros x [? _].
  - apply update_all_Forall; [apply empty_counters_ok|]. eapply Forall_impl; [exact Hall|]. by intros x [_ ?].
Qed.

Lemma decode_ok p t m : decode p t = Ok m -> counters_ok (mt_counters m).
Proof.
  unfold decode. destruct (path_exists t p); simpl; [|intros [= <-]; apply empty_counters_ok].
  destruct (is_symlink t p); [done|]. simpl. unfold raise_from. case_match eqn:E; [|by case_match]. intros [= ->].
  apply bind_Ok_inv in E as (c & _ & E). apply bind_Ok_inv in E as (v & _ & E). by eapply decode_payload_ok.
Qed.

(** Metrics as the recorder builds them *)
Definition metrics_ok (m : FactorCacheMetrics) : Prop :=
  mt_format m = METRICS_FORMAT /\ mt_version m = METRICS_VERSION /\ 0 <= mt_updated_ns m /\ counters_ok (mt_counters m).

Definition counter_items (l : list (string * Z)) : list (option string * value F) := (fun x => item x.1 (VInt x.2)) <$> l.

Lemma counter_items_good l : NoDup l.*1 -> good_keys (counter_items l).
Proof.
  intros Hnd. split; [|apply Forall_fmap, Forall_forall; by intros x _; eexists].
  assert ((counter_items l).*1 = Some <$> l.*1) as -> by (unfold counter_items; rewrite <- !list_fmap_compose; done).
  by apply NoDup_fmap_2; [apply _|].
Qed.

Lemma counter_items_sorted l : sort_keys (VMap (counter_items l)) = VMap (sorted_items (counter_items l)).
Proof. cbn [sort_keys]. do 2 f_equal. unfold counter_items. rewrite <- list_fmap_compose. done. Qed.

Lemma read_counters l : counters_ok l -> mapM counter_of (sorted_items (counter_items l)) = Some (omap counter_of (sorted_items (counter_items l))).
Proof.
  intros [_ Hl]. assert (Forall (fun x => is_Some (counter_of x)) (sorted_items (counter_items l))) as Hf.
  { rewrite (sorted_items_perm _). apply Forall_fmap. eapply Forall_impl; [exact Hl|]. intros [k z] Hz. simpl in *.
    rewrite (proj2 (Z.leb_le 0 z)) by done. eauto. }
  induction Hf as [|x k [y Hy] _ IH]; [done|]. simpl. rewrite Hy, IH. done.
Qed.

Lemma read_counters_perm l : counters_ok l -> omap counter_of (sorted_items (counter_items l)) ≡ₚ l.
Proof.
  intros [_ Hl]. rewrite (sorted_items_perm _). unfold counter_items. induction Hl as [|[k z] l Hz _ IH]; [done|]. simpl in *.
  rewrite (proj2 (Z.leb_le 0 z)) by done. by constructor.
Qed.

Lemma decode_written m : metrics_ok m -> decode_payload (sort_keys (metrics_snapshot (F:=F) m)) = Ok m.
Proof.
  destruct m as [f v u l]. unfold metrics_ok. cbn [mt_format mt_version mt_updated_ns mt_counters]. intros (-> & -> & Hu & Hc).
  assert (NoDup l.*1) as Hnd by (destruct Hc as [-> _]; apply names_NoDup).
  assert (good_keys [item "format" (VStr (F:=F) METRICS_FORMAT); item "version" (VInt METRICS_VERSION); item "updated_ns" (VInt u);
    item "counters" (VMap (counter_items l))]) as Hg.
  { split; [apply (bool_decide_eq_true_1 _); reflexivity|]. repeat constructor; by eexists. }
  assert (metrics_snapshot (F:=F) (mkMetrics METRICS_FORMAT METRICS_VERSION u l) = VMap [item "format" (VStr METRICS_FORMAT);
    item "version" (VInt METRICS_VERSION); item "updated_ns" (VInt u); item "counters" (VMap (counter_items l))]) as -> by reflexivity.
  unfold decode_payload.
  rewrite (vindex_sorted _ "counters" (VMap (counter_items l)) Hg), (vindex_sorted _ "version" (VInt METRICS_VERSION) Hg),
    (vindex_sorted _ "format" (VStr METRICS_FORMAT) Hg), (vindex_sorted _ "updated_ns" (VInt u) Hg), counter_items_sorted by done.
  repeat bind_step. cbn [exact_int sort_keys].
  rewrite (proj2 (Z.leb_le 0 u)) by done. repeat bind_step.
  change (if eq_int (VInt METRICS_VERSION) 1 then V1_COUNTER_NAMES else COUNTER_NAMES) with COUNTER_NAMES.
  assert (same_keys (sorted_items (counter_items l)) COUNTER_NAMES = true) as ->.
  { unfold same_keys. apply andb_true_iff. split; apply forallb_Forall_true.
    - rewrite (sorted_items_perm _). apply Forall_fmap, Forall_forall. intros x Hx. simpl. apply bool_decide_eq_true.
      destruct Hc as [<- _]. by apply list_elem_of_fmap_2.
    - apply Forall_forall. intros k Hk. apply bool_decide_eq_true. rewrite (sorted_items_perm _). destruct Hc as [Hc _]. rewrite <- Hc in Hk.
      apply list_elem_of_fmap in Hk as (x & -> & Hx). apply list_elem_of_fmap. exists (item x.1 (VInt x.2)). split; [done|].
      apply list_elem_of_fmap. eauto. }
  repeat bind_step. rewrite read_counters by done. do 2 f_equal.
  apply update_all_same; [done| |by apply read_counters_perm]. by destruct Hc as [-> _].
Qed.

Lemma snapshot_plain m : metrics_ok m -> json_plain (metrics_snapshot (F:=F) m) = true.
Proof.
  intros (_ & _ & _ & Hc & _). apply plain_map. split.
  - split; [apply (bool_decide_eq_true_1 _); reflexivity|]. repeat constructor; by eexists.
  - repeat (constructor; [try reflexivity|]); [|constructor]. apply plain_map. split.
    + apply counter_items_good. rewrite Hc. apply names_NoDup.
    + apply Forall_fmap, Forall_forall. done.
Qed.

Definition holds_metrics (m : FactorCacheMetrics) (t : tree C) : Prop :=
  t !! lifetime = Some (File (json_dumps (metrics_snapshot (F:=F) m))).

Lemma decode_holds m t : metrics_ok m -> holds_metrics m t -> decode lifetime t = Ok m.
Proof.
  intros Hm Ht. unfold holds_metrics in Ht.
  assert ((c ← read_file t lifetime; payload ← json_loads c; decode_payload (F:=F) payload) = Ok m) as Hr.
  { unfold read_file. rewrite Ht. repeat bind_step. rewrite json_loads_dumps by by apply snapshot_plain. by apply decode_written. }
  unfold decode. rewrite Hr. unfold path_exists, is_dir, is_file, is_symlink. by rewrite Ht.
Qed.

Lemma decode_same t t' : t !! lifetime = t' !! lifetime -> decode (F:=F) lifetime t = decode lifetime t'.
Proof. intros Ht. unfold decode, path_exists, is_dir, is_file, is_symlink, read_file. by rewrite Ht. Qed.

(** The counters on disk are those of [m0], or those with the increments. *)
Definition shows_counters (m0 : FactorCacheMetrics) (adds : list (string * Z)) (t : tree C) : Prop :=
  exists m, decode (F:=F) lifetime t = Ok m /\
    (mt_counters m = mt_counters m0 \/ mt_counters m = add_counters (mt_counters m0) adds).

Lemma decode_outside S (t t' : tree C) : (forall p, S p -> p <> lifetime) -> same_outside S t t' ->
  decode (F:=F) lifetime t = decode lifetime t'.
Proof. intros HS Ht. symmetry. apply decode_same, Ht. intros Hp. by apply (HS _ Hp). Qed.

Lemma touches_metrics_lock : touches (fun p => p <> lifetime) (metrics_lock (C:=C) (F:=F)).
Proof.
  unfold metrics_lock. touch; unfold ancestors, only; intros p; try (intros ->; discriminate).
  intros Hp. apply suffix_nil_inv in Hp as ->. discriminate.
Qed.

Lemma record_triple increments adds m0 :
  validate_increments (F:=F) increments = Ok adds -> counters_ok (mt_counters m0) ->
  triple (shows_counters m0 adds) (fun t : tree C => decode (F:=F) lifetime t = Ok m0) (record_factor_cache_metrics increments)
    (fun r t => shows_counters m0 adds t /\ forall m, r = Ok m ->
       decode (F:=F) lifetime t = Ok m /\ mt_counters m = add_counters (mt_counters m0) adds).
Proof.
  intros Hv Hm0. unfold record_factor_cache_metrics. rewrite Hv.
  set (Q := fun (r : result FactorCacheMetrics) (t : tree C) => shows_counters m0 adds t /\ forall m, r = Ok m ->
       decode (F:=F) lifetime t = Ok m /\ mt_counters m = add_counters (mt_counters m0) adds).
  assert (forall e t, decode (F:=F) lifetime t = Ok m0 -> Q (Err e) t) as Herr by (intros e t Ht; split; [exists m0; eauto|done]).
  assert (forall m t, metrics_ok m -> mt_counters m = add_counters (mt_counters m0) adds -> holds_metrics m t -> shows_counters m0 adds t)
    as Hnew by (intros m t Hm Hc Ht; exists m; split; [by apply decode_holds|by right]).
  set (P := fun t : tree C => decode (F:=F) lifetime t = Ok m0) in *.
  assert (forall t, P t -> shows_counters m0 adds t) as HPI by (intros t Ht; exists m0; eauto).
  assert (forall {A : Type} S (m : ST (disk C) A), (forall p, S p -> p <> lifetime) -> touches S m ->
    triple (shows_counters m0 adds) P m (fun _ => P)) as Hkeep.
  { intros A S m HS Hm. eapply touches_keeps; [exact Hm| |exact HPI]. intros t t' Ht Hout. unfold P. by rewrite <- (decode_outside S t t'). }
  apply triple_bind with (R := fun a t => a = adds /\ P t); [by apply triple_lift|]. intros a. apply triple_pure. intros ->.
  apply triple_bind with (R := fun _ t => P t).
  { eapply triple_weaken; [apply (Hkeep _ _ _ (fun p Hp => Hp) touches_metrics_lock)|done..|]. intros [[]|e] t Ht; [done|by apply Herr]. }
  intros _. cbv zeta. apply triple_bind with (R := fun p t => p = m0 /\ P t).
  { apply triple_query; [intros e t Ht; by apply Herr|]. intros t p Ht Hp. split; [|done]. unfold P in Ht. unfold lifetime in *. congruence. }
  intros p. apply triple_pure. intros ->. apply triple_bind with (R := fun n t => 0 <= n /\ P t).
  { apply triple_time_ns. intros n t Ht. split; [apply time_ns_nonneg|done]. }
  intros n. apply triple_pure. intros Hn. apply triple_bind with (R := fun _ t => P t); [by apply triple_uuid4|]. intros uuid.
  assert (metrics_dir // (".lifetime-" +:+ uuid +:+ ".tmp")%string <> lifetime) as Hne by discriminate.
  set (staging := metrics_dir // (".lifetime-" +:+ uuid +:+ ".tmp")%string) in *.
  set (m1 := mkMetrics METRICS_FORMAT METRICS_VERSION n (add_counters (mt_counters m0) adds)).
  assert (metrics_ok m1) as Hm1.
  { split_and!; [done..|]. apply add_counters_ok; [by destruct Hm0|by eapply validate_increments_ok]. }
  apply triple_bind with (R := fun _ t => holds_metrics m1 t).
  2: { intros []. apply triple_ret. intros t Ht. split; [by eapply Hnew|]. intros m [= <-]. split; [by apply decode_holds|done]. }
  apply triple_finally with (R := fun r t => match r with Ok _ => holds_metrics m1 t | Err _ => P t \/ holds_metrics m1 t end).
  - apply triple_bind with (R := fun _ t => P t /\ t !! staging = Some (File (json_dumps (metrics_snapshot (F:=F) m1)))).
    { eapply triple_weaken; [apply (triple_write_new (shows_counters m0 adds) P)|done..|].
      - intros t t' Ht Hout. unfold P. rewrite <- (decode_outside _ _ _ (fun p (Hp : only staging p) => eq_ind_r (fun p => p <> lifetime) Hne Hp) Hout). done.
      - done.
      - intros [[]|e] t [Ht Hs]; [split; [done|by apply Hs]|by left]. }
    intros []. apply triple_bind with (R := fun _ t => holds_metrics m1 t).
    + apply triple_syscall; [intros e t [Ht _]; by left|]. intros t t' [] [Ht Hs] (c & Hc & _ & ->)%replace_call_spec.
      assert (Some (File c) = Some (File (json_dumps (metrics_snapshot (F:=F) m1)))) as [= ->] by (rewrite <- Hc; exact Hs).
      assert (holds_metrics m1 (<[lifetime := File (json_dumps (metrics_snapshot (F:=F) m1))]> (delete staging t))) as Hh
        by (unfold holds_metrics; by rewrite lookup_insert_eq).
      split; [by eapply Hnew|exact Hh].
    + intros []. unfold fsync_directory. apply triple_query; [by right|done].
  - intros r. apply triple_weaken with (I := shows_counters m0 adds)
      (P := fun t => match r with Ok _ => holds_metrics m1 t | Err _ => P t \/ holds_metrics m1 t end)
      (Q := fun _ t => match r with Ok _ => holds_metrics m1 t | Err _ => P t \/ holds_metrics m1 t end); [|done..|].
    + eapply touches_keeps; [apply touches_unlink| |].
      * intros t t' Ht Hout. assert (t' !! lifetime = t !! lifetime) as Hsame by (apply Hout; intros Heq; by apply Hne).
        assert (P t -> P t') by (unfold P; by rewrite (decode_same t t')).
        assert (holds_metrics m1 t -> holds_metrics m1 t') by (unfold holds_metrics; by rewrite Hsame).
        destruct r; naive_solver.
      * intros t Ht. destruct r; [by eapply Hnew|]. destruct Ht; [auto|by eapply Hnew].
    + assert (forall e t, (P t \/ holds_metrics m1 t) -> Q (Err e) t) as He
        by (intros e t [Ht|Ht]; [by apply Herr|split; [by eapply Hnew|done]]).
      intros [[]|e] t Ht; destruct r as [[]|e']; auto.
Qed.

(** *** The counters as numbers *)

Definition counter (counters : list (string * Z)) (name : string) : Z := default 0 (dict_get counters name).

(** The value a caller gives for a counter *)
Definition increment (increments : list (string * value F)) (name : string) : Z :=
  match dict_get increments name with Some (VInt z) => z | _ => 0 end.

(** [c] is [c0] with every increment added *)
Definition incremented (c0 : list (string * Z)) (increments : list (string * value F)) (c : list (string * Z)) : Prop :=
  forall name, name ∈ COUNTER_NAMES -> counter c name = counter c0 name + increment increments name.

Lemma get_of_names {A : Type} (f : string -> A) (l : list string) name : name ∈ l -> dict_get ((fun n => (n, f n)) <$> l) name = Some (f name).
Proof.
  induction l as [|x l IH]; [by intros ?%elem_of_nil|]. intros Hin. simpl. case_decide as Hd; [by subst|].
  apply IH. by apply elem_of_cons in Hin as [->|].
Qed.

Lemma validated_counter increments adds name : NoDup increments.*1 -> validate_increments (F:=F) increments = Ok adds ->
  name ∈ COUNTER_NAMES -> counter adds name = increment increments name.
Proof.
  unfold validate_increments. intros Hnd Hv Hname. apply guard_bind_Ok in Hv as [_ Hv].
  assert (counter empty_counters name = 0) as Hz by (unfold counter, empty_counters; by rewrite get_of_names).
  enough (counter adds name = match dict_get increments name with Some (VInt z) => z | _ => counter empty_counters name end) as ->
    by (unfold increment; by rewrite Hz). clear Hz.
  revert Hv Hnd. generalize empty_counters. induction increments as [|[k v] increments IH]; intros acc Hv Hnd; cbn [foldE] in Hv.
  - by apply Ok_inj in Hv as ->.
  - apply NoDup_cons in Hnd as [Hk Hnd]. apply bind_Ok_inv in Hv as (acc' & Hstep & Hv). rewrite (IH acc' Hv Hnd). simpl in Hstep |- *.
    destruct v as [| | |z| | | |]; try discriminate. simpl in Hstep. apply guard_bind_Ok in Hstep as [_ Hstep]. apply Ok_inj in Hstep as <-.
    unfold counter. rewrite dict_get_set. repeat case_decide; try congruence. subst.
    by rewrite (proj2 (dict_get_None increments k) Hk).
Qed.

Lemma added_incremented c0 increments adds : NoDup increments.*1 -> validate_increments (F:=F) increments = Ok adds ->
  incremented c0 increments (add_counters c0 adds).
Proof.
  intros Hnd Hv name Hname. rewrite <- (validated_counter increments adds) by done. unfold counter at 1, add_counters.
  by rewrite (get_of_names (fun n => default 0 (dict_get c0 n) + default 0 (dict_get adds n))).
Qed.

(** The counters that can be read are those of [m0], or those with the increments. *)
Definition reads_counters (m0 : FactorCacheMetrics) (increments : list (string * value F)) (t : tree C) : Prop :=
  exists m, decode (F:=F) lifetime t = Ok m /\
    (mt_counters m = mt_counters m0 \/ incremented (mt_counters m0) increments (mt_counters m)).

(** C23: Recording is atomic and exact.  Wherever the file system fails or the process
    dies, at every moment the counters that can be read are those before, or those
    with every increment added, counter by counter; when the call returns, they are
    the latter, and it returned them. *)
Theorem metrics_recorded_exactly increments adds m0 (d : disk C) : NoDup increments.*1 ->
  validate_increments (F:=F) increments = Ok adds -> decode (F:=F) lifetime (now d) = Ok m0 ->
  let '(d', r) := record_factor_cache_metrics increments d in
  reads_counters m0 increments (now d') /\
  (exists ts, trace d' = trace d ++ ts /\ Forall (reads_counters m0 increments) ts) /\
  forall m, r = Ok m -> decode (F:=F) lifetime (now d') = Ok m /\ incremented (mt_counters m0) increments (mt_counters m).
Proof.
  intros Hnd Hv Hd. pose proof (record_triple increments adds m0 Hv (decode_ok _ _ _ Hd) d Hd) as Ht.
  pose proof (added_incremented (mt_counters m0) increments adds Hnd Hv) as Hadd.
  assert (forall t, shows_counters m0 adds t -> reads_counters m0 increments t) as Hshow.
  { intros t (m & Hm & [Hc|Hc]); exists m; (split; [done|]); [by left|right; by rewrite Hc]. }
  destruct (record_factor_cache_metrics increments d) as [d' r]. destruct Ht as ((Hs & Hr) & ts & Htr & Hts). split_and!.
  - by apply Hshow.
  - exists ts. split; [done|]. by eapply Forall_impl.
  - intros m Hm. destruct (Hr m Hm) as [? Hc]. split; [done|]. by rewrite Hc.
Qed.
End metrics_facts.

Definition two_counters : list (string * value XQ) := [("cache_hits", VInt 2); ("cache_misses", VInt 1)]%string.

Lemma metrics_recorded_exactly_witness :
  let '(d', r) := record_factor_cache_metrics (F:=XQ) two_counters fresh_disk in
  is_ok r = true /\ forall m, r = Ok m -> counter (mt_counters m) "cache_hits" = 2.
Proof.
  assert (NoDup two_counters.*1) as Hnd by (apply (bool_decide_eq_true_1 _); vm_compute; reflexivity).
  pose proof (metrics_recorded_exactly (F:=XQ) two_counters (update_all empty_counters [("cache_hits", 2); ("cache_misses", 1)]%string)
    (mkMetrics METRICS_FORMAT METRICS_VERSION 0 empty_counters) fresh_disk Hnd eq_refl eq_refl) as Hw.
  assert (is_ok (record_factor_cache_metrics (F:=XQ) two_counters fresh_disk).2 = true) as Hok by (vm_compute; reflexivity).
  destruct (record_factor_cache_metrics (F:=XQ) two_counters fresh_disk) as [d' r].
  split; [exact Hok|]. intros m Hm. destruct Hw as (_ & _ & Hw). destruct (Hw m Hm) as [_ Hc].
  rewrite (Hc "cache_hits"%string) by (left). reflexivity.
Defined.
