(* ===== verification/FactorStore.v ===== *)
(** * The factor store (factor_store.py)

    Generations are immutable directories of column files with a manifest; CURRENT
    and one file per node key point to them; a lease is a file under leases/.  The
    functions run on a [disk], every call of the file system in the order of the
    code.  What a function reads while it holds a lock, before it changes anything
    itself, is one [query].  [flock] serializes processes and shows nothing in the
    tree. *)

From stdpp Require Import pretty.
From S2P Require Import Prelude Numeric FactorIdentity Fs CacheFiles Metrics.

#[local] Open Scope Z_scope.

Definition GENERATION_FORMAT : string := "gambit-factor-generation".
Definition GENERATION_VERSION : Z := 1.

(** [re.compile(r"[0-9a-f]{32}").fullmatch(s)] *)
Definition is_generation (s : string) : bool := bool_decide (String.length s = 32%nat) && all_chars hex_digit s.

(** [uuid.uuid4().hex] *)
Class UuidLaws `{World} : Prop := uuid4_hex_valid n : is_generation (uuid4_hex n) = true.

Definition store : path := [].
Definition nodes_dir : path := store // "nodes"%string.
Definition generations_dir : path := store // "generations"%string.
Definition leases_dir : path := store // "leases"%string.
Definition current_file : path := store // "CURRENT"%string.

Section store.
Context {F C : Type} `{PyFloat F} `{JsonText F C} `{Sha256 C} `{CacheFiles F C} `{Host C} `{World}.

(** What [np.asarray(column, dtype=np.float64)] gives: its rank and its values *)
Record factor_array := mkArray { fa_ndim : Z; fa_values : list F }.

(** ** Leases *)

Record FactorGenerationLease := mkLease {
  ls_generation : string;
  ls_node_key : string;
  ls_identity : option (FactorNodeIdentity F C);
  ls_columns : list (string * mapped_column F);
  ls_path : path;
  ls_closed : bool;
}.

Definition lease_getitem (l : FactorGenerationLease) (name : string) : result (mapped_column F) :=
  whenever ls_closed l raise FactorStoreError "factor generation lease is closed" ;;
  match dict_get (ls_columns l) name with Some column => Ok column | None => Err (KeyError name) end.

(** [close] *)
Definition lease_close (l : FactorGenerationLease) : ST (disk C) FactorGenerationLease :=
  if ls_closed l then mret l
  else
    _ ← unlink true (ls_path l);
    mret (mkLease (ls_generation l) (ls_node_key l) (ls_identity l) [] (ls_path l) true).

(** ** Locks *)

Definition store_lock : ST (disk C) unit :=
  _ ← mkdir_parents store;
  lock_file empty_file (store // ".lock"%string).
Definition writer_lock : ST (disk C) unit :=
  _ ← mkdir_parents store;
  lock_file empty_file (store // ".writer.lock"%string).

(** ** Pointers *)

(** [_read_node_pointer] *)
Definition read_node_pointer (node_key : string) (missing_ok : bool) (t : tree C) : result (option string) :=
  unless is_digest node_key raise ValueError "node_key must be a lowercase SHA-256 digest" ;;
  let pointer := nodes_dir // node_key in
  whenever is_symlink t pointer raise FactorStoreError "factor node index may not use symbolic links" ;;
  match c ← read_file t pointer; stripped_text c with
  | Ok generation =>
      unless is_generation generation raise FactorStoreError "factor node index generation is invalid" ;;
      Ok (Some generation)
  | Err FileNotFoundError => if missing_ok then Ok None else Err FactorNodeCacheMiss
  | Err e => if is_OSError e then Err (FactorStoreError "factor node index is unreadable") else Err e
  end.

Definition require_node_pointer (node_key : string) (t : tree C) : result string :=
  generation ← read_node_pointer node_key false t;
  match generation with Some g => Ok g | None => Err (FactorStoreError "factor node pointer is missing") end.

(** The text of CURRENT *)
Definition read_current (t : tree C) : result string :=
  generation ← raise_from is_OSError (c ← read_file t current_file; stripped_text c)
    (FactorStoreError "factor store has no readable CURRENT generation");
  unless is_generation generation raise FactorStoreError "factor store CURRENT generation is invalid" ;;
  Ok generation.

(** ** Opening a generation *)

(** [str(v)], as far as it can be a digest *)
Definition digest_text (v : option (value F)) : string :=
  match v with Some (VStr s) => s | Some (VInt z) => pretty z | _ => "" end.

Definition load_column (generation_path : path) (t : tree C) (x : option string * value F) : result (string * mapped_column F) :=
  match x with
  | (Some name, VMap metadata) =>
      unless is_name name raise FactorStoreError "factor generation column metadata is invalid" ;;
      let expected_file := (name +:+ ".bin")%string in
      unless opt_eq_text (dict_get metadata (Some "file"%string)) expected_file
        raise FactorStoreError "factor generation column filename is invalid" ;;
      let column_path := generation_path // expected_file in
      whenever is_symlink t column_path raise FactorStoreError "factor generation may not use symbolic links" ;;
      column ← (c ← read_file t column_path; native_open c);
      unless opt_eq_int (dict_get metadata (Some "rows"%string)) (mc_row_count column) &&
             opt_eq_int (dict_get metadata (Some "checksum"%string)) (mc_checksum column) &&
             opt_eq_int (dict_get metadata (Some "segment_version"%string)) (mc_format_version column)
        raise FactorStoreError "factor generation column metadata mismatch" ;;
      Ok (name, column)
  | _ => Err (FactorStoreError "factor generation column metadata is invalid")
  end.

Definition load_identity (snapshot : option (value F)) (node_key : string) (require_identity : bool) :
  result (option (FactorNodeIdentity F C)) :=
  match snapshot with
  | None | Some VNone =>
      whenever require_identity raise FactorStoreError "factor generation has no strict identity snapshot" ;; Ok None
  | Some snapshot =>
      identity ← raise_from (fun e => match e with TypeError _ | ValueError _ => true | _ => false end) (from_snapshot snapshot)
        (FactorStoreError "factor generation identity snapshot is invalid");
      unless String.eqb (FactorIdentity.node_key identity) node_key raise FactorStoreError "factor generation identity hash mismatch" ;;
      Ok (Some identity)
  end.

(** What [_open_and_lease_generation] checks and opens *)
Definition load_generation (generation : string) (expected_node_key : option string) (require_identity : bool) (t : tree C) :
  result (string * option (FactorNodeIdentity F C) * list (string * mapped_column F)) :=
  let generation_path := generations_dir // generation in
  let manifest_path := generation_path // "manifest.json"%string in
  whenever is_symlink t generation_path || is_symlink t manifest_path
    raise FactorStoreError "factor generation may not use symbolic links" ;;
  manifest ← raise_from is_read_error (c ← read_file t manifest_path; json_loads c)
    (FactorStoreError "factor generation manifest is unreadable");
  format ← vget manifest "format";
  version ← vget manifest "version";
  named ← vget manifest "generation";
  key ← vget manifest "node_key";
  let node_key := digest_text key in
  unless opt_eq_text format GENERATION_FORMAT && opt_eq_int version GENERATION_VERSION && opt_eq_text named generation &&
         is_digest node_key raise FactorStoreError "factor generation manifest identity is invalid" ;;
  unless match expected_node_key with Some expected => String.eqb node_key expected | None => true end
    raise FactorStoreError "factor generation node key does not match its index" ;;
  snapshot ← vget manifest "identity";
  identity ← load_identity snapshot node_key require_identity;
  columns ← vget manifest "columns";
  match columns with
  | Some (VMap ((_ :: _) as columns)) =>
      opened ← mapM (load_column generation_path t) columns;
      Ok (node_key, identity, opened)
  | _ => Err (FactorStoreError "factor generation manifest has no columns")
  end.

Definition open_and_lease_generation (generation : string) (expected_node_key : option string) (require_identity : bool) :
  ST (disk C) FactorGenerationLease :=
  opened ← query (load_generation generation expected_node_key require_identity);
  let '(node_key, identity, columns) := opened in
  let lease_directory := leases_dir // generation in
  _ ← mkdir_parents lease_directory;
  uuid ← uuid4;
  let lease_path := lease_directory // (pretty getpid +:+ "-" +:+ uuid +:+ ".json")%string in
  created_ns ← get_time_ns;
  _ ← write_new empty_file lease_path (with_newline (json_dumps (VMap [
        item "generation" (VStr generation); item "pid" (VInt getpid); item "host" (VStr gethostname);
        item "created_ns" (VInt created_ns)])));
  _ ← fsync_directory lease_directory;
  mret (mkLease generation node_key identity columns lease_path false).

(** ** Access records *)

(** The last access and the count recorded for this generation *)
Definition previous_access (destination : path) (node_key generation : string) (t : tree C) : result (option (Z * Z)) :=
  if is_file t destination && negb (is_symlink t destination) then
    or_else (fun e => is_read_error e || match e with TypeError _ => true | _ => false end) (
      c ← read_file t destination;
      previous ← json_loads c;
      match previous with
      | VMap previous =>
          let get k := dict_get previous (Some k) in
          if opt_eq_text (get "node_key"%string) node_key && opt_eq_text (get "generation"%string) generation then
            Ok (last ← get "last_access_ns"%string ≫= exact_int; count ← get "access_count"%string ≫= exact_int;
                Some (last, Z.max 0 count))
          else Ok None
      | _ => Ok None
      end) None
  else Ok None.

(** [z < x] *)
Definition z_ltb_f (z : Z) (x : F) : bool := negb (f_isnan x) && negb (f_leb_z x z).

(** [_record_node_access] *)
Definition record_node_access (node_key generation : string) (minimum_interval_seconds : F) : ST (disk C) unit :=
  let directory := store // "access"%string in
  link ← query (fun t => Ok (is_symlink t directory));
  if (link : bool) then mret tt
  else st_catch (
    _ ← mkdir_parents directory;
    let destination := directory // (node_key +:+ ".json")%string in
    now_ns ← get_time_ns;
    previous ← query (previous_access destination node_key generation);
    let recent := match previous with
      | Some (last, _) => (0 <=? last) && (last <=? now_ns) &&
          z_ltb_f (now_ns - last) (f_mul minimum_interval_seconds (f_of_Z 1000000000))
      | None => false
      end in
    if (recent : bool) then mret tt
    else
      let access_count := match previous with Some (_, count) => count | None => 0 end in
      uuid ← uuid4;
      let staging := directory // ("." +:+ node_key +:+ "-" +:+ uuid)%string in
      st_finally (
        _ ← write_new empty_file staging (with_newline (json_dumps (VMap [
              item "format" (VStr "gambit-factor-access"); item "version" (VInt 1); item "node_key" (VStr node_key);
              item "generation" (VStr generation); item "last_access_ns" (VInt now_ns);
              item "access_count" (VInt (access_count + 1))])));
        _ ← replace staging destination;
        fsync_directory directory)
        (unlink true staging))
    (fun e => if is_OSError e then mret tt else st_raise e).

(** ** Opening *)

Definition open_current_generation : ST (disk C) FactorGenerationLease :=
  _ ← st_guard native_available (FactorStoreError "native mapped-column support is unavailable");
  _ ← store_lock;
  generation ← query read_current;
  open_and_lease_generation generation None false.

Definition open_generation_by_node_key (node_key : string) (access_update_interval_seconds : F) : ST (disk C) FactorGenerationLease :=
  _ ← st_guard native_available (FactorStoreError "native mapped-column support is unavailable");
  _ ← st_guard (f_isfinite access_update_interval_seconds && negb (f_ltb access_update_interval_seconds f_zero))
        (ValueError "access_update_interval_seconds must be finite and non-negative");
  _ ← store_lock;
  generation ← query (require_node_pointer node_key);
  lease ← open_and_lease_generation generation (Some node_key) true;
  _ ← record_node_access node_key generation access_update_interval_seconds;
  mret lease.

(** ** Publication *)

(** [sorted(columns)] *)
Definition name_le {A} (x y : string * A) : Prop := String.le x.1 y.1.
#[local] Instance name_le_dec {A} (x y : string * A) : Decision (name_le x y).
Proof. unfold name_le. apply _. Defined.
Definition sorted_columns {A} (l : list (string * A)) : list (string * A) := merge_sort name_le l.

(** [np.array_equal(a, b, equal_nan=True)] *)
Fixpoint array_equal (a b : list F) : bool :=
  match a, b with
  | [], [] => true
  | x :: a, y :: b => (f_eqb x y || (f_isnan x && f_isnan y)) && array_equal a b
  | _, _ => false
  end.

(** The manifest's columns so far, and the rows every column must have *)
Definition column_progress : Type := list (option string * value F) * option Z.

Definition publish_column (verify_written : bool) (staging : path) (acc : column_progress) (x : string * factor_array) :
  ST (disk C) column_progress :=
  let '(manifest_columns, expected_rows) := acc in
  let '(name, array) := x in
  let file := (name +:+ ".bin")%string in
  let values := fa_values array in
  _ ← st_guard (fa_ndim array =? 1) (ValueError "factor columns must be one-dimensional");
  let rows := Z.of_nat (length values) in
  _ ← st_guard match expected_rows with None => true | Some expected => rows =? expected end
        (ValueError "factor columns must have equal row counts");
  _ ← write_new empty_file (staging // file) (native_segment values);
  let column := native_column values in
  _ ← (if verify_written then
         verified ← query (fun t => c ← read_file t (staging // file); native_open c);
         st_guard (array_equal (mc_values verified) values) (FactorStoreError "factor migration verification failed")
       else mret tt);
  mret (manifest_columns ++ [item name (VMap [
          item "file" (VStr file); item "rows" (VInt (mc_row_count column)); item "checksum" (VInt (mc_checksum column));
          item "segment_version" (VInt (mc_format_version column))])], Some (default rows expected_rows)).

(** Writing the generation under its staging name *)
Definition build_generation (verify_written : bool) (staging : path) (generation node_key : string)
  (columns : list (string * factor_array)) (identity : option (FactorNodeIdentity F C)) : ST (disk C) unit :=
  built ← st_fold (publish_column verify_written staging) ([], None) (sorted_columns columns);
  created_ns ← get_time_ns;
  identity_items ← st_lift match identity with
    | Some i => snapshot ← identity_snapshot i; Ok [item "identity" snapshot]
    | None => Ok []
    end;
  let manifest := VMap ([
    item "format" (VStr GENERATION_FORMAT); item "version" (VInt GENERATION_VERSION); item "generation" (VStr generation);
    item "node_key" (VStr node_key); item "created_ns" (VInt created_ns); item "columns" (VMap built.1)] ++ identity_items) in
  _ ← write_new empty_file (staging // "manifest.json"%string) (with_newline (json_dumps manifest));
  fsync_directory staging.

(** Making it current, and pointing the node at it *)
Definition commit_generation (staging : path) (generation node_key : string) (identity : option (FactorNodeIdentity F C)) :
  ST (disk C) unit :=
  let pointer_staging := store // (".CURRENT-" +:+ generation)%string in
  _ ← store_lock;
  _ ← rename staging (generations_dir // generation);
  _ ← fsync_directory generations_dir;
  _ ← write_new empty_file pointer_staging (pointer_text generation);
  _ ← replace pointer_staging current_file;
  _ ← fsync_directory store;
  match identity with
  | Some _ =>
      _ ← mkdir_exist_ok nodes_dir;
      let node_staging := nodes_dir // ("." +:+ node_key +:+ "-" +:+ generation)%string in
      _ ← write_new empty_file node_staging (pointer_text generation);
      _ ← replace node_staging (nodes_dir // node_key);
      _ ← fsync_directory nodes_dir;
      record_node_access node_key generation f_zero
  | None => mret tt
  end.

Definition publish_new (node_key : string) (columns : list (string * factor_array))
  (identity : option (FactorNodeIdentity F C)) (verify_written : bool) : ST (disk C) string :=
  _ ← mkdir_parents generations_dir;
  generation ← uuid4;
  let staging := generations_dir // (".staging-" +:+ generation)%string in
  _ ← mkdir staging;
  st_catch (
    _ ← build_generation verify_written staging generation node_key columns identity;
    _ ← commit_generation staging generation node_key identity;
    mret generation)
    (fun e =>
      _ ← rmtree true staging;
      _ ← unlink true (store // (".CURRENT-" +:+ generation)%string);
      st_raise e).

Definition publish_generation (node_key : string) (columns : list (string * factor_array))
  (identity : option (FactorNodeIdentity F C)) (replace_generation : option string) (verify_written : bool) : ST (disk C) string :=
  _ ← st_guard native_available (FactorStoreError "native mapped-column support is unavailable");
  _ ← st_guard (negb (bool_decide (columns = []))) (ValueError "columns must not be empty");
  _ ← st_guard (is_digest node_key) (ValueError "node_key must be a lowercase SHA-256 digest");
  _ ← st_guard match identity with Some i => String.eqb (FactorIdentity.node_key i) node_key | None => true end
        (ValueError "identity does not hash to node_key");
  _ ← st_guard (forallb (fun x => is_name x.1) columns) (ValueError "factor column names must be safe portable identifiers");
  _ ← writer_lock;
  _ ← match replace_generation with
      | Some replaced =>
          _ ← st_guard (match identity with Some _ => true | None => false end && is_generation replaced)
                (ValueError "replacement publication requires an identity and valid generation");
          indexed ← query (read_node_pointer node_key false);
          st_guard (bool_decide (indexed = Some replaced)) (FactorStoreError "factor node changed during migration")
      | None => mret tt
      end;
  indexed ← match identity with Some _ => query (read_node_pointer node_key true) | None => mret None end;
  match indexed, replace_generation with
  | Some indexed_generation, None =>
      _ ← store_lock;
      lease ← open_and_lease_generation indexed_generation (Some node_key) true;
      _ ← record_node_access node_key indexed_generation (f_of_Z 60);
      _ ← lease_close lease;
      mret indexed_generation
  | _, _ => publish_new node_key columns identity verify_written
  end.

(** [publish_factor_node] *)
Definition publish_factor_node (identity : FactorNodeIdentity F C) (columns : list (string * factor_array)) : ST (disk C) string :=
  let schema := id_output_schema identity in
  _ ← st_guard (forallb (fun c => bool_decide (cn_name c ∈ columns.*1)) schema &&
                forallb (fun x => bool_decide (x.1 ∈ cn_name <$> schema)) columns)
        (ValueError "identity output schema must exactly match published columns");
  _ ← st_guard (negb (existsb (fun c => negb (String.eqb (cn_dtype c) "float64") || cn_nullable c) schema))
        (ValueError "mapped factor storage currently requires non-nullable float64 columns");
  publish_generation (FactorIdentity.node_key identity) columns (Some identity) None false.
End store.
