(* ===== verification/FactorStoreFacts.v ===== *)
(** * What the factor store promises

    A node is opened through its pointer and its generation.  Publication makes a
    node appear complete or not at all, and disturbs no other node, at every moment
    and however it fails. *)

From S2P Require Import Prelude Numeric FactorIdentity FactorIdentityFacts Fs CacheFiles CacheWitness Metrics MetricsFacts FactorStore.

#[local] Open Scope Z_scope.

Section facts.
Context {F C : Type} `{PyFloat F} `{JsonText F C} `{!JsonTextLaws F C} `{Sha256 C} `{CacheFiles F C} `{!CacheFilesLaws F C}
  `{Host C} `{World} `{!WorldLaws} `{!UuidLaws}.
Implicit Types (t : tree C) (p q : path).

(** Opening a node, as a function of the tree *)
Definition load_node (node_key : string) (t : tree C) :=
  generation ← require_node_pointer node_key t;
  load_generation (F:=F) generation (Some node_key) true t.

(** Paths no node depends on *)
Definition inert p : Prop :=
  (forall k, is_digest k = true -> p <> nodes_dir // k) /\
  (forall g, is_generation g = true -> ~ under (generations_dir // g) p).

Lemma load_column_same gp t t' x : (forall q, under gp q -> t !! q = t' !! q) ->
  load_column (F:=F) gp t x = load_column gp t' x.
Proof.
  intros Ht. destruct x as [[name|] v]; [|done]. destruct v; try done. unfold load_column, is_symlink, read_file.
  rewrite (Ht (gp // (name +:+ ".bin")%string)) by by exists [(name +:+ ".bin")%string]. done.
Qed.

Lemma result_bind_ext {A B} (r : result A) (f g : A -> result B) : (forall a, f a = g a) -> (r ≫= f) = (r ≫= g).
Proof. intros Hfg. by destruct r; simpl. Qed.

Lemma load_generation_same g e r t t' : (forall q, under (generations_dir // g) q -> t !! q = t' !! q) ->
  load_generation (F:=F) g e r t = load_generation g e r t'.
Proof.
  intros Ht. unfold load_generation, is_symlink, read_file. rewrite (Ht (generations_dir // g)) by by exists [].
  rewrite (Ht (generations_dir // g // "manifest.json"%string)) by by exists ["manifest.json"%string].
  assert (forall l, mapM (load_column (F:=F) (generations_dir // g) t) l = mapM (load_column (generations_dir // g) t') l) as Hm.
  { induction l as [|x l IH]; [done|]. simpl. by rewrite IH, (load_column_same _ t t'). }
  repeat (apply result_bind_ext; intros ?). repeat case_match; try done. by rewrite Hm.
Qed.

Lemma read_node_pointer_same k m t t' : t !! (nodes_dir // k) = t' !! (nodes_dir // k) ->
  read_node_pointer k m t = read_node_pointer k m t'.
Proof. intros Ht. unfold read_node_pointer, is_symlink, read_file. cbv zeta. by rewrite Ht. Qed.

Lemma require_node_pointer_same k t t' : t !! (nodes_dir // k) = t' !! (nodes_dir // k) ->
  require_node_pointer k t = require_node_pointer k t'.
Proof. intros Ht. unfold require_node_pointer. by rewrite (read_node_pointer_same k false t t'). Qed.

Lemma require_node_pointer_valid k t g : require_node_pointer k t = Ok g -> is_digest k = true /\ is_generation g = true.
Proof.
  unfold require_node_pointer, read_node_pointer. intros Hr. apply bind_Ok_inv in Hr as (o & Hr & Ho).
  apply guard_bind_Ok in Hr as [Hk Hr]. apply guard_bind_Ok in Hr as [_ Hr].
  match type of Hr with match ?x with _ => _ end = _ => destruct x as [s|e] end.
  - apply guard_bind_Ok in Hr as [Hg Hr]. by simplify_eq.
  - destruct e; simpl in *; simplify_eq; try (by destruct (is_OSError _)).
Qed.

Lemma pointer_required k t g : read_node_pointer k true t = Ok (Some g) -> require_node_pointer k t = Ok g.
Proof.
  unfold require_node_pointer, read_node_pointer. cbv zeta. destruct (is_digest k); [|done].
  destruct (is_symlink t (nodes_dir // k)); [done|]. simpl.
  destruct (read_file t (nodes_dir // k) ≫= _) as [s|e]; [|by destruct e]. destruct (is_generation s); [|done]. by intros [= ->].
Qed.

(** The same pointer to the same generation opens the same. *)
Lemma load_node_same k t t' v : load_node k t = Ok v -> t !! (nodes_dir // k) = t' !! (nodes_dir // k) ->
  (forall g, require_node_pointer k t = Ok g -> forall q, under (generations_dir // g) q -> t !! q = t' !! q) -> load_node k t' = Ok v.
Proof.
  intros Hl Hn Hg. unfold load_node in *. rewrite <- (require_node_pointer_same k t t') by done.
  destruct (require_node_pointer k t) as [g|e]; [|done]. simpl in *. by rewrite <- (load_generation_same g _ _ t t') by by apply Hg.
Qed.

Lemma load_node_inert k t t' S v : (forall p, S p -> inert p) -> same_outside S t t' -> load_node k t = Ok v -> load_node k t' = Ok v.
Proof.
  intros HS Hout Hl. pose proof Hl as Hl'. unfold load_node in Hl'. apply bind_Ok_inv in Hl' as (g & Hg & _).
  pose proof (require_node_pointer_valid _ _ _ Hg) as [Hk Hgen].
  eapply load_node_same; [exact Hl| |].
  - symmetry. apply Hout. intros Hp. apply HS in Hp as [Hp _]. by eapply Hp.
  - intros g' Hg' q Hq. rewrite Hg in Hg'. injection Hg' as <-. symmetry. apply Hout. intros Hp. apply HS in Hp as [_ Hp]. by eapply Hp.
Qed.

Lemma same_outside_sym S t t' : same_outside S t t' -> same_outside S t' t.
Proof. intros Hs p Hp. symmetry. by apply Hs. Qed.

Lemma load_node_inert_iff k t t' S v : (forall p, S p -> inert p) -> same_outside S t t' -> load_node k t = Ok v <-> load_node k t' = Ok v.
Proof. intros HS Hout. split; eapply load_node_inert; try done. by apply same_outside_sym. Qed.

(** ** A complete generation opens *)

Definition column_metadata (x : string * factor_array (F:=F)) : list (option string * value F) :=
  let column := native_column (fa_values x.2) in
  [item "file" (VStr (x.1 +:+ ".bin")); item "rows" (VInt (mc_row_count column)); item "checksum" (VInt (mc_checksum column));
   item "segment_version" (VInt (mc_format_version column))].
Definition column_item (x : string * factor_array (F:=F)) : option string * value F := item x.1 (VMap (column_metadata x)).

Definition manifest_of (generation node_key : string) (created_ns : Z) (columns : list (string * factor_array (F:=F))) (snapshot : value F) :
  list (option string * value F) :=
  [item "format" (VStr GENERATION_FORMAT); item "version" (VInt GENERATION_VERSION); item "generation" (VStr generation);
   item "node_key" (VStr node_key); item "created_ns" (VInt created_ns); item "columns" (VMap (column_item <$> sorted_columns columns));
   item "identity" snapshot].

Definition complete (generation node_key : string) (columns : list (string * factor_array (F:=F))) (snapshot : value F) p t : Prop :=
  t !! p = Some Dir /\
  (exists created_ns, t !! (p // "manifest.json"%string) =
     Some (File (with_newline (json_dumps (VMap (manifest_of generation node_key created_ns columns snapshot)))))) /\
  Forall (fun x => t !! (p // (x.1 +:+ ".bin")%string) = Some (File (native_segment (fa_values x.2)))) columns.

Definition opened_columns (columns : list (string * factor_array (F:=F))) : list (string * mapped_column F) :=
  (fun x => (x.1, native_column (fa_values x.2))) <$> sorted_columns columns.

Lemma sorted_columns_perm {A} (l : list (string * A)) : sorted_columns l ≡ₚ l.
Proof. apply merge_sort_Permutation. Qed.

#[local] Instance name_le_trans {A} : Transitive (@name_le A).
Proof. intros x y z. unfold name_le. by etrans. Qed.
#[local] Instance name_le_total {A} : Total (@name_le A).
Proof. intros x y. unfold name_le. apply (total String.le). Qed.

Lemma sorted_columns_sorted {A} (l : list (string * A)) : StronglySorted name_le (sorted_columns l).
Proof. apply StronglySorted_merge_sort; apply _. Qed.

(** Items made from named columns *)
Definition named (f : string * factor_array (F:=F) -> value F) (x : string * factor_array) : option string * value F := item x.1 (f x).

Lemma named_good f columns : NoDup columns.*1 -> good_keys (named f <$> columns).
Proof.
  intros Hnd. split; [|apply Forall_fmap, Forall_forall; by intros x _; eexists].
  assert ((named f <$> columns).*1 = Some <$> columns.*1) as -> by (rewrite <- !list_fmap_compose; done).
  by apply NoDup_fmap_2; [apply _|].
Qed.

Lemma named_sorted f columns : StronglySorted key_le (named f <$> sorted_columns columns).
Proof.
  pose proof (sorted_columns_sorted columns) as Hs. induction Hs as [|x l Hs IH Hx]; [constructor|].
  rewrite fmap_cons. constructor; [done|]. apply Forall_fmap. eapply Forall_impl; [exact Hx|]. done.
Qed.

Definition sorted_metadata (x : string * factor_array (F:=F)) : list (option string * value F) :=
  let column := native_column (fa_values x.2) in
  [item "checksum" (VInt (mc_checksum column)); item "file" (VStr (x.1 +:+ ".bin")); item "rows" (VInt (mc_row_count column));
   item "segment_version" (VInt (mc_format_version column))].

Lemma sort_column_items columns : NoDup columns.*1 ->
  sort_keys (VMap (column_item <$> sorted_columns columns)) = VMap (named (fun x => VMap (sorted_metadata x)) <$> sorted_columns columns).
Proof.
  intros Hnd. transitivity (VMap (sorted_items (named (fun x => VMap (sorted_metadata x)) <$> sorted_columns columns))).
  - cbn [sort_keys]. rewrite <- list_fmap_compose. reflexivity.
  - f_equal. apply sorted_items_id; [|apply named_sorted]. apply named_good. by rewrite sorted_columns_perm.
Qed.

Lemma column_items_plain columns : NoDup columns.*1 -> json_plain (VMap (column_item <$> sorted_columns columns)) = true.
Proof.
  intros Hnd. apply plain_map. split.
  - apply (named_good (fun x => VMap (column_metadata x))). by rewrite sorted_columns_perm.
  - apply Forall_fmap, Forall_forall. intros x _. apply plain_map. split.
    + split; [apply (bool_decide_eq_true_1 _); reflexivity|]. repeat constructor; by eexists.
    + by repeat constructor.
Qed.

Lemma manifest_good generation node_key created_ns columns snapshot : good_keys (manifest_of generation node_key created_ns columns snapshot).
Proof. split; [apply (bool_decide_eq_true_1 _); reflexivity|]. repeat constructor; by eexists. Qed.

Lemma vget_sorted (l : list (option string * value F)) k : good_keys l ->
  vget (sort_keys (VMap l)) k = Ok (sort_keys <$> dict_get l (Some k)).
Proof. intros Hg. cbn [sort_keys vget]. by rewrite get_sorted. Qed.

Lemma load_columns gp t columns :
  Forall (fun x => is_name x.1 = true /\ t !! (gp // (x.1 +:+ ".bin")%string) = Some (File (native_segment (fa_values x.2)))) columns ->
  mapM (load_column gp t) (named (fun x => VMap (sorted_metadata x)) <$> columns) =
    Ok ((fun x => (x.1, native_column (fa_values x.2))) <$> columns).
Proof.
  induction 1 as [|x columns [Hn Hf] _ IH]; [done|]. rewrite !fmap_cons. cbn [mapM]. rewrite IH.
  assert (load_column gp t (named (fun x => VMap (sorted_metadata x)) x) = Ok (x.1, native_column (fa_values x.2))) as ->; [|done].
  assert ((c ← read_file t (gp // (x.1 +:+ ".bin")%string); native_open c) = Ok (native_column (fa_values x.2))) as Hopen
    by (unfold read_file; rewrite Hf; exact (native_open_segment (fa_values x.2))).
  unfold load_column, named, item. cbv zeta. rewrite Hn, Hopen. unfold is_symlink. rewrite Hf.
  change (dict_get (sorted_metadata x) (Some "file"%string)) with (Some (VStr (F:=F) (x.1 +:+ ".bin"))).
  change (dict_get (sorted_metadata x) (Some "rows"%string)) with (Some (VInt (F:=F) (mc_row_count (native_column (fa_values x.2))))).
  change (dict_get (sorted_metadata x) (Some "checksum"%string)) with (Some (VInt (F:=F) (mc_checksum (native_column (fa_values x.2))))).
  change (dict_get (sorted_metadata x) (Some "segment_version"%string)) with (Some (VInt (F:=F) (mc_format_version (native_column (fa_values x.2))))).
  unfold opt_eq_text, opt_eq_int, eq_text, eq_int. rewrite String.eqb_refl. repeat bind_step. by rewrite !Z.eqb_refl.
Qed.

(** What opening a published node gives *)
Definition published (node_key : string) (i : FactorNodeIdentity F C) (columns : list (string * factor_array (F:=F))) :
  string * option (FactorNodeIdentity F C) * list (string * mapped_column F) := (node_key, Some i, opened_columns columns).

Lemma snapshot_of_map (i : FactorNodeIdentity F C) : exists l, snapshot_of i = VMap l.
Proof. by eexists. Qed.

Lemma complete_loads g key columns (i i' : FactorNodeIdentity F C) t :
  constructed i -> from_snapshot (snapshot_of i) = Ok i' -> node_key i' = key -> is_digest key = true ->
  columns <> [] -> NoDup columns.*1 -> Forall (fun x => is_name x.1 = true) columns ->
  complete g key columns (snapshot_of i) (generations_dir // g) t ->
  load_generation g (Some key) true t = Ok (published key i' columns).
Proof.
  intros Hi Hi' Hkey Hdig Hne Hnd Hnames (Hdir & [created Hman] & Hcols). destruct (constructed_payload i Hi) as (_ & Hpl & Hsort).
  assert (json_plain (VMap (manifest_of g key created columns (snapshot_of i))) = true) as Hplain.
  { apply plain_map. split; [apply manifest_good|]. unfold manifest_of.
    repeat (constructor; [first [reflexivity|by apply column_items_plain|exact Hpl]|]). constructor. }
  assert ((c ← read_file t (generations_dir // g // "manifest.json"%string); json_loads c) =
    Ok (sort_keys (VMap (manifest_of g key created columns (snapshot_of i))))) as Hread.
  { unfold read_file. rewrite Hman. simpl. by rewrite json_with_newline, json_loads_dumps. }
  unfold load_generation. cbv zeta. rewrite Hread. unfold is_symlink at 1 2. rewrite Hdir, Hman.
  do 2 bind_step. rewrite !vget_sorted by apply manifest_good.
  change (dict_get (manifest_of g key created columns (snapshot_of i)) (Some "format"%string)) with (Some (VStr (F:=F) GENERATION_FORMAT)).
  change (dict_get (manifest_of g key created columns (snapshot_of i)) (Some "version"%string)) with (Some (VInt (F:=F) GENERATION_VERSION)).
  change (dict_get (manifest_of g key created columns (snapshot_of i)) (Some "generation"%string)) with (Some (VStr (F:=F) g)).
  change (dict_get (manifest_of g key created columns (snapshot_of i)) (Some "node_key"%string)) with (Some (VStr (F:=F) key)).
  change (dict_get (manifest_of g key created columns (snapshot_of i)) (Some "identity"%string)) with (Some (snapshot_of i)).
  change (dict_get (manifest_of g key created columns (snapshot_of i)) (Some "columns"%string))
    with (Some (VMap (F:=F) (column_item <$> sorted_columns columns))).
  cbn [fmap option_fmap option_map]. rewrite Hsort, sort_column_items by done.
  do 4 bind_step. cbn [sort_keys digest_text opt_eq_text eq_text]. rewrite !String.eqb_refl, Hdig. do 3 bind_step.
  assert (load_identity (Some (snapshot_of i)) key true = Ok (Some i')) as ->.
  { destruct (snapshot_of_map i) as [l Hl]. unfold load_identity. rewrite Hl, <- Hl, Hi'. unfold raise_from. simpl.
    by rewrite Hkey, String.eqb_refl. }
  do 2 bind_step. pose proof (load_columns (generations_dir // g) t (sorted_columns columns)) as Hl.
  destruct (named (fun x => VMap (sorted_metadata x)) <$> sorted_columns columns) as [|x l] eqn:Hitems.
  { exfalso. apply Hne, Permutation_nil. rewrite <- (sorted_columns_perm columns). by apply fmap_nil_inv in Hitems as ->. }
  rewrite Hl; [done|]. rewrite (sorted_columns_perm columns). rewrite Forall_forall in *. intros y Hy. split; [by apply Hnames|by apply Hcols].
Qed.

(** ** Paths no node depends on *)

Lemma under_generation g p : under (generations_dir // g) p <-> exists r, p = r ++ [g; "generations"%string].
Proof. done. Qed.

Lemma last_two {A} (r : list A) x y : last (r ++ [x; y]) = Some y.
Proof. replace (r ++ [x; y]) with ((r ++ [x]) ++ [y]) by by rewrite <- app_assoc. apply last_snoc. Qed.

Lemma under_top p n : under [n] p -> last p = Some n.
Proof. intros [r ->]. by rewrite last_snoc. Qed.

Lemma inert_top p : last p <> Some "nodes"%string -> last p <> Some "generations"%string -> inert p.
Proof.
  intros Hn Hg. split.
  - intros k _ ->. by apply Hn.
  - intros g _ [r ->]. apply Hg, last_two.
Qed.

Lemma inert_under n p : n <> "nodes"%string -> n <> "generations"%string -> under [n] p -> inert p.
Proof. intros Hn Hg Hu. apply under_top in Hu. apply inert_top; rewrite Hu; by intros [= ?]. Qed.

Lemma inert_generations : inert generations_dir.
Proof.
  split; [by intros k _ ?|]. intros g _ Hu. apply suffix_length in Hu. unfold generations_dir, store in Hu. simpl in Hu. lia.
Qed.
Lemma inert_nodes : inert nodes_dir.
Proof.
  split; [by intros k _ ?|]. intros g _ Hu. apply suffix_length in Hu. unfold generations_dir, nodes_dir, store in Hu. simpl in Hu. lia.
Qed.

Lemma generation_names g n r r' : r ++ generations_dir // g = r' ++ generations_dir // n -> g = n.
Proof.
  intros Heq. assert (r ++ [g] = r' ++ [n]) as Hs.
  { apply (app_inv_tail ["generations"%string]). rewrite <- !app_assoc. exact Heq. }
  by apply app_inj_tail in Hs as [_ ?].
Qed.

(** A name that is not a generation's *)
Lemma inert_staging n p : is_generation n = false -> under (generations_dir // n) p -> inert p.
Proof.
  intros Hn [r ->]. split.
  - intros k _ Heq. apply (f_equal last) in Heq. pose proof (last_two r n "generations"%string) as Hl. unfold generations_dir, store in Heq.
    rewrite Hl in Heq. discriminate.
  - intros g Hg [r' Heq]. apply generation_names in Heq. congruence.
Qed.

Lemma inert_node_name n : is_digest n = false -> inert (nodes_dir // n).
Proof.
  intros Hn. split.
  - intros k Hk [= ->]. congruence.
  - intros g _ [r Heq]. apply (f_equal last) in Heq. pose proof (last_two r g "generations"%string) as Hl. unfold generations_dir, store in Heq.
    rewrite Hl in Heq. discriminate.
Qed.

Lemma dotted_not_generation s : is_generation ("." +:+ s)%string = false.
Proof. unfold is_generation. apply andb_false_r. Qed.
Lemma dotted_not_digest s : is_digest ("." +:+ s)%string = false.
Proof. unfold is_digest. apply andb_false_r. Qed.

(** ** What the store's own steps touch *)

Definition short p : Prop := (length p <= 1)%nat.
Lemma short_inert p : short p -> inert p.
Proof.
  unfold short. intros Hs. split.
  - intros k _ ->. simpl in Hs. lia.
  - intros g _ Hu. apply suffix_length in Hu. simpl in Hu. lia.
Qed.

Lemma top_inert n : inert (store // n).
Proof. apply short_inert. unfold short. simpl. lia. Qed.

Lemma touches_store_lock : touches short store_lock.
Proof.
  unfold store_lock. touch; unfold ancestors, only, short; intros p Hp; [apply suffix_length in Hp; simpl in *; lia|]. by rewrite Hp.
Qed.
Lemma touches_writer_lock : touches short writer_lock.
Proof.
  unfold writer_lock. touch; unfold ancestors, only, short; intros p Hp; [apply suffix_length in Hp; simpl in *; lia|]. by rewrite Hp.
Qed.

Lemma under_access_inert p : under (store // "access"%string) p -> inert p.
Proof. by apply inert_under. Qed.

Lemma touches_record_node_access k g x : touches inert (record_node_access (F:=F) k g x).
Proof.
  unfold record_node_access. touch; unfold ancestors, only; intros p Hp.
  - destruct Hp as [r Hr]. apply inert_top; destruct p as [|a [|b p]]; destruct r as [|? [|? r]]; simplify_eq/=; try discriminate.
  - apply under_access_inert. rewrite Hp. by eexists [_].
  - apply under_access_inert. destruct Hp as [->| ->]; by eexists [_].
  - apply under_access_inert. rewrite Hp. by eexists [_].
Qed.

(** ** Leasing a generation *)

Definition stable_inert (P : tree C -> Prop) : Prop := forall S t t', (forall p, S p -> inert p) -> P t -> same_outside S t t' -> P t'.

Lemma keeps_stable {A : Type} I (P : tree C -> Prop) S (m : ST (disk C) A) : stable_inert P -> (forall t, P t -> I t) ->
  touches S m -> (forall p, S p -> inert p) -> triple I P m (fun _ => P).
Proof. intros HP HI Hm HS. eapply touches_keeps; [exact Hm| |exact HI]. intros t t'. by apply HP. Qed.

Lemma load_generation_inert g e r v : is_generation g = true -> stable_inert (fun t => load_generation (F:=F) g e r t = Ok v).
Proof.
  intros Hg S t t' HS Hl Hout. rewrite <- Hl. apply load_generation_same. intros q Hq. apply Hout. intros Hs.
  apply HS in Hs as [_ Hs]. by apply (Hs g).
Qed.

Lemma under_leases_inert p : under leases_dir p -> inert p.
Proof. by apply inert_under. Qed.

Definition lease_of (l : FactorGenerationLease) (v : string * option (FactorNodeIdentity F C) * list (string * mapped_column F)) : Prop :=
  (ls_node_key l, ls_identity l, ls_columns l) = v /\ ls_closed l = false.

Lemma open_triple I (P : tree C -> Prop) g e req : is_generation g = true -> stable_inert P -> (forall t, P t -> I t) ->
  triple I P (open_and_lease_generation g e req) (fun r t => P t /\
    forall l, r = Ok l -> exists v, load_generation g e req t = Ok v /\ lease_of l v /\ ls_generation l = g /\
      under (leases_dir // g) (ls_path l)).
Proof.
  intros Hg HP HI. unfold open_and_lease_generation.
  apply triple_bind with (R := fun v t => P t /\ load_generation g e req t = Ok v); [by apply triple_query|].
  intros [[k i] columns]. set (R := fun t => P t /\ load_generation g e req t = Ok (k, i, columns)).
  assert (stable_inert R) as HR.
  { intros S t t' HS [HPt Hl] Hout. split; [by eapply HP|]. by eapply load_generation_inert. }
  set (Q := fun (r : result FactorGenerationLease) t => P t /\ _).
  assert (forall A S (m : ST (disk C) A), touches S m -> (forall p, S p -> inert p) ->
    triple I R m (fun r t => match r with Ok _ => R t | Err e => Q (Err e) t end)) as Hkeep.
  { intros A S m Hm HS. eapply triple_weaken; [eapply (keeps_stable I R); [done|by intros t [? _]; auto|exact Hm|done]|done..|].
    intros [a|x] t Ht; [done|]. by destruct Ht. }
  assert (forall n, ~ inert n -> ~ under leases_dir n) as Hl by (intros n Hn Hu; by apply Hn, under_leases_inert).
  apply triple_bind with (R := fun _ => R).
  { eapply Hkeep; [apply touches_mkdir_parents|]. unfold ancestors. intros p Hp.
    destruct Hp as [[|x r] Hr]; [simpl in Hr; subst p; apply under_leases_inert; by exists [g]|].
    apply short_inert. unfold short. apply (f_equal length) in Hr. rewrite length_app in Hr. simpl in Hr. lia. }
  intros []. apply triple_bind with (R := fun _ => R); [by apply triple_uuid4|]. intros uuid.
  apply triple_bind with (R := fun _ => R); [by apply triple_time_ns|]. intros created. cbv zeta.
  apply triple_bind with (R := fun _ => R).
  { eapply Hkeep; [apply touches_write_new|]. intros p ->. apply under_leases_inert. by eexists [_; g]. }
  intros []. apply triple_bind with (R := fun _ => R); [by eapply Hkeep; [apply (touches_fsync_directory inert)|]|].
  intros []. apply triple_ret. intros t [HPt Hload]. split; [done|]. intros l [= <-]. eexists. split_and!; try done. by eexists [_].
Qed.

Lemma append_inj_r (x y z : string) : (x +:+ z)%string = (y +:+ z)%string -> x = y.
Proof.
  assert (forall a b : string, String.length (a +:+ b) = String.length a + String.length b)%nat as Hlen
    by (induction a; intros b; simpl; [done|by rewrite IHa]).
  revert y. induction x as [|c x IH]; intros [|d y] Heq; simpl in *; try done.
  - apply (f_equal String.length) in Heq. simpl in Heq. rewrite !Hlen in Heq. simpl in Heq. lia.
  - apply (f_equal String.length) in Heq. simpl in Heq. rewrite !Hlen in Heq. simpl in Heq. lia.
  - injection Heq as -> Heq. by rewrite (IH y).
Qed.

Lemma bin_not_manifest s : (s +:+ ".bin")%string <> "manifest.json"%string.
Proof. intros Heq. repeat (destruct s as [|? s]; [discriminate|simpl in Heq; injection Heq as -> Heq]). by destruct s. Qed.

Lemma load_expected g k r t v :
  load_generation (F:=F) g (Some k) r t = Ok v <-> load_generation g None r t = Ok v /\ v.1.1 = k.
Proof.
  unfold load_generation. cbv zeta.
  assert (forall (P : Prop), False <-> False /\ P) as Hno by naive_solver.
  assert (forall {A B} (m : result A) (f f' : A -> result B) w (P : Prop), (forall a, f a = Ok w <-> f' a = Ok w /\ P) ->
    (m ≫= f) = Ok w <-> (m ≫= f') = Ok w /\ P) as Hbind by (intros A B [a|e] f f' w P Hf; simpl; [apply Hf|naive_solver]).
  do 2 (apply Hbind; intros ?). do 4 (apply Hbind; intros ?). apply Hbind. intros _. simpl guard_ok at 2.
  match goal with |- context [@mbind result _ _ _ ?f (vget a0 "identity")] => set (rest := vget a0 "identity" ≫= f) end.
  assert (rest = Ok v -> v.1.1 = digest_text a4) as Hv.
  { unfold rest. intros Hr. apply bind_Ok_inv in Hr as (? & _ & Hr). apply bind_Ok_inv in Hr as (? & _ & Hr).
    apply bind_Ok_inv in Hr as (columns & _ & Hr). destruct columns as [[| | | | | |[|? ?]|]|]; try done.
    apply bind_Ok_inv in Hr as (? & _ & Hr). by simplify_eq. }
  destruct (String.eqb_spec (digest_text a4) k) as [Heq|Hne]; simpl; [naive_solver|].
  split; [done|]. intros [Hr Hk]. rewrite Hv in Hk; done.
Qed.

(** ** Publication *)

Section publish.
Context (i i' : FactorNodeIdentity F C) (columns : list (string * factor_array (F:=F))) (t0 : tree C).
Context (Hi : constructed i) (Hi' : from_snapshot (snapshot_of i) = Ok i') (Hkey : node_key i' = node_key i).
Context (Hdigest : is_digest (node_key i) = true) (Hne : columns <> []) (Hnd : NoDup columns.*1)
  (Hnames : Forall (fun x => is_name x.1 = true) columns).
Abbreviation key := (node_key i).
Abbreviation pub := (published key i' columns).

(** Every other node opens as it did; this one as it did, or as published. *)
Definition undisturbed t : Prop :=
  (forall k v, k <> key -> load_node k t = Ok v <-> load_node k t0 = Ok v) /\
  (forall v, load_node key t0 = Ok v -> load_node key t = Ok v \/ load_node key t = Ok pub) /\
  (forall v, load_node key t = Ok v -> load_node key t0 = Ok v \/ v = pub).

Lemma undisturbed_start : undisturbed t0.
Proof. unfold undisturbed. naive_solver. Qed.

Lemma undisturbed_inert S t t' : (forall p, S p -> inert p) -> undisturbed t -> same_outside S t t' -> undisturbed t'.
Proof.
  intros HS (Ho1 & Ho2 & Ho3) Hout. pose proof (fun k v => load_node_inert_iff k t t' S v HS Hout) as Hiff.
  split_and!; [intros k v Hk; rewrite <- Hiff; by apply Ho1|intros v Hv; rewrite <- !Hiff; auto|intros v Hv; rewrite <- Hiff in Hv; auto].
Qed.

(** Steps that touch inert paths only *)
Lemma keeps_undisturbed {A : Type} S (m : ST (disk C) A) : touches S m -> (forall p, S p -> inert p) ->
  triple undisturbed undisturbed m (fun _ => undisturbed).
Proof. intros Hm HS. eapply touches_keeps; [exact Hm| |done]. intros t t'. by apply undisturbed_inert. Qed.

(** The staged generation, as far as it has been written *)
Definition staged (staging : path) (don : list (string * factor_array (F:=F))) t : Prop :=
  undisturbed t /\ t !! staging = Some Dir /\
  Forall (fun x => t !! (staging // (x.1 +:+ ".bin")%string) = Some (File (native_segment (fa_values x.2)))) don.

Lemma staged_outside staging don S t t' :
  (forall p, S p -> inert p /\ p <> staging /\ Forall (fun x => p <> staging // (x.1 +:+ ".bin")%string) don) ->
  staged staging don t -> same_outside S t t' -> staged staging don t'.
Proof.
  intros HS (Hu & Hd & Hf) Hout. split_and!.
  - eapply undisturbed_inert; [|exact Hu|exact Hout]. intros p Hp. by apply HS.
  - rewrite Hout; [done|]. intros Hp. by destruct (HS _ Hp) as (_ & ? & _).
  - rewrite Forall_forall in *. intros x Hx. rewrite Hout; [by apply Hf|]. intros Hp.
    destruct (HS _ Hp) as (_ & _ & Hne'). rewrite Forall_forall in Hne'. by apply (Hne' x).
Qed.

Section staging.
Context (g : string) (Hg : is_generation g = true).
Abbreviation staging := (generations_dir // (".staging-" +:+ g)%string).
Abbreviation destination := (generations_dir // g).

Lemma staging_inert p : under staging p -> inert p.
Proof. apply inert_staging, dotted_not_generation. Qed.

Lemma staging_file_inert n : inert (staging // n).
Proof. apply staging_inert. by exists [n]. Qed.

Lemma publish_column_triple verify don x rest acc : sorted_columns columns = don ++ x :: rest ->
  triple undisturbed (fun t => staged staging don t /\ acc.1 = column_item <$> don) (publish_column verify staging acc x)
    (fun r t => match r with Ok acc' => staged staging (don ++ [x]) t /\ acc'.1 = column_item <$> (don ++ [x]) | Err _ => undisturbed t end).
Proof.
  intros Hsplit. destruct acc as [items rows], x as [name array]. unfold publish_column.
  assert (Forall (fun y => staging // (name +:+ ".bin")%string <> staging // (y.1 +:+ ".bin")%string) don) as Hother.
  { assert (NoDup (sorted_columns columns).*1) as Hs by by rewrite sorted_columns_perm. rewrite Hsplit in Hs.
    rewrite fmap_app, fmap_cons in Hs. apply NoDup_app in Hs as (_ & Hs & _). apply Forall_forall. intros y Hy [= Heq].
    apply append_inj_r in Heq. apply (Hs y.1); [by apply list_elem_of_fmap_2|]. rewrite <- Heq. by left. }
  assert (forall t, staged staging don t -> undisturbed t) as Hu by by intros t [? _].
  apply triple_bind with (R := fun _ t => staged staging don t /\ items = column_item <$> don).
  { apply triple_guard; [done|]. intros _ t [? _]. auto. }
  intros []. apply triple_bind with (R := fun _ t => staged staging don t /\ items = column_item <$> don).
  { apply triple_guard; [done|]. intros _ t [? _]. auto. }
  intros []. apply triple_bind with (R := fun _ t => (staged staging don t /\ items = column_item <$> don) /\
    t !! (staging // (name +:+ ".bin")%string) = Some (File (native_segment (fa_values array)))).
  { eapply triple_weaken; [apply (triple_write_new undisturbed (fun t => staged staging don t /\ items = column_item <$> don))|done..|].
    - intros t t' [Hs ?] Hout. split; [|done]. eapply staged_outside; [|exact Hs|exact Hout]. intros p ->.
      split_and!; [apply staging_file_inert|intros Heq; by apply (f_equal length) in Heq; simpl in Heq; lia|done].
    - intros t [? _]. auto.
    - intros [[]|e] t [[Hs Hit] Hf]; [by split_and!; [..|apply Hf]|auto]. }
  intros []. apply triple_bind with (R := fun _ t => (staged staging don t /\ items = column_item <$> don) /\
    t !! (staging // (name +:+ ".bin")%string) = Some (File (native_segment (fa_values array)))).
  { destruct verify; [|by apply triple_ret]. eapply triple_bind with (R := fun _ t => (staged staging don t /\ items = column_item <$> don) /\
      t !! (staging // (name +:+ ".bin")%string) = Some (File (native_segment (fa_values array)))).
    - apply triple_query; [|done]. intros e t [[? _] _]. auto.
    - intros verified. apply triple_guard; [done|]. intros _ t [[? _] _]. auto. }
  intros []. apply triple_ret. intros t [[(Hu' & Hd & Hf) ->] Hnew]. simpl. rewrite fmap_app. split; [|done].
  split_and!; [done..|]. apply Forall_app. split; [done|]. by constructor.
Qed.

Lemma build_triple verify :
  triple undisturbed (staged staging []) (build_generation verify staging g key columns (Some i))
    (fun r t => undisturbed t /\ (r = Ok tt -> complete g key columns (snapshot_of i) staging t)).
Proof.
  unfold build_generation. set (Q := fun (r : result unit) t => undisturbed t /\ _).
  apply triple_bind with (R := fun acc t => staged staging (sorted_columns columns) t /\ acc.1 = column_item <$> sorted_columns columns).
  { eapply triple_weaken; [apply (triple_fold undisturbed (fun don acc t => staged staging don t /\ acc.1 = column_item <$> don) _ _ _
      (fun _ => undisturbed))|done..|].
    - intros don x rest acc Hs. eapply triple_weaken; [eapply publish_column_triple; exact Hs|done..|]. by intros [] t Ht.
    - intros [acc|e] t Ht; [done|]. by split. }
  intros [items rows]. apply triple_bind with (R := fun _ t => staged staging (sorted_columns columns) t /\ items = column_item <$> sorted_columns columns).
  { by apply triple_time_ns. }
  intros created. apply triple_bind with (R := fun idi t => idi = [item "identity" (snapshot_of i)] /\
    (staged staging (sorted_columns columns) t /\ items = column_item <$> sorted_columns columns)).
  { apply triple_lift. intros t Ht. by rewrite (constructed_snapshot i Hi). }
  intros idi. apply triple_pure. intros ->. cbv zeta.
  set (file := with_newline _).
  apply triple_bind with (R := fun _ t => (staged staging (sorted_columns columns) t /\ items = column_item <$> sorted_columns columns) /\
    t !! (staging // "manifest.json"%string) = Some (File file)).
  { eapply triple_weaken; [apply (triple_write_new undisturbed (fun t => staged staging (sorted_columns columns) t /\
      items = column_item <$> sorted_columns columns))|done..|].
    - intros t t' [Hs ?] Hout. split; [|done]. eapply staged_outside; [|exact Hs|exact Hout]. intros p ->.
      split_and!; [apply staging_file_inert|intros Heq; by apply (f_equal length) in Heq; simpl in Heq; lia|].
      apply Forall_forall. intros x _ [= Heq]. by eapply bin_not_manifest.
    - intros t [[? _] _]. auto.
    - intros [[]|e] t [[Hs Hit] Hf]; [split; [done|by apply Hf]|]. split; [by destruct Hs|done]. }
  intros []. unfold fsync_directory. apply triple_query.
  - intros e t [[[Hu _] _] _]. by split.
  - intros t [] [[(Hu & Hd & Hf) Hit] Hman] _. split; [done|]. intros _. split_and!; [done| |].
    + exists created. rewrite Hman. unfold file. simpl in Hit. by subst items.
    + by rewrite (sorted_columns_perm columns) in Hf.
Qed.

Definition settled t : Prop := undisturbed t /\ complete g key columns (snapshot_of i) destination t.

Lemma staging_name n : is_generation n = true -> (".staging-" +:+ g)%string <> n.
Proof. intros Hn <-. pose proof (dotted_not_generation ("staging-" +:+ g)) as Hd. exact (diff_false_true (eq_trans (eq_sym Hd) Hn)). Qed.

Lemma staging_destination : ~ under staging destination /\ ~ under destination staging.
Proof.
  pose proof (staging_name g Hg). split; intros [r Heq].
  - apply (generation_names g (".staging-" +:+ g)%string [] r) in Heq. congruence.
  - apply (generation_names (".staging-" +:+ g)%string g [] r) in Heq. congruence.
Qed.

(** A generation's directory that is missing or empty cannot be opened. *)
Lemma empty_not_loaded e r v t : children t destination = [] -> load_generation (F:=F) g e r t <> Ok v.
Proof.
  intros Hc Hl. unfold load_generation in Hl. cbv zeta in Hl. apply bind_Ok_inv in Hl as (? & _ & Hl).
  apply bind_Ok_inv in Hl as (m & Hm & _). unfold read_file in Hm.
  assert (t !! (destination // "manifest.json"%string) = None) as Hn.
  { apply eq_None_not_Some. intros Hs. apply elem_of_children in Hs. rewrite Hc in Hs. by apply elem_of_nil in Hs. }
  by rewrite Hn in Hm.
Qed.

Lemma complete_move t : complete g key columns (snapshot_of i) staging t ->
  complete g key columns (snapshot_of i) destination (move staging destination t).
Proof.
  destruct staging_destination as [H1' H2'].
  assert (forall r, move staging destination t !! (r ++ destination) = t !! (r ++ staging)) as Hm
    by (intros r; by rewrite lookup_move, below_app).
  intros (Hd & [created Hman] & Hf). split_and!.
  - exact (eq_trans (Hm []) Hd).
  - exists created. exact (eq_trans (Hm ["manifest.json"%string]) Hman).
  - eapply Forall_impl; [exact Hf|]. intros x Hx. exact (eq_trans (Hm [(x.1 +:+ ".bin")%string]) Hx).
Qed.

Lemma load_published t : complete g key columns (snapshot_of i) destination t -> load_generation g (Some key) true t = Ok pub.
Proof. intros Hc. by apply (complete_loads g key columns i i' t). Qed.

Lemma rename_settled t : undisturbed t -> complete g key columns (snapshot_of i) staging t -> children t destination = [] ->
  settled (move staging destination t).
Proof.
  intros Hu Hc Hempty. destruct staging_destination as [H1' H2']. set (t' := move staging destination t).
  assert (complete g key columns (snapshot_of i) destination t') as Hc' by by apply complete_move. split; [|done].
  pose proof (load_published t' Hc') as Hload.
  assert (forall p, ~ under staging p -> ~ under destination p -> t' !! p = t !! p) as Hsame.
  { intros p Hs Hd. unfold t'. rewrite lookup_move by done. rewrite (proj2 (below_None _ _) Hd), decide_False by done. done. }
  assert (forall k, t' !! (nodes_dir // k) = t !! (nodes_dir // k)) as Hnodes.
  { intros k. apply Hsame; intros [r Heq]; apply (f_equal last) in Heq; unfold generations_dir, store in Heq; by rewrite last_two in Heq. }
  assert (forall g', is_generation g' = true -> g' <> g -> forall q, under (generations_dir // g') q -> t' !! q = t !! q) as Hgens.
  { intros g' Hg' Hne' q [r ->]. apply Hsame; intros [r' Heq]; apply generation_names in Heq; [|congruence].
    by apply (staging_name g'). }
  assert (forall k v, load_node k t = Ok v -> load_node k t' = Ok v) as Hfwd.
  { intros k v Hl. eapply load_node_same; [exact Hl|done|]. intros g' Hp q Hq. symmetry.
    destruct (require_node_pointer_valid _ _ _ Hp) as [_ Hg']. eapply Hgens; [done| |exact Hq]. intros ->.
    unfold load_node in Hl. rewrite Hp in Hl. simpl in Hl. by apply empty_not_loaded in Hl. }
  assert (forall k v, load_node k t' = Ok v -> load_node k t = Ok v \/ k = key /\ v = pub) as Hbwd.
  { intros k v Hl. pose proof Hl as Hl'. unfold load_node in Hl'. apply bind_Ok_inv in Hl' as (g' & Hp & Hl').
    destruct (require_node_pointer_valid _ _ _ Hp) as [_ Hg']. destruct (decide (g' = g)) as [->|Hne'].
    - right. apply load_expected in Hl' as [Hl' Hk]. apply load_expected in Hload as [Hload _]. rewrite Hload in Hl'.
      by injection Hl' as <-.
    - left. eapply load_node_same; [exact Hl|done|]. intros g'' Hp'. rewrite Hp in Hp'. injection Hp' as <-. by apply Hgens. }
  destruct Hu as (Ho1 & Ho2 & Ho3). split_and!.
  - intros k v Hk. rewrite <- Ho1 by done. split; [|by apply Hfwd]. intros Hl. by destruct (Hbwd _ _ Hl) as [?|[? _]].
  - intros v Hv. destruct (Ho2 v Hv) as [Hl|Hl]; [left|right]; by apply Hfwd.
  - intros v Hv. destruct (Hbwd _ _ Hv) as [Hl|[_ ->]]; auto.
Qed.

Lemma settled_inert S t t' : (forall p, S p -> inert p) -> settled t -> same_outside S t t' -> settled t'.
Proof.
  intros HS (Hu & Hd & [created Hman] & Hf) Hout. split; [by eapply undisturbed_inert|].
  assert (forall p, under destination p -> t' !! p = t !! p) as Hsame.
  { intros p Hp. apply Hout. intros Hs. apply HS in Hs as [_ Hs]. by apply (Hs g). }
  split_and!; [by rewrite Hsame by by exists []|exists created; by rewrite Hsame by by exists ["manifest.json"%string]|].
  eapply Forall_impl; [exact Hf|]. intros x Hx. by rewrite Hsame by by exists [(x.1 +:+ ".bin")%string].
Qed.

Lemma keeps_settled {A : Type} S (m : ST (disk C) A) : touches S m -> (forall p, S p -> inert p) ->
  triple undisturbed settled m (fun _ => settled).
Proof. intros Hm HS. eapply touches_keeps; [exact Hm| |by intros t []]. intros t t'. by apply settled_inert. Qed.

Definition finished t : Prop := undisturbed t /\ load_node key t = Ok pub.

Lemma finished_inert S t t' : (forall p, S p -> inert p) -> finished t -> same_outside S t t' -> finished t'.
Proof. intros HS [Hu Hl] Hout. split; [by eapply undisturbed_inert|by eapply load_node_inert]. Qed.

(** Pointing the node at the generation finishes. *)
Lemma pointed_finished n t : is_digest n = false -> settled t ->
  finished (<[nodes_dir // key := File (pointer_text g)]> (delete (nodes_dir // n) t)).
Proof.
  intros Hn Hset. set (t' := <[nodes_dir // key := File (pointer_text g)]> (delete (nodes_dir // n) t)).
  assert (settled (delete (nodes_dir // n) t)) as [Hu Hc].
  { eapply settled_inert; [|exact Hset|apply delete_outside]. intros p ->. by apply inert_node_name. }
  assert (forall p, p <> nodes_dir // key -> t' !! p = delete (nodes_dir // n) t !! p) as Hother by (intros p Hp; by apply lookup_insert_ne).
  assert (forall g' p, under (generations_dir // g') p -> p <> nodes_dir // key) as Hgen.
  { intros g' p [r ->] Heq. apply (f_equal last) in Heq. unfold generations_dir, store in Heq. by rewrite last_two in Heq. }
  assert (load_node key t' = Ok pub) as Hload.
  { unfold load_node, require_node_pointer, read_node_pointer, is_symlink, read_file. cbv zeta.
    assert (t' !! (nodes_dir // key) = Some (File (pointer_text g))) as -> by apply lookup_insert_eq. rewrite Hdigest. simpl.
    rewrite pointer_text_read by (unfold is_generation in Hg; by apply andb_true_iff in Hg as [_ ?]). rewrite Hg. simpl.
    rewrite (load_generation_same g _ _ t' (delete (nodes_dir // n) t)) by (intros p Hp; by apply Hother, (Hgen g)). by apply load_published. }
  destruct Hu as (Ho1 & Ho2 & Ho3). split; [|done]. split_and!.
  - intros k v Hk. rewrite <- Ho1 by done.
    assert (forall t1 t2 : tree C, (forall p, p <> nodes_dir // key -> t1 !! p = t2 !! p) -> load_node k t1 = Ok v -> load_node k t2 = Ok v) as Hgo.
    { intros t1 t2 Hsame Hl. eapply load_node_same; [exact Hl|apply Hsame; by intros [= ?]|]. intros g' _ p Hp. by apply Hsame, (Hgen g'). }
    split; apply Hgo; [done|]. intros p Hp. symmetry. by apply Hother.
  - intros v _. by right.
  - intros v Hv. rewrite Hload in Hv. injection Hv as <-. by right.
Qed.

Lemma commit_triple :
  triple undisturbed (fun t => undisturbed t /\ complete g key columns (snapshot_of i) staging t)
    (commit_generation staging g key (Some i)) (fun r t => undisturbed t /\ (r = Ok tt -> load_node key t = Ok pub)).
Proof.
  unfold commit_generation. cbv zeta. set (Q := fun (r : result unit) t => undisturbed t /\ _).
  assert (forall e t, settled t -> Q (Err e) t) as Herr by by intros e t [? _].
  assert (forall A S (m : ST (disk C) A), touches S m -> (forall p, S p -> inert p) ->
    triple undisturbed settled m (fun r t => match r with Ok _ => settled t | Err e => Q (Err e) t end)) as Hkeep.
  { intros A S m Hm HS. eapply triple_weaken; [by eapply keeps_settled|done..|]. intros [a|e] t Ht; [done|by apply Herr]. }
  apply triple_bind with (R := fun _ t => undisturbed t /\ complete g key columns (snapshot_of i) staging t).
  { eapply triple_weaken; [eapply touches_keeps with (I := undisturbed)
      (P := fun t => undisturbed t /\ complete g key columns (snapshot_of i) staging t); [apply touches_store_lock| |by intros t []]|done..|].
    - intros t t' [Hu Hc] Hout. split; [by eapply undisturbed_inert; [apply short_inert| |]|].
      assert (forall p, under staging p -> t' !! p = t !! p) as Hsame.
      { intros p Hp. apply Hout. intros Hs. apply suffix_length in Hp. unfold short in Hs. simpl in Hp. lia. }
      destruct Hc as (Hd & [created Hman] & Hf).
      split_and!; [by rewrite Hsame by by exists []|exists created; by rewrite Hsame by by exists ["manifest.json"%string]|].
      eapply Forall_impl; [exact Hf|]. intros x Hx. by rewrite Hsame by by exists [(x.1 +:+ ".bin")%string].
    - intros [[]|e] t [Hu Hc]; [done|]. by split. }
  intros []. apply triple_bind with (R := fun _ => settled).
  { apply triple_syscall; [by intros e t [? _]|]. intros t t' [] [Hu Hc] (_ & Hch & ->)%rename_call_spec.
    pose proof (rename_settled t Hu Hc Hch) as Hs. split; [by destruct Hs|done]. }
  intros []. apply triple_bind with (R := fun _ => settled); [by eapply Hkeep; [apply (touches_fsync_directory inert)|]|].
  intros []. apply triple_bind with (R := fun _ => settled).
  { eapply Hkeep; [apply touches_write_new|]. intros p ->. apply top_inert. }
  intros []. apply triple_bind with (R := fun _ => settled).
  { eapply Hkeep; [apply touches_replace|]. intros p [->| ->]; apply top_inert. }
  intros []. apply triple_bind with (R := fun _ => settled); [by eapply Hkeep; [apply (touches_fsync_directory inert)|]|].
  intros []. apply triple_bind with (R := fun _ => settled).
  { eapply Hkeep; [apply touches_mkdir_exist_ok|]. intros p ->. apply top_inert. }
  set (dotted := ("." +:+ key +:+ "-" +:+ g)%string).
  assert (is_digest dotted = false) as Hdot by apply dotted_not_digest.
  intros []. apply triple_bind with (R := fun _ t => settled t /\ t !! (nodes_dir // dotted) = Some (File (pointer_text g))).
  { eapply triple_weaken; [apply (triple_write_new undisturbed settled)|done..|].
    - intros t t' Ht Hout. eapply settled_inert; [|exact Ht|exact Hout]. intros p ->. by apply inert_node_name.
    - by intros t [].
    - intros [[]|e] t [Hs Hf]; [split; [done|by apply Hf]|by apply Herr]. }
  intros []. apply triple_bind with (R := fun _ => finished).
  { apply triple_syscall; [intros e t [? _]; by apply Herr|]. intros t t' [] [Hs Hf] (c & Hc & _ & ->)%replace_call_spec.
    assert (Some (File c) = Some (File (pointer_text g))) as [= ->] by (rewrite <- Hc; exact Hf).
    pose proof (pointed_finished dotted t Hdot Hs) as Hfin. split; [by destruct Hfin|done]. }
  assert (forall A S (m : ST (disk C) A), touches S m -> (forall p, S p -> inert p) ->
    triple undisturbed finished m (fun _ => finished)) as Hkeepf.
  { intros A S m Hm HS. eapply touches_keeps; [exact Hm|intros t t'; by apply finished_inert|by intros t []]. }
  intros []. apply triple_bind with (R := fun _ => finished).
  { eapply triple_weaken; [by eapply Hkeepf; [apply (touches_fsync_directory inert)|]|done..|]. intros [[]|e] t Ht; [done|]. by destruct Ht. }
  intros []. eapply triple_weaken; [by eapply Hkeepf; [apply touches_record_node_access|]|done..|]. intros r t [Hu Hl]. by split.
Qed.
End staging.

Lemma publish_new_triple verify :
  triple undisturbed undisturbed (publish_new key columns (Some i) verify)
    (fun r t => undisturbed t /\ forall g, r = Ok g -> load_node key t = Ok pub).
Proof.
  unfold publish_new. set (Q := fun (r : result string) t => undisturbed t /\ _).
  assert (forall e t, undisturbed t -> Q (Err e) t) as Herr by by intros e t ?.
  apply triple_bind with (R := fun _ => undisturbed).
  { eapply triple_weaken; [eapply keeps_undisturbed; [apply touches_mkdir_parents|]|done..|].
    - intros p Hp. apply short_inert. apply suffix_length in Hp. exact Hp.
    - intros [] t Ht; [done|by apply Herr]. }
  intros []. apply triple_bind with (R := fun g t => is_generation g = true /\ undisturbed t).
  { apply triple_uuid4. intros n t Ht. split; [apply uuid4_hex_valid|done]. }
  intros g. apply triple_pure. intros Hg. cbv zeta.
  apply triple_bind with (R := fun _ => staged (generations_dir // (".staging-" +:+ g)%string) []).
  { apply triple_syscall; [intros e t Ht; by apply Herr|]. intros t t' [] Ht [_ ->]%mkdir_call_spec.
    assert (undisturbed (<[generations_dir // (".staging-" +:+ g)%string := Dir]> t)) as Hu.
    { eapply undisturbed_inert; [|exact Ht|apply insert_outside]. intros p ->. apply (staging_inert g). by exists []. }
    split; [done|]. split_and!; [done|by rewrite lookup_insert_eq|constructor]. }
  intros []. apply triple_catch with (R := fun _ => undisturbed).
  - apply triple_bind with (R := fun _ t => undisturbed t /\ complete g key columns (snapshot_of i) (generations_dir // (".staging-" +:+ g)%string) t).
    { eapply triple_weaken; [by apply build_triple|done..|]. intros [[]|e] t [Hu Hc]; [split; [done|by apply Hc]|done]. }
    intros []. apply triple_bind with (R := fun _ t => undisturbed t /\ load_node key t = Ok pub).
    { eapply triple_weaken; [by apply commit_triple|done..|]. intros [[]|e] t [Hu Hc]; [split; [done|by apply Hc]|done]. }
    intros []. apply triple_ret. intros t [Hu Hl]. by split.
  - intros e. apply triple_bind with (R := fun _ => undisturbed).
    { eapply triple_weaken; [eapply keeps_undisturbed; [apply touches_rmtree|apply (staging_inert g)]|done..|].
      intros [] t Ht; [done|by apply Herr]. }
    intros []. apply triple_bind with (R := fun _ => undisturbed).
    { eapply triple_weaken; [eapply keeps_undisturbed; [apply touches_unlink|intros p ->; apply top_inert]|done..|].
      intros [] t Ht; [done|by apply Herr]. }
    intros []. apply triple_raise. intros t Ht. by apply Herr.
Qed.

Lemma undisturbed_stable : stable_inert undisturbed.
Proof. intros S t t' HS. by apply undisturbed_inert. Qed.

Lemma reuse_triple g : is_generation g = true ->
  triple undisturbed (fun t => undisturbed t /\ require_node_pointer key t = Ok g) (
      _ ← store_lock;
      lease ← open_and_lease_generation (F:=F) g (Some key) true;
      _ ← record_node_access (F:=F) key g (f_of_Z 60);
      _ ← lease_close lease;
      mret g)
    (fun r t => undisturbed t /\ forall g, r = Ok g -> exists v, load_node key t = Ok v).
Proof.
  intros Hg. set (R := fun t => undisturbed t /\ require_node_pointer key t = Ok g).
  set (Q := fun (r : result string) t => undisturbed t /\ _).
  assert (stable_inert R) as HR.
  { intros S t t' HS [Hu Hp] Hout. split; [by eapply undisturbed_inert|]. rewrite <- Hp. apply require_node_pointer_same, Hout.
    intros Hs. apply HS in Hs as [Hs _]. by apply (Hs key). }
  assert (forall t, R t -> undisturbed t) as HRu by by intros t [].
  apply triple_bind with (R := fun _ => R).
  { eapply triple_weaken; [eapply (keeps_stable undisturbed R); [done|done|apply touches_store_lock|apply short_inert]|done..|].
    intros [[]|e] t Ht; [done|]. by split; [apply HRu|]. }
  set (R2 := fun (l : FactorGenerationLease (F:=F) (C:=C)) t => under leases_dir (ls_path l) /\ undisturbed t /\ exists v, load_node key t = Ok v).
  intros []. apply triple_bind with (R := R2).
  { eapply triple_weaken; [apply (open_triple undisturbed R); done|done..|]. intros [l|e] t [Hr Hl]; [|split; [by apply HRu|done]].
    destruct (Hl l eq_refl) as (v & Hv & _ & _ & Hpath). destruct Hr as [Hu Hp]. split_and!; [|done|].
    - destruct Hpath as [r ->]. exists (r ++ [g]). by rewrite <- app_assoc.
    - exists v. unfold load_node. by rewrite Hp. }
  intros l. apply triple_pure. intros Hpath. set (R3 := fun t => undisturbed t /\ exists v, load_node key t = Ok v).
  assert (stable_inert R3) as HR3.
  { intros S t t' HS [Hu [v Hv]] Hout. split; [by eapply undisturbed_inert|]. exists v. by eapply load_node_inert. }
  assert (forall A S (m : ST (disk C) A), touches S m -> (forall p, S p -> inert p) ->
    triple undisturbed R3 m (fun r t => match r with Ok _ => R3 t | Err e => Q (Err e) t end)) as Hkeep.
  { intros A S m Hm HS. eapply triple_weaken; [eapply (keeps_stable undisturbed R3); [done|by intros t []|exact Hm|done]|done..|].
    intros [a|x] t Ht; [done|]. by destruct Ht. }
  apply triple_bind with (R := fun _ => R3); [by eapply Hkeep; [apply touches_record_node_access|]|]. intros [].
  apply triple_bind with (R := fun _ => R3).
  { unfold lease_close. destruct (ls_closed l); [by apply triple_ret|].
    eapply (Hkeep _ (only (ls_path l))); [touch; done|]. intros p ->. by apply under_leases_inert. }
  intros _. apply triple_ret. intros t [Hu Hv]. by split.
Qed.

Lemma publish_triple replaced verify :
  triple undisturbed undisturbed (publish_generation key columns (Some i) replaced verify)
    (fun r t => undisturbed t /\ forall g, r = Ok g -> exists v, load_node key t = Ok v).
Proof.
  unfold publish_generation. set (Q := fun (r : result string) t => undisturbed t /\ _).
  assert (forall e t, undisturbed t -> Q (Err e) t) as Herr by by intros e t ?.
  do 5 (apply triple_bind with (R := fun _ => undisturbed); [apply triple_guard; [done|by intros _ t ?; apply Herr]|]; intros []).
  apply triple_bind with (R := fun _ => undisturbed).
  { eapply triple_weaken; [eapply keeps_undisturbed; [apply touches_writer_lock|apply short_inert]|done..|].
    intros [] t Ht; [done|by apply Herr]. }
  intros []. apply triple_bind with (R := fun _ => undisturbed).
  { destruct replaced as [g|]; [|by apply triple_ret].
    apply triple_bind with (R := fun _ => undisturbed); [apply triple_guard; [done|by intros _ t ?; apply Herr]|]. intros [].
    apply triple_bind with (R := fun _ => undisturbed); [apply triple_query; [intros e t ?; by apply Herr|done]|]. intros o.
    apply triple_guard; [done|by intros _ t ?; apply Herr]. }
  intros []. apply triple_bind with (R := fun o t => undisturbed t /\ match o with Some g => is_generation g = true /\
    require_node_pointer key t = Ok g | None => True end).
  { apply triple_query; [intros e t ?; by apply Herr|]. intros t o Hu Ho. split; [done|]. destruct o as [g|]; [|done].
    pose proof (pointer_required _ _ _ Ho) as Hp. split; [by apply (require_node_pointer_valid key t)|done]. }
  intros o. assert (triple undisturbed (fun t => undisturbed t /\ match o with Some g => is_generation g = true /\
      require_node_pointer key t = Ok g | None => True end) (publish_new key columns (Some i) verify) Q) as Hnew.
  { eapply triple_weaken; [apply publish_new_triple|by intros t [? _]|done|]. intros r t [Hu Hl]. split; [done|]. intros g Hg. eauto. }
  destruct o as [g|]; [|done]. destruct replaced as [g'|]; [done|].
  eapply triple_weaken with (P := fun t => is_generation g = true /\ undisturbed t /\ require_node_pointer key t = Ok g);
    [|by intros t (? & ? & ?)|done|done].
  apply triple_pure. apply reuse_triple.
Qed.
End publish.

(** A guard in front: what follows may assume it. *)
Lemma triple_guarded {A : Type} I P (b : bool) e (m : ST (disk C) A) (Q : result A -> tree C -> Prop) :
  (forall t, P t -> Q (Err e) t) -> (b = true -> triple I P m Q) -> triple I P (st_guard b e ≫= fun _ => m) Q.
Proof.
  intros He Hm. apply triple_bind with (R := fun _ t => b = true /\ P t); [by apply triple_guard; naive_solver|].
  intros _. by apply triple_pure.
Qed.

(** Publication, whatever its arguments *)
Lemma publish_any (i i' : FactorNodeIdentity F C) (columns : list (string * factor_array (F:=F))) t0 replaced verify :
  constructed i -> from_snapshot (snapshot_of i) = Ok i' -> node_key i' = node_key i -> NoDup columns.*1 ->
  triple (undisturbed i i' columns t0) (undisturbed i i' columns t0) (publish_generation (node_key i) columns (Some i) replaced verify)
    (fun r t => undisturbed i i' columns t0 t /\ forall g, r = Ok g -> exists v, load_node (node_key i) t = Ok v).
Proof.
  intros Hi Hi' Hkey Hnd. destruct (is_digest (node_key i)) eqn:Hdig, (bool_decide (columns = [])) eqn:Hne, (forallb (fun x => is_name x.1) columns) eqn:Hnames.
  3: { apply publish_triple; [done..|by apply bool_decide_eq_false_1 in Hne|done|by apply forallb_Forall_true]. }
  all: unfold publish_generation; rewrite Hdig, Hne, Hnames; repeat (apply triple_guarded; [by split|]; intros ?); done.
Qed.

(** C18: Publishing a node is atomic for every reader.  Whatever call fails and wherever
    the process dies, at each moment every other node opens exactly as it did, and
    this node opens as it did or completely as published; when publication returns,
    it opens. *)
Theorem publish_generation_atomic (i : FactorNodeIdentity F C) (columns : list (string * factor_array (F:=F))) replaced verify (d : disk C) :
  constructed i -> Forall (fun c => FactorColumnSchema_init (cn_name c) (cn_dtype c) (cn_nullable c) = Ok c) (id_output_schema i) ->
  NoDup columns.*1 ->
  let '(d', r) := publish_generation (node_key i) columns (Some i) replaced verify d in
  exists i', same_identity i i' /\ node_key i' = node_key i /\
    undisturbed i i' columns (now d) (now d') /\
    (exists ts, trace d' = trace d ++ ts /\ Forall (undisturbed i i' columns (now d)) ts) /\
    forall g, r = Ok g -> exists v, load_node (node_key i) (now d') = Ok v.
Proof.
  intros Hi Hcols Hnd. destruct (reread_constructed i Hi Hcols) as (i' & Hi' & Hc' & Hsame).
  assert (node_key i' = node_key i) as Hkey by (unfold node_key; f_equal; symmetry; by apply payload_iff).
  pose proof (publish_any i i' columns (now d) replaced verify Hi Hi' Hkey Hnd d (undisturbed_start _ _ _ _)) as Ht.
  destruct (publish_generation _ _ _ _ _ d) as [d' r]. destruct Ht as ((Hu & Hr) & ts & Hts & Hall). exists i'. eauto 10.
Qed.
End facts.

(** ** Witnesses *)

#[export] Instance quiet_uuids : UuidLaws.
Proof.
  intros n. assert (forall k, (k < 10)%nat -> hex_digit (Ascii.ascii_of_nat (48 + k)) = true) as Hd
    by (intros k Hk; do 10 (destruct k as [|k]; [reflexivity|]); lia).
  unfold is_generation. apply andb_true_iff. split; [reflexivity|]. simpl uuid4_hex.
  pose (digit := fun k => Ascii.ascii_of_nat (48 + k)).
  change (hex_digit (digit ((n / 1000) mod 10)%nat) && (hex_digit (digit ((n / 100) mod 10)%nat) &&
    (hex_digit (digit ((n / 10) mod 10)%nat) && (hex_digit (digit (n mod 10)%nat) && true))) = true).
  unfold digit. rewrite !Hd by (apply Nat.mod_upper_bound; lia). reflexivity.
Qed.

Definition witness_columns : list (string * factor_array (F:=XQ)) := [("value"%string, mkArray 1 [f_of_Z 1; f_of_Z 2])].
Definition published_run : disk held * result string :=
  publish_generation (node_key (held_node "a" [])) witness_columns (Some (held_node "a" [])) None false fresh_disk.

Lemma publish_generation_atomic_witness : is_ok published_run.2 = true /\
  exists v, load_node (F:=XQ) (node_key (held_node "a" [])) (now published_run.1) = Ok v.
Proof.
  assert (is_ok published_run.2 = true) as Hok by (vm_compute; reflexivity). split; [exact Hok|].
  assert (NoDup witness_columns.*1) as Hnd by (apply (bool_decide_eq_true_1 _); vm_compute; reflexivity).
  pose proof (publish_generation_atomic (held_node "a" []) witness_columns None false fresh_disk held_a_constructed
    (held_columns_built _ _) Hnd) as Hw.
  unfold published_run in *. destruct (publish_generation _ _ _ _ _ _) as [d' [g|e]]; [|discriminate Hok].
  destruct Hw as (i' & _ & _ & _ & _ & Hw). exact (Hw g eq_refl).
Defined.
