(* ===== verification/StoreCleanup.v ===== *)
(** * Garbage collection, eviction and quota of the factor store (factor_store.py)

    The functions delete generations nothing refers to, and the least recently used
    nodes; both skip the current and the leased generations.  What one directory
    entry costs to examine is a [query]; each deletion is its own call. *)

From stdpp Require Import pretty.
From S2P Require Import Prelude Numeric FactorIdentity Fs CacheFiles Metrics FactorStore.

#[local] Open Scope Z_scope.

(** [re.fullmatch(r"([0-9a-f]{64})\.json", name)]: its group *)
Definition metadata_key (name : string) : option string :=
  let k := String.substring 0 64 name in
  if is_digest k && String.eqb name (k +:+ ".json")%string then Some k else None.

Definition starts_with (prefix name : string) : bool := String.eqb (String.substring 0 (String.length prefix) name) prefix.

Section cleanup.
Context {F C : Type} `{PyFloat F} `{JsonText F C} `{Sha256 C} `{CacheFiles F C} `{Host C} `{World}.

(** [for name in directory.iterdir()] *)
Definition for_names {A} (directory : path) (body : A -> string -> ST (disk C) A) (acc : A) : ST (disk C) A :=
  names ← iterdir directory;
  st_fold body acc names.

(** ** Garbage collection *)

Record gc_report := mkGc {
  gc_generations : list string;
  gc_leases : list (string * string);
  gc_staging : list string;
  gc_pointers : list string;
  gc_node_staging : list string;
  gc_metadata : list (string * string);
}.

(** [path.unlink()] unless the run is dry *)
Definition unlink_unless (dry_run missing_ok : bool) (p : path) : ST (disk C) unit :=
  if dry_run then mret tt else unlink missing_ok p.

(** The pass over nodes/: stray pointers go, the others are indexed *)
Definition index_nodes (dry_run : bool) (acc : list string * list string * list string) (name : string) :
  ST (disk C) (list string * list string * list string) :=
  let '(generations, keys, removed) := acc in
  if starts_with "." name then
    file ← query (fun t => Ok (is_file t (nodes_dir // name) && negb (is_symlink t (nodes_dir // name))));
    if (file : bool) then
      _ ← unlink_unless dry_run false (nodes_dir // name);
      mret (generations, keys, removed ++ [name])
    else mret acc
  else
    _ ← st_guard (is_digest name) (FactorStoreError "factor node index contains an invalid key");
    generation ← query (require_node_pointer name);
    present ← query (fun t => Ok (is_dir t (generations_dir // generation) && negb (is_symlink t (generations_dir // generation))));
    _ ← st_guard present (FactorStoreError "factor node index references a missing generation");
    mret (generations ++ [generation], keys ++ [name], removed).

(** [_local_process_is_dead] *)
Definition local_process_is_dead (n : nat) (pid : Z) : result bool :=
  match os_kill n pid with
  | None => Ok false
  | Some NoSuchProcess => Ok true
  | Some (NotPermitted | InvalidPid) => Ok false
  | Some (KillFailure e) => Err e
  end.

(** A lease's age in seconds, and whether its process is known to be dead *)
Definition lease_state (now_ns : Z) (lease_path : path) (n : nat) (t : tree C) : result (option (F * bool)) :=
  or_else is_decode_error (
    c ← read_file t lease_path;
    metadata ← json_loads c;
    created ← vindex metadata "created_ns";
    created ← int_of (F:=F) created;
    host ← vindex metadata "host";
    dead ← (if eq_text host gethostname then
              pid ← vindex metadata "pid";
              pid ← int_of (F:=F) pid;
              local_process_is_dead n pid
            else Ok false);
    Ok (Some (f_ratio (now_ns - created) 1000000000, dead))) None.

Definition examine_lease (dry_run : bool) (stale_lease_seconds : F) (now_ns : Z) (generation : string)
  (acc : Z * list (string * string)) (name : string) : ST (disk C) (Z * list (string * string)) :=
  let '(surviving, removed) := acc in
  let lease_path := leases_dir // generation // name in
  state ← (fun d => query (lease_state now_ns lease_path (clock d)) d);
  match state with
  | Some (age_seconds, local_dead) =>
      if f_leb stale_lease_seconds age_seconds && (local_dead : bool) then
        _ ← unlink_unless dry_run true lease_path;
        mret (surviving, removed ++ [(generation, name)])
      else mret (surviving + 1, removed)
  | None => mret (surviving + 1, removed)
  end.

(** One entry of generations/ *)
Definition examine_generation (dry_run : bool) (stale_lease_seconds : F) (now_ns : Z) (current : string) (indexed : list string)
  (report : gc_report) (generation : string) : ST (disk C) gc_report :=
  let generation_path := generations_dir // generation in
  if starts_with ".staging-" generation then
    present ← query (fun t => Ok (is_dir t generation_path && negb (is_symlink t generation_path)));
    if (present : bool) then
      _ ← (if dry_run then mret tt else rmtree false generation_path);
      mret (mkGc (gc_generations report) (gc_leases report) (gc_staging report ++ [generation]) (gc_pointers report)
              (gc_node_staging report) (gc_metadata report))
    else mret report
  else if String.eqb generation current || bool_decide (generation ∈ indexed) || negb (is_generation generation) then mret report
  else
    let lease_directory := leases_dir // generation in
    link ← query (fun t => Ok (is_symlink t lease_directory));
    directory ← query (fun t => Ok (is_dir t lease_directory));
    examined ← (if (link : bool) then mret (true, [])
                else if (directory : bool) then
                  r ← for_names lease_directory (examine_lease dry_run stale_lease_seconds now_ns generation) (0, []);
                  mret (0 <? r.1, r.2)
                else mret (false, []));
    let '(has_leases, removed_leases) := examined in
    let report := mkGc (gc_generations report) (gc_leases report ++ removed_leases) (gc_staging report) (gc_pointers report)
                    (gc_node_staging report) (gc_metadata report) in
    present ← query (fun t => Ok (is_dir t generation_path && negb (is_symlink t generation_path)));
    if negb has_leases && (present : bool) then
      _ ← (if dry_run then mret tt
           else
             _ ← rmtree false generation_path;
             directory ← query (fun t => Ok (is_dir t lease_directory));
             if (directory : bool) then rmdir lease_directory else mret tt);
      mret (mkGc (gc_generations report ++ [generation]) (gc_leases report) (gc_staging report) (gc_pointers report)
              (gc_node_staging report) (gc_metadata report))
    else mret report.

Definition examine_pointer (dry_run : bool) (report : gc_report) (name : string) : ST (disk C) gc_report :=
  if starts_with ".CURRENT-" name then
    file ← query (fun t => Ok (is_file t (store // name) && negb (is_symlink t (store // name))));
    if (file : bool) then
      _ ← unlink_unless dry_run false (store // name);
      mret (mkGc (gc_generations report) (gc_leases report) (gc_staging report) (gc_pointers report ++ [name])
              (gc_node_staging report) (gc_metadata report))
    else mret report
  else mret report.

Definition examine_metadata (dry_run : bool) (cutoff_ns : Z) (indexed_keys : list string) (directory_name : string)
  (report : gc_report) (name : string) : ST (disk C) gc_report :=
  let metadata_path := store // directory_name // name in
  match metadata_key name with
  | Some k =>
      file ← query (fun t => Ok (is_file t metadata_path && negb (is_symlink t metadata_path)));
      if bool_decide (k ∈ indexed_keys) || negb (file : bool) then mret report
      else
        old_enough ← st_catch (fun d => query (fun t => Ok (st_mtime_ns (clock d) metadata_path <=? cutoff_ns)) d)
                       (fun e => if is_OSError e then mret false else st_raise e);
        if (old_enough : bool) then
          _ ← unlink_unless dry_run true metadata_path;
          mret (mkGc (gc_generations report) (gc_leases report) (gc_staging report) (gc_pointers report) (gc_node_staging report)
                  (gc_metadata report ++ [(directory_name, name)]))
        else mret report
  | None => mret report
  end.

(** [int(x)] of a float *)
Definition int_float (x : F) : result Z :=
  whenever f_isnan x raise ValueError "cannot convert float NaN to integer" ;;
  whenever f_isinf x raise OverflowError "cannot convert float infinity to integer" ;;
  Ok (f_trunc x).

Definition non_negative (x : F) : bool := f_isfinite x && negb (f_ltb x f_zero).

Definition collect_garbage (stale_lease_seconds metadata_retention_seconds : F) (dry_run : bool) : ST (disk C) gc_report :=
  _ ← st_guard (non_negative stale_lease_seconds) (ValueError "stale_lease_seconds must be finite and non-negative");
  _ ← st_guard (non_negative metadata_retention_seconds) (ValueError "metadata_retention_seconds must be finite and non-negative");
  _ ← writer_lock;
  _ ← store_lock;
  current ← query read_current;
  now_ns ← get_time_ns;
  link ← query (fun t => Ok (is_symlink t nodes_dir));
  _ ← st_guard (negb link) (FactorStoreError "factor node index may not use symbolic links");
  directory ← query (fun t => Ok (is_dir t nodes_dir));
  index ← (if (directory : bool) then for_names nodes_dir (index_nodes dry_run) ([], [], []) else mret ([], [], []));
  let '(indexed_generations, indexed_keys, removed_node_staging) := index in
  report ← for_names generations_dir (examine_generation dry_run stale_lease_seconds now_ns current indexed_generations)
             (mkGc [] [] [] [] removed_node_staging []);
  report ← for_names store (examine_pointer dry_run) report;
  retention ← st_lift (int_float (f_mul metadata_retention_seconds (f_of_Z 1000000000)));
  report ← st_fold (fun report directory_name =>
      link ← query (fun t => Ok (is_symlink t (store // directory_name)));
      _ ← st_guard (negb link) (FactorStoreError "factor metadata directories may not use symbolic links");
      directory ← query (fun t => Ok (is_dir t (store // directory_name)));
      if (directory : bool) then
        for_names (store // directory_name) (examine_metadata dry_run (now_ns - retention) indexed_keys directory_name) report
      else mret report) report ["access"; "admission"]%string;
  _ ← (if dry_run then mret tt
       else
         _ ← fsync_directory generations_dir;
         _ ← (if bool_decide (gc_pointers report = []) then mret tt else fsync_directory store);
         _ ← (if bool_decide (gc_node_staging report = []) then mret tt else fsync_directory nodes_dir);
         st_iter (fun directory_name =>
           if existsb (fun x => String.eqb x.1 directory_name) (gc_metadata report) then fsync_directory (store // directory_name)
           else mret tt) ["access"; "admission"]%string);
  mret report.

(** ** Eviction *)

Record node_entry := mkEntry {
  ne_last_access_ns : Z;
  ne_key : string;
  ne_generation : string;
  ne_stored_bytes : Z;
  ne_allocated_bytes : Z;
  ne_protected : bool;
}.

(** Tuples compare lexicographically; keys are distinct. *)
Definition entry_le (x y : node_entry) : Prop :=
  ne_last_access_ns x < ne_last_access_ns y \/
  (ne_last_access_ns x = ne_last_access_ns y /\ String.le (ne_key x) (ne_key y)).
#[export] Instance entry_le_dec x y : Decision (entry_le x y).
Proof. unfold entry_le. apply _. Defined.

(** [_read_node_last_access]; [now_ns] is the clock when it compares *)
Definition read_node_last_access (node_key generation : string) (fallback_ns now_ns : Z) (t : tree C) : result Z :=
  let p := store // "access"%string // (node_key +:+ ".json")%string in
  if is_symlink t p then Ok fallback_ns
  else or_else (fun e => is_read_error e || match e with TypeError _ => true | _ => false end) (
    c ← read_file t p;
    v ← json_loads c;
    match v with
    | VMap v =>
        let get k := dict_get v (Some k) in
        if opt_eq_text (get "format"%string) "gambit-factor-access" && opt_eq_int (F:=F) (get "version"%string) 1 &&
           opt_eq_text (get "node_key"%string) node_key && opt_eq_text (get "generation"%string) generation then
          match get "last_access_ns"%string ≫= exact_int with
          | Some last => Ok (if (0 <=? last) && (last <=? now_ns) then last else fallback_ns)
          | None => Ok fallback_ns
          end
        else Ok fallback_ns
    | _ => Ok fallback_ns
    end) fallback_ns.

(** [_generation_stored_bytes] *)
Definition generation_stored_bytes (p : path) (t : tree C) : result Z :=
  unless is_dir t p raise FileNotFoundError ;;
  foldE (fun total name =>
    whenever is_symlink t (p // name) raise FactorStoreError "factor generation may not use symbolic links" ;;
    Ok (match t !! (p // name) with Some (File c) => total + st_size c | _ => total end)) 0 (children t p).

(** [_allocated_bytes]: everything strictly below, symbolic links apart *)
Definition allocated_bytes (p : path) (t : tree C) : Z :=
  foldr Z.add 0 ((fun x => match x.2 with Link => 0 | e => st_blocks e * 512 end)
    <$> filter (fun x => p `suffix_of` x.1 /\ x.1 <> p) (map_to_list t)).

Definition blocks_of (p : path) (t : tree C) : Z :=
  match t !! p with Some Link | None => 0 | Some e => st_blocks e * 512 end.

(** [_node_reclaimable_allocated_bytes] *)
Definition node_reclaimable_allocated_bytes (node_key generation : string) (t : tree C) : result Z :=
  let generation_path := generations_dir // generation in
  unless path_exists t generation_path raise FileNotFoundError ;;
  let lease_directory := leases_dir // generation in
  Ok (allocated_bytes generation_path t + blocks_of generation_path t +
      blocks_of (nodes_dir // node_key) t +
      blocks_of (store // "access"%string // (node_key +:+ ".json")%string) t +
      blocks_of (store // "admission"%string // (node_key +:+ ".json")%string) t +
      (if is_dir t lease_directory && bool_decide (children t lease_directory = []) then blocks_of lease_directory t else 0)).

Definition leased (generation : string) (t : tree C) : bool :=
  let lease_directory := leases_dir // generation in
  is_symlink t lease_directory || (is_dir t lease_directory && negb (bool_decide (children t lease_directory = []))).

(** One node of the index *)
Definition node_entry_of (current : string) (n : nat) (node_key : string) (t : tree C) : result node_entry :=
  unless is_digest node_key raise FactorStoreError "factor node index contains an invalid key" ;;
  generation ← require_node_pointer node_key t;
  let generation_path := generations_dir // generation in
  let manifest_path := generation_path // "manifest.json"%string in
  whenever is_symlink t generation_path || is_symlink t manifest_path
    raise FactorStoreError "factor generation may not use symbolic links" ;;
  manifest ← raise_from is_read_error (c ← read_file t manifest_path; json_loads c)
    (FactorStoreError "factor generation manifest is unreadable");
  named ← vget manifest "generation";
  key ← vget manifest "node_key";
  unless opt_eq_text (F:=F) named generation && opt_eq_text key node_key
    raise FactorStoreError "factor node index does not match its generation manifest" ;;
  stored_bytes ← generation_stored_bytes generation_path t;
  reclaimable ← node_reclaimable_allocated_bytes node_key generation t;
  created ← vget manifest "created_ns";
  created_ns ← match created with
    | Some v => match exact_int v with Some z => Ok z | None => Err (FactorStoreError "factor generation creation timestamp is invalid") end
    | None => Ok (st_mtime_ns n manifest_path)
    end;
  whenever created_ns <? 0 raise FactorStoreError "factor generation creation timestamp is invalid" ;;
  last_access_ns ← read_node_last_access node_key generation created_ns (time_ns n) t;
  Ok (mkEntry last_access_ns node_key generation stored_bytes reclaimable (String.eqb generation current || leased generation t)).

Definition collect_entry (current : string) (entries : list node_entry) (name : string) : ST (disk C) (list node_entry) :=
  if starts_with "." name then mret entries
  else
    entry ← (fun d => query (node_entry_of current (clock d) name) d);
    mret (entries ++ [entry]).

Record limits := mkLimits {
  lm_max_bytes : Z;
  lm_max_nodes : option Z;
  lm_max_cache_allocated_bytes : option Z;
  lm_minimum_free_bytes : Z;
  lm_trigger_cache_allocated_bytes : option Z;
}.

(** The running totals of the eviction loop *)
Record totals := mkTotals { tt_bytes : Z; tt_nodes : Z; tt_allocated : Z; tt_free : Z }.

Definition quota_triggered (l : limits) (before : totals) : bool :=
  match lm_trigger_cache_allocated_bytes l with Some trigger => trigger <? tt_allocated before | None => false end ||
  (tt_free before <? lm_minimum_free_bytes l).

(** [over_limit] *)
Definition over_limit (l : limits) (triggered : bool) (after : totals) : bool :=
  (lm_max_bytes l <? tt_bytes after) ||
  match lm_max_nodes l with Some n => n <? tt_nodes after | None => false end ||
  (triggered && (match lm_max_cache_allocated_bytes l with Some n => n <? tt_allocated after | None => false end ||
                 (tt_free after <? lm_minimum_free_bytes l))).

Record eviction := mkEviction {
  ev_keys : list string;
  ev_generations : list string;
  ev_protected : list string;
  ev_totals : totals;
}.

Definition without (after : totals) (x : node_entry) : totals :=
  mkTotals (tt_bytes after - ne_stored_bytes x) (tt_nodes after - 1) (tt_allocated after - ne_allocated_bytes x)
    (tt_free after + ne_allocated_bytes x).

(** Deleting one node: first its pointer *)
Definition delete_node (x : node_entry) : ST (disk C) unit :=
  _ ← unlink false (nodes_dir // ne_key x);
  _ ← rmtree false (generations_dir // ne_generation x);
  let lease_directory := leases_dir // ne_generation x in
  empty ← query (fun t => Ok (is_dir t lease_directory && bool_decide (children t lease_directory = [])));
  _ ← (if (empty : bool) then rmdir lease_directory else mret tt);
  st_iter (fun root : string =>
    let metadata_path := store // root // (ne_key x +:+ ".json")%string in
    file ← query (fun t => Ok (is_file t metadata_path && negb (is_symlink t metadata_path)));
    if (file : bool) then unlink false metadata_path else mret tt) ["access"; "admission"]%string.

(** [for ... in sorted(entries)] *)
Fixpoint evict_loop (l : limits) (triggered dry_run : bool) (entries : list node_entry) (e : eviction) : ST (disk C) eviction :=
  match entries with
  | [] => mret e
  | x :: entries =>
      if negb (over_limit l triggered (ev_totals e)) then mret e
      else if ne_protected x then
        evict_loop l triggered dry_run entries
          (mkEviction (ev_keys e) (ev_generations e) (ev_protected e ++ [ne_key x]) (ev_totals e))
      else
        _ ← (if dry_run then mret tt else delete_node x);
        evict_loop l triggered dry_run entries
          (mkEviction (ev_keys e ++ [ne_key x]) (ev_generations e ++ [ne_generation x]) (ev_protected e) (without (ev_totals e) x))
  end.

(** The result, the metrics flag apart *)
Record evict_report := mkEvicted {
  er_eviction : eviction;
  er_before : totals;
  er_triggered : bool;
  er_limits_satisfied : bool;
  er_metrics_recorded : option bool;
}.

Definition limits_valid (l : limits) : result unit :=
  whenever lm_max_bytes l <? 0 raise ValueError "max_bytes must be a non-negative integer" ;;
  whenever match lm_max_nodes l with Some n => n <? 0 | None => false end
    raise ValueError "max_nodes must be a non-negative integer or None" ;;
  whenever match lm_max_cache_allocated_bytes l with Some n => n <? 0 | None => false end
    raise ValueError "must be a non-negative integer or None" ;;
  whenever lm_minimum_free_bytes l <? 0 raise ValueError "must be a non-negative integer or None" ;;
  whenever match lm_trigger_cache_allocated_bytes l with Some n => n <? 0 | None => false end
    raise ValueError "must be a non-negative integer or None" ;;
  whenever match lm_trigger_cache_allocated_bytes l, lm_max_cache_allocated_bytes l with Some t, Some m => t <? m | _, _ => false end
    raise ValueError "trigger_cache_allocated_bytes must not be below the cache target" ;;
  Ok tt.

Definition evict_factor_nodes (l : limits) (dry_run : bool) : ST (disk C) evict_report :=
  _ ← st_lift (limits_valid l);
  _ ← writer_lock;
  _ ← store_lock;
  current ← query read_current;
  link ← query (fun t => Ok (is_symlink t nodes_dir));
  _ ← st_guard (negb link) (FactorStoreError "factor node index may not use symbolic links");
  directory ← query (fun t => Ok (is_dir t nodes_dir));
  entries ← (if (directory : bool) then for_names nodes_dir (collect_entry current) [] else mret []);
  before ← (fun d => query (fun t => Ok (mkTotals (foldr Z.add 0 (ne_stored_bytes <$> entries)) (Z.of_nat (length entries))
                                          (allocated_bytes store t) (statvfs_free (clock d)))) d);
  let triggered := quota_triggered l before in
  e ← evict_loop l triggered dry_run (merge_sort entry_le entries) (mkEviction [] [] [] before);
  let evicted := negb (bool_decide (ev_keys e = [])) in
  _ ← (if evicted && negb dry_run then
         _ ← fsync_directory nodes_dir;
         _ ← fsync_directory generations_dir;
         st_iter (fun root : string =>
           directory ← query (fun t => Ok (is_dir t (store // root) && negb (is_symlink t (store // root))));
           if (directory : bool) then fsync_directory (store // root) else mret tt) ["access"; "admission"]%string
       else mret tt);
  recorded ← (if negb dry_run && evicted then
      r ← try_record_factor_cache_metrics (F:=F) [
        ("cache_evictions", VInt (Z.of_nat (length (ev_keys e)))); ("reclaimed_bytes", VInt (tt_allocated before - tt_allocated (ev_totals e)));
        ("lease_conflicts", VInt (Z.of_nat (length (ev_protected e))))]%string;
      mret (Some r)
    else mret None);
  mret (mkEvicted e before triggered (negb (over_limit l triggered (ev_totals e))) recorded).

(** ** Quota *)

Definition enforce_factor_cache_quota (max_cache_bytes reserve_free_bytes : Z) (high_watermark low_watermark : F) (dry_run : bool) :
  ST (disk C) evict_report :=
  _ ← st_guard (negb (max_cache_bytes <? 0)) (ValueError "max_cache_bytes must be a non-negative integer");
  _ ← st_guard (negb (reserve_free_bytes <? 0)) (ValueError "reserve_free_bytes must be a non-negative integer");
  _ ← st_guard (f_isfinite low_watermark && f_isfinite high_watermark) (ValueError "watermarks must be finite");
  _ ← st_guard (f_leb f_zero low_watermark && f_ltb low_watermark high_watermark && f_leb high_watermark f_one)
        (ValueError "watermarks must satisfy 0 <= low < high <= 1");
  target_bytes ← st_lift (int_float (f_mul (f_of_Z max_cache_bytes) low_watermark));
  trigger_bytes ← st_lift (int_float (f_mul (f_of_Z max_cache_bytes) high_watermark));
  evict_factor_nodes (mkLimits (Z.shiftl 1 63 - 1) None (Some target_bytes) reserve_free_bytes (Some trigger_bytes)) dry_run.
End cleanup.
