(* ===== verification/StoreCleanupFacts.v ===== *)
(** * What garbage collection and eviction promise

    Neither ever takes away a generation that is current, leased by a process that
    may be alive, or (for collection) indexed by a node; a node that is evicted is a
    miss from the first moment, never a broken entry. *)

From S2P Require Import Prelude Numeric FactorIdentity FactorIdentityFacts Fs CacheFiles CacheWitness Metrics MetricsFacts.
From S2P Require Import FactorStore FactorStoreFacts StoreCleanup.

#[local] Open Scope Z_scope.

Section facts.
Context {F C : Type} `{PyFloat F} `{JsonText F C} `{!JsonTextLaws F C} `{Sha256 C} `{CacheFiles F C} `{!CacheFilesLaws F C}
  `{Host C} `{World} `{!WorldLaws}.
Implicit Types (t : tree C) (p q : path) (I P : tree C -> Prop) (e : exn).

(** A tree: what has a name in a directory has a directory. *)
Definition tree_ok t : Prop := forall p n, is_Some (t !! (p // n)) -> t !! p = Some Dir.

(** ** Names *)

Lemma starts_with_dot (prefix : string) name : starts_with ("." +:+ prefix)%string name = true -> exists s, name = ("." +:+ s)%string.
Proof.
  unfold starts_with. intros Hs%String.eqb_eq. destruct name as [|c name]; [done|]. simpl in Hs. injection Hs as -> _. by exists name.
Qed.

Lemma digest_not_dotted k prefix : is_digest k = true -> starts_with ("." +:+ prefix)%string k = false.
Proof.
  intros Hk. apply not_true_is_false. intros [s ->]%starts_with_dot. by rewrite dotted_not_digest in Hk.
Qed.

(** ** Rules *)

Lemma triple_pre {A : Type} I P P' (m : ST (disk C) A) Q : (forall t, P' t -> P t) -> triple I P m Q -> triple I P' m Q.
Proof. intros HP Hm. by eapply triple_weaken. Qed.

Lemma triple_seq {A B : Type} (I P Q : tree C -> Prop) (m : ST (disk C) A) (k : A -> ST (disk C) B) (E : result B -> tree C -> Prop) :
  (forall t, Q t -> forall e, E (Err e) t) ->
  triple I P m (fun _ => Q) -> (forall a, triple I Q (k a) E) -> triple I P (m ≫= k) E.
Proof.
  intros HE Hm Hk. apply triple_bind with (R := fun _ => Q); [|done]. eapply triple_weaken; [exact Hm|done..|].
  intros [a|e] t Ht; [done|by apply HE].
Qed.

Lemma for_names_triple {A : Type} I P dir (body : A -> string -> ST (disk C) A) acc (E : result A -> tree C -> Prop) :
  (forall e t, P t -> E (Err e) t) ->
  (forall names t, P t -> is_dir t dir = true -> names ≡ₚ children t dir -> triple I P (st_fold body acc names) E) ->
  triple I P (for_names dir body acc) E.
Proof.
  intros HE Hb. unfold for_names.
  apply triple_bind with (R := fun names t => (exists t', P t' /\ is_dir t' dir = true /\ names ≡ₚ children t' dir) /\ P t).
  - intros d Hd. unfold iterdir. pose proof (triple_query I P (fun t => if is_dir t dir then Ok (listing (clock d) (children t dir))
      else Err (OSError "not a directory")) (fun r t => match r with Ok names =>
        (exists t', P t' /\ is_dir t' dir = true /\ names ≡ₚ children t' dir) /\ P t | Err e => E (Err e) t end)) as Hq.
    apply Hq; [by intros e t Ht; apply HE| |done]. intros t names Ht Hn. split; [|done]. exists t.
    destruct (is_dir t dir); [|done]. injection Hn as <-. split_and!; [done..|apply listing_perm].
  - intros names. apply triple_pure. intros (t & Ht & Hdir & Hn). by eapply Hb.
Qed.

(** A fold all of whose steps keep [P] *)
Lemma fold_keeps {A B : Type} I P (body : B -> A -> ST (disk C) B) acc l :
  (forall acc x, x ∈ l -> triple I P (body acc x) (fun _ => P)) -> triple I P (st_fold body acc l) (fun _ => P).
Proof.
  revert acc. induction l as [|x l IH]; intros acc Hb; simpl; [by apply triple_ret|].
  apply triple_bind with (R := fun _ => P).
  - eapply triple_weaken; [apply Hb; by left|done..|]. by intros [].
  - intros a. apply IH. intros a' y Hy. apply Hb. by right.
Qed.

Lemma keeps_seq {A B : Type} I P (m : ST (disk C) A) (k : A -> ST (disk C) B) :
  triple I P m (fun _ => P) -> (forall a, triple I P (k a) (fun _ => P)) -> triple I P (m ≫= k) (fun _ => P).
Proof. intros Hm Hk. by apply triple_seq with (Q := P). Qed.

(** What is read holds of the answer *)
Lemma keeps_query {A B : Type} (φ : A -> Prop) I P (f : nat -> tree C -> result A) (k : A -> ST (disk C) B) :
  (forall n t a, P t -> f n t = Ok a -> φ a) -> (forall a, φ a -> triple I P (k a) (fun _ => P)) ->
  triple I P ((fun d => query (f (clock d)) d) ≫= k) (fun _ => P).
Proof.
  intros Hφ Hk. apply triple_bind with (R := fun a t => φ a /\ P t); [|intros a; by apply triple_pure, Hk].
  intros d Hd. apply (triple_query I P (f (clock d)) (fun r t => match r with Ok a => φ a /\ P t | Err _ => P t end)); [done| |done].
  intros t a Ht Ha. split; [by eapply Hφ|done].
Qed.

Lemma keeps_read {A B : Type} (φ : A -> Prop) I P (f : tree C -> result A) (k : A -> ST (disk C) B) :
  (forall t a, P t -> f t = Ok a -> φ a) -> (forall a, φ a -> triple I P (k a) (fun _ => P)) -> triple I P (query f ≫= k) (fun _ => P).
Proof. intros Hφ Hk. apply (keeps_query φ I P (fun _ => f)); [|done]. intros _. apply Hφ. Qed.

(** A computation whose second step reads the clock, at the moment its first step
    has come to *)
Lemma triple_timed {A B : Type} (φ : A -> Prop) I P Q (m : ST (disk C) A) (k : A -> Z -> ST (disk C) B) d :
  P (now d) -> triple I P m (fun r t => match r with Ok a => φ a /\ P t | Err e => Q (Err e) t end) ->
  (forall a, φ a -> triple I P (k a (time_ns (clock (m d).1))) Q) ->
  let '(d', r) := (a ← m; now_ns ← get_time_ns; k a now_ns) d in
  Q r (now d') /\ exists ts, trace d' = trace d ++ ts /\ Forall I ts.
Proof.
  intros HP Hm Hk. specialize (Hm d HP). unfold mbind, ST_bind, get_time_ns. destruct (m d) as [d1 [a|e]]; [|done].
  destruct Hm as ((Ha & HP1) & ts & Ht & Hts). specialize (Hk a Ha (tick d1) HP1). cbn [fst] in Hk.
  destruct (k a (time_ns (clock d1)) (tick d1)) as [d2 r].
  destruct Hk as (Hr & ts' & Ht' & Hts'). split; [done|]. exists (ts ++ ts'). rewrite Ht'. simpl. rewrite Ht, app_assoc. split; [done|].
  by apply Forall_app.
Qed.

Lemma bind_prefix {S A B E G : Type} (m1 : ST S A) (m2 : ST S B) (m3 : ST S E) (k : E -> ST S G) s :
  (_ ← m1; _ ← m2; a ← m3; k a) s = ((_ ← m1; _ ← m2; m3) ≫= k) s.
Proof.
  unfold mbind, ST_bind. destruct (m1 s) as [s1 [|]]; [|done]. destruct (m2 s1) as [s2 [|]]; [|done]. by destruct (m3 s2) as [s3 []].
Qed.

Lemma guard_at {S A : Type} (b : bool) e (k : unit -> ST S A) s :
  (st_guard b e ≫= k) s = if b then k tt s else (s, Err e).
Proof. by destruct b. Qed.

Lemma query_keeps {A : Type} I P (f : tree C -> result A) : triple I P (query f) (fun _ => P).
Proof. by apply triple_query. Qed.
Lemma query_at_keeps {A : Type} I P (f : nat -> tree C -> result A) : triple I P (fun d => query (f (clock d)) d) (fun _ => P).
Proof. intros d Hd. by apply (query_keeps I P (f (clock d))). Qed.
Lemma guard_keeps I P b e : triple I P (st_guard b e) (fun _ => P).
Proof. by apply triple_guard. Qed.
Lemma ret_keeps {A : Type} I P (a : A) : triple I P (mret a) (fun _ => P).
Proof. by apply triple_ret. Qed.

(** ** What must stay *)

Section kept.
Context (t0 : tree C) (keep : path -> Prop).

Definition kept t : Prop := forall p, keep p -> t !! p = t0 !! p.

Lemma touches_kept {A : Type} S (m : ST (disk C) A) : touches S m -> (forall p, S p -> ~ keep p) -> triple kept kept m (fun _ => kept).
Proof.
  intros Hm HS. eapply touches_keeps; [exact Hm| |done]. intros t t' Ht Hout p Hp. rewrite Hout; [by apply Ht|].
  intros Hs. by apply (HS p).
Qed.
End kept.

(** A lease is abandoned when its file is the record of a process of this host
    that does not exist at some moment, written [stale] seconds or more before the
    time [when]. *)
Definition abandoned (stale : F) (when : Z) t (g name : string) : Prop :=
  exists content metadata created created_ns pid process n,
    t !! (leases_dir // g // name) = Some (File content) /\ json_loads content = Ok metadata /\
    vindex metadata "created_ns" = Ok created /\ int_of (F:=F) created = Ok created_ns /\
    vindex metadata "host" = Ok (VStr gethostname) /\
    vindex metadata "pid" = Ok pid /\ int_of (F:=F) pid = Ok process /\
    os_kill n process = Some NoSuchProcess /\ f_leb stale (f_ratio (when - created_ns) 1000000000) = true.

(** Any other lease is live: its process exists or cannot be asked, it is on
    another host, it is young, or its record cannot be read. *)
Definition live_lease (stale : F) (when : Z) t (g name : string) : Prop :=
  is_generation g = true /\ is_Some (t !! (leases_dir // g // name)) /\ ~ abandoned stale when t g name.

(** Paths collection may not change *)
Inductive gc_keep (stale : F) (when : Z) t : path -> Prop :=
  | keep_nodes : gc_keep stale when t nodes_dir
  | keep_node k g : require_node_pointer k t = Ok g -> gc_keep stale when t (nodes_dir // k)
  | keep_indexed k g p : require_node_pointer k t = Ok g -> under (generations_dir // g) p -> gc_keep stale when t p
  | keep_current : gc_keep stale when t current_file
  | keep_current_generation g p : read_current t = Ok g -> under (generations_dir // g) p -> gc_keep stale when t p
  | keep_lease g name : live_lease stale when t g name -> gc_keep stale when t (leases_dir // g // name)
  | keep_lease_dir g name : live_lease stale when t g name -> gc_keep stale when t (leases_dir // g)
  | keep_leased g name p : live_lease stale when t g name -> under (generations_dir // g) p -> gc_keep stale when t p.

(** ** Garbage collection *)

Lemma pointer_present k t g : require_node_pointer k t = Ok g -> is_Some (t !! (nodes_dir // k)).
Proof.
  unfold require_node_pointer, read_node_pointer. intros Hr. apply bind_Ok_inv in Hr as (o & Hr & _).
  apply guard_bind_Ok in Hr as [_ Hr]. apply guard_bind_Ok in Hr as [_ Hr]. unfold read_file in Hr.
  destruct (t !! (nodes_dir // k)); [by eexists|done].
Qed.

Lemma read_current_valid t g : read_current t = Ok g -> is_generation g = true.
Proof. unfold read_current. intros Hr. apply bind_Ok_inv in Hr as (x & _ & Hr). apply guard_bind_Ok in Hr as [? Hr]. by simplify_eq. Qed.

Lemma read_current_same t t' : t !! current_file = t' !! current_file -> read_current t = read_current t'.
Proof. intros Ht. unfold read_current, read_file. by rewrite Ht. Qed.

Section gc.
Context (stale : F) (when : Z) (t0 : tree C) (Hok : tree_ok t0).
Abbreviation keep := (gc_keep stale when t0).
Abbreviation K := (kept t0 keep).

Lemma kept_pointer k t g : K t -> require_node_pointer k t0 = Ok g -> require_node_pointer k t = Ok g.
Proof.
  intros HK Hp. rewrite <- Hp. apply require_node_pointer_same, HK. by eapply keep_node.
Qed.

Lemma kept_current t : K t -> read_current t = read_current t0.
Proof. intros HK. apply read_current_same, HK, keep_current. Qed.

(** *** Paths that may change *)

Lemma generation_top g p : under (generations_dir // g) p -> last p = Some "generations"%string.
Proof. intros [r ->]. apply last_two. Qed.

Lemma free_of_top p : last p <> Some "nodes"%string -> last p <> Some "generations"%string -> last p <> Some "CURRENT"%string ->
  last p <> Some "leases"%string -> ~ keep p.
Proof.
  intros Hn Hg Hc Hl Hk. destruct Hk as [|k g Hp|k g p Hp Hu| |g p Hp Hu|g name Hlive|g name Hlive|g name p Hlive Hu]; try done;
    by apply generation_top in Hu.
Qed.

Lemma free_node name : is_digest name = false -> ~ keep (nodes_dir // name).
Proof.
  intros Hn Hk. inversion Hk as [|k g Hp Heq|k g p Hp Hu| |g p Hp Hu|? ? ? Heq|? ? ? Heq|g n p Hlive Hu]; subst; try discriminate.
  - apply require_node_pointer_valid in Hp as [? _]. congruence.
  - by apply generation_top in Hu.
  - by apply generation_top in Hu.
  - by apply generation_top in Hu.
Qed.

(** Below a name in generations/ that nothing refers to *)
Lemma free_generation name p :
  (forall k, require_node_pointer k t0 <> Ok name) -> read_current t0 <> Ok name -> (forall n, ~ live_lease stale when t0 name n) ->
  under (generations_dir // name) p -> ~ keep p.
Proof.
  intros Hno Hcur Hlive Hu Hk. pose proof (generation_top _ _ Hu) as Hl.
  assert (forall g, under (generations_dir // g) p -> g = name) as Hsame.
  { intros g [r Hr]. destruct Hu as [r' Hr']. rewrite Hr in Hr'. by apply generation_names in Hr'. }
  destruct Hk as [|k g Hp|k g p Hp Hu'| |g p Hp Hu'|g n Hlv|g n Hlv|g n p Hlv Hu']; try discriminate;
    apply Hsame in Hu' as ->; [by apply (Hno k)|done|by apply (Hlive n)].
Qed.

Lemma free_staging name p : is_generation name = false -> under (generations_dir // name) p -> ~ keep p.
Proof.
  intros Hn. apply free_generation.
  - intros k Hp. apply require_node_pointer_valid in Hp as [_ ?]. congruence.
  - intros Hp. apply read_current_valid in Hp. congruence.
  - intros n [Hg _]. congruence.
Qed.

Lemma free_lease g name : ~ live_lease stale when t0 g name -> ~ keep (leases_dir // g // name).
Proof.
  intros Hl Hk. inversion Hk as [|k g' Hp Heq|k g' p Hp Hu| |g' p Hp Hu|g' n Hlv Heq|g' n Hlv Heq|g' n p Hlv Hu]; subst; try discriminate; try done;
    by apply generation_top in Hu.
Qed.

Lemma free_lease_dir g : (forall n, ~ live_lease stale when t0 g n) -> ~ keep (leases_dir // g).
Proof.
  intros Hl Hk. inversion Hk as [|k g' Hp Heq|k g' p Hp Hu| |g' p Hp Hu|g' n Hlv Heq|g' n Hlv Heq|g' n p Hlv Hu]; subst; try discriminate;
    try (by apply generation_top in Hu). by apply (Hl n).
Qed.

(** *** The passes *)

Lemma locks_keep : triple K K writer_lock (fun _ => K) /\ triple K K store_lock (fun _ => K).
Proof.
  assert (forall p, (p = [] \/ p = store // ".writer.lock"%string \/ p = store // ".lock"%string) -> ~ keep p) as Hfree
    by (intros p [->|[->| ->]]; by apply free_of_top).
  split; (eapply touches_kept; [|exact Hfree]); unfold writer_lock, store_lock; touch; unfold ancestors, only; intros p Hp;
    try (by apply suffix_nil_inv in Hp as ->; left); subst; auto.
Qed.

Lemma unlink_keeps dry m p : ~ keep p -> triple K K (unlink_unless dry m p) (fun _ => K).
Proof.
  intros Hp. unfold unlink_unless. destruct dry; [apply ret_keeps|]. eapply touches_kept; [apply touches_unlink|]. by intros q ->.
Qed.

Definition indexed_by (gens names : list string) : Prop := forall k g, k ∈ names -> require_node_pointer k t0 = Ok g -> g ∈ gens.

Lemma index_triple dry :
  triple K K (for_names nodes_dir (index_nodes dry) ([], [], []))
    (fun r t => K t /\ forall gens keys removed, r = Ok (gens, keys, removed) -> forall k g, require_node_pointer k t0 = Ok g -> g ∈ gens).
Proof.
  apply for_names_triple; [done|]. intros names t Ht _ Hnames.
  eapply triple_weaken; [apply (triple_fold K (fun don (acc : list string * list string * list string) t => K t /\ indexed_by acc.1.1 don) _ _ _
    (fun _ => K))|by intros t'; split; [|intros k g Hk; by apply elem_of_nil in Hk]|done|].
  - intros don x rest [[gens keys] removed] Hs. unfold index_nodes.
    destruct (starts_with "." x) eqn:Hdot.
    + apply (starts_with_dot "") in Hdot as [n ->]. pose proof (dotted_not_digest n) as Hdot.
      assert (forall removed', indexed_by gens don -> indexed_by (gens, keys, removed' : list string).1.1 (don ++ [("." +:+ n)%string])) as Hext.
      { intros removed' Hi k g Hk Hp. apply elem_of_app in Hk as [Hk|Hk%list_elem_of_singleton]; [by eapply Hi|].
        subst. apply require_node_pointer_valid in Hp as [? _]. congruence. }
      apply triple_bind with (R := fun _ t => K t /\ indexed_by gens don); [apply triple_query; [by intros e t' [? _]|done]|]. intros b.
      destruct b; [|apply triple_ret; intros t' [? ?]; split; [done|by apply (Hext removed)]].
      apply triple_pre with (P := fun t => indexed_by gens don /\ K t); [naive_solver|]. apply triple_pure. intros Hi.
      apply triple_bind with (R := fun _ => K).
      * eapply triple_weaken; [apply unlink_keeps; by apply free_node|done..|]. by intros [].
      * intros []. apply triple_ret. intros t' Ht'. split; [done|by apply (Hext (removed ++ _))].
    + apply triple_bind with (R := fun _ t => K t /\ indexed_by gens don); [apply triple_guard; [done|by intros _ t' [? _]]|]. intros [].
      apply triple_bind with (R := fun gen t => (forall g, require_node_pointer x t0 = Ok g -> gen = g) /\ K t /\ indexed_by gens don).
      { apply triple_query; [by intros e t' [? _]|]. intros t' gen [Ht' Hi] Hg. split_and!; [|done..]. intros g Hp.
        apply (kept_pointer _ t') in Hp; [|done]. congruence. }
      intros gen. apply triple_pure. intros Hgen.
      apply triple_bind with (R := fun _ t => K t /\ indexed_by gens don); [apply triple_query; [by intros e t' [? _]|done]|]. intros b.
      apply triple_bind with (R := fun _ t => K t /\ indexed_by gens don); [apply triple_guard; [done|by intros _ t' [? _]]|]. intros [].
      apply triple_ret. intros t' [Ht' Hi]. split; [done|]. simpl. intros k g Hk Hp.
      apply elem_of_app in Hk as [Hk|Hk%list_elem_of_singleton]; apply elem_of_app; [left; by eapply Hi|right].
      subst. apply list_elem_of_singleton. symmetry. by apply Hgen.
  - intros [acc|e] t' Ht'; [|done]. destruct Ht' as [HK Hi]. split; [done|]. intros gens keys removed [= ->] k g Hp.
    apply (Hi k g); [|done]. rewrite Hnames. apply elem_of_children. rewrite (Ht _ (keep_node stale when t0 k g Hp)). by eapply pointer_present.
Qed.

Lemma kept_lease t g name n now_ns : K t -> live_lease stale when t0 g name ->
  lease_state (F:=F) now_ns (leases_dir // g // name) n t =
  lease_state now_ns (leases_dir // g // name) n t0.
Proof. intros HK Hl. unfold lease_state, read_file. by rewrite (HK _ (keep_lease stale when t0 g name Hl)). Qed.

(** What the code takes for a dead process's old lease is abandoned. *)
Lemma lease_state_dead t g name n age : lease_state (F:=F) when (leases_dir // g // name) n t = Ok (Some (age, true)) ->
  f_leb stale age = true -> abandoned stale when t g name.
Proof.
  unfold lease_state, or_else. destruct (read_file t _ ≫= _) as [r|e] eqn:Hr; [|by destruct (is_decode_error e)].
  intros [= ->] Hage. unfold read_file in Hr. destruct (t !! (leases_dir // g // name)) as [[content| |]|] eqn:Hfile; try done.
  apply bind_Ok_inv in Hr as (c & [= <-] & Hr). apply bind_Ok_inv in Hr as (metadata & Hm & Hr).
  apply bind_Ok_inv in Hr as (created & Hc & Hr). apply bind_Ok_inv in Hr as (created_ns & Hcn & Hr).
  apply bind_Ok_inv in Hr as (host & Hh & Hr). apply bind_Ok_inv in Hr as (dead & Hd & [= <- ->]).
  destruct (eq_text host gethostname) eqn:Hhost; [|done].
  apply bind_Ok_inv in Hd as (pid & Hp & Hd). apply bind_Ok_inv in Hd as (process & Hpn & Hd).
  unfold eq_text in Hhost. destruct host; try done. apply String.eqb_eq in Hhost as ->.
  unfold local_process_is_dead in Hd. destruct (os_kill n process) as [[]|] eqn:Hk; try done.
  by exists content, metadata, created, created_ns, pid, process, n.
Qed.

(** What the pass over a lease directory has established *)
Definition examined (g : string) (don : list string) (surviving : Z) : Prop :=
  0 <= surviving /\ forall name, name ∈ don -> live_lease stale when t0 g name -> 0 < surviving.

Lemma examined_keep g don x n : examined g don n -> examined g (don ++ [x]) (n + 1).
Proof. intros [Hn _]. split; lia. Qed.

Lemma examined_drop g don x n : ~ live_lease stale when t0 g x -> examined g don n -> examined g (don ++ [x]) n.
Proof.
  intros Hx [Hn Hl]. split; [done|]. intros name [Hd|Hd%list_elem_of_singleton]%elem_of_app Hlive; [by eapply Hl|].
  subst. done.
Qed.

Lemma lease_triple dry g don x acc :
  triple K (fun t => examined g don acc.1 /\ K t) (examine_lease dry stale when g acc x)
    (fun r t => match r with Ok acc => examined g (don ++ [x]) acc.1 /\ K t | Err _ => K t end).
Proof.
  destruct acc as [n removed]. apply triple_pure. intros Hex. unfold examine_lease.
  apply triple_bind with (R := fun st t => (forall age, st = Some (age, true) -> f_leb stale age = true -> ~ live_lease stale when t0 g x) /\ K t).
  { intros d Hd. refine (triple_query K K (lease_state when (leases_dir // g // x) (clock d)) (fun r t => match r with
      Ok st => (forall age, st = Some (age, true) -> f_leb stale age = true -> ~ live_lease stale when t0 g x) /\ K t | Err _ => K t end) _ _ d Hd);
      [done|]. intros t st Ht Hst. split; [|done]. intros age -> Hage Hl. rewrite (kept_lease t g x) in Hst by done.
    destruct Hl as (_ & _ & Hl). by eapply Hl, lease_state_dead. }
  intros st. apply triple_pure. intros Hst. destruct st as [[age [|]]|]; simpl; rewrite ?andb_true_r, ?andb_false_r;
    try (apply triple_ret; intros t Ht; split; [by apply examined_keep|done]).
  destruct (f_leb stale age) eqn:Hage; [|apply triple_ret; intros t Ht; split; [by apply examined_keep|done]].
  specialize (Hst age eq_refl Hage). apply triple_bind with (R := fun _ => K).
  - eapply triple_weaken; [apply unlink_keeps; by apply free_lease|done..|]. by intros [].
  - intros []. apply triple_ret. intros t Ht. split; [by apply examined_drop|done].
Qed.

(** A generation in use, or not in the shape of one, is passed over. *)
Definition referenced (g : string) : Prop := (exists k, require_node_pointer k t0 = Ok g) \/ read_current t0 = Ok g.

Lemma generation_triple dry current indexed report g :
  read_current t0 = Ok current -> (forall k h, require_node_pointer k t0 = Ok h -> h ∈ indexed) ->
  triple K K (examine_generation dry stale when current indexed report g) (fun _ => K).
Proof.
  intros Hcur Hix. unfold examine_generation. destruct (starts_with ".staging-" g) eqn:Hst.
  { apply (starts_with_dot "staging-") in Hst as [n ->]. apply keeps_seq; [apply query_keeps|]. intros []; [|apply ret_keeps].
    apply keeps_seq; [|intros; apply ret_keeps]. destruct dry; [apply ret_keeps|]. eapply touches_kept; [apply touches_rmtree|].
    intros p. apply free_staging, dotted_not_generation. }
  destruct (_ || _) eqn:Hskip; [apply ret_keeps|]. apply orb_false_iff in Hskip as [[Hc Hi]%orb_false_iff Hg%negb_false_iff].
  apply String.eqb_neq in Hc. apply bool_decide_eq_false in Hi.
  assert (forall p, (forall n, ~ live_lease stale when t0 g n) -> under (generations_dir // g) p -> ~ keep p) as Hfree.
  { intros p Hn. apply free_generation; [|congruence|done]. intros k Hk. by eapply Hi, Hix. }
  assert (forall n, live_lease stale when t0 g n -> t0 !! (leases_dir // g) = Some Dir) as Hdir.
  { intros n (_ & Hn & _). by eapply Hok. }
  apply (keeps_read (fun link => link = false -> forall t n, K t -> live_lease stale when t0 g n -> is_dir t (leases_dir // g) = true)).
  { intros _ _ _ _ _ t n Ht Hl. unfold is_dir. by rewrite (Ht _ (keep_lease_dir stale when t0 g n Hl)), (Hdir n). }
  intros link Hlink.
  apply (keeps_read (fun b => link = false -> b = false -> forall n, ~ live_lease stale when t0 g n)).
  { intros t b Ht [= <-] Hl Hb n Hn. by rewrite (Hlink Hl t n Ht Hn) in Hb. }
  intros directory Hdirectory.
  apply triple_bind with (R := fun r t => (r.1 = false -> forall n, ~ live_lease stale when t0 g n) /\ K t).
  - destruct link; [by apply triple_ret|]. destruct directory; [|apply triple_ret; intros t Ht; split; [|done]; intros _; by apply Hdirectory].
    apply triple_bind with (R := fun r t => ((0 <? r.1) = false -> forall n, ~ live_lease stale when t0 g n) /\ K t);
      [|intros r; apply triple_ret; done].
    apply for_names_triple; [done|]. intros names t Ht _ Hnames.
    eapply triple_weaken; [apply (triple_fold K (fun don (acc : Z * list (string * string)) t => examined g don acc.1 /\ K t)
      _ names (0, []) (fun _ => K))| |done|].
    + intros don x rest acc _. apply lease_triple.
    + intros t' Ht'. split; [|done]. split; [done|]. intros n Hn. by apply elem_of_nil in Hn.
    + intros [acc|e] t' Ht'; [|done]. destruct Ht' as [[Hn Hl] HK]. split; [|done]. intros Hz n Hlive. apply Z.ltb_ge in Hz.
      enough (0 < acc.1) by lia. apply (Hl n); [|done]. rewrite Hnames. apply elem_of_children.
      rewrite (Ht _ (keep_lease stale when t0 g n Hlive)). by destruct Hlive as (_ & ? & _).
  - intros [has removed]. apply triple_pure. intros Hno. simpl in Hno. apply keeps_seq; [apply query_keeps|]. intros present.
    destruct (negb has && present) eqn:Hb; [|apply ret_keeps]. apply andb_true_iff in Hb as [Hhas%negb_true_iff _]. specialize (Hno Hhas).
    apply keeps_seq; [|intros; apply ret_keeps]. destruct dry; [apply ret_keeps|].
    apply keeps_seq; [eapply touches_kept; [apply touches_rmtree|]; intros p; by apply Hfree|]. intros _.
    apply keeps_seq; [apply query_keeps|]. intros []; [|apply ret_keeps]. eapply touches_kept; [apply touches_rmdir|].
    intros p ->. by apply free_lease_dir.
Qed.

Lemma pointer_triple dry report name : triple K K (examine_pointer dry report name) (fun _ => K).
Proof.
  unfold examine_pointer. destruct (starts_with ".CURRENT-" name) eqn:Hs; [|apply ret_keeps].
  apply (starts_with_dot "CURRENT-") in Hs as [n ->]. apply keeps_seq; [apply query_keeps|]. intros []; [|apply ret_keeps].
  apply keeps_seq; [|intros; apply ret_keeps]. by apply unlink_keeps, free_of_top.
Qed.

Lemma metadata_triple dry cutoff keys dir report name : dir ∈ ["access"; "admission"]%string ->
  triple K K (examine_metadata dry cutoff keys dir report name) (fun _ => K).
Proof.
  intros Hd. unfold examine_metadata. destruct (metadata_key name); [|apply ret_keeps].
  apply keeps_seq; [apply query_keeps|]. intros file. destruct (_ || _); [apply ret_keeps|]. apply keeps_seq.
  - apply triple_catch with (R := fun _ => K).
    + eapply triple_weaken; [apply (query_at_keeps K K (fun n _ => Ok (st_mtime_ns n (store // dir // name) <=? cutoff)))|done..|].
      by intros [].
    + intros e. destruct (is_OSError e); [apply ret_keeps|by apply triple_raise].
  - intros []; [|apply ret_keeps]. apply keeps_seq; [|intros; apply ret_keeps]. apply unlink_keeps, free_of_top;
      set_unfold; destruct Hd as [->|[->|[]]]; done.
Qed.

(** The time a collection compares with: the clock when it has its locks and has
    read CURRENT. *)
Definition collection_time (d : disk C) : Z := time_ns (clock ((_ ← writer_lock; _ ← store_lock; query read_current) d).1).

Lemma collect_at retention dry d : K (now d) -> when = collection_time d ->
  let '(d', r) := collect_garbage (F:=F) stale retention dry d in
  K (now d') /\ exists ts, trace d' = trace d ++ ts /\ Forall K ts.
Proof.
  intros HK Hwhen. unfold collect_garbage. rewrite !guard_at.
  assert (K (now d) /\ exists ts, trace d = trace d ++ ts /\ Forall K ts) as Hstay.
  { split; [done|]. exists []. by rewrite app_nil_r. }
  destruct (non_negative stale); [|done]. destruct (non_negative retention); [|done]. clear Hstay.
  destruct locks_keep as [Hw Hs]. rewrite bind_prefix.
  apply (triple_timed (fun current => read_current t0 = Ok current) K K (fun _ => K)); [done| |].
  { apply triple_seq with (Q := K); [done..|]. intros _. apply triple_seq with (Q := K); [done..|]. intros _.
    apply triple_query; [done|]. intros t a Ht Ha. split; [|done]. rewrite <- Ha. symmetry. by apply kept_current. }
  intros current Hcur. fold (collection_time d). rewrite <- Hwhen.
  apply keeps_seq; [apply query_keeps|]. intros link.
  apply keeps_seq; [apply guard_keeps|]. intros _.
  apply (keeps_read (fun b => b = false -> forall k g, require_node_pointer k t0 <> Ok g)).
  { intros t b Ht [= <-] Hb k g Hp. apply pointer_present in Hp. apply Hok in Hp. unfold is_dir in Hb.
    by rewrite (Ht _ (keep_nodes stale when t0)), Hp in Hb. }
  intros directory Hdir.
  apply triple_bind with (R := fun r t => (forall k g, require_node_pointer k t0 = Ok g -> g ∈ r.1.1) /\ K t).
  { destruct directory; [|apply triple_ret; intros t Ht; split; [|done]; intros k g Hk; by apply Hdir in Hk].
    eapply triple_weaken; [apply index_triple|done..|]. intros [[[gens keys] removed]|e] t [Ht Hi]; [|done].
    split; [|done]. by eapply Hi. }
  intros [[gens keys] removed]. apply triple_pure. intros Hix. simpl in Hix.
  apply keeps_seq; [apply for_names_triple; [done|]; intros; apply fold_keeps; intros; by apply generation_triple|]. intros report.
  apply keeps_seq; [apply for_names_triple; [done|]; intros; apply fold_keeps; intros; apply pointer_triple|]. intros report'.
  apply keeps_seq; [by apply triple_lift|]. intros ret. apply keeps_seq.
  - apply fold_keeps. intros acc dir Hd. apply keeps_seq; [apply query_keeps|]. intros ?. apply keeps_seq; [apply guard_keeps|]. intros _.
    apply keeps_seq; [apply query_keeps|]. intros []; [|apply ret_keeps]. apply for_names_triple; [done|]. intros.
    apply fold_keeps. intros. by apply metadata_triple.
  - intros report''. apply keeps_seq; [|intros; apply ret_keeps].
    eapply (touches_kept t0 keep (fun _ => False)); [|by intros p []]. touch.
Qed.
End gc.

(** What collection may not change, as a reader sees it *)
Definition collected_safely (stale : F) (when : Z) t0 t : Prop :=
  (forall k v, load_node (F:=F) k t0 = Ok v -> load_node k t = Ok v) /\
  read_current t = read_current t0 /\
  (forall g expected required, (read_current t0 = Ok g \/ exists name, live_lease stale when t0 g name) ->
     load_generation (F:=F) g expected required t = load_generation g expected required t0) /\
  (forall g name, live_lease stale when t0 g name -> t !! (leases_dir // g // name) = t0 !! (leases_dir // g // name)).

Lemma kept_collected stale when t0 t : kept t0 (gc_keep stale when t0) t -> collected_safely stale when t0 t.
Proof.
  intros HK. split_and!.
  - intros k v Hl. rewrite <- Hl. symmetry. apply bind_Ok_inv in Hl as Hg. destruct Hg as (g & Hp & _). unfold load_node.
    rewrite (kept_pointer stale when t0 k t g) by done. rewrite Hp. simpl. apply load_generation_same. intros q Hq. symmetry.
    by eapply HK, keep_indexed.
  - by eapply kept_current.
  - intros g ? ? [Hg|[name Hl]]; apply load_generation_same; intros q Hq; apply HK; [by eapply keep_current_generation|by eapply keep_leased].
  - intros g name Hl. by apply HK, keep_lease.
Qed.

Lemma touches_query_at {A : Type} S (f : nat -> tree C -> result A) : touches S (fun d => query (f (clock d)) d).
Proof. intros t0. apply query_at_keeps. Qed.

Lemma touches_for_names {A : Type} S dir (body : A -> string -> ST (disk C) A) acc :
  (forall acc x, touches S (body acc x)) -> touches S (for_names dir body acc).
Proof. intros Hb. apply touches_bind; [apply touches_iterdir|]. intros names. by apply touches_fold. Qed.

Definition locks p : Prop := p = store \/ p = store // ".writer.lock"%string \/ p = store // ".lock"%string.

Lemma touches_locks : touches locks writer_lock /\ touches locks store_lock.
Proof.
  split; unfold writer_lock, store_lock; touch; unfold ancestors, only, locks; intros p Hp; subst; auto;
    apply suffix_nil_inv in Hp as ->; by left.
Qed.

Lemma collect_dry stale retention : touches locks (collect_garbage (F:=F) stale retention true).
Proof.
  unfold collect_garbage, index_nodes, examine_generation, examine_lease, examine_pointer, examine_metadata, unlink_unless.
  cbv beta iota. destruct touches_locks as [Hw Hs]. repeat first
    [exact Hw | exact Hs | apply touches_for_names; intros ? ? | apply (touches_query_at _ (fun n => lease_state _ _ n))
    |apply (touches_query_at _ (fun n _ => Ok (st_mtime_ns n _ <=? _))) | touch_step].
Qed.

(** C20: Garbage collection loses nothing in use.  Whatever call fails and wherever the
    process dies, at each moment every node of the index opens exactly as before,
    CURRENT names the same generation, that generation and every generation with a
    live lease loads exactly as before, and those leases are where they were.  A
    lease is live unless its readable record names this host, a process that does
    not exist, and a time at least [stale] seconds before the one at which the
    collection, holding its locks, reads the clock.  A dry run changes only the
    lock files. *)
Theorem collect_garbage_safe (stale retention : F) dry (d : disk C) : tree_ok (now d) ->
  let '(d', r) := collect_garbage stale retention dry d in
  collected_safely stale (collection_time d) (now d) (now d') /\
  (exists ts, trace d' = trace d ++ ts /\ Forall (collected_safely stale (collection_time d) (now d)) ts) /\
  (dry = true -> same_outside locks (now d) (now d')).
Proof.
  intros Hok. pose proof (collect_at stale (collection_time d) (now d) Hok retention dry d) as Ht.
  pose proof (collect_dry stale retention (now d) d) as Hd.
  destruct dry; [|clear Hd]; destruct (collect_garbage _ _ _ d) as [d' r];
    (destruct Ht as (Ht & ts & Htr & Hts); [done..|]; split_and!; [by apply kept_collected| |]).
  1,3: exists ts; split; [done|]; eapply Forall_impl; [exact Hts|]; intros t; apply kept_collected.
  - intros _. by destruct Hd.
  - done.
Qed.
End facts.

(** ** Witnesses *)

Definition rooted {C} (t : tree C) : bool :=
  forallb (fun x => match x.1 with [] => true | _ :: p => is_dir t p end) (map_to_list t).

Lemma rooted_ok {C} (t : tree C) : rooted t = true -> tree_ok t.
Proof.
  unfold rooted. intros Hr p n [x Hx]. apply elem_of_map_to_list in Hx. rewrite forallb_forall in Hr.
  specialize (Hr _ (proj1 (list_elem_of_In _ _) Hx)). simpl in Hr. unfold is_dir in Hr. by destruct (t !! p) as [[]|].
Qed.

(** Node "a" published, and published again in place of the first generation; then
    node "b" published *)
Definition key_a : string := node_key (held_node "a" []).
Definition publish_twice : ST (disk held) (string * string * string) :=
  g1 ← publish_generation key_a witness_columns (Some (held_node "a" [])) None false;
  g2 ← publish_generation key_a witness_columns (Some (held_node "a" [])) (Some g1) false;
  g3 ← publish_generation (node_key (held_node "b" [])) witness_columns (Some (held_node "b" [])) None false;
  mret (g1, g2, g3).
Definition two_nodes : disk held := (publish_twice fresh_disk).1.
Definition collected : disk held * result gc_report := collect_garbage (F:=XQ) f_zero f_zero false two_nodes.

Lemma collect_garbage_safe_witness : is_ok collected.2 = true /\ length (children (now two_nodes) generations_dir) = 3%nat /\
  length (children (now collected.1) generations_dir) = 2%nat /\ is_ok (load_node (F:=XQ) key_a (now collected.1)) = true.
Proof.
  assert (is_ok (load_node (F:=XQ) key_a (now two_nodes)) = true) as Hl by (vm_compute; reflexivity).
  assert (rooted (now two_nodes) = true) as Hr by (vm_compute; reflexivity).
  pose proof (collect_garbage_safe (F:=XQ) f_zero f_zero false two_nodes (rooted_ok _ Hr)) as Hsafe.
  assert (is_ok collected.2 = true) as Hok by (vm_compute; reflexivity).
  assert (length (children (now two_nodes) generations_dir) = 3%nat) as H3 by (vm_compute; reflexivity).
  assert (length (children (now collected.1) generations_dir) = 2%nat) as H2 by (vm_compute; reflexivity).
  split_and!; [exact Hok|exact H3|exact H2|]. unfold collected in *. destruct (collect_garbage _ _ _ _) as [d' r].
  destruct Hsafe as ((Hsafe & _) & _). destruct (load_node key_a (now two_nodes)) as [v|] eqn:Hv; [|discriminate Hl].
  simpl. by rewrite (Hsafe _ _ Hv).
Defined.
