(* ===== verification/EvictionFacts.v ===== *)
(** * What eviction promises

    A node that is evicted is a miss from the first moment, never a broken entry;
    the current and the leased generations stay; what goes are the least recently
    used nodes, as long as a limit is exceeded. *)

From S2P Require Import Prelude Numeric FactorIdentity FactorIdentityFacts Fs CacheFiles CacheWitness Metrics MetricsFacts.
From S2P Require Import FactorStore FactorStoreFacts StoreCleanup StoreCleanupFacts.

#[local] Open Scope Z_scope.

Section facts.
Context {F C : Type} `{PyFloat F} `{JsonText F C} `{!JsonTextLaws F C} `{Sha256 C} `{CacheFiles F C} `{!CacheFilesLaws F C}
  `{Host C} `{World} `{!WorldLaws}.
Implicit Types (t : tree C) (p q : path) (I P : tree C -> Prop) (x : node_entry).

(** ** Reading the index *)

Lemma children_nil t p : children t p = [] <-> forall n, t !! (p // n) = None.
Proof.
  split.
  - intros Hc n. apply eq_None_not_Some. intros Hn%elem_of_children. rewrite Hc in Hn. by apply elem_of_nil in Hn.
  - intros Hn. apply elem_of_nil_inv. intros n Hin%elem_of_children. rewrite Hn in Hin. by destruct Hin.
Qed.

Lemma leased_same g t t' : (forall p, under (leases_dir // g) p -> t !! p = t' !! p) -> leased g t = leased g t'.
Proof.
  intros Ht. unfold leased, is_symlink, is_dir. rewrite (Ht (leases_dir // g)) by by exists []. f_equal. f_equal. f_equal.
  apply bool_decide_ext. rewrite !children_nil. assert (forall n, t !! (leases_dir // g // n) = t' !! (leases_dir // g // n)) as Hn
    by (intros n; apply Ht; by exists [n]). split; intros Hc n; [rewrite <- Hn|rewrite Hn]; done.
Qed.

(** The manifest of [g] is that of the node [k] *)
Definition names_key t g k : Prop :=
  exists m v, (c ← read_file t (generations_dir // g // "manifest.json"%string); json_loads (F:=F) c) = Ok m /\
    vget m "node_key" = Ok v /\ opt_eq_text v k = true.

Lemma names_key_unique t g k k' : names_key t g k -> names_key t g k' -> k = k'.
Proof.
  intros (m & v & Hm & Hv & Hk) (m' & v' & Hm' & Hv' & Hk'). rewrite Hm in Hm'. injection Hm' as <-. rewrite Hv in Hv'. injection Hv' as <-.
  destruct v as [[]|]; try discriminate. apply String.eqb_eq in Hk, Hk'. congruence.
Qed.

Lemma raise_from_Ok {A} (handled : exn -> bool) (r : result A) (e : exn) a : raise_from handled r e = Ok a -> r = Ok a.
Proof. unfold raise_from. destruct r; [done|]. by destruct (handled _). Qed.

(** ** Sums over a tree *)

(** The sum of [cost] over the entries whose paths satisfy [S] *)
Definition tree_sum (cost : entry C -> Z) (S : path -> Prop) `{forall p, Decision (S p)} t : Z :=
  foldr Z.add 0 ((fun y => cost y.2) <$> filter (fun y => S y.1) (map_to_list t)).

(** The bytes of a file, and the bytes of the blocks of anything but a link *)
Definition file_bytes (e : entry C) : Z := match e with File c => st_size c | _ => 0 end.
Definition disk_bytes (e : entry C) : Z := match e with Link => 0 | e => st_blocks e * 512 end.

#[local] Instance sum_proper : Proper ((≡ₚ) ==> (=)) (foldr Z.add 0).
Proof. intros l l' Hl. induction Hl; simpl; lia. Qed.

Lemma tree_sum_filter cost S `{forall p, Decision (S p)} t :
  tree_sum cost S t = foldr Z.add 0 ((fun y => cost y.2) <$> map_to_list (filter (fun y => S y.1) t)).
Proof.
  unfold tree_sum. rewrite map_filter_alt, map_to_list_to_map; [done|].
  eapply sublist_NoDup; [apply (NoDup_fst_map_to_list t)|apply (fmap_sublist fst), sublist_filter].
Qed.

Lemma tree_sum_same cost S `{forall p, Decision (S p)} t t' : (forall p, S p -> t !! p = t' !! p) -> tree_sum cost S t = tree_sum cost S t'.
Proof.
  intros Ht. rewrite !tree_sum_filter. do 3 f_equal. apply map_eq. intros p. apply option_eq. intros e.
  rewrite !map_lookup_filter_Some. simpl. split; intros [Hp HS]; (split; [|done]); by rewrite ?Ht, <- ?Ht in *.
Qed.

Lemma tree_sum_ext cost S S' `{forall p, Decision (S p)} `{forall p, Decision (S' p)} t :
  (forall p e, t !! p = Some e -> S p <-> S' p) -> tree_sum cost S t = tree_sum cost S' t.
Proof.
  intros HS. rewrite !tree_sum_filter. do 3 f_equal. apply map_eq. intros p. apply option_eq. intros e.
  rewrite !map_lookup_filter_Some. simpl. split; intros [Hp ?]; (split; [done|]); by apply (HS p e).
Qed.

Lemma tree_sum_or cost S S' `{forall p, Decision (S p)} `{forall p, Decision (S' p)} t : (forall p, S p -> S' p -> False) ->
  tree_sum cost (fun p => S p \/ S' p) t = tree_sum cost S t + tree_sum cost S' t.
Proof.
  intros Hd. unfold tree_sum. induction (map_to_list t) as [|[p e] l IH]; [done|]. rewrite !filter_cons. csimpl.
  specialize (Hd p). repeat case_decide; csimpl; first [exfalso; tauto|lia].
Qed.

Lemma tree_sum_one cost p t : tree_sum cost (fun q => q = p) t = from_option cost 0 (t !! p).
Proof.
  rewrite tree_sum_filter. destruct (t !! p) as [e|] eqn:Hp; simpl.
  - replace (filter _ t) with ({[p := e]} : tree C); [rewrite map_to_list_singleton; simpl; lia|]. symmetry. apply map_eq. intros q.
    apply option_eq. intros e'. rewrite map_lookup_filter_Some, lookup_singleton_Some. simpl. naive_solver.
  - replace (filter _ t) with (∅ : tree C); [by rewrite map_to_list_empty|]. symmetry. apply map_empty. intros q.
    apply map_lookup_filter_None. right. simpl. intros e He Hq. congruence.
Qed.

(** ** What the store holds of a node *)

Definition access_file k : path := store // "access"%string // (k +:+ ".json")%string.
Definition admission_file k : path := store // "admission"%string // (k +:+ ".json")%string.

(** The access file of [k] records a use of its generation [g] at [a], which is not
    after the clock at call [n]. *)
Definition access_record t k g n (a : Z) : Prop :=
  exists c l version, t !! access_file k = Some (File c) /\ json_loads (F:=F) c = Ok (VMap l) /\
    dict_get l (Some "format"%string) = Some (VStr "gambit-factor-access") /\
    dict_get l (Some "version"%string) = Some version /\ eq_int version 1 = true /\
    dict_get l (Some "node_key"%string) = Some (VStr k) /\ dict_get l (Some "generation"%string) = Some (VStr g) /\
    dict_get l (Some "last_access_ns"%string) = Some (VInt a) /\ 0 <= a <= time_ns n.

(** When [g] was created: what its manifest says, or else the manifest's own age *)
Definition created_at t g n (z : Z) : Prop :=
  exists l, (c ← read_file t (generations_dir // g // "manifest.json"%string); json_loads (F:=F) c) = Ok (VMap l) /\ 0 <= z /\
    (dict_get l (Some "created_ns"%string) = Some (VInt z) \/
     dict_get l (Some "created_ns"%string) = None /\ z = st_mtime_ns n (generations_dir // g // "manifest.json"%string)).

(** When [k] was last used: its access record, and without one its creation *)
Definition last_used t k g n (z : Z) : Prop :=
  access_record t k g n z \/ (forall a, ~ access_record t k g n a) /\ created_at t g n z.

(** The files of [k] on disk: its generation, pointer, access and admission records, and
    the lease directory when nothing holds a lease *)
Definition node_path t k g p : Prop :=
  generations_dir // g `suffix_of` p \/ p = nodes_dir // k \/ p = access_file k \/ p = admission_file k \/
  (p = leases_dir // g /\ is_dir t p = true /\ children t p = []).
#[local] Instance node_path_dec t k g p : Decision (node_path t k g p).
Proof. unfold node_path. apply _. Defined.

(** The entries of the directory [q] *)
Definition entry_of q p : Prop := match p with [] => False | _ :: r => r = q end.
#[local] Instance entry_of_dec q p : Decision (entry_of q p).
Proof. destruct p; simpl; apply _. Defined.

Lemma NoDup_children t p : NoDup (children t p).
Proof.
  unfold children. pose proof (NoDup_fst_map_to_list t) as Hn. induction (map_to_list t) as [|[q e] l IH]; simpl; [constructor|].
  apply NoDup_cons in Hn as [Hq Hn]. specialize (IH Hn). destruct q as [|n q]; [done|]. case_decide as Heq; [|done]. subst q. simpl.
  apply NoDup_cons. split; [|done]. intros ([q' e'] & Hin & Hs)%list_elem_of_omap. apply Hq, list_elem_of_fmap. exists (q', e'). split; [|done].
  simpl in *. destruct q' as [|m q']; [done|]. case_decide; naive_solver.
Qed.

Lemma generation_stored_bytes_spec t p z : generation_stored_bytes p t = Ok z -> z = tree_sum file_bytes (entry_of p) t.
Proof.
  unfold generation_stored_bytes. intros [_ Hz]%guard_bind_Ok.
  assert (forall names acc, foldE (fun total name => whenever is_symlink t (p // name) raise FactorStoreError "factor generation may not use symbolic links" ;;
    Ok (match t !! (p // name) with Some (File c) => total + st_size c | _ => total end)) acc names = Ok z ->
    z = acc + foldr Z.add 0 ((fun name => from_option file_bytes 0 (t !! (p // name))) <$> names)) as Hfold.
  { clear Hz. induction names as [|name names IH]; intros acc Hz; csimpl in *; [injection Hz as ->; lia|].
    apply bind_Ok_inv in Hz as (acc' & [_ Ha]%guard_bind_Ok & Hz). apply Ok_inj in Ha. rewrite (IH _ Hz), <- Ha.
    destruct (t !! (p // name)) as [[]|]; simpl; lia. }
  apply Hfold in Hz as ->. unfold tree_sum, children. clear Hfold.
  assert (Forall (fun y => t !! y.1 = Some y.2) (map_to_list t)) as Hall by (apply Forall_forall; intros [q e] Hin; by apply elem_of_map_to_list in Hin).
  rewrite Z.add_0_l. induction (map_to_list t) as [|[q e] l IH]; [done|]. apply Forall_cons in Hall as [Hq Hall]. simpl in Hq.
  rewrite filter_cons. csimpl. case_decide as Hd; destruct q as [|n q]; simpl in Hd; try done.
  - rewrite decide_True by done. csimpl. rewrite Hd in *. simpl. rewrite Hq. simpl. by rewrite <- IH.
  - by apply IH.
  - rewrite decide_False by done. by apply IH.
Qed.

Lemma blocks_of_spec t p : blocks_of p t = from_option disk_bytes 0 (t !! p).
Proof. unfold blocks_of. by destruct (t !! p) as [[]|]. Qed.

Lemma allocated_bytes_spec t p : allocated_bytes p t = tree_sum disk_bytes (fun q => p `suffix_of` q /\ q <> p) t.
Proof. unfold allocated_bytes, tree_sum. f_equal. apply list_fmap_ext. by intros i [q []] _. Qed.

Lemma generation_blocks t p : allocated_bytes p t + blocks_of p t = tree_sum disk_bytes (fun q => p `suffix_of` q) t.
Proof.
  rewrite allocated_bytes_spec, blocks_of_spec, <- tree_sum_one.
  rewrite <- tree_sum_or by naive_solver. apply tree_sum_ext. intros q e _. destruct (decide (q = p)) as [->|]; naive_solver.
Qed.

Lemma store_bytes t : allocated_bytes store t = tree_sum disk_bytes (fun p => p <> store) t.
Proof. rewrite allocated_bytes_spec. apply tree_sum_ext. intros p e _. split; [by intros []|]. split; [apply suffix_nil|done]. Qed.

Lemma reclaimable_spec t k g z : node_reclaimable_allocated_bytes k g t = Ok z -> z = tree_sum disk_bytes (node_path t k g) t.
Proof.
  unfold node_reclaimable_allocated_bytes. intros [_ Hz]%guard_bind_Ok. cbv zeta in Hz. apply Ok_inj in Hz as <-.
  rewrite generation_blocks. change (store // "access"%string // (k +:+ ".json")%string) with (access_file k).
  change (store // "admission"%string // (k +:+ ".json")%string) with (admission_file k).
  rewrite (blocks_of_spec t (nodes_dir // k)), (blocks_of_spec t (access_file k)), (blocks_of_spec t (admission_file k)), <- !tree_sum_one.
  assert (forall p, generations_dir // g `suffix_of` p -> last p = Some "generations"%string) as Hlast by (intros p [r ->]; apply last_two).
  assert ((if is_dir t (leases_dir // g) && bool_decide (children t (leases_dir // g) = []) then blocks_of (leases_dir // g) t else 0) =
    tree_sum disk_bytes (fun p => p = leases_dir // g /\ is_dir t p = true /\ children t p = []) t) as ->.
  { destruct (is_dir t _ && _) eqn:Hd.
    - apply andb_true_iff in Hd as [Hd Hc%bool_decide_eq_true]. rewrite blocks_of_spec, <- tree_sum_one. apply tree_sum_ext. naive_solver.
    - symmetry. transitivity (tree_sum disk_bytes (fun _ => False) t).
      + apply tree_sum_ext. intros p e _. split; [|done]. intros (-> & Hd' & Hc). by rewrite Hd', Hc in Hd.
      + unfold tree_sum. induction (map_to_list t) as [|? l IH]; [done|]. rewrite filter_cons. by case_decide. }
  unfold node_path. rewrite <- !Z.add_assoc, <- !tree_sum_or; [done|..]; intros p; unfold nodes_dir, leases_dir, access_file, admission_file, store;
    intros Hp; intros Hq; try (apply Hlast in Hp); naive_solver.
Qed.

Lemma opt_eq_text_Some (v : option (value F)) s : opt_eq_text v s = true -> v = Some (VStr s).
Proof. destruct v as [[]|]; try discriminate. by intros ->%String.eqb_eq. Qed.

Lemma last_access_spec t k g created n z : read_node_last_access k g created (time_ns n) t = Ok z ->
  access_record t k g n z \/ (forall a, ~ access_record t k g n a) /\ z = created.
Proof.
  unfold read_node_last_access. change (store // "access"%string // (k +:+ ".json")%string) with (access_file k). cbv zeta.
  destruct (is_symlink t (access_file k)) eqn:Hlink.
  { intros [= <-]. right. split; [|done]. intros a (c & l & v & Hc & _). unfold is_symlink in Hlink. by rewrite Hc in Hlink. }
  unfold or_else, read_file. destruct (t !! access_file k) as [[c| |]|] eqn:Hf; simpl.
  2-4: intros Hz; right; (split; [intros a (c & l & v & Hc & _); congruence|by injection Hz]).
  destruct (json_loads c) as [v|e] eqn:Hj; simpl.
  2: { intros Hz. right. split; [intros a (c' & l & v & Hc & Hl & _); congruence|]. destruct (is_read_error e || _); congruence. }
  assert (forall a, access_record t k g n a -> exists l, v = VMap l /\ opt_eq_text (dict_get l (Some "format"%string)) "gambit-factor-access" &&
    opt_eq_int (F:=F) (dict_get l (Some "version"%string)) 1 && opt_eq_text (dict_get l (Some "node_key"%string)) k &&
    opt_eq_text (dict_get l (Some "generation"%string)) g = true /\ dict_get l (Some "last_access_ns"%string) = Some (VInt a) /\ 0 <= a <= time_ns n) as Hrec.
  { intros a (c' & l & version & Hc & Hl & E1 & E2 & E2' & E3 & E4 & E5). rewrite Hf in Hc. injection Hc as <-. rewrite Hj in Hl. injection Hl as ->.
    exists l. rewrite E1, E2, E3, E4. simpl. by rewrite E2', !String.eqb_refl. }
  destruct v as [| | | | | |l|]; try (intros [= <-]; right; (split; [intros a (? & [=] & _)%Hrec|done])).
  destruct (_ && _) eqn:Hg in |- *; cycle 1.
  { intros [= <-]. right. split; [|done]. intros a (l' & [= <-] & Hg' & _)%Hrec. congruence. }
  destruct (dict_get l (Some "last_access_ns"%string)) as [w|] eqn:Hl; cycle 1.
  { intros [= <-]. right. split; [|done]. intros a (l' & [= <-] & _ & ? & _)%Hrec. congruence. }
  destruct w as [| |a| | | | |]; simpl; try (intros [= <-]; right; (split; [intros a' (l' & [= <-] & _ & ? & _)%Hrec; congruence|done])).
  destruct ((0 <=? a) && (a <=? time_ns n)) eqn:Hb; intros [= <-].
  - left. apply andb_true_iff in Hg as [[[E1 E2]%andb_true_iff E3]%andb_true_iff E4].
    destruct (dict_get l (Some "version"%string)) as [version|] eqn:Hv; [|done].
    exists c, l, version. split_and!; try done; try (by apply opt_eq_text_Some); lia.
  - right. split; [|done]. intros b (l' & [= <-] & _ & Hb' & ?)%Hrec. rewrite Hl in Hb'. injection Hb' as <-. lia.
Qed.

Section evict.
Context (t0 : tree C) (Hok : tree_ok t0) (current : string) (Hcurrent : read_current t0 = Ok current).

(** The tree while nodes are examined *)
Abbreviation L := (same_outside locks t0).

(** The entry is what the store holds of its node. *)
Definition entry_ok x : Prop :=
  require_node_pointer (ne_key x) t0 = Ok (ne_generation x) /\ names_key t0 (ne_generation x) (ne_key x) /\
  ne_protected x = (String.eqb (ne_generation x) current || leased (ne_generation x) t0) /\
  ne_stored_bytes x = tree_sum file_bytes (entry_of (generations_dir // ne_generation x)) t0 /\
  ne_allocated_bytes x = tree_sum disk_bytes (node_path t0 (ne_key x) (ne_generation x)) t0 /\
  exists n, last_used t0 (ne_key x) (ne_generation x) n (ne_last_access_ns x).

Lemma not_lock p : (1 < length p)%nat -> ~ locks p.
Proof. intros Hp [->|[->| ->]]; simpl in Hp; lia. Qed.

Lemma L_pointer t k : L t -> require_node_pointer k t = require_node_pointer k t0.
Proof. intros Ht. apply require_node_pointer_same, Ht, not_lock. simpl. lia. Qed.

Lemma L_leased t g : L t -> leased g t = leased g t0.
Proof. intros Ht. apply leased_same. intros p Hu%suffix_length. apply Ht, not_lock. simpl in Hu. lia. Qed.

Lemma L_lookup t n m p : L t -> t !! (p // m // n) = t0 !! (p // m // n).
Proof. intros Ht. apply Ht, not_lock. simpl. lia. Qed.

Lemma L_last_used t k g n z : L t -> last_used t k g n z -> last_used t0 k g n z.
Proof.
  intros Ht. assert (forall a, access_record t k g n a <-> access_record t0 k g n a) as Ha
    by (intros a; unfold access_record, access_file; by rewrite (L_lookup t)).
  intros [Hz%Ha|(Hz & l & Hl & Hc)]; [by left|]. right. split; [intros a Hr%Ha; by eapply Hz|]. exists l. split; [|done].
  rewrite <- Hl. unfold read_file, generations_dir. by rewrite (L_lookup t).
Qed.

Lemma L_stored t g : L t -> tree_sum file_bytes (entry_of (generations_dir // g)) t = tree_sum file_bytes (entry_of (generations_dir // g)) t0.
Proof. intros Ht. apply tree_sum_same. intros [|m p]; [done|]. intros ->. by apply L_lookup. Qed.

Lemma L_node_path t k g p : L t -> node_path t k g p <-> node_path t0 k g p.
Proof.
  intros Ht. assert (is_dir t (leases_dir // g) = is_dir t0 (leases_dir // g)) as Hd by (unfold is_dir, leases_dir; by rewrite (L_lookup t)).
  assert (children t (leases_dir // g) = [] <-> children t0 (leases_dir // g) = []) as Hc.
  { rewrite !children_nil. split; intros Hn n; specialize (Hn n); by rewrite (L_lookup t) in *. }
  unfold node_path. naive_solver congruence.
Qed.

Lemma L_allocated t k g : L t -> tree_sum disk_bytes (node_path t k g) t = tree_sum disk_bytes (node_path t0 k g) t0.
Proof.
  intros Ht. transitivity (tree_sum disk_bytes (node_path t k g) t0).
  - apply tree_sum_same. intros p Hp. apply Ht, not_lock. destruct Hp as [Hp%suffix_length|[->|[->|[->|[-> _]]]]]; simpl in *; lia.
  - apply tree_sum_ext. intros p e _. by apply L_node_path.
Qed.

Lemma entry_spec t n k x : L t -> node_entry_of (F:=F) current n k t = Ok x -> ne_key x = k /\ entry_ok x.
Proof.
  intros Ht Hx. unfold node_entry_of in Hx. cbv zeta in Hx.
  apply guard_bind_Ok in Hx as [_ Hx]. apply bind_Ok_inv in Hx as (g & Hg & Hx). apply guard_bind_Ok in Hx as [_ Hx].
  apply bind_Ok_inv in Hx as (m & Hm%raise_from_Ok & Hx). apply bind_Ok_inv in Hx as (named & _ & Hx).
  apply bind_Ok_inv in Hx as (v & Hv & Hx). apply guard_bind_Ok in Hx as [[_ Hk]%andb_true_iff Hx].
  apply bind_Ok_inv in Hx as (stored & Hstored%generation_stored_bytes_spec & Hx).
  apply bind_Ok_inv in Hx as (allocated & Hallocated%reclaimable_spec & Hx). apply bind_Ok_inv in Hx as (created & Hcreated & Hx).
  apply bind_Ok_inv in Hx as (z & Hz & Hx). apply guard_bind_Ok in Hx as [Hpos Hx]. apply bind_Ok_inv in Hx as (a & Ha%last_access_spec & Hx).
  apply Ok_inj in Hx as <-. split; [done|]. split_and!; simpl.
  - by rewrite <- (L_pointer t).
  - exists m, v. split_and!; [|done..]. rewrite <- Hm. unfold read_file. rewrite Ht; [done|]. apply not_lock. simpl. lia.
  - by rewrite L_leased.
  - by rewrite Hstored, L_stored.
  - by rewrite Hallocated, L_allocated.
  - exists n. apply (L_last_used t); [done|]. destruct Ha as [Ha|[Ha ->]]; [by left|]. right. split; [done|].
    destruct m as [| | | | | |l|]; try discriminate. exists l. split; [done|]. injection Hcreated as <-. split; [lia|].
    destruct (dict_get l _) as [[| |y| | | | |]|]; try discriminate; injection Hz as ->; auto.
Qed.

(** The entries are those of the nodes named, each once *)
Definition indexed (names : list string) (entries : list node_entry) : Prop :=
  Forall entry_ok entries /\ ne_key <$> entries `sublist_of` names /\
  forall k g, k ∈ names -> require_node_pointer k t0 = Ok g -> k ∈ ne_key <$> entries.
Definition entries_ok (entries : list node_entry) : Prop :=
  Forall entry_ok entries /\ NoDup (ne_key <$> entries) /\ forall k g, require_node_pointer k t0 = Ok g -> k ∈ ne_key <$> entries.

Lemma collect_entry_triple don k es :
  triple L (fun t => indexed don es /\ L t) (collect_entry (F:=F) current es k)
    (fun r t => match r with Ok es => indexed (don ++ [k]) es /\ L t | Err _ => L t end).
Proof.
  apply triple_pure. intros (Hes & Hsub & Hdon). unfold collect_entry. destruct (starts_with "." k) eqn:Hdot.
  - apply triple_ret. intros t Ht. split; [|done]. split_and!; [done|by apply sublist_inserts_r|]. intros k' g [Hk|Hk%list_elem_of_singleton]%elem_of_app Hp; [by eapply Hdon|].
    subst k'. apply require_node_pointer_valid in Hp as [Hd _]. pose proof (digest_not_dotted k "" Hd) as Hd'. change (starts_with "." k = false) in Hd'. congruence.
  - apply triple_bind with (R := fun x t => (ne_key x = k /\ entry_ok x) /\ L t).
    + intros d Hd. refine (triple_query L L (node_entry_of current (clock d) k) (fun r t => match r with
        Ok x => (ne_key x = k /\ entry_ok x) /\ L t | Err _ => L t end) _ _ d Hd); [done|]. intros t x Ht Hx. split; [by eapply entry_spec|done].
    + intros x. apply triple_pure. intros [Hk Hx]. apply triple_ret. intros t Ht. split; [|done]. split_and!.
      * apply Forall_app. split; [done|]. by constructor.
      * rewrite fmap_app. apply sublist_app; [done|]. csimpl. by rewrite Hk.
      * intros k' g [Hin|Hin%list_elem_of_singleton]%elem_of_app Hp; rewrite fmap_app, elem_of_app.
        -- left. by eapply Hdon.
        -- right. subst. simpl. apply list_elem_of_singleton. done.
Qed.

Lemma entries_triple :
  triple L L (for_names nodes_dir (collect_entry (F:=F) current) [])
    (fun r t => match r with Ok es => entries_ok es /\ L t | Err _ => L t end).
Proof.
  apply for_names_triple; [done|]. intros names t Ht _ Hnames.
  eapply triple_weaken; [apply (triple_fold L (fun don es t => indexed don es /\ L t) _ names [] (fun _ => L))| |done|].
  - intros don k rest es _. apply collect_entry_triple.
  - intros t' Ht'. split; [|done]. split_and!; [done|by apply sublist_nil_l|]. intros k g Hk. by apply elem_of_nil in Hk.
  - intros [es|e] t' Ht'; [|done]. destruct Ht' as [(Hes & Hsub & Hix) HL]. split; [|done].
    split_and!; [done|eapply sublist_NoDup; [|exact Hsub]; rewrite Hnames; apply NoDup_children|]. intros k g Hp.
    apply (Hix k g); [|done]. rewrite Hnames. apply elem_of_children. rewrite Ht; [by eapply pointer_present|]. apply not_lock. simpl. lia.
Qed.

Lemma no_pointers t : L t -> is_dir t nodes_dir = false -> entries_ok [].
Proof.
  intros Ht Hd. split_and!; [done|constructor|]. intros k g Hp%pointer_present. apply Hok in Hp. unfold is_dir in Hd. rewrite Ht, Hp in Hd; [done|].
  intros [|[|]]; discriminate.
Qed.

(** *** Deleting *)

Definition in_use g : Prop := read_current t0 = Ok g \/ leased g t0 = true.

(** The nodes [gone] are misses; all others, and what is in use, are untouched. *)
Definition without_nodes (gone : list string) t : Prop :=
  (forall k g, require_node_pointer k t0 = Ok g -> k ∈ gone -> t !! (nodes_dir // k) = None /\ ~ in_use g) /\
  (forall k g, require_node_pointer k t0 = Ok g -> k ∉ gone ->
     t !! (nodes_dir // k) = t0 !! (nodes_dir // k) /\ forall p, under (generations_dir // g) p -> t !! p = t0 !! p) /\
  t !! current_file = t0 !! current_file /\
  forall g p, in_use g -> under (generations_dir // g) p \/ under (leases_dir // g) p -> t !! p = t0 !! p.

Lemma L_without t : L t -> without_nodes [] t.
Proof.
  intros Ht. assert (forall p n m, under (store // n // m) p -> t !! p = t0 !! p) as Hdeep
    by (intros p n m Hu%suffix_length; simpl in Hu; apply Ht, not_lock; lia).
  split_and!.
  - intros k g _ Hk. by apply elem_of_nil in Hk.
  - intros k g _ _. split; [apply Ht, not_lock; simpl; lia|]. intros p. apply Hdeep.
  - apply Ht. intros [|[|]]; discriminate.
  - intros g p _ [Hu|Hu]; by eapply Hdeep.
Qed.

Context (es : list node_entry) (Hes : entries_ok es).

Lemma entry_of_pointer k g : require_node_pointer k t0 = Ok g -> names_key t0 g k.
Proof.
  intros Hp. destruct Hes as (Hall & _ & Hix). specialize (Hix k g Hp). apply list_elem_of_fmap in Hix as (x & -> & Hx).
  rewrite Forall_forall in Hall. destruct (Hall x Hx) as (Hp' & Hn & _). rewrite Hp in Hp'. by injection Hp' as ->.
Qed.

Section one.
Context (x : node_entry) (Hx : entry_ok x) (Hprot : ne_protected x = false).

Lemma entry_not_in_use : ~ in_use (ne_generation x).
Proof.
  destruct Hx as (_ & _ & Hp & _). rewrite Hprot in Hp. symmetry in Hp. apply orb_false_iff in Hp as [Hc Hl].
  intros [Heq|Hu]; [|congruence]. rewrite Hcurrent in Heq. injection Heq as Heq. by rewrite Heq, String.eqb_refl in Hc.
Qed.

Lemma unlinked gone t t' : without_nodes gone t -> same_outside (only (nodes_dir // ne_key x)) t t' ->
  t' !! (nodes_dir // ne_key x) = None -> without_nodes (gone ++ [ne_key x]) t'.
Proof.
  intros (Hg & Hk & Hc & Hu) Ht Hnone.
  assert (forall q a, under (store // "generations"%string // a) q \/ under (store // "leases"%string // a) q -> t' !! q = t !! q) as Hout.
  { intros q a Hq. apply Ht. intros ->. destruct Hq as [[r Hq]|[r Hq]]; apply (f_equal last) in Hq; unfold store in Hq; by rewrite last_two in Hq. }
  split_and!.
  - intros k g Hp Hin. destruct (decide (k = ne_key x)) as [->|Hne].
    + split; [done|]. destruct Hx as (Hp' & _). rewrite Hp in Hp'. injection Hp' as ->. apply entry_not_in_use.
    + apply elem_of_app in Hin as [Hin|Hin%list_elem_of_singleton]; [|done]. rewrite Ht; [by apply (Hg k g)|]. by intros [= ?].
  - intros k g Hp Hin. destruct (Hk k g Hp) as [Hk1 Hk2]; [intros ?; apply Hin, elem_of_app; by left|]. split.
    + rewrite Ht; [done|]. intros [= ->]. apply Hin, elem_of_app. right. by apply list_elem_of_singleton.
    + intros q Hq. rewrite (Hout q g) by by left. by apply Hk2.
  - by rewrite Ht.
  - intros g q Hg' Hq. rewrite (Hout q g) by done. by apply (Hu g).
Qed.

(** What is deleted after the pointer *)
Definition freed p : Prop :=
  under (generations_dir // ne_generation x) p \/ p = leases_dir // ne_generation x \/
  last p = Some "access"%string \/ last p = Some "admission"%string.

Lemma freed_last p : freed p -> last p = Some "generations"%string \/ last p = Some "leases"%string \/
  last p = Some "access"%string \/ last p = Some "admission"%string.
Proof. intros [[r ->]|[->|[?|?]]]; auto. left. apply last_two. Qed.

Lemma freed_generation g p : freed p -> under (generations_dir // g) p -> g = ne_generation x.
Proof.
  intros Hf [r ->]. pose proof (last_two r g "generations"%string) as Hl. unfold generations_dir, store in Hf.
  destruct Hf as [[r' Hr]|[Hr|[Hr|Hr]]]; [by eapply generation_names| |congruence..].
  apply (f_equal last) in Hr. rewrite Hl in Hr. discriminate.
Qed.

Lemma freed_lease g p : freed p -> under (leases_dir // g) p -> g = ne_generation x.
Proof.
  intros Hf [r ->]. pose proof (last_two r g "leases"%string) as Hl. unfold leases_dir, store in Hf.
  destruct Hf as [[r' Hr]|[Hr|[Hr|Hr]]]; [| |congruence..].
  - apply (f_equal last) in Hr. unfold generations_dir, store in Hr. by rewrite Hl, last_two in Hr.
  - destruct r as [|a r]; [by simplify_eq/=|]. apply (f_equal length) in Hr. simpl in Hr. rewrite length_app in Hr. simpl in Hr. lia.
Qed.

Lemma freed_without gone t t' : ne_key x ∈ gone -> without_nodes gone t -> same_outside freed t t' -> without_nodes gone t'.
Proof.
  intros Hin (Hg & Hk & Hc & Hu) Ht.
  assert (forall k, t' !! (nodes_dir // k) = t !! (nodes_dir // k)) as Hnode
    by (intros k; apply Ht; intros Hf%freed_last; simpl in Hf; naive_solver).
  split_and!.
  - intros k g Hp Hin'. rewrite Hnode. by apply (Hg k g).
  - intros k g Hp Hin'. rewrite Hnode. destruct (Hk k g Hp Hin') as [Hk1 Hk2]. split; [done|]. intros q Hq.
    rewrite Ht; [by apply Hk2|]. intros Hf. apply (freed_generation g) in Hf; [|done]. subst g. apply Hin'.
    rewrite (names_key_unique t0 (ne_generation x) k (ne_key x)); [done|by apply entry_of_pointer|by destruct Hx as (_ & ? & _)].
  - rewrite Ht; [done|]. intros Hf%freed_last. simpl in Hf. naive_solver.
  - intros g q Hg' Hq. rewrite Ht; [by apply (Hu g)|]. intros Hf. apply entry_not_in_use.
    destruct Hq as [Hq|Hq]; [rewrite <- (freed_generation g q)|rewrite <- (freed_lease g q)]; done.
Qed.

Definition some_gone t : Prop := exists gone, without_nodes gone t.

Lemma delete_triple gone :
  triple some_gone (without_nodes gone) (delete_node x)
    (fun r t => match r with Ok _ => without_nodes (gone ++ [ne_key x]) t | Err _ => some_gone t end).
Proof.
  unfold delete_node. apply triple_bind with (R := fun _ => without_nodes (gone ++ [ne_key x])).
  - apply triple_syscall; [by intros e t ?; exists gone|]. intros t t' [] Ht Hc.
    assert (without_nodes (gone ++ [ne_key x]) t') as Ht'; [|split; [by eexists|done]].
    apply unlink_call_spec in Hc as [[Hn ->]|[_ ->]]; (eapply unlinked; [exact Ht| |]).
    + done.
    + done.
    + apply delete_outside.
    + apply lookup_delete_eq.
  - intros _. eapply triple_weaken; [apply (touches_keeps freed some_gone (without_nodes (gone ++ [ne_key x])))|done..|].
    + touch; unfold only, freed; intros p Hp; [by left|rewrite Hp; by right; left|rewrite Hp].
      match goal with Hin : _ ∈ _ |- _ => apply list_elem_of_In in Hin as [<-|[<-|[]]]; auto end.
    + intros t t'. apply freed_without. apply elem_of_app. right. by apply list_elem_of_singleton.
    + intros t Ht. by eexists.
    + intros [] t Ht; [done|by eexists].
Qed.
End one.

(** *** The loop *)

Definition evict_step (e : eviction) x : eviction :=
  if ne_protected x then mkEviction (ev_keys e) (ev_generations e) (ev_protected e ++ [ne_key x]) (ev_totals e)
  else mkEviction (ev_keys e ++ [ne_key x]) (ev_generations e ++ [ne_generation x]) (ev_protected e) (without (ev_totals e) x).

Definition deleted (dry : bool) (e : eviction) : list string := if dry then [] else ev_keys e.

Lemma loop_triple l triggered dry rest e : Forall entry_ok rest ->
  triple some_gone (without_nodes (deleted dry e)) (evict_loop l triggered dry rest e)
    (fun r t => match r with Ok e' => without_nodes (deleted dry e') t | Err _ => some_gone t end).
Proof.
  revert e. induction rest as [|x rest IH]; intros e Hall; simpl; [by apply triple_ret|].
  apply Forall_cons in Hall as [Hx Hall]. destruct (negb _); [by apply triple_ret|]. destruct (ne_protected x) eqn:Hp.
  - eapply triple_pre; [|by apply IH]. by destruct dry.
  - apply triple_bind with (R := fun _ t => without_nodes (deleted dry e ++ (if dry then [] else [ne_key x])) t).
    + destruct dry; [apply triple_ret; intros t; by rewrite app_nil_r|]. by apply delete_triple.
    + intros _. eapply triple_pre; [|by apply IH]. by destruct dry.
Qed.
End evict.

(** What the loop has done when it stops: the entries [don], in order, were deleted or
    passed over as protected; a limit was exceeded before each of them. *)
Definition stops_at (l : limits) (triggered : bool) (e : eviction) (entries : list node_entry) (e' : eviction) : Prop :=
  exists don rest, entries = don ++ rest /\ e' = foldl evict_step e don /\
    (forall before x after, don = before ++ x :: after -> over_limit l triggered (ev_totals (foldl evict_step e before)) = true) /\
    (over_limit l triggered (ev_totals e') = true -> rest = []).

Lemma stops_step l triggered e x entries e' : over_limit l triggered (ev_totals e) = true ->
  stops_at l triggered (evict_step e x) entries e' -> stops_at l triggered e (x :: entries) e'.
Proof.
  intros Hover (don & rest & -> & -> & Hbefore & Hrest). exists (x :: don), rest. split_and!; [done..| |done].
  intros [|y before] z after; simpl; intros Heq; [done|]. injection Heq as -> ->. by eapply Hbefore.
Qed.

Lemma evict_loop_stops l triggered dry entries e (d d' : disk C) e' :
  evict_loop l triggered dry entries e d = (d', Ok e') -> stops_at l triggered e entries e'.
Proof.
  revert e d. induction entries as [|x entries IH]; intros e d Hl; simpl in Hl.
  - injection Hl as _ <-. exists [], []. split_and!; [done..| |done]. by intros [].
  - destruct (over_limit l triggered (ev_totals e)) eqn:Hover; simpl in Hl.
    + apply stops_step; [done|]. unfold evict_step. destruct (ne_protected x); [by eapply IH|].
      unfold mbind, ST_bind in Hl. destruct dry; [exact (IH _ _ Hl)|]. destruct (delete_node x d) as [d1 [[]|]]; [by eapply IH|done].
    + injection Hl as _ <-. exists [], (x :: entries). split_and!; [done..| |congruence]. by intros [].
Qed.

(** ** What a reader sees *)

(** The nodes [gone] are misses and were not in use; the others open as before, and so
    does every generation in use. *)
Definition evicted t0 (gone : list string) t : Prop :=
  (forall k g, require_node_pointer k t0 = Ok g -> k ∈ gone ->
     require_node_pointer k t = Err FactorNodeCacheMiss /\ read_current t0 <> Ok g /\ leased g t0 = false) /\
  (forall k g, require_node_pointer k t0 = Ok g -> k ∉ gone -> load_node (F:=F) k t = load_node k t0) /\
  read_current t = read_current t0 /\
  forall g, read_current t0 = Ok g \/ leased g t0 = true ->
    (forall expected required, load_generation (F:=F) g expected required t = load_generation g expected required t0) /\
    forall name, t !! (leases_dir // g // name) = t0 !! (leases_dir // g // name).

Lemma without_evicted t0 gone t : without_nodes t0 gone t -> evicted t0 gone t.
Proof.
  intros (Hg & Hk & Hc & Hu). split_and!.
  - intros k g Hp Hin. destruct (Hg k g Hp Hin) as [Hn Huse]. unfold in_use in Huse. split_and!; [| |apply not_true_is_false]; [|naive_solver..].
    unfold require_node_pointer, read_node_pointer, is_symlink, read_file. rewrite Hn.
    apply require_node_pointer_valid in Hp as [-> _]. done.
  - intros k g Hp Hin. destruct (Hk k g Hp Hin) as [Hn Hgen]. unfold load_node. rewrite (require_node_pointer_same k t t0) by done.
    rewrite Hp. simpl. by apply load_generation_same.
  - by apply read_current_same.
  - intros g Huse. split.
    + intros expected required. apply load_generation_same. intros q Hq. apply (Hu g); [done|by left].
    + intros name. apply (Hu g); [done|]. right. by exists [name].
Qed.

Lemma touches_metrics increments : touches (fun p => p = [] \/ last p = Some "metrics"%string)
  (try_record_factor_cache_metrics (F:=F) increments).
Proof.
  unfold try_record_factor_cache_metrics, record_factor_cache_metrics, metrics_lock. touch; unfold ancestors, only; intros p Hp;
    (try by left; apply suffix_nil_inv in Hp); right; repeat destruct Hp as [Hp|Hp]; by rewrite Hp.
Qed.

Lemma touches_outside t0 gone {A : Type} S (m : ST (disk C) A) : touches S m -> (forall p, S p -> p = [] \/ last p = Some "metrics"%string) ->
  triple (some_gone t0) (without_nodes t0 gone) m (fun _ => without_nodes t0 gone).
Proof.
  intros Hm HS. eapply touches_keeps; [exact Hm| |by intros t Ht; eexists]. intros t t' (Hg & Hk & Hc & Hu) Ht.
  assert (forall p n, last p = Some n -> n <> "metrics"%string -> t' !! p = t !! p) as Hsame
    by (intros p n Hp Hn; apply Ht; intros [->|Hl]%HS; [done|congruence]).
  split_and!.
  - intros k g Hp Hin. rewrite (Hsame _ "nodes"%string) by done. by apply (Hg k g).
  - intros k g Hp Hin. rewrite (Hsame _ "nodes"%string) by done. destruct (Hk k g Hp Hin) as [Hk1 Hk2]. split; [done|].
    intros q Hq. rewrite (Hsame _ "generations"%string); [by apply Hk2|by eapply generation_top|done].
  - by rewrite (Hsame _ "CURRENT"%string).
  - intros g q Hg' Hq. rewrite <- (Hu g q Hg' Hq). destruct Hq as [Hq|[r ->]]; [apply (Hsame _ "generations"%string)|apply (Hsame _ "leases"%string)];
      [by eapply generation_top|done|apply last_two|done].
Qed.

(** ** Eviction *)

(** The result: the entries of the index, least recently used first, and where the loop
    stopped. *)
Definition report_of (l : limits) t0 (r : evict_report) : Prop :=
  exists current entries, read_current t0 = Ok current /\ entries_ok t0 current entries /\
    er_triggered r = quota_triggered l (er_before r) /\
    tt_nodes (er_before r) = Z.of_nat (length entries) /\
    tt_bytes (er_before r) = foldr Z.add 0 (ne_stored_bytes <$> entries) /\
    (exists t, same_outside locks t0 t /\ tt_allocated (er_before r) = tree_sum disk_bytes (fun p => p <> store) t) /\
    (exists n, tt_free (er_before r) = statvfs_free n) /\
    stops_at l (er_triggered r) (mkEviction [] [] [] (er_before r)) (merge_sort entry_le entries) (er_eviction r) /\
    er_limits_satisfied r = negb (over_limit l (er_triggered r) (ev_totals (er_eviction r))).

Lemma evict_triple l dry t0 : tree_ok t0 ->
  triple (some_gone t0) (same_outside locks t0) (evict_factor_nodes (F:=F) l dry)
    (fun r t => match r with Ok r => report_of l t0 r /\ without_nodes t0 (deleted dry (er_eviction r)) t | Err _ => some_gone t0 t end).
Proof.
  intros Hok. assert (forall t, same_outside locks t0 t -> some_gone t0 t) as Hstart by (intros t Ht; exists []; by apply L_without).
  assert (forall (m : ST (disk C) unit), touches locks m -> triple (some_gone t0) (same_outside locks t0) m
    (fun r t => match r with Ok _ => same_outside locks t0 t | Err _ => some_gone t0 t end)) as Hlock.
  { intros m Hm. eapply triple_weaken; [apply Hm|done|done|]. intros [] t Ht; [done|by apply Hstart]. }
  assert (forall (b : bool) e, triple (some_gone t0) (same_outside locks t0) (st_guard b e)
    (fun r t => match r with Ok _ => same_outside locks t0 t | Err _ => some_gone t0 t end)) as Hguard
    by (intros b e; apply triple_guard; [done|intros _ t Ht; by apply Hstart]).
  destruct touches_locks as [Hw Hs]. unfold evict_factor_nodes.
  apply triple_bind with (R := fun _ => same_outside locks t0); [apply triple_lift; intros t Ht; destruct (limits_valid l); [done|by apply Hstart]|].
  intros _. apply triple_bind with (R := fun _ => same_outside locks t0); [by apply Hlock|].
  intros _. apply triple_bind with (R := fun _ => same_outside locks t0); [by apply Hlock|]. intros _.
  apply triple_bind with (R := fun current t => read_current t0 = Ok current /\ same_outside locks t0 t).
  { apply triple_query; [intros e t Ht; by apply Hstart|]. intros t current Ht Hc. split; [|done]. rewrite <- Hc.
    apply read_current_same. symmetry. apply Ht. intros [|[|]]; discriminate. }
  intros current. apply triple_pure. intros Hcur.
  apply triple_bind with (R := fun _ => same_outside locks t0); [apply triple_query; [intros e t Ht; by apply Hstart|done]|]. intros link.
  apply triple_bind with (R := fun _ => same_outside locks t0); [apply Hguard|]. intros _.
  apply triple_bind with (R := fun b t => (b = false -> entries_ok t0 current []) /\ same_outside locks t0 t).
  { apply triple_query; [intros e t Ht; by apply Hstart|]. intros t b Ht [= <-]. split; [|done]. by apply no_pointers. }
  intros b. apply triple_pure. intros Hb.
  apply triple_bind with (R := fun es t => entries_ok t0 current es /\ same_outside locks t0 t).
  { destruct b; [|apply triple_ret; intros t Ht; split; [by apply Hb|done]].
    eapply triple_weaken; [by apply entries_triple|done|apply Hstart|]. intros [es|e] t Ht; [done|by apply Hstart]. }
  intros es. apply triple_pure. intros Hes.
  set (totals_ok := fun before => tt_nodes before = Z.of_nat (length es) /\ tt_bytes before = foldr Z.add 0 (ne_stored_bytes <$> es) /\
    (exists t, same_outside locks t0 t /\ tt_allocated before = tree_sum disk_bytes (fun p => p <> store) t) /\
    (exists n, tt_free before = statvfs_free n)).
  apply triple_bind with (R := fun before t => totals_ok before /\ same_outside locks t0 t).
  { intros d Hd. refine (triple_query _ _ (fun t => Ok (mkTotals _ _ (allocated_bytes store t) (statvfs_free (clock d)))) (fun r t => match r with
      Ok before => totals_ok before /\ same_outside locks t0 t | Err _ => some_gone t0 t end) _ _ d Hd);
      [intros e t Ht; by apply Hstart|]. intros t a Ht [= <-]. split; [|done]. split_and!; [done..| |by eexists].
    exists t. split; [done|]. apply store_bytes. }
  intros before. apply triple_pure. intros (Hnodes & Hbytes & Hallocated & Hfree). cbv zeta.
  set (triggered := quota_triggered l before). set (e0 := mkEviction [] [] [] before). set (sorted := merge_sort entry_le es).
  apply triple_bind with (R := fun e t => stops_at l triggered e0 sorted e /\ without_nodes t0 (deleted dry e) t).
  { intros d Hd. assert (Forall (entry_ok t0 current) sorted) as Hall
      by (unfold sorted; rewrite (merge_sort_Permutation _ _); by destruct Hes).
    pose proof (loop_triple t0 current Hcur es Hes l triggered dry sorted e0 Hall d) as Hl.
    pose proof (evict_loop_stops l triggered dry sorted e0 d) as Hstop. destruct (evict_loop _ _ _ _ _ d) as [d' [e|e]].
    - specialize (Hstop d' e eq_refl). destruct Hl as [Hl Htr]; [|done]. unfold deleted. destruct dry; by apply L_without.
    - apply Hl. unfold deleted. destruct dry; by apply L_without. }
  intros e. apply triple_pure. intros Hstop.
  apply triple_bind with (R := fun _ => without_nodes t0 (deleted dry e)).
  { eapply triple_weaken; [apply (touches_outside t0 (deleted dry e) (fun _ => False)); [touch|by intros p []]|done..|]. intros [] t Ht; [done|by eexists]. }
  intros _. apply triple_bind with (R := fun _ => without_nodes t0 (deleted dry e)).
  { destruct (negb dry && _); [|by apply triple_ret].
    eapply triple_weaken; [eapply (touches_outside t0 (deleted dry e)); [apply touches_bind; [apply touches_metrics|intros ?; apply touches_ret]|done]|done..|].
    intros [] t Ht; [done|by eexists]. }
  intros recorded. apply triple_ret. intros t Ht. split; [|done]. exists current, es. by split_and!.
Qed.

(** C21: Eviction takes nodes out one at a time and nothing else.  Whatever call fails and
    wherever the process dies, at each moment there are nodes that are plain cache
    misses, none of them current or leased, and every other node, CURRENT, and every
    generation that is current or leased load exactly as before.  When eviction
    returns, those nodes are exactly the ones it reports, and none after a dry run. *)
Theorem evict_factor_nodes_safe (l : limits) dry (d : disk C) : tree_ok (now d) ->
  let '(d', r) := evict_factor_nodes l dry d in
  (exists gone, evicted (now d) gone (now d')) /\
  (exists ts, trace d' = trace d ++ ts /\ Forall (fun t => exists gone, evicted (now d) gone t) ts) /\
  forall report, r = Ok report -> evicted (now d) (if dry then [] else ev_keys (er_eviction report)) (now d').
Proof.
  intros Hok. assert (forall t, some_gone (now d) t -> exists gone, evicted (now d) gone t) as Hsome
    by (intros t [gone Ht]; exists gone; by apply without_evicted).
  pose proof (evict_triple l dry (now d) Hok d) as Ht. destruct (evict_factor_nodes l dry d) as [d' r].
  destruct Ht as (Hr & ts & Htr & Hts); [done|]. split_and!.
  - destruct r as [report|]; [|by apply Hsome]. eexists. apply without_evicted, Hr.
  - exists ts. split; [done|]. eapply Forall_impl; [exact Hts|]. exact Hsome.
  - intros report ->. apply without_evicted, Hr.
Qed.

(** C22: What eviction evicts.  When it returns, the index had one entry for every node,
    and each entry is what the store holds of its node: the access its record names, if
    the record is valid and not in the future, and else its creation; the sizes of the
    files of its generation; and the blocks that deleting it frees.  In the order of
    last access (keys break ties) it went through a prefix of them,
    deleting each unless current or leased, while one of the limits was exceeded: the
    byte and node limits always, the quotas once triggered.  It stopped as soon as no
    limit was exceeded, and reports failure only when every unprotected node is gone. *)
Theorem evict_factor_nodes_exact (l : limits) dry (d d' : disk C) report : tree_ok (now d) ->
  evict_factor_nodes l dry d = (d', Ok report) -> report_of l (now d) report.
Proof.
  intros Hok He. pose proof (evict_triple l dry (now d) Hok d) as Ht. rewrite He in Ht. by destruct Ht as ((Hr & _) & _).
Qed.
End facts.

(** ** Witnesses *)

(** At most one node: "b" is current, so "a" goes. *)
Definition one_node : limits := mkLimits (Z.shiftl 1 63 - 1) (Some 1) None 0 None.
Definition evicted_run : disk held * result evict_report := evict_factor_nodes (F:=XQ) one_node false two_nodes.

Lemma evict_factor_nodes_safe_witness : is_ok (load_node (F:=XQ) key_a (now two_nodes)) = true /\
  require_node_pointer key_a (now evicted_run.1) = Err FactorNodeCacheMiss.
Proof.
  assert (is_ok (load_node (F:=XQ) key_a (now two_nodes)) = true) as Hl by (vm_compute; reflexivity). split; [exact Hl|].
  assert (rooted (now two_nodes) = true) as Hr by (vm_compute; reflexivity).
  assert ((ev_keys <$> (er_eviction <$> evicted_run.2)) = Ok [key_a]) as Hkeys by (vm_compute; reflexivity).
  pose proof (evict_factor_nodes_safe (F:=XQ) one_node false two_nodes (rooted_ok _ Hr)) as Hsafe.
  unfold evicted_run in *. destruct (evict_factor_nodes _ _ _) as [d' [report|]]; [|discriminate Hkeys].
  simpl in Hkeys. injection Hkeys as Hkeys. destruct Hsafe as (_ & _ & Hsafe). specialize (Hsafe report eq_refl).
  destruct Hsafe as (Hgone & _). simpl in Hgone. rewrite Hkeys in Hgone.
  destruct (load_node key_a (now two_nodes)) as [v|] eqn:Hv; [|discriminate Hl].
  apply bind_Ok_inv in Hv as (g & Hp & _). eapply Hgone; [exact Hp|by left].
Defined.

Lemma evict_factor_nodes_exact_witness : exists report, evicted_run.2 = Ok report /\ er_limits_satisfied report = true /\
  report_of (F:=XQ) one_node (now two_nodes) report.
Proof.
  assert (rooted (now two_nodes) = true) as Hr by (vm_compute; reflexivity).
  assert ((er_limits_satisfied <$> evicted_run.2) = Ok true) as Hs by (vm_compute; reflexivity).
  pose proof (evict_factor_nodes_exact (F:=XQ) one_node false two_nodes) as Hex. unfold evicted_run in *.
  destruct (evict_factor_nodes _ _ _) as [d' [report|]]; [|discriminate Hs]. exists report. split; [done|]. simpl in Hs. injection Hs as Hs.
  split; [exact Hs|]. exact (Hex d' report (rooted_ok _ Hr) eq_refl).
Defined.
