(* ===== verification/Admission.v ===== *)
(** * Cache admission (factor_admission.py, and the policy of factor_dag.py)

    A policy estimates whether publishing a node pays; a declined node leaves a hint
    under admission/, which later runs read instead of estimating again. *)

From S2P Require Import Prelude Numeric FactorIdentity Fs CacheFiles Metrics FactorStore.

#[local] Open Scope Z_scope.

Definition ADMISSION_FORMAT : string := "gambit-factor-admission".
Definition ADMISSION_VERSION : Z := 1.

Definition admission_dir : path := store // "admission"%string.

Section admission.
Context {F C : Type} `{PyFloat F} `{JsonText F C} `{Sha256 C} `{CacheFiles F C} `{World}.

(** ** The policy *)

(** The bandwidths are declared floats, and their defaults are integers. *)
Inductive number := NInt (z : Z) | NFloat (x : F).

Record FactorCacheAdmissionPolicy := mkPolicy {
  po_minimum_expected_uses : Z;
  po_estimated_read_bytes_per_second : number;
  po_estimated_write_bytes_per_second : number;
  po_fixed_read_seconds : F;
  po_fixed_write_seconds : F;
  po_minimum_speedup : F;
  po_rejection_ttl_seconds : F;
  po_force_admission : bool;
}.

Definition positive (x : F) : bool := f_isfinite x && negb (f_leb x f_zero).
Definition finite_non_negative (x : F) : bool := f_isfinite x && negb (f_ltb x f_zero).

(** [math.isfinite(x)], which converts an integer, and [x <= 0] *)
Definition finite_number (x : number) : result bool :=
  match x with
  | NInt z => _ ← py_float (PInt z); Ok true
  | NFloat x => Ok (f_isfinite x)
  end.
Definition not_above_zero (x : number) : bool := match x with NInt z => z <=? 0 | NFloat x => f_leb x f_zero end.

(** [n / x] *)
Definition divided_by (n : Z) (x : number) : result F :=
  match x with
  | NInt z => Ok (f_ratio n (Z.to_pos z))
  | NFloat x => n ← py_float (PInt n); Ok (f_div n x)
  end.

Definition number_value (x : number) : value F := match x with NInt z => VInt z | NFloat x => VFloat x end.

(** [__post_init__] *)
Definition policy_init (p : FactorCacheAdmissionPolicy) : result FactorCacheAdmissionPolicy :=
  whenever po_minimum_expected_uses p <? 1 raise ValueError "minimum_expected_uses must be positive" ;;
  let read := po_estimated_read_bytes_per_second p in
  let write := po_estimated_write_bytes_per_second p in
  read_finite ← finite_number read;
  write_finite ← (if (read_finite : bool) then finite_number write else Ok false);
  whenever negb write_finite || not_above_zero read || not_above_zero write raise ValueError "estimated cache bandwidth must be positive" ;;
  unless finite_non_negative (po_fixed_read_seconds p) && finite_non_negative (po_fixed_write_seconds p)
    raise ValueError "fixed cache costs must be non-negative" ;;
  unless positive (po_minimum_speedup p) raise ValueError "minimum_speedup must be positive" ;;
  unless finite_non_negative (po_rejection_ttl_seconds p) raise ValueError "rejection_ttl_seconds must be finite and non-negative" ;;
  Ok p.

(** The defaults of the fields *)
Definition default_policy : FactorCacheAdmissionPolicy :=
  mkPolicy 2 (NInt (2 * 1024 * 1024 * 1024)) (NInt (1024 * 1024 * 1024)) (f_dec 25 5) (f_dec 5 4) (f_dec 11 1) (f_dec 36000 1) false.

(** [always] *)
Definition always : result FactorCacheAdmissionPolicy :=
  policy_init (mkPolicy 2 (NInt (2 * 1024 * 1024 * 1024)) (NInt (1024 * 1024 * 1024)) (f_dec 25 5) (f_dec 5 4) (f_dec 11 1)
    (f_dec 36000 1) true).

Definition policy_admit (p : FactorCacheAdmissionPolicy) (compute_seconds : F) (output_bytes expected_uses : Z) : result bool :=
  whenever negb (finite_non_negative compute_seconds) || (output_bytes <? 0) || (expected_uses <? 1)
    raise ValueError "cache admission measurements must be non-negative" ;;
  if po_force_admission p then Ok true
  else if expected_uses <? po_minimum_expected_uses p then Ok false
  else
    reading ← divided_by output_bytes (po_estimated_read_bytes_per_second p);
    let read_seconds := f_add (po_fixed_read_seconds p) reading in
    writing ← divided_by output_bytes (po_estimated_write_bytes_per_second p);
    let write_seconds := f_add (po_fixed_write_seconds p) writing in
    uses ← py_float (PInt expected_uses);
    let uncached_seconds := f_mul compute_seconds uses in
    later_uses ← py_float (PInt (expected_uses - 1));
    let cached_seconds := f_add (f_add compute_seconds write_seconds) (f_mul read_seconds later_uses) in
    Ok (f_geb uncached_seconds (f_mul cached_seconds (po_minimum_speedup p))).

Definition policy_key (p : FactorCacheAdmissionPolicy) : string :=
  sha256_hex (json_dumps (VMap [
    item "format" (VStr "gambit-factor-admission-policy"); item "version" (VInt 1);
    item "minimum_expected_uses" (VInt (po_minimum_expected_uses p));
    item "estimated_read_bytes_per_second" (number_value (po_estimated_read_bytes_per_second p));
    item "estimated_write_bytes_per_second" (number_value (po_estimated_write_bytes_per_second p));
    item "fixed_read_seconds" (VFloat (po_fixed_read_seconds p));
    item "fixed_write_seconds" (VFloat (po_fixed_write_seconds p));
    item "minimum_speedup" (VFloat (po_minimum_speedup p));
    item "force_admission" (VBool (po_force_admission p))])).

(** ** Rejection hints *)

Definition hint_path (node_key : string) : path := admission_dir // (node_key +:+ ".json")%string.

(** [isinstance(v, (int, float)) and not isinstance(v, bool)], finite and not negative *)
Definition good_seconds (v : value F) : result bool :=
  match v with
  | VInt z => _ ← py_float (PInt z); Ok (0 <=? z)
  | VFloat x => Ok (finite_non_negative x)
  | _ => Ok false
  end.

(** When the hint was recorded, if it is valid *)
Definition read_rejection (node_key policy_key : string) (t : tree C) : result (option Z) :=
  let p := hint_path node_key in
  if is_symlink t p then Ok None
  else
    v ← or_else is_read_error (c ← read_file t p; v ← json_loads c; Ok (Some v)) None;
    match v with
    | Some (VMap l) =>
        if same_keys l ["format"; "version"; "node_key"; "policy_key"; "decision"; "compute_seconds"; "output_bytes"; "recorded_ns"]%string then
          format ← field l "format"; version ← field l "version"; node ← field l "node_key"; policy ← field l "policy_key";
          decision ← field l "decision"; seconds ← field l "compute_seconds"; bytes ← field l "output_bytes";
          recorded ← field l "recorded_ns";
          if eq_text format ADMISSION_FORMAT && bool_decide (exact_int version = Some ADMISSION_VERSION) && eq_text node node_key &&
             eq_text policy policy_key && eq_text decision "decline" then
            good ← good_seconds seconds;
            match exact_int bytes, exact_int recorded with
            | Some bytes, Some recorded => Ok (if good && (0 <=? bytes) && (0 <=? recorded) then Some recorded else None)
            | _, _ => Ok None
            end
          else Ok None
        else Ok None
    | _ => Ok None
    end.

Definition has_recent_rejection (node_key policy_key : string) (ttl_seconds : F) : ST (disk C) bool :=
  _ ← st_guard (is_digest node_key && is_digest policy_key) (ValueError "node_key and policy_key must be lowercase SHA-256 digests");
  _ ← st_guard (finite_non_negative ttl_seconds) (ValueError "ttl_seconds must be finite and non-negative");
  hint ← query (read_rejection node_key policy_key);
  match hint with
  | Some recorded_ns =>
      now_ns ← get_time_ns;
      let age_ns := now_ns - recorded_ns in
      mret ((0 <=? age_ns) && z_ltb_f age_ns (f_mul ttl_seconds (f_of_Z 1000000000)))
  | None => mret false
  end.

Definition record_rejection (node_key policy_key : string) (compute_seconds : F) (output_bytes : Z) : ST (disk C) unit :=
  _ ← st_guard (is_digest node_key && is_digest policy_key) (ValueError "node_key and policy_key must be lowercase SHA-256 digests");
  _ ← st_guard (finite_non_negative compute_seconds && (0 <=? output_bytes))
        (ValueError "admission measurements must be finite and non-negative");
  _ ← mkdir_parents admission_dir;
  uuid ← uuid4;
  let staging := admission_dir // ("." +:+ node_key +:+ "-" +:+ uuid)%string in
  recorded_ns ← get_time_ns;
  st_finally (
    _ ← write_new empty_file staging (with_newline (json_dumps (VMap [
          item "format" (VStr ADMISSION_FORMAT); item "version" (VInt ADMISSION_VERSION); item "node_key" (VStr node_key);
          item "policy_key" (VStr policy_key); item "decision" (VStr "decline"); item "compute_seconds" (VFloat compute_seconds);
          item "output_bytes" (VInt output_bytes); item "recorded_ns" (VInt recorded_ns)])));
    _ ← replace staging (hint_path node_key);
    fsync_directory admission_dir)
    (unlink true staging).

Definition clear_rejection (node_key : string) : ST (disk C) unit :=
  _ ← st_guard (is_digest node_key) (ValueError "node_key must be a lowercase SHA-256 digest");
  present ← query (fun t => Ok (is_file t (hint_path node_key) && negb (is_symlink t (hint_path node_key))));
  if (present : bool) then
    _ ← unlink false (hint_path node_key);
    fsync_directory admission_dir
  else mret tt.
End admission.
Arguments number F : clear implicits.
Arguments FactorCacheAdmissionPolicy F : clear implicits.
