(* ===== verification/FactorDag.v ===== *)
(** * Factor-DAG execution (factor_dag.py)

    Nodes run in topological order; a node whose generation is in the store is opened
    and leased, any other is computed from its parents, validated, and published if
    the admission policy says so.  Data frames are a class: their columns, and the
    arrays they convert to and from.  Finalizers ([__del__]) are not modelled. *)

From S2P Require Import Prelude Numeric FactorIdentity Fs CacheFiles Metrics FactorStore Admission.

#[local] Open Scope Z_scope.

(** [polars.DataFrame], as far as the executor uses it *)
Class DataFrames (F D : Type) := {
  df_columns : D -> list string;
  df_float64 : D -> list bool;                      (* dtype == Float64, column by column *)
  df_null_count : D -> string -> Z;
  df_to_numpy : D -> string -> factor_array (F:=F);
  df_estimated_size : D -> Z;
  df_of_columns : list (string * list F) -> D;      (* pl.DataFrame({name: values}) *)
}.

(** [time.perf_counter()] at a call *)
Class Timer (F : Type) := perf_counter : nat -> F.

Section dag.
Context {F C D : Type} `{PyFloat F} `{JsonText F C} `{Sha256 C} `{CacheFiles F C} `{Host C} `{World} `{DataFrames F D} `{Timer F}.
Abbreviation lease := (FactorGenerationLease (F:=F) (C:=C)).

Record PolarsFactorNode := mkNode {
  pn_identity : FactorNodeIdentity F C;
  pn_compute : list (string * D) -> result D;
  pn_expected_uses : Z;
}.

Definition PolarsFactorNode_init (n : PolarsFactorNode) : result PolarsFactorNode :=
  whenever pn_expected_uses n <? 1 raise ValueError "expected_uses must be positive" ;;
  Ok n.

Record FactorDagTelemetry := mkTelemetry {
  te_cache_hits : list string;
  te_cache_misses : list string;
  te_cache_writes : list string;
  te_cache_declines : list string;
  te_rejection_hints : list string;
  te_compute_measurements : list (string * F * Z);
  te_lifetime_metrics_recorded : bool;
}.

Definition nodes_reused (t : FactorDagTelemetry) : nat := length (te_cache_hits t).
Definition nodes_computed (t : FactorDagTelemetry) : nat := length (te_cache_misses t).

(** ** An execution *)

Record FactorDagExecution := mkExecution {
  fx_outputs : list (string * D);
  fx_leases : list lease;
  fx_telemetry : FactorDagTelemetry;
  fx_closed : bool;
}.

Definition execution_getitem (x : FactorDagExecution) (node_key : string) : result D :=
  whenever fx_closed x raise RuntimeError "factor DAG execution is closed" ;;
  match dict_get (fx_outputs x) node_key with Some frame => Ok frame | None => Err (KeyError node_key) end.

(** A lease whose [close] raised: its columns are gone, it is not closed. *)
Definition lease_cleared (l : lease) : lease := mkLease (ls_generation l) (ls_node_key l) (ls_identity l) [] (ls_path l) (ls_closed l).

(** [for lease in leases: lease.close()]: the leases afterwards, and the exception *)
Fixpoint close_leases (leases : list lease) : disk C -> disk C * (list lease * result unit) := fun d =>
  match leases with
  | [] => (d, ([], Ok tt))
  | l :: leases =>
      match lease_close l d with
      | (d, Ok l) => let '(d, (leases, r)) := close_leases leases d in (d, (l :: leases, r))
      | (d, Err e) => (d, (lease_cleared l :: leases, Err e))
      end
  end.

(** [close]: what the object is afterwards, and the exception *)
Definition execution_close (x : FactorDagExecution) : disk C -> disk C * (FactorDagExecution * result unit) := fun d =>
  if fx_closed x then (d, (x, Ok tt))
  else
    match close_leases (fx_leases x) d with
    | (d, (_, Ok _)) => (d, (mkExecution [] [] (fx_telemetry x) true, Ok tt))
    | (d, (leases, Err e)) => (d, (mkExecution [] leases (fx_telemetry x) false, Err e))
    end.

(** ** The executor *)

(** [_validate_output] *)
Definition validate_output (identity : FactorNodeIdentity F C) (frame : D) : result unit :=
  unless bool_decide (df_columns frame = cn_name <$> id_output_schema identity)
    raise ValueError "factor node output columns do not match its identity schema" ;;
  unless forallb (fun b => b) (df_float64 frame) raise ValueError "mapped factor DAG output columns must use Polars Float64" ;;
  whenever existsb (fun name => negb (df_null_count frame name =? 0)) (df_columns frame)
    raise ValueError "mapped factor DAG output columns must not contain Polars nulls" ;;
  Ok tt.

(** The local lists of [execute] *)
Record dag_state := mkDag {
  dg_outputs : list (string * D);
  dg_leases : list lease;
  dg_hits : list string;
  dg_misses : list string;
  dg_writes : list string;
  dg_declines : list string;
  dg_rejection_hints : list string;
  dg_measurements : list (string * F * Z);
}.

Definition dag_start : dag_state := mkDag [] [] [] [] [] [] [] [].

Definition read_perf_counter : ST (disk C) F := fun d => (tick d, Ok (perf_counter (clock d))).

(** Opening a node's generation: [None] for a cache miss *)
Definition open_cached (node_key : string) : ST (disk C) (option lease) :=
  st_catch (l ← open_generation_by_node_key node_key (f_of_Z 60); mret (Some l))
    (fun e =>
      match e with
      | FactorNodeCacheMiss => mret None
      | FactorStoreError _ =>
          _ ← try_record_factor_cache_metrics (F:=F) [("corruption_failures"%string, VInt 1)];
          st_raise e
      | _ => st_raise e
      end).

(** [{parent: outputs[parent] for parent in node.identity.parents}] *)
Definition parent_outputs (outputs : list (string * D)) (parents : list string) : result (list (string * D)) :=
  mapM (fun parent => match dict_get outputs parent with Some frame => Ok (parent, frame) | None => Err (KeyError parent) end) parents.

(** A miss: compute, measure, and publish or decline *)
Definition compute_node (policy : FactorCacheAdmissionPolicy F) (rejected_hint : bool) (s : dag_state) (n : PolarsFactorNode) :
  ST (disk C) dag_state :=
  let key := FactorIdentity.node_key (pn_identity n) in
  parents ← st_lift (parent_outputs (dg_outputs s) (id_parents (pn_identity n)));
  started ← read_perf_counter;
  frame ← st_lift (pn_compute n parents);
  ended ← read_perf_counter;
  let compute_seconds := f_sub ended started in
  _ ← st_lift (validate_output (pn_identity n) frame);
  let output_bytes := df_estimated_size frame in
  let measurements := dg_measurements s ++ [(key, compute_seconds, output_bytes)] in
  admitted ← st_lift (policy_admit policy compute_seconds output_bytes (pn_expected_uses n));
  decided ← (if (admitted : bool) then
      let columns := (fun name => (name, df_to_numpy frame name)) <$> df_columns frame in
      _ ← publish_factor_node (pn_identity n) columns;
      _ ← clear_rejection key;
      mret (dg_writes s ++ [key], dg_declines s)
    else
      _ ← (if rejected_hint then mret tt else record_rejection key (policy_key policy) compute_seconds output_bytes);
      mret (dg_writes s, dg_declines s ++ [key]));
  mret (mkDag (dict_set (dg_outputs s) key frame) (dg_leases s) (dg_hits s) (dg_misses s ++ [key]) decided.1 decided.2
          (dg_rejection_hints s) measurements).

(** A hit: the frame of the leased columns *)
Definition reuse_node (s : dag_state) (n : PolarsFactorNode) (l : lease) : ST (disk C) dag_state :=
  let key := FactorIdentity.node_key (pn_identity n) in
  _ ← clear_rejection key;
  columns ← st_lift (mapM (fun column => values ← lease_getitem l (cn_name column); Ok (cn_name column, mc_values values))
                       (id_output_schema (pn_identity n)));
  let frame := df_of_columns columns in
  _ ← st_lift (validate_output (pn_identity n) frame);
  mret (mkDag (dict_set (dg_outputs s) key frame) (dg_leases s ++ [l]) (dg_hits s ++ [key]) (dg_misses s) (dg_writes s)
          (dg_declines s) (dg_rejection_hints s) (dg_measurements s)).

(** One node of the loop *)
Definition execute_node (policy : FactorCacheAdmissionPolicy F) (s : dag_state) (n : PolarsFactorNode) : ST (disk C) dag_state :=
  let key := FactorIdentity.node_key (pn_identity n) in
  _ ← st_guard (negb (dict_mem (dg_outputs s) key)) (ValueError "factor DAG contains a duplicate node identity");
  _ ← st_guard (forallb (dict_mem (dg_outputs s)) (id_parents (pn_identity n))) (ValueError "factor DAG nodes must be topologically ordered");
  rejected ← has_recent_rejection key (policy_key policy) (po_rejection_ttl_seconds policy);
  indexed ← query (fun t => Ok (path_exists t (nodes_dir // key)));
  let rejected_hint := rejected && negb (indexed : bool) in
  if rejected_hint then
    compute_node policy true
      (mkDag (dg_outputs s) (dg_leases s) (dg_hits s) (dg_misses s) (dg_writes s) (dg_declines s) (dg_rejection_hints s ++ [key])
         (dg_measurements s)) n
  else
    opened ← open_cached key;
    match opened with
    | Some l => reuse_node s n l
    | None => compute_node policy false s n
    end.

(** [except BaseException: for lease in leases: lease.close(); raise] *)
Definition close_and_raise {A} (leases : list lease) (e : exn) : ST (disk C) A :=
  _ ← st_iter (fun l => _ ← lease_close l; mret tt) leases;
  st_raise e.

(** The loop; when a node raises, the leases taken so far are closed. *)
Fixpoint execute_nodes (policy : FactorCacheAdmissionPolicy F) (nodes : list PolarsFactorNode) (s : dag_state) : ST (disk C) dag_state :=
  match nodes with
  | [] => mret s
  | n :: nodes =>
      s ← st_catch (execute_node policy s n) (close_and_raise (dg_leases s));
      execute_nodes policy nodes s
  end.

Definition execute (policy : FactorCacheAdmissionPolicy F) (nodes : list PolarsFactorNode) : ST (disk C) FactorDagExecution :=
  _ ← st_guard (negb (bool_decide (length nodes = 0%nat))) (ValueError "factor DAG must contain at least one node");
  s ← execute_nodes policy nodes dag_start;
  metrics_recorded ← try_record_factor_cache_metrics (F:=F) [
    ("cache_hits", VInt (Z.of_nat (length (dg_hits s)))); ("cache_misses", VInt (Z.of_nat (length (dg_misses s))));
    ("cache_admissions", VInt (Z.of_nat (length (dg_writes s)))); ("cache_declines", VInt (Z.of_nat (length (dg_declines s))))]%string;
  mret (mkExecution (dg_outputs s) (dg_leases s)
          (mkTelemetry (dg_hits s) (dg_misses s) (dg_writes s) (dg_declines s) (dg_rejection_hints s) (dg_measurements s) metrics_recorded)
          false).
End dag.
Arguments PolarsFactorNode F C D : clear implicits.
Arguments FactorDagExecution F C D : clear implicits.
