(* ===== verification/FactorDagFacts.v ===== *)
(** * Cached execution computes what the nodes compute

    [evaluate] runs the nodes of a DAG without a cache.  A store is sound for its
    frames when every node that opens holds the columns of its frame.  Execution keeps
    the store sound at every moment, and what it returns agrees with [evaluate]. *)

From S2P Require Import Prelude Numeric FactorIdentity FactorIdentityFacts Fs CacheFiles CacheWitness Metrics MetricsFacts.
From S2P Require Import FactorStore FactorStoreFacts StoreCleanup StoreCleanupFacts EvictionFacts Admission FactorDag.

#[local] Open Scope Z_scope.

(** What Polars documents: a frame has distinct columns, each converts to one
    dimension, and a frame made of float arrays gives them back. *)
Class DataFramesLaws (F D : Type) `{DataFrames F D} : Prop := {
  df_columns_distinct (f : D) : NoDup (df_columns f);
  df_to_numpy_ndim (f : D) name : fa_ndim (df_to_numpy f name) = 1;
  df_columns_of (l : list (string * list F)) : NoDup l.*1 -> df_columns (df_of_columns l : D) = l.*1;
  df_float64_of (l : list (string * list F)) : forallb (fun b => b) (df_float64 (df_of_columns l : D)) = true;
  df_null_of (l : list (string * list F)) name : df_null_count (df_of_columns l : D) name = 0;
  df_to_numpy_of (l : list (string * list F)) name values : NoDup l.*1 -> (name, values) ∈ l ->
    df_to_numpy (df_of_columns l : D) name = mkArray 1 values;
}.

Section frames.
Context {F D : Type} `{DataFrames F D}.

(** Frames that show the same columns *)
#[export] Instance frame_equiv : Equiv D := fun f g =>
  df_columns f = df_columns g /\ forallb (fun b => b) (df_float64 f) = forallb (fun b => b) (df_float64 g) /\
  forall name, name ∈ df_columns f -> df_null_count f name = df_null_count g name /\ df_to_numpy f name = df_to_numpy g name.

#[export] Instance frame_equivalence : Equivalence (≡@{D}).
Proof.
  split.
  - by intros f.
  - intros f g (Hc & Hf & Hn). split_and!; [done..|]. intros name Hin. rewrite <- Hc in Hin. by destruct (Hn name Hin).
  - intros f g h (Hc & Hf & Hn) (Hc' & Hf' & Hn'). split_and!; [congruence..|]. intros name Hin. destruct (Hn name Hin) as [-> ->].
    apply Hn'. by rewrite <- Hc.
Qed.

Definition same_outputs : relation (list (string * D)) := Forall2 (fun x y => x.1 = y.1 /\ x.2 ≡ y.2).

Definition same_result (r r' : result D) : Prop :=
  match r, r' with Ok f, Ok g => f ≡ g | Err e, Err e' => e = e' | _, _ => False end.

Lemma same_outputs_get outs outs' k : same_outputs outs outs' ->
  match dict_get outs k, dict_get outs' k with Some f, Some g => f ≡ g | None, None => True | _, _ => False end.
Proof. intros Hs. induction Hs as [|[x f] [y g] outs outs' [Hxy Hfg] Hs IH]; simpl in *; [done|]. subst y. by case_decide. Qed.

Lemma same_outputs_mem outs outs' k : same_outputs outs outs' -> dict_mem outs k = dict_mem outs' k.
Proof.
  intros Hs. pose proof (same_outputs_get _ _ k Hs) as Hg. unfold dict_mem. apply bool_decide_ext.
  destruct (dict_get outs k), (dict_get outs' k); try done; split; by intros [? ?]; eauto.
Qed.

Lemma same_outputs_keys outs outs' : same_outputs outs outs' -> outs.*1 = outs'.*1.
Proof. intros Hs. induction Hs as [|x y outs outs' [Hxy _] Hs IH]; [done|]. by rewrite !fmap_cons, Hxy, IH. Qed.

Lemma same_parents outs outs' parents : same_outputs outs outs' ->
  match parent_outputs outs parents, parent_outputs outs' parents with
  | Ok ps, Ok qs => same_outputs ps qs
  | Err e, Err e' => e = e'
  | _, _ => False
  end.
Proof.
  intros Hs. unfold parent_outputs. induction parents as [|p parents IH]; simpl; [constructor|].
  pose proof (same_outputs_get _ _ p Hs) as Hg. destruct (dict_get outs p), (dict_get outs' p); simpl; try done.
  destruct (mapM _ parents), (mapM _ parents); simpl; try done. by constructor.
Qed.
End frames.

Section facts.
Context {F C D : Type} `{PyFloat F} `{JsonText F C} `{!JsonTextLaws F C} `{Sha256 C} `{CacheFiles F C} `{!CacheFilesLaws F C}
  `{Host C} `{World} `{!WorldLaws} `{!UuidLaws} `{DataFrames F D} `{!DataFramesLaws F D} `{Timer F}.
Implicit Types (t : tree C) (p q : path) (e : exn) (n : PolarsFactorNode F C D) (outs : list (string * D)).
Abbreviation key n := (node_key (pn_identity n)).

(** ** The reference: nodes without a cache *)

Definition evaluate_node outs n : result (list (string * D)) :=
  whenever dict_mem outs (key n) raise ValueError "factor DAG contains a duplicate node identity" ;;
  unless forallb (dict_mem outs) (id_parents (pn_identity n)) raise ValueError "factor DAG nodes must be topologically ordered" ;;
  parents ← parent_outputs outs (id_parents (pn_identity n));
  frame ← pn_compute n parents;
  _ ← validate_output (pn_identity n) frame;
  Ok (outs ++ [(key n, frame)]).

Definition evaluate (nodes : list (PolarsFactorNode F C D)) : result (list (string * D)) := foldE evaluate_node [] nodes.

(** A node: an identity as the constructor makes it, and a computation that depends on
    its parents' columns only *)
Definition node_ok n : Prop :=
  constructed (pn_identity n) /\
  Forall (fun c => FactorColumnSchema_init (cn_name c) (cn_dtype c) (cn_nullable c) = Ok c) (id_output_schema (pn_identity n)) /\
  Proper (same_outputs ==> same_result) (pn_compute n).

Lemma evaluate_node_spec outs n outs' : evaluate_node outs n = Ok outs' -> exists parents frame,
  dict_get outs (key n) = None /\ parent_outputs outs (id_parents (pn_identity n)) = Ok parents /\
  pn_compute n parents = Ok frame /\ validate_output (pn_identity n) frame = Ok tt /\ outs' = outs ++ [(key n, frame)].
Proof.
  unfold evaluate_node. intros He. apply guard_bind_Ok in He as [Hd%negb_true_iff He]. apply guard_bind_Ok in He as [_ He].
  apply bind_Ok_inv in He as (parents & Hp & He). apply bind_Ok_inv in He as (frame & Hf & He).
  apply bind_Ok_inv in He as ([] & Hv & He). apply Ok_inj in He as <-. exists parents, frame. split_and!; try done.
  unfold dict_mem in Hd. apply bool_decide_eq_false in Hd. by apply eq_None_not_Some.
Qed.

Lemma validate_spec (i : FactorNodeIdentity F C) (f : D) : validate_output i f = Ok tt ->
  df_columns f = cn_name <$> id_output_schema i /\ forallb (fun b => b) (df_float64 f) = true /\
  forall name, name ∈ df_columns f -> df_null_count f name = 0.
Proof.
  unfold validate_output. intros Hv. apply guard_bind_Ok in Hv as [Hc%bool_decide_eq_true Hv]. apply guard_bind_Ok in Hv as [Hf Hv].
  apply guard_bind_Ok in Hv as [Hn _]. split_and!; [done..|]. intros name Hin. apply negb_true_iff in Hn.
  apply not_true_iff_false in Hn. destruct (Z.eq_dec (df_null_count f name) 0) as [|Hne]; [done|]. exfalso. apply Hn.
  apply existsb_exists. exists name. split; [by apply list_elem_of_In|]. by apply negb_true_iff, Z.eqb_neq.
Qed.

(** ** Sound stores *)

Abbreviation opened := (string * option (FactorNodeIdentity F C) * list (string * mapped_column F))%type.

(** What was opened holds the columns of the frame. *)
Definition holds (f : D) (columns : list (string * mapped_column F)) : Prop :=
  forall name, name ∈ df_columns f -> exists column, dict_get columns name = Some column /\
    mc_values column = fa_values (df_to_numpy f name).

(** Every node that opens holds its frame. *)
Definition sound (frames : list (string * D)) t : Prop :=
  forall k f v, dict_get frames k = Some f -> load_node (F:=F) k t = Ok v -> holds f v.2.

Lemma sound_stable frames : stable_inert (sound frames).
Proof.
  intros S t t' HS Hs Hout k f v Hf Hl. apply (Hs k f v Hf). by apply (load_node_inert_iff k t t' S v HS Hout).
Qed.

Lemma holds_equiv f g columns : f ≡ g -> holds f columns -> holds g columns.
Proof.
  intros (Hc & _ & Hn) Hf name Hin. rewrite <- Hc in Hin. destruct (Hf name Hin) as (column & Hg & Hv). exists column.
  split; [done|]. rewrite Hv. by destruct (Hn name Hin) as [_ ->].
Qed.

(** The arrays of a frame, as they are published *)
Definition columns_of (f : D) : list (string * factor_array (F:=F)) := (fun name => (name, df_to_numpy f name)) <$> df_columns f.

Lemma columns_of_keys (f : D) : (columns_of f).*1 = df_columns f.
Proof. unfold columns_of. rewrite <- list_fmap_compose. by rewrite list_fmap_id. Qed.

Lemma holds_published (f : D) : holds f (opened_columns (columns_of f)).
Proof.
  intros name Hin. exists (native_column (fa_values (df_to_numpy f name))). split; [|apply native_column_values].
  apply dict_In_get.
  - unfold dict_wf, dict_keys, opened_columns. rewrite <- list_fmap_compose. rewrite (sorted_columns_perm (columns_of f)).
    change (NoDup ((fun x : string * factor_array => x.1) <$> columns_of f)). rewrite columns_of_keys. apply df_columns_distinct.
  - unfold opened_columns. apply list_elem_of_fmap. exists (name, df_to_numpy f name). split; [done|]. rewrite sorted_columns_perm.
    apply list_elem_of_fmap. by exists name.
Qed.

(** ** Steps *)

Section run.
Context (frames : list (string * D)).
Abbreviation snd := (sound frames).

Lemma sound_keeps {A : Type} S (m : ST (disk C) A) : touches S m -> (forall p, S p -> inert p) -> triple snd snd m (fun _ => snd).
Proof. intros Hm HS. eapply (keeps_stable snd snd); [apply sound_stable|done|exact Hm|done]. Qed.

Definition quiet p : Prop := last p <> Some "nodes"%string /\ last p <> Some "generations"%string.
Lemma quiet_inert p : quiet p -> inert p.
Proof. intros [? ?]. by apply inert_top. Qed.

Lemma touches_admission k k' ttl secs bytes :
  touches quiet (has_recent_rejection (F:=F) (C:=C) k k' ttl) /\ touches quiet (record_rejection (F:=F) (C:=C) k k' secs bytes) /\
  touches quiet (clear_rejection (C:=C) k).
Proof.
  split_and!; unfold has_recent_rejection, record_rejection, clear_rejection; touch; unfold ancestors, only, quiet, hint_path, admission_dir, store; intros p Hp.
  - destruct Hp as [[|x [|y r]] Hr]; by simplify_eq/=.
  - rewrite Hp. done.
  - destruct Hp as [->| ->]; done.
  - rewrite Hp. done.
  - rewrite Hp. done.
Qed.

Lemma touches_metrics_quiet increments : touches quiet (try_record_factor_cache_metrics (F:=F) (C:=C) increments).
Proof. eapply touches_weaken; [apply touches_metrics|]. unfold quiet. intros p [->|Hp]; [done|]. by rewrite Hp. Qed.

Lemma quiet_keeps {A : Type} (m : ST (disk C) A) : touches quiet m -> triple snd snd m (fun _ => snd).
Proof. intros Hm. eapply sound_keeps; [exact Hm|]. apply quiet_inert. Qed.

(** *** Opening *)

Abbreviation lease := (FactorGenerationLease (F:=F) (C:=C)).

Definition good_lease k (l : lease) : Prop :=
  under leases_dir (ls_path l) /\ ls_closed l = false /\ ls_node_key l = k /\ forall f, dict_get frames k = Some f -> holds f (ls_columns l).

Lemma pointed_stable k g : stable_inert (fun t => snd t /\ require_node_pointer k t = Ok g).
Proof.
  intros S t t' HS [Hs Hp] Hout. split; [by eapply sound_stable|]. rewrite <- Hp. apply require_node_pointer_same, Hout.
  intros Hk. apply HS in Hk as [Hk _]. apply (Hk k); [|done]. by apply (require_node_pointer_valid k t g).
Qed.

Lemma open_by_key_triple k x :
  triple snd snd (open_generation_by_node_key k x) (fun r t => snd t /\ forall l, r = Ok l -> good_lease k l).
Proof.
  unfold open_generation_by_node_key. do 2 (apply triple_guarded; [by split|]; intros _).
  apply triple_bind with (R := fun _ => snd).
  { eapply triple_weaken; [eapply sound_keeps; [apply touches_store_lock|apply short_inert]|done..|]. by intros [] t Ht. }
  intros _. apply triple_bind with (R := fun g t => is_generation g = true /\ snd t /\ require_node_pointer k t = Ok g).
  { apply triple_query; [by split|]. intros t g Ht Hg. split_and!; [|done..]. by apply (require_node_pointer_valid k t g). }
  intros g. apply triple_pure. intros Hg. apply triple_bind with (R := fun l t => good_lease k l /\ snd t).
  - eapply triple_weaken; [apply (open_triple snd _ g (Some k) true Hg (pointed_stable k g)); by intros t []|done..|].
    intros [l|e] t [[Ht Hp] Hl]; [|done]. destruct (Hl l eq_refl) as (v & Hv & [Heq Hopen] & _ & [r Hr]).
    split; [|done]. split_and!.
    + rewrite Hr. exists (r ++ [g]). by rewrite <- app_assoc.
    + done.
    + apply load_expected in Hv as [_ Hk]. by rewrite <- Heq in Hk.
    + intros f Hf. apply (f_equal Datatypes.snd) in Heq. simpl in Heq. rewrite Heq. apply (Ht k f v Hf). unfold load_node. by rewrite Hp.
  - intros l. apply triple_pure. intros Hl. apply triple_bind with (R := fun _ => snd).
    + eapply triple_weaken; [eapply sound_keeps; [apply touches_record_node_access|done]|done..|]. by intros [] t Ht.
    + intros _. apply triple_ret. intros t Ht. split; [done|]. by intros l' [= <-].
Qed.

Lemma open_cached_triple k :
  triple snd snd (open_cached k) (fun r t => snd t /\ forall l, r = Ok (Some l) -> good_lease k l).
Proof.
  unfold open_cached. apply triple_catch with (R := fun _ => snd).
  - apply triple_bind with (R := fun l t => good_lease k l /\ snd t).
    + eapply triple_weaken; [apply open_by_key_triple|done..|]. intros [l|e] t [Ht Hl]; [|done]. split; [by apply Hl|done].
    + intros l. apply triple_pure. intros Hl. apply triple_ret. intros t Ht. split; [done|]. by intros l' [= <-].
  - assert (forall e, triple snd snd (@st_raise (disk C) (option lease) e) (fun r t => snd t /\ forall l, r = Ok (Some l) -> good_lease k l))
      as Hraise by (intros e; apply triple_raise; by split).
    intros e. destruct e; try apply Hraise.
    + apply triple_bind with (R := fun _ => snd); [|intros _; apply Hraise].
      eapply triple_weaken; [apply quiet_keeps, touches_metrics_quiet|done..|]. by intros [] t Ht.
    + apply triple_ret. by split.
Qed.

(** *** The loop *)

(** What the loop knows: its outputs are those of the reference, its leases are those of
    its hits, and its lists tell each node once. *)
Definition tracks (s : dag_state (F:=F) (C:=C) (D:=D)) outs : Prop :=
  same_outputs (dg_outputs s) outs /\
  Forall (fun l => under leases_dir (ls_path l)) (dg_leases s) /\
  ls_node_key <$> dg_leases s = dg_hits s /\
  dg_hits s ++ dg_misses s ≡ₚ outs.*1 /\
  dg_writes s ++ dg_declines s ≡ₚ dg_misses s /\
  (dg_measurements s).*1.*1 = dg_misses s.

Lemma start_tracks : tracks dag_start [].
Proof. by split_and!. Qed.

Context (policy : FactorCacheAdmissionPolicy F) (n : PolarsFactorNode F C D) (outs : list (string * D)) (f : D) (parents : list (string * D)).
Context (Hnode : node_ok n) (Hfresh : dict_get outs (key n) = None)
  (Hparents : parent_outputs outs (id_parents (pn_identity n)) = Ok parents) (Hcompute : pn_compute n parents = Ok f)
  (Hvalid : validate_output (pn_identity n) f = Ok tt) (Hframe : dict_get frames (key n) = Some f).

Abbreviation next := (outs ++ [(key n, f)]).
Abbreviation done_node := (fun (r : result dag_state) t => snd t /\ forall s, r = Ok s -> tracks s next).

Lemma tracks_set s g : tracks s outs -> g ≡ f -> same_outputs (dict_set (dg_outputs s) (key n) g) next.
Proof.
  intros (Ho & _) Hg. rewrite dict_set_fresh.
  - apply Forall2_app; [done|]. apply Forall2_cons. split; [by split|constructor].
  - pose proof (same_outputs_get _ _ (key n) Ho) as Hget. rewrite Hfresh in Hget. by destruct (dict_get (dg_outputs s) (key n)).
Qed.

(** A frame made of the columns of a good lease *)
Lemma reused_frame l columns : good_lease (key n) l ->
  mapM (fun column => values ← lease_getitem l (cn_name column); Ok (cn_name column, mc_values values)) (id_output_schema (pn_identity n)) = Ok columns ->
  (df_of_columns columns : D) ≡ f.
Proof.
  intros (_ & Hopen & _ & Hholds) Hm%mapM_Ok. specialize (Hholds f Hframe). destruct (validate_spec _ _ Hvalid) as (Hc & Hfl & Hnull).
  assert (columns.*1 = df_columns f) as Hkeys.
  { rewrite Hc. clear Hc. induction Hm as [|c x cs xs Hx Hm IH]; [done|]. rewrite !fmap_cons, IH.
    apply bind_Ok_inv in Hx as (values & _ & Hx). by injection Hx as <-. }
  assert (NoDup columns.*1) as Hnd by (rewrite Hkeys; apply df_columns_distinct).
  assert (forall name values, (name, values) ∈ columns -> values = fa_values (df_to_numpy f name)) as Hvalues.
  { intros name values Hin. apply list_elem_of_lookup in Hin as [j Hin].
    destruct (Forall2_lookup_r _ _ _ _ _ Hm Hin) as (c & Hj & Hx). apply bind_Ok_inv in Hx as (col & Hcol & Hx).
    injection Hx as <- <-. unfold lease_getitem in Hcol. rewrite Hopen in Hcol. simpl in Hcol.
    destruct (Hholds (cn_name c)) as (col' & Hg & Hv).
    - rewrite Hc. apply list_elem_of_fmap. exists c. split; [done|]. by eapply list_elem_of_lookup_2.
    - rewrite Hg in Hcol. injection Hcol as <-. done. }
  split_and!.
  - by rewrite df_columns_of.
  - by rewrite df_float64_of, Hfl.
  - intros name Hin. rewrite df_columns_of in Hin by done. apply list_elem_of_fmap in Hin as ([name' values] & -> & Hin). simpl.
    rewrite df_null_of, Hnull; [|rewrite <- Hkeys; apply list_elem_of_fmap; by eexists (_, _)]. split; [done|].
    rewrite (df_to_numpy_of columns name' values Hnd Hin). rewrite (Hvalues _ _ Hin).
    pose proof (df_to_numpy_ndim f name') as Hdim. destruct (df_to_numpy f name'). simpl in *. by subst.
Qed.

Lemma reuse_node_triple s l : tracks s outs -> good_lease (key n) l -> triple snd snd (reuse_node s n l) done_node.
Proof.
  intros Hs Hl. unfold reuse_node. apply triple_bind with (R := fun _ => snd).
  { eapply triple_weaken; [eapply quiet_keeps, (touches_admission (key n) "" f_zero f_zero 0)|done..|]. by intros [] t Ht. }
  intros _. apply triple_bind with (R := fun columns t => (df_of_columns columns : D) ≡ f /\ snd t).
  { apply triple_lift. intros t Ht. destruct (mapM _ _) as [columns|e] eqn:Hm; [|by split]. split; [by eapply reused_frame|done]. }
  intros columns. apply triple_pure. intros Hframe'. cbv zeta. apply triple_bind with (R := fun _ => snd).
  { apply triple_lift. intros t Ht. case_match; [done|by split]. }
  intros _. apply triple_ret. intros t Ht. split; [done|]. intros s' [= <-].
  pose proof (tracks_set s _ Hs Hframe') as Hset. destruct Hs as (Ho & Hpaths & Hkeys & Hparts & Hmiss & Hmeas).
  destruct Hl as (Hpath & _ & Hk & _). split_and!; simpl.
  - done.
  - apply Forall_app. split; [done|]. by constructor.
  - by rewrite fmap_app, Hkeys, <- Hk.
  - rewrite fmap_app. simpl. rewrite <- Hparts. rewrite <- !app_assoc. apply Permutation_app_head, Permutation_app_comm.
  - done.
  - done.
Qed.

(** Publishing a frame like the reference's keeps the store sound. *)
Lemma publish_node_triple g : g ≡ f ->
  triple snd snd (publish_factor_node (pn_identity n) (columns_of g)) (fun _ => snd).
Proof.
  intros Hg. unfold publish_factor_node. do 2 (apply triple_guarded; [done|]; intros _).
  destruct Hnode as (Hi & Hcols & _). destruct (reread_constructed _ Hi Hcols) as (i' & Hi' & Hc' & Hsame).
  assert (node_key i' = key n) as Hkey by (unfold node_key; f_equal; symmetry; by apply payload_iff).
  intros d Hd. assert (NoDup (columns_of g).*1) as Hnd by (rewrite columns_of_keys; apply df_columns_distinct).
  pose proof (publish_any (pn_identity n) i' (columns_of g) (now d) None false Hi Hi' Hkey Hnd d (undisturbed_start _ _ _ _)) as Ht.
  assert (forall t, undisturbed (pn_identity n) i' (columns_of g) (now d) t -> snd t) as Hsound.
  { intros t (Hother & _ & Hthis) k f' v Hf Hl. destruct (decide (k = key n)) as [->|Hne].
    - apply Hthis in Hl as [Hl| ->]; [by eapply Hd|]. rewrite Hframe in Hf. injection Hf as <-.
      eapply holds_equiv; [exact Hg|]. apply holds_published.
    - apply (Hother k v Hne) in Hl. by eapply Hd. }
  destruct (publish_generation _ _ _ _ _ d) as [d' r]. destruct Ht as ((Hu & _) & ts & Htr & Hts). split; [by apply Hsound|].
  exists ts. split; [done|]. eapply Forall_impl; [exact Hts|]. exact Hsound.
Qed.

Lemma compute_triple hint s : tracks s outs -> triple snd snd (compute_node policy hint s n) done_node.
Proof.
  intros Hs. unfold compute_node. cbv zeta. pose proof Hs as (Ho & Hpaths & Hkeys & Hparts & Hmiss & Hmeas).
  assert (forall (m : ST (disk C) unit), triple snd snd m (fun _ => snd) ->
    triple snd snd m (fun r t => match r with Ok _ => snd t | Err e => done_node (Err e) t end)) as Hunit
    by (intros m Hm; eapply triple_weaken; [exact Hm|done..|]; by intros [] t Ht).
  apply triple_bind with (R := fun ps t => same_outputs ps parents /\ snd t).
  { apply triple_lift. intros t Ht. pose proof (same_parents _ _ (id_parents (pn_identity n)) Ho) as Hps. rewrite Hparents in Hps.
    destruct (parent_outputs (dg_outputs s) _); [by split|done]. }
  intros ps. apply triple_pure. intros Hps. apply triple_bind with (R := fun _ => snd); [intros d Hd; split; [done|]; exists []; by rewrite app_nil_r|].
  intros started. apply triple_bind with (R := fun g t => g ≡ f /\ snd t).
  { apply triple_lift. intros t Ht. destruct Hnode as (_ & _ & Hproper). pose proof (Hproper _ _ Hps) as Hr. rewrite Hcompute in Hr.
    destruct (pn_compute n ps); [by split|done]. }
  intros g. apply triple_pure. intros Hg. apply triple_bind with (R := fun _ => snd); [intros d Hd; split; [done|]; exists []; by rewrite app_nil_r|].
  intros ended. apply triple_bind with (R := fun _ => snd); [apply triple_lift; intros t Ht; case_match; [done|by split]|].
  intros _. apply triple_bind with (R := fun _ => snd); [apply triple_lift; intros t Ht; case_match; [done|by split]|].
  intros admitted. destruct (touches_admission (key n) (policy_key policy) f_zero (f_sub ended started) (df_estimated_size g)) as (_ & Hrec & Hclear).
  apply triple_bind with (R := fun decided t => decided.1 ++ decided.2 ≡ₚ dg_misses s ++ [key n] /\ snd t).
  { destruct admitted.
    - apply triple_bind with (R := fun _ => snd).
      { eapply triple_weaken; [by apply publish_node_triple|done..|]. by intros [] t Ht. }
      intros _. apply triple_bind with (R := fun _ => snd); [by apply Hunit, quiet_keeps|].
      intros _. apply triple_ret. intros t Ht. split; [|done]. simpl. rewrite <- Hmiss, <- !app_assoc. apply Permutation_app_head, Permutation_app_comm.
    - apply triple_bind with (R := fun _ => snd); [destruct hint; [by apply triple_ret|by apply Hunit, quiet_keeps]|].
      intros _. apply triple_ret. intros t Ht. split; [|done]. simpl. by rewrite <- Hmiss, app_assoc. }
  intros decided. apply triple_pure. intros Hdec. apply triple_ret. intros t Ht. split; [done|]. intros s' [= <-].
  split_and!; simpl; [by apply tracks_set|done|done| |done|].
  - rewrite fmap_app. simpl. by rewrite <- Hparts, app_assoc.
  - by rewrite !fmap_app, Hmeas.
Qed.

Lemma node_triple s : tracks s outs -> triple snd snd (execute_node policy s n) done_node.
Proof.
  intros Hs. unfold execute_node. cbv zeta. do 2 (apply triple_guarded; [by split|]; intros _).
  apply triple_bind with (R := fun _ => snd).
  { eapply triple_weaken; [eapply quiet_keeps, (touches_admission (key n) (policy_key policy) (po_rejection_ttl_seconds policy) f_zero 0)|done..|].
    by intros [] t Ht. }
  intros rejected. apply triple_bind with (R := fun _ => snd); [apply triple_query; [by split|done]|]. intros indexed.
  destruct (rejected && negb indexed); [by apply compute_triple|].
  apply triple_bind with (R := fun o t => (forall l, o = Some l -> good_lease (key n) l) /\ snd t).
  { eapply triple_weaken; [apply open_cached_triple|done..|]. intros [o|e] t [Ht Hl]; [|by split]. split; [|done]. intros l ->. by apply Hl. }
  intros o. apply triple_pure. intros Hl. destruct o as [l|]; [by apply reuse_node_triple; [|apply Hl]|by apply compute_triple].
Qed.
End run.

(** *** The loop *)

Lemma evaluate_extends nodes outs frames : foldE evaluate_node outs nodes = Ok frames -> exists more, frames = outs ++ more.
Proof.
  revert outs. induction nodes as [|n nodes IH]; intros outs He; cbn [foldE] in He.
  - apply Ok_inj in He as <-. exists []. by rewrite app_nil_r.
  - apply bind_Ok_inv in He as (outs' & Hn & He). apply IH in He as [more ->].
    apply evaluate_node_spec in Hn as (? & f & _ & _ & _ & _ & ->). eexists. by rewrite <- app_assoc.
Qed.

Lemma close_keeps frames {A : Type} (leases : list (FactorGenerationLease (F:=F) (C:=C))) e : Forall (fun l => under leases_dir (ls_path l)) leases ->
  triple (sound frames) (sound frames) (close_and_raise (A:=A) leases e) (fun r t => sound frames t /\ forall a, r <> Ok a).
Proof.
  intros Hl. unfold close_and_raise. apply triple_bind with (R := fun _ => sound frames).
  - eapply triple_weaken; [apply triple_iter|done..|].
    + intros l Hin. rewrite Forall_forall in Hl. apply (sound_keeps frames (only (ls_path l))); [unfold lease_close; touch; done|].
      intros p ->. by apply under_leases_inert, Hl.
    + by intros [] t Ht.
  - intros _. by apply triple_raise.
Qed.

Lemma nodes_triple policy nodes frames outs s : Forall node_ok nodes -> foldE evaluate_node outs nodes = Ok frames -> tracks s outs ->
  triple (sound frames) (sound frames) (execute_nodes policy nodes s)
    (fun r t => sound frames t /\ forall s, r = Ok s -> tracks s frames).
Proof.
  revert outs s. induction nodes as [|n nodes IH]; intros outs s Hok He Hs; cbn [foldE execute_nodes] in *.
  - apply Ok_inj in He as <-. apply triple_ret. intros t Ht. split; [done|]. by intros s' [= <-].
  - apply Forall_cons in Hok as [Hn Hok]. apply bind_Ok_inv in He as (outs' & Hstep & He).
    destruct (evaluate_extends _ _ _ He) as [more Hmore].
    apply evaluate_node_spec in Hstep as (parents & f & Hfresh & Hparents & Hcompute & Hvalid & ->).
    assert (dict_get frames (key n) = Some f) as Hframe.
    { rewrite Hmore, !dict_get_app, Hfresh. simpl. by rewrite decide_True. }
    apply triple_bind with (R := fun s t => tracks s (outs ++ [(key n, f)]) /\ sound frames t).
    + apply triple_catch with (R := fun _ => sound frames).
      * eapply triple_weaken; [by eapply (node_triple frames policy n outs f parents)|done..|].
        intros [s'|e] t [Ht Hs']; [split; [by apply Hs'|done]|done].
      * intros e. eapply triple_weaken; [apply close_keeps; by destruct Hs as (_ & ? & _)|done..|].
        intros [s'|e'] t [Ht Hno]; [by destruct (Hno s')|by split].
    + intros s'. apply triple_pure. intros Hs'. by eapply IH.
Qed.

(** The frames of the reference in order, a lease for each hit, and each node told once *)
Definition agrees (x : FactorDagExecution F C D) (frames : list (string * D)) : Prop :=
  same_outputs (fx_outputs x) frames /\ fx_closed x = false /\
  ls_node_key <$> fx_leases x = te_cache_hits (fx_telemetry x) /\
  te_cache_hits (fx_telemetry x) ++ te_cache_misses (fx_telemetry x) ≡ₚ frames.*1 /\
  te_cache_writes (fx_telemetry x) ++ te_cache_declines (fx_telemetry x) ≡ₚ te_cache_misses (fx_telemetry x).

(** C19: Cached execution is evaluation.  When the nodes, run without a cache, give
    [frames], and every node the store can open holds its frame, then: whatever call
    fails and wherever the process dies, the store stays so at every moment; and an
    execution that returns gives exactly these frames in order, whether each was
    opened or computed, with one open lease for each hit, every node told as a hit or
    a miss, and every miss as written or declined. *)
Theorem execute_sound (policy : FactorCacheAdmissionPolicy F) (nodes : list (PolarsFactorNode F C D)) frames (d : disk C) :
  Forall node_ok nodes -> evaluate nodes = Ok frames -> sound frames (now d) ->
  let '(d', r) := execute policy nodes d in
  sound frames (now d') /\ (exists ts, trace d' = trace d ++ ts /\ Forall (sound frames) ts) /\
  forall x, r = Ok x -> agrees x frames.
Proof.
  intros Hok He Hd.
  assert (triple (sound frames) (sound frames) (execute policy nodes) (fun r t => sound frames t /\ forall x, r = Ok x -> agrees x frames)) as Ht.
  { unfold execute. apply triple_guarded; [by split|]. intros _.
    apply triple_bind with (R := fun s t => tracks s frames /\ sound frames t).
    { eapply triple_weaken; [by eapply nodes_triple, start_tracks|done..|]. intros [s|e] t [Ht Hs]; [split; [by apply Hs|done]|by split]. }
    intros s. apply triple_pure. intros (Ho & _ & Hkeys & Hparts & Hmiss & _). apply triple_bind with (R := fun _ => sound frames).
    { eapply triple_weaken; [apply quiet_keeps, touches_metrics_quiet|done..|]. intros [b|e] t Ht; [done|by split]. }
    intros recorded. apply triple_ret. intros t Ht. split; [done|]. intros x [= <-]. by split_and!. }
  specialize (Ht d Hd). destruct (execute policy nodes d) as [d' r]. destruct Ht as ((Hs & Hr) & ts & Htr & Hts). eauto 10.
Qed.
End facts.

(** ** A witness: two nodes, run twice *)

(** Frames as columns by name *)
#[local] Instance held_frames : DataFrames XQ (list (string * list XQ)) := {|
  df_columns f := if bool_decide (NoDup f.*1) then f.*1 else [];
  df_float64 f := (fun _ => true) <$> f;
  df_null_count _ _ := 0;
  df_to_numpy f name := mkArray 1 (default [] (dict_get f name));
  df_estimated_size f := Z.of_nat (length f);
  df_of_columns l := l;
|}.
#[local] Instance held_frames_laws : DataFramesLaws XQ (list (string * list XQ)).
Proof.
  split; simpl.
  - intros f. case_bool_decide; [done|constructor].
  - done.
  - intros l Hl. by rewrite bool_decide_eq_true_2.
  - intros l. by induction l.
  - done.
  - intros l name values Hl Hin. by rewrite (dict_In_get l name values).
Qed.
#[local] Instance held_timer : Timer XQ := fun n => f_of_Z (Z.of_nat n).

Abbreviation frame := (list (string * list XQ)).

Definition two_values : frame := [("value"%string, [f_of_Z 1; f_of_Z 2])].
Definition doubled (parents : list (string * frame)) : result frame :=
  match parents with
  | [(_, f)] =>
      if bool_decide (df_columns f = ["value"%string]) then
        Ok [("value"%string, (fun x => f_add x x) <$> fa_values (df_to_numpy (F:=XQ) f "value"))]
      else Err (ValueError "unexpected columns")
  | _ => Err (ValueError "unexpected parents")
  end.
Definition parent_node : PolarsFactorNode XQ held frame := mkNode (held_node "a" []) (fun _ => Ok two_values) 2.
Definition child_node : PolarsFactorNode XQ held frame := mkNode (held_node "b" [key_a]) doubled 2.
Definition dag : list (PolarsFactorNode XQ held frame) := [parent_node; child_node].
Definition forced : FactorCacheAdmissionPolicy XQ := match always with Ok p => p | Err _ => default_policy end.

Lemma dag_ok : Forall node_ok dag.
Proof.
  repeat constructor; simpl; try (apply held_columns_built); try (vm_compute; reflexivity);
    try (apply (bool_decide_eq_true_1 _); vm_compute; reflexivity).
  intros ps qs Hs. unfold doubled. destruct Hs as [|[x f] [y g] ps qs [_ Hfg] Hs]; [done|]. destruct Hs; [|done].
  destruct Hfg as (Hc & _ & Hn). simpl snd in *. rewrite <- Hc. case_bool_decide as Hd; [|done].
  destruct (Hn "value"%string) as [_ Hv]; [rewrite Hd; by left|]. rewrite Hv. by split_and!.
Qed.

Definition first_run : disk held * result (FactorDagExecution XQ held frame) := execute forced dag fresh_disk.
Definition second_run : disk held * result (FactorDagExecution XQ held frame) := execute forced dag first_run.1.

(** The first run computes and writes both nodes; the second finds both in the store. *)
Lemma execute_sound_witness :
  (exists frames, evaluate dag = Ok frames /\ sound frames (now first_run.1) /\
    exists x, second_run.2 = Ok x /\ same_outputs (fx_outputs x) frames /\ length (te_cache_hits (fx_telemetry x)) = 2%nat) /\
  (fun x => te_cache_writes (fx_telemetry x)) <$> first_run.2 = Ok [key_a; node_key (held_node "b" [key_a])].
Proof.
  split; [|vm_compute; reflexivity].
  destruct (evaluate dag) as [frames|] eqn:He; [|vm_compute in He; discriminate He]. exists frames. split; [reflexivity|].
  assert (sound frames (now fresh_disk)) as H0.
  { intros k f v _ Hl. apply bind_Ok_inv in Hl as (g & Hp%pointer_present & _). simpl in Hp. rewrite lookup_empty in Hp. by destruct Hp. }
  pose proof (execute_sound forced dag frames fresh_disk dag_ok He H0) as H1.
  assert (sound frames (now first_run.1)) as Hs1 by (unfold first_run; destruct (execute forced dag fresh_disk); apply H1).
  split; [exact Hs1|]. pose proof (execute_sound forced dag frames first_run.1 dag_ok He Hs1) as H2.
  assert ((fun x => length (te_cache_hits (fx_telemetry x))) <$> second_run.2 = Ok 2%nat) as Hhits by (vm_compute; reflexivity).
  unfold second_run in *. destruct (execute forced dag first_run.1) as [d' [x|e]]; [|discriminate Hhits].
  simpl in Hhits. injection Hhits as Hhits. exists x. split; [reflexivity|]. split; [|exact Hhits].
  destruct H2 as (_ & _ & H2). by destruct (H2 x eq_refl).
Defined.
