(* ===== verification/Markets.v ===== *)
(** * E-mini futures and options (markets.py, and the dates of holiday_calendars.py)

    Contract symbols, their years and months, the front contract of a date and the
    expiries.  A civil date is its year, month and day; a day number counts from
    1970-01-01, as [datetime64[D]] does.  Expiries are rolled by the exchange's
    trading calendar (file Calendar). *)

From Stdlib Require Import Ascii.
From stdpp Require Import pretty.
From S2P Require Import Prelude Numeric Vendor Boundaries FactorIdentity Calendar.

#[local] Open Scope Z_scope.

(** ** Civil dates, as Python's datetime module counts them *)

Definition leap (y : Z) : bool := (y mod 4 =? 0) && (negb (y mod 100 =? 0) || (y mod 400 =? 0)).

(** Days before January 1st of the year, from 0001-01-01 on *)
Definition days_before_year (y : Z) : Z := (y - 1) * 365 + (y - 1) / 4 - (y - 1) / 100 + (y - 1) / 400.

Definition DAYS_BEFORE_MONTH : list Z := [0; 31; 59; 90; 120; 151; 181; 212; 243; 273; 304; 334; 365].
Definition days_before_month (y m : Z) : Z :=
  nth (Z.to_nat (m - 1)) DAYS_BEFORE_MONTH 0 + (if (2 <? m) && leap y then 1 else 0).

Definition days_in_month (y m : Z) : Z :=
  nth (Z.to_nat m) DAYS_BEFORE_MONTH 0 - nth (Z.to_nat (m - 1)) DAYS_BEFORE_MONTH 0 + (if (m =? 2) && leap y then 1 else 0).

(** The day number of the first of a month *)
Definition first_of_month (y m : Z) : Z := days_before_year y + days_before_month y m - 719162.

Record date := mkDate { da_year : Z; da_month : Z; da_day : Z }.

Definition day_number (d : date) : Z := first_of_month (da_year d) (da_month d) + da_day d - 1.

Definition valid_month (y m : Z) : bool := (1 <=? y) && (y <=? 9999) && (1 <=? m) && (m <=? 12).
Definition valid_date (d : date) : bool :=
  valid_month (da_year d) (da_month d) && (1 <=? da_day d) && (da_day d <=? days_in_month (da_year d) (da_month d)).

(** [datetime.datetime(year, month, 1)] *)
Definition first_day_of_month (year month : Z) : result Z :=
  unless valid_month year month raise ValueError "month must be in 1..12" ;;
  Ok (first_of_month year month).

(** [weekday()]: Monday is 0. *)
Definition weekday_of (n : Z) : Z := (n + 3) mod 7.

(** [day_number.astype(datetime.date)] *)
Definition year_holding (n y : Z) : bool := (first_of_month y 1 <=? n) && (n <? first_of_month (y + 1) 1).
Definition month_holding (n y m : Z) : bool := (first_of_month y m <=? n) && (n <? first_of_month y m + days_in_month y m).
Definition date_of (n : Z) : option date :=
  y ← List.find (year_holding n) (seqZ ((n + 719162) * 400 / 146097 - 1) 4);
  m ← List.find (month_holding n y) (seqZ 1 12);
  Some (mkDate y m (n - first_of_month y m + 1)).

(** ** Months of futures *)

Definition FUTURE_CODES_INT : list (string * Z) :=
  [("F", 1); ("G", 2); ("H", 3); ("J", 4); ("K", 5); ("M", 6); ("N", 7); ("Q", 8); ("U", 9); ("V", 10); ("X", 11); ("Z", 12)]%string.
Definition FUTURES_CODES_INVERTED : list (Z * string) := (fun x => (x.2, x.1)) <$> FUTURE_CODES_INT.
Definition CURRENT_SYMBOL_DECADE : Z := 2020.
Definition FUTURE_CODES_STR : list (string * string) :=
  [("F", "jan"); ("G", "feb"); ("H", "mar"); ("J", "apr"); ("K", "may"); ("M", "jun"); ("N", "jul"); ("Q", "aug"); ("U", "sep");
   ("V", "oct"); ("X", "nov"); ("Z", "dec")]%string.

(** [assert_] outside the debugger *)
Definition assert_ (condition : bool) (msg : string) : result unit := if condition then Ok tt else Err (PQException msg).

Definition future_code_to_month (future_code : string) : result string :=
  _ ← assert_ (String.length future_code =? 1)%nat "Future code must be a single character";
  match dict_get FUTURE_CODES_STR future_code with Some m => Ok m | None => Err (GenericException "unknown future code") end.

Definition future_code_to_month_number (future_code : string) : result Z :=
  _ ← assert_ (String.length future_code =? 1)%nat "Future code must be a single character";
  match dict_get FUTURE_CODES_INT future_code with Some m => Ok m | None => Err (GenericException "unknown future code") end.

Definition get_future_code (month : Z) : result string :=
  match dict_get FUTURES_CODES_INVERTED month with Some code => Ok code | None => Err (KeyError (pretty month)) end.

(** ** Years of symbols *)

Definition digit_value (c : ascii) : Z := Z.of_N (N_of_ascii c) - 48.
Definition is_decimal (c : ascii) : bool := ascii_in "0" "9" c.

(** [_decode_contract_year] *)
Definition decode_contract_year (year_code : string) : result Z :=
  match year_code with
  | String a "" => unless is_decimal a raise ValueError "contract year must contain one or two digits" ;;
                   Ok (CURRENT_SYMBOL_DECADE + digit_value a)
  | String a (String b "") => unless is_decimal a && is_decimal b raise ValueError "contract year must contain one or two digits" ;;
                   Ok (2000 + (10 * digit_value a + digit_value b))
  | _ => Err (ValueError "contract year must contain one or two digits")
  end.

Definition digit_char (z : Z) : ascii := ascii_of_N (Z.to_N (48 + z)).

(** [_format_contract_year] *)
Definition format_contract_year (year : Z) : result string :=
  unless (2000 <=? year) && (year <=? 2099) raise ValueError "contract year is outside the supported 2000-2099 range" ;;
  if (CURRENT_SYMBOL_DECADE <=? year) && (year <? CURRENT_SYMBOL_DECADE + 10) then Ok (String (digit_char (year mod 10)) "")
  else Ok (String (digit_char (year mod 100 / 10)) (String (digit_char (year mod 10)) "")).

(** The month letter and the year digits [([FGHJKMNQUVXZ])(\d{1,2})] at the end of a symbol *)
Definition month_and_year (rest : string) : option (string * string) :=
  match rest with
  | String m year =>
      let code := String m "" in
      let digits := match year with
        | String a "" => is_decimal a
        | String a (String b "") => is_decimal a && is_decimal b
        | _ => false end in
      if bool_decide (is_Some (dict_get FUTURE_CODES_INT code)) && digits then Some (code, year) else None
  | "" => None
  end%string.

(** [_parse_future_symbol] *)
Definition parse_future_symbol (symbol : string) : result (string * Z) :=
  match symbol with
  | String "E" (String "S" rest) =>
      match month_and_year rest with
      | Some (month, year) => year ← decode_contract_year year; Ok (month, year)
      | None => Err (ValueError "invalid E-mini future symbol")
      end
  | _ => Err (ValueError "invalid E-mini future symbol")
  end.

Section markets.
Context {F : Type} `{PyFloat F} `{Numpy F} `{NumpyBusdays}.

(** [Calendar.third_friday_of_month] *)
Definition third_friday_of_month (cal : busdaycalendar) (month year : Z) (roll : string) : result datetimes :=
  first_day ← first_day_of_month year month;
  let first_friday := first_day + ((4 - weekday_of first_day) + 7) mod 7 in
  let third_friday := first_friday + 14 in
  add_trading_days (F:=F) cal (PyDate "D" third_friday) (IntOffsets (Scalar 0)) roll.

(** [.astype(datetime.date)] of a day *)
Definition as_date (v : datetimes) : result date :=
  match dt_ticks v with
  | Scalar n => match date_of n with Some d => Ok d | None => Err (GenericException "not a date") end
  | Array _ => Err (GenericException "not a date")
  end.

(** ** Futures *)

Definition get_current_symbol (cal : busdaycalendar) (curr_date : date) : result string :=
  let year := da_year curr_date in
  let month := da_month curr_date in
  let day := da_day curr_date in
  third_friday ← third_friday_of_month cal month year "backward";
  third_friday ← as_date third_friday;
  let before m := (month <? m) || ((month =? m) && (day <? da_day third_friday)) in
  let '(month_str, year) :=
    if before 3 then ("H", year) else if before 6 then ("M", year) else if before 9 then ("U", year)
    else if before 12 then ("Z", year) else ("H", year + 1) in
  year_str ← format_contract_year year;
  Ok ("ES" +:+ month_str +:+ year_str)%string.

Definition PREV_MONTH : list (string * string) := [("H", "Z"); ("M", "H"); ("U", "M"); ("Z", "U")]%string.
Definition NEXT_MONTH : list (string * string) := [("Z", "H"); ("H", "M"); ("M", "U"); ("U", "Z")]%string.

Definition get_previous_symbol (curr_future_symbol : string) : result string :=
  '(month, year) ← parse_future_symbol curr_future_symbol;
  prev_month ← match dict_get PREV_MONTH month with Some m => Ok m | None => Err (KeyError month) end;
  let prev_year := if negb (String.eqb prev_month "Z") then year else year - 1 in
  year_str ← format_contract_year prev_year;
  Ok ("ES" +:+ prev_month +:+ year_str)%string.

Definition get_next_symbol (curr_future_symbol : string) : result string :=
  '(month, year) ← parse_future_symbol curr_future_symbol;
  next_month ← match dict_get NEXT_MONTH month with Some m => Ok m | None => Err (KeyError month) end;
  let next_year := if negb (String.eqb next_month "H") then year else year + 1 in
  year_str ← format_contract_year next_year;
  Ok ("ES" +:+ next_month +:+ year_str)%string.

(** [EminiFuture.get_expiry]: minutes *)
Definition future_get_expiry (cal : busdaycalendar) (fut_symbol : string) : result Z :=
  '(month_str, year) ← parse_future_symbol fut_symbol;
  month ← future_code_to_month_number month_str;
  third_friday ← third_friday_of_month cal month year "backward";
  expiry_date ← as_date third_friday;
  Ok (day_number expiry_date * 1440 + (8 * 60 + 30)).

(** ** Options *)

Inductive option_weekday := MO | WE | FR.
Definition weekday_number (w : option_weekday) : Z := match w with MO => 0 | WE => 2 | FR => 4 end.

Definition week_of (last : ascii) (c : ascii) : option Z :=
  if ascii_in "1" last c then Some (digit_value c) else None.

Definition decoded (w : option_weekday) (week : Z) (rest : option (string * string)) : option (result (option_weekday * Z * Z * Z)) :=
  '(month, year) ← rest;
  Some (month ← future_code_to_month_number month; year ← decode_contract_year year; Ok (w, year, month, week)).

(** [EminiOption.decode_symbol]: the patterns in the order they are tried *)
Definition decode_symbol (name : string) : result (option_weekday * Z * Z * Z) :=
  let friday := match name with
    | String "E" (String "W" (String c rest)) => week ← week_of "4" c; decoded FR week (month_and_year rest)
    | _ => None end in
  let monday := match name with
    | String "E" (String c (String "A" rest)) => week ← week_of "5" c; decoded MO week (month_and_year rest)
    | _ => None end in
  let wednesday := match name with
    | String "E" (String c (String "C" rest)) => week ← week_of "5" c; decoded WE week (month_and_year rest)
    | _ => None end in
  let end_of_month := match name with
    | String "E" (String "W" rest) => decoded WE (-1) (month_and_year rest)
    | _ => None end in
  match friday, monday, wednesday, end_of_month with
  | Some r, _, _, _ => r
  | None, Some r, _, _ => r
  | None, None, Some r, _ => r
  | None, None, None, Some r => r
  | None, None, None, None => Err (GenericException "could not decode")
  end.

(** [get_date_from_weekday]; [relativedelta(weeks=w, weekday=d)] goes [w] weeks on and
    then forward to the weekday. *)
Definition get_date_from_weekday (weekday year month week : Z) : result Z :=
  unless (0 <=? weekday) && (weekday <? 7) raise ValueError "weekday must be between 0 and 6" ;;
  unless bool_decide (week ∈ [-1; 1; 2; 3; 4; 5]) raise ValueError "week must be -1 or between 1 and 5" ;;
  if week =? -1 then
    first_day ← first_day_of_month year month;
    Ok (first_day + days_in_month year month - 1)
  else
    first_day ← first_day_of_month year month;
    let later := first_day + 7 * (week - 1) in
    let date := later + (7 - weekday_of later + weekday) mod 7 in
    match date_of date with
    | Some d => unless da_month d =? month raise ValueError "weekday does not occur 5 times" ;; Ok date
    | None => Err (OverflowError "date value out of range")
    end.

Fixpoint has_colon (s : string) : bool := match s with "" => false | String c s => Ascii.eqb c ":" || has_colon s end%string.

(** 2015-09-20, when expirations moved from 3:15 to 3 pm *)
Definition EXPIRATION_CHANGE : Z := day_number (mkDate 2015 9 20).

(** [EminiOption.get_expiry]: minutes *)
Definition option_get_expiry (cal : busdaycalendar) (symbol : string) : result Z :=
  _ ← assert_ (negb (has_colon symbol)) "contains: pass in option root instead";
  '(weekday, year, month, week) ← decode_symbol symbol;
  expiry ← get_date_from_weekday (weekday_number weekday) year month week;
  let roll := match weekday with WE | FR => "backward" | MO => "forward" end%string in
  expiry ← add_trading_days (F:=F) cal (Datetime64 (mkDatetimes "D" 1 (Scalar expiry))) (IntOffsets (Scalar 0)) roll;
  match dt_ticks expiry with
  | Scalar expiry => Ok (expiry * 1440 + (if expiry <? EXPIRATION_CHANGE then 15 * 60 + 15 else 15 * 60))
  | Array _ => Err (TypeError "option expiry calculation returned ndarray")
  end.
End markets.
