(* ===== verification/MarketsFacts.v ===== *)
(** * What the E-mini symbols promise

    Civil dates round-trip through day numbers; the quarterly contracts form a
    sequence that [get_next_symbol] and [get_previous_symbol] walk; the current
    symbol of a date is the first contract of the sequence that expires after it. *)

From Stdlib Require Import Ascii.
From stdpp Require Import pretty.
From S2P Require Import Prelude Numeric Vendor Boundaries FactorIdentity Calendar CalendarFacts Markets.

#[local] Open Scope Z_scope.

(** The quarterly contracts, from March 2000 on *)
Definition QUARTERS : list string := ["H"; "M"; "U"; "Z"]%string.
Definition quarter_month (q : Z) : Z := 3 * (q mod 4) + 3.
Definition quarter_year (q : Z) : Z := 2000 + q / 4.
Definition contract (q : Z) : string :=
  ("ES" +:+ nth (Z.to_nat (q mod 4)) QUARTERS "" +:+ ok_or "" (format_contract_year (quarter_year q)))%string.

Definition outside_years : exn := ValueError "contract year is outside the supported 2000-2099 range".

(** ** Civil dates *)

(** The months in order *)
Definition month_start (k : Z) : Z := first_of_month (k / 12) (k mod 12 + 1).
Definition month_length (k : Z) : Z := days_in_month (k / 12) (k mod 12 + 1).

Lemma month_cases (m : Z) : 1 <= m <= 12 ->
  m = 1 \/ m = 2 \/ m = 3 \/ m = 4 \/ m = 5 \/ m = 6 \/ m = 7 \/ m = 8 \/ m = 9 \/ m = 10 \/ m = 11 \/ m = 12.
Proof. lia. Qed.

Lemma month_index y m : 1 <= m <= 12 -> (12 * y + m - 1) / 12 = y /\ (12 * y + m - 1) mod 12 + 1 = m.
Proof. intros Hm. split; Z.to_euclidean_division_equations; lia. Qed.

Lemma month_of_index y m : 1 <= m <= 12 ->
  month_start (12 * y + m - 1) = first_of_month y m /\ month_length (12 * y + m - 1) = days_in_month y m.
Proof. intros Hm. unfold month_start, month_length. by destruct (month_index y m Hm) as [-> ->]. Qed.

Lemma year_step y : days_before_year (y + 1) = days_before_year y + 365 + Z.b2z (leap y).
Proof.
  unfold days_before_year, leap. replace (y + 1 - 1) with y by lia.
  destruct (Z.eqb_spec (y mod 4) 0), (Z.eqb_spec (y mod 100) 0), (Z.eqb_spec (y mod 400) 0); simpl;
    Z.to_euclidean_division_equations; lia.
Qed.

(** The months of [month_of_day] are these months, over the 400 years after which
    the calendar repeats. *)
Example month_of_day_gregorian :
  forallb (fun k => (month_of_day (month_start k) =? k - 2) && (month_of_day (month_start (k + 1) - 1) =? k - 2))
    (seqZ 24000 4800) = true.
Proof. vm_compute. reflexivity. Qed.

(** Look the days of a month up in the table. *)
Ltac eval_months :=
  repeat match goal with |- context [nth ?i DAYS_BEFORE_MONTH 0] =>
    let v := eval vm_compute in (nth i DAYS_BEFORE_MONTH 0) in change (nth i DAYS_BEFORE_MONTH 0) with v end.

Lemma month_step k : month_start (k + 1) = month_start k + month_length k.
Proof.
  unfold month_start, month_length. pose proof (Z.div_mod k 12 ltac:(lia)). pose proof (Z.mod_pos_bound k 12 ltac:(lia)).
  set (y := k / 12) in *. set (m := k mod 12 + 1) in *.
  assert ((k + 1) / 12 = (if m =? 12 then y + 1 else y) /\ (k + 1) mod 12 + 1 = if m =? 12 then 1 else m + 1) as [-> ->].
  { destruct (Z.eqb_spec m 12); split; unfold y, m in *; Z.to_euclidean_division_equations; lia. }
  assert (1 <= m <= 12) as Hm12 by lia. clearbody m y. clear k H H0. pose proof (year_step y) as Hyear.
  destruct (month_cases m Hm12) as [->|Hm]; [|destruct_or! Hm; subst m];
    cbn [Z.eqb Pos.eqb]; unfold first_of_month, days_before_month, days_in_month; eval_months; rewrite ?Hyear; destruct (leap y); simpl; lia.
Qed.

Lemma month_length_pos k : 28 <= month_length k <= 31.
Proof.
  unfold month_length. pose proof (Z.mod_pos_bound k 12 ltac:(lia)).
  destruct (month_cases (k mod 12 + 1) ltac:(lia)) as [->|Hm]; [|destruct_or! Hm; rewrite Hm];
    unfold days_in_month; eval_months; try destruct (leap _); simpl; lia.
Qed.

Lemma months_ordered j k : j < k -> month_start j + month_length j <= month_start k.
Proof.
  intros Hjk. rewrite <- month_step. replace k with (j + 1 + (k - j - 1)) by lia.
  assert (0 <= k - j - 1) as Hn by lia. revert Hn. generalize (k - j - 1). apply natlike_ind; [by rewrite Z.add_0_r|].
  intros n Hn IH. rewrite <- Z.add_1_r, Z.add_assoc, (month_step (j + 1 + n)). pose proof (month_length_pos (j + 1 + n)). lia.
Qed.

(** The year of a day is among the four that [date_of] looks at. *)
Lemma year_window y n : first_of_month y 1 <= n < first_of_month (y + 1) 1 ->
  y ∈ seqZ ((n + 719162) * 400 / 146097 - 1) 4.
Proof.
  rewrite elem_of_seqZ. unfold first_of_month, days_before_month, days_before_year.
  eval_months. simpl andb. replace (y + 1 - 1) with y by lia. intros Hn. Z.to_euclidean_division_equations. lia.
Qed.

Lemma find_only {A} (p : A -> bool) (l : list A) (x : A) :
  x ∈ l -> p x = true -> (forall y, y ∈ l -> p y = true -> y = x) -> List.find p l = Some x.
Proof.
  intros Hx Hp Hu. induction l as [|a l IH]; [by apply elem_of_nil in Hx|]. simpl.
  destruct (p a) eqn:Ha; [by rewrite (Hu a ltac:(by left) Ha)|]. apply elem_of_cons in Hx as [->|Hx]; [congruence|].
  apply IH; [done|]. intros. apply Hu; [by right|done].
Qed.

Lemma date_of_month k n : month_start k <= n < month_start k + month_length k ->
  date_of n = Some (mkDate (k / 12) (k mod 12 + 1) (n - month_start k + 1)).
Proof.
  intros Hn. pose proof (Z.div_mod k 12 ltac:(lia)). pose proof (Z.mod_pos_bound k 12 ltac:(lia)).
  assert (forall y, first_of_month y 1 = month_start (12 * y)) as Hyears.
  { intros y. destruct (month_of_index y 1 ltac:(lia)) as [<- _]. f_equal. lia. }
  assert (forall j, month_start j <= n < month_start (j + 1) -> j = k) as Honly.
  { intros j Hj. rewrite month_step in Hj. destruct (Z.lt_total j k) as [Hlt|[?|Hlt]]; [|done|];
      pose proof (months_ordered _ _ Hlt); lia. }
  assert (forall j, j <= k -> month_start j <= n) as Hbelow.
  { intros j Hj. destruct (Z.eq_dec j k) as [->|]; [lia|]. pose proof (months_ordered j k ltac:(lia)).
    pose proof (month_length_pos j). lia. }
  assert (forall j, k < j -> n < month_start j) as Habove by (intros j Hj; pose proof (months_ordered k j Hj); lia).
  assert (forall y, year_holding n y = true -> y = k / 12) as Hyear.
  { intros y. unfold year_holding. rewrite !Hyears. intros Hy. bools.
    destruct (Z.le_gt_cases (12 * y) k), (Z.le_gt_cases (12 * (y + 1)) k);
      [pose proof (Hbelow (12 * (y + 1)))|..|pose proof (Habove (12 * y))]; try lia. }
  unfold date_of. rewrite (find_only (year_holding n) _ (k / 12)); [| | |intros y _; apply Hyear].
  2: { apply year_window. rewrite !Hyears. split; [apply Hbelow|apply Habove]; lia. }
  2: { unfold year_holding. rewrite !Hyears. pose proof (Hbelow (12 * (k / 12))). pose proof (Habove (12 * (k / 12 + 1))).
       apply andb_true_iff. split; lia. }
  cbn [mbind option_bind]. rewrite (find_only (month_holding n (k / 12)) _ (k mod 12 + 1)).
  - done.
  - apply elem_of_seqZ. lia.
  - unfold month_holding. fold (month_start k) (month_length k). lia.
  - intros m Hm%elem_of_seqZ. unfold month_holding. destruct (month_of_index (k / 12) m ltac:(lia)) as [<- <-]. intros Hh.
    rewrite <- (Honly (12 * (k / 12) + m - 1)); [|rewrite month_step; bools; lia].
    by destruct (month_index (k / 12) m ltac:(lia)) as [_ ->].
Qed.

Lemma date_of_number d : valid_date d = true -> date_of (day_number d) = Some d.
Proof.
  destruct d as [y m d]. unfold valid_date, valid_month, day_number. simpl. intros Hd. bools.
  destruct (month_of_index y m ltac:(lia)) as [Hs Hl]. rewrite (date_of_month (12 * y + m - 1)) by lia.
  destruct (month_index y m ltac:(lia)) as [-> ->]. rewrite Hs. do 2 f_equal. lia.
Qed.

(** ** The sequence of contracts *)

(** A contract among its neighbours *)
Definition in_sequence (q : Z) : Prop :=
  parse_future_symbol (contract q) = Ok (nth (Z.to_nat (q mod 4)) QUARTERS "", quarter_year q)%string /\
  get_next_symbol (contract q) = (if q <? 399 then Ok (contract (q + 1)) else Err outside_years) /\
  get_previous_symbol (contract q) = (if 0 <? q then Ok (contract (q - 1)) else Err outside_years).

Lemma all_in_sequence q : 0 <= q < 400 -> in_sequence q.
Proof.
  intros Hq. assert (forallb (fun q => bool_decide (in_sequence q)) (seqZ 0 400) = true) as Hall by by vm_compute.
  rewrite forallb_forall in Hall. apply (bool_decide_unpack _), Is_true_true_2, Hall, list_elem_of_In, elem_of_seqZ. lia.
Qed.

(** The symbols of the quarterly contracts of 2000 to 2099 form one sequence
    without a gap or an overlap.  Each is read back as its month and year, so
    no two contracts share a symbol; [get_next_symbol] and
    [get_previous_symbol] step to the neighbours, across the change from one-
    to two-digit years, and refuse to leave the century. *)
Theorem contracts_in_sequence q : 0 <= q < 400 ->
  in_sequence q /\
  (forall r, 0 <= r < 400 -> contract q = contract r -> q = r) /\
  (q < 399 -> (s ← get_next_symbol (contract q); get_previous_symbol s) = Ok (contract q)) /\
  (0 < q -> (s ← get_previous_symbol (contract q); get_next_symbol s) = Ok (contract q)).
Proof.
  intros Hq. destruct (all_in_sequence q Hq) as (Hp & Hn & Hv). split_and!; [done|..].
  - intros r Hr Heq. destruct (all_in_sequence r Hr) as (Hp' & _). rewrite <- Heq, Hp in Hp'. injection Hp' as Hm Hy.
    unfold quarter_year in Hy. assert (q mod 4 = r mod 4); [|Z.to_euclidean_division_equations; lia].
    pose proof (Z.mod_pos_bound q 4 ltac:(lia)). pose proof (Z.mod_pos_bound r 4 ltac:(lia)).
    assert (q mod 4 = 0 \/ q mod 4 = 1 \/ q mod 4 = 2 \/ q mod 4 = 3) as Hcq by lia.
    assert (r mod 4 = 0 \/ r mod 4 = 1 \/ r mod 4 = 2 \/ r mod 4 = 3) as Hcr by lia.
    destruct_or! Hcq; destruct_or! Hcr; rewrite Hcq, Hcr in *; done.
  - intros Hlt. rewrite Hn, (proj2 (Z.ltb_lt _ _) Hlt). simpl. destruct (all_in_sequence (q + 1) ltac:(lia)) as (_ & _ & ->).
    destruct (Z.ltb_spec 0 (q + 1)); [|lia]. by rewrite Z.add_simpl_r.
  - intros Hlt. rewrite Hv, (proj2 (Z.ltb_lt _ _) Hlt). simpl. destruct (all_in_sequence (q - 1) ltac:(lia)) as (_ & -> & _).
    destruct (Z.ltb_spec (q - 1) 399); [|lia]. by rewrite Z.sub_simpl_r.
Qed.

Lemma contracts_in_sequence_witness : (0 <= 39 < 400) /\ contract 39 = "ESZ09"%string /\ get_next_symbol (contract 39) = Ok "ESH10"%string.
Proof.
  split_and!; [lia..|done|]. destruct (contracts_in_sequence 39 ltac:(lia)) as ((_ & -> & _) & _). by vm_compute.
Defined.

(** ** The current contract *)

(** The third Friday of the [k]th month *)
Definition third_friday (k : Z) : Z := month_start k + (4 - weekday_of (month_start k) + 7) mod 7 + 14.

(** Each month up to the end of the century has a trading day up to its third Friday. *)
Definition trades_each_month (cal : busdaycalendar) : Prop :=
  forall k, 12 * 2000 <= k < 12 * 2100 -> exists b, month_start k <= b <= third_friday k /\ open_day cal b = true.

Lemma third_friday_bounds k : month_start k + 14 <= third_friday k <= month_start k + 20.
Proof. unfold third_friday. pose proof (Z.mod_pos_bound (4 - weekday_of (month_start k) + 7) 7 ltac:(lia)). lia. Qed.

Lemma month_start_bounds k : 12 * 2000 <= k < 12 * 2101 -> 0 <= month_start k <= 100000.
Proof.
  intros Hk. assert (month_start (12 * 2000) = 10957) as H0 by done. assert (month_start (12 * 2101) = 47847) as H1 by done.
  pose proof (months_ordered k (12 * 2101) ltac:(lia)). pose proof (month_length_pos k).
  destruct (Z.eq_dec k (12 * 2000)) as [->|]; [lia|]. pose proof (months_ordered (12 * 2000) k ltac:(lia)).
  pose proof (month_length_pos (12 * 2000)). lia.
Qed.

Section front.
Context {F : Type} `{PyFloat F} `{!Numpy F} `{!NumpyLaws F} `{!NumpyBusdays} `{!BusdayLaws}.
Context (cal : busdaycalendar).
Hypothesis cal_ok : normalized cal.
Hypothesis cal_open : trades_each_month cal.
Hypothesis np_date : forall n, np_to_datetime64 (PyDate "D" n) = Ok ("D"%string, 1, n).

(** From an open day on, a day rolls back to an open day. *)
Lemma rolls_back a d : a <= d -> open_day cal a = true -> exists b, a <= b <= d /\ rolls_to cal "backward" d b.
Proof.
  intros Had Ha. replace d with (a + (d - a)) by lia. assert (0 <= d - a) as Hn by lia. revert Hn. generalize (d - a).
  clear d Had. apply natlike_ind.
  - exists a. split; [lia|]. split; [done|]. simpl. split; [lia|]. unfold count_open. by rewrite trading_days_nil by lia.
  - intros n Hn (b & Hb & Hopen & Hback). simpl in Hback. destruct Hback as [_ Hcount].
    destruct (open_day cal (a + Z.succ n)) eqn:Ho.
    + exists (a + Z.succ n). split; [lia|]. split; [done|]. simpl. split; [lia|]. unfold count_open. by rewrite trading_days_nil by lia.
    + exists b. split; [lia|]. split; [done|]. simpl. split; [lia|]. unfold count_open in *.
      rewrite trading_days_snoc by lia. rewrite Ho, app_nil_r. by replace (a + Z.succ n) with (a + n + 1) by lia.
Qed.

(** The third Friday rolled back, as [third_friday_of_month] returns it *)
Lemma third_friday_rolled k : 12 * 2000 <= k < 12 * 2100 -> exists b,
  third_friday_of_month (F:=F) cal (k mod 12 + 1) (k / 12) "backward" = Ok (mkDatetimes "D" 1 (Scalar b)) /\
  rolls_to cal "backward" (third_friday k) b /\ month_start k <= b <= third_friday k.
Proof.
  intros Hk. destruct (cal_open k Hk) as (a & Ha & Hopen). destruct (rolls_back a (third_friday k) ltac:(lia) Hopen) as (b & Hb & Hroll).
  pose proof (month_start_bounds k ltac:(lia)). pose proof (third_friday_bounds k). exists b. split; [|split; [done|lia]].
  unfold third_friday_of_month, first_day_of_month.
  assert (valid_month (k / 12) (k mod 12 + 1) = true) as ->.
  { unfold valid_month. pose proof (Z.mod_pos_bound k 12 ltac:(lia)). assert (2000 <= k / 12 < 2100); [|lia].
    Z.to_euclidean_division_equations; lia. }
  cbn [guard_ok mbind result_bind]. fold (month_start k). change (month_start k + _ + 14) with (third_friday k).
  set (d := third_friday k) in *.
  assert (normalize_datetime (PyDate "D" d) = Ok (Scalar (d, 0), "D"%string, 1)) as Hstart.
  { unfold normalize_datetime. rewrite np_date. simpl. unfold isnat, NaT, is_int64. destruct (Z.eqb_spec d (- 2 ^ 63)); [lia|].
    rewrite Z.mul_1_r, Z.div_1_r, Z.mod_1_r. simpl.
    change (0 / 1) with 0. assert (((- 2 ^ 63 <=? d) && (d <? 2 ^ 63)) = true) as -> by lia. done. }
  assert (starts cal "backward" (d, 0)) as Hs.
  { split; [unfold representable; simpl; lia|]. split; [done|]. exists b. split; [exact Hroll|unfold representable; lia]. }
  assert (lands cal "backward" d 0 b) as Hland.
  { split; [apply Hroll|]. simpl. exists b. split; [exact Hroll|]. rewrite (displacement_ordinal (F:=F)) by done. lia. }
  assert (representable b) as Hrb by (unfold representable; lia).
  pose proof (cells_of_add (F:=F) cal "backward" cal_ok (PyDate "D" d) (Scalar 0) _ _ _ 1 (Scalar ((d, 0), 0)) Hstart eq_refl
    (proj2 (Forall_singleton _ _) Hs) eq_refl) as Hadd.
  destruct (lands_out (F:=F) cal "backward" cal_ok ((d, 0), 0) b Hs Hland Hrb) as [Hout Hwrong].
  pose proof (out_spec cal "backward" cal_ok ((d, 0), 0) b Hs Hland Hrb) as Hnp.
  cbv zeta in Hadd. cbn [nd_traverse nd_values existsb fst snd] in *. unfold cell_out in Hadd. cbn [fst snd] in Hadd.
  rewrite Hnp in Hadd, Hwrong. cbn [mbind result_bind fmap result_fmap ok_or] in Hadd, Hwrong.
  rewrite Hadd, Hwrong, (representable_not_nat b Hrb). change (1 / 1) with 1. rewrite Z.mul_1_r, Z.add_0_r. cbn [orb negb andb guard_ok mbind result_bind].
  assert ((max_int64 <? Z.abs b) = false) as -> by (unfold max_int64; lia).
  cbn [nd_fmap fst snd guard_ok negb andb mbind result_bind]. rewrite Hnp. cbn [ok_or].
  by rewrite (representable_not_nat b Hrb), Z.mul_1_r, Z.add_0_r.
Qed.

(** The day a contract expires on *)
Lemma expiry_day q : 0 <= q < 400 -> exists b,
  third_friday_of_month (F:=F) cal (quarter_month q) (quarter_year q) "backward" = Ok (mkDatetimes "D" 1 (Scalar b)) /\
  future_get_expiry (F:=F) cal (contract q) = Ok (b * 1440 + 510) /\
  rolls_to cal "backward" (third_friday (24002 + 3 * q)) b /\ month_start (24002 + 3 * q) <= b <= third_friday (24002 + 3 * q).
Proof.
  intros Hq. pose proof (Z.mod_pos_bound q 4 ltac:(lia)). pose proof (Z.div_mod q 4 ltac:(lia)).
  destruct (third_friday_rolled (24002 + 3 * q) ltac:(lia)) as (b & Hb & Hroll).
  replace (24002 + 3 * q) with (12 * quarter_year q + quarter_month q - 1) in * by (unfold quarter_year, quarter_month; lia).
  destruct (month_index (quarter_year q) (quarter_month q) ltac:(unfold quarter_month; lia)) as [Hy Hm]. rewrite Hy, Hm in Hb.
  exists b. split_and!; [exact Hb| |apply Hroll..]. unfold future_get_expiry. destruct (all_in_sequence q Hq) as (-> & _).
  cbn [mbind result_bind].
  assert (future_code_to_month_number (nth (Z.to_nat (q mod 4)) QUARTERS "") = Ok (quarter_month q))%string as ->.
  { unfold quarter_month. assert (q mod 4 = 0 \/ q mod 4 = 1 \/ q mod 4 = 2 \/ q mod 4 = 3) as Hc by lia.
    by destruct_or! Hc; rewrite Hc. }
  cbn [mbind result_bind]. rewrite Hb. cbn [mbind result_bind]. unfold as_date. simpl dt_ticks. cbv iota.
  destruct Hroll as [_ Hb']. pose proof (third_friday_bounds (12 * quarter_year q + quarter_month q - 1)).
  pose proof (month_length_pos (12 * quarter_year q + quarter_month q - 1)).
  rewrite (date_of_month (12 * quarter_year q + quarter_month q - 1)) by lia. rewrite Hy, Hm. cbn [mbind result_bind].
  unfold day_number. simpl da_year. simpl da_month. simpl da_day.
  destruct (month_of_index (quarter_year q) (quarter_month q) ltac:(unfold quarter_month; lia)) as [<- _]. f_equal. lia.
Qed.

(** A symbol put together from its quarter and year *)
Lemma front_symbol y i : 0 <= y <= 99 -> 0 <= i <= 4 ->
  (year_str ← format_contract_year (2000 + y + i / 4); Ok ("ES" +:+ nth (Z.to_nat (i mod 4)) QUARTERS "" +:+ year_str)%string) =
  if 4 * y + i <? 400 then Ok (contract (4 * y + i)) else Err outside_years.
Proof.
  intros Hy Hi. unfold contract, quarter_year. replace (4 * y + i) with (i + y * 4) by lia.
  rewrite Z.mod_add, Z.div_add by lia. replace (2000 + (i / 4 + y)) with (2000 + y + i / 4) by lia.
  unfold format_contract_year.
  destruct (Z.ltb_spec (i + y * 4) 400).
  - assert ((2000 <=? 2000 + y + i / 4) && (2000 + y + i / 4 <=? 2099) = true) as -> by (Z.to_euclidean_division_equations; lia).
    cbn [guard_ok mbind result_bind]. by destruct (_ && _).
  - assert ((2000 <=? 2000 + y + i / 4) && (2000 + y + i / 4 <=? 2099) = false) as -> by (Z.to_euclidean_division_equations; lia).
    done.
Qed.

(** C24: [EminiFuture.get_current_symbol] names the front contract.  For a date
    of 2020, where the decade of one-digit years begins, to 2099, under a
    normalized trading calendar that has a trading day in the first part of each
    month, it is the first quarterly contract whose expiry, by
    [EminiFuture.get_expiry], falls on a later day: all contracts before it have
    expired by that day and none from it on has.  Past the last expiry of 2099 it
    raises. *)
Theorem current_symbol_is_front d :
  valid_date d = true -> 2020 <= da_year d <= 2099 ->
  exists c, 0 <= c <= 400 /\
    get_current_symbol (F:=F) cal d = (if c <? 400 then Ok (contract c) else Err outside_years) /\
    forall q, 0 <= q < 400 -> exists b, future_get_expiry (F:=F) cal (contract q) = Ok (b * 1440 + 510) /\
      open_day cal b = true /\ (b <= day_number d <-> q < c).
Proof.
  destruct d as [y m d]. unfold valid_date, valid_month, day_number. simpl. intros Hvalid Hyear. bools.
  destruct (month_index y m ltac:(lia)) as [Hiy Him]. destruct (month_of_index y m ltac:(lia)) as [Hms Hml].
  set (k := 12 * y + m - 1) in *. destruct (third_friday_rolled k ltac:(lia)) as (b & Hb & Hroll).
  rewrite Hiy, Him in Hb. pose proof (third_friday_bounds k). pose proof (month_length_pos k).
  assert (as_date (mkDatetimes "D" 1 (Scalar b)) = Ok (mkDate y m (b - month_start k + 1))) as Hdate.
  { unfold as_date. simpl dt_ticks. cbv iota. rewrite (date_of_month k) by lia. by rewrite Hiy, Him. }
  set (tf := b - month_start k + 1) in *. set (before := fun m' => (m <? m') || ((m =? m') && (d <? tf))).
  set (i := if before 3 then 0 else if before 6 then 1 else if before 9 then 2 else if before 12 then 3 else 4).
  assert (forall q, 0 <= q < 400 -> (24002 + 3 * q < k -> q < 4 * (y - 2000) + i) /\ (k < 24002 + 3 * q -> 4 * (y - 2000) + i <= q) /\
    (24002 + 3 * q = k -> q < 4 * (y - 2000) + i <-> tf <= d)) as Hpos.
  { intros q Hq. unfold i, before, k. repeat case_match; bools; lia. }
  assert (0 <= i <= 4) as Hi by (unfold i; repeat case_match; lia).
  exists (4 * (y - 2000) + i). split_and!; [lia..| |].
  - unfold get_current_symbol. simpl da_year. simpl da_month. simpl da_day. rewrite Hb. cbn [mbind result_bind].
    rewrite Hdate. cbn [mbind result_bind da_day]. fold (before 3) (before 6) (before 9) (before 12). cbv zeta.
    assert ((if before 3 then ("H", y) else if before 6 then ("M", y) else if before 9 then ("U", y)
      else if before 12 then ("Z", y) else ("H", y + 1))%string = (nth (Z.to_nat (i mod 4)) QUARTERS "", y + i / 4)%string) as ->.
    { unfold i. destruct (before 3), (before 6), (before 9), (before 12); simpl; rewrite ?Z.add_0_r; done. }
    replace (y + i / 4) with (2000 + (y - 2000) + i / 4) by lia. apply (front_symbol (y - 2000) i); lia.
  - intros q Hq. destruct (expiry_day q Hq) as (b' & Hb' & Hexp & Hroll' & Hin). exists b'. split_and!; [done|apply Hroll'|].
    specialize (Hpos q Hq). pose proof (third_friday_bounds (24002 + 3 * q)). pose proof (month_length_pos (24002 + 3 * q)).
    destruct (Z.lt_total (24002 + 3 * q) k) as [Hlt|[Heq|Hlt]].
    + pose proof (months_ordered _ _ Hlt). lia.
    + assert (quarter_month q = m /\ quarter_year q = y) as [Hqm Hqy].
      { unfold quarter_month, quarter_year, k in *. Z.to_euclidean_division_equations; lia. }
      rewrite Hqm, Hqy, Hb in Hb'. injection Hb' as <-. lia.
    + pose proof (months_ordered _ _ Hlt). lia.
Qed.
End front.

#[local] Existing Instances ref_busdays ref_busday_laws.

(** With the demonstration calendar, April 12th 2027 has the June contract. *)
Lemma demo_trades : trades_each_month demo_calendar.
Proof.
  intros k Hk.
  assert (forallb (fun k => open_day demo_calendar (third_friday k)) (seqZ (12 * 2000) 1200) = true) as Hall by by vm_compute.
  rewrite forallb_forall in Hall. exists (third_friday k). pose proof (third_friday_bounds k). split; [lia|].
  apply Hall, list_elem_of_In, elem_of_seqZ. lia.
Qed.

Lemma current_symbol_is_front_witness :
  exists c, 0 <= c <= 400 /\
    get_current_symbol (F:=XQ) demo_calendar (mkDate 2027 4 12) = (if c <? 400 then Ok (contract c) else Err outside_years) /\
    forall q, 0 <= q < 400 -> exists b, future_get_expiry (F:=XQ) demo_calendar (contract q) = Ok (b * 1440 + 510) /\
      open_day demo_calendar b = true /\ (b <= day_number (mkDate 2027 4 12) <-> q < c).
Proof.
  exact (current_symbol_is_front (F:=XQ) demo_calendar demo_normalized demo_trades (fun n => eq_refl) (mkDate 2027 4 12) eq_refl
    ltac:(simpl; lia)).
Defined.

Example demo_front : get_current_symbol (F:=XQ) demo_calendar (mkDate 2027 4 12) = Ok "ESM7"%string.
Proof. by vm_compute. Qed.
