(* ===== verification/Optimizer.v ===== *)
(** * The parameter optimizer (optimize.py)

    Suggestions come from a Python generator, a state machine over the world of
    the user's objects; the cost function runs in the process of the optimizer
    or in worker processes.  The loop over the process pool is a machine of small
    steps, one for each call it makes: what the pool answers, in whatever order
    the workers finish, is an argument.  Plots and frames of the results are not
    modelled. *)

From S2P Require Import Prelude Numeric.

#[local] Open Scope Z_scope.

(** ** Experiments *)

Section experiment.
Context {F : Type} `{PyFloat F} {Value : Type}.

Definition Suggestion : Type := list (string * Value).
Definition Costs : Type := F * list (string * F).

Record Experiment := mkExperiment { ex_suggestion : Suggestion; ex_cost : F; ex_other_costs : list (string * F) }.

(** [Experiment.valid]; [np_isfinite] is that of the suggested values, of any type *)
Definition Experiment_valid (np_isfinite : list Value -> result (list bool)) (e : Experiment) : result bool :=
  finite ← np_isfinite (snd <$> ex_suggestion e);
  if negb (forallb id finite) then Ok false
  else if negb (f_isfinite (ex_cost e)) then Ok false
  else if negb (forallb f_isfinite (snd <$> ex_other_costs e)) then Ok false
  else Ok true.

(** [flatten_keys] *)
Definition flatten_keys (experiments : list Experiment) : list string :=
  merge_sort String.le (remove_dups (experiments ≫= fun exp => (ex_other_costs exp).*1)).

(** A stable sort by [<] of a key, as [sorted] does *)
Fixpoint insert_by {A} (lt : A -> A -> bool) (x : A) (l : list A) : list A :=
  match l with [] => [x] | y :: l' => if lt x y then x :: l else y :: insert_by lt x l' end.
Definition sorted_by {A} (lt : A -> A -> bool) (l : list A) : list A := foldl (fun l x => insert_by lt x l) [] l.

(** [Optimizer.experiment_list] *)
Definition experiment_list (experiments : list Experiment) (sort_order : string) : result (list Experiment) :=
  if String.eqb sort_order "lowest_cost" then Ok (sorted_by (fun x y => f_ltb (ex_cost x) (ex_cost y)) experiments)
  else if String.eqb sort_order "highest_cost"
  then Ok (rev (sorted_by (fun x y => f_ltb (ex_cost x) (ex_cost y)) (rev experiments)))
  else if String.eqb sort_order "sequence" then Ok experiments
  else Err (GenericException "invalid sort order").
End experiment.
Arguments Suggestion Value : clear implicits.
Arguments Costs F : clear implicits.
Arguments Experiment F Value : clear implicits.

(** ** The optimizer *)

(** [iter(self.generator)]: [next], and [send] where the iterator has it.  An
    exhausted one raises [StopIteration]. *)
Record source (W Value C : Type) := mkSource {
  so_next : W -> W * result (option (list (string * Value)));
  so_send : option (C -> W -> W * result (option (list (string * Value))));
}.
Arguments mkSource {W Value C}.
Arguments so_next {W Value C}.
Arguments so_send {W Value C}.

Record Optimizer (F Value : Type) := mkOptimizer {
  op_max_processes : option Z;
  op_process_start_method : string;
  op_max_pending_tasks : Z;
  op_experiments : list (Experiment F Value);
}.
Arguments mkOptimizer {F Value}.
Arguments op_max_processes {F Value}.
Arguments op_process_start_method {F Value}.
Arguments op_max_pending_tasks {F Value}.
Arguments op_experiments {F Value}.

Section optimizer.
Context {F : Type} `{PyFloat F} {Value W : Type}.

Definition add_experiment (o : Optimizer F Value) (s : Suggestion Value) (c : Costs F) : Optimizer F Value :=
  mkOptimizer (op_max_processes o) (op_process_start_method o) (op_max_pending_tasks o)
    (op_experiments o ++ [mkExperiment s c.1 c.2]).

(** [Optimizer.__init__], with [mp.get_all_start_methods()] and [os.cpu_count()] *)
Definition Optimizer_init (start_methods : list string) (cpu_count : option Z)
  (max_processes : option Z) (process_start_method : string) (max_pending_tasks : option Z) : result (Optimizer F Value) :=
  whenever match max_processes with Some n => n <? 1 | None => false end raise ValueError "max_processes must be positive" ;;
  unless bool_decide (process_start_method ∈ start_methods) raise ValueError "unsupported multiprocessing start method" ;;
  let worker_count := match max_processes with
    | Some n => n
    | None => match cpu_count with Some n => if n =? 0 then 1 else n | None => 1 end end in
  whenever match max_pending_tasks with Some n => n <? 1 | None => false end raise ValueError "max_pending_tasks must be positive" ;;
  let max_pending_tasks := match max_pending_tasks with Some n => n | None => worker_count * 2 end in
  Ok (mkOptimizer max_processes process_start_method max_pending_tasks []).

(** ** In one process *)

(** The loop of [_run_single_process], [suggestion] being the one in hand *)
Fixpoint single_loop (src : source W Value (Costs F)) (cost_func : Suggestion Value -> W -> W * result (Costs F)) (fuel : nat)
  (suggestion : option (Suggestion Value)) : ST (Optimizer F Value * W) unit := fun '(o, w) =>
  match fuel with
  | O => ((o, w), Err OutOfFuel)
  | S fuel =>
      match suggestion with
      | None =>
          match so_next src w with
          | (w, Ok suggestion) => single_loop src cost_func fuel suggestion (o, w)
          | (w, Err e) => ((o, w), Err e)
          end
      | Some s =>
          match cost_func s w with
          | (w, Ok c) =>
              let o := add_experiment o s c in
              match (match so_send src with Some send => send c w | None => so_next src w end) with
              | (w, Ok suggestion) => single_loop src cost_func fuel suggestion (o, w)
              | (w, Err e) => ((o, w), Err e)
              end
          | (w, Err e) => ((o, w), Err e)
          end
      end
  end.

(** [_run_single_process]: the handler of [StopIteration] covers the whole loop. *)
Definition run_single_process src cost_func (fuel : nat) : ST (Optimizer F Value * W) unit := fun '(o, w) =>
  match (match so_next src w with
         | (w, Ok suggestion) => single_loop src cost_func fuel suggestion (o, w)
         | (w, Err e) => ((o, w), Err e)
         end) with
  | (s, Err StopIteration) => (s, Ok tt)
  | r => r
  end.

(** ** In worker processes *)

(** The process pool, for each call by its number: whether a submission is
    accepted, which futures a wait gives back as completed, and what the task
    came to. *)
Record pool_answers := mkAnswers {
  pa_submit : nat -> result unit;
  pa_wait : nat -> list nat -> result (list nat);
  pa_result : nat -> Suggestion Value -> result (Costs F);
}.

(** The points of the loop at which it is between two calls *)
Inductive pool_point :=
  | Outer                              (* while pending or not exhausted *)
  | Filling                            (* while not exhausted and len(pending) < max_pending_tasks *)
  | Collecting (completed : list nat). (* for future in completed *)

Record pool_state := mkPool {
  po_point : pool_point;
  po_optimizer : Optimizer F Value;
  po_world : W;
  po_exhausted : bool;
  po_pending : list (nat * Suggestion Value);  (* the dictionary of futures, by submission number *)
  po_submitted : nat;
  po_waits : nat;
  po_logged : list (Suggestion Value);         (* _logger.exception *)
  po_cancelled : list nat;
  po_shutdown : bool;
}.

Definition pool_start (o : Optimizer F Value) (w : W) : pool_state := mkPool Outer o w false [] 0 0 [] [] false.

Definition po_goto p (s : pool_state) : pool_state :=
  mkPool p (po_optimizer s) (po_world s) (po_exhausted s) (po_pending s) (po_submitted s) (po_waits s) (po_logged s)
    (po_cancelled s) (po_shutdown s).

(** What [next(suggestions)] left behind *)
Definition po_drawn w (exhausted : bool) (s : pool_state) : pool_state :=
  mkPool Filling (po_optimizer s) w exhausted (po_pending s) (po_submitted s) (po_waits s) (po_logged s) (po_cancelled s) (po_shutdown s).

Definition po_submit sugg (s : pool_state) : pool_state :=
  mkPool Filling (po_optimizer s) (po_world s) (po_exhausted s) (po_pending s ++ [(po_submitted s, sugg)]) (S (po_submitted s))
    (po_waits s) (po_logged s) (po_cancelled s) (po_shutdown s).

Definition po_waited completed (s : pool_state) : pool_state :=
  mkPool (Collecting completed) (po_optimizer s) (po_world s) (po_exhausted s) (po_pending s) (po_submitted s) (S (po_waits s))
    (po_logged s) (po_cancelled s) (po_shutdown s).

(** [pending.pop(future)], the result then going to the experiments or to the log *)
Definition po_popped completed o logged future (s : pool_state) : pool_state :=
  mkPool (Collecting completed) o (po_world s) (po_exhausted s) (dict_pop (po_pending s) future) (po_submitted s) (po_waits s)
    logged (po_cancelled s) (po_shutdown s).

(** [executor.shutdown], after cancelling [cancelled] *)
Definition po_close cancelled (s : pool_state) : pool_state :=
  mkPool (po_point s) (po_optimizer s) (po_world s) (po_exhausted s) (po_pending s) (po_submitted s) (po_waits s) (po_logged s)
    cancelled true.

(** The handler of [BaseException]: the pending futures are cancelled. *)
Definition po_abort (s : pool_state) (e : exn) : pool_state * result unit := (po_close ((po_pending s).*1) s, Err e).

Definition worker_error : exn := OptimizerWorkerError "cost function failed for suggestion".

(** One step of [_run_multi_process]; [inr] is its end. *)
Definition pool_step (src : source W Value (Costs F)) (pa : pool_answers) (raise_on_error : bool) (s : pool_state)
  : pool_state + (pool_state * result unit) :=
  match po_point s with
  | Outer =>
      if negb (bool_decide (po_pending s = [])) || negb (po_exhausted s) then inl (po_goto Filling s)
      else inr (po_close (po_cancelled s) s, Ok tt)
  | Filling =>
      if negb (po_exhausted s) && (Z.of_nat (length (po_pending s)) <? op_max_pending_tasks (po_optimizer s)) then
        match so_next src (po_world s) with
        | (w, Err StopIteration) => inl (po_drawn w true s)
        | (w, Err e) => inr (po_abort (po_drawn w false s) e)
        | (w, Ok None) => inl (po_drawn w false s)
        | (w, Ok (Some sugg)) =>
            let s := po_drawn w false s in
            match pa_submit pa (po_submitted s) with
            | Ok _ => inl (po_submit sugg s)
            | Err e => inr (po_abort s e)
            end
        end
      else if bool_decide (po_pending s = []) then inl (po_goto Outer s)
      else match pa_wait pa (po_waits s) ((po_pending s).*1) with
           | Ok completed => inl (po_waited completed s)
           | Err e => inr (po_abort s e)
           end
  | Collecting [] => inl (po_goto Outer s)
  | Collecting (future :: completed) =>
      match dict_get (po_pending s) future with
      | None => inr (po_abort s (KeyError "future"))
      | Some sugg =>
          match pa_result pa future sugg with
          | Ok c => inl (po_popped completed (add_experiment (po_optimizer s) sugg c) (po_logged s) future s)
          | Err e =>
              if is_Exception e then
                if raise_on_error then inr (po_abort (po_popped completed (po_optimizer s) (po_logged s) future s) worker_error)
                else inl (po_popped completed (po_optimizer s) (po_logged s ++ [sugg]) future s)
              else inr (po_abort (po_popped completed (po_optimizer s) (po_logged s) future s) e)
          end
      end
  end.

(** [_run_multi_process] *)
Fixpoint run_multi_process src pa raise_on_error (fuel : nat) (s : pool_state) : pool_state * result unit :=
  match fuel with
  | O => (s, Err OutOfFuel)
  | S fuel =>
      match pool_step src pa raise_on_error s with
      | inl s => run_multi_process src pa raise_on_error fuel s
      | inr r => r
      end
  end.

(** [Optimizer.run] *)
Definition Optimizer_run src cost_func pa (raise_on_error : bool) (fuel : nat) : ST (Optimizer F Value * W) unit := fun '(o, w) =>
  if bool_decide (op_max_processes o = Some 1) then run_single_process src cost_func fuel (o, w)
  else let '(s, r) := run_multi_process src pa raise_on_error fuel (pool_start o w) in ((po_optimizer s, po_world s), r).
End optimizer.
