(* ===== verification/OptimizerFacts.v ===== *)
(** * What the optimizer promises

    Over a pool whose waits end, a run in worker processes terminates and
    accounts for every suggestion exactly once, in whatever order the workers
    finish; at every moment the number of pending tasks is bounded, and a run
    that raises leaves no task running.  In one process the experiments follow
    the suggestions. *)

From S2P Require Import Prelude Numeric Optimizer.

#[local] Open Scope Z_scope.

Section facts.
Context {F : Type} `{PyFloat F} {Value W : Type}.
Implicit Types (src : source W Value (Costs F)) (pa : pool_answers (F:=F) (Value:=Value)) (s : pool_state (F:=F) (Value:=Value) (W:=W)).

(** The generator, from [w] on, yields the suggestions of [l] and is exhausted. *)
Inductive yields src : W -> list (option (Suggestion Value)) -> Prop :=
  | yields_end w w' : so_next src w = (w', Err StopIteration) -> yields src w []
  | yields_one w w' x l : so_next src w = (w', Ok x) -> yields src w' l -> yields src w (x :: l).

(** The suggestions that were not None, numbered as they are submitted *)
Definition given (l : list (option (Suggestion Value))) : list (Suggestion Value) := omap id l.
Definition numbered (l : list (Suggestion Value)) : list (nat * Suggestion Value) := imap pair l.

(** What a task leaves behind: an experiment, or an entry in the log *)
Definition succeeded pa (t : nat * Suggestion Value) : option (Experiment F Value) :=
  match pa_result pa t.1 t.2 with Ok c => Some (mkExperiment t.2 c.1 c.2) | Err _ => None end.
Definition failed pa (t : nat * Suggestion Value) : option (Suggestion Value) :=
  match pa_result pa t.1 t.2 with Ok _ => None | Err _ => Some t.2 end.

(** Submissions are accepted; a wait on pending futures gives some of them back;
    a worker fails with an exception of class Exception. *)
Record answering pa : Prop := {
  answer_submit n : pa_submit pa n = Ok tt;
  answer_wait n keys : keys <> [] -> exists completed, pa_wait pa n keys = Ok completed /\ completed <> [] /\
    NoDup completed /\ completed ⊆ keys;
  answer_result n sugg e : pa_result pa n sugg = Err e -> is_Exception e = true;
}.

Lemma numbered_snoc l x : numbered (l ++ [x]) = numbered l ++ [(length l, x)].
Proof. unfold numbered. rewrite imap_app. simpl. by rewrite Nat.add_0_r. Qed.

Lemma numbered_keys l : (numbered l).*1 = seq 0 (length l).
Proof.
  induction l as [|x l IH] using rev_ind; [done|].
  by rewrite numbered_snoc, fmap_app, IH, length_app, Nat.add_comm, seq_S.
Qed.

Lemma pop_perm {V} (d : list (nat * V)) k v : dict_get d k = Some v -> d ≡ₚ (k, v) :: dict_pop d k.
Proof.
  induction d as [|[k' v'] d IH]; [done|]. simpl. case_decide as Hk; [subst; by intros [= ->]|].
  intros Hd. rewrite (IH Hd) at 1. apply Permutation_swap.
Qed.

Section run.
Context src pa (o : Optimizer F Value) (all : list (option (Suggestion Value))).

(** The state of a run: the tasks submitted so far are pending or over, and
    [rest] is still to be drawn. *)
Record accounted s rest (drawn : list (Suggestion Value)) (over : list (nat * Suggestion Value)) : Prop := {
  acc_all : given all = drawn ++ given rest;
  acc_rest : if po_exhausted s then rest = [] else yields src (po_world s) rest;
  acc_count : po_submitted s = length drawn;
  acc_tasks : po_pending s ++ over ≡ₚ numbered drawn;
  acc_experiments : op_experiments (po_optimizer s) = op_experiments o ++ omap (succeeded pa) over;
  acc_max : op_max_pending_tasks (po_optimizer s) = op_max_pending_tasks o;
  acc_logged : po_logged s = omap (failed pa) over;
  acc_open : po_cancelled s = [] /\ po_shutdown s = false;
  acc_point : match po_point s with
    | Collecting completed => NoDup completed /\ completed ⊆ (po_pending s).*1
    | _ => True end;
}.

(** Each step draws, completes or moves on. *)
Definition steps_left s (rest : list (option (Suggestion Value))) : nat :=
  5 * (length rest + (if po_exhausted s then 0 else 1)) + 4 * length (po_pending s) +
  match po_point s with
  | Outer => 2
  | Filling => if bool_decide (po_pending s = []) && po_exhausted s then 3 else 1
  | Collecting [] => 3
  | Collecting _ => 0
  end.

Hypothesis max_positive : 1 <= op_max_pending_tasks o.
Hypothesis answers : answering pa.

Lemma pending_keys s rest drawn over : accounted s rest drawn over -> NoDup (po_pending s).*1.
Proof.
  intros Ha. pose proof (NoDup_seq 0 (length drawn)) as Hd. rewrite <- numbered_keys, <- (acc_tasks _ _ _ _ Ha), fmap_app in Hd.
  rewrite NoDup_app in Hd. tauto.
Qed.

Lemma step_accounted s rest drawn over : accounted s rest drawn over ->
  match pool_step src pa false s with
  | inl s' => exists rest' drawn' over', accounted s' rest' drawn' over' /\ (steps_left s' rest' < steps_left s rest)%nat
  | inr (s', r) => r = Ok tt /\ po_pending s' = [] /\ po_shutdown s' = true /\ po_cancelled s' = [] /\
      op_experiments (po_optimizer s') = op_experiments o ++ omap (succeeded pa) over /\
      po_logged s' = omap (failed pa) over /\ over ≡ₚ numbered (given all)
  end.
Proof.
  intros Ha. pose proof (pending_keys _ _ _ _ Ha) as Hkeys. pose proof Ha as [Hall Hrest Hcount Htasks Hexp Hmax Hlog [Hcan Hshut] Hpoint].
  unfold pool_step. destruct (po_point s) as [| |[|future completed]] eqn:Hp.
  - destruct (negb _ || negb _) eqn:Hgo.
    + exists rest, drawn, over. split; [by split|]. unfold steps_left. rewrite Hp. simpl.
      destruct (bool_decide (po_pending s = [])), (po_exhausted s); simpl in *; try done; lia.
    + apply orb_false_iff in Hgo as [Hempty%negb_false_iff%bool_decide_eq_true Hex%negb_false_iff]. rewrite Hex in Hrest. subst rest.
      split_and!; try done. simpl. rewrite Hempty in Htasks. simpl in Htasks. rewrite Htasks, Hall. simpl. by rewrite app_nil_r.
  - destruct (negb (po_exhausted s) && _) eqn:Hfill.
    + apply andb_true_iff in Hfill as [Hex%negb_true_iff _]. rewrite Hex in Hrest. inversion Hrest as [w w' Hnext|w w' x l Hnext Hl]; subst; rewrite Hnext.
      * exists [], drawn, over. split; [by split|]. unfold steps_left. rewrite Hp, Hex. simpl. case_bool_decide; simpl; lia.
      * destruct x as [sugg|].
        -- rewrite (answer_submit pa answers). exists l, (drawn ++ [sugg]), over. split.
           ++ split; simpl; try done.
              ** rewrite Hall, <- app_assoc. done.
              ** rewrite length_app, Hcount. simpl. lia.
              ** rewrite numbered_snoc, <- Htasks, Hcount, <- !app_assoc. apply Permutation_app_head, Permutation_app_comm.
           ++ unfold steps_left. rewrite Hp, Hex. simpl. rewrite length_app, !andb_false_r. simpl. lia.
        -- exists l, drawn, over. split; [by split|]. unfold steps_left. rewrite Hp, Hex. simpl. rewrite !andb_false_r. lia.
    + case_bool_decide as Hempty.
      * exists rest, drawn, over. split; [by split|]. unfold steps_left. rewrite Hp. simpl. rewrite Hempty in *. simpl in *.
        destruct (po_exhausted s); simpl in *; [lia|]. apply Z.ltb_ge in Hfill. lia.
      * destruct (answer_wait pa answers (po_waits s) (po_pending s).*1) as (completed & -> & Hne & Hnd & Hsub).
        { intros Hnil. by apply fmap_nil_inv in Hnil. }
        exists rest, drawn, over. split; [by split|]. unfold steps_left. rewrite Hp. simpl.
        rewrite bool_decide_false by done. simpl. destruct completed; [done|lia].
  - exists rest, drawn, over. split; [by split|]. unfold steps_left. rewrite Hp. simpl. lia.
  - destruct Hpoint as [Hnd Hsub]. apply NoDup_cons in Hnd as [Hnin Hnd].
    destruct (dict_get (po_pending s) future) as [sugg|] eqn:Hget.
    2: { exfalso. apply dict_get_None in Hget. apply Hget, Hsub. by left. }
    assert (completed ⊆ (dict_pop (po_pending s) future).*1) as Hsub'.
    { intros k Hk. assert (k ∈ (po_pending s).*1) as Hin by (apply Hsub; by right).
      rewrite (pop_perm _ _ _ Hget) in Hin. apply elem_of_cons in Hin as [->|]; [done|done]. }
    assert (po_pending s ++ over ≡ₚ dict_pop (po_pending s) future ++ (over ++ [(future, sugg)])) as Hperm.
    { rewrite (pop_perm _ _ _ Hget) at 1. simpl. rewrite (Permutation_app_comm over). simpl. apply Permutation_middle. }
    assert (length (po_pending s) = S (length (dict_pop (po_pending s) future))) as Hlen by by rewrite (pop_perm _ _ _ Hget) at 1.
    destruct (pa_result pa future sugg) as [c|e] eqn:Hres.
    + exists rest, drawn, (over ++ [(future, sugg)]). split.
      * split; simpl; try done.
        -- by rewrite <- Hperm.
        -- rewrite Hexp, omap_app, <- app_assoc. simpl. unfold succeeded at 3. simpl. by rewrite Hres.
        -- rewrite omap_app, Hlog. simpl. unfold failed at 3. simpl. rewrite Hres. by rewrite app_nil_r.
      * unfold steps_left. rewrite Hp. simpl. rewrite Hlen. destruct completed; lia.
    + rewrite (answer_result pa answers _ _ _ Hres). exists rest, drawn, (over ++ [(future, sugg)]). split.
      * split; simpl; try done.
        -- by rewrite <- Hperm.
        -- rewrite Hexp, omap_app. simpl. unfold succeeded at 3. simpl. rewrite Hres. by rewrite app_nil_r.
        -- rewrite omap_app, Hlog. simpl. unfold failed at 3. simpl. by rewrite Hres.
      * unfold steps_left. rewrite Hp. simpl. rewrite Hlen. destruct completed; lia.
Qed.

Lemma run_accounted n s rest drawn over : accounted s rest drawn over -> (steps_left s rest <= n)%nat ->
  exists over' s', run_multi_process src pa false (S n) s = (s', Ok tt) /\ po_pending s' = [] /\ po_shutdown s' = true /\
    op_experiments (po_optimizer s') = op_experiments o ++ omap (succeeded pa) over' /\
    po_logged s' = omap (failed pa) over' /\ over' ≡ₚ numbered (given all).
Proof.
  revert s rest drawn over. induction n as [|n IH]; intros s rest drawn over Ha Hn; pose proof (step_accounted s rest drawn over Ha) as Hstep;
    cbn [run_multi_process]; destruct (pool_step src pa false s) as [s'|[s' r]].
  - destruct Hstep as (rest' & drawn' & over' & _ & Hlt). lia.
  - destruct Hstep as (-> & ? & ? & _ & ? & ? & ?). eauto 10.
  - destruct Hstep as (rest' & drawn' & over' & Ha' & Hlt). eapply IH; [exact Ha'|lia].
  - destruct Hstep as (-> & ? & ? & _ & ? & ? & ?). eauto 10.
Qed.
End run.

(** C25: A run in worker processes ends, and nothing is lost or repeated.  If the
    generator yields finitely many suggestions and every wait on pending tasks
    gives some of them back, in whatever order the workers finish, [run]
    returns after a number of steps linear in the suggestions; the pool is shut
    down with nothing pending; and every suggestion that is not None was
    evaluated exactly once: its result is one of the experiments, or, when its
    worker failed, the failure was logged. *)
Theorem optimizer_completes src cost_func pa (o : Optimizer F Value) w all fuel :
  op_max_processes o <> Some 1 -> 1 <= op_max_pending_tasks o -> answering pa -> yields src w all ->
  (5 * length all + 8 <= fuel)%nat ->
  exists over s, over ≡ₚ numbered (given all) /\
    run_multi_process src pa false fuel (pool_start o w) = (s, Ok tt) /\
    Optimizer_run src cost_func pa false fuel (o, w) = ((po_optimizer s, po_world s), Ok tt) /\
    po_pending s = [] /\ po_shutdown s = true /\
    op_experiments (po_optimizer s) = op_experiments o ++ omap (succeeded pa) over /\ po_logged s = omap (failed pa) over.
Proof.
  intros Hmulti Hmax Hans Hyields Hfuel. destruct fuel as [|n]; [lia|].
  destruct (run_accounted src pa o all Hmax Hans n (pool_start o w) all [] []) as (over & s & Hrun & Hrest).
  - split; try done. simpl. by rewrite app_nil_r.
  - unfold steps_left. simpl. lia.
  - exists over, s. unfold Optimizer_run. rewrite bool_decide_false by done. rewrite Hrun. intuition.
Qed.

(** ** At every moment, and when a run raises *)

(** What holds between two steps, whatever the pool answers *)
Record bounded (o : Optimizer F Value) s : Prop := {
  bd_pending : Z.of_nat (length (po_pending s)) <= op_max_pending_tasks o;
  bd_keys : StronglySorted lt (po_pending s).*1 /\ Forall (fun k => (k < po_submitted s)%nat) (po_pending s).*1;
  bd_max : op_max_pending_tasks (po_optimizer s) = op_max_pending_tasks o;
  bd_experiments : op_experiments o `prefix_of` op_experiments (po_optimizer s);
  bd_open : po_cancelled s = [] /\ po_shutdown s = false;
}.

(** What holds at the end *)
Definition closed (o : Optimizer F Value) s (r : result unit) : Prop :=
  Z.of_nat (length (po_pending s)) <= op_max_pending_tasks o /\ op_experiments o `prefix_of` op_experiments (po_optimizer s) /\
  po_shutdown s = true /\ po_cancelled s = (po_pending s).*1 /\ (r = Ok tt -> po_pending s = []).

Lemma pop_sublist {V} (d : list (nat * V)) k : (dict_pop d k).*1 `sublist_of` d.*1.
Proof. induction d as [|[k' v] d IH]; [done|]. simpl. case_decide; [by apply sublist_cons|by apply sublist_skip]. Qed.

Lemma Forall_subseteq {A} (P : A -> Prop) (l k : list A) : k ⊆ l -> Forall P l -> Forall P k.
Proof. intros Hs. rewrite !Forall_forall. auto. Qed.

Lemma increasing_sublist (l k : list nat) : k `sublist_of` l -> StronglySorted lt l -> StronglySorted lt k.
Proof.
  induction 1 as [|x l1 l2 Hs IH|x l1 l2 Hs IH]; intros Hl; inv Hl; [constructor| |by apply IH]. constructor; [by apply IH|].
  eapply Forall_subseteq; [by apply sublist_subseteq|done].
Qed.

Lemma pop_bounded o s completed o' logged future : bounded o s -> op_max_pending_tasks o' = op_max_pending_tasks o ->
  op_experiments o `prefix_of` op_experiments o' -> bounded o (po_popped completed o' logged future s).
Proof.
  intros [Hp [Hs Hk] Hm He Ho] Hm' He'. pose proof (pop_sublist (po_pending s) future) as Hsub. split; simpl; try done.
  - apply sublist_length in Hsub. rewrite !length_fmap in Hsub. lia.
  - split; [by eapply increasing_sublist|]. eapply Forall_subseteq; [by apply sublist_subseteq|done].
Qed.

Lemma snoc_increasing (l : list nat) n : StronglySorted lt l -> Forall (fun k => (k < n)%nat) l -> StronglySorted lt (l ++ [n]).
Proof.
  induction 1 as [|x l Hs IH Hx]; intros Hl; simpl; [repeat constructor|]. inv Hl. constructor; [by apply IH|].
  apply Forall_app. split; [done|]. by repeat constructor.
Qed.

Lemma abort_closed o s e : bounded o s -> closed o (po_abort s e).1 (po_abort s e).2.
Proof. by intros [Hp _ _ He _]. Qed.

Lemma step_bounded src pa raise_on_error o s : bounded o s ->
  match pool_step src pa raise_on_error s with inl s' => bounded o s' | inr (s', r) => closed o s' r end.
Proof.
  intros Hb. pose proof Hb as [Hp [Hs Hk] Hm He [Hcan Hshut]].
  assert (forall e s', bounded o s' -> let '(s'', r) := po_abort s' e in closed o s'' r) as Habort.
  { intros e s' Hs'. pose proof (abort_closed o s' e Hs') as Hc. by destruct (po_abort s' e). }
  assert (forall w x, bounded o (po_drawn w x s)) as Hdrawn by by split.
  unfold pool_step. destruct (po_point s) as [| |[|future completed]].
  - destruct (negb _ || negb _) eqn:Hgo; [by split|]. apply orb_false_iff in Hgo as [Hempty%negb_false_iff%bool_decide_eq_true _].
    split; [done|]. split; [done|]. split; [done|]. simpl. by rewrite Hempty, Hcan.
  - destruct (_ && _) eqn:Hfill.
    + destruct (so_next src (po_world s)) as [w' [[sugg|]|e]].
      * simpl po_submitted. destruct (pa_submit pa (po_submitted s)); [|by apply Habort]. apply andb_true_iff in Hfill as [_ Hlt%Z.ltb_lt].
        rewrite Hm in Hlt. split; simpl; try done.
        -- rewrite length_app. simpl. lia.
        -- rewrite fmap_app. split; [by apply snoc_increasing|]. apply Forall_app. split; [eapply Forall_impl; [exact Hk|]; simpl; lia|].
           repeat constructor.
      * apply Hdrawn.
      * pose proof (Habort e _ (Hdrawn w' false)) as Ha. destruct (po_abort _ e). destruct e; try done; apply Hdrawn.
    + case_bool_decide; [by split|]. destruct (pa_wait _ _ _); [by split|by apply Habort].
  - by split.
  - destruct (dict_get (po_pending s) future) as [sugg|]; [|by apply Habort].
    destruct (pa_result pa future sugg) as [c|e].
    + apply pop_bounded; [done|done|]. simpl. by apply prefix_app_r.
    + destruct (is_Exception e); [destruct raise_on_error|]; try (apply Habort); by apply pop_bounded.
Qed.

(** C26: Whatever the generator does, whatever the pool answers and whichever
    workers fail, with or without [raise_on_error], at every moment of a run in
    worker processes no more than [max_pending_tasks] tasks are pending, under
    distinct futures, and the experiments recorded so far are kept.  When the
    run ends, the pool has been shut down; if it raises, exactly the tasks that
    were still pending have been cancelled, and if it returns there are none. *)
Theorem pool_never_overruns src pa raise_on_error (o : Optimizer F Value) w s :
  0 <= op_max_pending_tasks o ->
  rtc (fun s s' => pool_step src pa raise_on_error s = inl s') (pool_start o w) s ->
  Z.of_nat (length (po_pending s)) <= op_max_pending_tasks o /\ NoDup (po_pending s).*1 /\
  op_experiments o `prefix_of` op_experiments (po_optimizer s) /\
  forall s' r, pool_step src pa raise_on_error s = inr (s', r) -> closed o s' r.
Proof.
  intros Hmax Hreach.
  assert (bounded o s) as Hb.
  { revert Hreach. apply (rtc_ind_r (bounded o)); [split; try done; simpl; by repeat constructor|].
    intros s1 s2 _ Hstep Hb. pose proof (step_bounded src pa raise_on_error o s1 Hb) as Hnext. by rewrite Hstep in Hnext. }
  pose proof (step_bounded src pa raise_on_error o s Hb) as Hnext. destruct Hb as [Hp [Hs Hk] Hm He Ho].
  split_and!; [done| |done|]; [|intros s' r Hstep; by rewrite Hstep in Hnext].
  clear -Hs. induction Hs as [|k l Hs IH Hlt]; constructor; [|done]. intros Hin. rewrite Forall_forall in Hlt. specialize (Hlt k Hin). lia.
Qed.

(** ** In one process *)

(** The experiments of the suggestions up to the first that fails; a cost
    function that raises [StopIteration] ends the run without an exception. *)
Fixpoint evaluated (c : Suggestion Value -> result (Costs F)) (l : list (Suggestion Value)) : list (Experiment F Value) * result unit :=
  match l with
  | [] => ([], Ok tt)
  | sugg :: l =>
      match c sugg with
      | Ok v => let '(es, r) := evaluated c l in (mkExperiment sugg v.1 v.2 :: es, r)
      | Err StopIteration => ([], Ok tt)
      | Err e => ([], Err e)
      end
  end.

(** The generator takes no notice of the costs sent to it. *)
Definition ignores_feedback src : Prop :=
  match so_send src with None => True | Some send => forall c w, send c w = so_next src w end.

Definition stopped {A} (r : A * result unit) : A * result unit :=
  match r with (x, Err StopIteration) => (x, Ok tt) | r => r end.

Lemma drawn_single src c l : ignores_feedback src -> forall o w fuel, yields src w l -> (length l + 1 <= fuel)%nat ->
  exists o' w', stopped (match so_next src w with
      | (w, Ok x) => single_loop src (fun sugg w => (w, c sugg)) fuel x (o, w)
      | (w, Err e) => ((o, w), Err e) end) = ((o', w'), (evaluated c (given l)).2) /\
    op_experiments o' = op_experiments o ++ (evaluated c (given l)).1.
Proof.
  intros Hsend. induction l as [|x l IH]; intros o w fuel Hy Hf; inversion Hy as [? w' Hnext|? w' ? ? Hnext Hl]; subst; rewrite Hnext.
  - exists o, w'. simpl. by rewrite app_nil_r.
  - destruct fuel as [|fuel]; [simpl in Hf; lia|]. cbn [single_loop]. destruct x as [sugg|].
    2: { apply IH; [done|simpl in Hf; lia]. }
    assert (forall v w, (match so_send src with Some send => send v w | None => so_next src w end) = so_next src w) as Hfeed.
    { intros v w1. unfold ignores_feedback in Hsend. by destruct (so_send src). }
    change (given (Some sugg :: l)) with (sugg :: given l). cbn [evaluated]. destruct (c sugg) as [v|e].
    + rewrite Hfeed. destruct (IH (add_experiment o sugg v) w' fuel Hl ltac:(simpl in Hf; lia)) as (o' & w1 & Hrun & Hexp).
      exists o', w1. destruct (evaluated c (given l)) as [es r]. split; [exact Hrun|]. rewrite Hexp. simpl. by rewrite <- app_assoc.
    + exists o, w'. destruct e; simpl; by rewrite app_nil_r.
Qed.

(** In one process, over a generator of finitely many suggestions that does
    not depend on the costs, [run] ends with one experiment for each suggestion,
    in the order drawn, up to the first the cost function raises on, whose
    exception it raises; but if that is [StopIteration] it returns as if the
    generator were exhausted. *)
Theorem single_process_in_order src c pa (o : Optimizer F Value) w all fuel raise_on_error :
  op_max_processes o = Some 1 -> ignores_feedback src -> yields src w all -> (length all + 1 <= fuel)%nat ->
  exists o' w', Optimizer_run src (fun sugg w => (w, c sugg)) pa raise_on_error fuel (o, w) = ((o', w'), (evaluated c (given all)).2) /\
    op_experiments o' = op_experiments o ++ (evaluated c (given all)).1.
Proof.
  intros Hone Hsend Hy Hf. unfold Optimizer_run. rewrite bool_decide_true by done.
  destruct (drawn_single src c all Hsend o w fuel Hy Hf) as (o' & w' & Hrun & Hexp). exists o', w'. split; [|done].
  rewrite <- Hrun. unfold run_single_process, stopped. destruct (so_next src w) as [w1 [x|e]];
    [by destruct (single_loop _ _ _ _ _) as [? [?|[]]]|by destruct e].
Qed.
End facts.

(** ** A small grid search *)

(** Three suggestions, one of them None, held in the world *)
Definition grid : list (option (Suggestion Z)) := [Some [("x"%string, 1)]; None; Some [("x"%string, 2)]].
Definition list_source : source (list (option (Suggestion Z))) Z (Costs XQ) :=
  mkSource (fun w => match w with [] => ([], Err StopIteration) | x :: w => (w, Ok x) end) None.

(** The worker of the first suggestion fails; the second finishes first. *)
Definition demo_answers : pool_answers (F:=XQ) (Value:=Z) :=
  mkAnswers (fun _ => Ok tt) (fun _ keys => Ok (take 1 (rev keys)))
    (fun n sugg => match n with O => Err (ValueError "x") | _ => Ok (f_of_Z 7, []) end).

Lemma demo_answering : answering demo_answers.
Proof.
  split; [done| |intros [|n] sugg e [= <-]; done].
  intros n keys Hk. eexists. split; [reflexivity|]. destruct keys as [|k keys] using rev_ind; [done|].
  rewrite rev_app_distr. simpl. split_and!; [done|repeat constructor; set_solver|set_solver].
Qed.

Lemma list_yields l : yields list_source l l.
Proof. induction l as [|x l IH]; [by eapply yields_end|by eapply yields_one]. Qed.

Lemma optimizer_completes_witness :
  let o := mkOptimizer (F:=XQ) (Value:=Z) None "spawn" 2 [] in
  exists over s, over ≡ₚ numbered (given grid) /\
    run_multi_process list_source demo_answers false 23 (pool_start o grid) = (s, Ok tt) /\
    Optimizer_run list_source (fun s w => (w, Err (ValueError "unused"))) demo_answers false 23 (o, grid) = ((po_optimizer s, po_world s), Ok tt) /\
    po_pending s = [] /\ po_shutdown s = true /\
    op_experiments (po_optimizer s) = omap (succeeded demo_answers) over /\ po_logged s = omap (failed demo_answers) over.
Proof.
  exact (optimizer_completes list_source (fun s w => (w, Err (ValueError "unused"))) demo_answers (mkOptimizer None "spawn" 2 []) grid grid 23
    ltac:(done) ltac:(simpl; lia) demo_answering (list_yields grid) ltac:(simpl; lia)).
Defined.

Definition demo_pool : Optimizer XQ Z := mkOptimizer None "spawn" 1 [].
Definition demo_next (s : pool_state (F:=XQ)) : pool_state :=
  match pool_step list_source demo_answers true s with inl s => s | inr (s, _) => s end.

(** With room for one task, the run waits for the first suggestion and fails with it. *)
Lemma pool_never_overruns_witness :
  let s := demo_next (demo_next (demo_next (pool_start demo_pool grid))) in
  Z.of_nat (length (po_pending s)) <= 1 /\ po_pending s <> [] /\
  forall s' r, pool_step list_source demo_answers true s = inr (s', r) -> r = Err worker_error /\ closed demo_pool s' r.
Proof.
  intros s.
  destruct (pool_never_overruns list_source demo_answers true demo_pool grid s ltac:(simpl; lia)
    ltac:(do 3 (eapply rtc_l; [reflexivity|]); apply rtc_refl)) as (Hp & _ & _ & Hend).
  split_and!; [exact Hp|by vm_compute|]. intros s' r Hs. split; [by vm_compute in Hs; simplify_eq|by apply Hend].
Defined.

Lemma single_process_in_order_witness :
  let o := mkOptimizer (F:=XQ) (Value:=Z) (Some 1) "spawn" 2 [] in
  let c := fun s : Suggestion Z => if bool_decide (s = [("x"%string, 1)]) then Ok (f_of_Z 7, []) else Err StopIteration in
  exists o' w', Optimizer_run list_source (fun s w => (w, c s)) demo_answers true 4 (o, grid) = ((o', w'), Ok tt) /\
    op_experiments o' = [mkExperiment [("x"%string, 1)] (f_of_Z 7) []].
Proof.
  exact (single_process_in_order list_source (fun s => if bool_decide (s = [("x"%string, 1)]) then Ok (f_of_Z 7, []) else Err StopIteration)
    demo_answers (mkOptimizer (Some 1) "spawn" 2 []) grid grid 4 true eq_refl I (list_yields grid) ltac:(simpl; lia)).
Defined.
