(* ===== verification/Configuration.v ===== *)
(** * Run configuration and provenance (configuration.py)

    The settings of a run, resolved from layers, and the record of what a run
    depended on.  JSON text and digests are those of file FactorIdentity; YAML
    documents, files and the environment are arguments, as a layer is the
    mapping a document came to.  Fingerprints of frames are computed by Polars
    and are strings here. *)

From Stdlib Require Import Ascii.
From S2P Require Import Prelude Numeric FactorIdentity.

#[local] Open Scope Z_scope.

Section configuration.
Context {F : Type} `{PyFloat F}.

(** ** The settings *)

(** A starting equity keeps its class if it is an int or a float. *)
Inductive equity := EquityInt (z : Z) | EquityFloat (x : F).

Record RunConfiguration := mkRunConfiguration {
  rc_starting_equity : equity;
  rc_pnl_calc_time : Z;
  rc_trade_lag : Z;
  rc_run_final_calc : bool;
  rc_log_trades : bool;
  rc_log_orders : bool;
}.

(** [isinstance(v, Real)] without the booleans; fractions and other classes
    registered as Real aside *)
Definition check_starting_equity (v : pyval F) : result equity :=
  unless is_real v raise TypeError "starting_equity must be a real number, not a boolean" ;;
  let finite_equity := match v with
    | PInt z => negb (f_isinf (f_of_Z (F:=F) z))
    | PNpInt _ => true
    | PFloat x | PNpFloat x => f_isfinite x
    | _ => false end in
  let not_positive := match v with
    | PInt z | PNpInt z => z <=? 0
    | PFloat x | PNpFloat x => f_leb x f_zero
    | _ => false end in
  whenever negb finite_equity || not_positive raise ValueError "starting_equity must be finite and positive" ;;
  match v with
  | PInt z => Ok (EquityInt z)
  | v => x ← py_float v; Ok (EquityFloat x)
  end.

(** [isinstance(v, Integral)] without the booleans *)
Definition check_integer (name : string) (v : pyval F) : result Z :=
  match v with
  | PInt z | PNpInt z => Ok z
  | _ => Err (TypeError (name +:+ " must be an integer, not a boolean"))
  end.

Definition check_bool (name : string) (v : pyval F) : result bool :=
  match v with PBool b => Ok b | _ => Err (TypeError (name +:+ " must be a bool")) end.

(** [RunConfiguration.__post_init__] *)
Definition RunConfiguration_init (starting_equity pnl_calc_time trade_lag run_final_calc log_trades log_orders : pyval F)
  : result RunConfiguration :=
  starting_equity ← check_starting_equity starting_equity;
  pnl_calc_time ← check_integer "pnl_calc_time" pnl_calc_time;
  trade_lag ← check_integer "trade_lag" trade_lag;
  run_final_calc ← check_bool "run_final_calc" run_final_calc;
  log_trades ← check_bool "log_trades" log_trades;
  log_orders ← check_bool "log_orders" log_orders;
  unless (0 <=? pnl_calc_time) && (pnl_calc_time <? 24 * 60) raise ValueError "pnl_calc_time must be between 0 and 1439" ;;
  whenever trade_lag <? 0 raise ValueError "trade_lag must be a non-negative integer" ;;
  Ok (mkRunConfiguration starting_equity pnl_calc_time trade_lag run_final_calc log_trades log_orders).

(** The fields with their defaults *)
Definition configuration_defaults : list (string * pyval F) :=
  [("starting_equity", PFloat (f_of_Z 1000000)); ("pnl_calc_time", PInt (16 * 60 + 1)); ("trade_lag", PInt 0);
   ("run_final_calc", PBool true); ("log_trades", PBool true); ("log_orders", PBool false)]%string.

Definition setting (resolved : list (string * pyval F)) (name : string) : pyval F :=
  match dict_get resolved name with Some v => v | None => default PNone (dict_get configuration_defaults name) end.

(** [cls( **resolved )] *)
Definition configuration_of (resolved : list (string * pyval F)) : result RunConfiguration :=
  RunConfiguration_init (setting resolved "starting_equity") (setting resolved "pnl_calc_time") (setting resolved "trade_lag")
    (setting resolved "run_final_calc") (setting resolved "log_trades") (setting resolved "log_orders").

(** A layer: a mapping, whose keys may be no strings ([None]), or another object *)
Inductive layer := Mapping (items : list (option string * pyval F)) | NoMapping.

Definition dict_update (d d' : list (string * pyval F)) : list (string * pyval F) :=
  foldl (fun d x => dict_set d x.1 x.2) d d'.

(** One turn of the loop of [from_layers] *)
Definition add_layer (resolved : list (string * pyval F)) (l : option layer) : result (list (string * pyval F)) :=
  match l with
  | None => Ok resolved
  | Some NoMapping => Err (TypeError "configuration layers must be mappings with string keys")
  | Some (Mapping items) =>
      whenever existsb (fun x => bool_decide (x.1 = None)) items
        raise TypeError "configuration layers must be mappings with string keys" ;;
      let items : list (string * pyval F) := omap (fun x => (fun k => (k, x.2)) <$> x.1) items in
      unless forallb (fun x => bool_decide (x.1 ∈ configuration_defaults.*1)) items
        raise ValueError "unknown run configuration fields" ;;
      Ok (dict_update resolved items)
  end.

(** [RunConfiguration.from_layers] *)
Definition from_layers (layers : list (option layer)) : result RunConfiguration :=
  resolved ← foldE add_layer [] layers;
  configuration_of resolved.

(** [_unique_configuration_mapping]: the pairs of a mapping node, its keys constructed *)
Definition unique_mapping (pairs : list (option string * pyval F)) : result (list (string * pyval F)) :=
  foldE (fun result x =>
    match x.1 with
    | None => Err (TypeError "configuration keys must be strings")
    | Some key => whenever dict_mem result key raise ValueError "duplicate configuration field" ;; Ok (dict_set result key x.2)
    end) [] pairs.

(** What a file holds: nothing, a mapping node, or another document.  [None] is
    a path that is no file. *)
Inductive document := EmptyDocument | MappingDocument (pairs : list (option string * pyval F)) | OtherDocument.

(** [load_run_configuration], [files] being what the paths lead to *)
Definition load_run_configuration (files : list (option (result document))) (defaults overrides : option layer) : result RunConfiguration :=
  layers ← foldE (fun layers file =>
    match file with
    | None => Ok layers
    | Some loaded =>
        loaded ← loaded;
        match loaded with
        | EmptyDocument => Ok (layers ++ [Some (Mapping [])])
        | MappingDocument pairs => d ← unique_mapping pairs; Ok (layers ++ [Some (Mapping ((fun x => (Some x.1, x.2)) <$> d))])
        | OtherDocument => Err (ValueError "configuration root must be a mapping")
        end
    end) [defaults] files;
  from_layers (layers ++ [overrides]).

(** ** The commit of the working tree *)

Definition is_space (c : ascii) : bool := ascii_in "009" "013" c || ascii_in "028" " " c.
Fixpoint lstrip (s : string) : string :=
  match s with EmptyString => EmptyString | String c s' => if is_space c then lstrip s' else s end.
Fixpoint rstrip (s : string) : string :=
  match s with
  | EmptyString => EmptyString
  | String c s' => match rstrip s' with EmptyString => if is_space c then EmptyString else String c EmptyString | s' => String c s' end
  end.
Definition strip (s : string) : string := rstrip (lstrip s).

Definition removeprefix (p s : string) : option string :=
  if String.prefix p s then Some (String.substring (String.length p) (String.length s - String.length p) s) else None.

(** [_git_commit]: [env] is GITHUB_SHA, [directories] the directory and its
    parents, [read] the text of a file of the .git directory of one of them,
    [None] where there is none. *)
Fixpoint find_commit {D : Type} (read : D -> string -> option string) (directories : list D) : option string :=
  match directories with
  | [] => None
  | d :: directories =>
      match read d "HEAD"%string with
      | None => find_commit read directories
      | Some head =>
          let value := strip head in
          match removeprefix "ref: " value with
          | None => Some value
          | Some ref => strip <$> read d ref
          end
      end
  end.

Definition git_commit {D : Type} (env : option string) (read : D -> string -> option string) (directories : list D) : option string :=
  match env with
  | Some sha => if String.eqb sha "" then find_commit read directories else Some sha
  | None => find_commit read directories
  end.
End configuration.
Arguments RunConfiguration F : clear implicits.
Arguments equity F : clear implicits.
Arguments layer F : clear implicits.
Arguments document F : clear implicits.

(** ** Provenance *)

Section provenance.
Context {F T : Type} `{PyFloat F} `{JsonText F T} `{Sha256 T}.

Fixpoint all_finite (v : value F) : bool :=
  match v with
  | VFloat x => f_isfinite x
  | VSeq l => forallb all_finite l
  | VMap l => forallb (fun x => all_finite x.2) l
  | _ => true
  end.

(** [_canonical_json], with [allow_nan=False] *)
Definition canonical_json (v : value F) : result T :=
  unless all_finite v raise ValueError "Out of range float values are not JSON compliant" ;; Ok (json_dumps v).

(** [_digest] *)
Definition digest_of (v : value F) : result string := sha256_hex <$> canonical_json v.

Definition equity_value (e : equity F) : value F := match e with EquityInt z => VInt z | EquityFloat x => VFloat x end.

(** [asdict(configuration)] *)
Definition configuration_asdict (c : RunConfiguration F) : value F :=
  VMap [item "starting_equity" (equity_value (rc_starting_equity c)); item "pnl_calc_time" (VInt (rc_pnl_calc_time c));
        item "trade_lag" (VInt (rc_trade_lag c)); item "run_final_calc" (VBool (rc_run_final_calc c));
        item "log_trades" (VBool (rc_log_trades c)); item "log_orders" (VBool (rc_log_orders c))].

(** [RunConfiguration.digest] *)
Definition configuration_digest (c : RunConfiguration F) : result string := digest_of (configuration_asdict c).

Record RunProvenance := mkProvenance {
  rp_configuration : RunConfiguration F;
  rp_input_fingerprints : list (string * string);
  rp_package_version : string;
  rp_git_commit : option string;
  rp_captured_at : string;                    (* captured_at.isoformat() *)
  rp_execution_manifest_json : option T;
}.

(** [isinstance(manifest, dict)] with the version 1 *)
Definition supported_manifest (manifest : value F) : bool :=
  match manifest with
  | VMap l => match dict_get l (Some "version"%string) with Some (VInt z) => z =? 1 | _ => false end
  | _ => false
  end.

(** [RunProvenance.__post_init__] *)
Definition RunProvenance_init (configuration : RunConfiguration F) (input_fingerprints : list (string * string))
  (package_version : string) (git_commit : option string) (captured_at : string) (execution_manifest_json : option T)
  : result RunProvenance :=
  manifest_json ← match execution_manifest_json with
    | None => Ok None
    | Some text =>
        manifest ← json_loads text;
        unless supported_manifest manifest raise ValueError "unsupported execution manifest" ;;
        Some <$> canonical_json manifest
    end;
  Ok (mkProvenance configuration input_fingerprints package_version git_commit captured_at manifest_json).

Definition sorted_fingerprints (l : list (string * string)) : value F :=
  VMap (sorted_items ((fun x => item x.1 (VStr x.2)) <$> l)).

Definition optional_text (s : option string) : value F := match s with Some s => VStr s | None => VNone end.

Definition manifest_items (p : RunProvenance) : result (list (option string * value F)) :=
  match rp_execution_manifest_json p with
  | None => Ok []
  | Some text => manifest ← json_loads text; Ok [item "execution_manifest" manifest]
  end.

(** The mapping [run_fingerprint] digests *)
Definition run_identity (p : RunProvenance) : result (value F) :=
  manifest ← manifest_items p;
  Ok (VMap ([item "configuration" (configuration_asdict (rp_configuration p));
             item "inputs" (sorted_fingerprints (rp_input_fingerprints p));
             item "package_version" (VStr (rp_package_version p)); item "git_commit" (optional_text (rp_git_commit p))] ++ manifest)).

(** [RunProvenance.run_fingerprint] *)
Definition run_fingerprint (p : RunProvenance) : result string := identity ← run_identity p; digest_of identity.

(** [RunProvenance.with_input]: [replace] runs [__post_init__] again. *)
Definition with_input (p : RunProvenance) (name fingerprint : string) : result RunProvenance :=
  whenever String.eqb name "" || String.eqb fingerprint "" raise ValueError "input name and fingerprint must be non-empty" ;;
  RunProvenance_init (rp_configuration p) (dict_set (rp_input_fingerprints p) name fingerprint) (rp_package_version p)
    (rp_git_commit p) (rp_captured_at p) (rp_execution_manifest_json p).

(** [RunProvenance.snapshot] *)
Definition provenance_snapshot (p : RunProvenance) : result (value F) :=
  configuration_digest ← configuration_digest (rp_configuration p);
  fingerprint ← run_fingerprint p;
  manifest ← manifest_items p;
  Ok (VMap ([item "configuration" (configuration_asdict (rp_configuration p)); item "configuration_digest" (VStr configuration_digest);
             item "input_fingerprints" (sorted_fingerprints (rp_input_fingerprints p));
             item "package_version" (VStr (rp_package_version p)); item "git_commit" (optional_text (rp_git_commit p));
             item "captured_at" (VStr (rp_captured_at p)); item "run_fingerprint" (VStr fingerprint)] ++ manifest)).
End provenance.
Arguments RunProvenance F T : clear implicits.
