(* ===== verification/ConfigurationFacts.v ===== *)
(** * What run configurations and provenance promise

    Layers resolve field by field to the last one that sets it, or are refused;
    a configuration that exists is valid.  The mapping a run's fingerprint
    digests identifies exactly what it should. *)

From Stdlib Require Import Ascii.
From S2P Require Import Prelude Numeric FactorIdentity FactorIdentityFacts Configuration.

#[local] Open Scope Z_scope.

Section layers.
Context {F : Type} `{PyFloat F}.
Implicit Types (c : RunConfiguration F) (l : option (layer F)).

(** What [__post_init__] establishes *)
Record valid_configuration c : Prop := {
  vc_equity : match rc_starting_equity c with
    | EquityInt z => f_isinf (f_of_Z (F:=F) z) = false /\ 0 < z
    | EquityFloat x => (f_isfinite x = true /\ f_leb x f_zero = false) \/ exists z, 0 < z /\ py_float (PNpInt z) = Ok x end;
  vc_time : 0 <= rc_pnl_calc_time c < 1440;
  vc_lag : 0 <= rc_trade_lag c;
}.

(** The exception a layer raises *)
Definition refused l : option exn :=
  match l with
  | None => None
  | Some NoMapping => Some (TypeError "configuration layers must be mappings with string keys")
  | Some (Mapping items) =>
      if existsb (fun x => bool_decide (x.1 = None)) items
      then Some (TypeError "configuration layers must be mappings with string keys")
      else if forallb (fun x => bool_decide (x.1 ∈ Some <$> (configuration_defaults (F:=F)).*1)) items then None
      else Some (ValueError "unknown run configuration fields")
  end.

(** The settings of the layers, in order *)
Definition layer_items l : list (string * pyval F) :=
  match l with Some (Mapping items) => omap (fun x => (fun k => (k, x.2)) <$> x.1) items | _ => [] end.
Definition all_items (layers : list (option (layer F))) : list (string * pyval F) := layers ≫= layer_items.

(** The value the last layer that sets a field gives it, or its default *)
Definition last_setting (layers : list (option (layer F))) (name : string) : pyval F :=
  match dict_get (rev (all_items layers)) name with
  | Some v => v
  | None => default PNone (dict_get configuration_defaults name)
  end.

Lemma dict_update_get (d d' : list (string * pyval F)) k :
  dict_get (dict_update d d') k = match dict_get (rev d') k with Some v => Some v | None => dict_get d k end.
Proof.
  unfold dict_update. revert d. induction d' as [|[k' v] d' IH]; intros d; [done|]. cbn [foldl rev]. rewrite IH, dict_get_app.
  destruct (dict_get (rev d') k); [done|]. cbn [fst snd dict_get]. rewrite dict_get_set. by repeat case_decide; subst.
Qed.

Lemma known_keys (items : list (option string * pyval F)) : existsb (fun x => bool_decide (x.1 = None)) items = false ->
  forallb (fun x => bool_decide (x.1 ∈ Some <$> (configuration_defaults (F:=F)).*1)) items =
  forallb (fun x => bool_decide (x.1 ∈ (configuration_defaults (F:=F)).*1)) (omap (fun x => (fun k => (k, x.2)) <$> x.1) items).
Proof.
  induction items as [|[[k|] v] items IH]; simpl existsb; [done| |done]. intros Hn. cbn [forallb omap list_omap fst snd fmap option_fmap option_map].
  rewrite IH by done. f_equal. apply bool_decide_ext. cbn [fst]. rewrite list_elem_of_fmap. naive_solver.
Qed.

Lemma add_layer_spec resolved l :
  add_layer resolved l = match refused l with Some e => Err e | None => Ok (dict_update resolved (layer_items l)) end.
Proof.
  destruct l as [[items|]|]; [|done|done]. unfold add_layer, refused, layer_items.
  destruct (existsb _ items) eqn:Hn; [done|]. cbn [negb guard_ok mbind result_bind]. rewrite known_keys by done.
  by destruct (forallb _ _).
Qed.

Lemma fold_layers resolved layers :
  foldE add_layer resolved layers = match head (omap refused layers) with
    | Some e => Err e
    | None => Ok (dict_update resolved (all_items layers)) end.
Proof.
  revert resolved. induction layers as [|l layers IH]; intros resolved; [done|]. cbn [foldE omap list_omap]. rewrite add_layer_spec.
  destruct (refused l) as [e|]; [done|]. cbn [mbind result_bind]. rewrite IH. destruct (head _); [done|]. f_equal.
  unfold all_items. rewrite bind_cons. unfold dict_update. by rewrite foldl_app.
Qed.

Lemma equity_valid v e : check_starting_equity (F:=F) v = Ok e ->
  match e with
  | EquityInt z => f_isinf (f_of_Z (F:=F) z) = false /\ 0 < z
  | EquityFloat x => (f_isfinite x = true /\ f_leb x f_zero = false) \/ exists z, 0 < z /\ py_float (PNpInt z) = Ok x
  end.
Proof.
  unfold check_starting_equity. intros He. apply guard_bind_Ok in He as [Hr He]. apply guard_bind_Ok in He as [Hf He].
  apply negb_true_iff, orb_false_iff in Hf as [Hf%negb_false_iff Hp].
  destruct v; try done; cbn [py_float mbind result_bind] in He.
  - simplify_eq/=. split; [by destruct (f_isinf (f_of_Z z))|lia].
  - simplify_eq/=. by left.
  - destruct (f_isinf (f_of_Z z)) eqn:Hz; [done|]. simplify_eq/=. right. exists z. split; [lia|]. cbn [py_float]. by rewrite Hz.
  - simplify_eq/=. by left.
Qed.

Lemma init_valid e t g a b d c : RunConfiguration_init (F:=F) e t g a b d = Ok c -> valid_configuration c.
Proof. unfold RunConfiguration_init. intros Hc. inv_ok Hc. bools. split; simpl; [by eapply equity_valid|lia..]. Qed.

(** [RunConfiguration.from_layers] takes the layers from left to right.  It
    raises the exception of the first layer that is no mapping, has a key that
    is not a string, or names an unknown field; otherwise each field has the
    value of the last layer that sets it, whatever earlier layers held, or its
    default, and the configuration of these values is built.  A configuration
    that results is valid: finite positive equity, a time of day, a lag that is
    not negative. *)
Theorem from_layers_resolves layers :
  from_layers layers = match head (omap refused layers) with
    | Some e => Err e
    | None => RunConfiguration_init (last_setting layers "starting_equity") (last_setting layers "pnl_calc_time")
        (last_setting layers "trade_lag") (last_setting layers "run_final_calc") (last_setting layers "log_trades")
        (last_setting layers "log_orders")
    end /\
  forall c, from_layers layers = Ok c -> valid_configuration c.
Proof.
  assert (forall name, setting (dict_update [] (all_items layers)) name = last_setting layers name) as Hset.
  { intros name. unfold setting, last_setting. rewrite dict_update_get. by destruct (dict_get (rev _) name). }
  unfold from_layers. rewrite fold_layers. split.
  - destruct (head _); [done|]. cbn [mbind result_bind]. unfold configuration_of. by rewrite !Hset.
  - intros c. destruct (head _); [done|]. cbn [mbind result_bind]. apply init_valid.
Qed.
End layers.

(** A file is overridden; an unknown field is refused. *)
Example demo_layers :
  from_layers (F:=XQ) [Some (Mapping [(Some "trade_lag", PInt 2); (Some "log_orders", PBool true)]); None;
                       Some (Mapping [(Some "trade_lag", PNpInt 0); (Some "starting_equity", PInt 5)])]%string =
    Ok (mkRunConfiguration (EquityInt 5) 961 0 true true true) /\
  from_layers (F:=XQ) [Some (Mapping [(Some "lag", PInt 2)])]%string = Err (ValueError "unknown run configuration fields").
Proof. split; by vm_compute. Qed.

(** ** Provenance *)

(** Mappings read from JSON have text keys, each once. *)
Class JsonLoadsPlain (F T : Type) `{JsonText F T} : Prop :=
  json_loads_plain : forall t v, json_loads t = Ok v -> json_plain v = true.

Section provenance.
Context {F T : Type} `{PyFloat F} `{!JsonText F T} `{!JsonTextLaws F T} `{!JsonLoadsPlain F T} `{!Sha256 T}.
Implicit Types (p q : RunProvenance F T) (l : list (option string * value F)).

(** The text a run's fingerprint digests *)
Definition run_payload p : result T := identity ← run_identity p; canonical_json identity.

(** A provenance the constructor made *)
Definition made p : Prop :=
  RunProvenance_init (rp_configuration p) (rp_input_fingerprints p) (rp_package_version p) (rp_git_commit p) (rp_captured_at p)
    (rp_execution_manifest_json p) = Ok p /\ NoDup (rp_input_fingerprints p).*1.

(** The same run: all but the time it was captured, up to the order of inputs *)
Definition same_run p q : Prop :=
  rp_configuration p = rp_configuration q /\ rp_input_fingerprints p ≡ₚ rp_input_fingerprints q /\
  rp_package_version p = rp_package_version q /\ rp_git_commit p = rp_git_commit q /\
  rp_execution_manifest_json p = rp_execution_manifest_json q.

Lemma sorted_asdict (c : RunConfiguration F) : sort_keys (configuration_asdict c) =
  VMap [item "log_orders" (VBool (rc_log_orders c)); item "log_trades" (VBool (rc_log_trades c));
        item "pnl_calc_time" (VInt (rc_pnl_calc_time c)); item "run_final_calc" (VBool (rc_run_final_calc c));
        item "starting_equity" (equity_value (rc_starting_equity c)); item "trade_lag" (VInt (rc_trade_lag c))].
Proof. destruct c as [[z|x] ? ? ? ? ?]; reflexivity. Qed.

Lemma asdict_inj (c c' : RunConfiguration F) : sort_keys (configuration_asdict c) = sort_keys (configuration_asdict c') -> c = c'.
Proof.
  rewrite !sorted_asdict. destruct c as [e ? ? ? ? ?], c' as [e' ? ? ? ? ?]. simpl. intros Hc.
  injection Hc as ? ? ? ? He ?. subst. f_equal. by destruct e, e'; simplify_eq/=.
Qed.

Lemma optional_text_inj s s' : optional_text (F:=F) s = optional_text s' -> s = s'.
Proof. destruct s, s'; simpl; congruence. Qed.

(** The manifest of a provenance, and its text *)
Lemma made_manifest p : made p ->
  match rp_execution_manifest_json p with
  | None => manifest_items p = Ok []
  | Some text => exists m, json_loads text = Ok (sort_keys m) /\ json_dumps m = text /\ json_plain m = true /\
      manifest_items p = Ok [item "execution_manifest" (sort_keys m)]
  end.
Proof.
  intros [Hp _]. unfold RunProvenance_init, manifest_items in *. destruct (rp_execution_manifest_json p) as [text|] eqn:Ht; [|done].
  destruct (json_loads text) as [m|] eqn:Hm; [|done]. cbn [mbind result_bind] in Hp. destruct (supported_manifest m); [|done].
  cbn [guard_ok mbind result_bind] in Hp. unfold canonical_json in Hp. destruct (all_finite m); [|done].
  cbn [guard_ok mbind result_bind fmap result_fmap] in Hp. injection Hp as Hp. rewrite <- Hp in Ht. simpl in Ht. injection Ht as Ht.
  assert (json_plain m = true) as Hpl by by eapply json_loads_plain. pose proof (json_loads_dumps m Hpl) as Hl. rewrite Ht, Hm in Hl.
  injection Hl as Hl. exists m. rewrite <- Hl. by split_and!.
Qed.

Definition identity_items p (manifest : list (option string * value F)) : list (option string * value F) :=
  [item "configuration" (configuration_asdict (rp_configuration p)); item "inputs" (sorted_fingerprints (rp_input_fingerprints p));
   item "package_version" (VStr (rp_package_version p)); item "git_commit" (optional_text (rp_git_commit p))] ++ manifest.

(** The identity with the keys of its mappings sorted *)
Definition sorted_identity p : value F :=
  VMap ([item "configuration" (sort_keys (configuration_asdict (rp_configuration p)))] ++
    match rp_execution_manifest_json p with
    | Some text => [item "execution_manifest" (match json_loads text with Ok m => m | Err _ => VNone end)] | None => [] end ++
    [item "git_commit" (optional_text (rp_git_commit p)); item "inputs" (VMap (sorted_inputs (rp_input_fingerprints p)));
     item "package_version" (VStr (rp_package_version p))]).

Lemma plain_fingerprints p : made p -> json_plain (sorted_fingerprints (F:=F) (rp_input_fingerprints p)) = true.
Proof.
  intros [_ Hnd]. unfold sorted_fingerprints. apply plain_map. split; [eapply good_keys_perm; [symmetry; apply sorted_items_perm|by apply inputs_good]|].
  rewrite sorted_items_perm. apply Forall_fmap, Forall_true. done.
Qed.

Lemma run_identity_sorted p : made p -> exists v, run_identity p = Ok v /\ json_plain v = true /\ sort_keys v = sorted_identity p.
Proof.
  intros Hp. pose proof (plain_fingerprints p Hp) as Hin. pose proof (sort_inputs (F:=F) _ (proj2 Hp)) as Hsort.
  assert (json_plain (configuration_asdict (rp_configuration p)) = true) as Hc by (by destruct (rp_configuration p) as [[] ? ? ? ? ?]; vm_compute).
  assert (json_plain (optional_text (F:=F) (rp_git_commit p)) = true /\ sort_keys (optional_text (F:=F) (rp_git_commit p)) = optional_text (rp_git_commit p))
    as [Hg Hg'] by by destruct (rp_git_commit p).
  pose proof (made_manifest p Hp) as Hm. unfold run_identity, sorted_identity.
  destruct (rp_execution_manifest_json p) as [text|].
  - destruct Hm as (m & Hload & _ & Hpm & ->). apply sort_keys_plain in Hpm as [Hpm Hid]. rewrite Hload. eexists. split; [reflexivity|]. split.
    + cbn [json_plain app forallb item fst snd fmap list_fmap]. rewrite Hc, Hin, Hg, Hpm. by vm_compute.
    + unfold sorted_fingerprints in *. fold (sorted_inputs (F:=F) (rp_input_fingerprints p)) in *.
      cbn [sort_keys app fmap list_fmap item fst snd]. cbn [sort_keys] in Hsort. rewrite Hg', Hsort, Hid.
      generalize (sort_keys (configuration_asdict (rp_configuration p))) (sort_keys m) (optional_text (F:=F) (rp_git_commit p))
        (VMap (sorted_inputs (F:=F) (rp_input_fingerprints p))) (VStr (F:=F) (rp_package_version p)). reflexivity.
  - rewrite Hm. eexists. split; [reflexivity|]. split.
    + cbn [json_plain app forallb item fst snd fmap list_fmap]. rewrite Hc, Hin, Hg. by vm_compute.
    + unfold sorted_fingerprints in *. fold (sorted_inputs (F:=F) (rp_input_fingerprints p)) in *.
      cbn [sort_keys app fmap list_fmap item fst snd]. cbn [sort_keys] in Hsort. rewrite Hg', Hsort.
      generalize (sort_keys (configuration_asdict (rp_configuration p))) (optional_text (F:=F) (rp_git_commit p))
        (VMap (sorted_inputs (F:=F) (rp_input_fingerprints p))) (VStr (F:=F) (rp_package_version p)). reflexivity.
Qed.

Lemma sorted_identity_inj p q : made p -> made q -> sorted_identity p = sorted_identity q <-> same_run p q.
Proof.
  intros Hp Hq. pose proof (made_manifest p Hp) as Hm. pose proof (made_manifest q Hq) as Hm'.
  unfold sorted_identity, same_run. rewrite <- (sorted_inputs_perm (F:=F)) by apply Hp. split.
  - pose proof (asdict_inj (rp_configuration p) (rp_configuration q)) as Hinj. revert Hinj.
    generalize (sort_keys (configuration_asdict (rp_configuration p))) (sort_keys (configuration_asdict (rp_configuration q))).
    intros c c' Hinj. destruct (rp_execution_manifest_json p) as [text|], (rp_execution_manifest_json q) as [text'|]; cbn [app]; intros Heq; try discriminate Heq.
    + destruct Hm as (m & Hl & Ht & Hpl & _), Hm' as (m' & Hl' & Ht' & Hpl' & _). rewrite Hl, Hl' in Heq.
      injection Heq as Hc Hmm Hg Hi Hv. split_and!; try done; [by apply Hinj|by apply optional_text_inj|].
      f_equal. rewrite <- Ht, <- Ht', (json_dumps_sorted m), (json_dumps_sorted m') by done. by f_equal.
    + injection Heq as Hc Hg Hi Hv. split_and!; try done; [by apply Hinj|by apply optional_text_inj].
  - intros (-> & -> & -> & -> & ->). done.
Qed.

(** C40: What the fingerprint of a run identifies.  [run_fingerprint] is the digest
    of a canonical text, and two provenances have the same text exactly when
    configuration, package version, commit and execution manifest are the same
    and the input fingerprints are, in whatever order they were added; the time
    of capture is no part of it. *)
Theorem run_payload_exact p q t u : made p -> made q -> run_payload p = Ok t -> run_payload q = Ok u ->
  run_fingerprint p = Ok (sha256_hex t) /\ (t = u <-> same_run p q).
Proof.
  intros Hp Hq Ht Hu. split.
  - unfold run_payload, run_fingerprint in *. destruct (run_identity p); [|done]. cbn [mbind result_bind] in *. unfold digest_of. by rewrite Ht.
  - destruct (run_identity_sorted p Hp) as (v & Hv & Hpl & Hs), (run_identity_sorted q Hq) as (v' & Hv' & Hpl' & Hs').
    unfold run_payload in *. rewrite Hv in Ht. rewrite Hv' in Hu. cbn [mbind result_bind] in *. unfold canonical_json in *.
    inv_ok Ht. inv_ok Hu. rewrite <- sorted_identity_inj, <- Hs, <- Hs' by done. split.
    + intros Heq. apply Ok_inj. rewrite <- !json_loads_dumps by done. by f_equal.
    + intros Heq. rewrite (json_dumps_sorted v), (json_dumps_sorted v') by done. by f_equal.
Qed.
End provenance.

Module provenance_witness.
(** The text of a value is the value with its keys sorted. *)
#[local] Instance plain_text : JsonText XQ (value XQ) :=
  {| json_dumps := sort_keys; json_loads v := if json_plain v then Ok v else Err (ValueError "duplicate keys") |}.
#[local] Instance plain_text_laws : JsonTextLaws XQ (value XQ).
Proof.
  split; intros v Hv; [symmetry; by apply sort_keys_plain|]. apply sort_keys_plain in Hv as [Hv _]. simpl. by rewrite Hv.
Qed.
#[local] Instance plain_text_loads : JsonLoadsPlain XQ (value XQ).
Proof. intros t v. simpl. destruct (json_plain t) eqn:Ht; [|done]. by intros [= <-]. Qed.
#[local] Instance some_sha : Sha256 (value XQ) := fun v => match v with VMap l => "digest" | _ => "" end.

Definition demo_configuration : RunConfiguration XQ := mkRunConfiguration (EquityInt 5) 961 0 true true true.
Definition demo_manifest : value XQ := VMap [item "version" (VInt 1)].
Definition first_run : RunProvenance XQ (value XQ) :=
  mkProvenance demo_configuration [("bars", "1"); ("rates", "2")]%string "0.1" (Some "abc"%string) "2024-01-01" (Some demo_manifest).
Definition second_run : RunProvenance XQ (value XQ) :=
  mkProvenance demo_configuration [("rates", "2"); ("bars", "1")]%string "0.1" (Some "abc"%string) "2024-01-02" (Some demo_manifest).

Lemma first_made : made first_run.
Proof. split; [by vm_compute|by apply (bool_decide_unpack _)]. Qed.
Lemma second_made : made second_run.
Proof. split; [by vm_compute|by apply (bool_decide_unpack _)]. Qed.

Lemma run_payload_exact_witness : first_run <> second_run /\ same_run first_run second_run.
Proof.
  split; [discriminate|].
  apply (run_payload_exact first_run second_run _ _ first_made second_made eq_refl eq_refl). by vm_compute.
Defined.
End provenance_witness.
