(* ===== verification/Calculation.v ===== *)
(** * Calculation parameters and currency translation (calculation.py, currency.py)

    The time at which a calculation is made, the market data it may use, and the
    translation of exposures at a snapshot of exchange rates.  Times are int64
    nanoseconds, NaT being the least; what [astype] makes of another precision
    is an argument.  Strings are ASCII.  A frame of exposures is its column names
    and its rows, the currency a text column and the monetary ones of floats;
    scenarios and the other columns are of any type. *)

From Stdlib Require Import Ascii.
From S2P Require Import Prelude Numeric FactorIdentity Calendar.

#[local] Open Scope Z_scope.

(** ** Texts *)

Definition upper_char (c : ascii) : ascii := if ascii_in "a" "z" c then ascii_of_N (N_of_ascii c - 32) else c.
Fixpoint upper (s : string) : string := match s with EmptyString => EmptyString | String c s => String (upper_char c) (upper s) end.

(** [len(code) == 3 and code.isalpha()] *)
Definition is_code (code : string) : bool := (String.length code =? 3)%nat && all_chars ascii_letter code.

(** ** The context of a calculation *)

Inductive MissingDataPolicy := POLICY_ERROR | POLICY_WARN | POLICY_SKIP.
Inductive CalculationMode := SINGLE | HISTORICAL.
#[export] Instance mode_eq_dec : EqDecision CalculationMode.
Proof. solve_decision. Defined.

Definition policy_value (p : MissingDataPolicy) : string :=
  match p with POLICY_ERROR => "error" | POLICY_WARN => "warn" | POLICY_SKIP => "skip" end.
Definition mode_value (m : CalculationMode) : string := match m with SINGLE => "single" | HISTORICAL => "historical" end.

Section context.
Context {Scenario Time : Type} (to_nanoseconds : Time -> Z).

Record CalculationContext := mkContext {
  cc_valuation_time : Z;
  cc_market_data_as_of : Z;
  cc_start_time : option Z;
  cc_end_time : option Z;
  cc_calendar : option string;
  cc_base_currency : string;
  cc_scenarios : list Scenario;
  cc_missing_data_policy : MissingDataPolicy;
  cc_mode : CalculationMode;
  cc_allow_lookahead : bool;
  cc_provenance_reference : option string;
}.

(** [a > b] on timestamps: never, if one is NaT *)
Definition later (a b : Z) : bool := negb (isnat a) && negb (isnat b) && (b <? a).

(** [CalculationContext.__post_init__] *)
Definition CalculationContext_init (valuation_time : Time) (market_data_as_of start_time end_time : option Time)
  (calendar : option string) (base_currency : string) (scenarios : list Scenario) (missing_data_policy : MissingDataPolicy)
  (mode : CalculationMode) (allow_lookahead : bool) (provenance_reference : option string) : result CalculationContext :=
  let valuation_time := to_nanoseconds valuation_time in
  whenever isnat valuation_time raise ValueError "valuation_time cannot be NaT" ;;
  let market_data_as_of := match market_data_as_of with None => valuation_time | Some t => to_nanoseconds t end in
  whenever isnat market_data_as_of raise ValueError "market_data_as_of cannot be NaT" ;;
  whenever negb allow_lookahead && later market_data_as_of valuation_time
    raise ValueError "market_data_as_of cannot be after valuation_time unless look-ahead is enabled" ;;
  let start := to_nanoseconds <$> start_time in
  let end_ := to_nanoseconds <$> end_time in
  let nat t := match t with Some t => isnat t | None => false end in
  whenever nat start || nat end_ raise ValueError "calculation range cannot contain NaT" ;;
  whenever match start, end_ with Some s, Some e => later s e | _, _ => false end
    raise ValueError "start_time cannot be after end_time" ;;
  whenever bool_decide (mode = HISTORICAL) && (bool_decide (start = None) || bool_decide (end_ = None))
    raise ValueError "historical calculations require start_time and end_time" ;;
  let currency := upper base_currency in
  unless is_code currency raise ValueError "base_currency must be a three-letter alphabetic code" ;;
  Ok (mkContext valuation_time market_data_as_of start end_ calendar currency scenarios missing_data_policy mode allow_lookahead
        provenance_reference).

(** [CalculationContext.coerce] *)
Definition coerce (value : CalculationContext + Time) : result CalculationContext :=
  match value with
  | inl c => Ok c
  | inr t => CalculationContext_init t None None None None "USD" [] POLICY_ERROR SINGLE false None
  end.

(** [CalculationContext.snapshot], with the texts of timestamps and the names of scenarios *)
Definition context_snapshot {F} (time_text : Z -> string) (name : Scenario -> string) (c : CalculationContext)
  : list (option string * value F) :=
  let time t := match t with Some t => VStr (time_text t) | None => VNone end in
  let text s := match s with Some s => VStr s | None => VNone end in
  [(Some "valuation_time", VStr (time_text (cc_valuation_time c)));
   (Some "market_data_as_of", VStr (time_text (cc_market_data_as_of c)));
   (Some "start_time", time (cc_start_time c)); (Some "end_time", time (cc_end_time c));
   (Some "calendar", text (cc_calendar c)); (Some "base_currency", VStr (cc_base_currency c));
   (Some "scenarios", VSeq (VStr ∘ name <$> cc_scenarios c));
   (Some "missing_data_policy", VStr (policy_value (cc_missing_data_policy c))); (Some "mode", VStr (mode_value (cc_mode c)));
   (Some "allow_lookahead", VBool (cc_allow_lookahead c)); (Some "provenance_reference", text (cc_provenance_reference c))]%string.
End context.
Arguments CalculationContext Scenario : clear implicits.

(** ** Exchange rates *)

Section currency.
Context {F : Type} `{PyFloat F} {Scenario Time A : Type} (to_nanoseconds : Time -> Z).

(** [_currency_code] *)
Definition currency_code (value : string) : result string :=
  let code := upper value in
  unless is_code code raise ValueError "must be a three-letter alphabetic code" ;; Ok code.

Record FxRateSnapshot := mkSnapshot {
  fx_base_currency : string;
  fx_as_of : Z;
  fx_rates : list (string * F);
  fx_source : option string;
}.

(** [float(rate)], the text of a string being read by [float_of_text] *)
Definition float_of (float_of_text : string -> result F) (v : pyval F) : result F :=
  match v with
  | PBool b | PNpBool b => Ok (if b then f_of_Z 1 else f_of_Z 0)
  | PStr s => float_of_text s
  | v => py_float v
  end.

(** One rate of the loop of [__post_init__] *)
Definition add_rate (float_of_text : string -> result F) (normalized : list (string * F)) (x : string * pyval F) : result (list (string * F)) :=
  code ← currency_code x.1;
  whenever dict_mem normalized code raise ValueError "duplicate FX currency after normalization" ;;
  value ← float_of float_of_text x.2;
  whenever negb (f_isfinite value) || f_leb value f_zero raise ValueError "FX rate must be finite and positive" ;;
  Ok (dict_set normalized code value).

Definition f_one : F := f_of_Z 1.

(** [FxRateSnapshot.__post_init__]; [parse] is [np.datetime64(str(as_of)).astype("datetime64[ns]")] *)
Definition FxRateSnapshot_init (parse : Time -> result Z) (float_of_text : string -> result F) (base_currency : string) (as_of : Time) (rates : list (string * pyval F))
  (source : option string) : result FxRateSnapshot :=
  base_currency ← currency_code base_currency;
  as_of ← parse as_of;
  whenever isnat as_of raise ValueError "FX as_of cannot be NaT" ;;
  normalized ← foldE (add_rate float_of_text) [] rates;
  whenever match dict_get normalized base_currency with Some r => negb (f_isclose r f_one) | None => false end
    raise ValueError "base-currency FX rate must equal one" ;;
  Ok (mkSnapshot base_currency as_of (dict_set normalized base_currency f_one) source).

(** [FxRateSnapshot.rate] *)
Definition fx_rate (s : FxRateSnapshot) (currency : string) : result F :=
  code ← currency_code currency;
  match dict_get (fx_rates s) code with Some r => Ok r | None => Err (ValueError "FX rate is missing") end.

(** ** Translating exposures *)

(** A row: currency, price, net and gross exposure, and the other columns *)
Record exposure := mkExposure {
  xp_currency : option string;
  xp_money : list (option F);   (* price, net_exposure, gross_exposure *)
  xp_rest : A;
}.

(** A translated row: its money in the base currency, and the columns added *)
Record translated := mkTranslated {
  tr_currency : string;
  tr_money : list (option F);
  tr_local_currency : option string;
  tr_local_money : list (option F);
  tr_fx_rate : F;
  tr_fx_as_of : Z;
  tr_fx_source : option string;
  tr_rest : A;
}.

Definition required_columns : list string := ["currency"; "price"; "net_exposure"; "gross_exposure"]%string.

Definition translate_row (s : FxRateSnapshot) (x : exposure) : result translated :=
  match (match xp_currency x with Some c => dict_get (fx_rates s) (upper c) | None => None end) with
  | None => Err (GenericException "incomplete mapping specified for replace_strict")
  | Some r => Ok (mkTranslated (fx_base_currency s) ((fun m : option F => (fun v => f_mul v r) <$> m) <$> xp_money x) (xp_currency x) (xp_money x) r
      (fx_as_of s) (fx_source s) (xp_rest x))
  end.

(** [translate_exposures] *)
Definition translate_exposures (columns : list string) (exposures : list exposure) (snapshot : FxRateSnapshot)
  (context : CalculationContext Scenario + Time) : result (list translated) :=
  calculation ← coerce to_nanoseconds context;
  whenever negb (cc_allow_lookahead calculation) && later (fx_as_of snapshot) (cc_market_data_as_of calculation)
    raise ValueError "FX snapshot uses market data after the calculation cutoff" ;;
  unless String.eqb (fx_base_currency snapshot) (cc_base_currency calculation)
    raise ValueError "FX snapshot and calculation context base currencies must match" ;;
  unless forallb (fun name => bool_decide (name ∈ columns)) required_columns raise ValueError "exposure columns are missing" ;;
  whenever existsb (fun x => bool_decide (xp_currency x = None)) exposures raise ValueError "exposure currency cannot be null" ;;
  let currencies := omap xp_currency exposures in
  unless forallb (fun c => dict_mem (fx_rates snapshot) (upper c)) currencies raise ValueError "FX rates are missing" ;;
  mapM (translate_row snapshot) exposures.
End currency.
Arguments FxRateSnapshot F : clear implicits.
Arguments exposure F A : clear implicits.
Arguments translated F A : clear implicits.
