(* ===== verification/CalculationFacts.v ===== *)
(** * What calculation contexts and currency translation promise

    The constructor of a context makes exactly the valid contexts; a snapshot has
    one positive rate for each code and one for its base; a translation uses no
    market data from after the cutoff, and a row is translated at its own rate. *)

From Stdlib Require Import Ascii.
From S2P Require Import Prelude Numeric FactorIdentity Calendar Calculation.

#[local] Open Scope Z_scope.

(** ** Codes *)

Lemma upper_char_idem c : upper_char (upper_char c) = upper_char c.
Proof. destruct c as [[] [] [] [] [] [] [] []]; reflexivity. Qed.

Lemma upper_idem s : upper (upper s) = upper s.
Proof. induction s as [|c s IH]; [done|]. simpl. by rewrite upper_char_idem, IH. Qed.

(** Three letters, in upper case *)
Definition code_like (s : string) : Prop := is_code s = true /\ upper s = s.

Section context.
Context {Scenario Time : Type} (to_nanoseconds : Time -> Z).
Implicit Types c : CalculationContext Scenario.

(** What a context promises those who calculate with it *)
Record valid_context c : Prop := {
  vx_valuation : isnat (cc_valuation_time c) = false;
  vx_as_of : isnat (cc_market_data_as_of c) = false;
  vx_cutoff : cc_allow_lookahead c = false -> cc_market_data_as_of c <= cc_valuation_time c;
  vx_start : match cc_start_time c with Some t => isnat t = false | None => True end;
  vx_end : match cc_end_time c with Some t => isnat t = false | None => True end;
  vx_range : forall s e, cc_start_time c = Some s -> cc_end_time c = Some e -> s <= e;
  vx_historical : cc_mode c = HISTORICAL -> is_Some (cc_start_time c) /\ is_Some (cc_end_time c);
  vx_currency : code_like (cc_base_currency c);
}.

Lemma later_spec a b : isnat a = false -> isnat b = false -> later a b = (b <? a).
Proof. unfold later. by intros -> ->. Qed.

Lemma init_context_valid t m s e cal base sc p mode ahead prov c :
  CalculationContext_init to_nanoseconds t m s e cal base sc p mode ahead prov = Ok c -> valid_context c.
Proof.
  unfold CalculationContext_init. intros Hc. inv_ok Hc.
  rename Hguard into Hv, Hguard0 into Ha, Hguard1 into Hcut, Hguard2 into Hn, Hguard3 into Hr, Hguard4 into Hh, Hguard5 into Hcode.
  set (as_of := match m with None => to_nanoseconds t | Some t => to_nanoseconds t end) in *.
  apply negb_true_iff in Hv, Ha, Hcut, Hn, Hr, Hh. apply orb_false_iff in Hn as [Hns Hne]. split; simpl; try done.
  - intros ->. simpl in Hcut. rewrite later_spec in Hcut by done. lia.
  - by destruct s.
  - by destruct e.
  - intros s' e' Hs He. destruct s, e; simplify_eq/=. rewrite later_spec in Hr by done. lia.
  - intros ->. simpl in Hh. destruct s, e; simpl in Hh; try done; by eexists.
  - split; [done|]. apply upper_idem.
Qed.

(** The record of the arguments: times in nanoseconds, market data as of the valuation
    when no time is given for it, the currency code in upper case *)
Record made_from (t : Time) (m s e : option Time) cal base (sc : list Scenario) p mode ahead prov c : Prop := MadeFrom {
  mf_valuation : cc_valuation_time c = to_nanoseconds t;
  mf_as_of : cc_market_data_as_of c = to_nanoseconds (default t m);
  mf_start : cc_start_time c = to_nanoseconds <$> s;
  mf_end : cc_end_time c = to_nanoseconds <$> e;
  mf_currency : cc_base_currency c = upper base;
  mf_rest : cc_calendar c = cal /\ cc_scenarios c = sc /\ cc_missing_data_policy c = p /\ cc_mode c = mode /\
    cc_allow_lookahead c = ahead /\ cc_provenance_reference c = prov;
}.

Lemma init_context_made t m s e cal base sc p mode ahead prov c :
  CalculationContext_init to_nanoseconds t m s e cal base sc p mode ahead prov = Ok c ->
  made_from t m s e cal base sc p mode ahead prov c.
Proof. unfold CalculationContext_init. intros Hc. inv_ok Hc. split; simpl; try done. by destruct m. Qed.

Lemma made_valid_init t m s e cal base sc p mode ahead prov c :
  made_from t m s e cal base sc p mode ahead prov c -> valid_context c ->
  CalculationContext_init to_nanoseconds t m s e cal base sc p mode ahead prov = Ok c.
Proof.
  intros [Mv Ma Ms Me Mc (M1 & M2 & M3 & M4 & M5 & M6)] [Hv Ha Hcut Hs He Hr Hh [Hcode _]]. unfold CalculationContext_init.
  assert (match m with None => to_nanoseconds t | Some t => to_nanoseconds t end = cc_market_data_as_of c) as -> by (rewrite Ma; by destruct m).
  rewrite <- Mv, <- Ms, <- Me, <- Mc, Hv, Ha, Hcode. cbn [negb guard_ok mbind result_bind].
  assert (negb ahead && later (cc_market_data_as_of c) (cc_valuation_time c) = false) as ->.
  { rewrite <- M5. destruct (cc_allow_lookahead c); [done|]. rewrite later_spec by done. specialize (Hcut eq_refl). simpl. lia. }
  clear Mv Ma Ms Me Mc. destruct c as [v a s' e' cal' base' sc' p' mode' ahead' prov']. simpl in *. subst. cbn [negb guard_ok mbind result_bind].
  assert (match s' with Some t => isnat t | None => false end || match e' with Some t => isnat t | None => false end = false) as ->
    by (destruct s', e'; simpl; rewrite ?Hs, ?He; done).
  assert (match s', e' with Some s, Some e => later s e | _, _ => false end = false) as ->.
  { destruct s' as [s0|], e' as [e0|]; try done. rewrite later_spec by done. specialize (Hr s0 e0 eq_refl eq_refl). lia. }
  destruct (bool_decide_reflect (mode = HISTORICAL)) as [Hm|]; [|done]. destruct (Hh Hm) as [[? ->] [? ->]]. done.
Qed.

(** C37: The constructor of a context, whatever its arguments: it returns the
    record of those arguments - market data as of the valuation when no time is given,
    the currency in upper case - exactly when that record is valid, and otherwise raises
    [ValueError].  Valid means: no time is NaT, the market data is not after the
    valuation unless look-ahead is enabled, the range is ordered, historical mode has
    both ends, and the currency is a code of three letters. *)
Theorem context_type_exact t m s e cal base sc p mode ahead prov :
  let init := CalculationContext_init to_nanoseconds t m s e cal base sc p mode ahead prov in
  (forall c, init = Ok c <-> made_from t m s e cal base sc p mode ahead prov c /\ valid_context c) /\
  (forall error, init = Err error -> exists message, error = ValueError message).
Proof.
  intros init. split.
  - intros c. split; [|intros [Hm Hc]; by apply made_valid_init]. intros Hc. split; [by apply init_context_made|by eapply init_context_valid].
  - intros error. unfold init, CalculationContext_init. cbv zeta.
    repeat (match goal with |- mbind _ (guard_ok ?b _) = _ -> _ => destruct b end;
      cbn [guard_ok mbind result_bind]; [|by intros [= <-]; eexists]). done.
Qed.
End context.

(** ** Translation *)

Lemma forallb_failing {A} (p : A -> bool) l : forallb p l = false -> Exists (fun x => p x = false) l.
Proof. induction l as [|x l IH]; [done|]. simpl. destruct (p x) eqn:Hx; [right; by apply IH|by left]. Qed.

Section currency.
Context {F : Type} `{PyFloat F} {Scenario Time A : Type} (to_nanoseconds : Time -> Z).
Implicit Types (s : FxRateSnapshot F) (c : CalculationContext Scenario).

(** One rate for each code, finite and positive; the base has rate one. *)
Record valid_snapshot s : Prop := {
  vs_base : code_like (fx_base_currency s);
  vs_as_of : isnat (fx_as_of s) = false;
  vs_codes : Forall code_like (fx_rates s).*1 /\ NoDup (fx_rates s).*1;
  vs_rates : forall code r, dict_get (fx_rates s) code = Some r ->
    if decide (code = fx_base_currency s) then r = f_one else f_isfinite r = true /\ f_leb r f_zero = false;
  vs_unit : dict_get (fx_rates s) (fx_base_currency s) = Some f_one;
}.

Lemma currency_code_like value code : currency_code value = Ok code -> code_like code /\ code = upper value.
Proof. unfold currency_code. intros Hc. inv_ok Hc. split; [|done]. split; [done|apply upper_idem]. Qed.

(** The rates collected so far *)
Definition rates_ok (d : list (string * F)) : Prop :=
  Forall code_like d.*1 /\ NoDup d.*1 /\ forall code r, dict_get d code = Some r -> f_isfinite r = true /\ f_leb r f_zero = false.

Lemma set_codes (d : list (string * F)) code r : Forall code_like d.*1 -> NoDup d.*1 -> code_like code ->
  Forall code_like (dict_set d code r).*1 /\ NoDup (dict_set d code r).*1.
Proof.
  intros Hf Hn Hc. destruct (dict_get d code) as [r'|] eqn:Hget.
  - assert ((dict_set d code r).*1 = d.*1) as ->; [|done]. clear -Hget. induction d as [|[k v] d IH]; [done|].
    simpl in *. case_decide; [by subst|]. rewrite !fmap_cons. f_equal. by apply IH.
  - rewrite dict_set_fresh, fmap_app by done. split; [apply Forall_app; split; [done|by apply Forall_singleton]|].
    apply NoDup_app. split_and!; [done| |repeat constructor; set_solver]. intros k Hk ->%list_elem_of_singleton.
    by apply dict_get_None in Hget.
Qed.

Lemma add_rate_ok read d x d' : add_rate read d x = Ok d' -> rates_ok d -> rates_ok d'.
Proof.
  unfold add_rate. intros Hd (Hf & Hn & Hr). inv_ok Hd. apply currency_code_like in Hbind as [Hcode _].
  destruct (set_codes d a a0 Hf Hn Hcode). split_and!; try done. intros code r. rewrite dict_get_set. case_decide; [|by apply Hr].
  intros [= <-]. apply negb_true_iff, orb_false_iff in Hguard0 as [?%negb_false_iff ?]. done.
Qed.

Lemma snapshot_valid parse read base as_of rates source s :
  FxRateSnapshot_init (Time:=Time) parse read base as_of rates source = Ok s -> valid_snapshot s.
Proof.
  unfold FxRateSnapshot_init. intros Hs. apply bind_Ok_inv in Hs as (code & Hcode & Hs). apply bind_Ok_inv in Hs as (t & _ & Hs).
  apply guard_bind_Ok in Hs as [Hnat%negb_true_iff Hs]. apply bind_Ok_inv in Hs as (d & Hd & Hs). inv_ok Hs.
  apply currency_code_like in Hcode as [Hcode _].
  assert (rates_ok d) as (Hf & Hn & Hr).
  { revert Hd. apply (foldE_inv rates_ok); [|by split_and!; [constructor|constructor|done]]. intros acc x acc' _ Hx Hacc. by eapply add_rate_ok. }
  destruct (set_codes d code f_one Hf Hn Hcode) as [Hf' Hn']. split; simpl; try done; [|by rewrite dict_get_set_eq].
  intros k r. rewrite dict_get_set. case_decide; [congruence|apply Hr].
Qed.

(** How a row is translated *)
Definition translated_as s (x : exposure F A) (y : translated F A) : Prop := exists currency r,
  xp_currency x = Some currency /\ fx_rate s currency = Ok r /\
  tr_currency y = fx_base_currency s /\ tr_fx_rate y = r /\
  tr_money y = (fun m : option F => (fun v => f_mul v r) <$> m) <$> xp_money x /\
  tr_local_currency y = Some currency /\ tr_local_money y = xp_money x /\ tr_fx_as_of y = fx_as_of s /\
  tr_fx_source y = fx_source s /\ tr_rest y = xp_rest x.

Lemma rate_of_code s code : valid_snapshot s -> is_Some (dict_get (fx_rates s) (upper code)) ->
  exists r, dict_get (fx_rates s) (upper code) = Some r /\ fx_rate s code = Ok r.
Proof.
  intros [_ _ [Hf _] _ _] [r Hr]. exists r. split; [done|]. pose proof (dict_get_Some_keys _ _ _ Hr) as Hin.
  rewrite Forall_forall in Hf. destruct (Hf _ Hin) as [Hcode _]. unfold fx_rate, currency_code. rewrite Hcode.
  cbn [guard_ok mbind result_bind]. by rewrite Hr.
Qed.

Lemma translate_rows s (xs : list (exposure F A)) : valid_snapshot s ->
  existsb (fun x => bool_decide (xp_currency x = None)) xs = false ->
  forallb (fun code => dict_mem (fx_rates s) (upper code)) (omap xp_currency xs) = true ->
  exists ys, mapM (translate_row s) xs = Ok ys /\ Forall2 (translated_as s) xs ys.
Proof.
  intros Hs. induction xs as [|x xs IH]; [by exists []|]. cbn [existsb omap list_omap mapM].
  intros [Hx Hnull]%orb_false_iff. apply bool_decide_eq_false in Hx. destruct (xp_currency x) as [code|] eqn:Hcode; [|done].
  cbn [forallb]. intros [Hr Hrates]%andb_true_iff. apply bool_decide_eq_true in Hr.
  destruct (rate_of_code s code Hs Hr) as (r & Hget & Hrate). destruct (IH Hnull Hrates) as (ys & -> & Hys).
  unfold translate_row at 1. rewrite Hcode, Hget. eexists. split; [reflexivity|]. constructor; [|done].
  exists code, r. by rewrite Hcode.
Qed.

(** A translation never looks ahead and never loses a row.  For a valid
    snapshot and context, a translation that succeeds used rates of a time not
    after the cutoff of market data, itself not after the valuation, unless the
    context enables look-ahead; the base currencies agree; and each exposure
    becomes one row, in order, with its money multiplied by the rate of its own
    currency and its local values kept.  It fails only with a ValueError, and
    only for rates after the cutoff, another base currency, a missing column, a
    null currency or a currency without a rate. *)
Theorem translation_never_looks_ahead columns (xs : list (exposure F A)) s c : valid_context c -> valid_snapshot s ->
  match translate_exposures to_nanoseconds columns xs s (inl c) with
  | Ok ys =>
      (cc_allow_lookahead c = false -> fx_as_of s <= cc_market_data_as_of c <= cc_valuation_time c) /\
      fx_base_currency s = cc_base_currency c /\ Forall2 (translated_as s) xs ys
  | Err e => (exists msg, e = ValueError msg) /\
      ((cc_allow_lookahead c = false /\ cc_market_data_as_of c < fx_as_of s) \/ fx_base_currency s <> cc_base_currency c \/
       Exists (fun name => name ∉ columns) required_columns \/ Exists (fun x => xp_currency x = None) xs \/
       Exists (fun x => exists code, xp_currency x = Some code /\ dict_get (fx_rates s) (upper code) = None) xs)
  end.
Proof.
  intros Hc Hs. unfold translate_exposures. cbn [coerce mbind result_bind].
  rewrite (later_spec _ _ (vs_as_of s Hs) (vx_as_of c Hc)).
  destruct (negb (cc_allow_lookahead c) && _) eqn:Hcut; cbn [negb guard_ok mbind result_bind].
  { split; [by eexists|]. left. apply andb_true_iff in Hcut as [?%negb_true_iff ?]. split; [done|lia]. }
  destruct (String.eqb_spec (fx_base_currency s) (cc_base_currency c)) as [Hbase|Hbase]; cbn [guard_ok mbind result_bind]; [|split; [by eexists|tauto]].
  destruct (forallb _ required_columns) eqn:Hcols; cbn [guard_ok mbind result_bind].
  2: { split; [by eexists|]. do 2 right. left. apply forallb_failing in Hcols. eapply Exists_impl; [exact Hcols|].
       by intros x ?%bool_decide_eq_false. }
  destruct (existsb _ xs) eqn:Hnull; cbn [negb guard_ok mbind result_bind].
  { split; [by eexists|]. do 3 right. left. apply existsb_exists in Hnull as (x & Hx & Hn%bool_decide_eq_true).
    apply Exists_exists. exists x. split; [by apply list_elem_of_In|done]. }
  destruct (forallb _ (omap xp_currency xs)) eqn:Hrates; cbn [guard_ok mbind result_bind].
  - destruct (translate_rows s xs Hs Hnull Hrates) as (ys & -> & Hys). split_and!; try done. intros Hno.
    rewrite Hno in Hcut. simpl in Hcut. pose proof (vx_cutoff c Hc Hno). lia.
  - split; [by eexists|]. do 4 right. apply forallb_failing, Exists_exists in Hrates as (code & Hin & Hno).
    apply list_elem_of_omap in Hin as (x & Hx & Hcode). apply Exists_exists. exists x. split; [done|]. exists code. split; [done|].
    unfold dict_mem in Hno. by apply bool_decide_eq_false, eq_None_not_Some in Hno.
Qed.
End currency.

(** ** A portfolio in two currencies *)

Definition demo_context : CalculationContext unit :=
  mkContext 100 90 (Some 10) None None "USD" [] POLICY_ERROR SINGLE false None.

Lemma demo_context_valid : valid_context demo_context.
Proof. by split; try done; intros. Qed.

Lemma context_type_exact_witness :
  valid_context demo_context /\
  CalculationContext_init id 100 (Some 90) (Some 10) None None "usd" [] POLICY_ERROR SINGLE false None = Ok demo_context.
Proof.
  split; [exact demo_context_valid|].
  apply (proj1 (context_type_exact id 100 (Some 90) (Some 10) None None "usd" [] POLICY_ERROR SINGLE false None)).
  split; [by split|exact demo_context_valid].
Defined.

Definition demo_fx : FxRateSnapshot XQ := mkSnapshot "USD" 80 [("EUR", f_of_Z 2); ("USD", f_one)]%string None.

Example demo_fx_made : FxRateSnapshot_init (F:=XQ) Ok (fun _ => Err (ValueError "text")) "usd" 80 [("eur"%string, PInt 2)] None = Ok demo_fx.
Proof. by vm_compute. Qed.

Lemma demo_fx_valid : valid_snapshot demo_fx.
Proof. exact (snapshot_valid _ _ _ _ _ _ _ demo_fx_made). Qed.

Definition demo_exposures : list (exposure XQ unit) :=
  [mkExposure (Some "eur"%string) [Some (f_of_Z 5); None; Some (f_of_Z 7)] tt; mkExposure (Some "USD"%string) [None; None; None] tt].

Lemma translation_never_looks_ahead_witness :
  (cc_allow_lookahead demo_context = false -> 80 <= 90 <= 100) /\
  exists ys, translate_exposures id required_columns demo_exposures demo_fx (inl demo_context) = Ok ys /\ Forall2 (translated_as demo_fx) demo_exposures ys.
Proof.
  pose proof (translation_never_looks_ahead id required_columns demo_exposures demo_fx demo_context demo_context_valid demo_fx_valid) as Ht.
  vm_compute translate_exposures in Ht. destruct Ht as (Hcut & _ & Hrows). split; [exact Hcut|]. eexists. split; [|exact Hrows].
  by vm_compute.
Defined.
