(* ===== verification/Description.v ===== *)
(** * Bounded descriptions of components (execution_identity.py)

    [describe_component] walks a graph of Python objects, which may be cyclic and
    shared, and writes down what JSON can hold of it; what it leaves out it lists
    as unresolved.  An object is a scalar or a reference into a heap.  [inspect]
    and the digest of a source are arguments, as part of an object. *)

From stdpp Require Import pretty.
From S2P Require Import Prelude Numeric FactorIdentity.

#[local] Open Scope Z_scope.

(** A value as Python's [type] tells it apart *)
Inductive obj (F : Type) :=
  | ONone
  | OBool (b : bool)
  | OInt (z : Z)
  | OFloat (x : F)
  | OStr (s : string)
  | ORef (id : positive).
Arguments ONone {F}.
Arguments OBool {F} b.
Arguments OInt {F} z.
Arguments OFloat {F} x.
Arguments OStr {F} s.
Arguments ORef {F} id.

(** What a reference leads to: a list or tuple, a dict (a key that is not a
    string being [None]), or another object with its module and qualified name,
    the digest of its source where [inspect.getsource] finds one, and, for an
    instance of a dataclass, the fields of the constructor with what [vars] holds
    of them. *)
Inductive node (F : Type) :=
  | NSeq (implementation : string) (l : list (obj F))
  | NDict (l : list (option string * obj F))
  | NObject (implementation : string) (source : option string) (fields : option (list (string * option (obj F)))).
Arguments NSeq {F} implementation l.
Arguments NDict {F} l.
Arguments NObject {F} implementation source fields.

Section describe.
Context {F : Type} `{PyFloat F} (heap : positive -> node F).

(** The variables of [describe_component] *)
Record walk := mkWalk { wk_unresolved : list string; wk_seen : gset positive; wk_budget : Z }.

Definition leave (path : string) : ST walk unit := st_modify (fun w => mkWalk (wk_unresolved w ++ [path]) (wk_seen w) (wk_budget w)).
Definition spend : ST walk Z := fun w =>
  let w := mkWalk (wk_unresolved w) (wk_seen w) (wk_budget w - 1) in (w, Ok (wk_budget w)).
Definition see (id : positive) : ST walk unit := st_modify (fun w => mkWalk (wk_unresolved w) ({[id]} ∪ wk_seen w) (wk_budget w)).
Definition unsee (id : positive) : ST walk unit := st_modify (fun w => mkWalk (wk_unresolved w) (wk_seen w ∖ {[id]}) (wk_budget w)).

Definition unresolved (path reason : string) : ST walk (value F) :=
  _ ← leave path; mret (VMap [item "unresolved" (VStr reason)]).

Fixpoint st_mapM {S A B} (f : A -> ST S B) (l : list A) : ST S (list B) :=
  match l with
  | [] => mret []
  | x :: l => y ← f x; ys ← st_mapM f l; mret (y :: ys)
  end.

Definition child_path (path : string) (index : nat) : string := path +:+ "[" +:+ pretty index +:+ "]".
Definition field_path (path name : string) : string := path +:+ "." +:+ name.

(** The description of an object that is no plain container, past its identity *)
Definition describe_source (path : string) (source : option string) : ST walk (list (option string * value F)) :=
  match source with
  | None => _ ← leave (field_path path "source"); mret []
  | Some digest => mret [item "source_sha256" (VStr digest)]
  end.

Definition describe_object (encode : string -> obj F -> ST walk (value F)) (path implementation : string) (source : option string)
  (fields : option (list (string * option (obj F)))) : ST walk (value F) :=
  source ← describe_source path source;
  parameters ← match fields with
    | Some fields =>
        parameters ← st_mapM (fun x : string * option (obj F) =>
          match x.2 with
          | Some child => v ← encode (field_path path x.1) child; mret [item x.1 v]
          | None => _ ← leave (field_path path x.1); mret []
          end) fields;
        mret [item "parameters" (VMap (mjoin parameters))]
    | None => _ ← leave (field_path path "state"); mret []
    end;
  _ ← leave (field_path path "external_dependencies");
  mret (VMap ([item "implementation" (VStr implementation)] ++ source ++ parameters)).

(** The body of the [try] of [encode], for a reference *)
Definition describe_node (encode : string -> obj F -> ST walk (value F)) (path : string) (n : node F) : ST walk (value F) :=
  match n with
  | NSeq implementation l =>
      if (length l <=? 1000)%nat then
        vs ← st_mapM (fun x : nat * obj F => encode (child_path path x.1) x.2) (imap pair l);
        mret (VSeq vs)
      else describe_object encode path implementation None None
  | NDict l =>
      if (length l <=? 1000)%nat && forallb (fun x => bool_decide (is_Some x.1)) l then
        vs ← st_mapM (fun x : option string * obj F => v ← encode (field_path path (key_text x.1)) x.2; mret (x.1, v)) (sorted_items l);
        mret (VMap vs)
      else describe_object encode path "builtins.dict" None None
  | NObject implementation source fields => describe_object encode path implementation source fields
  end.

(** [encode], [levels] being 9 less the depth: at [depth > 8] none is left. *)
Fixpoint encode (levels : nat) (path : string) (it : obj F) : ST walk (value F) :=
  budget ← spend;
  match levels with
  | O => unresolved path "description limit"
  | S levels =>
      if budget <? 0 then unresolved path "description limit" else
      match it with
      | ONone => mret VNone
      | OBool b => mret (VBool b)
      | OInt z => mret (VInt z)
      | OStr s => mret (VStr s)
      | OFloat x => if f_isfinite x then mret (VFloat x) else describe_object (encode levels) path "builtins.float" None None
      | ORef id =>
          w ← st_get;
          if bool_decide (id ∈ wk_seen w) then unresolved path "cycle" else
          _ ← see id;
          v ← describe_node (encode levels) path (heap id);
          _ ← unsee id;
          mret v
      end
  end.

(** [describe_component]: the description, and the paths left out *)
Definition describe_component (v : obj F) : result (value F * list string) :=
  match encode 9 "component" v (mkWalk [] ∅ 1000) with
  | (w, Ok d) => Ok (d, merge_sort String.le (remove_dups (wk_unresolved w)))
  | (_, Err e) => Err e
  end.
End describe.
