(* ===== verification/DescriptionFacts.v ===== *)
(** * What descriptions of components promise

    Over any heap, cycles included, the walk ends and nothing escapes it; its
    description is complete exactly when the object is a small enough tree of
    plain data, and is then that tree. *)

From stdpp Require Import pretty.
From S2P Require Import Prelude Numeric FactorIdentity Description.

#[local] Open Scope Z_scope.

Section facts.
Context {F : Type} `{PyFloat F} (heap : positive -> node F).
Implicit Types (it : obj F) (v : value F) (w : walk).

(** The plain data an object stands for: dicts by their sorted keys *)
Inductive captures : obj F -> value F -> Prop :=
  | captures_none : captures ONone VNone
  | captures_bool b : captures (OBool b) (VBool b)
  | captures_int z : captures (OInt z) (VInt z)
  | captures_float x : f_isfinite x = true -> captures (OFloat x) (VFloat x)
  | captures_str s : captures (OStr s) (VStr s)
  | captures_seq id implementation l vs : heap id = NSeq implementation l -> Forall2 captures l vs -> captures (ORef id) (VSeq vs)
  | captures_dict id l vs : heap id = NDict l -> Forall (fun x => is_Some x.1) l ->
      Forall2 (fun x y => x.1 = y.1 /\ captures x.2 y.2) (sorted_items l) vs -> captures (ORef id) (VMap vs).

(** The number of values in a tree, and whether its depth is below a bound *)
Fixpoint size (v : value F) : nat :=
  match v with
  | VSeq l => S (sum_list (size <$> l))
  | VMap l => S (sum_list ((fun x => size x.2) <$> l))
  | _ => 1
  end.

Fixpoint shallow (levels : nat) (v : value F) : bool :=
  match levels with
  | O => false
  | S levels =>
      match v with
      | VSeq l => forallb (shallow levels) l
      | VMap l => forallb (fun x => shallow levels x.2) l
      | _ => true
      end
  end.

Lemma size_pos v : (1 <= size v)%nat.
Proof. destruct v; simpl; lia. Qed.

Lemma size_in_seq (l : list (value F)) v : v ∈ l -> (size v < size (VSeq l))%nat.
Proof.
  cbn [size]. induction 1 as [v l|v x l Hin IH]; rewrite fmap_cons; simpl; lia.
Qed.

Lemma size_in_map (l : list (option string * value F)) x : x ∈ l -> (size x.2 < size (VMap l))%nat.
Proof. cbn [size]. induction 1 as [x l|x y l Hin IH]; rewrite fmap_cons; simpl; lia. Qed.

(** An object stands for one tree. *)
Lemma captures_unique it v v' : captures it v -> captures it v' -> v = v'.
Proof.
  remember (size v) as n eqn:Hn. revert it v v' Hn. induction n as [n IH] using lt_wf_ind. intros it v v' -> Hv Hv'.
  destruct Hv as [ | | | | |id imp l vs Hid Hl|id l vs Hid Hk Hl]; inversion Hv' as [ | | | | |? imp' l' vs' Hid' Hl'|? l' vs' Hid' Hk' Hl'];
    subst; try done; rewrite Hid in Hid'; simplify_eq; clear Hv'.
  - f_equal. assert (forall v, v ∈ vs -> (size v < size (VSeq vs))%nat) as Hs by apply size_in_seq. revert IH Hs Hl'. generalize (size (VSeq vs)).
    intros n IH Hs. revert vs' Hs. clear -IH Hl. revert IH. induction Hl as [|it v l vs Hv Hl IHl]; intros IH vs' Hs Hl'; inversion Hl'; subst; [done|].
    f_equal; [|apply IHl; try done; intros; apply Hs; by right]. eapply (IH (size v)); [apply Hs; by left|reflexivity|exact Hv|done].
  - f_equal. assert (forall x, x ∈ vs -> (size x.2 < size (VMap vs))%nat) as Hs by apply size_in_map. revert IH Hs Hl'. generalize (size (VMap vs)).
    intros n IH Hs. revert vs' Hs. clear -IH Hl. revert IH. induction Hl as [|x y l vs [Hk Hv] Hl IHl]; intros IH vs' Hs Hl'; inversion Hl' as [|? y' ? ? [Hk' Hv']]; subst; [done|].
    f_equal; [|apply IHl; try done; intros; apply Hs; by right]. destruct y as [k v], y' as [k' v']. simpl in *. subst.
    f_equal. eapply (IH (size v)); [apply (Hs (x.1, v)); by left|reflexivity|exact Hv|done].
Qed.

(** ** Every walk ends, and nothing escapes it *)

(** A step that returns, restores the objects seen, and keeps what was left out *)
Definition settles {A} (m : ST walk A) : Prop := forall w, exists w' a, m w = (w', Ok a) /\ wk_seen w' = wk_seen w /\
  wk_unresolved w `prefix_of` wk_unresolved w'.

Lemma settles_ret {A} (a : A) : settles (mret a).
Proof. intros w. by exists w, a. Qed.

Lemma settles_bind {A B} (m : ST walk A) (k : A -> ST walk B) : settles m -> (forall a, settles (k a)) -> settles (m ≫= k).
Proof.
  intros Hm Hk w. destruct (Hm w) as (w1 & a & He & Hs & Hp). destruct (Hk a w1) as (w2 & b & He' & Hs' & Hp').
  exists w2, b. unfold mbind, ST_bind. rewrite He. split_and!; [done|by rewrite Hs'|by etrans].
Qed.

Lemma settles_leave path : settles (leave path).
Proof. intros w. eexists _, _. split; [reflexivity|]. split; [done|]. by apply prefix_app_r. Qed.

Lemma settles_mapM {A B} (f : A -> ST walk B) l : (forall a, settles (f a)) -> settles (st_mapM f l).
Proof.
  intros Hf. induction l as [|a l IH]; [apply settles_ret|]. apply settles_bind; [done|]. intros b. apply settles_bind; [done|].
  intros bs. apply settles_ret.
Qed.

Create HintDb settle.
#[local] Hint Resolve settles_ret settles_bind settles_leave settles_mapM : settle.

Lemma settles_object enc path implementation source fields : (forall p it, settles (enc p it)) ->
  settles (describe_object (F:=F) enc path implementation source fields).
Proof.
  intros He. unfold describe_object. apply settles_bind; [destruct source; unfold describe_source; eauto with settle|]. intros s.
  apply settles_bind; [|intros; eauto with settle]. destruct fields as [fields|]; [|eauto with settle].
  apply settles_bind; [|eauto with settle]. apply settles_mapM. intros [name [child|]]; simpl; eauto with settle.
Qed.

Lemma settles_node enc path n : (forall p it, settles (enc p it)) -> settles (describe_node (F:=F) enc path n).
Proof.
  intros He. unfold describe_node. destruct n as [imp l|l|imp source fields].
  - destruct (_ <=? _)%nat; [|by apply settles_object]. apply settles_bind; eauto with settle.
  - destruct (_ && _); [|by apply settles_object]. apply settles_bind; [|eauto with settle]. apply settles_mapM.
    intros x. apply settles_bind; eauto with settle.
  - by apply settles_object.
Qed.

Lemma settles_unresolved path reason : settles (unresolved (F:=F) path reason).
Proof. unfold unresolved. eauto with settle. Qed.

Lemma encode_settles levels path it : settles (encode heap levels path it).
Proof.
  revert path it. induction levels as [|levels IH]; intros path it; cbn [encode].
  - intros w. destruct (settles_unresolved path "description limit" (mkWalk (wk_unresolved w) (wk_seen w) (wk_budget w - 1)))
      as (w' & a & Ha & Hs & Hp). exists w', a. by split_and!.
  - intros w. unfold mbind at 1, ST_bind at 1. unfold spend. set (w0 := mkWalk _ _ _).
    assert (forall m : ST walk (value F), settles m -> exists w' a, m w0 = (w', Ok a) /\ wk_seen w' = wk_seen w /\ wk_unresolved w `prefix_of` wk_unresolved w')
      as Hgo by (intros m Hm; apply (Hm w0)).
    destruct (_ <? 0); [apply Hgo, settles_unresolved|].
    destruct it as [| | |x| |id]; try (apply Hgo; apply settles_ret).
    + destruct (f_isfinite x); apply Hgo; [apply settles_ret|by apply settles_object].
    + unfold mbind at 1, ST_bind at 1, st_get. case_bool_decide as Hseen; [apply Hgo, settles_unresolved|].
      unfold mbind, ST_bind, see, st_modify. set (w1 := mkWalk _ _ _).
      destruct (settles_node (encode heap levels) path (heap id) (fun p it => IH p it) w1) as (w2 & v & -> & Hs & Hp).
      eexists _, v. split; [reflexivity|]. simpl. split; [|done]. rewrite Hs. simpl in *. set_solver.
Qed.

(** ** A complete description *)

(** A step that left nothing out gave a result with [R] and spent its size. *)
Definition sound {A} (R : A -> Prop) (sz : A -> nat) (m : ST walk A) : Prop := forall w w' a, m w = (w', Ok a) ->
  wk_unresolved w' = wk_unresolved w -> R a /\ wk_budget w' = wk_budget w - Z.of_nat (sz a) /\ (0 <= wk_budget w -> 0 <= wk_budget w').

Lemma same_prefix {A} (l1 l2 l3 : list A) : l1 `prefix_of` l2 -> l2 `prefix_of` l3 -> l3 = l1 -> l2 = l1.
Proof.
  intros [k1 ->] [k2 ->] Heq%(f_equal length). rewrite !length_app in Heq. destruct k1; [by rewrite app_nil_r|]. simpl in Heq. lia.
Qed.

Lemma mapM_sound {A B} (f : A -> ST walk B) (R : A -> B -> Prop) sz l : (forall a, settles (f a)) ->
  (forall a, sound (R a) sz (f a)) -> sound (Forall2 R l) (fun bs => sum_list (sz <$> bs)) (st_mapM f l).
Proof.
  intros Hs Hf. induction l as [|a l IH]; intros w w' bs; cbn [st_mapM].
  - intros [= <- <-] _. simpl. split; [constructor|]. lia.
  - unfold mbind, ST_bind. destruct (Hs a w) as (w1 & b & Hb & _ & Hp1). rewrite Hb.
    destruct (settles_mapM f l Hs w1) as (w2 & bs' & Hbs & _ & Hp2). rewrite Hbs. intros [= <- <-] Hsame.
    pose proof (same_prefix _ _ _ Hp1 Hp2 Hsame) as Hsame1. destruct (Hf a _ _ _ Hb Hsame1) as (Ha & Hbud & Hpos).
    rewrite <- Hsame1 in Hsame. destruct (IH _ _ _ Hbs Hsame) as (Hl & Hbud' & Hpos'). split; [by constructor|].
    rewrite fmap_cons. cbn [sum_list sum_list_with foldr]. simpl. lia.
Qed.

Lemma object_leaves enc path implementation source fields w w' v : (forall p it, settles (enc p it)) ->
  describe_object (F:=F) enc path implementation source fields w = (w', Ok v) -> wk_unresolved w' <> wk_unresolved w.
Proof.
  intros He. unfold describe_object. unfold mbind at 1, ST_bind at 1.
  assert (settles (describe_source (F:=F) path source)) as Hs by (destruct source; unfold describe_source; eauto with settle).
  destruct (Hs w) as (w1 & a & -> & _ & [k1 Hp1]).
  match goal with |- (mbind ?g ?m) w1 = _ -> _ => assert (settles m) as Hm end.
  { destruct fields as [fields|]; [|eauto with settle]. apply settles_bind; [|eauto with settle]. apply settles_mapM.
    intros [name [child|]]; simpl; eauto with settle. }
  unfold mbind at 1, ST_bind at 1. destruct (Hm w1) as (w2 & b & -> & _ & [k2 Hp2]).
  unfold mbind, ST_bind, leave, st_modify, mret, ST_ret. intros [= <- _]. simpl. rewrite Hp2, Hp1. intros Heq%(f_equal length).
  rewrite !length_app in Heq. simpl in Heq. lia.
Qed.

(** The children of a list keep their order under their indices. *)
Lemma indexed_snd {A} (l : list A) : (imap pair l).*2 = l.
Proof. rewrite fmap_imap. apply list_eq. intros i. rewrite list_lookup_imap. by destruct (l !! i). Qed.

Lemma Forall2_indexed {A B} (R : A -> B -> Prop) (l : list A) k :
  Forall2 (fun x y => R x.2 y) (imap pair l) k <-> Forall2 R l k.
Proof. rewrite <- (indexed_snd l) at 2. by rewrite Forall2_fmap_l. Qed.

Lemma forallb_Forall2_r {A B} (R : A -> B -> Prop) (p : B -> bool) l k :
  Forall2 (fun x y => R x y /\ p y = true) l k -> Forall2 R l k /\ forallb p k = true.
Proof. induction 1 as [|x y l k [Hr Hp] _ [IH IH']]; [done|]. split; [by constructor|]. simpl. by rewrite Hp. Qed.

Section one_level.
Context (levels : nat) (enc : string -> obj F -> ST walk (value F)).
Hypothesis enc_settles : forall p it, settles (enc p it).

Lemma node_sound path id : (forall p it, sound (fun v => captures it v /\ shallow levels v = true) size (enc p it)) ->
  sound (fun v => captures (ORef id) v /\ shallow (S levels) v = true) (fun v => size v - 1)%nat (describe_node enc path (heap id)).
Proof.
  intros Henc w w' v. unfold describe_node. destruct (heap id) as [imp l|l|imp source fields] eqn:Hid.
  - destruct (_ <=? _)%nat; [|intros Ho Hsame; by apply object_leaves in Ho].
    unfold mbind, ST_bind. set (f := fun x : nat * obj F => enc (child_path path x.1) x.2).
    pose proof (mapM_sound f (fun x v => captures x.2 v /\ shallow levels v = true) size (imap pair l) (fun x => enc_settles _ _) (fun x => Henc _ _) w) as Hs.
    destruct (st_mapM f _ w) as [w1 [vs|]]; [|done]. intros [= <- <-] Hsame. destruct (Hs w1 vs eq_refl Hsame) as (Hl & Hb & Hp).
    apply forallb_Forall2_r in Hl as [Hl Hsh]. apply (Forall2_indexed captures) in Hl. split_and!; [by eapply captures_seq|done| |done].
    rewrite Hb. cbn [size]. f_equal. lia.
  - destruct (_ && _) eqn:Hk; [|intros Ho Hsame; by apply object_leaves in Ho]. apply andb_true_iff in Hk as [_ Hk].
    unfold mbind at 1, ST_bind at 1.
    set (f := fun x : option string * obj F => v ← enc (field_path path (key_text x.1)) x.2; mret (x.1, v)).
    assert (forall x, settles (f x)) as Hf by (intros x; apply settles_bind; eauto with settle).
    assert (forall x, sound (fun y => (x.1 = y.1 /\ captures x.2 y.2) /\ shallow levels y.2 = true) (fun y => size y.2) (f x)) as Hsound.
    { intros x w1 w2 y. unfold f, mbind, ST_bind. pose proof (Henc (field_path path (key_text x.1)) x.2 w1) as Hx.
      destruct (enc _ x.2 w1) as [w3 [v'|]]; [|done]. intros [= <- <-] Hsame. destruct (Hx w3 v' eq_refl Hsame) as ([? ?] & ? & ?). done. }
    pose proof (mapM_sound f _ _ (sorted_items l) Hf Hsound w) as Hs.
    destruct (st_mapM f _ w) as [w1 [vs|]]; [|done]. intros [= <- <-] Hsame. destruct (Hs w1 vs eq_refl Hsame) as (Hl & Hb & Hp).
    apply (forallb_Forall2_r _ (fun y => shallow levels y.2)) in Hl as [Hl Hsh]. split_and!; [|done| |done].
    + eapply captures_dict; [done| |done]. apply Forall_forall. intros x Hx. rewrite forallb_forall in Hk.
      apply list_elem_of_In, Hk in Hx. by apply bool_decide_eq_true in Hx.
    + rewrite Hb. cbn [size]. f_equal. lia.
  - intros Ho Hsame. by apply object_leaves in Ho.
Qed.
End one_level.

Lemma unresolved_leaves path reason w w' v : unresolved (F:=F) path reason w = (w', Ok v) -> wk_unresolved w' <> wk_unresolved w.
Proof.
  unfold unresolved, mbind, ST_bind, leave, st_modify, mret, ST_ret. intros [= <- _]. simpl. intros Heq%(f_equal length).
  rewrite length_app in Heq. simpl in Heq. lia.
Qed.

Lemma encode_sound levels path it : sound (fun v => captures it v /\ shallow levels v = true) size (encode heap levels path it).
Proof.
  revert path it. induction levels as [|levels IH]; intros path it w w' v; cbn [encode]; unfold mbind at 1, ST_bind at 1, spend.
  { intros Hu Hsame. by apply unresolved_leaves in Hu. }
  set (w0 := mkWalk _ _ _). destruct (Z.ltb_spec (wk_budget w0) 0) as [|Hpos]; [intros Hu Hsame; by apply unresolved_leaves in Hu|].
  destruct it as [|b|z|x|s|id]; try (intros [= <- <-] _; split_and!; [by constructor|done|simpl; lia|done]).
  - destruct (f_isfinite x) eqn:Hx; [intros [= <- <-] _; split_and!; [by constructor|done|simpl; lia|done]|].
    intros Ho Hsame. apply object_leaves in Ho; [done|]. apply encode_settles.
  - unfold mbind at 1, ST_bind at 1, st_get. case_bool_decide; [intros Hu Hsame; by apply unresolved_leaves in Hu|].
    unfold mbind, ST_bind, see, unsee, st_modify. set (w1 := mkWalk _ _ _).
    pose proof (node_sound levels (encode heap levels) (encode_settles levels) path id IH w1) as Hn.
    destruct (describe_node _ path (heap id) w1) as [w2 [v'|]]; [|done]. intros [= <- <-] Hsame.
    destruct (Hn w2 v' eq_refl Hsame) as (Hv & Hb & Hp). split; [done|]. simpl in *. pose proof (size_pos v'). lia.
Qed.

(** A step that gives [b], leaves nothing out, and spends its size *)
Definition exactly {A} (seen : gset positive) (sz : nat) (a : A) (m : ST walk A) : Prop := forall w, wk_seen w = seen ->
  Z.of_nat sz <= wk_budget w -> m w = (mkWalk (wk_unresolved w) seen (wk_budget w - Z.of_nat sz), Ok a).

Lemma mapM_exactly {A B} (f : A -> ST walk B) seen sz l bs :
  Forall2 (fun a b => exactly seen (sz b) b (f a)) l bs -> exactly seen (sum_list (sz <$> bs)) bs (st_mapM f l).
Proof.
  induction 1 as [|a b l bs Ha _ IH]; intros w Hseen Hb; cbn [st_mapM].
  - destruct w as [un se bu]. simpl in *. subst. by rewrite Z.sub_0_r.
  - rewrite fmap_cons in *. cbn [sum_list sum_list_with foldr] in Hb. simpl in Hb. unfold mbind, ST_bind. rewrite Ha by (done || lia).
    rewrite IH by (done || simpl; lia). unfold mret, ST_ret. simpl. by rewrite Nat2Z.inj_add, Z.sub_add_distr.
Qed.

Lemma Forall2_weaken_in {A B} (R S : A -> B -> Prop) l k : (forall x y, y ∈ k -> R x y -> S x y) -> Forall2 R l k -> Forall2 S l k.
Proof. intros Hw. induction 1 as [|x y l k Hr Hl IH]; constructor; [apply Hw; [by left|done]|]. apply IH. intros. apply Hw; [by right|done]. Qed.

Lemma Forall2_length_size {A} (sz : A -> nat) {B} (R : B -> A -> Prop) l k : (forall a, 1 <= sz a)%nat -> Forall2 R l k ->
  (length l <= sum_list (sz <$> k))%nat.
Proof. intros Hs. induction 1 as [|x y l k _ _ IH]; [simpl; lia|]. rewrite fmap_cons. specialize (Hs y). simpl. lia. Qed.

Lemma encode_complete levels path it v w : captures it v -> shallow levels v = true -> (size v <= 1000)%nat ->
  Z.of_nat (size v) <= wk_budget w -> (forall id, id ∈ wk_seen w -> exists u, captures (ORef id) u /\ (size v < size u)%nat) ->
  encode heap levels path it w = (mkWalk (wk_unresolved w) (wk_seen w) (wk_budget w - Z.of_nat (size v)), Ok v).
Proof.
  revert path it v w. induction levels as [|levels IH]; [done|]. intros path it v w Hv Hsh Hs Hb Hseen. pose proof (size_pos v) as Hpos.
  cbn [encode]. unfold mbind at 1, ST_bind at 1, spend. cbn [wk_budget].
  destruct (Z.ltb_spec (wk_budget w - 1) 0) as [|_]; [lia|]. pose proof Hv as Hcap.
  destruct Hv as [ | | |x Hx| |id imp l vs Hid Hl|id l vs Hid Hk Hl]; try reflexivity; [by rewrite Hx|..];
    unfold mbind at 1, ST_bind at 1, st_get; (rewrite bool_decide_false; [|intros Hin; destruct (Hseen id Hin) as (u & Hu & Hlt);
      rewrite (captures_unique _ _ _ Hu Hcap) in Hlt; lia]);
    (assert (id ∉ wk_seen w) as Hnin by (intros Hin; destruct (Hseen id Hin) as (u & Hu & Hlt);
      rewrite (captures_unique _ _ _ Hu Hcap) in Hlt; lia));
    unfold mbind at 1, ST_bind at 1, see, st_modify; unfold mbind at 1, ST_bind at 1; rewrite Hid; cbn [describe_node].
  - assert (Forall2 (fun (x : nat * obj F) v => exactly ({[id]} ∪ wk_seen w) (size v) v (encode heap levels (child_path path x.1) x.2)) (imap pair l) vs) as Hall.
    { cbn [shallow] in Hsh. rewrite forallb_forall in Hsh. apply (Forall2_indexed captures) in Hl.
      eapply Forall2_weaken_in; [|exact Hl]. intros [i child] u Hu Hc w1 Hw1 Hbud. pose proof (size_in_seq vs u Hu).
      rewrite <- Hw1. apply IH; [done|by apply Hsh, list_elem_of_In|lia|done|]. intros id' Hin. rewrite Hw1 in Hin.
      apply elem_of_union in Hin as [->%elem_of_singleton|Hin]; [by exists (VSeq vs)|].
      destruct (Hseen id' Hin) as (u' & ? & ?). exists u'. split; [done|lia]. }
    pose proof (Forall2_length_size size _ _ _ size_pos Hl) as Hlen. cbn [size] in Hs, Hb.
    rewrite (proj2 (Nat.leb_le _ _)) by lia. unfold mbind at 1, ST_bind at 1.
    rewrite (mapM_exactly _ _ _ _ _ Hall) by (simpl; done || lia).
    unfold mbind, ST_bind, unsee, st_modify, mret, ST_ret. simpl. do 2 f_equal; [set_solver|lia].
  - assert (Forall2 (fun (x y : option string * _) => exactly ({[id]} ∪ wk_seen w) (size y.2) y
      (v ← encode heap levels (field_path path (key_text x.1)) x.2; mret (x.1, v))) (sorted_items l) vs) as Hall.
    { cbn [shallow] in Hsh. rewrite forallb_forall in Hsh.
      eapply Forall2_weaken_in; [|exact Hl]. intros [k child] [k' u] Hu [Hkk Hc] w1 Hw1 Hbud. pose proof (size_in_map vs _ Hu). simpl in *. subst k'.
      unfold mbind, ST_bind. rewrite (IH _ _ u); [by rewrite Hw1|done|by apply (Hsh (k, u)), list_elem_of_In|lia|done|].
      intros id' Hin. rewrite Hw1 in Hin. apply elem_of_union in Hin as [->%elem_of_singleton|Hin]; [by exists (VMap vs)|].
      destruct (Hseen id' Hin) as (u' & ? & ?). exists u'. split; [done|lia]. }
    pose proof (Forall2_length_size (fun y : option string * value F => size y.2) _ _ _ (fun y => size_pos y.2) Hl) as Hlen. cbn [size] in Hs, Hb.
    assert ((length l <=? 1000)%nat && forallb (fun x => bool_decide (is_Some x.1)) l = true) as ->.
    { unfold sorted_items in Hlen. rewrite (merge_sort_Permutation _ _) in Hlen. apply andb_true_iff. split; [apply Nat.leb_le; lia|].
      apply forallb_forall. intros x Hx. rewrite Forall_forall in Hk. by apply bool_decide_eq_true, Hk, list_elem_of_In. }
    unfold mbind at 1, ST_bind at 1.
    rewrite (mapM_exactly _ _ (fun y : option string * value F => size y.2) _ _ Hall) by (simpl; done || lia).
    unfold mbind, ST_bind, unsee, st_modify, mret, ST_ret. simpl. do 2 f_equal; [set_solver|lia].
Qed.

(** C38: [describe_component] always ends with a description, whatever the heap:
    cycles, sharing, huge or opaque objects.  Nothing is unresolved exactly when
    the object stands for plain data - finite floats, strings, lists, and dicts
    with string keys, without cycles - at most nine levels deep and of at most a
    thousand values; the description is then that data, dicts in the order of
    their keys. *)
Theorem description_complete_iff it :
  exists d unresolved, describe_component heap it = Ok (d, unresolved) /\
    (unresolved = [] <-> exists v, captures it v /\ shallow 9 v = true /\ (size v <= 1000)%nat) /\
    forall v, captures it v -> shallow 9 v = true -> (size v <= 1000)%nat -> d = v.
Proof.
  unfold describe_component. destruct (encode_settles 9 "component" it (mkWalk [] ∅ 1000)) as (w & d & He & _ & _). rewrite He.
  exists d, (merge_sort String.le (remove_dups (wk_unresolved w))). split; [done|].
  assert (forall v, captures it v -> shallow 9 v = true -> (size v <= 1000)%nat -> d = v /\ wk_unresolved w = []) as Hcomplete.
  { intros v Hv Hsh Hs. rewrite (encode_complete 9 "component" it v) in He by (done || simpl; lia || set_solver).
    by simplify_eq/=. }
  split; [|by intros v ? ? ?; apply Hcomplete]. split.
  - intros Hnone. assert (wk_unresolved w = []) as Hw.
    { destruct (wk_unresolved w) as [|p l] eqn:Hl; [done|]. assert (p ∈ remove_dups (p :: l)) as Hp by (apply elem_of_remove_dups; by left).
      rewrite <- (merge_sort_Permutation String.le _), Hnone in Hp. by apply elem_of_nil in Hp. }
    destruct (encode_sound 9 "component" it _ _ _ He Hw) as ([Hv Hsh] & Hb & Hpos). exists d. split_and!; [done..|]. simpl in *. lia.
  - intros (v & Hv & Hsh & Hs). destruct (Hcomplete v Hv Hsh Hs) as [_ ->]. done.
Qed.
End facts.

(** ** A component with a cycle, and one of plain data *)

Module description_witness.
(** A list that holds itself, and a dict of settings *)
Definition heap (id : positive) : node XQ :=
  match id with
  | 1%positive => NSeq "builtins.list" [OInt 7; ORef 1]
  | 2%positive => NDict [(Some "window"%string, OInt 5); (Some "names"%string, ORef 3)]
  | 3%positive => NSeq "builtins.tuple" [OStr "a"; ONone]
  | _ => NObject "builtins.object" None None
  end.

Example cyclic : describe_component heap (ORef 1) = Ok (VSeq [VInt 7; VMap [item "unresolved" (VStr "cycle")]], ["component[1]"%string]).
Proof. by vm_compute. Qed.

Example settings : describe_component heap (ORef 2) =
  Ok (VMap [item "names" (VSeq [VStr "a"; VNone]); item "window" (VInt 5)], []).
Proof. by vm_compute. Qed.
End description_witness.
