(* ===== verification/Builder.v ===== *)
(** * The strategy builder (strategy_builder.py)

    A builder collects what a strategy consists of and registers it in order.
    The frame of data is its columns and its timestamps, as [to_numpy] and
    [astype] give them; its fingerprint is Polars's and an argument.  The context
    object handed to callbacks is part of their world. *)

From S2P Require Import Prelude Numeric Vendor Boundaries Instruments Contracts Orders ContractPnl Account Callbacks Risk Strategy Inputs Simulators.
From S2P Require Import Configuration Universe.

#[local] Open Scope Z_scope.

Section builder.
Context {F : Type} `{PyFloat F} `{!Numpy F} `{SortedDict D} {W : Type}.

Notation indicator_fn := (indicator_fn (F:=F) (W:=W)).
Notation signal_fn := (signal_fn (F:=F) (W:=W)).
Notation rule_fn := (rule_fn F D W).
Notation sim_fn := (sim_fn F W).
Notation policy := (policy F D W).
Notation Strategy := (Strategy F D W).

(** A frame: its columns, whether they are boolean, and their values; and the
    column "timestamp" in the unit of the builder *)
Record frame := mkFrame {
  fr_height : nat;
  fr_columns : list (string * (bool * list (pyval F)));
  fr_timestamps : result ndarray;
}.

Definition indicator_entry : Type := string * arg indicator_fn * option (arg (list (arg group))) * option (list string).
Definition signal_entry : Type := string * arg signal_fn * option (arg (list (arg group))) * option (list string) * option (list string).
Definition rule_entry : Type := arg string * arg rule_fn * arg string * option (list (pyval F)) * option string.

Record StrategyBuilder := mkBuilder {
  sb_data : option frame;
  sb_timestamps : option ndarray;
  sb_contract_groups : list (string * group);
  sb_price_function : option (option (price_fn F W));  (* the attribute is not set by __init__ *)
  sb_pnl_calc_time : pyval F;
  sb_starting_equity : pyval F;
  sb_trade_lag : pyval F;
  sb_indicators : list indicator_entry;
  sb_signals : list signal_entry;
  sb_rules : list rule_entry;
  sb_market_sims : list (arg sim_fn);
  sb_risk_policies : list (arg policy);
  sb_log_trades : pyval F;
  sb_log_orders : pyval F;
}.

(** [assert_] *)
Definition assert_true (b : bool) (msg : string) : result unit := unless b raise PQException msg ;; Ok tt.

(** [StrategyBuilder.__init__] *)
Definition StrategyBuilder_init (data : option frame) : result StrategyBuilder :=
  _ ← match data with Some d => assert_true (0 <? fr_height d)%nat "data cannot be empty" | None => Ok tt end;
  Ok (mkBuilder data None [] None (PInt (16 * 60 + 1)) (PFloat (f_of_Z 1000000)) (PInt 1) [] [] [] [] [] (PBool true) (PBool false)).

(** The setters *)
Definition set_timestamps (b : StrategyBuilder) (is_datetime64 : bool) (timestamps : ndarray) : result StrategyBuilder :=
  _ ← assert_true is_datetime64 "timestamps must be np.datetime64";
  Ok (mkBuilder (sb_data b) (Some timestamps) (sb_contract_groups b) (sb_price_function b) (sb_pnl_calc_time b)
    (sb_starting_equity b) (sb_trade_lag b) (sb_indicators b) (sb_signals b) (sb_rules b) (sb_market_sims b) (sb_risk_policies b)
    (sb_log_trades b) (sb_log_orders b)).

Definition set_settings (b : StrategyBuilder) (pnl_calc_time starting_equity trade_lag log_trades log_orders : pyval F) : StrategyBuilder :=
  mkBuilder (sb_data b) (sb_timestamps b) (sb_contract_groups b) (sb_price_function b) pnl_calc_time starting_equity trade_lag
    (sb_indicators b) (sb_signals b) (sb_rules b) (sb_market_sims b) (sb_risk_policies b) log_trades log_orders.

Definition set_starting_equity (b : StrategyBuilder) (v : pyval F) : result StrategyBuilder :=
  unless match v with PInt _ | PFloat _ | PNpFloat _ => true | _ => false end raise TypeError "starting_equity must be numeric" ;;
  finite ← np_isfinite v;
  whenever negb finite || match v with PInt z => z <=? 0 | PFloat x | PNpFloat x => f_leb x f_zero | _ => false end
    raise ValueError "starting_equity must be finite and positive" ;;
  x ← py_float v;
  Ok (set_settings b (sb_pnl_calc_time b) (PFloat x) (sb_trade_lag b) (sb_log_trades b) (sb_log_orders b)).

Definition set_pnl_calc_time (b : StrategyBuilder) (v : pyval F) : StrategyBuilder :=
  set_settings b v (sb_starting_equity b) (sb_trade_lag b) (sb_log_trades b) (sb_log_orders b).
Definition set_trade_lag (b : StrategyBuilder) (v : pyval F) : StrategyBuilder :=
  set_settings b (sb_pnl_calc_time b) (sb_starting_equity b) v (sb_log_trades b) (sb_log_orders b).
Definition set_log_trades (b : StrategyBuilder) (v : pyval F) : StrategyBuilder :=
  set_settings b (sb_pnl_calc_time b) (sb_starting_equity b) (sb_trade_lag b) v (sb_log_orders b).
Definition set_log_orders (b : StrategyBuilder) (v : pyval F) : StrategyBuilder :=
  set_settings b (sb_pnl_calc_time b) (sb_starting_equity b) (sb_trade_lag b) (sb_log_trades b) v.

Definition set_price_function (b : StrategyBuilder) (price_function : option (price_fn F W)) : StrategyBuilder :=
  mkBuilder (sb_data b) (sb_timestamps b) (sb_contract_groups b) (Some price_function) (sb_pnl_calc_time b) (sb_starting_equity b)
    (sb_trade_lag b) (sb_indicators b) (sb_signals b) (sb_rules b) (sb_market_sims b) (sb_risk_policies b) (sb_log_trades b) (sb_log_orders b).

(** [add_contract], over the registry *)
Definition builder_add_contract (symbol : string) (instrument_spec : option (InstrumentSpec F)) : ST (registry F) (contract F) := fun r =>
  if Contract_exists symbol r then
    match Contract_get symbol r with
    | None => (r, Err (RuntimeError "contract registry lost existing symbol"))
    | Some c =>
        if match instrument_spec with Some s => negb (spec_eqb (c_instrument_spec c) s) | None => false end
        then (r, Err (ValueError "contract already exists with different instrument metadata"))
        else (r, Ok c)
    end
  else Contract_create (CreateArgs (PStr symbol) None None None None None (Inst <$> instrument_spec)) r.

Definition builder_add_group (b : StrategyBuilder) (g : group) : StrategyBuilder :=
  mkBuilder (sb_data b) (sb_timestamps b) (dict_set (sb_contract_groups b) (cg_name g) g) (sb_price_function b) (sb_pnl_calc_time b)
    (sb_starting_equity b) (sb_trade_lag b) (sb_indicators b) (sb_signals b) (sb_rules b) (sb_market_sims b) (sb_risk_policies b)
    (sb_log_trades b) (sb_log_orders b).

(** [add_contract_universe] *)
Definition add_contract_universe (b : StrategyBuilder) (groups : list (string * group)) : StrategyBuilder :=
  foldl builder_add_group b groups.*2.

(** The lists a builder appends to *)
Definition with_stages (b : StrategyBuilder) indicators signals rules sims policies : StrategyBuilder :=
  mkBuilder (sb_data b) (sb_timestamps b) (sb_contract_groups b) (sb_price_function b) (sb_pnl_calc_time b) (sb_starting_equity b)
    (sb_trade_lag b) indicators signals rules sims policies (sb_log_trades b) (sb_log_orders b).

Definition builder_add_indicator (b : StrategyBuilder) (e : indicator_entry) : StrategyBuilder :=
  with_stages b (sb_indicators b ++ [e]) (sb_signals b) (sb_rules b) (sb_market_sims b) (sb_risk_policies b).
Definition builder_add_signal (b : StrategyBuilder) (e : signal_entry) : StrategyBuilder :=
  with_stages b (sb_indicators b) (sb_signals b ++ [e]) (sb_rules b) (sb_market_sims b) (sb_risk_policies b).
Definition builder_add_rule (b : StrategyBuilder) (e : rule_entry) : StrategyBuilder :=
  with_stages b (sb_indicators b) (sb_signals b) (sb_rules b ++ [e]) (sb_market_sims b) (sb_risk_policies b).
Definition builder_add_market_sim (b : StrategyBuilder) (sim : arg sim_fn) : StrategyBuilder :=
  with_stages b (sb_indicators b) (sb_signals b) (sb_rules b) (sb_market_sims b ++ [sim]) (sb_risk_policies b).
Definition builder_add_risk_policy (b : StrategyBuilder) (p : arg policy) : StrategyBuilder :=
  with_stages b (sb_indicators b) (sb_signals b) (sb_rules b) (sb_market_sims b) (sb_risk_policies b ++ [p]).

(** [VectorIndicator] and [VectorSignal] of a column, as callbacks *)
Definition column_indicator (values : list (pyval F)) : indicator_fn := fun _ _ _ w => (w, Ok (Inst (StageArray 1 values))).
Definition column_signal (values : list (pyval F)) : signal_fn := fun _ _ _ _ w => (w, Ok (Inst (StageArray 1 values))).

(** [add_series_indicator] *)
Definition add_series_indicator (b : StrategyBuilder) (name column_name : string) : result StrategyBuilder :=
  match sb_data b with
  | None => Err (AttributeError "columns")
  | Some data =>
      match dict_get (fr_columns data) column_name with
      | None => Err (PQException "column not found in data")
      | Some (_, values) => Ok (builder_add_indicator b (name, Inst (column_indicator values), None, None))
      end
  end.

(** [add_series_rule] *)
Definition add_series_rule (b : StrategyBuilder) (column_name : string) (rule_function : arg rule_fn) (position_filter name : string)
  (contract_groups : option (arg (list (arg group)))) : result StrategyBuilder :=
  match sb_data b with
  | None => Err (PQException "data cannot be None when adding rule by name")
  | Some data =>
      match dict_get (fr_columns data) column_name with
      | None => Err (PQException "column not found in data")
      | Some (is_boolean, values) =>
          _ ← assert_true is_boolean "column expected to be boolean";
          let name := if String.eqb name "" then column_name else name in
          let sig_name := name +:+ "_sig" in
          let rule_name := name +:+ "_rule" in
          let b := builder_add_signal b (sig_name, Inst (column_signal values), contract_groups, None, None) in
          Ok (builder_add_rule b (Inst rule_name, rule_function, Inst sig_name, None, Some position_filter))
      end
  end.

(** ** Building *)

(** What [Strategy.__init__] sets up, and the inputs of its provenance *)
Record built := mkBuilt {
  bt_configuration : RunConfiguration F;
  bt_account : Account F D;
  bt_strategy : Strategy;
  bt_inputs : list (string * string);
}.

Definition equity_pyval (e : equity F) : pyval F := match e with EquityInt z => PInt z | EquityFloat x => PFloat x end.

(** [Strategy( ... )] *)
Definition new_strategy (timestamps : ndarray) (groups : list group) (starting_equity pnl_calc_time trade_lag log_trades log_orders : pyval F)
  : result built :=
  configuration ← RunConfiguration_init starting_equity pnl_calc_time trade_lag (PBool true) log_trades log_orders;
  _ ← validate_strategy_timestamps timestamps;
  account ← Account_init (Inst (Inst <$> groups)) timestamps true (equity_pyval (rc_starting_equity configuration))
              (PInt (rc_pnl_calc_time configuration));
  strategy ← Strategy_init (ac_timestamps account) (ac_contract_groups account) (rc_trade_lag configuration) (rc_run_final_calc configuration);
  Ok (mkBuilt configuration account strategy []).

(** The registrations, in the order of the loops of [__call__] *)
Definition register_indicator (s : Strategy) (e : indicator_entry) : result Strategy :=
  let '(name, f, groups, depends_on) := e in add_indicator s name f groups depends_on.
Definition register_signal (s : Strategy) (e : signal_entry) : result Strategy :=
  let '(name, f, groups, inds, sigs) := e in add_signal s name f groups inds sigs.
Definition register_rule (s : Strategy) (e : rule_entry) : result Strategy :=
  let '(name, f, signal, true_values, filter) := e in add_rule s name f signal true_values filter.

Definition default_simulator (price_function : price_fn F W) : result sim_fn :=
  SimpleMarketSimulator_call <$> SimpleMarketSimulator_init price_function f_zero f_zero 3 None None None None.

(** [StrategyBuilder.__call__] *)
Definition builder_call (fingerprint : frame -> string) (b : StrategyBuilder) : result built :=
  match sb_price_function b with
  | None => Err (AttributeError "'StrategyBuilder' object has no attribute 'price_function'")
  | Some None => Err (PQException "price function must be set")
  | Some (Some price_function) =>
      timestamps ← match sb_timestamps b, sb_data b with
        | Some timestamps, _ => Ok timestamps
        | None, Some data => fr_timestamps data
        | None, None => Err (PQException "data cannot be None if timestamps is not set")
        end;
      let groups := if bool_decide (sb_contract_groups b = []) then [DEFAULT_CG] else (sb_contract_groups b).*2 in
      built ← new_strategy timestamps groups (sb_starting_equity b) (sb_pnl_calc_time b) (sb_trade_lag b) (sb_log_trades b) (sb_log_orders b);
      let inputs := match sb_data b with Some data => [("strategy_builder.data"%string, fingerprint data)] | None => [] end in
      _ ← assert_true (negb (bool_decide (length (sb_rules b) = 0%nat))) "rules cannot be empty or None";
      s ← foldE register_indicator (bt_strategy built) (sb_indicators b);
      s ← foldE register_signal s (sb_signals b);
      s ← foldE register_rule s (sb_rules b);
      s ← foldE (fun s p => add_risk_policy s false p) s (sb_risk_policies b);
      s ← (if bool_decide (length (sb_market_sims b) = 0%nat)
           then sim ← default_simulator price_function; add_market_sim s false (Inst sim)
           else foldE (fun s sim => add_market_sim s false sim) s (sb_market_sims b));
      Ok (mkBuilt (bt_configuration built) (bt_account built) s inputs)
  end.

(** ** What a built strategy consists of *)

Implicit Types (s : Strategy) (b : StrategyBuilder).

(** What the registration of stages leaves alone *)
Definition same_rules (s s' : Strategy) : Prop :=
  s_rule_names s' = s_rule_names s /\ s_rules s' = s_rules s /\ s_market_sims s' = s_market_sims s /\
  s_risk_policies s' = s_risk_policies s /\ s_trade_lag s' = s_trade_lag s /\ s_contract_groups s' = s_contract_groups s.

#[local] Instance same_rules_preorder : PreOrder same_rules.
Proof. split; [done|]. intros s1 s2 s3 (? & ? & ? & ? & ? & ?) (? & ? & ? & ? & ? & ?). unfold same_rules. split_and!; congruence. Qed.

Lemma foldE_relates {A} (R : Strategy -> Strategy -> Prop) `{!PreOrder R} (body : Strategy -> A -> result Strategy) l s s' :
  (forall s x s', body s x = Ok s' -> R s s') -> foldE body s l = Ok s' -> R s s'.
Proof.
  intros Hb. revert s. induction l as [|x l IH]; intros s; simpl; [by intros [= ->]|].
  intros (s1 & H1 & H2)%bind_Ok_inv. etrans; [by eapply Hb|by apply IH].
Qed.

Lemma indicator_rules s e s' : register_indicator s e = Ok s' -> same_rules s s'.
Proof. destruct e as [[[name [f|]] gs] deps]; [|done]. cbn [register_indicator]. unfold add_indicator. intros Hs. inv_ok Hs. by split_and!. Qed.

Lemma signal_rules s e s' : register_signal s e = Ok s' -> same_rules s s'.
Proof. destruct e as [[[[name [f|]] gs] deps] deps']; [|done]. cbn [register_signal]. unfold add_signal. intros Hs. inv_ok Hs. by split_and!. Qed.

(** A rule is appended under a name of its own. *)
Definition rule_name (e : rule_entry) : arg string := let '(name, _, _, _, _) := e in name.

Lemma register_rule_Ok s e s' : register_rule s e = Ok s' ->
  exists name, rule_name e = Inst name /\ (name ∉ s_rule_names s) /\ s_rule_names s' = s_rule_names s ++ [name] /\
    s_market_sims s' = s_market_sims s /\ s_risk_policies s' = s_risk_policies s /\ s_trade_lag s' = s_trade_lag s /\
    s_contract_groups s' = s_contract_groups s.
Proof.
  destruct e as [[[[[name|] [f|]] [sig|]] tv] pf]; cbn [register_rule]; unfold add_rule; intros Hs; inv_ok Hs; try done. bools. exists name. by split_and!.
Qed.

Lemma register_rules_Ok l s s' : foldE register_rule s l = Ok s' -> NoDup (s_rule_names s) ->
  NoDup (s_rule_names s') /\ (Inst <$> s_rule_names s') = (Inst <$> s_rule_names s) ++ (rule_name <$> l) /\
    s_market_sims s' = s_market_sims s /\ s_risk_policies s' = s_risk_policies s /\ s_trade_lag s' = s_trade_lag s /\
    s_contract_groups s' = s_contract_groups s.
Proof.
  revert s. induction l as [|e l IH]; intros s; simpl; [intros [= ->] ?; rewrite app_nil_r; by split_and!|].
  intros (s1 & (name & Hname & Hnew & Hnames & ? & ? & ? & ?)%register_rule_Ok & Hl)%bind_Ok_inv Hnd.
  destruct (IH _ Hl) as (Hnd' & Heq & ? & ? & ? & ?).
  - rewrite Hnames. apply NoDup_app. split_and!; [done|set_solver|repeat constructor; set_solver].
  - split_and!; try congruence. rewrite Heq, Hnames, fmap_app, <- app_assoc. simpl. by rewrite Hname.
Qed.

Lemma register_policies_Ok l s s' : foldE (fun s p => add_risk_policy s false p) s l = Ok s' ->
  (Inst <$> s_risk_policies s') = (Inst <$> s_risk_policies s) ++ l /\ s_rule_names s' = s_rule_names s /\
  s_market_sims s' = s_market_sims s /\ s_trade_lag s' = s_trade_lag s /\ s_contract_groups s' = s_contract_groups s.
Proof.
  revert s. induction l as [|[p|] l IH]; intros s; cbn [foldE]; [intros [= ->]; rewrite app_nil_r; by split_and!| |done].
  intros (s1 & H1 & Hl)%bind_Ok_inv. inv_ok H1. destruct (IH _ Hl) as (Heq & ? & ? & ? & ?). split_and!; try done.
  rewrite Heq. simpl. by rewrite fmap_app, <- app_assoc.
Qed.

Lemma register_sims_Ok l s s' : foldE (fun s sim => add_market_sim s false sim) s l = Ok s' ->
  (Inst <$> s_market_sims s') = (Inst <$> s_market_sims s) ++ l /\ s_rule_names s' = s_rule_names s /\
  s_risk_policies s' = s_risk_policies s /\ s_trade_lag s' = s_trade_lag s /\ s_contract_groups s' = s_contract_groups s.
Proof.
  revert s. induction l as [|[p|] l IH]; intros s; cbn [foldE]; [intros [= ->]; rewrite app_nil_r; by split_and!| |done].
  intros (s1 & H1 & Hl)%bind_Ok_inv. inv_ok H1. destruct (IH _ Hl) as (Heq & ? & ? & ? & ?). split_and!; try done.
  rewrite Heq. simpl. by rewrite fmap_app, <- app_assoc.
Qed.

(** A strategy that a builder builds has exactly what was put into it: the rules
    in order, at least one and under distinct names, the risk policies in order,
    the market simulators in order or else one simulator over the price
    function, the groups, or else the default group, and the validated settings. *)
Theorem built_as_requested fingerprint b built : builder_call fingerprint b = Ok built ->
  let s := bt_strategy built in
  (Inst <$> s_rule_names s) = (rule_name <$> sb_rules b) /\ s_rule_names s <> [] /\ NoDup (s_rule_names s) /\
  (Inst <$> s_risk_policies s) = sb_risk_policies b /\
  (sb_market_sims b <> [] -> (Inst <$> s_market_sims s) = sb_market_sims b) /\
  (sb_market_sims b = [] -> exists pf sim, sb_price_function b = Some (Some pf) /\ default_simulator pf = Ok sim /\ s_market_sims s = [sim]) /\
  s_trade_lag s = rc_trade_lag (bt_configuration built) /\ s_contract_groups s = ac_contract_groups (bt_account built) /\
  bt_inputs built = match sb_data b with Some data => [("strategy_builder.data"%string, fingerprint data)] | None => [] end.
Proof.
  unfold builder_call. destruct (sb_price_function b) as [[pf|]|] eqn:Hpf; [|done..]. intros Hb.
  apply bind_Ok_inv in Hb as (ts & _ & Hb). apply bind_Ok_inv in Hb as (nb & Hnew & Hb).
  apply bind_Ok_inv in Hb as ([] & Hne & Hb). apply bind_Ok_inv in Hb as (s1 & H1 & Hb). apply bind_Ok_inv in Hb as (s2 & H2 & Hb).
  apply bind_Ok_inv in Hb as (s3 & H3 & Hb). apply bind_Ok_inv in Hb as (s4 & H4 & Hb). apply bind_Ok_inv in Hb as (s5 & H5 & Hb).
  injection Hb as <-. cbn [bt_strategy bt_configuration bt_account bt_inputs].
  apply (foldE_relates same_rules) in H1; [|apply indicator_rules]. apply (foldE_relates same_rules) in H2; [|apply signal_rules].
  assert (same_rules (bt_strategy nb) s2) as (Hn & _ & Hsims & Hpol & Hlag & Hgroups) by (by etrans). clear H1 H2.
  assert (s_rule_names (bt_strategy nb) = [] /\ s_market_sims (bt_strategy nb) = [] /\ s_risk_policies (bt_strategy nb) = [] /\
    s_trade_lag (bt_strategy nb) = rc_trade_lag (bt_configuration nb) /\
    s_contract_groups (bt_strategy nb) = ac_contract_groups (bt_account nb)) as (Hn0 & Hs0 & Hp0 & Hl0 & Hg0).
  { unfold new_strategy in Hnew. apply bind_Ok_inv in Hnew as (c & _ & Hnew). apply bind_Ok_inv in Hnew as (? & _ & Hnew).
    apply bind_Ok_inv in Hnew as (ac & _ & Hnew). apply bind_Ok_inv in Hnew as (s & Hs & Hnew). injection Hnew as <-.
    unfold Strategy_init in Hs. inv_ok Hs. done. }
  apply register_rules_Ok in H3 as (Hnd & Hnames & Hsims3 & Hpol3 & Hlag3 & Hg3); [|rewrite Hn, Hn0; constructor].
  apply register_policies_Ok in H4 as (Hpol4 & Hn4 & Hsims4 & Hlag4 & Hg4).
  rewrite Hn, Hn0 in Hnames. simpl in Hnames. rewrite Hpol3, Hpol, Hp0 in Hpol4. simpl in Hpol4.
  assert (s_rule_names s3 <> []) as Hsome.
  { intros Hnil. rewrite Hnil in Hnames. unfold assert_true in Hne. apply guard_bind_Ok in Hne as [Hne%negb_true_iff%bool_decide_eq_false _].
    apply Hne. rewrite <- (length_fmap rule_name (sb_rules b)), <- Hnames. done. }
  case_bool_decide as Hlen.
  - apply nil_length_inv in Hlen. apply bind_Ok_inv in H5 as (sim & Hsim & H5). inv_ok H5. simpl.
    rewrite Hlen. split_and!; try done; try congruence. intros _. exists pf, sim. split_and!; try done. by rewrite Hsims4, Hsims3, Hsims, Hs0.
  - apply register_sims_Ok in H5 as (Hsims5 & Hn5 & Hpol5 & Hlag5 & Hg5). rewrite Hsims4, Hsims3, Hsims, Hs0 in Hsims5.
    split_and!; try congruence; [by intros _|]. intros Hnil. by rewrite Hnil in Hlen.
Qed.
End builder.
