(* ===== verification/MarketData.v ===== *)
(** * Validation of market data (market_data.py)

    A frame is its columns: timestamps in nanoseconds (a Date being its midnight),
    numbers, or another type; a missing value is [None].  The order check and the
    relative change of Polars, and the sessions of the vendor's calendars, are the
    class [Bars].  A finding names its column in place of its message. *)

From S2P Require Import Prelude Numeric.

#[local] Open Scope Z_scope.

Section market_data.
Context {F : Type} `{PyFloat F}.

Inductive column :=
  | TimeColumn (values : list (option Z))
  | NumericColumn (values : list (option F))
  | OtherColumn.

Record bars := mkBars { br_height : nat; br_columns : list (string * column) }.

Class Bars := {
  pl_is_sorted : list (option Z) -> bool;                   (* Series.is_sorted() *)
  pl_pct_change : list (option F) -> list (option F);       (* pct_change() *)
  pl_date : Z -> Z;                                         (* .dt.date(), in days *)
  mcal_valid_days : string -> Z -> Z -> result (list Z);    (* get_calendar(name).valid_days(first, last) *)
}.

(** Sorted means in order, where nothing is missing. *)
Class BarsLaws `{Bars} : Prop :=
  pl_is_sorted_spec l : pl_is_sorted (Some <$> l) = true <-> StronglySorted Z.le l.

(** ** Findings *)

Inductive ValidationSeverity := ERROR | WARNING.
#[local] Instance severity_eq_dec : EqDecision ValidationSeverity.
Proof. solve_decision. Defined.

Record ValidationFinding := mkFinding { vf_code : string; vf_severity : ValidationSeverity; vf_column : option string; vf_count : nat }.
Definition Report : Type := list ValidationFinding.

Definition is_error (f : ValidationFinding) : bool := match vf_severity f with ERROR => true | WARNING => false end.

(** [MarketDataValidationReport.is_valid], [by_code] and [raise_if_invalid] *)
Definition is_valid (r : Report) : bool := negb (existsb is_error r).
Definition by_code (r : Report) (code : string) : option ValidationFinding := List.find (fun f => String.eqb (vf_code f) code) r.
Definition raise_if_invalid (r : Report) : result unit := unless is_valid r raise ValueError "invalid market data" ;; Ok tt.

(** A finding of [count] rows, if any *)
Definition counted (code : string) (severity : ValidationSeverity) (column : option string) (count : nat) : Report :=
  if bool_decide (count = 0%nat) then [] else [mkFinding code severity column count].

Definition count_rows {A} (p : A -> bool) (l : list A) : nat := length (filter (fun x => p x = true) l).
Definition is_null {A} (v : option A) : bool := match v with None => true | Some _ => false end.

(** A missing value satisfies no condition ([fill_null(False)]); Polars orders NaN above every number. *)
Definition pl_gtb (x y : F) : bool := f_ltb y x || (f_isnan x && negb (f_isnan y)).
Definition on_value {A} (p : A -> bool) (v : option A) : bool := match v with Some x => p x | None => false end.

Section validate.
Context `{Bars}.

(** [is_duplicated]: the value, missing or not, occurs more than once *)
Definition duplicated (l : list (option Z)) (v : option Z) : bool :=
  (1 <? count_rows (fun u => bool_decide (u = v)) l)%nat.

(** The findings on the timestamps, up to the comparison with the present *)
Definition timestamp_findings (values : list (option Z)) (height : nat) (reject_future : bool) (now : Z) : Report :=
  let null_timestamps := count_rows is_null values in
  counted "null_timestamps" ERROR None null_timestamps ++
  counted "duplicate_timestamps" ERROR None (count_rows (duplicated values) values) ++
  (if pl_is_sorted values then [] else [mkFinding "unordered_timestamps" ERROR None height]) ++
  (if reject_future && bool_decide (null_timestamps = 0%nat)
   then counted "future_timestamps" ERROR None (count_rows (on_value (fun t => now <? t)) values) else []).

(** One price column *)
Definition price_findings (height : nat) (max_price_change : option F) (name : string) (c : column) : result Report :=
  match c with
  | NumericColumn values =>
      let basic :=
        counted "null_prices" ERROR (Some name) (count_rows is_null values) ++
        counted "non_finite_prices" ERROR (Some name) (count_rows (on_value (fun x => negb (f_isfinite x))) values) ++
        counted "non_positive_prices" ERROR (Some name) (count_rows (on_value (fun x => f_leb x f_zero)) values) in
      match max_price_change with
      | None => Ok basic
      | Some m =>
          whenever f_leb m f_zero raise ValueError "max_price_change must be positive" ;;
          Ok (basic ++ counted "price_spikes" WARNING (Some name)
                (count_rows (on_value (fun x => pl_gtb (f_abs x) m)) (pl_pct_change values)))
      end
  | _ => Ok [mkFinding "invalid_price_type" ERROR (Some name) height]
  end.

(** One volume column *)
Definition volume_findings (height : nat) (name : string) (c : column) : Report :=
  match c with
  | NumericColumn values =>
      counted "null_volume" ERROR (Some name) (count_rows is_null values) ++
      counted "non_finite_volume" ERROR (Some name) (count_rows (on_value (fun x => negb (f_isfinite x))) values) ++
      counted "negative_volume" ERROR (Some name) (count_rows (on_value (fun x => f_ltb x f_zero)) values) ++
      counted "zero_volume" WARNING (Some name) (count_rows (on_value (fun x => f_eqb x f_zero)) values)
  | _ => [mkFinding "invalid_volume_type" ERROR (Some name) height]
  end.

(** The dates that are no sessions of the calendar *)
Definition session_findings (calendar_name : option string) (values : list (option Z)) : result Report :=
  match calendar_name with
  | None => Ok []
  | Some calendar =>
      if bool_decide (count_rows is_null values = 0%nat) then
        let dates := remove_dups (omap (fun v => pl_date <$> v) values) in
        match dates with
        | [] => Ok []
        | d :: ds =>
            valid ← mcal_valid_days calendar (foldl Z.min d ds) (foldl Z.max d ds);
            Ok (counted "non_trading_sessions" ERROR None (count_rows (fun d => negb (bool_decide (d ∈ valid))) dates))
        end
      else Ok []
  end.

Definition the_column (data : bars) (name : string) : column := default OtherColumn (dict_get (br_columns data) name).

(** [validate_market_data] *)
Definition validate_market_data (data : bars) (timestamp_column : string) (price_columns volume_columns : list string)
  (calendar_name : option string) (reject_future_timestamps : bool) (max_price_change : option F) (now : Z) : result Report :=
  let missing := filter (fun name => dict_get (br_columns data) name = None) (timestamp_column :: price_columns ++ volume_columns) in
  if negb (bool_decide (missing = [])) then Ok [mkFinding "missing_columns" ERROR None (length missing)] else
  match the_column data timestamp_column with
  | TimeColumn values =>
      if bool_decide (br_height data = 0%nat) then Ok [mkFinding "empty_data" ERROR None 0] else
      let findings := timestamp_findings values (br_height data) reject_future_timestamps now in
      findings ← foldE (fun acc name => fs ← price_findings (br_height data) max_price_change name (the_column data name); Ok (acc ++ fs))
                   findings price_columns;
      let findings := foldl (fun acc name => acc ++ volume_findings (br_height data) name (the_column data name)) findings volume_columns in
      sessions ← session_findings calendar_name values;
      Ok (findings ++ sessions)
  | _ => Ok [mkFinding "invalid_timestamp_type" ERROR (Some timestamp_column) (br_height data)]
  end.
End validate.

(** ** What a valid report means *)

(** Well-formed bars *)
Definition good_price (c : column) : Prop := match c with
  | NumericColumn values => Forall (fun v => exists x, v = Some x /\ f_isfinite x = true /\ f_leb x f_zero = false) values
  | _ => False end.
Definition good_volume (c : column) : Prop := match c with
  | NumericColumn values => Forall (fun v => exists x, v = Some x /\ f_isfinite x = true /\ f_ltb x f_zero = false) values
  | _ => False end.

Section facts.
Context `{Bars} `{!BarsLaws}.

Record good_bars (data : bars) (timestamp_column : string) (price_columns volume_columns : list string)
  (calendar_name : option string) (reject_future : bool) (now : Z) (times : list Z) : Prop := {
  gb_times : dict_get (br_columns data) timestamp_column = Some (TimeColumn (Some <$> times));
  gb_some : br_height data <> 0%nat;
  gb_increasing : StronglySorted Z.lt times;
  gb_past : reject_future = true -> Forall (fun t => t <= now) times;
  gb_prices : Forall (fun name => exists c, dict_get (br_columns data) name = Some c /\ good_price c) price_columns;
  gb_volumes : Forall (fun name => exists c, dict_get (br_columns data) name = Some c /\ good_volume c) volume_columns;
  gb_sessions : forall calendar d ds, calendar_name = Some calendar -> remove_dups (pl_date <$> times) = d :: ds ->
    exists valid, mcal_valid_days calendar (foldl Z.min d ds) (foldl Z.max d ds) = Ok valid /\ Forall (fun d => d ∈ valid) (d :: ds);
}.

Lemma count_rows_0 {A} (p : A -> bool) l : count_rows p l = 0%nat <-> Forall (fun x => p x = false) l.
Proof.
  unfold count_rows. induction l as [|x l IH]; [done|]. rewrite filter_cons, Forall_cons, <- IH.
  destruct (decide (p x = true)) as [Hx|Hx]; [rewrite Hx; simpl; naive_solver|]. apply not_true_is_false in Hx. naive_solver.
Qed.

Lemma counted_error code column n : existsb is_error (counted code ERROR column n) = false <-> n = 0%nat.
Proof. unfold counted. case_bool_decide; simpl; naive_solver. Qed.

Lemma counted_warning code column n : existsb is_error (counted code WARNING column n) = false.
Proof. unfold counted. by case_bool_decide. Qed.

Lemma no_error_app (r1 r2 : Report) : existsb is_error (r1 ++ r2) = false <-> existsb is_error r1 = false /\ existsb is_error r2 = false.
Proof. rewrite existsb_app. apply orb_false_iff. Qed.

Lemma price_valid height m name c r : price_findings height m name c = Ok r -> existsb is_error r = false <-> good_price c.
Proof.
  unfold price_findings, good_price. destruct c as [l|l|]; [intros [= <-]; naive_solver| |intros [= <-]; naive_solver].
  assert (forall k, existsb is_error (counted "null_prices" ERROR (Some name) (count_rows is_null l) ++
      counted "non_finite_prices" ERROR (Some name) (count_rows (on_value (fun x => negb (f_isfinite x))) l) ++
      counted "non_positive_prices" ERROR (Some name) (count_rows (on_value (fun x => f_leb x f_zero)) l)) = false /\
      existsb is_error (counted "price_spikes" WARNING (Some name) k) = false <->
      Forall (fun v => exists x, v = Some x /\ f_isfinite x = true /\ f_leb x f_zero = false) l) as Hbasic.
  { intros k. rewrite !no_error_app, !counted_error, counted_warning, !count_rows_0. split.
    - intros [(Hn & Hf & Hp) _]. rewrite !Forall_forall in *. intros v Hv. specialize (Hn v Hv). specialize (Hf v Hv). specialize (Hp v Hv).
      destruct v as [x|]; [|done]. exists x. simpl in *. by apply negb_false_iff in Hf.
    - intros Hl. split; [|done]. split_and!; eapply Forall_impl; try exact Hl; intros ? (x & -> & Hf & Hp); simpl; by rewrite ?Hf. }
  destruct m as [m|]; intros Hr; inv_ok Hr; [rewrite no_error_app|]; [apply Hbasic|]. by rewrite <- (Hbasic 0%nat), counted_warning; naive_solver.
Qed.

Lemma volume_valid height name c : existsb is_error (volume_findings height name c) = false <-> good_volume c.
Proof.
  unfold volume_findings, good_volume. destruct c as [l|l|]; [naive_solver| |naive_solver].
  rewrite !no_error_app, !counted_error, counted_warning, !count_rows_0. split.
  - intros (Hn & Hf & Hp & _). rewrite !Forall_forall in *. intros v Hv. specialize (Hn v Hv). specialize (Hf v Hv). specialize (Hp v Hv).
    destruct v as [x|]; [|done]. exists x. simpl in *. by apply negb_false_iff in Hf.
  - intros Hl. split_and!; try done; eapply Forall_impl; try exact Hl; intros ? (x & -> & Hf & Hp); simpl; by rewrite ?Hf.
Qed.

Lemma null_free (l : list (option Z)) : count_rows is_null l = 0%nat <-> exists times, l = Some <$> times.
Proof.
  rewrite count_rows_0. split.
  - induction 1 as [|[t|] l Hx _ [times ->]]; [by exists []|by exists (t :: times)|done].
  - intros [times ->]. apply Forall_fmap, Forall_true. done.
Qed.

Lemma filter_occurs {A} `{EqDecision A} (l : list A) v : v ∈ l -> (1 <= count_rows (fun u => bool_decide (u = v)) l)%nat.
Proof.
  intros Hv. unfold count_rows. assert (v ∈ filter (fun u => bool_decide (u = v) = true) l) as Hin
    by (apply list_elem_of_filter; split; [by apply bool_decide_eq_true|done]).
  destruct (filter _ l); [by apply elem_of_nil in Hin|simpl; lia].
Qed.

Lemma no_duplicates (l : list (option Z)) : count_rows (duplicated l) l = 0%nat <-> NoDup l.
Proof.
  rewrite count_rows_0, Forall_forall. split.
  - intros Hd. assert (forall k : list (option Z), (forall v, v ∈ k -> (count_rows (fun u => bool_decide (u = v)) k <= 1)%nat) -> NoDup k) as Hnd.
    { intros k. induction k as [|v k IH]; intros Hc; constructor.
      - intros Hv. specialize (Hc v ltac:(by left)). unfold count_rows in Hc. rewrite filter_cons in Hc.
        rewrite decide_True in Hc by by apply bool_decide_eq_true. pose proof (filter_occurs k v Hv) as Ho. unfold count_rows in Ho. simpl in Hc. lia.
      - apply IH. intros u Hu. specialize (Hc u ltac:(by right)). unfold count_rows in *. rewrite filter_cons in Hc. case_decide; simpl in Hc; lia. }
    apply Hnd. intros v Hv. specialize (Hd v Hv). unfold duplicated in Hd. by apply Nat.ltb_ge in Hd.
  - intros Hnd v Hv. unfold duplicated. apply Nat.ltb_ge. revert Hv. clear -Hnd. induction Hnd as [|u l Hu Hl IH]; intros Hv; [by apply elem_of_nil in Hv|].
    unfold count_rows in *. rewrite filter_cons. case_decide as Hd.
    + apply bool_decide_eq_true in Hd as ->. assert (filter (fun u => bool_decide (u = v) = true) l = []) as ->; [|done].
      apply elem_of_nil_inv. intros x [->%bool_decide_eq_true ?]%list_elem_of_filter. done.
    + apply IH. apply elem_of_cons in Hv as [->|Hv]; [|done]. by rewrite bool_decide_true in Hd.
Qed.

Lemma increasing_iff (times : list Z) : StronglySorted Z.lt times <-> StronglySorted Z.le times /\ NoDup times.
Proof.
  split.
  - induction 1 as [|t l Hl [IH IH'] Ht]; [by repeat constructor|]. split; constructor; try done.
    + eapply Forall_impl; [exact Ht|]. simpl. lia.
    + intros Hin. rewrite Forall_forall in Ht. specialize (Ht t Hin). lia.
  - intros [Hs Hnd]. induction Hs as [|t l Hl IH Ht]; [constructor|]. inv Hnd. constructor; [by apply IH|].
    rewrite Forall_forall in *. intros u Hu. specialize (Ht u Hu). assert (u <> t) by (by intros ->). lia.
Qed.

Lemma timestamps_valid values height reject now :
  existsb is_error (timestamp_findings values height reject now) = false <->
  exists times, values = Some <$> times /\ StronglySorted Z.lt times /\ (reject = true -> Forall (fun t => t <= now) times).
Proof.
  unfold timestamp_findings. rewrite !no_error_app, !counted_error, no_duplicates.
  assert (forall times, count_rows (on_value (fun t => now <? t)) (Some <$> times) = 0%nat <-> Forall (fun t => t <= now) times) as Hpast.
  { intros times. rewrite count_rows_0, Forall_fmap. split; intros Hf; (eapply Forall_impl; [exact Hf|]); simpl; lia. }
  split.
  - intros ([times ->]%null_free & Hnd & Hs & Hf). exists times. split; [done|]. apply NoDup_fmap in Hnd; [|apply _].
    destruct (pl_is_sorted (Some <$> times)) eqn:Hsorted; [|done]. apply pl_is_sorted_spec in Hsorted. split; [by apply increasing_iff|].
    intros ->. rewrite bool_decide_true in Hf by (apply null_free; by eexists). simpl in Hf. rewrite counted_error in Hf. by apply Hpast.
  - intros (times & -> & Hinc & Hf). apply increasing_iff in Hinc as [Hs Hnd]. split_and!; [apply null_free; by eexists|by apply NoDup_fmap_2; [apply _|]| |].
    + by rewrite (proj2 (pl_is_sorted_spec times) Hs).
    + destruct reject; [|done]. rewrite bool_decide_true by (apply null_free; by eexists). simpl. apply counted_error, Hpast. by apply Hf.
Qed.

Lemma prices_valid data m l acc r :
  foldE (fun acc name => fs ← price_findings (br_height data) m name (the_column data name); Ok (acc ++ fs)) acc l = Ok r ->
  existsb is_error r = false <-> existsb is_error acc = false /\ Forall (fun name => good_price (the_column data name)) l.
Proof.
  revert acc. induction l as [|name l IH]; intros acc; cbn [foldE]; [intros [= ->]; rewrite Forall_nil; tauto|].
  intros Hr. apply bind_Ok_inv in Hr as (acc' & Hacc & Hr). apply bind_Ok_inv in Hacc as (fs & Hfs & [= <-]).
  rewrite (IH _ Hr), no_error_app, Forall_cons, (price_valid _ _ _ _ _ Hfs). tauto.
Qed.

Lemma volumes_valid data l acc :
  existsb is_error (foldl (fun acc name => acc ++ volume_findings (br_height data) name (the_column data name)) acc l) = false <->
  existsb is_error acc = false /\ Forall (fun name => good_volume (the_column data name)) l.
Proof.
  revert acc. induction l as [|name l IH]; intros acc; cbn [foldl]; [rewrite Forall_nil; tauto|].
  rewrite IH, no_error_app, Forall_cons, volume_valid. tauto.
Qed.

Lemma sessions_valid calendar_name times r : session_findings calendar_name (Some <$> times) = Ok r ->
  existsb is_error r = false <-> forall calendar d ds, calendar_name = Some calendar -> remove_dups (pl_date <$> times) = d :: ds ->
    exists valid, mcal_valid_days calendar (foldl Z.min d ds) (foldl Z.max d ds) = Ok valid /\ Forall (fun d => d ∈ valid) (d :: ds).
Proof.
  unfold session_findings. destruct calendar_name as [calendar|]; [|intros [= <-]; naive_solver].
  rewrite bool_decide_true by (apply null_free; by eexists).
  assert (omap (fun v => pl_date <$> v) (Some <$> times) = pl_date <$> times) as ->
    by (induction times as [|t times IH]; [done|]; rewrite !fmap_cons; simpl; by f_equal).
  destruct (remove_dups (pl_date <$> times)) as [|d ds] eqn:Hdates; [intros [= <-]; naive_solver|].
  intros Hr. apply bind_Ok_inv in Hr as (valid & Hvalid & [= <-]). rewrite counted_error, count_rows_0.
  assert (Forall (fun d => negb (bool_decide (d ∈ valid)) = false) (d :: ds) <-> Forall (fun d => d ∈ valid) (d :: ds)) as ->.
  { split; intros Hf; (eapply Forall_impl; [exact Hf|]); intros x Hx; [by apply negb_false_iff, bool_decide_eq_true in Hx|by rewrite bool_decide_true]. }
  split.
  - intros Hall calendar' d' ds' Hc Hd. simplify_eq. by exists valid.
  - intros Hall. destruct (Hall calendar d ds eq_refl eq_refl) as (valid' & Hv & Hall'). rewrite Hvalid in Hv. by simplify_eq.
Qed.

(** C39: A report of [validate_market_data] is valid exactly when the bars are well
    formed: every column asked for exists, there is at least one row, no
    timestamp is missing, timestamps strictly increase and, if asked for, none
    is in the future; every price is a finite positive number and every volume
    a finite number that is not negative; and, with a calendar, every date is
    one of its sessions.  Spikes and zero volumes do not make bars invalid. *)
Theorem report_valid_iff data timestamp_column price_columns volume_columns calendar_name reject_future max_price_change now r :
  validate_market_data data timestamp_column price_columns volume_columns calendar_name reject_future max_price_change now = Ok r ->
  is_valid r = true <-> exists times, good_bars data timestamp_column price_columns volume_columns calendar_name reject_future now times.
Proof.
  unfold validate_market_data, is_valid. rewrite negb_true_iff. case_bool_decide as Hmissing; cbn [negb].
  2: { intros [= <-]. split; [done|]. intros (times & [Ht _ _ _ Hp Hv _]). exfalso. apply Hmissing. apply elem_of_nil_inv. intros name [Hno Hin]%list_elem_of_filter.
       rewrite Forall_forall in Hp, Hv. apply elem_of_cons in Hin as [->|[Hin|Hin]%elem_of_app]; [congruence| |].
       - destruct (Hp _ Hin) as (c & ? & _). congruence.
       - destruct (Hv _ Hin) as (c & ? & _). congruence. }
  assert (forall name, name ∈ timestamp_column :: price_columns ++ volume_columns ->
    dict_get (br_columns data) name = Some (the_column data name)) as Hcol.
  { intros name Hin. unfold the_column. destruct (dict_get (br_columns data) name) eqn:Hget; [done|]. exfalso.
    assert (name ∈ filter (fun name => dict_get (br_columns data) name = None) (timestamp_column :: price_columns ++ volume_columns)) as Hf
      by by apply list_elem_of_filter. rewrite Hmissing in Hf. by apply elem_of_nil in Hf. }
  pose proof (Hcol timestamp_column ltac:(by left)) as Htime.
  destruct (the_column data timestamp_column) as [values|values|] eqn:Hcolumn;
    [|intros [= <-]; split; [done|intros (times & [Ht _ _ _ _ _ _]); congruence]..].
  case_bool_decide as Hempty; [intros [= <-]; split; [done|by intros (times & [_ Hs _ _ _ _ _])]|].
  intros Hr. apply bind_Ok_inv in Hr as (fs & Hfs & Hr). apply bind_Ok_inv in Hr as (ss & Hss & [= <-]).
  rewrite no_error_app, volumes_valid, (prices_valid _ _ _ _ _ Hfs), timestamps_valid. split.
  - intros [[[(times & -> & Hinc & Hpast) Hp] Hv] Hsess]. exists times. rewrite Forall_forall in Hp, Hv. split; try done.
    + apply Forall_forall. intros name Hin. exists (the_column data name). split; [apply Hcol; right; apply elem_of_app; by left|by apply Hp].
    + apply Forall_forall. intros name Hin. exists (the_column data name). split; [apply Hcol; right; apply elem_of_app; by right|by apply Hv].
    + by apply (sessions_valid _ _ _ Hss).
  - intros (times & [Ht Hs Hinc Hpast Hp Hv Hsess]). rewrite Ht in Htime. simplify_eq. split_and!.
    + by exists times.
    + eapply Forall_impl; [exact Hp|]. intros name (c & Hc & Hg). unfold the_column. by rewrite Hc.
    + eapply Forall_impl; [exact Hv|]. intros name (c & Hc & Hg). unfold the_column. by rewrite Hc.
    + by apply (sessions_valid _ _ _ Hss).
Qed.
End facts.
End market_data.

(** ** Two days of bars *)

Module market_data_witness.

Fixpoint in_order (l : list (option Z)) : bool := match l with
  | Some a :: ((Some b :: _) as rest) => (a <=? b) && in_order rest
  | None :: rest => in_order rest
  | [Some _] | [] => true
  | Some a :: ((None :: _) as rest) => in_order rest
  end.

#[local] Instance demo_bars : Bars (F:=XQ) := {|
  pl_is_sorted := in_order;
  pl_pct_change l := match l with [] => [] | _ :: rest => None :: zip_with (fun x y => match x, y with Some x, Some y => Some (f_sub (f_div y x) f_one) | _, _ => None end) l rest end;
  pl_date t := t / 10;
  mcal_valid_days _ first last := Ok (seqZ first (last - first + 1));
|}.

Lemma in_order_Some times : in_order (Some <$> times) = true <-> StronglySorted Z.le times.
Proof.
  assert (StronglySorted Z.le times <-> Sorted Z.le times) as ->
    by (split; [apply StronglySorted_Sorted|apply Sorted_StronglySorted; intros ???; lia]).
  induction times as [|a [|b times] IH]; [split; [constructor|done]|split; [by repeat constructor|done]|].
  cbn [fmap list_fmap in_order]. change (Some b :: list_fmap _ _ Some times) with (Some <$> b :: times). rewrite andb_true_iff, IH, Z.leb_le. split.
  - intros [Hab Hs]. constructor; [done|by constructor].
  - intros Hs. apply Sorted_inv in Hs as [Hs Hhd]. by inv Hhd.
Qed.

#[local] Instance demo_bars_laws : BarsLaws (F:=XQ).
Proof. exact in_order_Some. Qed.

Definition demo (times : list (option Z)) (prices : list (option XQ)) : bars (F:=XQ) :=
  mkBars (length times) [("timestamp", TimeColumn times); ("price", NumericColumn prices)]%string.

Definition checked (data : bars (F:=XQ)) : result Report :=
  validate_market_data data "timestamp" ["price"%string] [] (Some "NYSE"%string) true (Some f_one) 100.

Example spikes_are_warnings :
  checked (demo [Some 1; Some 2; Some 12] [Some (f_of_Z 1); None; Some (f_of_Z 9)]) =
  Ok [mkFinding "null_prices" ERROR (Some "price"%string) 1].
Proof. by vm_compute. Qed.

Example every_fault :
  checked (demo [Some 200; Some 2; Some 2] [Some (f_of_Z 0); Some (f_of_Z 1); Some (f_of_Z 9)]) =
  Ok [mkFinding "duplicate_timestamps" ERROR None 2; mkFinding "unordered_timestamps" ERROR None 3;
      mkFinding "future_timestamps" ERROR None 1; mkFinding "non_positive_prices" ERROR (Some "price"%string) 1;
      mkFinding "price_spikes" WARNING (Some "price"%string) 2].
Proof. by vm_compute. Qed.

Lemma report_valid_iff_witness :
  checked (demo [Some 1; Some 12] [Some (f_of_Z 1); Some (f_of_Z 9)]) = Ok [mkFinding "price_spikes" WARNING (Some "price"%string) 1] /\
  exists times, good_bars (demo [Some 1; Some 12] [Some (f_of_Z 1); Some (f_of_Z 9)]) "timestamp" ["price"%string] [] (Some "NYSE"%string) true 100 times.
Proof.
  assert (checked (demo [Some 1; Some 12] [Some (f_of_Z 1); Some (f_of_Z 9)]) = Ok [mkFinding "price_spikes" WARNING (Some "price"%string) 1]) as Hr
    by (vm_compute; reflexivity).
  split; [exact Hr|]. exact (proj1 (report_valid_iff _ _ _ _ _ _ _ _ _ Hr) eq_refl).
Defined.
End market_data_witness.
