(* ===== verification/Bundle.v ===== *)
(** * Result bundles (backtest_result.py)

    The snapshot of a finished run, and the directory it is saved to and loaded
    from: a manifest and nine Arrow tables.  Files hold bytes and live in the file
    system of file Fs; every call may fail.  Tables are written and read by Polars
    (class [ResultFrames]); [ManifestText] is the JSON module as the loader calls
    it, [Datetimes] the parser of dates.  The tree holds files, directories and
    links only, so the check for other kinds of file has nothing to refuse. *)

From Stdlib Require Import Strings.Byte.
From S2P Require Import Prelude Numeric FactorIdentity Fs CacheFiles Ipc Configuration.

#[local] Open Scope Z_scope.

(** [polars.DataFrame], as far as bundles use it *)
Class ResultFrames (Fr : Type) := {
  fr_write_ipc : Fr -> bytes;                      (* write_ipc(path, compression="uncompressed") *)
  fr_read_ipc : bytes -> result Fr;                (* pl.read_ipc(data, memory_map=False) *)
  fr_height : Fr -> Z;
  fr_schema : Fr -> list (string * string);        (* names and printed types *)
}.

(** [json.loads] before its hooks: a mapping is its pairs in the order of the
    text, repeated keys included, and a constant such as NaN is [VOther].
    [json.dumps(value, allow_nan=False)] keeps the order of the keys. *)
Class ManifestText (F : Type) := {
  json_pairs : bytes -> result (value F);
  json_text : value F -> bytes;
}.

(** [datetime.fromisoformat(s)], as [isoformat] prints it *)
Class Datetimes := fromisoformat : string -> result string.

Definition BUNDLE_FORMAT : string := "gambit.backtest-result".
Definition BUNDLE_VERSION : Z := 4.
Definition FRAME_NAMES : list string :=
  ["trades"; "orders"; "decisions"; "pnl"; "risk_measures"; "risk_exposures"; "risk_attribution"; "stress_results";
   "validation_findings"]%string.

Definition bundle_error (msg : string) : exn := BacktestBundleError msg.

(** [_bounded_read] *)
Definition bounded_read (p : path) (maximum : Z) `{World} : ST (disk bytes) bytes :=
  query (fun t =>
    match t !! p with
    | Some (File c) => whenever maximum <? len c raise bundle_error "byte limit exceeded" ;; Ok c
    | Some Dir => Err (OSError "is a directory")
    | Some Link => Err (OSError "too many levels of symbolic links")
    | None => Err FileNotFoundError
    end).

(** ** Telemetry *)

Section telemetry.
Context {F : Type} `{PyFloat F}.

Inductive number := NumInt (z : Z) | NumFloat (x : F).
Definition negative (v : number) : bool := match v with NumInt z => z <? 0 | NumFloat x => f_ltb x f_zero end.
Definition number_value (v : number) : value F := match v with NumInt z => VInt z | NumFloat x => VFloat x end.

Record StageTelemetry := mkStage {
  sg_name : string;
  sg_elapsed_seconds : number;
  sg_cpu_seconds : number;
  sg_units : Z;
}.

(** [StageTelemetry.__post_init__] *)
Definition StageTelemetry_init (name : string) (elapsed_seconds cpu_seconds : number) (units : Z) : result StageTelemetry :=
  whenever String.eqb name "" raise ValueError "stage name must be non-empty" ;;
  whenever negative elapsed_seconds || negative cpu_seconds || (units <? 0)
    raise ValueError "stage telemetry values must be non-negative" ;;
  Ok (mkStage name elapsed_seconds cpu_seconds units).

Definition COUNTER_NAMES : list string :=
  ["timestamps_processed"; "orders_proposed"; "orders_accepted"; "orders_rejected"; "orders_filled"; "orders_cancelled";
   "orders_open"; "trades_executed"]%string.

(** The counters are in the order of [COUNTER_NAMES]. *)
Record BacktestTelemetry := mkBacktestTelemetry { te_stages : list StageTelemetry; te_counters : list Z }.

(** [BacktestTelemetry.__post_init__] *)
Definition BacktestTelemetry_init (stages : list StageTelemetry) (counters : list Z) : result BacktestTelemetry :=
  whenever existsb (fun v => v <? 0) counters raise ValueError "backtest telemetry counters must be non-negative" ;;
  unless bool_decide (NoDup (sg_name <$> stages)) raise ValueError "backtest telemetry stage names must be unique" ;;
  Ok (mkBacktestTelemetry stages counters).

(** [BacktestTelemetry.stage] *)
Definition telemetry_stage (t : BacktestTelemetry) (name : string) : result StageTelemetry :=
  match List.find (fun s => String.eqb (sg_name s) name) (te_stages t) with Some s => Ok s | None => Err (KeyError name) end.

(** [asdict(telemetry)] *)
Definition stage_asdict (s : StageTelemetry) : value F :=
  VMap [item "name" (VStr (sg_name s)); item "elapsed_seconds" (number_value (sg_elapsed_seconds s));
        item "cpu_seconds" (number_value (sg_cpu_seconds s)); item "units" (VInt (sg_units s))].
Definition telemetry_asdict (t : BacktestTelemetry) : value F :=
  VMap (item "stages" (VSeq (stage_asdict <$> te_stages t)) :: zip_with (fun name v => item name (VInt v)) COUNTER_NAMES (te_counters t)).
End telemetry.
Arguments number F : clear implicits.
Arguments StageTelemetry F : clear implicits.
Arguments BacktestTelemetry F : clear implicits.

(** ** Decoding the manifest *)

Section decode.
Context {F : Type} `{PyFloat F} `{!JsonText F bytes} `{!Sha256 bytes} `{!ManifestText F} `{!Datetimes}.
Implicit Types (v : value F) (l : list (option string * value F)).

(** [_unique_json] and [_reject_constant], which [json.loads] calls innermost first *)
Fixpoint unique_json v : result (value F) :=
  match v with
  | VSeq l => VSeq <$> mapM id (unique_json <$> l)
  | VMap l =>
      items ← mapM (fun x => v ← x.2; Ok (x.1, v)) ((fun x => (x.1, unique_json x.2)) <$> l);
      unless bool_decide (NoDup items.*1) raise bundle_error "duplicate manifest key" ;;
      Ok (VMap items)
  | VOther _ => Err (bundle_error "non-finite manifest number")
  | v => Ok v
  end.

(** [_object] *)
Definition as_object v (name : string) : result (list (option string * value F)) :=
  match v with VMap l => Ok l | _ => Err (bundle_error (name +:+ " must be an object")) end.

(** [d[key]] *)
Definition getitem l (key : string) : result (value F) :=
  match dict_get l (Some key) with Some v => Ok v | None => Err (KeyError key) end.

Definition keys_are l (names : list string) : bool :=
  forallb (fun k => bool_decide (k ∈ Some <$> names)) l.*1 && forallb (fun name => bool_decide (Some name ∈ l.*1)) names.

(** *** Tables *)

Record frame_metadata := mkFrameMetadata { fm_file : string; fm_sha256 : string; fm_rows : Z; fm_schema : list (string * string) }.

Definition short_text (v : value F) : bool := match v with VStr s => (String.length s <=? 4096)%nat | _ => false end.
Definition text_of (v : option (value F)) : string := match v with Some (VStr s) => s | _ => EmptyString end.

(** One column of a schema, after the columns [acc] *)
Definition schema_column (acc : list (string * string)) v : result (list (string * string)) :=
  column ← as_object v "schema column";
  unless keys_are column ["name"; "dtype"]%string && forallb (fun x => short_text x.2) column
    raise bundle_error "invalid schema for frame" ;;
  let name := text_of (dict_get column (Some "name"%string)) in
  whenever bool_decide (name ∈ acc.*1) raise bundle_error "invalid schema for frame" ;;
  Ok (acc ++ [(name, text_of (dict_get column (Some "dtype"%string)))]).

(** The checks of one table; [total] is the number of rows so far *)
Definition validate_frame (limits : BundleLoadLimits) (acc : list (string * frame_metadata) * Z) (x : option string * value F) :
  result (list (string * frame_metadata) * Z) :=
  let name := key_text x.1 in
  metadata ← as_object x.2 "frame";
  unless opt_eq_text (dict_get metadata (Some "file"%string)) (name +:+ ".arrow") raise bundle_error "invalid filename for frame" ;;
  digest ← match dict_get metadata (Some "sha256"%string) with
    | Some (VStr s) => unless is_digest s raise bundle_error "invalid sha256 for frame" ;; Ok s
    | _ => Err (bundle_error "invalid sha256 for frame") end;
  rows ← match dict_get metadata (Some "rows"%string) with
    | Some (VInt z) => unless (0 <=? z) && (z <=? max_table_rows limits) raise bundle_error "row count or limit invalid" ;; Ok z
    | _ => Err (bundle_error "row count or limit invalid") end;
  let total_rows := acc.2 + rows in
  whenever max_total_rows limits <? total_rows raise bundle_error "total row limit exceeded" ;;
  columns ← match dict_get metadata (Some "schema"%string) with
    | Some (VSeq l) => unless Z.of_nat (length l) <=? max_columns limits raise bundle_error "schema column limit or type invalid" ;; Ok l
    | _ => Err (bundle_error "schema column limit or type invalid") end;
  schema ← foldE schema_column [] columns;
  Ok (acc.1 ++ [(name, mkFrameMetadata (name +:+ ".arrow") digest rows schema)], total_rows).

(** [_validate_frame_manifest]: the tables with the fields it checked *)
Definition validate_frame_manifest v (limits : BundleLoadLimits) : result (list (string * frame_metadata)) :=
  frames ← as_object v "frames";
  unless keys_are frames FRAME_NAMES raise bundle_error "result bundle has an unexpected frame set" ;;
  fst <$> foldE (validate_frame limits) ([], 0) frames.

(** *** Provenance *)

Definition pyval_of v : pyval F :=
  match v with
  | VNone => PNone | VBool b => PBool b | VInt z => PInt z | VFloat x => PFloat x | VStr s => PStr s
  | VSeq _ | VMap _ | VOther _ => PObj 1
  end.

(** Keyword arguments: those not named in the signature are refused. *)
Definition keywords l (names : list string) : result unit :=
  unless forallb (fun k => bool_decide (k ∈ Some <$> names)) l.*1 raise TypeError "unexpected keyword argument" ;; Ok tt.

(** [RunConfiguration] of the items as keyword arguments *)
Definition configuration_from l : result (RunConfiguration F) :=
  _ ← keywords l ["starting_equity"; "pnl_calc_time"; "trade_lag"; "run_final_calc"; "log_trades"; "log_orders"]%string;
  configuration_of (dict_update [] ((fun x => (key_text x.1, pyval_of x.2)) <$> l)).

Definition is_text v : bool := match v with VStr _ => true | _ => false end.
Definition text_at l (key : string) : result string :=
  v ← getitem l key; match v with VStr s => Ok s | _ => Err (bundle_error ("provenance " +:+ key +:+ " must be a string")) end.

Definition decode_provenance (manifest : list (option string * value F)) : result (RunProvenance F bytes) :=
  provenance ← getitem manifest "provenance";
  data ← as_object provenance "provenance";
  configuration ← getitem data "configuration";
  settings ← as_object configuration "configuration";
  inputs ← getitem data "input_fingerprints";
  fingerprints ← as_object inputs "input_fingerprints";
  unless forallb (fun x => is_text x.2) fingerprints raise bundle_error "input fingerprints must be strings" ;;
  package_version ← text_at data "package_version";
  captured_at ← text_at data "captured_at";
  configuration_digest_text ← text_at data "configuration_digest";
  fingerprint ← text_at data "run_fingerprint";
  commit ← getitem data "git_commit";
  git_commit ← match commit with
    | VNone => Ok None | VStr s => Ok (Some s)
    | _ => Err (bundle_error "provenance git_commit must be a string or null") end;
  configuration ← configuration_from settings;
  captured_at ← fromisoformat captured_at;
  execution_manifest ← match dict_get data (Some "execution_manifest"%string) with
    | Some m => unless all_finite m raise ValueError "Out of range float values are not JSON compliant" ;; Ok (Some (json_text m))
    | None => Ok None end;
  result ← RunProvenance_init configuration ((fun x => (key_text x.1, text_of (Some x.2))) <$> fingerprints) package_version git_commit
             captured_at execution_manifest;
  digest ← configuration_digest (rp_configuration result);
  unless String.eqb digest configuration_digest_text raise bundle_error "configuration digest mismatch" ;;
  run ← run_fingerprint result;
  unless String.eqb run fingerprint raise bundle_error "provenance fingerprint mismatch" ;;
  Ok result.

(** *** Telemetry *)

(** A finite number that is not negative; [math.isfinite] of an int too large for a float raises. *)
Definition stage_seconds v : result (number F) :=
  match v with
  | VInt z =>
      whenever f_isinf (f_of_Z (F:=F) z) raise OverflowError "int too large to convert to float" ;;
      whenever z <? 0 raise bundle_error "invalid stage seconds" ;; Ok (NumInt z)
  | VFloat x => unless f_isfinite x && negb (f_ltb x f_zero) raise bundle_error "invalid stage seconds" ;; Ok (NumFloat x)
  | _ => Err (bundle_error "invalid stage seconds")
  end.

(** The checks of one stage, and the arguments [StageTelemetry] gets *)
Definition check_stage v : result (list (option string * value F) * (string * number F * number F * Z)) :=
  stage ← as_object v "telemetry stage";
  name ← getitem stage "name";
  name ← match name with VStr s => Ok s | _ => Err (bundle_error "stage name must be a string") end;
  units ← getitem stage "units";
  units ← match units with
    | VInt z => whenever z <? 0 raise bundle_error "stage units must be a nonnegative integer" ;; Ok z
    | _ => Err (bundle_error "stage units must be a nonnegative integer") end;
  elapsed ← getitem stage "elapsed_seconds";
  elapsed ← stage_seconds elapsed;
  cpu ← getitem stage "cpu_seconds";
  cpu ← stage_seconds cpu;
  Ok (stage, (name, elapsed, cpu, units)).

Definition make_stage (x : list (option string * value F) * (string * number F * number F * Z)) : result (StageTelemetry F) :=
  let '(stage, (name, elapsed, cpu, units)) := x in
  _ ← keywords stage ["name"; "elapsed_seconds"; "cpu_seconds"; "units"]%string;
  StageTelemetry_init name elapsed cpu units.

Definition counter_of v : result Z :=
  match v with
  | VInt z => whenever z <? 0 raise bundle_error "telemetry counters must be nonnegative integers" ;; Ok z
  | _ => Err (bundle_error "telemetry counters must be nonnegative integers")
  end.

Definition decode_telemetry (manifest : list (option string * value F)) : result (BacktestTelemetry F) :=
  telemetry ← getitem manifest "telemetry";
  data ← as_object telemetry "telemetry";
  stages ← getitem data "stages";
  let counters := filter (fun x => x.1 <> Some "stages"%string) data in
  stages ← match stages with VSeq l => Ok l | _ => Err (bundle_error "telemetry stages must be an array") end;
  checked ← mapM check_stage stages;
  _ ← iterE (fun x => _ ← counter_of x.2; Ok tt) counters;
  stages ← mapM make_stage checked;
  _ ← keywords counters COUNTER_NAMES;
  values ← mapM (fun name => match dict_get counters (Some name) with
                             | Some v => counter_of v
                             | None => Err (TypeError "missing required positional argument") end) COUNTER_NAMES;
  BacktestTelemetry_init stages values.
End decode.

(** ** The result *)

Section result.
Context {F Fr : Type} `{PyFloat F} `{!JsonText F bytes} `{!Sha256 bytes} `{!ManifestText F} `{!ResultFrames Fr} `{!Datetimes}.
Context `{!PolarsTypes} `{!World}.

Record BacktestResult := mkResult {
  br_provenance : RunProvenance F bytes;
  br_telemetry : BacktestTelemetry F;
  br_trades : Fr;
  br_orders : Fr;
  br_decisions : Fr;
  br_pnl : Fr;
  br_risk_measures : Fr;
  br_risk_exposures : Fr;
  br_risk_attribution : Fr;
  br_stress_results : Fr;
  br_validation_findings : Fr;
}.

(** [BacktestResult.frames]; frames are values, so that clones are equal. *)
Definition frames (r : BacktestResult) : list (string * Fr) :=
  zip FRAME_NAMES [br_trades r; br_orders r; br_decisions r; br_pnl r; br_risk_measures r; br_risk_exposures r;
                   br_risk_attribution r; br_stress_results r; br_validation_findings r].

(** ** Saving *)

(** [path.write_bytes(c)] and [write_ipc]: a file is created or truncated, then written. *)
Definition truncate_call (p : path) (t : tree bytes) : result (tree bytes * unit) :=
  unless match p with [] => false | _ :: q => is_dir t q end raise FileNotFoundError ;;
  match t !! p with
  | None | Some (File _) => Ok (<[p := File []]> t, tt)
  | Some _ => Err (OSError "not a regular file")
  end.
Definition write_file (p : path) (c : bytes) : ST (disk bytes) unit := _ ← syscall (truncate_call p); syscall (write_call p c).

(** [with path.open("rb") as file: os.fsync(file.fileno())] *)
Definition fsync_file (p : path) : ST (disk bytes) unit := _ ← query (fun t => _ ← read_file t p; Ok tt); fsync.

(** [_file_digest] *)
Definition file_digest (p : path) : ST (disk bytes) string := query (fun t => sha256_hex <$> read_file t p).

(** [_fsync_directory]: an [OSError] is ignored. *)
Definition fsync_directory_quietly (p : path) : ST (disk bytes) unit :=
  st_catch (fsync_directory p) (fun e => if is_OSError e then mret tt else st_raise e).

(** [tempfile.mkdtemp(prefix, dir)], which tries [TMP_MAX] random names *)
Definition TMP_MAX : nat := Z.to_nat 10000.
Fixpoint mkdtemp (attempts : nat) (directory : path) (prefix : string) : ST (disk bytes) path :=
  match attempts with
  | O => st_raise FileExistsError
  | S attempts =>
      suffix ← uuid4;
      let p := directory // (prefix +:+ suffix) in
      st_catch (_ ← mkdir p; mret p)
        (fun e => match e with FileExistsError => mkdtemp attempts directory prefix | _ => st_raise e end)
  end.

Definition frame_schema (frame : Fr) : value F :=
  VSeq ((fun x => VMap [item "name" (VStr x.1); item "dtype" (VStr x.2)]) <$> fr_schema frame).

Definition frame_entry (name : string) (frame : Fr) (digest : string) : option string * value F :=
  item name (VMap [item "file" (VStr (name +:+ ".arrow")); item "sha256" (VStr digest); item "rows" (VInt (fr_height frame));
                   item "schema" (frame_schema frame)]).

(** One table of the bundle *)
Definition save_frame (temporary_path : path) (frame_manifest : list (option string * value F)) (x : string * Fr) :
  ST (disk bytes) (list (option string * value F)) :=
  let '(name, frame) := x in
  let p := temporary_path // (name +:+ ".arrow") in
  _ ← write_file p (fr_write_ipc frame);
  _ ← fsync_file p;
  digest ← file_digest p;
  mret (frame_manifest ++ [frame_entry name frame digest]).

Definition payload (r : BacktestResult) (provenance : value F) (frame_manifest : list (option string * value F)) : value F :=
  VMap [item "format" (VStr BUNDLE_FORMAT); item "version" (VInt BUNDLE_VERSION); item "provenance" provenance;
        item "telemetry" (telemetry_asdict (br_telemetry r)); item "frames" (VMap frame_manifest)].

(** The body of the [try] of [save], up to the publication *)
Definition fill_bundle (r : BacktestResult) (temporary_path : path) : ST (disk bytes) unit :=
  frame_manifest ← st_fold (save_frame temporary_path) [] (frames r);
  provenance ← st_lift (provenance_snapshot (br_provenance r));
  text ← st_lift (canonical_json (payload r provenance frame_manifest));
  let manifest_path := temporary_path // "manifest.json"%string in
  _ ← write_file manifest_path (text ++ [x0a]);
  _ ← fsync_file manifest_path;
  fsync_directory_quietly temporary_path.

(** [except BaseException]: the temporary directory is removed *)
Definition remove_temporary (temporary_path : path) (e : exn) : ST (disk bytes) unit :=
  present ← query (fun t => Ok (path_exists t temporary_path));
  _ ← (if (present : bool) then
         names ← iterdir temporary_path;
         _ ← st_iter (fun name => unlink false (temporary_path // name)) names;
         rmdir temporary_path
       else mret tt);
  st_raise e.

(** [BacktestResult.save]; the destination is [parent // name]. *)
Definition BacktestResult_save (r : BacktestResult) (parent : path) (name : string) : ST (disk bytes) path :=
  let destination_path := parent // name in
  present ← query (fun t => Ok (path_exists t destination_path));
  _ ← st_guard (negb present) FileExistsError;
  _ ← mkdir_parents parent;
  temporary_path ← mkdtemp TMP_MAX parent ("." +:+ name +:+ ".");
  _ ← st_catch (
        _ ← fill_bundle r temporary_path;
        _ ← rename temporary_path destination_path;
        fsync_directory_quietly parent)
      (remove_temporary temporary_path);
  mret destination_path.

(** ** Loading *)

(** [except (OSError, ValueError, RecursionError)] around the manifest *)
Definition manifest_error (e : exn) : ST (disk bytes) (list (option string * value F)) :=
  match e with
  | BacktestBundleError _ => st_raise e
  | RecursionError => st_raise (bundle_error "cannot read result manifest")
  | _ => st_raise (if is_read_error e then bundle_error "cannot read result manifest" else e)
  end.

Definition read_manifest (limits : BundleLoadLimits) (source_path : path) : ST (disk bytes) (list (option string * value F)) :=
  st_catch (
    data ← bounded_read (source_path // "manifest.json"%string) (max_manifest_bytes limits);
    st_lift (pairs ← json_pairs data; v ← unique_json pairs; as_object v "manifest"))
    manifest_error.

Definition supported (manifest : list (option string * value F)) : bool :=
  opt_eq_text (dict_get manifest (Some "format"%string)) BUNDLE_FORMAT &&
  match dict_get manifest (Some "version"%string) with Some (VInt z) => bool_decide (z ∈ [2; 3; BUNDLE_VERSION]) | _ => false end.

Definition named_error {A} (name : string) (r : result A) : result A :=
  match r with Err (BacktestBundleError m) => Err (bundle_error ("frame " +:+ name +:+ ": " +:+ m)) | r => r end.

(** One table is read and checked; the state is the bytes read, the decoded bytes and the tables. *)
Definition read_frame (limits : BundleLoadLimits) (source_path : path) (frame_manifest : list (string * frame_metadata))
  (st : Z * Z * list (string * bytes)) (name : string) : ST (disk bytes) (Z * Z * list (string * bytes)) :=
  let '(total_bytes, total_decoded, payloads) := st in
  metadata ← st_lift (match dict_get frame_manifest name with Some m => Ok m | None => Err (KeyError name) end);
  data ← bounded_read (source_path // fm_file metadata) (Z.min (max_table_bytes limits) (max_total_bytes limits - total_bytes));
  let total_bytes := total_bytes + len data in
  _ ← st_guard (String.eqb (sha256_hex data) (fm_sha256 metadata)) (bundle_error "checksum mismatch for frame");
  decoded ← st_lift (named_error name (inspect_ipc data (fm_schema metadata) (fm_rows metadata) limits));
  let total_decoded := total_decoded + decoded in
  _ ← st_guard (total_decoded <=? max_total_decoded_bytes limits) (bundle_error "total decoded byte limit exceeded");
  mret (total_bytes, total_decoded, payloads ++ [(name, data)]).

(** One table is decoded from the bytes that were checked. *)
Definition decode_frame (frame_manifest : list (string * frame_metadata)) (payloads : list (string * bytes)) (name : string) : result Fr :=
  metadata ← match dict_get frame_manifest name with Some m => Ok m | None => Err (KeyError name) end;
  data ← match dict_get payloads name with Some d => Ok d | None => Err (KeyError name) end;
  frame ← fr_read_ipc data;
  unless (fr_height frame =? fm_rows metadata) && bool_decide (fr_schema frame = fm_schema metadata)
    raise bundle_error "shape or schema mismatch for frame" ;;
  Ok frame.

(** [BacktestResult.__init__] with the nine frames as keyword arguments *)
Definition BacktestResult_init (provenance : RunProvenance F bytes) (telemetry : BacktestTelemetry F) (l : list Fr) : result BacktestResult :=
  match l with
  | [trades; orders; decisions; pnl; risk_measures; risk_exposures; risk_attribution; stress_results; validation_findings] =>
      Ok (mkResult provenance telemetry trades orders decisions pnl risk_measures risk_exposures risk_attribution stress_results
            validation_findings)
  | _ => Err (TypeError "missing required keyword-only arguments")
  end.

(** The exceptions [load] turns into [BacktestBundleError] *)
Definition is_bundle_failure (e : exn) : bool :=
  is_OSError e ||
  match e with
  | KeyError _ | TypeError _ | ValueError _ | UnicodeDecodeError | OverflowError _ | RecursionError | PolarsError _ => true
  | _ => false
  end.

Definition decode_bundle (limits : BundleLoadLimits) (source_path : path) (manifest : list (option string * value F)) :
  ST (disk bytes) BacktestResult :=
  frame_manifest ← st_lift (v ← getitem manifest "frames"; validate_frame_manifest v limits);
  provenance ← st_lift (decode_provenance manifest);
  telemetry ← st_lift (decode_telemetry manifest);
  st ← st_fold (read_frame limits source_path frame_manifest) (0, 0, []) FRAME_NAMES;
  decoded ← st_lift (mapM (decode_frame frame_manifest st.2) FRAME_NAMES);
  st_lift (BacktestResult_init provenance telemetry decoded).

(** [BacktestResult.load] *)
Definition BacktestResult_load (source_path : path) (limits : BundleLoadLimits) : ST (disk bytes) BacktestResult :=
  manifest ← read_manifest limits source_path;
  _ ← st_guard (supported manifest) (bundle_error "unsupported backtest result bundle format or version");
  st_catch (decode_bundle limits source_path manifest)
    (fun e => st_raise (if is_bundle_failure e then bundle_error "invalid result bundle" else e)).
End result.
Arguments BacktestResult F Fr : clear implicits.
