(* ===== verification/BundleFacts.v ===== *)
(** * Theorems about result bundles

    Saving publishes a bundle whole or not at all; loading gives back what was
    saved, and refuses everything that is not a bundle within its limits. *)

From Stdlib Require Import Strings.Byte.
From S2P Require Import Prelude Numeric FactorIdentity FactorIdentityFacts Fs CacheFiles FactorStoreFacts Ipc IpcFacts Configuration ConfigurationFacts Bundle.

#[local] Open Scope Z_scope.

Lemma text_assoc (x y z : string) : ((x +:+ y) +:+ z = x +:+ (y +:+ z))%string.
Proof. induction x as [|c x IH]; [done|]. exact (f_equal (String c) IH). Qed.
Lemma text_length (x y : string) : String.length (x +:+ y) = (String.length x + String.length y)%nat.
Proof. induction x as [|c x IH]; [done|]. exact (f_equal S IH). Qed.

Section saving.
Context {F Fr : Type} `{PyFloat F} `{!JsonText F bytes} `{!Sha256 bytes} `{!ManifestText F} `{!ResultFrames Fr} `{!Datetimes}.
Context `{!PolarsTypes} `{!World}.
Implicit Types (r : BacktestResult F Fr) (t : tree bytes) (p q : path).

(** ** What saving writes *)

Definition bundle_manifest r : list (option string * value F) :=
  (fun x => frame_entry x.1 x.2 (sha256_hex (fr_write_ipc x.2))) <$> frames r.

(** The directory [p] holds the bundle of [r]. *)
Definition bundle_at r p t : Prop :=
  (exists provenance text, provenance_snapshot (br_provenance r) = Ok provenance /\
    canonical_json (payload r provenance (bundle_manifest r)) = Ok text /\
    t !! (p // "manifest.json"%string) = Some (File (text ++ [x0a]))) /\
  forall x, x ∈ frames r -> t !! (p // (x.1 +:+ ".arrow")) = Some (File (fr_write_ipc x.2)).

Lemma frames_names r : (frames r).*1 = FRAME_NAMES.
Proof. done. Qed.

(** Below a temporary directory of this destination, or on the way to it *)
Definition scratch (parent : path) (name : string) p : Prop :=
  ancestors parent p \/ exists s, under (parent // ("." +:+ name +:+ "." +:+ s)) p.

Lemma touches_write_file p c : touches (only p) (write_file p c).
Proof.
  apply touches_bind; [|intros []]; apply touches_syscall; intros t t' [].
  - unfold truncate_call. intros Hc. inv_ok Hc. destruct (t !! p) as [[]|]; simplify_eq; apply insert_outside.
  - intros (_ & ->)%write_call_spec. apply insert_outside.
Qed.

Lemma triple_write_file I P p c : (forall t t', P t -> same_outside (only p) t t' -> P t') -> (forall t, P t -> I t) ->
  triple I P (write_file p c) (fun res t => P t /\ (res = Ok tt -> t !! p = Some (File c))).
Proof.
  intros HP HI. unfold write_file. apply triple_bind with (R := fun _ => P).
  { apply triple_syscall; [done|]. intros t t' [] Ht Hc. unfold truncate_call in Hc. inv_ok Hc.
    assert (same_outside (only p) t t') as Hs by (destruct (t !! p) as [[]|]; simplify_eq; apply insert_outside). eauto. }
  intros _. apply triple_syscall; [done|]. intros t t' [] Ht [_ ->]%write_call_spec.
  assert (P (<[p := File c]> t)) by (eapply HP; [exact Ht|apply insert_outside]). split; [auto|]. by rewrite lookup_insert_eq.
Qed.

Lemma touches_quietly S p : touches S (fsync_directory_quietly p).
Proof.
  apply touches_catch; [apply touches_fsync_directory|]. intros e. apply touches_if; [apply touches_ret|apply touches_raise].
Qed.

Lemma touches_remove_temporary p e : touches (under p) (remove_temporary p e).
Proof.
  apply touches_bind; [apply touches_query|]. intros present. apply touches_bind; [|intros []; apply touches_raise].
  apply touches_if; [|apply touches_ret]. apply touches_bind; [apply touches_iterdir|]. intros names.
  apply touches_bind; [|intros []; eapply touches_weaken; [apply touches_rmdir|]; by intros ? ->; exists []].
  apply touches_iter. intros n _. eapply touches_weaken; [apply touches_unlink|]. intros ? ->. by exists [n].
Qed.

Lemma remove_temporary_raises p e d : exists e', (remove_temporary p e d).2 = Err e'.
Proof.
  assert (forall A (m : ST (disk bytes) A) k, (forall a d, exists e', (k a d : disk bytes * result unit).2 = Err e') ->
    forall d, exists e', (mbind k m d).2 = Err e') as Hbind.
  { intros A m k Hk d0. unfold mbind, ST_bind. destruct (m d0) as [d1 [a|e1]]; [apply Hk|by exists e1]. }
  unfold remove_temporary. apply Hbind. intros present d0. apply Hbind. intros [] d1. by exists e.
Qed.

Section save.
Variables (r : BacktestResult F Fr) (parent : path) (name : string) (t0 : tree bytes).
Let destination : path := parent // name.

Definition unpublished t : Prop := same_outside (scratch parent name) t0 t.
Definition published t : Prop :=
  same_outside (fun p => scratch parent name p \/ under destination p) t0 t /\ bundle_at r destination t.
Definition whole t : Prop := unpublished t \/ published t.

Lemma temporary_apart s : ~ under (parent // ("." +:+ name +:+ "." +:+ s)) destination /\
  ~ under destination (parent // ("." +:+ name +:+ "." +:+ s)).
Proof.
  assert (("." +:+ name +:+ "." +:+ s)%string <> name) as Hne.
  { intros Heq. apply (f_equal String.length) in Heq. rewrite !text_length in Heq. simpl in Heq. lia. }
  assert (forall a b, a <> b -> ~ under (parent // a) (parent // b)) as Hsib; [|by split; apply Hsib].
  intros a b Hab [[|x k] Hk]; [by injection Hk|]. injection Hk as _ Hp. apply (f_equal length) in Hp. rewrite length_app in Hp. simpl in Hp. lia.
Qed.

Lemma scratch_apart p : scratch parent name p -> ~ under destination p.
Proof.
  intros [Ha|[s Hs]] Hd.
  - apply suffix_length in Ha, Hd. simpl in Hd. lia.
  - destruct (temporary_apart s) as [Hap1 Hap2]. destruct (suffix_weak_total _ _ _ Hs Hd); [by apply Hap1|by apply Hap2].
Qed.

Lemma keeps_unpublished {A : Type} S (m : ST (disk bytes) A) : touches S m -> (forall p, S p -> scratch parent name p) ->
  triple whole unpublished m (fun _ => unpublished).
Proof.
  intros Hm HS. eapply touches_keeps; [exact Hm| |by left]. intros t t' Ht Hs p Hp. rewrite Hs by eauto. by apply Ht.
Qed.

Lemma published_keeps S t t' : (forall p, S p -> scratch parent name p) -> published t -> same_outside S t t' -> published t'.
Proof.
  intros HS [Ho Hb] Hs. split; [intros p Hp; rewrite Hs by eauto; by apply Ho|].
  assert (forall q, under destination q -> t' !! q = t !! q) as Hsame by (intros q Hq; apply Hs; intros Hsq; by apply HS, scratch_apart in Hsq).
  destruct Hb as ((v & text & Hv & Ht & Hm) & Hf). split.
  - exists v, text. split_and!; [done..|]. rewrite Hsame; [done|]. by exists ["manifest.json"%string].
  - intros x Hx. rewrite Hsame; [by apply Hf|]. by exists [(x.1 +:+ ".arrow")%string].
Qed.

Lemma keeps_published {A : Type} S (m : ST (disk bytes) A) : touches S m -> (forall p, S p -> scratch parent name p) ->
  triple whole published m (fun _ => published).
Proof. intros Hm HS. eapply touches_keeps; [exact Hm| |by right]. intros t t'. by apply published_keeps. Qed.

(** ** The temporary directory *)

Section temporary.
Variables (s : string).
Let temporary : path := parent // ("." +:+ name +:+ "." +:+ s).

Lemma temporary_scratch p : under temporary p -> scratch parent name p.
Proof. intros Hp. right. by exists s. Qed.

(** The tables written so far *)
Definition written (done : list (string * Fr)) (acc : list (option string * value F)) t : Prop :=
  unpublished t /\ acc = (fun x => frame_entry x.1 x.2 (sha256_hex (fr_write_ipc x.2))) <$> done /\
  forall x, x ∈ done -> t !! (temporary // (x.1 +:+ ".arrow")) = Some (File (fr_write_ipc x.2)).

Lemma written_stable don acc file t t' : file ∉ (fun x => (x.1 +:+ ".arrow")%string) <$> don ->
  written don acc t -> same_outside (only (temporary // file)) t t' -> written don acc t'.
Proof.
  intros Hfile (Hu & Ha & Hf) Hs. split_and!; [|done|].
  - intros p Hp. rewrite Hs; [by apply Hu|]. intros ->. apply Hp, temporary_scratch. by exists [file].
  - intros x Hx. rewrite Hs; [by apply Hf|]. intros [= Heq]. apply Hfile. rewrite <- Heq. by apply (list_elem_of_fmap_2 (fun x => (x.1 +:+ ".arrow")%string)).
Qed.

Lemma file_names_nodup : NoDup (((fun x => (x.1 +:+ ".arrow")%string) <$> frames r) ++ ["manifest.json"%string]).
Proof.
  assert ((fun x => (x.1 +:+ ".arrow")%string) <$> frames r = (fun n => (n +:+ ".arrow")%string) <$> FRAME_NAMES) as ->.
  { rewrite <- (frames_names r), <- list_fmap_compose. done. }
  by apply (bool_decide_unpack _).
Qed.

Lemma save_frame_triple don x rest acc : frames r = don ++ x :: rest ->
  triple whole (written don acc) (save_frame temporary acc x)
    (fun res t => match res with Ok acc' => written (don ++ [x]) acc' t | Err _ => unpublished t end).
Proof.
  intros Hl. pose proof file_names_nodup as Hnd. rewrite Hl, fmap_app, <- app_assoc in Hnd. destruct x as [n frame]. unfold save_frame. cbv zeta.
  assert ((n +:+ ".arrow")%string ∉ (fun x => (x.1 +:+ ".arrow")%string) <$> don) as Hn.
  { intros Hin. apply NoDup_app in Hnd as (_ & Hnd & _). apply (Hnd _ Hin). by left. }
  set (P := fun t => written don acc t /\ t !! (temporary // (n +:+ ".arrow")) = Some (File (fr_write_ipc frame))).
  apply triple_bind with (R := fun _ => P).
  { eapply triple_weaken; [apply (triple_write_file whole (written don acc))|done..|].
    - intros t t' Ht. by apply written_stable.
    - intros t (Hu & _). by left.
    - intros [[]|e] t [Hw Hf]; [split; [done|by apply Hf]|by destruct Hw]. }
  intros _. apply triple_bind with (R := fun _ => P).
  { unfold fsync_file. apply triple_bind with (R := fun _ => P); [|intros []]; apply triple_query; try done; by intros e t [[? _] _]. }
  intros _. apply triple_bind with (R := fun d t => d = sha256_hex (fr_write_ipc frame) /\ P t).
  { apply triple_query; [by intros e t [[? _] _]|]. intros t a [Hw Hf] Ha. unfold read_file in Ha. rewrite Hf in Ha. by simplify_eq/=. }
  intros d. apply triple_pure. intros ->. apply triple_ret. intros t [(Hu & Ha & Hfs) Hf]. split_and!; [done| |].
  - by rewrite fmap_app, Ha.
  - intros x [Hx|Hx]%elem_of_app; [by apply Hfs|]. by apply list_elem_of_singleton in Hx as ->.
Qed.

Lemma fill_triple : triple whole unpublished (fill_bundle r temporary)
  (fun res t => unpublished t /\ (res = Ok tt -> bundle_at r temporary t)).
Proof.
  unfold fill_bundle. apply triple_bind with (R := written (frames r)).
  { eapply triple_weaken; [apply (triple_fold whole written _ _ _ (fun _ => unpublished))|..|done|].
    - intros don x rest acc Hl. eapply triple_weaken; [by eapply save_frame_triple|done..|]. by intros [].
    - intros t Ht. split_and!; [done..|]. by intros x ?%elem_of_nil.
    - by intros [acc|e] t Ht. }
  intros acc. apply triple_bind with (R := fun v t => provenance_snapshot (br_provenance r) = Ok v /\ written (frames r) acc t).
  { apply triple_lift. intros t Ht. destruct (provenance_snapshot _) eqn:Hp; [done|by destruct Ht]. }
  intros v. apply triple_pure. intros Hv.
  apply triple_bind with (R := fun text t => canonical_json (payload r v acc) = Ok text /\ written (frames r) acc t).
  { apply triple_lift. intros t Ht. destruct (canonical_json _) eqn:Hp; [done|by destruct Ht]. }
  intros text. apply triple_pure. intros Htext. cbv zeta.
  set (P := fun t => written (frames r) acc t /\ t !! (temporary // "manifest.json"%string) = Some (File (text ++ [x0a]))).
  apply triple_bind with (R := fun _ => P).
  { eapply triple_weaken; [apply (triple_write_file whole (written (frames r) acc))|done..|].
    - intros t t'. apply written_stable. pose proof file_names_nodup as Hnd. apply NoDup_app in Hnd as (_ & Hnd & _).
      intros Hin. apply (Hnd _ Hin). by left.
    - intros t (Hu & _). by left.
    - intros [[]|e] t [Hw Hf]; [split; [done|by apply Hf]|by destruct Hw]. }
  intros _. apply triple_bind with (R := fun _ => P).
  { unfold fsync_file. apply triple_bind with (R := fun _ => P); [|intros []]; apply triple_query; try done; by intros e t [[? _] _]. }
  intros _. eapply triple_weaken; [apply (touches_keeps (fun _ => False) whole P)|done..|].
  - apply touches_quietly.
  - intros t t' [(Hu & Ha & Hf) Hm] Hs. split; [split_and!; [|done|]|]; [intros p Hp|intros x Hx|]; rewrite Hs by tauto; auto.
  - intros t [[Hu _] _]. by left.
  - intros res t [(Hu & -> & Hf) Hm]. split; [done|]. intros _. split; [|exact Hf]. by exists v, text.
Qed.

Lemma publish_whole t t' u : unpublished t -> bundle_at r temporary t -> rename_call temporary destination t = Ok (t', u) -> published t'.
Proof.
  intros Hu Hb (_ & _ & ->)%rename_call_spec. destruct (temporary_apart s) as [Hap1 Hap2]. split.
  - intros p Hp. rewrite lookup_move by done. rewrite (proj2 (below_None _ _)) by tauto.
    rewrite decide_False by (intros Hup; apply Hp; left; by apply temporary_scratch). apply Hu. tauto.
  - assert (forall n, move temporary destination t !! (destination // n) = t !! (temporary // n)) as Hmove.
    { intros n. rewrite lookup_move by done. change (destination // n) with ([n] ++ destination). by rewrite below_app. }
    destruct Hb as ((v & text & Hv & Ht & Hm) & Hf). split; [exists v, text; by rewrite Hmove|]. intros x Hx. rewrite Hmove. by apply Hf.
Qed.
End temporary.

Lemma mkdtemp_triple n : triple whole unpublished (mkdtemp n parent ("." +:+ name +:+ "."))
  (fun res t => unpublished t /\ forall p, res = Ok p -> exists s, p = parent // ("." +:+ name +:+ "." +:+ s)).
Proof.
  induction n as [|n IH]; simpl; [by apply triple_raise|].
  apply triple_bind with (R := fun _ => unpublished); [by apply triple_uuid4|]. intros s.
  assert (("." +:+ name +:+ ".") +:+ s = "." +:+ name +:+ "." +:+ s)%string as Hs by (by rewrite !text_assoc).
  apply triple_catch with (R := fun _ => unpublished).
  - apply triple_bind with (R := fun _ => unpublished).
    + eapply triple_weaken; [eapply keeps_unpublished; [apply touches_mkdir|]|done..|]; [|by intros []].
      intros p ->. right. exists s. exists []. by rewrite Hs.
    + intros []. apply triple_ret. intros t Ht. split; [done|]. intros p [= <-]. exists s. by rewrite Hs.
  - intros e. destruct e; try by apply triple_raise. apply IH.
Qed.

Lemma save_triple : triple whole unpublished (BacktestResult_save r parent name)
  (fun res t => match res with Ok p => p = destination /\ published t | Err _ => whole t end).
Proof.
  unfold BacktestResult_save. cbv zeta. apply triple_bind with (R := fun _ => unpublished).
  { apply triple_query; [by left|done]. }
  intros present. apply triple_bind with (R := fun _ => unpublished); [apply triple_guard; [done|by left]|].
  intros []. apply triple_bind with (R := fun _ => unpublished).
  { eapply triple_weaken; [eapply keeps_unpublished; [apply touches_mkdir_parents|by left]|done..|]. intros [] t Ht; [done|by left]. }
  intros []. eapply triple_bind with (R := fun p t => (exists s, p = parent // ("." +:+ name +:+ "." +:+ s)) /\ unpublished t).
  { eapply triple_weaken; [apply mkdtemp_triple|done..|]. intros [p|e] t [Hu Hp]; [split; [by apply Hp|done]|by left]. }
  intros p. apply triple_pure. intros [s ->]. apply triple_bind with (R := fun _ => published); [|intros []; by apply triple_ret].
  apply triple_catch with (R := fun _ => whole).
  - apply triple_bind with (R := fun _ t => unpublished t /\ bundle_at r (parent // ("." +:+ name +:+ "." +:+ s)) t).
    { eapply triple_weaken; [apply fill_triple|done..|]. intros [[]|e] t [Hu Hb]; [split; [done|by apply Hb]|by left]. }
    intros []. apply triple_bind with (R := fun _ => published).
    { apply triple_syscall; [intros e t [Hu _]; by left|]. intros t t' u [Hu Hb] Hr.
      pose proof (publish_whole s t t' u Hu Hb Hr). split; [by right|done]. }
    intros []. eapply triple_weaken; [apply (keeps_published (fun _ => False)); [apply touches_quietly|done]|done..|].
    intros [] t Ht; [done|by right].
  - intros e d Hd. pose proof (remove_temporary_raises (parent // ("." +:+ name +:+ "." +:+ s)) e d) as [e' He'].
    assert (forall Q, Q (now d) -> triple whole Q (remove_temporary (parent // ("." +:+ name +:+ "." +:+ s)) e) (fun _ => Q) ->
      (forall t, Q t -> whole t) -> let '(d', res) := remove_temporary (parent // ("." +:+ name +:+ "." +:+ s)) e d in
      match res with Ok _ => published (now d') | Err _ => whole (now d') end /\ exists ts, trace d' = trace d ++ ts /\ Forall whole ts) as Hgo.
    { intros Q HQ Ht Hw. specialize (Ht d HQ). destruct (remove_temporary _ e d) as [d' res]. simpl in He'. subst res. naive_solver. }
    destruct Hd as [Hu|Hp]; eapply Hgo; [exact Hu| |by left|exact Hp| |by right].
    + eapply keeps_unpublished; [apply touches_remove_temporary|apply temporary_scratch].
    + eapply keeps_published; [apply touches_remove_temporary|apply temporary_scratch].
Qed.
End save.

Lemma existing_refused {A : Type} (f : tree bytes -> bool) (k : unit -> ST (disk bytes) A) e d d' res :
  (present ← query (fun t => Ok (f t)); st_guard (negb present) e ≫= k) d = (d', res) -> f (now d) = true ->
  now d' = now d /\ exists e, res = Err e.
Proof.
  unfold mbind, ST_bind, query. intros Hd Hf. rewrite Hf in Hd. destruct (fault (clock d)); simplify_eq/=; eauto.
Qed.

(** Saving a result is atomic.  If something is at the destination, nothing
    changes.  Otherwise, at every moment and so whenever the process dies, and
    whatever call fails, either the destination is as it was, or the whole
    bundle is there: the nine tables and a manifest with their digests.  Nothing
    else changes but the directories made on the way and the temporary directory,
    whose names no other path has.  When [save] returns, the bundle is there. *)
Theorem save_atomic r parent name d :
  let '(d', res) := BacktestResult_save r parent name d in
  (path_exists (now d) (parent // name) = true -> now d' = now d /\ exists e, res = Err e) /\
  (exists ts, trace d' = trace d ++ ts /\ Forall (whole r parent name (now d)) ts) /\
  match res with Ok p => p = parent // name /\ published r parent name (now d) (now d') | Err _ => whole r parent name (now d) (now d') end.
Proof.
  pose proof (save_triple r parent name (now d) d) as Hs. destruct (BacktestResult_save r parent name d) as [d' res] eqn:Hd.
  destruct Hs as (Hres & ts & Ht); [done|]. split_and!; [|by exists ts|done].
  intros Hp. unfold BacktestResult_save in Hd. cbv zeta in Hd. apply existing_refused in Hd; [done|exact Hp].
Qed.
End saving.

(** ** Loading: every failure is a [BacktestBundleError] *)

(** What the documentation of the calls says they raise *)
Class BundleErrors (F Fr : Type) `{PyFloat F} `{!JsonText F bytes} `{!ManifestText F} `{!ResultFrames Fr} `{!Datetimes} : Prop := {
  json_pairs_errors c e : json_pairs (F:=F) c = Err e -> is_read_error e = true \/ e = RecursionError;
  json_loads_errors c e : json_loads (F:=F) (T:=bytes) c = Err e -> is_read_error e = true \/ e = RecursionError;
  fr_read_ipc_errors c e : fr_read_ipc (Fr:=Fr) c = Err e -> exists m, e = PolarsError m;
  fromisoformat_errors s e : fromisoformat s = Err e -> exists m, e = ValueError m;
}.

Definition failure (e : exn) : Prop := is_bundle_failure e = true \/ exists m, e = BacktestBundleError m.
Definition failing {A} (P : exn -> Prop) (r : result A) : Prop := forall e, r = Err e -> P e.
Abbreviation fails := (failing failure).
Definition is_bundle_error (e : exn) : Prop := exists m, e = BacktestBundleError m.

Section failing.
Context (P : exn -> Prop).
Lemma fails_Ok {A} (a : A) : failing P (Ok a).
Proof. done. Qed.
Lemma fails_bind {A B} (r : result A) (k : A -> result B) : failing P r -> (forall a, failing P (k a)) -> failing P (r ≫= k).
Proof. intros Hr Hk. destruct r as [a|e]; [apply Hk|]. intros e' [= <-]. by apply Hr. Qed.
Lemma fails_guard {A} b e (k : unit -> result A) : P e -> failing P (k tt) -> failing P (guard_ok b e ≫= k).
Proof. intros He Hk. destruct b; [exact Hk|]. by intros e' [= <-]. Qed.
Lemma fails_fmap {A B} (f : A -> B) (r : result A) : failing P r -> failing P (f <$> r).
Proof. intros Hr. destruct r as [a|e]; [done|]. intros e' [= <-]. by apply Hr. Qed.
Lemma fails_mapM {A B} (f : A -> result B) l : (forall x, x ∈ l -> failing P (f x)) -> failing P (mapM f l).
Proof.
  intros Hf. induction l as [|x l IH]; [done|]. simpl. apply fails_bind; [apply Hf; by left|]. intros y.
  apply fails_bind; [|done]. apply IH. intros z Hz. apply Hf. by right.
Qed.
Lemma fails_foldE {A B} (f : B -> A -> result B) acc l : (forall b x, failing P (f b x)) -> failing P (foldE f acc l).
Proof. intros Hf. revert acc. induction l as [|x l IH]; intros acc; [done|]. cbn [foldE]. by apply fails_bind. Qed.
Lemma fails_iterE {A} (f : A -> result unit) l : (forall x, failing P (f x)) -> failing P (iterE f l).
Proof. intros Hf. induction l as [|x l IH]; [done|]. cbn [iterE]. by apply fails_bind. Qed.
End failing.

Create HintDb bundle.
Ltac fails_step :=
  lazymatch goal with
  | |- failing _ (Ok _) => apply fails_Ok
  | |- failing _ (Err _) => let e := fresh in let He := fresh in intros e He; injection He as <-
  | |- failing _ (guard_ok _ _ ≫= _) => apply fails_guard
  | |- failing _ (_ ≫= _) => apply fails_bind; [|intros ?]
  | |- failing _ (_ <$> _) => apply fails_fmap
  | |- failing _ (mapM _ _) => apply fails_mapM; intros ? _
  | |- failing _ (foldE _ _ _) => apply fails_foldE; intros ? ?
  | |- failing _ (iterE _ _) => apply fails_iterE; intros ?
  | |- failing _ (match ?x with _ => _ end) => destruct x
  | |- failing _ (let _ := _ in _) => intros ?
  | |- failing _ _ => solve [eauto with bundle nocore]
  | |- _ => solve [eexists; reflexivity | left; reflexivity | right; eexists; reflexivity]
  end.
Ltac fails_tac := repeat fails_step.

Section loading.
Context {F Fr : Type} `{PyFloat F} `{!JsonText F bytes} `{!Sha256 bytes} `{!ManifestText F} `{!ResultFrames Fr} `{!Datetimes}.
Context `{!PolarsTypes} `{!World} `{!BundleErrors F Fr}.
Implicit Types (r : BacktestResult F Fr) (t : tree bytes) (p : path) (l : list (option string * value F)).

Lemma read_error_failure e : is_read_error e = true \/ e = RecursionError -> failure e.
Proof. intros [He| ->]; [left|by left]. destruct e; try done. Qed.

Lemma fails_json_loads (c : bytes) : fails (json_loads (F:=F) c).
Proof. intros e He. by eapply read_error_failure, json_loads_errors. Qed.
Lemma fails_fromisoformat s : fails (fromisoformat s).
Proof. intros e He. apply (fromisoformat_errors (F:=F) (Fr:=Fr)) in He as [m ->]. by left. Qed.
Lemma fails_read_ipc c : fails (fr_read_ipc (Fr:=Fr) c).
Proof. intros e He. apply (fr_read_ipc_errors (F:=F)) in He as [m ->]. by left. Qed.
Lemma fails_getitem l k : fails (getitem l k).
Proof. unfold getitem. fails_tac. Qed.
Lemma fails_as_object (v : value F) n : fails (as_object v n).
Proof. unfold as_object. fails_tac. Qed.
Hint Resolve fails_json_loads fails_fromisoformat fails_read_ipc fails_getitem fails_as_object : bundle.

Lemma fails_text_at l k : fails (text_at l k).
Proof. unfold text_at. fails_tac. Qed.
Lemma fails_keywords l names : fails (keywords l names).
Proof. unfold keywords. fails_tac. Qed.
Lemma fails_canonical_json (v : value F) : fails (canonical_json (T:=bytes) v).
Proof. unfold canonical_json. fails_tac. Qed.
Lemma fails_digest_of (v : value F) : fails (digest_of (T:=bytes) v).
Proof. apply fails_fmap, fails_canonical_json. Qed.
Lemma fails_py_float (v : pyval F) : is_real v = true -> fails (py_float v).
Proof. destruct v; try done; intros _; unfold py_float; fails_tac. Qed.
Hint Resolve fails_text_at fails_keywords fails_canonical_json fails_digest_of : bundle.

Lemma fails_configuration l : fails (configuration_from l).
Proof.
  unfold configuration_from, configuration_of, RunConfiguration_init. apply fails_bind; [apply fails_keywords|]. intros _.
  apply fails_bind.
  { unfold check_starting_equity. do 2 (apply fails_guard; [by left|]). fails_tac; unfold py_float; fails_tac. }
  intros e. unfold check_integer, check_bool. fails_tac.
Qed.
Lemma fails_manifest_items (q : RunProvenance F bytes) : fails (manifest_items q).
Proof. unfold manifest_items. fails_tac. Qed.
Hint Resolve fails_configuration fails_manifest_items : bundle.
Lemma fails_fingerprint (q : RunProvenance F bytes) : fails (run_fingerprint q).
Proof. unfold run_fingerprint, run_identity. fails_tac. Qed.
Hint Resolve fails_fingerprint : bundle.

Lemma fails_provenance l : fails (decode_provenance l).
Proof. unfold decode_provenance, RunProvenance_init, configuration_digest. fails_tac. Qed.
Lemma fails_telemetry l : fails (decode_telemetry l).
Proof.
  unfold decode_telemetry, check_stage, make_stage, stage_seconds, counter_of, StageTelemetry_init, BacktestTelemetry_init. fails_tac.
Qed.
Lemma fails_frame_manifest (v : value F) limits : fails (validate_frame_manifest v limits).
Proof. unfold validate_frame_manifest, validate_frame, schema_column. fails_tac. Qed.
Lemma fails_decode_frame fm payloads name : fails (decode_frame (Fr:=Fr) fm payloads name).
Proof. unfold decode_frame. fails_tac. Qed.
Lemma fails_init q (tel : BacktestTelemetry F) (x : list Fr) : fails (BacktestResult_init q tel x).
Proof. unfold BacktestResult_init. fails_tac. Qed.
Lemma fails_inspect limits : BundleLoadLimits_post_init limits = Ok tt ->
  forall name data schema rows, fails (named_error name (inspect_ipc data schema rows limits)).
Proof.
  intros Hl name data schema rows e He. pose proof (checks_inspect_ipc data schema rows limits Hl) as Hc.
  destruct (inspect_ipc _ _ _ _); [done|]. destruct Hc as [m ->]. simpl in He. injection He as <-. right. by eexists.
Qed.

Lemma unique_json_error (v : value F) : failing is_bundle_error (unique_json v).
Proof.
  induction v as [v Hs Hm|l IH|l IH] using value_nested_ind.
  - destruct v; try done; [by destruct (Hs l)|by destruct (Hm l)|]. cbn [unique_json]. fails_tac.
  - cbn [unique_json]. apply fails_fmap, fails_mapM. intros x Hx. rewrite Forall_forall in IH.
    apply list_elem_of_fmap in Hx as (v & -> & Hv). by apply IH.
  - cbn [unique_json]. apply fails_bind; [|intros items; fails_tac]. apply fails_mapM. intros x Hx. rewrite Forall_forall in IH.
    apply list_elem_of_fmap in Hx as (v & -> & Hv). apply fails_bind; [by apply IH|done].
Qed.

(** What [unique_json] returns has each key once. *)
Lemma unique_json_keys (v v' : value F) : unique_json v = Ok v' -> unique_keys v' = true.
Proof.
  revert v'. induction v as [v Hs Hm|l IH|l IH] using value_nested_ind; intros v' Hv.
  - destruct v; simplify_eq/=; try done; [by destruct (Hs l)|by destruct (Hm l)].
  - cbn [unique_json] in Hv. destruct (mapM id _) as [items|] eqn:Hi; simplify_eq/=. apply mapM_Ok, Forall2_fmap_l in Hi.
    apply forallb_Forall_true. induction Hi as [|x y l items Hx _ IHi]; [constructor|]. apply Forall_cons in IH as [IHx IH]. constructor; auto.
  - cbn [unique_json] in Hv. inv_ok Hv. cbn [unique_keys]. rewrite Hguard. apply forallb_Forall_true. apply mapM_Ok, Forall2_fmap_l in Hbind.
    clear Hguard. induction Hbind as [|x y l items Hx _ IHi]; [constructor|]. apply Forall_cons in IH as [IHx IH]. constructor; [|auto]. simpl in Hx. inv_ok Hx. eauto.
Qed.

(** *** Computations that only read *)

Definition reads {A : Type} t (m : ST (disk bytes) A) (R : A -> Prop) : Prop :=
  forall d, now d = t -> let '(d', res) := m d in now d' = t /\ match res with Ok a => R a | Err e => failure e end.

Lemma reads_bind {A B : Type} t (m : ST (disk bytes) A) (k : A -> ST (disk bytes) B) R Q :
  reads t m R -> (forall a, R a -> reads t (k a) Q) -> reads t (m ≫= k) Q.
Proof.
  intros Hm Hk d Hd. specialize (Hm d Hd). unfold mbind, ST_bind. destruct (m d) as [d1 [a|e]]; [|done]. destruct Hm as [Ht Ha]. by apply Hk.
Qed.
Lemma reads_ret {A : Type} t (a : A) (R : A -> Prop) : R a -> reads t (mret a) R.
Proof. by intros Ha d Hd. Qed.
Lemma reads_lift {A : Type} t (x : result A) (R : A -> Prop) : fails x -> (forall a, x = Ok a -> R a) -> reads t (st_lift x) R.
Proof. intros Hf HR d Hd. split; [done|]. destruct x; [by apply HR|by apply Hf]. Qed.
Lemma reads_guard t b e : failure e -> reads t (st_guard b e) (fun _ => b = true).
Proof. intros He d Hd. by destruct b. Qed.

(** A call that fails raises an [OSError]. *)
Definition calm : Prop := forall n e, fault n = Some e -> is_OSError e = true.
Hypothesis Hcalm : calm.

Lemma OSError_failure e : is_OSError e = true -> failure e.
Proof. intros He. left. unfold is_bundle_failure. by rewrite He. Qed.

Lemma reads_bounded t p maximum : reads t (bounded_read p maximum) (fun c => t !! p = Some (File c) /\ len c <= maximum).
Proof.
  intros d <-. unfold bounded_read, query. destruct (fault (clock d)) as [e|] eqn:Hf.
  { split; [done|]. by eapply OSError_failure, Hcalm. }
  split; [done|]. destruct (now d !! p) as [[c| |]|]; [|by left..]. destruct (maximum <? len c) eqn:Hc; simpl; [right; by eexists|].
  apply Z.ltb_ge in Hc. done.
Qed.

Definition decode_manifest (c : bytes) : result (list (option string * value F)) :=
  pairs ← json_pairs c; v ← unique_json pairs; as_object v "manifest".

(** Reading the manifest raises nothing but [BacktestBundleError]. *)
Lemma decode_manifest_error c e : decode_manifest c = Err e ->
  is_read_error e = true \/ e = RecursionError \/ is_bundle_error e.
Proof.
  unfold decode_manifest. destruct (json_pairs c) as [v|e1] eqn:Hj; cbn [mbind result_bind].
  - intros He. do 2 right. revert He. apply (fails_bind is_bundle_error); [apply unique_json_error|]. intros v'. unfold as_object. fails_tac.
  - intros [= <-]. apply (json_pairs_errors (Fr:=Fr)) in Hj. tauto.
Qed.

Lemma manifest_error_spec e d : is_read_error e = true \/ e = RecursionError \/ is_bundle_error e ->
  exists m, manifest_error (F:=F) e d = (d, Err (BacktestBundleError m)).
Proof.
  unfold manifest_error. intros [Hr|[->|[m ->]]]; [|by eexists..]. rewrite Hr. destruct e; try discriminate Hr; by eexists.
Qed.

Definition manifest_read limits src t l : Prop := exists c, t !! (src // "manifest.json"%string) = Some (File c) /\
  len c <= max_manifest_bytes limits /\ decode_manifest c = Ok l.

Lemma reads_manifest limits src d : let '(d', res) := read_manifest limits src d in now d' = now d /\
  match res with Ok l => manifest_read limits src (now d) l | Err e => is_bundle_error e end.
Proof.
  unfold read_manifest, st_catch, mbind at 1, ST_bind at 1. pose proof (reads_bounded (now d) (src // "manifest.json"%string) (max_manifest_bytes limits) d eq_refl) as Hb.
  destruct (bounded_read _ _ d) as [d1 [c|e]] eqn:Hr.
  - destruct Hb as [Hnow [Hc Hl]]. unfold st_lift. fold (decode_manifest c). destruct (decode_manifest c) as [l|e] eqn:Hd; cbn.
    + split; [done|]. by exists c.
    + destruct (manifest_error_spec e d1 (decode_manifest_error c e Hd)) as [m ->]. split; [done|]. by exists m.
  - destruct Hb as [Hnow He]. destruct (manifest_error_spec e d1) as [m ->]; [|by split; [|exists m]].
    unfold bounded_read, query in Hr. destruct (fault (clock d)) as [e'|] eqn:Hf.
    + simplify_eq. left. unfold is_read_error. by rewrite (Hcalm _ _ Hf).
    + injection Hr as _ Hr. destruct (now d !! _) as [[c0| |]|]; simplify_eq; [|by left..].
      destruct (max_manifest_bytes limits <? len c0); simplify_eq/=. do 2 right. by eexists.
Qed.

(** *** The tables *)

Definition rows_of (fm : list (string * frame_metadata)) : Z := sumZ ((fun x => fm_rows x.2) <$> fm).

Lemma validate_frame_spec limits acc (x : option string * value F) acc' : validate_frame limits acc x = Ok acc' ->
  exists m, acc' = (acc.1 ++ [(key_text x.1, m)], acc.2 + fm_rows m) /\ fm_file m = (key_text x.1 +:+ ".arrow")%string /\
    acc'.2 <= max_total_rows limits.
Proof.
  unfold validate_frame. cbv zeta. intros Hv. repeat first [apply guard_bind_Ok in Hv as [? Hv] | apply bind_Ok_inv in Hv as (? & ? & Hv)].
  injection Hv as <-. bools. eexists (mkFrameMetadata _ _ _ _). split_and!; [reflexivity|done|]. simpl. lia.
Qed.

Lemma validate_frames_spec limits l acc fm total : foldE (validate_frame limits) acc l = Ok (fm, total) ->
  exists new, fm = acc.1 ++ new /\ new.*1 = key_text <$> l.*1 /\ Forall (fun x => fm_file x.2 = (x.1 +:+ ".arrow")%string) new /\
    total = acc.2 + rows_of new /\ (l <> [] -> total <= max_total_rows limits).
Proof.
  revert acc. induction l as [|x l IH]; intros acc Hf; cbn [foldE] in Hf.
  - injection Hf as ->. exists []. unfold rows_of. simpl. rewrite sumZ_nil, app_nil_r. split_and!; [done|done|constructor|lia|done].
  - apply bind_Ok_inv in Hf as (acc' & Hacc & Hf). destruct (validate_frame_spec _ _ _ _ Hacc) as (m & -> & Hm & Hmax).
    destruct (IH _ Hf) as (new & Hfm & Hk & Hall & Ht & Hle). exists ((key_text x.1, m) :: new). simpl in *.
    unfold rows_of in *. split_and!; [by rewrite Hfm, <- app_assoc|by f_equal|by constructor|rewrite fmap_cons, sumZ_cons; simpl; lia|].
    intros _. destruct l; [simpl in Hf; injection Hf as ? ?; lia|by apply Hle].
Qed.

Lemma frame_manifest_spec (v : value F) limits fm : validate_frame_manifest v limits = Ok fm ->
  exists l, v = VMap l /\ keys_are l FRAME_NAMES = true /\ fm.*1 = key_text <$> l.*1 /\
    Forall (fun x => fm_file x.2 = (x.1 +:+ ".arrow")%string) fm /\ rows_of fm <= max_total_rows limits.
Proof.
  unfold validate_frame_manifest. intros Hv. apply bind_Ok_inv in Hv as (l & Hl & Hv). apply guard_bind_Ok in Hv as [Hk Hv].
  unfold as_object in Hl. destruct v as [| | | | | |l'|]; simplify_eq. exists l.
  destruct (foldE _ _ l) as [[fm' total]|] eqn:Hf; simplify_eq/=.
  destruct (validate_frames_spec _ _ _ _ _ Hf) as (new & -> & Hkeys & Hall & Ht & Hle). simpl in *. split_and!; try done.
  assert (l <> []) as Hne by (intros ->; discriminate Hk). specialize (Hle Hne). lia.
Qed.

Definition frame_read limits src t fm (name : string) (y : bytes * Z) : Prop := exists m,
  dict_get fm name = Some m /\ t !! (src // fm_file m) = Some (File y.1) /\ len y.1 <= max_table_bytes limits /\
  sha256_hex y.1 = fm_sha256 m /\ inspect_ipc y.1 (fm_schema m) (fm_rows m) limits = Ok y.2.

Lemma reads_frame limits src t fm st name : BundleLoadLimits_post_init limits = Ok tt ->
  reads t (read_frame limits src fm st name) (fun st' => exists y, frame_read limits src t fm name y /\
    st' = (st.1.1 + len y.1, st.1.2 + y.2, st.2 ++ [(name, y.1)]) /\ st'.1.1 <= max_total_bytes limits /\ st'.1.2 <= max_total_decoded_bytes limits).
Proof.
  intros Hl. destruct st as [[total decoded] payloads]. unfold read_frame.
  eapply reads_bind; [apply reads_lift with (R := fun m => dict_get fm name = Some m)|].
  { fails_tac. }
  { intros m. by destruct (dict_get fm name); intros; simplify_eq. }
  intros m Hm. eapply reads_bind; [apply reads_bounded|]. intros data [Hd Hlen]. cbv zeta.
  eapply reads_bind; [apply reads_guard; fails_tac|]. intros [] Hsha. apply String.eqb_eq in Hsha.
  eapply reads_bind; [apply reads_lift with (R := fun n => inspect_ipc data (fm_schema m) (fm_rows m) limits = Ok n)|].
  { by apply fails_inspect. }
  { intros n. unfold named_error. destruct (inspect_ipc _ _ _ _) as [|e]; [by intros [= <-]|by destruct e]. }
  intros n Hn. eapply reads_bind; [apply reads_guard; fails_tac|]. intros [] Htot. apply Z.leb_le in Htot.
  apply reads_ret. exists (data, n). split; [exists m; simpl; split_and!; try done; lia|]. simpl in *. split_and!; [done|lia|lia].
Qed.

Lemma reads_frames limits src t fm names st : BundleLoadLimits_post_init limits = Ok tt ->
  reads t (st_fold (read_frame limits src fm) st names) (fun st' => exists tables,
    Forall2 (frame_read limits src t fm) names tables /\ st'.2 = st.2 ++ zip names tables.*1 /\
    st'.1.1 = st.1.1 + sumZ (len <$> tables.*1) /\ st'.1.2 = st.1.2 + sumZ tables.*2 /\
    (names <> [] -> st'.1.1 <= max_total_bytes limits /\ st'.1.2 <= max_total_decoded_bytes limits)).
Proof.
  intros Hl. revert st. induction names as [|name names IH]; intros st; simpl.
  - apply reads_ret. exists []. simpl. rewrite sumZ_nil, app_nil_r. split_and!; [constructor|done|lia|lia|done].
  - eapply reads_bind; [by apply reads_frame|]. intros st' (y & Hy & Hst & Hb & Hd). intros d Ht. specialize (IH st' d Ht).
    destruct (st_fold _ _ _ d) as [d' [st''|e]]; [|done]. destruct IH as (Ht' & tables & Hf & Hp2 & Hp11 & Hp12 & Hle). split; [done|].
    exists (y :: tables). rewrite !fmap_cons, !sumZ_cons. subst st'. simpl in *. split_and!; [by constructor|by rewrite Hp2, <- app_assoc|lia|lia|].
    intros _. destruct names; [|by apply Hle]. inv Hf. simpl in *. rewrite sumZ_nil in *. lia.
Qed.

(** *** What a loaded result is *)

Lemma decode_provenance_spec l q : decode_provenance l = Ok q -> exists data fp,
  getitem l "provenance" = Ok (VMap data) /\ text_at data "run_fingerprint" = Ok fp /\ run_fingerprint q = Ok fp /\
  valid_configuration (rp_configuration q).
Proof.
  unfold decode_provenance. intros Hq.
  apply bind_Ok_inv in Hq as (v & Hv & Hq). apply bind_Ok_inv in Hq as (data & Hdata & Hq). unfold as_object in Hdata.
  destruct v as [| | | | | |data'|]; simplify_eq. exists data.
  do 4 apply bind_Ok_inv in Hq as (? & _ & Hq). apply guard_bind_Ok in Hq as [_ Hq].
  do 3 apply bind_Ok_inv in Hq as (? & _ & Hq). apply bind_Ok_inv in Hq as (fp & Hfp & Hq).
  do 2 apply bind_Ok_inv in Hq as (? & _ & Hq). apply bind_Ok_inv in Hq as (c & Hc & Hq).
  do 2 apply bind_Ok_inv in Hq as (? & _ & Hq). apply bind_Ok_inv in Hq as (q' & Hinit & Hq).
  apply bind_Ok_inv in Hq as (? & _ & Hq). apply guard_bind_Ok in Hq as [_ Hq].
  apply bind_Ok_inv in Hq as (run & Hrun & Hq). apply guard_bind_Ok in Hq as [Heq%String.eqb_eq Hq].
  injection Hq as ->. subst run. exists fp. split_and!; [done..|].
  assert (rp_configuration q = c) as ->.
  { unfold RunProvenance_init in Hinit. apply bind_Ok_inv in Hinit as (? & _ & Hinit). by injection Hinit as <-. }
  unfold configuration_from, configuration_of in Hc. apply bind_Ok_inv in Hc as (? & _ & Hc). by eapply init_valid.
Qed.

Lemma decode_telemetry_spec l tel : decode_telemetry l = Ok tel -> BacktestTelemetry_init (te_stages tel) (te_counters tel) = Ok tel.
Proof.
  unfold decode_telemetry. intros Ht. do 6 apply bind_Ok_inv in Ht as (? & _ & Ht). cbv zeta in Ht.
  do 2 apply bind_Ok_inv in Ht as (? & _ & Ht). apply bind_Ok_inv in Ht as (values & _ & Ht).
  pose proof Ht as Hinit. unfold BacktestTelemetry_init in Ht. do 2 apply guard_bind_Ok in Ht as [_ Ht]. by injection Ht as <-.
Qed.

Definition table_at limits src t fm (x : string * Fr) (y : bytes * Z) : Prop :=
  t !! (src // (x.1 +:+ ".arrow")) = Some (File y.1) /\ len y.1 <= max_table_bytes limits /\
  dict_get fm x.1 = Some (mkFrameMetadata (x.1 +:+ ".arrow") (sha256_hex y.1) (fr_height x.2) (fr_schema x.2)) /\
  inspect_ipc y.1 (fr_schema x.2) (fr_height x.2) limits = Ok y.2 /\ fr_read_ipc y.1 = Ok x.2.

(** [r] is what the files at [src] say, within the limits: from a manifest read
    whole, with the tables [fm] it lists, the bytes and the checked size of each *)
Record loaded_from limits src t r manifest fm (tables : list (bytes * Z)) : Prop := {
  lf_manifest : manifest_read limits src t manifest /\ supported manifest = true;
  lf_frames : exists v, getitem manifest "frames" = Ok v /\ validate_frame_manifest v limits = Ok fm;
  lf_tables : Forall2 (table_at limits src t fm) (frames r) tables;
  lf_bytes : sumZ (len <$> tables.*1) <= max_total_bytes limits;
  lf_decoded : sumZ tables.*2 <= max_total_decoded_bytes limits;
  lf_rows : sumZ ((fun x => fr_height x.2) <$> frames r) <= max_total_rows limits;
  lf_provenance : exists data fp, getitem manifest "provenance" = Ok (VMap data) /\ text_at data "run_fingerprint" = Ok fp /\
    run_fingerprint (br_provenance r) = Ok fp;
  lf_configuration : valid_configuration (rp_configuration (br_provenance r));
  lf_telemetry : BacktestTelemetry_init (te_stages (br_telemetry r)) (te_counters (br_telemetry r)) = Ok (br_telemetry r);
}.

Lemma keys_nodup l names : NoDup l.*1 -> NoDup names -> keys_are l names = true -> l.*1 ≡ₚ Some <$> names.
Proof.
  intros Hl Hn Hk. unfold keys_are in Hk. apply andb_true_iff in Hk as [H1' H2'].
  rewrite forallb_forall in H1', H2'. apply NoDup_Permutation; [done|by apply NoDup_fmap_2; [apply _|]|]. intros k. split.
  - intros Hin. by apply list_elem_of_In, H1', bool_decide_eq_true in Hin.
  - intros (n & -> & Hin)%list_elem_of_fmap. by apply list_elem_of_In, H2', bool_decide_eq_true in Hin.
Qed.

Lemma getitem_unique manifest name l : unique_keys (VMap manifest) = true -> getitem manifest name = Ok (VMap l) -> NoDup l.*1.
Proof.
  unfold getitem. intros Hu Hg. destruct (dict_get manifest _) as [v|] eqn:Hv; simplify_eq. apply dict_get_Some_In in Hv.
  cbn [unique_keys] in Hu. apply andb_true_iff in Hu as [_ Hu]. rewrite forallb_forall in Hu.
  apply list_elem_of_In, Hu in Hv. cbn [snd unique_keys] in Hv. by apply andb_true_iff in Hv as [?%bool_decide_eq_true _].
Qed.

Lemma names_nodup : NoDup FRAME_NAMES.
Proof. by apply (bool_decide_unpack _). Qed.

(** The payloads are found again under their names. *)
Lemma zip_get {A B} (names : list string) (l : list A) (f : A -> B) : NoDup names -> length names = length l ->
  Forall2 (fun n x => dict_get (zip names (f <$> l)) n = Some (f x)) names l.
Proof.
  intros Hnd Hlen. apply Forall2_same_length_lookup_2; [done|]. intros i n x Hn Hx.
  assert ((zip names (f <$> l)).*1 = names) as Hk by (apply fst_zip; rewrite length_fmap; lia).
  apply dict_In_get; [unfold dict_wf, dict_keys; by rewrite Hk|]. apply list_elem_of_lookup. exists i.
  rewrite lookup_zip_with, Hn. simpl. by rewrite list_lookup_fmap, Hx.
Qed.

Lemma tables_combine limits src t fm payloads names decoded tables :
  Forall (fun x => fm_file x.2 = (x.1 +:+ ".arrow")%string) fm ->
  Forall2 (frame_read limits src t fm) names tables ->
  Forall2 (fun n y => dict_get payloads n = Some y.1) names tables ->
  Forall2 (fun n frame => decode_frame (Fr:=Fr) fm payloads n = Ok frame) names decoded ->
  Forall2 (table_at limits src t fm) (zip names decoded) tables.
Proof.
  intros Hfile Hr. revert decoded. induction Hr as [|n y names tables Hy _ IH]; intros decoded Hp Hd; [inv Hd; constructor|].
  apply Forall2_cons_1 in Hp as [Hp Hps]. destruct decoded as [|frame decoded]; [inv Hd|]. apply Forall2_cons_1 in Hd as [Hdec Hd].
  simpl. constructor; [|by apply IH].
  destruct Hy as (m & Hm & Hf & Hl & Hsha & Hi). unfold decode_frame in Hdec.
  rewrite Hm, Hp in Hdec. cbn [mbind result_bind] in Hdec. apply bind_Ok_inv in Hdec as (frame' & Hread & Hdec).
  apply guard_bind_Ok in Hdec as [Hshape Hdec]. injection Hdec as ->. bools. subst.
  assert (fm_file m = (n +:+ ".arrow")%string) as Hname.
  { apply dict_get_Some_In in Hm. rewrite Forall_forall in Hfile. by apply (Hfile (n, m)). }
  unfold table_at. simpl. rewrite <- Hname, Hsha. destruct m as [file sha rows schema]. simpl in *. subst. by split_and!.
Qed.

Lemma rows_bound fm r : fm.*1 ≡ₚ FRAME_NAMES ->
  Forall (fun x => exists m, dict_get fm x.1 = Some m /\ fm_rows m = fr_height x.2) (frames r) ->
  sumZ ((fun x => fr_height x.2) <$> frames r) = rows_of fm.
Proof.
  intros Hk Hf. unfold rows_of.
  assert ((fun x => (x.1, fr_height x.2)) <$> frames r ≡ₚ (fun x => (x.1, fm_rows x.2)) <$> fm) as Hp.
  { apply submseteq_length_Permutation.
    - apply NoDup_submseteq.
      + apply (NoDup_fmap_1 fst). rewrite <- list_fmap_compose. apply names_nodup.
      + intros z (x & -> & Hx)%list_elem_of_fmap. rewrite Forall_forall in Hf. destruct (Hf x Hx) as (m & Hm & <-).
        apply dict_get_Some_In in Hm. by apply (list_elem_of_fmap_2 (fun x => (x.1, fm_rows x.2)) _ (x.1, m)).
    - rewrite !length_fmap. apply Permutation_length in Hk. rewrite length_fmap in Hk. rewrite Hk. done. }
  apply (fmap_Permutation snd) in Hp. rewrite <- !list_fmap_compose in Hp. by apply sumZ_perm.
Qed.

Lemma manifest_unique c manifest : decode_manifest c = Ok manifest -> unique_keys (VMap manifest) = true.
Proof.
  unfold decode_manifest. intros Hd. apply bind_Ok_inv in Hd as (pairs & _ & Hd). apply bind_Ok_inv in Hd as (v & Hv & Hd).
  apply unique_json_keys in Hv. unfold as_object in Hd. by destruct v; simplify_eq.
Qed.

Lemma frames_init q tel decoded r : BacktestResult_init q tel decoded = Ok r ->
  frames r = zip FRAME_NAMES decoded /\ br_provenance r = q /\ br_telemetry r = tel.
Proof. unfold BacktestResult_init. intros Hr. do 10 (destruct decoded as [|? decoded]; try discriminate Hr). by injection Hr as <-. Qed.

Lemma reads_bundle limits src t c manifest : BundleLoadLimits_post_init limits = Ok tt ->
  t !! (src // "manifest.json"%string) = Some (File c) -> len c <= max_manifest_bytes limits -> decode_manifest c = Ok manifest ->
  supported manifest = true ->
  reads t (decode_bundle limits src manifest) (fun r => exists fm tables, loaded_from limits src t r manifest fm tables).
Proof.
  intros Hlim Hfile Hlen Hdec Hsup. unfold decode_bundle.
  eapply reads_bind; [apply reads_lift with (R := fun fm => exists v, getitem manifest "frames" = Ok v /\ validate_frame_manifest v limits = Ok fm)|].
  { apply fails_bind; [apply fails_getitem|]. intros v. apply fails_frame_manifest. }
  { intros fm Hfm. by apply bind_Ok_inv in Hfm. }
  intros fm (v & Hv & Hfm). eapply reads_bind; [apply reads_lift with (R := fun q => decode_provenance manifest = Ok q); [apply fails_provenance|done]|].
  intros q Hq. eapply reads_bind; [apply reads_lift with (R := fun q => decode_telemetry manifest = Ok q); [apply fails_telemetry|done]|].
  intros tel Htel. eapply reads_bind; [by apply reads_frames|]. intros st (tables & Hf & Hpay & Hbytes & Hdecoded & Hbounds).
  eapply reads_bind; [apply reads_lift with (R := Forall2 (fun n frame => decode_frame (Fr:=Fr) fm st.2 n = Ok frame) FRAME_NAMES)|].
  { apply fails_mapM. intros n _. apply fails_decode_frame. }
  { intros l Hl. by apply mapM_Ok in Hl. }
  intros decoded Hd. apply reads_lift; [apply fails_init|]. intros r Hr. apply frames_init in Hr as (Hframes & Hprov & Htele).
  exists fm, tables. destruct (frame_manifest_spec v limits fm Hfm) as (l & -> & Hkeys & Hnames & Hfiles & Hrows).
  assert (Forall2 (table_at limits src t fm) (frames r) tables) as Htables.
  { rewrite Hframes. eapply tables_combine; [exact Hfiles|exact Hf| |exact Hd]. rewrite Hpay. cbn [snd app].
    apply zip_get; [apply names_nodup|by eapply Forall2_length]. }
  destruct (decode_provenance_spec _ _ Hq) as (data & fp & Hdata & Hfp & Hrun & Hvalid). simpl in *.
  destruct (Hbounds ltac:(done)) as [Hmaxb Hmaxd].
  assert (fm.*1 ≡ₚ FRAME_NAMES) as Hperm.
  { rewrite Hnames. rewrite (keys_nodup l FRAME_NAMES); [|by eapply getitem_unique; [by eapply manifest_unique|]|apply names_nodup|done].
    rewrite <- list_fmap_compose. done. }
  assert (sumZ ((fun x => fr_height x.2) <$> frames r) = rows_of fm) as Hsum.
  { apply rows_bound; [done|]. clear -Htables. induction Htables as [|x y xs ys (_ & _ & Hx & _) _ IH]; constructor; [|done]. by eexists. }
  split.
  - split; [by exists c|done].
  - by exists (VMap l).
  - done.
  - lia.
  - lia.
  - lia.
  - exists data, fp. by rewrite Hprov.
  - by rewrite Hprov.
  - rewrite Htele. by apply decode_telemetry_spec with manifest.
Qed.

(** Loading fails shut.  Whatever is at the source, with limits that are
    positive and calls that fail with [OSError] only, [load] changes nothing, and
    either raises [BacktestBundleError] or returns a result that is what the files
    say: read from a manifest of a supported version within its byte limit, each
    table from bytes within the limit that have the digest the manifest records,
    that passed the IPC preflight, and that have the height and schema recorded;
    all tables together within the limits on bytes, rows and decoded bytes; the
    fingerprint of the provenance is the one recorded, and configuration and
    telemetry are valid. *)
Theorem load_fails_shut limits src d : BundleLoadLimits_post_init limits = Ok tt ->
  let '(d', res) := BacktestResult_load src limits d in
  now d' = now d /\
  match res with
  | Ok r => exists manifest fm tables, loaded_from limits src (now d) r manifest fm tables
  | Err e => is_bundle_error e
  end.
Proof.
  intros Hlim. unfold BacktestResult_load, mbind at 1, ST_bind at 1. pose proof (reads_manifest limits src d) as Hm.
  destruct (read_manifest limits src d) as [d1 [manifest|e]]; [|done]. destruct Hm as [Hnow (c & Hc & Hlen & Hdec)].
  unfold mbind at 1, ST_bind at 1. destruct (supported manifest) eqn:Hsup; [|by split; [|eexists]]. cbn [st_guard mret ST_ret].
  pose proof (reads_bundle limits src (now d) c manifest Hlim Hc Hlen Hdec Hsup d1 Hnow) as Hb.
  unfold st_catch. destruct (decode_bundle limits src manifest d1) as [d2 [r|e]]; destruct Hb as [Hnow2 Hr]; [by split; [|exists manifest]|].
  split; [done|]. destruct Hr as [Hr|[m ->]]; [rewrite Hr|]; by eexists.
Qed.
End loading.
