(* ===== verification/BundleRoundtrip.v ===== *)
(** * What a saved bundle holds is read back

    Save writes the configuration, the provenance and the telemetry of a result
    as sorted JSON.  Here: what load decodes from them is the same configuration,
    the same run (the input fingerprints in the order of their names) with the
    same fingerprint, and the same telemetry. *)

From Stdlib Require Import Strings.Byte.
From S2P Require Import Prelude Numeric FactorIdentity FactorIdentityFacts Fs CacheFiles Ipc IpcFacts Configuration ConfigurationFacts Bundle BundleFacts.

#[local] Open Scope Z_scope.

(** What JSON and Polars write is read back; a digest is one. *)
Class BundleLaws (F Fr : Type) `{PyFloat F} `{!JsonText F bytes} `{!Sha256 bytes} `{!ManifestText F} `{!ResultFrames Fr} : Prop := {
  json_pairs_dumps v : json_plain v = true -> all_finite v = true -> json_pairs (json_dumps v ++ [x0a]) = Ok (sort_keys (F:=F) v);
  json_loads_text v : json_plain v = true -> all_finite v = true -> json_loads (json_text (F:=F) v) = Ok v;
  fr_read_write (frame : Fr) : fr_read_ipc (fr_write_ipc frame) = Ok frame;
  sha256_is_digest (c : bytes) : is_digest (sha256_hex c) = true;
}.

Section roundtrip.
Context {F Fr : Type} `{PyFloat F} `{!JsonText F bytes} `{!JsonTextLaws F bytes} `{!JsonLoadsPlain F bytes} `{!Sha256 bytes}.
Context `{!ManifestText F} `{!ResultFrames Fr} `{!Datetimes} `{!BundleLaws F Fr} `{!PolarsTypes} `{!World}.
Implicit Types (r : BacktestResult F Fr) (t : tree bytes) (p q : RunProvenance F bytes) (l : list (option string * value F)).

(** ** Values and their sorted forms *)

Lemma unique_json_plain (v : value F) : json_plain v = true -> unique_json v = Ok v.
Proof.
  induction v as [v Hs Hm|l IH|l IH] using value_nested_ind; intros Hp.
  - destruct v; try done; [by destruct (Hs l)|by destruct (Hm l)].
  - cbn [unique_json json_plain] in *. apply forallb_Forall_true in Hp.
    assert (mapM id (unique_json <$> l) = Ok l) as ->; [|done]. apply mapM_Ok, Forall2_fmap_l, Forall_Forall2_diag.
    apply Forall_forall. intros x Hx. rewrite Forall_forall in IH, Hp. simpl. auto.
  - cbn [unique_json]. apply plain_map in Hp as [[Hnd _] Hp].
    assert (mapM (fun x => v ← x.2; Ok (x.1, v)) ((fun x => (x.1, unique_json x.2)) <$> l) = Ok l) as ->.
    { apply mapM_Ok, Forall2_fmap_l, Forall_Forall2_diag, Forall_forall. intros [k v] Hx. rewrite Forall_forall in IH, Hp.
      pose proof (IH _ Hx (Hp _ Hx)) as Hv. simpl in *. by rewrite Hv. }
    cbn [mbind result_bind]. by rewrite bool_decide_true.
Qed.

Lemma forallb_perm {A} (f : A -> bool) (k k' : list A) : k ≡ₚ k' -> forallb f k = forallb f k'.
Proof.
  intros Hp. apply eq_iff_eq_true. rewrite !forallb_forall. setoid_rewrite <- list_elem_of_In. by setoid_rewrite Hp.
Qed.

Lemma all_finite_sort (v : value F) : all_finite (sort_keys v) = all_finite v.
Proof.
  induction v as [v Hs Hm|l IH|l IH] using value_nested_ind.
  - destruct v; try done; [by destruct (Hs l)|by destruct (Hm l)].
  - cbn [sort_keys all_finite]. induction IH as [|x l Hx _ IHl]; [done|]. rewrite fmap_cons. cbn [forallb]. by rewrite Hx, IHl.
  - cbn [sort_keys all_finite]. rewrite (forallb_perm _ _ _ (sorted_items_perm _)).
    induction IH as [|x l Hx _ IHl]; [done|]. rewrite fmap_cons. cbn [forallb snd]. by rewrite Hx, IHl.
Qed.

(** ** Provenance *)

(** A configuration the constructor makes of its own fields *)
Definition own_configuration (c : RunConfiguration F) : Prop :=
  RunConfiguration_init (match rc_starting_equity c with EquityInt z => PInt z | EquityFloat x => PFloat x end) (PInt (rc_pnl_calc_time c))
    (PInt (rc_trade_lag c)) (PBool (rc_run_final_calc c)) (PBool (rc_log_trades c)) (PBool (rc_log_orders c)) = Ok c.

Lemma configuration_read (c : RunConfiguration F) l : own_configuration c -> sort_keys (configuration_asdict c) = VMap l ->
  configuration_from l = Ok c.
Proof.
  intros Hc Hl. rewrite sorted_asdict in Hl. injection Hl as <-. unfold own_configuration in Hc.
  rewrite <- Hc. by destruct c as [[z|x] ? ? ? ? ?].
Qed.

(** The provenance as it comes back *)
Definition read_provenance p : RunProvenance F bytes :=
  mkProvenance (rp_configuration p) ((fun x => (key_text x.1, text_of (Some x.2))) <$> sorted_inputs (F:=F) (rp_input_fingerprints p))
    (rp_package_version p) (rp_git_commit p) (rp_captured_at p) (rp_execution_manifest_json p).

Lemma fingerprints_perm (inputs : list (string * string)) :
  (fun x => (key_text x.1, text_of (Some x.2))) <$> sorted_inputs (F:=F) inputs ≡ₚ inputs.
Proof.
  unfold sorted_inputs. rewrite sorted_items_perm, <- list_fmap_compose.
  assert ((fun x => (key_text x.1, text_of (Some x.2))) ∘ (fun x : string * string => item (F:=F) x.1 (VStr x.2)) <$> inputs = inputs) as ->; [|done].
  induction inputs as [|[k s] inputs IH]; [done|]. rewrite fmap_cons. by f_equal.
Qed.

Lemma read_same_run p : same_run (read_provenance p) p.
Proof. split_and!; try done. apply fingerprints_perm. Qed.

Lemma read_made p : made p -> made (read_provenance p).
Proof.
  intros [Hp Hnd]. split.
  - unfold RunProvenance_init in *. apply bind_Ok_inv in Hp as (m & Hm & Hp). cbn [read_provenance rp_configuration rp_input_fingerprints
      rp_package_version rp_git_commit rp_captured_at rp_execution_manifest_json].
    rewrite Hm. cbn [mbind result_bind]. injection Hp as Hp. unfold read_provenance. do 2 f_equal. by rewrite <- Hp.
  - simpl. by rewrite (fingerprints_perm (rp_input_fingerprints p)).
Qed.

Lemma run_payload_same p q : made p -> made q -> same_run p q -> run_fingerprint p = run_fingerprint q.
Proof.
  intros Hp Hq Hs. destruct (run_identity_sorted p Hp) as (v & Hv & Hpl & Hsort), (run_identity_sorted q Hq) as (v' & Hv' & Hpl' & Hsort').
  apply (sorted_identity_inj p q Hp Hq) in Hs. unfold run_fingerprint. rewrite Hv, Hv'. cbn [mbind result_bind].
  unfold digest_of, canonical_json. rewrite (json_dumps_sorted v), (json_dumps_sorted v') by done.
  rewrite <- (all_finite_sort v), <- (all_finite_sort v'). by rewrite Hsort, Hsort', Hs.
Qed.

(** The items of a snapshot in the order of their keys *)
Definition sorted_provenance p (digest fingerprint : string) (execution : list (option string * value F)) : list (option string * value F) :=
  [item "captured_at" (VStr (rp_captured_at p)); item "configuration" (sort_keys (configuration_asdict (rp_configuration p)));
   item "configuration_digest" (VStr digest)] ++ execution ++
  [item "git_commit" (optional_text (rp_git_commit p)); item "input_fingerprints" (VMap (sorted_inputs (rp_input_fingerprints p)));
   item "package_version" (VStr (rp_package_version p)); item "run_fingerprint" (VStr fingerprint)].

Definition execution_item p l : Prop :=
  match rp_execution_manifest_json p with
  | None => l = []
  | Some text => exists m, l = [item "execution_manifest" m] /\ json_loads text = Ok m /\ json_dumps m = text /\ json_plain m = true
  end.

Lemma snapshot_sorted p v : made p -> provenance_snapshot p = Ok v -> exists digest fingerprint execution,
  configuration_digest (rp_configuration p) = Ok digest /\ run_fingerprint p = Ok fingerprint /\ execution_item p execution /\
  json_plain v = true /\ sort_keys v = VMap (sorted_provenance p digest fingerprint execution).
Proof.
  intros Hp Hv. unfold provenance_snapshot in Hv. apply bind_Ok_inv in Hv as (digest & Hd & Hv).
  apply bind_Ok_inv in Hv as (fp & Hfp & Hv). apply bind_Ok_inv in Hv as (items & Hitems & Hv). injection Hv as <-.
  pose proof (plain_fingerprints p Hp) as Hin. pose proof (sort_inputs (F:=F) _ (proj2 Hp)) as Hsort.
  assert (json_plain (configuration_asdict (rp_configuration p)) = true) as Hc by (by destruct (rp_configuration p) as [[] ? ? ? ? ?]; vm_compute).
  assert (json_plain (optional_text (F:=F) (rp_git_commit p)) = true /\ sort_keys (optional_text (F:=F) (rp_git_commit p)) = optional_text (rp_git_commit p))
    as [Hg Hg'] by by destruct (rp_git_commit p).
  exists digest, fp, items. split; [done|]. split; [done|]. unfold execution_item, sorted_provenance, sorted_fingerprints in *.
  fold (sorted_inputs (F:=F) (rp_input_fingerprints p)) in *. cbn [sort_keys] in Hsort. pose proof (made_manifest p Hp) as Hm.
  destruct (rp_execution_manifest_json p) as [text|].
  - destruct Hm as (m & Hload & Htext & Hpm & Hi). rewrite Hi in Hitems. injection Hitems as <-. pose proof (json_dumps_sorted m Hpm) as Hds.
    apply sort_keys_plain in Hpm as [Hpm Hid]. split_and!.
    + exists (sort_keys m). by rewrite <- Hds.
    + cbn [json_plain app forallb item fst snd fmap list_fmap] in *. rewrite Hc, Hin, Hg, Hpm. by vm_compute.
    + cbn [sort_keys app fmap list_fmap item fst snd]. rewrite Hg', Hsort, Hid.
      generalize (sort_keys (configuration_asdict (rp_configuration p))) (sort_keys m) (optional_text (F:=F) (rp_git_commit p))
        (VMap (sorted_inputs (F:=F) (rp_input_fingerprints p))) (VStr (F:=F) (rp_package_version p)) (VStr (F:=F) (rp_captured_at p))
        (VStr (F:=F) digest) (VStr (F:=F) fp). reflexivity.
  - rewrite Hm in Hitems. injection Hitems as <-. split_and!; [done| |].
    + cbn [json_plain app forallb item fst snd fmap list_fmap] in *. rewrite Hc, Hin, Hg. by vm_compute.
    + cbn [sort_keys app fmap list_fmap item fst snd]. rewrite Hg', Hsort.
      generalize (sort_keys (configuration_asdict (rp_configuration p))) (optional_text (F:=F) (rp_git_commit p))
        (VMap (sorted_inputs (F:=F) (rp_input_fingerprints p))) (VStr (F:=F) (rp_package_version p)) (VStr (F:=F) (rp_captured_at p))
        (VStr (F:=F) digest) (VStr (F:=F) fp). reflexivity.
Qed.

(** Look a key up in a mapping whose keys are known. *)
Ltac get_step :=
  match goal with
  | |- context [getitem ?d ?k] => let r := eval hnf in (getitem d k) in change (getitem d k) with r
  | |- context [text_at ?d ?k] => let r := eval hnf in (text_at d k) in change (text_at d k) with r
  end; cbn [mbind result_bind].

Lemma init_same_text c inputs version commit captured (e e' : bytes) : json_loads (F:=F) e = json_loads e' ->
  RunProvenance_init c inputs version commit captured (Some e) = RunProvenance_init c inputs version commit captured (Some e').
Proof. intros He. unfold RunProvenance_init. by rewrite He. Qed.

Lemma texts_only (inputs : list (string * string)) : forallb (fun x => is_text x.2) (sorted_inputs (F:=F) inputs) = true.
Proof. apply forallb_Forall_true. unfold sorted_inputs. rewrite sorted_items_perm. apply Forall_fmap, Forall_true. done. Qed.

Lemma provenance_read p v manifest : made p -> own_configuration (rp_configuration p) ->
  fromisoformat (rp_captured_at p) = Ok (rp_captured_at p) -> provenance_snapshot p = Ok v -> all_finite v = true ->
  getitem manifest "provenance" = Ok (sort_keys v) -> decode_provenance manifest = Ok (read_provenance p).
Proof.
  intros Hp Hc Hiso Hv Hfin Hget. destruct (snapshot_sorted p v Hp Hv) as (digest & fp & execution & Hd & Hfp & Hexe & _ & Hsort).
  rewrite <- all_finite_sort, Hsort in Hfin. unfold decode_provenance. rewrite Hget, Hsort. cbn [mbind result_bind as_object].
  pose proof (proj1 (read_made p Hp)) as Hinit. pose proof (configuration_read _ _ Hc (sorted_asdict _)) as Hread.
  rewrite <- (run_payload_same (read_provenance p) p (read_made p Hp) Hp (read_same_run p)) in Hfp.
  unfold execution_item, sorted_provenance in *. rewrite sorted_asdict in *.
  assert (match optional_text (F:=F) (rp_git_commit p) with
    | VNone => Ok None | VStr s => Ok (Some s) | _ => Err (bundle_error "provenance git_commit must be a string or null") end =
    Ok (rp_git_commit p)) as Hcommit by by destruct (rp_git_commit p).
  cbn [read_provenance rp_configuration rp_input_fingerprints rp_package_version rp_git_commit rp_captured_at rp_execution_manifest_json] in Hinit.
  destruct (rp_execution_manifest_json p) as [e|] eqn:Hexec.
  - destruct Hexe as (m & -> & Hload & _ & Hplain). cbn [app] in *.
    assert (all_finite m = true) as Hm by (cbn [all_finite forallb item fst snd] in Hfin; bools; done).
    repeat get_step. cbn [as_object mbind result_bind]. repeat get_step. rewrite texts_only. cbn [guard_ok mbind result_bind]. repeat get_step.
    rewrite Hcommit. cbn [mbind result_bind]. rewrite Hread. cbn [mbind result_bind]. rewrite Hiso. cbn [mbind result_bind].
    change (dict_get _ (Some "execution_manifest"%string)) with (Some m). cbv iota beta. rewrite Hm. cbn [guard_ok mbind result_bind].
    rewrite (init_same_text _ _ _ _ _ (json_text m) e), Hinit by by rewrite json_loads_text. cbn [mbind result_bind].
    cbn [read_provenance rp_configuration]. rewrite Hd. cbn [mbind result_bind]. rewrite String.eqb_refl. cbn [guard_ok mbind result_bind].
    rewrite Hfp. cbn [mbind result_bind]. by rewrite String.eqb_refl.
  - subst execution. cbn [app] in *.
    repeat get_step. cbn [as_object mbind result_bind]. repeat get_step. rewrite texts_only. cbn [guard_ok mbind result_bind]. repeat get_step.
    rewrite Hcommit. cbn [mbind result_bind]. rewrite Hread. cbn [mbind result_bind]. rewrite Hiso. cbn [mbind result_bind].
    change (dict_get _ (Some "execution_manifest"%string)) with (None (A:=value F)). cbn [mbind result_bind]. rewrite Hinit. cbn [mbind result_bind].
    cbn [read_provenance rp_configuration]. rewrite Hd. cbn [mbind result_bind]. rewrite String.eqb_refl. cbn [guard_ok mbind result_bind].
    rewrite Hfp. cbn [mbind result_bind]. by rewrite String.eqb_refl.
Qed.

(** ** Telemetry *)

(** Telemetry of the constructors, with times that are finite *)
Definition good_stage (s : StageTelemetry F) : Prop :=
  StageTelemetry_init (sg_name s) (sg_elapsed_seconds s) (sg_cpu_seconds s) (sg_units s) = Ok s /\
  stage_seconds (number_value (sg_elapsed_seconds s)) = Ok (sg_elapsed_seconds s) /\
  stage_seconds (number_value (sg_cpu_seconds s)) = Ok (sg_cpu_seconds s).
Record good_telemetry (tel : BacktestTelemetry F) : Prop := {
  gt_init : BacktestTelemetry_init (te_stages tel) (te_counters tel) = Ok tel;
  gt_stages : Forall good_stage (te_stages tel);
  gt_counters : length (te_counters tel) = length COUNTER_NAMES;
}.

Definition sorted_stage (s : StageTelemetry F) : list (option string * value F) :=
  [item "cpu_seconds" (number_value (sg_cpu_seconds s)); item "elapsed_seconds" (number_value (sg_elapsed_seconds s));
   item "name" (VStr (sg_name s)); item "units" (VInt (sg_units s))].

Lemma sort_stage s : sort_keys (stage_asdict s) = VMap (sorted_stage s).
Proof. destruct s as [? [] [] ?]; reflexivity. Qed.

Lemma stage_read s : good_stage s ->
  check_stage (VMap (sorted_stage s)) = Ok (sorted_stage s, (sg_name s, sg_elapsed_seconds s, sg_cpu_seconds s, sg_units s)) /\
  make_stage (sorted_stage s, (sg_name s, sg_elapsed_seconds s, sg_cpu_seconds s, sg_units s)) = Ok s.
Proof.
  intros (Hinit & Helapsed & Hcpu). split.
  - assert ((sg_units s <? 0) = false) as Hunits.
    { unfold StageTelemetry_init in Hinit. do 2 apply guard_bind_Ok in Hinit as [? Hinit]. bools. by apply Z.ltb_ge. }
    unfold check_stage. cbn [as_object mbind result_bind]. unfold sorted_stage. repeat get_step. rewrite Hunits. cbn [negb guard_ok mbind result_bind].
    repeat get_step. rewrite Helapsed. cbn [mbind result_bind]. repeat get_step. rewrite Hcpu. done.
  - exact Hinit.
Qed.

Lemma telemetry_read tel manifest : good_telemetry tel -> getitem manifest "telemetry" = Ok (sort_keys (telemetry_asdict tel)) ->
  decode_telemetry manifest = Ok tel.
Proof.
  intros [Hinit Hstages Hlen] Hget. destruct tel as [stages counters]. cbn [te_stages te_counters] in *.
  do 9 (destruct counters as [|? counters]; try discriminate Hlen). clear Hlen.
  assert (mapM check_stage ((VMap ∘ sorted_stage) <$> stages) = Ok ((fun s => (sorted_stage s, (sg_name s, sg_elapsed_seconds s, sg_cpu_seconds s, sg_units s))) <$> stages)) as Hcheck.
  { apply mapM_Ok, Forall2_fmap, Forall_Forall2_diag. eapply Forall_impl; [exact Hstages|]. intros s Hs. by apply stage_read. }
  assert (mapM make_stage ((fun s => (sorted_stage s, (sg_name s, sg_elapsed_seconds s, sg_cpu_seconds s, sg_units s))) <$> stages) = Ok stages) as Hmake.
  { apply mapM_Ok, Forall2_fmap_l, Forall_Forall2_diag. eapply Forall_impl; [exact Hstages|]. intros s Hs. by apply stage_read. }
  assert (sort_keys <$> (stage_asdict <$> stages) = (VMap ∘ sorted_stage) <$> stages) as Hsort.
  { rewrite <- list_fmap_compose. apply list_fmap_ext. intros _ s _. apply sort_stage. }
  pose proof Hinit as Hneg. unfold BacktestTelemetry_init in Hneg. apply guard_bind_Ok in Hneg as [Hneg _].
  cbn [existsb] in Hneg. bools.
  set (counters := [item "orders_accepted" (VInt z1); item "orders_cancelled" (VInt z4); item "orders_filled" (VInt z3); item "orders_open" (VInt z5);
    item "orders_proposed" (VInt z0); item "orders_rejected" (VInt z2); item "timestamps_processed" (VInt z); item "trades_executed" (VInt (F:=F) z6)]).
  set (D := take 6 counters ++ [item "stages" (VSeq ((VMap ∘ sorted_stage) <$> stages))] ++ drop 6 counters).
  assert (sort_keys (telemetry_asdict (mkBacktestTelemetry stages [z; z0; z1; z2; z3; z4; z5; z6])) = VMap D) as HD.
  { unfold telemetry_asdict, D, counters. cbn [te_stages te_counters COUNTER_NAMES zip_with sort_keys item fst snd fmap list_fmap take drop app].
    rewrite Hsort. generalize (VSeq ((VMap ∘ sorted_stage) <$> stages)). reflexivity. }
  assert (forall v : Z, (v <? 0) = false -> counter_of (VInt (F:=F) v) = Ok v) as Hcounter by (intros v Hv; unfold counter_of; by rewrite Hv).
  unfold decode_telemetry. rewrite Hget, HD. cbn [as_object mbind result_bind].
  change (getitem D "stages") with (Ok (VSeq ((VMap ∘ sorted_stage) <$> stages))). cbn [mbind result_bind].
  assert (filter (fun x => x.1 <> Some "stages"%string) D = counters) as -> by reflexivity.
  rewrite Hcheck. cbn [mbind result_bind].
  assert (iterE (fun x => _ ← counter_of x.2; Ok ()) counters = Ok ()) as ->.
  { apply iterE_Ok. unfold counters. repeat constructor; cbn [snd item]; by rewrite Hcounter by (apply Z.ltb_ge; lia). }
  cbn [mbind result_bind]. rewrite Hmake. cbn [mbind result_bind]. change (keywords counters COUNTER_NAMES) with (Ok tt). cbn [mbind result_bind].
  assert (mapM (fun name => match dict_get counters (Some name) with Some v => counter_of v | None => Err (TypeError "missing required positional argument") end)
    COUNTER_NAMES = Ok [z; z0; z1; z2; z3; z4; z5; z6]) as ->; [|exact Hinit].
  apply mapM_Ok. unfold COUNTER_NAMES. repeat (constructor; [apply Hcounter, Z.ltb_ge; lia|]). constructor.
Qed.
End roundtrip.
